(* ===== verification/_CoqProject ===== *)
-Q . S2P
Prelude.v
Ieee.v
IeeeRatio.v
IeeeValue.v
Bytes.v
Core.v
HotPath.v
Decimal.v
Schemas.v
BrokerApi.v
KillSwitch.v
RiskTables.v
Approval.v
Config.v
Decision.v
RiskEngine.v
OrderFlow.v
OrderFlowDetector.v
OrderFlowEngine.v
Features.v
FeatureFacts.v
WarmCache.v
Replay.v
ReplaySegments.v
ReplayPlayer.v
Lifecycle.v
Retry.v
Router.v
ExecEngine.v
LiveRoute.v
RiskService.v
Pipeline.v
Wire.v
Breadth.v
MarketData.v
Ingest.v
UiJoin.v
UiGateway.v
UiFacts.v
Signals.v
SignalFacts.v
Backtest.v
Position.v
SimBook.v
SimBroker.v
VendorHttp.v
Vendors.v
VendorFacts.v
Session.v
Supervisor.v
VendorFeed.v
VendorFeedFacts.v
Bus.v
Observability.v
LogShipping.v
PositionService.v
ConfigFile.v
Synth.v
SynthGen.v
SynthChain.v
SynthFacts.v
ReplayCli.v
ReplayTools.v
UpstoxImport.v
Services.v
ServiceFacts.v
LiveService.v
GatewayMain.v
