(* ===== verification/Prelude.v ===== *)
(** * HEDGE OS in Rocq

    HEDGE OS is an intraday trading system written in Rust (src/crates), a set of services that
    talk over a NATS bus.  This library models the path from the exchange feed to a position, the
    services that watch over it, and what they are built on, and proves what makes them correct.

    ** The program and the files

    The feed publishes ticks and books; feature, order-flow and breadth engines compute on them; the
    signal engine emits signals; the risk engine refuses a signal or signs an approval; the execution
    engine verifies the approval, routes the order through a broker adapter with retries and failover
    and follows it through its life; the position engine turns fills into positions and an account
    state.  A session service announces the trading window, a supervisor reacts to failures, a gateway
    serves the operator's screen, a replay service records and plays back sessions, and a synthesizer
    publishes demonstration data where no real publisher is alive.

    Foundations
    - Prelude.v (this file): machine integers, [result], the error-and-state monad [SE] of the
      handlers, ordered maps, sorting, the shared lemmas, tactics and the hint database [hedge].
    - Ieee.v, IeeeRatio.v, IeeeValue.v: [f32] and [f64] as SpecFloat numbers; casts, order, exact
      integers, and how far rounded quotients and products are from the exact values.  Decimal.v:
      [f64::from_str] and prices printed in rupees.
    - Bytes.v: big-endian integers, hexadecimal, integer texts.
    - Core.v: hedge-core (price.rs, ids.rs, enums.rs, window.rs).  HotPath.v: its rings, clock and
      timers (ring.rs, clock.rs), over classes of queues and instants.  Schemas.v, BrokerApi.v:
      hedge-schemas (lib.rs), hedge-broker-api (lib.rs); [BrokerAdapter] is the adapter trait as a
      record of operations over a world.  Wire.v: the fixed-layout messages and all their readers.
    - Config.v, ConfigFile.v: hedge-config; the second has the loader and the two holders.
    - Bus.v: hedge-bus, subjects, codecs and streams over the servers, which are parameters.

    Market data and analytics
    - MarketData.v, Ingest.v, Breadth.v: hedge-market-data, interning, ingestion and breadth.
      VendorFeed.v, VendorFeedFacts.v: its polling feed (bin/upstox_feed.rs).
    - OrderFlow.v, OrderFlowDetector.v, OrderFlowEngine.v: hedge-orderflow.  Features.v,
      FeatureFacts.v: hedge-features.  Signals.v, SignalFacts.v, Backtest.v: hedge-signals.
    - WarmCache.v: hedge-warmcache, an instance of the class [WarmCacheView] of Decision.v.

    Risk and execution
    - KillSwitch.v, RiskTables.v, Approval.v, Decision.v, RiskEngine.v: hedge-risk.
      [KillSwitchConc.step] interleaves the atomic steps of concurrent callers.  RiskService.v: its
      binary and its saved state.
    - Lifecycle.v, Retry.v, Router.v, ExecEngine.v, LiveRoute.v: hedge-exec (error.rs and
      lifecycle.rs; retry.rs; router.rs; engine.rs; main.rs).  [JitterSource] is the class of jitter
      sources.  Pipeline.v: the risk service and the execution handler over the bus.  LiveService.v:
      the two tasks of the execution binary around that handler, [ExecService.step] interleaving them,
      its adapters, and the binary behind the gateway.
    - Position.v, PositionService.v: hedge-position, its engine and its binary.
    - SimBook.v, SimBroker.v: hedge-broker-simulated.  VendorHttp.v, Vendors.v, VendorFacts.v: the
      adapters of the five vendors.  All are instances of [BrokerAdapter].

    Around them
    - Session.v: hedge-session; its two controllers are one machine, instantiated twice.
      Supervisor.v: hedge-supervisor.
    - UiJoin.v, UiGateway.v, UiFacts.v: hedge-ui-gateway, its library.  [Json] is the class of documents.
      GatewayMain.v: its binary (main.rs, decoder_shim.rs, gateway.rs), from the bus to the connections,
      and the signal service before it.
    - Replay.v, ReplaySegments.v, ReplayPlayer.v: hedge-replay, its library.  ReplayCli.v: its command
      line and the playback onto the bus (main.rs).  ReplayTools.v: the canonical session, the
      regression harness and the inspections (src/bin).  UpstoxImport.v: historical candles as a
      session (bin/upstox-import.rs of hedge-demo-synth) and a session as a table (bin/export_csv.rs
      of hedge-signals).
    - Services.v, ServiceFacts.v: the binaries of the three analysis engines (bin/main.rs of
      hedge-features, hedge-signals, hedge-orderflow), and these services put together over the bus.
    - Observability.v, LogShipping.v: hedge-obs.
    - Synth.v, SynthGen.v, SynthChain.v, SynthFacts.v: hedge-demo-synth.  A generator is an action
      on its random numbers and effects; [Env] is what it finds outside.

    ** How code becomes definitions

    An integer is a [Z] with the width written in the operation: wrapping where the release
    profile wraps, saturating where the source saturates, [None] where it panics.  A handler
    on mutable state is a function of the state, or an [SE] action on a world that an error
    leaves as it was when it happened.  A [HashMap] is a [gmap], a [BTreeMap] a [gmap]
    iterated by [btree_iter].  A read of a clock is an argument or a numbered reading.  What a
    broker, a vendor's server, the bus, Redis, the file system, the time zone database, the
    calendar, a codec (JSON, YAML, rkyv), the natural logarithm or HMAC-SHA256 does, and the order in
    which a hash map is iterated, is a parameter, constrained by hypotheses only where a theorem says
    so.  A specification (a history, an ordered table, a list of boundaries, a batch definition) is
    defined beside the component it is for, under a heading that says so.

    ** What is proved

    - Risk: an evaluation decides by the first refusing gate of an ordered table, an approval respects
      every limit the gates check at its approved quantity, sizing is bounded; refusals for drawdown latch and follow
      the running peak; tokens bind their order; the tables agree with unbounded histories; the kill
      switch has one edge under any interleaving.
    - Execution: tokens are routed at most once, fill events account for an order, an order's state
      machine is safe, the router refines a specification on whole histories, retries are bounded and
      end; the brokers receive exactly the orders of the risk service's approvals; real orders follow the
      mode in force when their approval was taken, and need a trader who asked for it.
    - Position: profit and loss conserves cash, drawdown follows equity, emissions are throttled, the
      published account is the account.
    - Brokers: price priority and maximality, a consistent ledger; the vendor adapters fail closed,
      account for every call and carry prices without loss.
    - Analytics: incremental features and rolling deltas equal their batch definitions, reports of
      spoofing are justified, symbols do not influence each other, breadth is exact, the gates of a
      signal are exact and signals are well formed.
    - Data: every tick is accounted for, identifiers are unique and stable, messages and prices
      survive the wire and the vendor's documents, subjects never collide, a replay ledger survives
      rotation, a recorded session is played back and published whole at any pace, the canonical
      session is written and compared as it should be, imported candles of stocks reach the engines as ticks.
    - Services: the feature service keeps one history per symbol; what its snapshots, the signals and
      the order-flow reports can be, given what the services really send each other.
    - Watchers: window boundaries are announced exactly, outages are announced on a logarithmic
      schedule, backoff survives restarts, the log backlog follows the recovery of its
      collector and every line is accounted for, only a consistent configuration is loaded, intents need
      an open control channel, every message the gateway subscribes to is broadcast once and on the
      right channel.
    - Foundations: a ring is a bounded queue for all its clones, timestamps do not go back.
    - Demonstration data: the synthesizer yields exactly to real publishers, everything it publishes is
      marked and watched, its approvals reach no broker.
    - Behaviours that differ from what the code or its documentation means are stated as lemmas and
      theorems beside the component; among them: every execution is booked as a purchase at price
      zero ([executions_are_booked_as_free_purchases]), synthetic fills are booked again and again
      ([synthetic_fills_are_counted_again]), an order without a price passes every notional cap, a
      played session trades again ([replayed_session_trades_again]), the engines' signals reach no
      broker ([engine_signals_never_become_orders]) and no rank on the screen
      ([engine_signals_reach_the_screen_unranked]), a missing token of the primary broker stops every
      order ([missing_token_stops_every_order]).

    ** Bounds and fuel

    Recursion is structural wherever the source's is bounded by its data; [attempts] of Retry.v
    recurses on the attempts left, [poll_loop] of LiveRoute.v on the ten polls of the source, the
    polling loops of VendorFeed.v on the rounds of the clock readings, a generator of the synthesizer
    on its rounds, a playback on the instants at which it is polled, a service on its messages.  Fuel is used in [Controller.tick_loop] of Session.v (the number of deadlines the
    span can hold plus one), in the readers of the replay files (the bytes left), in the trimming of
    texts (their length) and in [fetch] of UpstoxImport.v (the requests made, without bound when the server limits
    the rate); the theorems on them prove that fuel enough and derive the result, or are about the
    requests that were answered.  Hypotheses on ranges are those of the Rust field types
    ([u32_ok] and the like) or bounds on quantities and prices that keep 64-bit sums from wrapping,
    stated in each theorem.  Times in Session.v are instants since 1970.

    ** What is not modelled

    The start-up of the service binaries and their connections; the metrics registry, the allocation
    harness and the third-party code they wrap; the tests and the generators of test data.
    Asynchronous calls are taken to run to completion one after the other, except in KillSwitch.v,
    MarketData.v, LiveService.v and LogShipping.v, where atomic steps interleave, in GatewayMain.v, whose connections
    interleave turn by turn and whose tasks in any merge, and in the synthesizer, whose tasks see
    arbitrary changes between two looks. *)

From stdpp Require Export base tactics strings pretty numbers sorting gmap fin_maps option list.

#[global] Open Scope Z_scope.


(** ** Machine integers

    An integer of the source is a [Z]; its width is the operation applied to it.
    [wrap_u w] and [wrap_s w] are Rust's [as] casts to the [w]-bit unsigned and
    signed types, and also what [+], [-] and [*] do on overflow in the release
    profile (no [overflow-checks] in Cargo.toml).  [sat lo hi] is what the
    [saturating_*] methods do. *)

Definition wrap_u (w z : Z) : Z := z mod 2 ^ w.
Definition wrap_s (w z : Z) : Z := (z + 2 ^ (w - 1)) mod 2 ^ w - 2 ^ (w - 1).
Definition sat (lo hi z : Z) : Z := if z <? lo then lo else if hi <? z then hi else z.

Definition u32_max : Z := 4294967295.
Definition u64_max : Z := 18446744073709551615.
Definition i64_max : Z := 9223372036854775807.
Definition i64_min : Z := -9223372036854775808.
Definition i128_max : Z := 170141183460469231731687303715884105727.
Definition i128_min : Z := -170141183460469231731687303715884105728.
Definition u128_max : Z := 340282366920938463463374607431768211455.

Definition u8_ok (z : Z) : Prop := 0 <= z <= 255.
Definition i8_ok (z : Z) : Prop := -128 <= z <= 127.
Definition u32_ok (z : Z) : Prop := 0 <= z <= u32_max.
Definition u64_ok (z : Z) : Prop := 0 <= z <= u64_max.
Definition i64_ok (z : Z) : Prop := i64_min <= z <= i64_max.
Definition u128_ok (z : Z) : Prop := 0 <= z <= u128_max.
Definition i128_ok (z : Z) : Prop := i128_min <= z <= i128_max.

Definition as_u8 : Z -> Z := wrap_u 8.
Definition as_u32 : Z -> Z := wrap_u 32.
Definition as_u64 : Z -> Z := wrap_u 64.
Definition as_i64 : Z -> Z := wrap_s 64.
Definition as_u128 : Z -> Z := wrap_u 128.
Definition as_i128 : Z -> Z := wrap_s 128.

Definition u64_sat_add (a b : Z) : Z := sat 0 u64_max (a + b).
Definition u64_sat_sub (a b : Z) : Z := sat 0 u64_max (a - b).
Definition u64_sat_mul (a b : Z) : Z := sat 0 u64_max (a * b).
Definition i64_sat_add (a b : Z) : Z := sat i64_min i64_max (a + b).
Definition i64_sat_sub (a b : Z) : Z := sat i64_min i64_max (a - b).
Definition i64_sat_mul (a b : Z) : Z := sat i64_min i64_max (a * b).
Definition i128_sat_add (a b : Z) : Z := sat i128_min i128_max (a + b).
Definition i128_sat_mul (a b : Z) : Z := sat i128_min i128_max (a * b).
Definition u128_sat_add (a b : Z) : Z := sat 0 u128_max (a + b).

#[global] Instance u8_ok_dec z : Decision (u8_ok z).
Proof. unfold u8_ok. apply _. Defined.
#[global] Instance u32_ok_dec z : Decision (u32_ok z).
Proof. unfold u32_ok. apply _. Defined.
#[global] Instance u64_ok_dec z : Decision (u64_ok z).
Proof. unfold u64_ok. apply _. Defined.
#[global] Instance i64_ok_dec z : Decision (i64_ok z).
Proof. unfold i64_ok. apply _. Defined.

(** [Result<A, E>]. *)

Inductive result (A E : Type) : Type :=
| Ok (a : A)
| Err (e : E).
Arguments Ok {A E} a.
Arguments Err {A E} e.

Definition is_ok {A E} (r : result A E) : bool :=
  match r with Ok _ => true | Err _ => false end.

Definition map_err {A E F} (f : E -> F) (r : result A E) : result A F :=
  match r with Ok a => Ok a | Err e => Err (f e) end.

(** [Option::ok_or]. *)
Definition ok_or {A E} (e : E) (o : option A) : result A E :=
  match o with Some a => Ok a | None => Err e end.

Definition is_some {A} (o : option A) : bool :=
  match o with Some _ => true | None => false end.

(** [Option::unwrap_or]. *)
Definition unwrap_or {A} (d : A) (o : option A) : A :=
  match o with Some a => a | None => d end.

(** ** Effectful code that can fail

    A handler of the source runs on a mutable world [W] and returns a [Result]:
    the world it leaves behind is kept whether it returns [Ok] or [Err], as a
    Rust [?] keeps every mutation made before it. *)

Definition SE (W E A : Type) : Type := W -> result A E * W.

Definition se_ret {W E A} (a : A) : SE W E A := fun w => (Ok a, w).
Definition se_fail {W E A} (e : E) : SE W E A := fun w => (Err e, w).
Definition se_bind {W E A B} (m : SE W E A) (k : A -> SE W E B) : SE W E B :=
  fun w => match m w with
           | (Ok a, w') => k a w'
           | (Err e, w') => (Err e, w')
           end.
Definition se_get {W E} : SE W E W := fun w => (Ok w, w).
Definition se_modify {W E} (f : W -> W) : SE W E unit := fun w => (Ok tt, f w).
Definition se_lift {W E A} (r : result A E) : SE W E A := fun w => (r, w).

Declare Scope se_scope.
Delimit Scope se_scope with se.
Notation "x <-? m ; k" := (se_bind m (fun x => k))
  (at level 100, m at next level, right associativity) : se_scope.
Notation "m ;? k" := (se_bind m (fun _ => k))
  (at level 100, right associativity) : se_scope.

(** ** Ordered maps

    A [BTreeMap<K, V>] with an integer key is a [gmap Z V]; where the source
    iterates it, it does so in ascending key order, which is [btree_iter]. *)

Definition key_le {V} (a b : Z * V) : Prop := a.1 <= b.1.
#[global] Instance key_le_dec {V} (a b : Z * V) : Decision (key_le a b).
Proof. unfold key_le. apply _. Defined.

Definition btree_iter {V} (m : gmap Z V) : list (Z * V) :=
  merge_sort key_le (map_to_list m).
Definition btree_keys {V} (m : gmap Z V) : list Z := (btree_iter m).*1.
Definition btree_values {V} (m : gmap Z V) : list V := (btree_iter m).*2.

(** The sum of the values of a map of integers, whatever the iteration order. *)
Definition map_sum (m : gmap Z Z) : Z := map_fold (fun _ v acc => v + acc) 0 m.

Definition list_sum (l : list Z) : Z := foldr Z.add 0 l.

(** A stable sort has one result: the one of insertion, which keeps ties in place. *)
Section sort_by.
Context {A : Type} (R : relation A) `{forall x y, Decision (R x y)}.

Fixpoint insert_by (a : A) (l : list A) : list A :=
  match l with
  | [] => [a]
  | x :: l => if decide (R a x) then a :: x :: l else x :: insert_by a l
  end.
Definition sort_by (l : list A) : list A := foldr insert_by [] l.
End sort_by.

(** The order of [sort_by_key]. *)
Definition by_key {A} (f : A -> Z) (a b : A) : Prop := f a <= f b.
#[global] Instance by_key_dec {A} (f : A -> Z) a b : Decision (by_key f a b).
Proof. unfold by_key. apply _. Defined.

(** ** Tactics *)

(** Splits on every [if] and [match] of the goal whose scrutinee is not itself a
    [match], turning boolean comparisons into propositions. *)
Ltac bool_to_prop :=
  repeat match goal with
  | H : (_ && _)%bool = true |- _ => apply andb_prop in H as [? ?]
  | H : (_ || _)%bool = false |- _ => apply orb_false_elim in H as [? ?]
  | H : negb _ = true |- _ => apply negb_true_iff in H
  | H : negb _ = false |- _ => apply negb_false_iff in H
  | H : (_ <=? _) = true |- _ => apply Z.leb_le in H
  | H : (_ <=? _) = false |- _ => apply Z.leb_gt in H
  | H : (_ <? _) = true |- _ => apply Z.ltb_lt in H
  | H : (_ <? _) = false |- _ => apply Z.ltb_ge in H
  | H : (_ =? _) = true |- _ => apply Z.eqb_eq in H
  | H : (_ =? _) = false |- _ => apply Z.eqb_neq in H
  | H : (_ >? _) = true |- _ => rewrite Z.gtb_ltb in H
  | H : (_ >? _) = false |- _ => rewrite Z.gtb_ltb in H
  | H : (_ >=? _) = true |- _ => rewrite Z.geb_leb in H
  | H : (_ >=? _) = false |- _ => rewrite Z.geb_leb in H
  end.

Ltac split_ifs :=
  repeat (match goal with
          | |- context [if ?b then _ else _] => destruct b eqn:?
          end; bool_to_prop).

Ltac unfold_ok :=
  unfold u8_ok, i8_ok, u32_ok, u64_ok, i64_ok, u128_ok, i128_ok,
    u32_max, u64_max, i64_max, i64_min, u128_max, i128_max, i128_min in *.

(** Closes a goal about saturating arithmetic and ranges. *)
Ltac sat_lia :=
  unfold u64_sat_add, u64_sat_sub, u64_sat_mul, i64_sat_add, i64_sat_sub,
    i64_sat_mul, i128_sat_add, i128_sat_mul, u128_sat_add, sat in *;
  unfold_ok; split_ifs; try lia.

(** ** Lemmas *)

Lemma sat_id lo hi z : lo <= z <= hi -> sat lo hi z = z.
Proof. intros H. unfold sat. split_ifs; lia. Qed.

Lemma sat_range lo hi z : lo <= hi -> lo <= sat lo hi z <= hi.
Proof. intros H. unfold sat. split_ifs; lia. Qed.

Lemma sat_le_inv lo hi z c : lo <= c < hi -> sat lo hi z <= c -> z <= c.
Proof. intros H. unfold sat. split_ifs; lia. Qed.

Lemma sat_ge lo hi z b : b <= hi -> b <= z -> b <= sat lo hi z.
Proof. intros H. unfold sat. split_ifs; lia. Qed.

Lemma wrap_u_id w z : 0 <= z < 2 ^ w -> wrap_u w z = z.
Proof. apply Z.mod_small. Qed.

Lemma wrap_u_range w z : 0 <= w -> 0 <= wrap_u w z < 2 ^ w.
Proof. intros Hw. apply Z.mod_pos_bound. lia. Qed.

Lemma wrap_s_id w z : 0 < w -> - 2 ^ (w - 1) <= z < 2 ^ (w - 1) -> wrap_s w z = z.
Proof.
  intros Hw Hz. unfold wrap_s.
  assert (2 ^ w = 2 * 2 ^ (w - 1)) as He.
  { rewrite <- Z.pow_succ_r by lia. f_equal. lia. }
  rewrite Z.mod_small; lia.
Qed.

Lemma as_u64_id z : u64_ok z -> as_u64 z = z.
Proof. intros H. apply wrap_u_id. unfold_ok. lia. Qed.

Lemma as_u32_id z : u32_ok z -> as_u32 z = z.
Proof. intros H. apply wrap_u_id. unfold_ok. lia. Qed.

Lemma as_i64_id z : i64_ok z -> as_i64 z = z.
Proof. intros H. apply wrap_s_id; unfold_ok; lia. Qed.

Lemma as_i128_id z : i128_ok z -> as_i128 z = z.
Proof. intros H. apply wrap_s_id; unfold_ok; lia. Qed.

Lemma as_i64_range z : i64_ok (as_i64 z).
Proof.
  unfold as_i64, wrap_s. unfold_ok.
  pose proof (Z.mod_pos_bound (z + 2 ^ (64 - 1)) (2 ^ 64) ltac:(lia)). lia.
Qed.

Lemma as_u64_range z : u64_ok (as_u64 z).
Proof. pose proof (wrap_u_range 64 z ltac:(lia)). unfold_ok. unfold as_u64. lia. Qed.

Lemma list_sum_cons x l : list_sum (x :: l) = x + list_sum l.
Proof. reflexivity. Qed.

Lemma list_sum_app l1 l2 : list_sum (l1 ++ l2) = list_sum l1 + list_sum l2.
Proof. unfold list_sum. induction l1; simpl in *; lia. Qed.

Lemma list_sum_nonneg l : Forall (fun x => 0 <= x) l -> 0 <= list_sum l.
Proof. induction 1 as [| x l Hx _ IH]; [done |]. unfold list_sum in *. simpl. lia. Qed.

Lemma list_sum_pos l x : Forall (fun x => 0 < x) l -> x ∈ l -> 0 < list_sum l.
Proof.
  intros Hl. revert x. induction Hl as [| y l Hy Hl IH]; intros x Hx; [by apply elem_of_nil in Hx |].
  assert (0 <= list_sum l).
  { apply list_sum_nonneg. eapply Forall_impl; [exact Hl |]. intros ? H. simpl in H. lia. }
  unfold list_sum in *. simpl. lia.
Qed.

(** Sums of map values. *)

Lemma map_sum_empty : map_sum ∅ = 0.
Proof. reflexivity. Qed.

Lemma map_sum_insert_None m k v :
  m !! k = None -> map_sum (<[k:=v]> m) = v + map_sum m.
Proof.
  intros H. unfold map_sum. rewrite map_fold_insert_L; [done | | done].
  intros; lia.
Qed.

Lemma map_sum_delete m k v :
  m !! k = Some v -> map_sum (delete k m) = map_sum m - v.
Proof.
  intros H. rewrite <- (insert_id m k v H) at 2.
  rewrite <- insert_delete_eq.
  rewrite map_sum_insert_None by apply lookup_delete_eq. lia.
Qed.

Lemma map_sum_insert_Some m k v v' :
  m !! k = Some v -> map_sum (<[k:=v']> m) = map_sum m - v + v'.
Proof.
  intros H. rewrite <- insert_delete_eq.
  rewrite map_sum_insert_None by apply lookup_delete_eq.
  rewrite (map_sum_delete m k v H). lia.
Qed.

(** [btree_iter] holds exactly the entries of the map, in ascending key order. *)

#[global] Instance key_le_total {V} : Total (@key_le V).
Proof. intros [a ?] [b ?]. unfold key_le. simpl. lia. Qed.
#[global] Instance key_le_trans {V} : Transitive (@key_le V).
Proof. intros [a ?] [b ?] [c ?]. unfold key_le. simpl. lia. Qed.

Lemma btree_iter_perm {V} (m : gmap Z V) : btree_iter m ≡ₚ map_to_list m.
Proof. apply merge_sort_Permutation. Qed.

Lemma btree_iter_sorted {V} (m : gmap Z V) : StronglySorted key_le (btree_iter m).
Proof. apply StronglySorted_merge_sort; apply _. Qed.

Lemma elem_of_btree_iter {V} (m : gmap Z V) k v :
  (k, v) ∈ btree_iter m <-> m !! k = Some v.
Proof. rewrite btree_iter_perm. apply elem_of_map_to_list. Qed.

Lemma btree_keys_NoDup {V} (m : gmap Z V) : NoDup (btree_keys m).
Proof. unfold btree_keys. rewrite btree_iter_perm. apply NoDup_fst_map_to_list. Qed.

Lemma elem_of_btree_keys {V} (m : gmap Z V) k :
  k ∈ btree_keys m <-> is_Some (m !! k).
Proof.
  unfold btree_keys. rewrite list_elem_of_fmap. split.
  - intros [[k' v] [-> Hin]]. apply elem_of_btree_iter in Hin. simpl. eauto.
  - intros [v Hv]. exists (k, v). split; [done |]. by apply elem_of_btree_iter.
Qed.

Lemma StronglySorted_fmap_fst {V} (l : list (Z * V)) :
  StronglySorted key_le l -> StronglySorted Z.le l.*1.
Proof.
  induction 1 as [| [k v] l Hs IH Hf]; simpl; constructor; [done |].
  apply Forall_fmap. eapply Forall_impl; [exact Hf |]. by intros [].
Qed.

Lemma btree_keys_sorted {V} (m : gmap Z V) : StronglySorted Z.le (btree_keys m).
Proof. apply StronglySorted_fmap_fst, btree_iter_sorted. Qed.

Lemma btree_keys_strict {V} (m : gmap Z V) : StronglySorted Z.lt (btree_keys m).
Proof.
  pose proof (btree_keys_sorted m) as Hs. pose proof (btree_keys_NoDup m) as Hn.
  induction Hs as [| k l Hs IH Hf]; constructor.
  - apply IH. by apply NoDup_cons in Hn as [_ ?].
  - apply NoDup_cons in Hn as [Hk _]. rewrite Forall_forall in Hf |- *.
    intros x Hx. specialize (Hf x Hx). destruct (decide (k = x)); [by subst | lia].
Qed.

(** [sort_by] sorts, for an order that compares any two elements. *)

Section sort_by_facts.
Context {A : Type} (R : relation A) `{forall x y, Decision (R x y)}.

Lemma insert_by_perm a l : insert_by R a l ≡ₚ a :: l.
Proof.
  induction l as [| x l IH]; [done |]. cbn. destruct (decide (R a x)); [done |]. rewrite IH. constructor.
Qed.

Lemma sort_by_perm l : sort_by R l ≡ₚ l.
Proof. induction l as [| a l IH]; [done |]. cbn. rewrite insert_by_perm. by constructor. Qed.

Lemma insert_by_sorted `{!Total R, !Transitive R} a l : StronglySorted R l -> StronglySorted R (insert_by R a l).
Proof.
  induction 1 as [| x l Hl IH Hx]; [repeat constructor |]. cbn. destruct (decide (R a x)) as [Hb | Hb].
  - constructor; [by constructor |]. constructor; [done |].
    eapply Forall_impl; [exact Hx |]. intros y. by apply transitivity.
  - constructor; [done |]. rewrite insert_by_perm. constructor; [| done].
    by destruct (total R a x).
Qed.

Lemma sort_by_sorted `{!Total R, !Transitive R} l : StronglySorted R (sort_by R l).
Proof. induction l as [| a l IH]; [constructor | by apply insert_by_sorted]. Qed.
End sort_by_facts.

#[global] Instance by_key_total {A} (f : A -> Z) : Total (by_key f).
Proof. intros a b. unfold by_key. lia. Qed.
#[global] Instance by_key_trans {A} (f : A -> Z) : Transitive (by_key f).
Proof. intros a b c. unfold by_key. lia. Qed.

(** In a sorted list what is kept in front comes before what is dropped. *)
Lemma StronglySorted_take_drop {A} (R : relation A) n l x y : StronglySorted R l ->
  x ∈ take n l -> y ∈ drop n l -> R x y.
Proof.
  intros Hs. revert n. induction Hs as [| a l Hs IH Hf]; intros n.
  - rewrite take_nil. by intros ?%elem_of_nil.
  - destruct n as [| n]; [by intros ?%elem_of_nil |]. intros Hx Hy. apply elem_of_cons in Hx as [-> | Hx].
    + rewrite Forall_forall in Hf. apply Hf. rewrite <- (take_drop n l). apply elem_of_app. by right.
    + by eapply IH.
Qed.

(** The laws of the error monad. *)

Lemma se_bind_ret_l {W E A B} (a : A) (k : A -> SE W E B) w :
  se_bind (se_ret a) k w = k a w.
Proof. reflexivity. Qed.

Lemma se_bind_assoc {W E A B C} (m : SE W E A) (f : A -> SE W E B) (g : B -> SE W E C) w :
  se_bind (se_bind m f) g w = se_bind m (fun a => se_bind (f a) g) w.
Proof. unfold se_bind. by destruct (m w) as [[a | e] w']. Qed.

(** Bit fields packed with shifts and [|] are sums. *)
Lemma lor_shiftl a b k : 0 <= k -> 0 <= b < 2 ^ k -> Z.lor (Z.shiftl a k) b = a * 2 ^ k + b.
Proof.
  intros Hk Hb. assert (Z.land (Z.shiftl a k) b = 0) as H0.
  { apply Z.bits_inj'. intros n Hn. rewrite Z.land_spec, Z.bits_0.
    destruct (Z.lt_ge_cases n k).
    - by rewrite Z.shiftl_spec_low by lia.
    - rewrite <- (Z.mod_small b (2 ^ k)) by done.
      rewrite Z.mod_pow2_bits_high by lia. apply andb_false_r. }
  by rewrite <- (Z.lxor_lor _ _ H0), <- (Z.add_nocarry_lxor _ _ H0), Z.shiftl_mul_pow2.
Qed.

Create HintDb hedge.
Create Rewrite HintDb hedge.
#[export] Hint Resolve as_i64_range as_u64_range : hedge.
#[export] Hint Rewrite @se_bind_ret_l : hedge.
