(* ===== verification/Ieee.v ===== *)
(** IEEE-754 arithmetic as Rust's [f32] and [f64] use it.

    Values are the Standard Library's [spec_float]; an [f32] has 24 bits of
    precision and maximal exponent 128, an [f64] 53 and 1024.  The file defines
    the casts and the float methods the modelled code calls, and proves what the
    components rely on: arithmetic results are canonical, comparison agrees
    with truncation to an integer, and small integers convert exactly. *)

From Stdlib Require Export SpecFloat.
From S2P Require Import Prelude.

Abbreviation f32 := spec_float (only parsing).
Abbreviation f64 := spec_float (only parsing).

(** ** Operations *)

Definition f64_mul : f64 -> f64 -> f64 := SFmul 53 1024.
Definition f64_add : f64 -> f64 -> f64 := SFadd 53 1024.
Definition f64_sub : f64 -> f64 -> f64 := SFsub 53 1024.
Definition f64_div : f64 -> f64 -> f64 := SFdiv 53 1024.
Definition f32_mul : f32 -> f32 -> f32 := SFmul 24 128.
Definition f32_add : f32 -> f32 -> f32 := SFadd 24 128.
Definition f32_sub : f32 -> f32 -> f32 := SFsub 24 128.
Definition f32_div : f32 -> f32 -> f32 := SFdiv 24 128.

(** [n as f64], [n as f32] for an integer [n]. *)
Definition f64_of_Z (z : Z) : f64 := binary_normalize 53 1024 z 0 false.
Definition f32_of_Z (z : Z) : f32 := binary_normalize 24 128 z 0 false.

(** A decimal literal [n / d] (with [d] a power of ten), correctly rounded. *)
Definition f64_lit (n d : positive) : f64 := f64_div (f64_of_Z (Zpos n)) (f64_of_Z (Zpos d)).
Definition f32_lit (n d : positive) : f32 :=
  SFdiv 24 128 (f32_of_Z (Zpos n)) (f32_of_Z (Zpos d)).

(** [x as f64] for [x : f32]. *)
Definition f32_to_f64 (x : f32) : f64 :=
  match x with
  | S754_finite s m e => binary_normalize 53 1024 (cond_Zopp s (Zpos m)) e s
  | _ => x
  end.

(** [x as f32] for [x : f64]. *)
Definition f64_to_f32 (x : f64) : f32 :=
  match x with
  | S754_finite s m e => binary_normalize 24 128 (cond_Zopp s (Zpos m)) e s
  | _ => x
  end.

Definition f_is_nan (x : spec_float) : bool :=
  match x with S754_nan => true | _ => false end.
Definition f_is_finite (x : spec_float) : bool :=
  match x with S754_zero _ | S754_finite _ _ _ => true | _ => false end.

Definition f_zero : spec_float := S754_zero false.
Definition f64_one : f64 := f64_of_Z 1.
Definition f32_one : f32 := f32_of_Z 1.

(** [a < b] and [a > b]: false when either is NaN. *)
Definition f_lt (a b : spec_float) : bool := SFltb a b.
Definition f_gt (a b : spec_float) : bool := SFltb b a.
Definition f_le (a b : spec_float) : bool := SFleb a b.
Definition f_ge (a b : spec_float) : bool := SFleb b a.

Definition f_opp : spec_float -> spec_float := SFopp.
Definition f_abs : spec_float -> spec_float := SFabs.
(** [a == b]: false on NaN, true on the two zeros. *)
Definition f_eq (a b : spec_float) : bool := SFeqb a b.

(** [f64::min], [f64::max]: a NaN argument is ignored. *)
Definition f_min (a b : spec_float) : spec_float :=
  if f_is_nan a then b else if f_is_nan b then a else if f_lt b a then b else a.
Definition f_max (a b : spec_float) : spec_float :=
  if f_is_nan a then b else if f_is_nan b then a else if f_lt a b then b else a.

(** [x.clamp(lo, hi)] for [lo <= hi]. *)
Definition f_clamp (lo hi x : spec_float) : spec_float :=
  if f_lt x lo then lo else if f_gt x hi then hi else x.

(** The integer part, rounded toward zero; 0 for the non-finite values. *)
Definition f_trunc (x : spec_float) : Z :=
  match x with
  | S754_finite s m e => cond_Zopp s (Z.shiftl (Zpos m) e)
  | _ => 0
  end.

(** [x as iN] / [x as uN]: NaN is 0, everything else saturates. *)
Definition f_to_int (lo hi : Z) (x : spec_float) : Z :=
  match x with
  | S754_nan => 0
  | S754_infinity s => if s then lo else hi
  | _ => sat lo hi (f_trunc x)
  end.
Definition f_as_i64 : spec_float -> Z := f_to_int i64_min i64_max.
Definition f_as_u64 : spec_float -> Z := f_to_int 0 u64_max.
Definition f_as_u32 : spec_float -> Z := f_to_int 0 u32_max.

(** [x.round()] (half away from zero) and [x.ceil()] followed by a cast to an
    unsigned integer, on finite non-negative [x]. *)
Definition f_round_nonneg (x : spec_float) : Z :=
  match x with
  | S754_finite false m e => Z.shiftl (Z.shiftl (Zpos m) (e + 1) + 1) (-1)
  | _ => 0
  end.
Definition f_ceil_nonneg (x : spec_float) : Z :=
  match x with
  | S754_finite false m e => - Z.shiftl (- Zpos m) e
  | _ => 0
  end.

(** [x.round() as i64] for any [x]. *)
Definition f_round_as_i64 (x : spec_float) : Z :=
  match x with
  | S754_nan => 0
  | S754_zero _ => 0
  | S754_infinity s => if s then i64_min else i64_max
  | S754_finite s m e => sat i64_min i64_max (cond_Zopp s (f_round_nonneg (S754_finite false m e)))
  end.

Definition f64_sqrt : f64 -> f64 := SFsqrt 53 1024.

(** ** Canonical values *)

Definition f64_valid (x : f64) : Prop := valid_binary 53 1024 x = true.
Definition f32_valid (x : f32) : Prop := valid_binary 24 128 x = true.

Lemma digits2_log2 p : Zpos (digits2_pos p) = Z.log2 (Zpos p) + 1.
Proof.
  induction p as [p IH | p IH |]; simpl digits2_pos; [| | done].
  - rewrite Pos2Z.inj_succ, IH, Pos2Z.inj_xI, Z.log2_succ_double by lia. lia.
  - rewrite Pos2Z.inj_succ, IH, Pos2Z.inj_xO, Z.log2_double by lia. lia.
Qed.

Lemma Zdigits2_log2 z : 0 < z -> Zdigits2 z = Z.log2 z + 1.
Proof. destruct z; try lia. intros _. apply digits2_log2. Qed.

Lemma digits2_le_iff p k : 0 <= k -> Zpos (digits2_pos p) <= k <-> Zpos p < 2 ^ k.
Proof.
  intros Hk. rewrite digits2_log2. rewrite (Z.log2_lt_pow2 (Zpos p) k) by lia. lia.
Qed.

Lemma shr_1_m r : 0 <= shr_m r -> shr_m (shr_1 r) = Z.shiftr (shr_m r) 1.
Proof. destruct r as [[| [p | p |] | p] r s]; simpl; intros; try done; lia. Qed.

Lemma iter_shr_m p : forall r, 0 <= shr_m r ->
  0 <= shr_m (SpecFloat.iter_pos shr_1 p r) /\ shr_m (SpecFloat.iter_pos shr_1 p r) = Z.shiftr (shr_m r) (Zpos p).
Proof.
  induction p as [p IH | p IH |]; intros r Hr; simpl SpecFloat.iter_pos.
  - pose proof (shr_1_m r Hr) as H1.
    assert (0 <= shr_m (shr_1 r)) as Hr1 by (rewrite H1; apply Z.shiftr_nonneg; lia).
    destruct (IH _ Hr1) as [Ha Hb]. destruct (IH _ Ha) as [Hc Hd]. split; [done |].
    rewrite Hd, Hb, H1, !Z.shiftr_shiftr by lia. f_equal. lia.
  - destruct (IH _ Hr) as [Ha Hb]. destruct (IH _ Ha) as [Hc Hd]. split; [done |].
    rewrite Hd, Hb, !Z.shiftr_shiftr by lia. f_equal. lia.
  - rewrite shr_1_m by done. split; [apply Z.shiftr_nonneg; lia | done].
Qed.

Lemma shr_record_of_loc_m m l : shr_m (shr_record_of_loc m l) = m.
Proof. by destruct l as [| []]. Qed.

Lemma shr_spec m l e n : 0 <= m -> 0 <= n ->
  shr_m (fst (shr (shr_record_of_loc m l) e n)) = Z.shiftr m n
  /\ snd (shr (shr_record_of_loc m l) e n) = e + n.
Proof.
  intros Hm Hn. destruct n as [| p | p]; simpl; [| | lia].
  - rewrite shr_record_of_loc_m. split; [done | lia].
  - split; [| done]. destruct (iter_shr_m p (shr_record_of_loc m l)) as [_ ->];
      by rewrite shr_record_of_loc_m.
Qed.

Lemma shr_neg m l e n : n <= 0 ->
  shr (shr_record_of_loc m l) e n = (shr_record_of_loc m l, e).
Proof. destruct n; [done | lia | done]. Qed.

Section canonical.
Context (prec emax : Z) (Hprec : 1 < prec) (Hemax : prec < emax).

Lemma canonical_iff m e :
  canonical_mantissa prec emax m e = true <->
  Z.max (Z.log2 (Zpos m) + 1 + e - prec) (3 - emax - prec) = e.
Proof.
  unfold canonical_mantissa, fexp, emin. rewrite digits2_log2. lia.
Qed.

Lemma round_nearest_even_cases m l :
  round_nearest_even m l = m \/ round_nearest_even m l = m + 1.
Proof. unfold round_nearest_even. destruct l as [| []]; auto. destruct (Z.even m); auto. Qed.

Lemma log2_shiftr_le m n : 0 < Z.shiftr m n -> 0 <= n -> 0 < m ->
  Z.log2 (Z.shiftr m n) = Z.log2 m - n /\ n <= Z.log2 m.
Proof.
  intros Hs Hn Hm. rewrite Z.log2_shiftr by lia.
  assert (n <= Z.log2 m); [| lia].
  destruct (Z.le_gt_cases n (Z.log2 m)) as [? | Hlt]; [done |].
  rewrite Z.shiftr_eq_0 in Hs by lia. lia.
Qed.

(** [x] is what a value with leading bit [k] may round to. *)
Definition f_within (k : Z) (x : spec_float) : Prop :=
  match x with
  | S754_zero _ => k < 3 - emax - prec
  | S754_finite _ m e => Z.log2 (Zpos m) + e <= Z.max (k + 1) (3 - emax - prec)
  | _ => False
  end.

Lemma f_within_finite k x : f_within k x -> f_is_finite x = true.
Proof. by destruct x. Qed.

(** One rounding step from a mantissa that is not too short: the result is canonical, and
    finite when the value is away from the overflow threshold. *)
Lemma binary_round_aux_spec s m e l :
  0 < m -> e <= fexp prec emax (Zdigits2 m + e) ->
  valid_binary prec emax (binary_round_aux prec emax s m e l) = true
  /\ (Z.log2 m + 1 + e < emax -> f_within (Z.log2 m + e) (binary_round_aux prec emax s m e l)).
Proof.
  intros Hm He. unfold binary_round_aux, shr_fexp.
  rewrite Zdigits2_log2 in * by lia.
  remember (fexp prec emax (Z.log2 m + 1 + e) - e) as n eqn:Hn.
  destruct (shr_spec m l e n ltac:(lia) ltac:(lia)) as [Hm1 He1].
  destruct (shr (shr_record_of_loc m l) e n) as [r1 e1] eqn:E1. simpl in Hm1, He1.
  set (m1 := shr_m r1) in *. clearbody m1.
  set (m2 := round_nearest_even m1 _).
  assert (m2 = m1 \/ m2 = m1 + 1) as Hm2 by apply round_nearest_even_cases.
  clearbody m2. clear E1 r1.
  unfold fexp, emin in Hn, He.
  assert (0 <= m1) as Hm1' by (subst m1; apply Z.shiftr_nonneg; lia).
  assert (m1 < 2 ^ prec) as Hlt.
  { destruct (decide (m1 = 0)) as [-> | Hnz]; [lia |].
    apply Z.log2_lt_pow2; [lia |]. subst m1.
    pose proof (log2_shiftr_le m n ltac:(lia) ltac:(lia) Hm). lia. }
  destruct (decide (m2 = 0)) as [-> | Hm2nz].
  { unfold fexp, emin. simpl Zdigits2. rewrite shr_neg by lia. split; [done |]. intros _. simpl.
    assert (m1 = 0) as Hz by lia. destruct (Z.eq_dec n 0) as [Hn0 | Hn0].
    - rewrite Hm1, Hn0, Z.shiftr_0_r in Hz. lia.
    - rewrite Hm1, Z.shiftr_eq_0_iff in Hz. lia. }
  assert (0 < m2) as Hm2pos by lia. rewrite (Zdigits2_log2 m2 Hm2pos).
  assert (m2 < 2 ^ prec \/ m2 = 2 ^ prec) as [Hsmall | Hbig] by lia.
  - assert (Z.log2 m2 < prec) as Hl2 by (apply Z.log2_lt_pow2; lia).
    rewrite shr_neg by (unfold fexp, emin; lia).
    rewrite shr_record_of_loc_m. destruct m2 as [| p | p]; [lia | | lia].
    assert (m1 <> 0 -> Z.log2 m1 = Z.log2 m - n) as Hlm1.
    { intros Hnz. rewrite Hm1. apply log2_shiftr_le; lia. }
    assert (Z.log2 (m1 + 1) <= Z.log2 m1 + 1) as Hsucc by (apply Z.log2_succ_le; lia).
    destruct (Z.leb_spec e1 (emax - prec)); [| split; [done | simpl; lia]].
    split.
    2: { intros _. cbn [f_within]. destruct (decide (m1 = 0)) as [Hz | Hnz].
         - assert (Zpos p = 1) as -> by lia. simpl. lia.
         - specialize (Hlm1 Hnz). assert (Z.log2 (Zpos p) <= Z.log2 m1 + 1); [| lia].
           destruct Hm2 as [-> | ->]; lia. }
    simpl. unfold bounded. apply andb_true_intro. split; [| lia].
    apply canonical_iff.
    destruct (decide (m1 = 0)) as [Hz | Hnz].
    + destruct (Z.max_spec (Z.log2 m + 1 + e - prec) (3 - emax - prec)) as [[? Hx] | [? Hx]];
        [lia |]. exfalso. subst m1.
      destruct (Z.eq_dec n 0) as [Hn0 | Hn0]; [rewrite Hn0, Z.shiftr_0_r in Hz; lia |].
      apply Z.shiftr_eq_0_iff in Hz. lia.
    + subst m1. pose proof (log2_shiftr_le m n ltac:(lia) ltac:(lia) Hm) as [Hlog ?].
      assert (Z.log2 (Z.shiftr m n) <= Z.log2 (Zpos p)) by (apply Z.log2_le_mono; lia). lia.
  - rewrite Hbig, Z.log2_pow2 by lia.
    replace (fexp prec emax (prec + 1 + e1) - e1) with 1 by (unfold fexp, emin; lia).
    destruct (shr_spec (2 ^ prec) loc_Exact e1 1 ltac:(lia) ltac:(lia)) as [Hm3 He3].
    destruct (shr _ e1 1) as [r3 e3]. simpl in Hm3, He3. rewrite Hm3.
    rewrite Z.shiftr_div_pow2 by lia.
    assert (2 ^ prec / 2 ^ 1 = 2 ^ (prec - 1)) as ->.
    { rewrite Z.pow_sub_r by lia. done. }
    destruct (2 ^ (prec - 1)) as [| p | p] eqn:Ep; [lia | | lia].
    assert (Z.log2 m1 = prec - 1 /\ Z.log2 m1 = Z.log2 m - n) as [Hlm Hlm'].
    { assert (m1 = 2 ^ prec - 1) as Hm1p by lia.
      assert (2 ^ 1 < 2 ^ prec) by (apply Z.pow_lt_mono_r; lia). split.
      - rewrite Hm1p, Z.sub_1_r. apply Z.log2_pred_pow2. lia.
      - subst m1. apply log2_shiftr_le; lia. }
    destruct (Z.leb_spec e3 (emax - prec)); [| split; [done | simpl; lia]].
    split.
    2: { intros _. cbn [f_within]. rewrite <- Ep, Z.log2_pow2 by lia. lia. }
    simpl. unfold bounded. apply andb_true_intro. split; [| lia].
    apply canonical_iff. rewrite <- Ep, Z.log2_pow2 by lia. lia.
Qed.

Lemma binary_round_aux_valid s m e l :
  0 < m -> e <= fexp prec emax (Zdigits2 m + e) ->
  valid_binary prec emax (binary_round_aux prec emax s m e l) = true.
Proof. intros. by apply binary_round_aux_spec. Qed.

(** A quotient that underflows to an empty mantissa. *)
Lemma binary_round_aux_zero s e l : e <= 3 - emax - prec ->
  valid_binary prec emax (binary_round_aux prec emax s 0 e l) = true.
Proof.
  intros He. unfold binary_round_aux, shr_fexp. simpl Zdigits2.
  replace (fexp prec emax (0 + e) - e) with (3 - emax - prec - e) by (unfold fexp, emin; lia).
  destruct (shr_spec 0 l e (3 - emax - prec - e) ltac:(lia) ltac:(lia)) as [Hm1 He1].
  destruct (shr _ _ _) as [r1 e1]. simpl in Hm1, He1. rewrite Hm1, Z.shiftr_0_l, He1.
  set (l2 := loc_of_shr_record r1). clearbody l2.
  replace (e + (3 - emax - prec - e)) with (3 - emax - prec) by lia.
  destruct (round_nearest_even_cases 0 l2) as [-> | ->].
  - simpl Zdigits2. rewrite shr_neg by (unfold fexp, emin; lia). done.
  - change (0 + 1) with 1. change (Zdigits2 1) with 1.
    rewrite shr_neg by (unfold fexp, emin; lia).
    simpl shr_m. destruct (Z.leb_spec (3 - emax - prec) (emax - prec)); [| lia].
    simpl. unfold bounded. apply andb_true_intro. split; [| lia].
    apply canonical_iff. simpl. lia.
Qed.
End canonical.

Section operations_valid.
Context (prec emax : Z) (Hprec : 1 < prec) (Hemax : prec < emax).

Let valid (x : spec_float) : Prop := valid_binary prec emax x = true.

Lemma valid_finite_inv s m e :
  valid (S754_finite s m e) ->
  e = Z.max (Z.log2 (Zpos m) + 1 + e - prec) (3 - emax - prec) /\ e <= emax - prec.
Proof.
  unfold valid. simpl. unfold bounded. intros [H1 H2]%andb_prop.
  apply canonical_iff in H1. apply Z.leb_le in H2. split; [by symmetry | done].
Qed.

Lemma SFmul_valid x y : valid x -> valid y -> valid (SFmul prec emax x y).
Proof.
  intros Hx Hy. destruct x as [sx | sx | | sx mx ex], y as [sy | sy | | sy my ey]; try done.
  apply valid_finite_inv in Hx as [Hx _], Hy as [Hy _]. unfold SFmul.
  apply binary_round_aux_valid; try done.
  rewrite Zdigits2_log2 by done. unfold fexp, emin.
  pose proof (Z.log2_mul_below (Zpos mx) (Zpos my) ltac:(lia) ltac:(lia)) as Hl.
  rewrite <- Pos2Z.inj_mul in Hl.
  pose proof (Z.log2_nonneg (Zpos mx)). pose proof (Z.log2_nonneg (Zpos my)). lia.
Qed.

Lemma shl_align_spec m e e' :
  let '(m', e'') := shl_align m e e' in
  Zpos m' = Z.shiftl (Zpos m) (e - e'') /\ e'' = Z.min e e'.
Proof.
  unfold shl_align. destruct (e' - e) as [| d | d] eqn:Hd.
  - replace (e - e) with 0 by lia. split; [done | lia].
  - replace (e - e) with 0 by lia. split; [done | lia].
  - replace (e - e') with (Zpos d) by lia. split; [| lia].
    rewrite Z.shiftl_mul_pow2 by lia.
    enough (forall n p, Zpos (Pos.iter xO p n) = Zpos p * 2 ^ Zpos n) as ->; [lia |].
    clear. intros n p. induction n as [| n IH] using Pos.peano_ind.
    + simpl. lia.
    + rewrite Pos.iter_succ, Pos2Z.inj_succ, Z.pow_succ_r by lia. lia.
Qed.

Lemma binary_round_valid s m e : valid (binary_round prec emax s m e).
Proof.
  unfold binary_round. pose proof (shl_align_spec m e (fexp prec emax (Zpos (digits2_pos m) + e))).
  destruct (shl_align _ _ _) as [m' e'']. destruct H as [Hm' He''].
  apply binary_round_aux_valid; try done.
  rewrite Zdigits2_log2, Hm', Z.log2_shiftl by lia.
  rewrite digits2_log2 in He''. unfold fexp, emin in *. lia.
Qed.

Lemma binary_normalize_valid z e s : valid (binary_normalize prec emax z e s).
Proof. destruct z; simpl; [done | apply binary_round_valid ..]. Qed.

(** An integer below [2 ^ prec] converts without rounding. *)
Lemma binary_normalize_exact z s : 0 < z < 2 ^ prec -> 0 <= 3 * prec <= emax ->
  binary_normalize prec emax z 0 s =
  S754_finite false (Z.to_pos (Z.shiftl z (prec - 1 - Z.log2 z))) (Z.log2 z + 1 - prec).
Proof.
  intros [Hz Hlt] Hb. destruct z as [| p | p]; try lia. simpl binary_normalize.
  assert (Z.log2 (Zpos p) < prec) as Hlog by (apply Z.log2_lt_pow2; lia).
  pose proof (Z.log2_nonneg (Zpos p)) as Hlog0.
  unfold binary_round. rewrite digits2_log2, Z.add_0_r.
  pose proof (shl_align_spec p 0 (fexp prec emax (Z.log2 (Zpos p) + 1))) as H.
  destruct (shl_align _ _ _) as [m' e'']. destruct H as [Hm' He''].
  assert (e'' = Z.log2 (Zpos p) + 1 - prec) as -> by (unfold fexp, emin in He''; lia).
  replace (0 - (Z.log2 (Zpos p) + 1 - prec)) with (prec - 1 - Z.log2 (Zpos p)) in Hm' by lia.
  assert (Z.log2 (Zpos m') = prec - 1) as Hl'.
  { rewrite Hm', Z.log2_shiftl by lia. lia. }
  unfold binary_round_aux, shr_fexp. rewrite Zdigits2_log2 by lia. rewrite Hl'.
  rewrite shr_neg by (unfold fexp, emin; lia). simpl shr_m. simpl round_nearest_even.
  rewrite Zdigits2_log2 by lia. rewrite Hl'.
  rewrite shr_neg by (unfold fexp, emin; lia). simpl shr_m.
  destruct (Z.leb_spec (Z.log2 (Zpos p) + 1 - prec) (emax - prec)); [| lia].
  rewrite <- Hm'. done.
Qed.

Lemma binary_normalize_trunc z s : 0 <= z < 2 ^ prec -> 0 <= 3 * prec <= emax ->
  f_trunc (binary_normalize prec emax z 0 s) = z.
Proof.
  intros Hz Hb. destruct (decide (z = 0)) as [-> | Hnz]; [done |].
  rewrite binary_normalize_exact by lia. simpl.
  assert (Z.log2 z < prec) as Hlog by (apply Z.log2_lt_pow2; lia).
  assert (0 < Z.shiftl z (prec - 1 - Z.log2 z)) as Hp.
  { rewrite Z.shiftl_mul_pow2 by lia. apply Z.mul_pos_pos; lia. }
  rewrite Z2Pos.id by lia.
  replace (Z.log2 z + 1 - prec) with (- (prec - 1 - Z.log2 z)) by lia.
  rewrite Z.shiftl_opp_r, Z.shiftr_shiftl_l by lia.
  rewrite Z.sub_diag. apply Z.shiftl_0_r.
Qed.

Lemma SFadd_valid x y : valid x -> valid y -> valid (SFadd prec emax x y).
Proof.
  intros Hx Hy. destruct x as [[] | [] | | sx mx ex], y as [[] | [] | | sy my ey]; try done.
  apply binary_normalize_valid.
Qed.

Lemma SFsub_valid x y : valid x -> valid y -> valid (SFsub prec emax x y).
Proof.
  intros Hx Hy. destruct x as [[] | [] | | sx mx ex], y as [[] | [] | | sy my ey]; try done.
  apply binary_normalize_valid.
Qed.

Lemma SFdiv_valid x y : valid x -> valid y -> valid (SFdiv prec emax x y).
Proof.
  intros Hx Hy. destruct x as [sx | sx | | sx mx ex], y as [sy | sy | | sy my ey]; try done.
  unfold SFdiv, SFdiv_core_binary. rewrite !Zdigits2_log2 by lia.
  set (x := Z.log2 (Zpos mx) + 1 + ex - (Z.log2 (Zpos my) + 1 + ey)).
  set (e' := Z.min (fexp prec emax x) (ex - ey)).
  set (m' := match ex - ey - e' with Z0 => Zpos mx | Zpos _ => _ | Zneg _ => 0 end).
  assert (m' = Z.shiftl (Zpos mx) (ex - ey - e')) as Hm'.
  { unfold m'. destruct (ex - ey - e') eqn:Es; [by rewrite Z.shiftl_0_r | done | lia]. }
  clearbody m'.
  assert (0 < m' /\ Z.log2 m' = Z.log2 (Zpos mx) + (ex - ey - e')) as [Hpos Hlog].
  { rewrite Hm', Z.log2_shiftl by lia. split; [| done].
    rewrite Z.shiftl_mul_pow2 by lia. pose proof (Z.pow_pos_nonneg 2 (ex - ey - e')). nia. }
  pose proof (Z.div_eucl_eq m' (Zpos my) ltac:(lia)) as Hdiv.
  pose proof (Z.mod_pos_bound m' (Zpos my) ltac:(lia)) as Hmod. unfold Z.modulo in Hmod.
  destruct (Z.div_eucl m' (Zpos my)) as [q r] eqn:Eq.
  assert (0 <= q) by nia.
  pose proof (Z.log2_spec m' Hpos) as [Hl1 _].
  pose proof (Z.log2_spec (Zpos my) ltac:(lia)) as [_ Hl2].
  destruct (decide (q = 0)) as [-> | Hq0].
  - apply binary_round_aux_zero; try done.
    assert (Z.log2 m' <= Z.log2 (Zpos my)) as Hle by (apply Z.log2_le_mono; lia).
    unfold e', fexp, emin in *. lia.
  - apply binary_round_aux_valid; try done; [lia |].
    rewrite Zdigits2_log2 by lia. pose proof (Z.log2_spec q ltac:(lia)) as [_ Hl3].
    assert (2 ^ Z.log2 m' < 2 ^ (Z.succ (Z.log2 (Zpos my)) + Z.succ (Z.log2 q))) as Hlt.
    { rewrite Z.pow_add_r by (pose proof (Z.log2_nonneg q); pose proof (Z.log2_nonneg (Zpos my)); lia).
      nia. }
    apply Z.pow_lt_mono_r_iff in Hlt;
      [| lia | pose proof (Z.log2_nonneg q); pose proof (Z.log2_nonneg (Zpos my)); lia].
    unfold e', fexp, emin in *. lia.
Qed.

(** Comparison of canonical values agrees with their integer parts. *)

Lemma shiftl_as_div m e k : 0 <= k -> 0 <= e + k -> 0 <= m ->
  Z.shiftl m e = (m * 2 ^ (e + k)) / 2 ^ k.
Proof.
  intros Hk He Hm. destruct (Z.le_gt_cases 0 e).
  - rewrite Z.shiftl_mul_pow2, Z.pow_add_r, Z.mul_assoc, Z.div_mul by lia. done.
  - assert (exists d, e = - d /\ 0 < d) as (d & -> & Hd) by (exists (- e); lia).
    rewrite Z.shiftl_opp_r, Z.shiftr_div_pow2 by lia.
    assert (2 ^ k = 2 ^ (- d + k) * 2 ^ d) as -> by (rewrite <- Z.pow_add_r by lia; f_equal; lia).
    rewrite (Z.mul_comm m), Z.div_mul_cancel_l by lia. done.
Qed.

Lemma shiftl_mono m1 e1 m2 e2 : 0 <= m1 -> 0 <= m2 -> e1 <= e2 ->
  m1 <= m2 * 2 ^ (e2 - e1) -> Z.shiftl m1 e1 <= Z.shiftl m2 e2.
Proof.
  intros H1 H2 He Hle.
  assert (exists k, 0 <= k /\ 0 <= e1 + k) as (k & Hk & Hk1) by (exists (Z.max 0 (- e1)); lia).
  rewrite (shiftl_as_div m1 e1 k), (shiftl_as_div m2 e2 k) by lia.
  apply Z.div_le_mono; [lia |].
  replace (e2 + k) with ((e2 - e1) + (e1 + k)) by lia.
  rewrite (Z.pow_add_r 2 (e2 - e1) (e1 + k)), Z.mul_assoc by lia.
  apply Z.mul_le_mono_nonneg_r; [lia | done].
Qed.

Lemma SFcompare_pos_mono m1 e1 m2 e2 :
  valid (S754_finite false m1 e1) -> valid (S754_finite false m2 e2) ->
  SFleb (S754_finite false m1 e1) (S754_finite false m2 e2) = true ->
  Z.shiftl (Zpos m1) e1 <= Z.shiftl (Zpos m2) e2.
Proof.
  intros Hv1 Hv2 Hc. apply valid_finite_inv in Hv1 as [Hv1 _], Hv2 as [Hv2 _].
  unfold SFleb in Hc. simpl in Hc. destruct (Z.compare_spec e1 e2) as [-> | Hlt | Hgt].
  - apply shiftl_mono; [lia | lia | lia |]. rewrite Z.sub_diag.
    fold (Pos.compare m1 m2) in Hc. destruct (Pos.compare_spec m1 m2); [lia | lia | done].
  - apply shiftl_mono; [lia | lia | lia |].
    assert (Z.log2 (Zpos m2) = prec - 1) as Hl2 by lia.
    pose proof (Z.log2_spec (Zpos m2) ltac:(lia)) as [Hlow _]. rewrite Hl2 in Hlow.
    assert (Zpos m1 < 2 ^ prec) as Hup by (apply Z.log2_lt_pow2; lia).
    assert (2 ^ prec = 2 ^ (prec - 1) * 2 ^ 1) as Hp by (rewrite <- Z.pow_add_r by lia; f_equal; lia).
    assert (2 ^ 1 <= 2 ^ (e2 - e1)) as Hpow by (apply Z.pow_le_mono_r; lia).
    nia.
  - done.
Qed.
(** *** Finite results and results that are not NaN *)

Lemma binary_round_within s m e : Z.log2 (Zpos m) + 1 + e < emax ->
  f_within prec emax (Z.log2 (Zpos m) + e) (binary_round prec emax s m e).
Proof.
  intros Hb. unfold binary_round.
  pose proof (shl_align_spec m e (fexp prec emax (Zpos (digits2_pos m) + e))) as H.
  destruct (shl_align _ _ _) as [m' e'']. destruct H as [Hm' He''].
  assert (Z.log2 (Zpos m') + e'' = Z.log2 (Zpos m) + e) as Hl.
  { rewrite Hm', Z.log2_shiftl by lia. lia. }
  rewrite <- Hl. apply binary_round_aux_spec; try done; [| lia].
  rewrite Zdigits2_log2 by lia. rewrite digits2_log2 in He''. unfold fexp, emin in *. lia.
Qed.

Lemma binary_normalize_within z e s : z <> 0 -> Z.log2 (Z.abs z) + 1 + e < emax ->
  f_within prec emax (Z.log2 (Z.abs z) + e) (binary_normalize prec emax z e s).
Proof. intros Hz Hb. destruct z; [done | by apply binary_round_within ..]. Qed.

(** Finite, with its leading bit at most [k]. *)
Definition f_below (k : Z) (x : spec_float) : Prop :=
  match x with
  | S754_zero _ => True
  | S754_finite _ m e => Z.log2 (Zpos m) + e <= k
  | _ => False
  end.

Lemma f_within_below k k' x : f_within prec emax k x -> k + 1 <= k' -> 3 - emax - prec <= k' ->
  f_below k' x.
Proof. destruct x; simpl; try done. lia. Qed.

Lemma f_below_finite k x : f_below k x -> f_is_finite x = true.
Proof. by destruct x. Qed.

Lemma log2_abs_add_le a b k : Z.log2 (Z.abs a) <= k -> Z.log2 (Z.abs b) <= k ->
  Z.log2 (Z.abs (a + b)) <= k + 1.
Proof.
  intros Ha Hb. assert (0 <= k) by (pose proof (Z.log2_nonneg (Z.abs a)); lia).
  assert (forall x, Z.log2 (Z.abs x) <= k -> Z.abs x < 2 ^ (k + 1)) as Hup.
  { intros x Hx. destruct (decide (x = 0)) as [-> | ?]; [simpl; lia |].
    apply Z.log2_lt_pow2; lia. }
  specialize (Hup a Ha) as Ha'. specialize (Hup b Hb) as Hb'.
  destruct (decide (a + b = 0)) as [-> | ?]; [simpl; lia |].
  assert (Z.log2 (Z.abs (a + b)) < k + 1 + 1); [| lia].
  apply Z.log2_lt_pow2; [lia |]. rewrite (Z.pow_add_r 2 (k + 1) 1) by lia. lia.
Qed.

Lemma SFadd_below k x y : 3 - emax - prec <= k -> k + 2 < emax ->
  f_below k x -> f_below k y -> f_below (k + 2) (SFadd prec emax x y).
Proof.
  intros Hk1 Hk2 Hx Hy.
  destruct x as [[] | [] | | sx mx ex], y as [[] | [] | | sy my ey]; try done; cbn [f_below] in Hx, Hy.
  1-4: cbn [SFadd f_below]; lia.
  unfold SFadd. set (ez := Z.min ex ey).
  pose proof (shl_align_spec mx ex ez) as H1. pose proof (shl_align_spec my ey ez) as H2.
  destruct (shl_align mx ex ez) as [m1 e1], (shl_align my ey ez) as [m2 e2].
  destruct H1 as [Hm1 ->], H2 as [Hm2 ->]. cbn [fst].
  replace (Z.min ex ez) with ez in Hm1 by lia. replace (Z.min ey ez) with ez in Hm2 by lia.
  assert (forall s m, Z.abs (cond_Zopp s (Zpos m)) = Zpos m) as Habs by (by intros [] ?).
  pose proof (log2_abs_add_le (cond_Zopp sx (Zpos m1)) (cond_Zopp sy (Zpos m2)) (k - ez)) as Hlog.
  rewrite !Habs, Hm1, Hm2, !Z.log2_shiftl in Hlog by lia. rewrite <- Hm1, <- Hm2 in Hlog.
  specialize (Hlog ltac:(lia) ltac:(lia)).
  set (z := cond_Zopp sx (Zpos m1) + cond_Zopp sy (Zpos m2)) in *. clearbody z.
  destruct (decide (z = 0)) as [-> | Hz]; [done |].
  eapply f_within_below; [apply binary_normalize_within; lia | lia | lia].
Qed.

Lemma SFmul_below k1 k2 x y : valid x -> valid y -> f_below k1 x -> f_below k2 y ->
  3 - emax - prec <= k1 + k2 + 2 -> k1 + k2 + 2 < emax -> f_below (k1 + k2 + 2) (SFmul prec emax x y).
Proof.
  intros Hx Hy Bx By Hlo Hhi.
  destruct x as [sx | sx | | sx mx ex], y as [sy | sy | | sy my ey]; try done. cbn [f_below] in Bx, By.
  apply valid_finite_inv in Hx as [Hx _], Hy as [Hy _]. unfold SFmul.
  pose proof (Z.log2_mul_below (Zpos mx) (Zpos my) ltac:(lia) ltac:(lia)) as Hl.
  pose proof (Z.log2_mul_above (Zpos mx) (Zpos my) ltac:(lia) ltac:(lia)) as Hu.
  rewrite <- Pos2Z.inj_mul in Hl, Hu.
  pose proof (Z.log2_nonneg (Zpos mx)). pose proof (Z.log2_nonneg (Zpos my)).
  eapply f_within_below; [apply binary_round_aux_spec; try done | |]; try lia.
  rewrite Zdigits2_log2 by done. unfold fexp, emin. lia.
Qed.

Lemma binary_round_aux_not_nan s m e l : 0 <= m ->
  f_is_nan (binary_round_aux prec emax s m e l) = false.
Proof.
  intros Hm. unfold binary_round_aux, shr_fexp.
  assert (forall m l e n, 0 <= m -> 0 <= shr_m (shr (shr_record_of_loc m l) e n).1) as Hshr.
  { intros m0 l0 e0 n Hm0. destruct (Z.le_gt_cases n 0).
    - rewrite shr_neg by lia. cbn [fst]. by rewrite shr_record_of_loc_m.
    - pose proof (shr_spec m0 l0 e0 n ltac:(lia) ltac:(lia)) as Hs.
      destruct (shr _ _ _). cbn [fst]. destruct Hs as [Hs _]. cbn [fst] in Hs. rewrite Hs. by apply Z.shiftr_nonneg. }
  pose proof (Hshr m l e (fexp prec emax (Zdigits2 m + e) - e) Hm) as H1.
  destruct (shr _ e _) as [r1 e1]. simpl in H1.
  set (m2 := round_nearest_even _ _).
  assert (0 <= m2) as Hm2.
  { unfold m2. destruct (round_nearest_even_cases (shr_m r1) (loc_of_shr_record r1)) as [-> | ->]; lia. }
  clearbody m2. pose proof (Hshr m2 loc_Exact e1 (fexp prec emax (Zdigits2 m2 + e1) - e1) Hm2) as H3.
  destruct (shr _ e1 _) as [r3 e3]. simpl in H3.
  destruct (shr_m r3); [done | by destruct (e3 <=? _) | lia].
Qed.

Lemma binary_normalize_not_nan z e s : f_is_nan (binary_normalize prec emax z e s) = false.
Proof.
  destruct z; simpl; [done | |]; unfold binary_round; destruct (shl_align _ _ _);
    by apply binary_round_aux_not_nan.
Qed.

Lemma SFsub_not_nan x y : f_is_finite x = true -> f_is_finite y = true ->
  f_is_nan (SFsub prec emax x y) = false.
Proof.
  intros Hx Hy. destruct x as [[] | [] | | sx mx ex], y as [[] | [] | | sy my ey]; try done.
  apply binary_normalize_not_nan.
Qed.

(** A divisor that is neither zero, infinite nor NaN. *)
Lemma SFdiv_not_nan x s m e : f_is_nan x = false ->
  f_is_nan (SFdiv prec emax x (S754_finite s m e)) = false.
Proof.
  intros Hx. destruct x as [sx | sx | | sx mx ex]; try done.
  unfold SFdiv. destruct (SFdiv_core_binary _ _ _ _ _ _) as [[q e'] l] eqn:E.
  apply binary_round_aux_not_nan. revert E. unfold SFdiv_core_binary.
  set (m' := match _ with Z0 => _ | _ => _ end).
  assert (0 <= m') as Hm'.
  { unfold m'. destruct (ex - e - _); [lia | | done]. by apply Z.shiftl_nonneg. }
  clearbody m'. pose proof (Z.div_pos m' (Zpos m) Hm' ltac:(lia)) as Hq. unfold Z.div in Hq.
  destruct (Z.div_eucl m' (Zpos m)) as [q0 r0]. intros [= <- _ _]. done.
Qed.
End operations_valid.

Lemma f64_mul_valid x y : f64_valid x -> f64_valid y -> f64_valid (f64_mul x y).
Proof. apply SFmul_valid; lia. Qed.

Lemma f64_of_Z_valid z : f64_valid (f64_of_Z z).
Proof. apply binary_normalize_valid; lia. Qed.

Lemma f32_to_f64_valid x : f64_valid (f32_to_f64 x).
Proof. destruct x; try done. apply binary_normalize_valid; lia. Qed.

Lemma f64_of_Z_trunc z : 0 <= z < 2 ^ 53 -> f_trunc (f64_of_Z z) = z.
Proof. intros. apply binary_normalize_trunc; lia. Qed.

Lemma f64_one_valid : f64_valid f64_one.
Proof. reflexivity. Qed.

#[export] Hint Resolve f64_mul_valid f64_of_Z_valid f32_to_f64_valid f64_one_valid : hedge.

Lemma f64_add_valid x y : f64_valid x -> f64_valid y -> f64_valid (f64_add x y).
Proof. apply SFadd_valid; lia. Qed.

Lemma f64_sub_valid x y : f64_valid x -> f64_valid y -> f64_valid (f64_sub x y).
Proof. apply SFsub_valid; lia. Qed.

Lemma f64_div_valid x y : f64_valid x -> f64_valid y -> f64_valid (f64_div x y).
Proof. apply SFdiv_valid; lia. Qed.

Lemma f_min_valid x y : f64_valid x -> f64_valid y -> f64_valid (f_min x y).
Proof. intros. unfold f_min. by destruct (f_is_nan x), (f_is_nan y), (f_lt y x). Qed.

Lemma f_max_valid x y : f64_valid x -> f64_valid y -> f64_valid (f_max x y).
Proof. intros. unfold f_max. by destruct (f_is_nan x), (f_is_nan y), (f_lt x y). Qed.

#[export] Hint Resolve f64_add_valid f64_sub_valid f64_div_valid f_min_valid f_max_valid : hedge.

Lemma f64_of_Z_shape b : 0 < b < 2 ^ 53 -> exists m e, f64_of_Z b = S754_finite false m e.
Proof. intros. unfold f64_of_Z. rewrite (binary_normalize_exact 53 1024) by lia. eauto. Qed.

(** The cast of an [f64] that is at most the exact image of [b] is at most [b]. *)
Lemma f_to_int_le lo hi x b : lo <= 0 -> b <= hi -> f64_valid x -> 0 < b < 2 ^ 53 ->
  f_lt (f64_of_Z b) x = false -> f_is_nan x = false -> f_to_int lo hi x <= b.
Proof.
  intros Hlo Hhi Hv Hb Hlt Hnan. pose proof (f64_of_Z_valid b) as Hvb.
  pose proof (f64_of_Z_trunc b ltac:(lia)) as Ht. revert Hlt Hvb Ht.
  destruct (f64_of_Z_shape b Hb) as (m & e & ->). intros Hlt Hvb Ht.
  destruct x as [s | [] | | s mx ex]; try done; unfold f_to_int.
  - unfold sat. simpl. split_ifs; lia.
  - lia.
  - destruct s.
    { assert (f_trunc (S754_finite true mx ex) <= 0) as Hle.
      { cbn [f_trunc cond_Zopp].
        assert (0 <= Z.shiftl (Zpos mx) ex) by (apply Z.shiftl_nonneg; lia). lia. }
      unfold sat. split_ifs; lia. }
    assert (f_trunc (S754_finite false mx ex) <= b) as Hle.
    { rewrite <- Ht. cbn [f_trunc cond_Zopp]. apply (SFcompare_pos_mono 53 1024); try done.
      revert Hlt. unfold f_lt, SFltb, SFleb. simpl.
      rewrite (Z.compare_antisym e ex). destruct (e ?= ex)%Z; simpl; try done.
      fold (Pos.compare m mx). fold (Pos.compare mx m).
      rewrite (Pos.compare_antisym m mx). by destruct (Pos.compare m mx). }
    unfold sat. split_ifs; lia.
Qed.

Lemma f_as_i64_le x b : f64_valid x -> 0 < b < 2 ^ 53 ->
  f_lt (f64_of_Z b) x = false -> f_is_nan x = false -> f_as_i64 x <= b.
Proof. intros. apply f_to_int_le; try done; unfold_ok; lia. Qed.

(** [x.min(b as f64) as uN] is at most [b], whatever [x] is. *)
Lemma f_to_int_min_le lo hi x b : lo <= 0 -> b <= hi -> f64_valid x -> 0 <= b < 2 ^ 53 ->
  f_to_int lo hi (f_min x (f64_of_Z b)) <= b.
Proof.
  intros Hlo Hhi Hv Hb. destruct (decide (b = 0)) as [-> | Hpos].
  - change (f64_of_Z 0) with f_zero. destruct x as [s | [] | | [] m e]; try (vm_compute; lia);
      unfold f_min, f_to_int; simpl; try lia; try (unfold sat; split_ifs; lia).
    unfold sat. assert (0 <= Z.shiftl (Zpos m) e) by (apply Z.shiftl_nonneg; lia). split_ifs; lia.
  - pose proof (f64_of_Z_trunc b Hb) as Ht. destruct (f64_of_Z_shape b ltac:(lia)) as (m & e & E).
    assert (f_to_int lo hi (f64_of_Z b) <= b) as Hself.
    { rewrite E in *. unfold f_to_int. rewrite Ht. unfold sat. split_ifs; lia. }
    unfold f_min. destruct (f_is_nan x) eqn:Hnan; [done |].
    replace (f_is_nan (f64_of_Z b)) with false by (by rewrite E).
    destruct (f_lt (f64_of_Z b) x) eqn:Hlt; [done |]. apply f_to_int_le; try done; lia.
Qed.

Lemma f_as_i64_of_Z b : 0 <= b < 2 ^ 53 -> f_as_i64 (f64_of_Z b) = b.
Proof.
  intros Hb. pose proof (f64_of_Z_trunc b Hb) as Ht.
  destruct (decide (b = 0)) as [-> | Hnz]; [done |].
  unfold f64_of_Z in *. rewrite (binary_normalize_exact 53 1024) in * by lia.
  unfold f_as_i64, f_to_int. rewrite Ht. apply sat_id. unfold_ok. lia.
Qed.

(** ** Multiplication by one is exact *)

Lemma iter_shr_exact p : forall m, 0 < m ->
  SpecFloat.iter_pos shr_1 p {| shr_m := m * 2 ^ Zpos p; shr_r := false; shr_s := false |}
  = {| shr_m := m; shr_r := false; shr_s := false |}.
Proof.
  induction p as [p IH | p IH |]; intros m Hm; simpl SpecFloat.iter_pos.
  - replace (m * 2 ^ Zpos p~1) with ((m * 2 ^ Zpos p * 2 ^ Zpos p) * 2).
    + assert (0 < m * 2 ^ Zpos p) by lia. assert (0 < m * 2 ^ Zpos p * 2 ^ Zpos p) by lia.
      destruct (m * 2 ^ Zpos p * 2 ^ Zpos p) as [| k | k] eqn:Ek; try lia.
      replace (Zpos k * 2) with (Zpos k~0) by lia. simpl shr_1. rewrite <- Ek.
      rewrite IH by lia. apply IH. lia.
    + rewrite (Pos2Z.inj_xI p), Z.pow_add_r by lia.
      replace (2 * Zpos p) with (Zpos p + Zpos p) by lia. rewrite Z.pow_add_r by lia. lia.
  - replace (m * 2 ^ Zpos p~0) with (m * 2 ^ Zpos p * 2 ^ Zpos p).
    + rewrite IH by lia. apply IH. lia.
    + rewrite (Pos2Z.inj_xO p). replace (2 * Zpos p) with (Zpos p + Zpos p) by lia.
      rewrite Z.pow_add_r by lia. lia.
  - destruct m as [| k | k]; [lia | | lia].
    replace (Zpos k * 2 ^ 1) with (Zpos k~0) by lia. reflexivity.
Qed.

Lemma f64_mul_one x : f64_valid x -> f64_mul x f64_one = x.
Proof.
  intros Hv. destruct x as [s | s | | s m e]; try (by destruct s); [done |].
  apply (valid_finite_inv 53 1024) in Hv as [He Hmax].
  change f64_one with (S754_finite false 4503599627370496 (-52)).
  unfold f64_mul, SFmul. rewrite xorb_false_r.
  assert (Zpos (m * 4503599627370496) = Zpos m * 2 ^ Zpos 52) as Hm52 by (simpl; lia).
  assert (Z.log2 (Zpos (m * 4503599627370496)) = Z.log2 (Zpos m) + 52) as Hlog.
  { rewrite Hm52, Z.log2_mul_pow2 by lia. lia. }
  unfold binary_round_aux, shr_fexp. rewrite Zdigits2_log2, Hlog by lia.
  replace (fexp 53 1024 (Z.log2 (Zpos m) + 52 + 1 + (e + -52)) - (e + -52)) with (Zpos 52)
    by (unfold fexp, emin; lia).
  simpl shr_record_of_loc. unfold shr. rewrite Hm52.
  pose proof (iter_shr_exact 52 (Zpos m) ltac:(lia)) as Hi. rewrite Hi.
  simpl shr_m. simpl loc_of_shr_record. simpl round_nearest_even.
  rewrite Zdigits2_log2 by lia.
  replace (fexp 53 1024 (Z.log2 (Zpos m) + 1 + (e + -52 + 52)) - (e + -52 + 52)) with 0
    by (unfold fexp, emin; lia).
  simpl shr_m. destruct (Z.leb_spec (e + -52 + 52) (1024 - 53)); [| lia].
  simpl. f_equal. lia.
Qed.

Lemma f_as_u64_of_Z b : 0 <= b < 2 ^ 53 -> f_as_u64 (f64_of_Z b) = b.
Proof.
  intros Hb. pose proof (f64_of_Z_trunc b Hb) as Ht.
  destruct (decide (b = 0)) as [-> | Hnz]; [done |].
  destruct (f64_of_Z_shape b ltac:(lia)) as (m & e & E). rewrite E in *.
  unfold f_as_u64, f_to_int. rewrite Ht. apply sat_id. unfold_ok. lia.
Qed.

(** Conversion is monotone on small integers. *)
Lemma f_lt_of_Z a b : 0 < a < 2 ^ 53 -> 0 < b < 2 ^ 53 ->
  f_lt (f64_of_Z a) (f64_of_Z b) = true -> a <= b.
Proof.
  intros Ha Hb Hlt. pose proof (f64_of_Z_trunc a ltac:(lia)) as Hta.
  pose proof (f64_of_Z_trunc b ltac:(lia)) as Htb.
  pose proof (f64_of_Z_valid a) as Hva. pose proof (f64_of_Z_valid b) as Hvb.
  destruct (f64_of_Z_shape a Ha) as (ma & ea & Ea), (f64_of_Z_shape b Hb) as (mb & eb & Eb).
  rewrite Ea, Eb in *. rewrite <- Hta, <- Htb. cbn [f_trunc cond_Zopp].
  apply (SFcompare_pos_mono 53 1024); try done.
  revert Hlt. unfold f_lt, SFltb, SFleb. by destruct (SFcompare _ _) as [[] |].
Qed.

(** The order on values that are not NaN. *)

Lemma SFcompare_antisym a b :
  SFcompare b a = option_map CompOpp (SFcompare a b).
Proof.
  destruct a as [[] | [] | | [] ma ea], b as [[] | [] | | [] mb eb]; try done; simpl;
    rewrite (Z.compare_antisym ea eb); destruct (ea ?= eb)%Z; simpl; try done;
    fold (Pos.compare ma mb); fold (Pos.compare mb ma); rewrite (Pos.compare_antisym ma mb);
    by destruct (Pos.compare ma mb).
Qed.

Lemma SFcompare_Some a b : f_is_nan a = false -> f_is_nan b = false ->
  exists c, SFcompare a b = Some c.
Proof. destruct a as [[] | [] | | [] ? ?], b as [[] | [] | | [] ? ?]; try done; simpl; eauto. Qed.

Lemma f_lt_false_le a b : f_is_nan a = false -> f_is_nan b = false ->
  f_lt a b = false -> f_le b a = true.
Proof.
  intros Ha Hb. destruct (SFcompare_Some a b Ha Hb) as [c Hc].
  unfold f_lt, f_le, SFltb, SFleb. rewrite (SFcompare_antisym a b), Hc. by destruct c.
Qed.

Lemma f_le_refl a : f_is_nan a = false -> f_le a a = true.
Proof.
  intros Ha. apply f_lt_false_le; try done. unfold f_lt, SFltb.
  pose proof (SFcompare_antisym a a) as H. destruct (SFcompare a a) as [[] |]; done.
Qed.

Lemma f_clamp_bounds lo hi x : f_is_nan lo = false -> f_is_nan hi = false -> f_is_nan x = false ->
  f_le lo hi = true ->
  f_is_nan (f_clamp lo hi x) = false
  /\ f_le lo (f_clamp lo hi x) = true /\ f_le (f_clamp lo hi x) hi = true.
Proof.
  intros Hl Hh Hx Hle. unfold f_clamp.
  destruct (f_lt x lo) eqn:E1; [split_and!; try done; by apply f_le_refl |].
  destruct (f_gt x hi) eqn:E2; [split_and!; try done; by apply f_le_refl |].
  split_and!; [done | by apply f_lt_false_le | by apply (f_lt_false_le hi x)].
Qed.

Lemma f64_to_f32_not_nan x : f_is_nan x = false -> f_is_nan (f64_to_f32 x) = false.
Proof. destruct x; try done. intros _. apply binary_normalize_not_nan; lia. Qed.

Lemma f64_to_f32_valid x : f32_valid (f64_to_f32 x).
Proof. destruct x; try done. by apply binary_normalize_valid. Qed.

Lemma f32_of_Z_valid z : f32_valid (f32_of_Z z).
Proof. by apply binary_normalize_valid. Qed.

(** A 128-bit integer as an [f64]: finite, and zero only if the integer is. *)
Lemma f64_of_Z_below z : Z.abs z < 2 ^ 128 -> f_below 129 (f64_of_Z z).
Proof.
  intros Hz. destruct (decide (z = 0)) as [-> | Hnz]; [done |].
  assert (Z.log2 (Z.abs z) < 128) by (apply Z.log2_lt_pow2; lia).
  eapply (f_within_below 53 1024); [apply binary_normalize_within; lia | lia | lia].
Qed.

Lemma f64_of_u64_below z : u64_ok z -> f_below 129 (f64_of_Z z).
Proof. unfold_ok. intros Hz. apply f64_of_Z_below. lia. Qed.

Lemma f64_of_Z_nonzero z : 0 < z < 2 ^ 128 -> exists s m e, f64_of_Z z = S754_finite s m e.
Proof.
  intros Hz. assert (Z.log2 (Z.abs z) < 128) by (apply Z.log2_lt_pow2; lia).
  pose proof (Z.log2_nonneg (Z.abs z)).
  pose proof (binary_normalize_within 53 1024 ltac:(lia) ltac:(lia) z 0 false ltac:(lia) ltac:(lia)) as H1.
  unfold f64_of_Z. destruct (binary_normalize _ _ _ _ _); simpl in H1; try done; [lia |]. eauto.
Qed.

(** [x / x]. *)
Lemma SFdiv_self prec emax s m e : 0 < prec -> 3 <= emax ->
  SFdiv prec emax (S754_finite s m e) (S754_finite s m e)
  = binary_round_aux prec emax false (2 ^ prec) (- prec) loc_Exact.
Proof.
  intros Hp He. unfold SFdiv, SFdiv_core_binary.
  replace (Zdigits2 (Zpos m) + e - (Zdigits2 (Zpos m) + e)) with 0 by lia.
  replace (e - e) with 0 by lia.
  replace (Z.min (fexp prec emax 0) 0) with (- prec) by (unfold fexp, emin; lia).
  replace (0 - - prec) with prec by lia.
  assert (match prec with Z0 => Zpos m | Zpos _ => Z.shiftl (Zpos m) prec | Zneg _ => 0 end
    = Z.shiftl (Zpos m) prec) as -> by (by destruct prec).
  assert (Z.div_eucl (Z.shiftl (Zpos m) prec) (Zpos m) = (2 ^ prec, 0)) as ->.
  { rewrite Z.shiftl_mul_pow2 by lia.
    pose proof (Z.div_mul (2 ^ prec) (Zpos m) ltac:(lia)) as H1.
    pose proof (Z.mod_mul (2 ^ prec) (Zpos m) ltac:(lia)) as H2.
    unfold Z.div in H1. unfold Z.modulo in H2. rewrite (Z.mul_comm (2 ^ prec)) in H1, H2.
    destruct (Z.div_eucl _ _) as [q r]. by subst. }
  assert (xorb s s = false) as -> by (by destruct s).
  assert (new_location (Zpos m) 0 = loc_Exact) as ->; [| reflexivity].
  unfold new_location, new_location_even, new_location_odd. by destruct (Z.even _).
Qed.
Lemma f64_div_self s m e : f64_div (S754_finite s m e) (S754_finite s m e) = f64_one.
Proof. unfold f64_div. by rewrite SFdiv_self. Qed.
Lemma f32_div_self s m e : f32_div (S754_finite s m e) (S754_finite s m e) = f32_one.
Proof. unfold f32_div. by rewrite SFdiv_self. Qed.

Lemma f32_of_Z_nonzero z : 0 < z < 2 ^ 64 -> exists s m e, f32_of_Z z = S754_finite s m e.
Proof.
  intros Hz. assert (Z.log2 (Z.abs z) < 64) by (apply Z.log2_lt_pow2; lia).
  pose proof (Z.log2_nonneg (Z.abs z)).
  pose proof (binary_normalize_within 24 128 ltac:(lia) ltac:(lia) z 0 false ltac:(lia) ltac:(lia)) as H1.
  unfold f32_of_Z. destruct (binary_normalize _ _ _ _ _); simpl in H1; try done; [lia |]. eauto.
Qed.

(** *** Signs *)

Definition f_unsigned (x : spec_float) : Prop :=
  match x with S754_infinity s => s = false | S754_finite s _ _ => s = false | _ => True end.

Lemma binary_round_aux_unsigned prec emax m e l : f_unsigned (binary_round_aux prec emax false m e l).
Proof.
  unfold binary_round_aux. destruct (shr_fexp _ _ _ _ _) as [r1 e1]. destruct (shr_fexp _ _ _ _ _) as [r2 e2].
  destruct (shr_m r2); [done | by destruct (e2 <=? _) | done].
Qed.

Lemma f64_mul_unsigned x y : f_unsigned x -> f_unsigned y -> f_unsigned (f64_mul x y).
Proof.
  destruct x as [sx | sx | | sx mx ex], y as [sy | sy | | sy my ey]; try done; cbn [f_unsigned];
    try (intros -> ->; done); try (intros -> _; done); try (intros _ ->; done).
  intros -> ->. apply binary_round_aux_unsigned.
Qed.

Lemma f64_of_Z_unsigned z : 0 <= z -> f_unsigned (f64_of_Z z).
Proof.
  intros Hz. unfold f64_of_Z. destruct z as [| p | p]; [done | | lia]. cbn [binary_normalize].
  unfold binary_round. destruct (shl_align _ _ _). apply binary_round_aux_unsigned.
Qed.

Lemma f_round_bounds k x : f_unsigned x -> f_below k x -> 0 <= k < 62 ->
  0 <= f_round_as_i64 x <= 2 ^ (k + 1).
Proof.
  intros Hs Hb Hk. assert (2 ^ (k + 1) <= 2 ^ 62) by (apply Z.pow_le_mono_r; lia).
  assert (2 ^ 1 <= 2 ^ (k + 1)) as Hp1 by (apply Z.pow_le_mono_r; lia).
  destruct x as [s | s | | s m e]; try done; [simpl; lia |]. simpl in Hs. subst s. cbn [f_below] in Hb.
  unfold f_round_as_i64, f_round_nonneg. cbn [cond_Zopp].
  assert (0 <= Z.shiftl (Zpos m) (e + 1) < 2 ^ (k + 2)) as [H1 H2].
  { split; [by apply Z.shiftl_nonneg |]. pose proof (Z.log2_spec (Zpos m) ltac:(lia)) as [_ Hu].
    destruct (Z.le_gt_cases 0 (e + 1)) as [He | He].
    - rewrite Z.shiftl_mul_pow2 by lia.
      assert (Zpos m * 2 ^ (e + 1) < 2 ^ Z.succ (Z.log2 (Zpos m)) * 2 ^ (e + 1)) as Hlt.
      { apply Z.mul_lt_mono_pos_r; [apply Z.pow_pos_nonneg; lia | done]. }
      rewrite <- Z.pow_add_r in Hlt by (pose proof (Z.log2_nonneg (Zpos m)); lia).
      eapply Z.lt_le_trans; [exact Hlt |]. apply Z.pow_le_mono_r; lia.
    - assert (Z.shiftl (Zpos m) (e + 1) = Z.shiftr (Zpos m) (- (e + 1))) as ->
        by (by rewrite <- Z.shiftl_opp_r, Z.opp_involutive).
      rewrite Z.shiftr_div_pow2 by lia. apply Z.div_lt_upper_bound; [apply Z.pow_pos_nonneg; lia |].
      rewrite <- Z.pow_add_r by lia. eapply Z.lt_le_trans; [exact Hu |]. apply Z.pow_le_mono_r; lia. }
  set (h := Z.shiftl (Zpos m) (e + 1)) in *. clearbody h.
  change (-1) with (- (1)). rewrite Z.shiftl_opp_r, Z.shiftr_div_pow2 by lia. change (2 ^ 1) with 2 in *.
  assert (2 ^ (k + 2) = 2 * 2 ^ (k + 1)) as Hp.
  { rewrite (Z.pow_add_r 2 k 2), (Z.pow_add_r 2 k 1) by lia. lia. }
  pose proof (Z.div_pos (h + 1) 2 ltac:(lia) ltac:(lia)).
  pose proof (Z.div_le_upper_bound (h + 1) 2 (2 ^ (k + 1)) ltac:(lia) ltac:(lia)).
  unfold sat. split_ifs; unfold_ok; lia.
Qed.

Lemma f_round_nonneg_result x : f_unsigned x -> 0 <= f_round_as_i64 x <= i64_max.
Proof.
  intros Hs. destruct x as [s | s | | s m e]; try (simpl in *; subst; unfold_ok; simpl; lia).
  simpl in Hs. subst s. unfold f_round_as_i64. cbn [cond_Zopp].
  assert (0 <= f_round_nonneg (S754_finite false m e)).
  { unfold f_round_nonneg. apply Z.shiftl_nonneg. assert (0 <= Z.shiftl (Zpos m) (e + 1)) by (by apply Z.shiftl_nonneg). lia. }
  unfold_ok. unfold sat. split_ifs; lia.
Qed.

(** ** The bits of an [f32]

    [f32::to_bits] and [f32::from_bits]; every NaN is [S754_nan], whose bits are those of
    [f32::NAN]. *)

Definition f32_sign_bit (s : bool) : Z := if s then 2147483648 else 0.
Definition f32_to_bits (x : f32) : Z :=
  match x with
  | S754_zero s => f32_sign_bit s
  | S754_infinity s => f32_sign_bit s + 2139095040
  | S754_nan => 2143289344
  | S754_finite s m e =>
    f32_sign_bit s + (if Zpos m <? 8388608 then Zpos m else (e + 150) * 8388608 + (Zpos m - 8388608))
  end.
Definition f32_of_bits (b : Z) : f32 :=
  let s := 2147483648 <=? b in
  let ex := b / 8388608 mod 256 in
  let fr := b mod 8388608 in
  if ex =? 0 then if fr =? 0 then S754_zero s else S754_finite s (Z.to_pos fr) (-149)
  else if ex =? 255 then if fr =? 0 then S754_infinity s else S754_nan
  else S754_finite s (Z.to_pos (fr + 8388608)) (ex - 150).

(** The fields of a pattern. *)
Lemma f32_fields s ex fr : 0 <= ex < 256 -> 0 <= fr < 8388608 ->
  let b := f32_sign_bit s + (ex * 8388608 + fr) in
  (2147483648 <=? b) = s /\ b / 8388608 mod 256 = ex /\ b mod 8388608 = fr.
Proof.
  intros He Hf. cbv zeta.
  assert (exists k, f32_sign_bit s + (ex * 8388608 + fr) = k * 8388608 + fr
    /\ k = (if s then 256 else 0) + ex) as (k & -> & Hk).
  { eexists. split; [| reflexivity]. unfold f32_sign_bit. destruct s; lia. }
  rewrite Z.div_add_l, (Z.div_small fr), Z.add_0_r by lia.
  rewrite (Z.add_comm (k * _)), Z.mod_add, (Z.mod_small fr) by lia. subst k. split_and!; [| | done].
  - destruct s; [apply Z.leb_le; lia | apply Z.leb_gt; lia].
  - destruct s; [| apply Z.mod_small; lia].
    replace (256 + ex) with (ex + 1 * 256) by lia. rewrite Z.mod_add by lia. apply Z.mod_small. lia.
Qed.

Lemma f32_valid_cases s m e : f32_valid (S754_finite s m e) ->
  (Zpos m < 8388608 /\ e = -149) \/ (8388608 <= Zpos m < 16777216 /\ -149 <= e <= 104).
Proof.
  intros H. apply (valid_finite_inv 24 128) in H as [He Hmax]. unfold fexp, emin in He.
  pose proof (Z.log2_spec (Zpos m) ltac:(lia)) as [Hl Hu].
  destruct (Z.lt_ge_cases (Z.log2 (Zpos m)) 23) as [Hlt | Hge].
  - left. split; [| lia]. eapply Z.lt_le_trans; [exact Hu |].
    apply (Z.pow_le_mono_r 2 _ 23); lia.
  - right. assert (Z.log2 (Zpos m) = 23) as E by lia. rewrite E in *. simpl in Hl, Hu. lia.
Qed.

Lemma f32_of_to_bits x : f32_valid x -> f32_of_bits (f32_to_bits x) = x.
Proof.
  intros Hv. destruct x as [[] | [] | | s m e]; try reflexivity. unfold f32_to_bits, f32_of_bits.
  destruct (f32_valid_cases s m e Hv) as [[Hm ->] | [Hm He]].
  - rewrite (proj2 (Z.ltb_lt _ _)) by lia.
    destruct (f32_fields s 0 (Zpos m) ltac:(lia) ltac:(lia)) as (E1 & E2 & E3).
    rewrite Z.mul_0_l, Z.add_0_l in E1, E2, E3.
    rewrite E1, E2, E3. reflexivity.
  - rewrite (proj2 (Z.ltb_ge _ _)) by lia.
    destruct (f32_fields s (e + 150) (Zpos m - 8388608) ltac:(lia) ltac:(lia)) as (E1 & E2 & E3).
    rewrite E1, E2, E3. destruct (Z.eqb_spec (e + 150) 0), (Z.eqb_spec (e + 150) 255); try lia.
    f_equal; [| lia]. replace (Zpos m - 8388608 + 8388608) with (Zpos m) by lia. done.
Qed.

Lemma f32_to_bits_range x : f32_valid x -> u32_ok (f32_to_bits x).
Proof.
  intros Hv. unfold_ok. destruct x as [[] | [] | | s m e]; try (simpl; lia).
  unfold f32_to_bits. destruct (f32_valid_cases s m e Hv) as [[Hm ->] | [Hm He]].
  - rewrite (proj2 (Z.ltb_lt _ _)) by lia. unfold f32_sign_bit. destruct s; lia.
  - rewrite (proj2 (Z.ltb_ge _ _)) by lia. unfold f32_sign_bit. destruct s; lia.
Qed.
