(* ===== verification/IeeeRatio.v ===== *)
(** Integers that a floating-point format holds exactly, and their quotients: the
    conversion, the difference and the ratio of counts. *)

From S2P Require Import Prelude Ieee.
From Stdlib Require Import Floats.SpecFloat.

Section exact.
Context (prec emax : Z) (Hprec : 1 < prec) (Hemax : 3 * prec <= emax).

(** A full mantissa with [n] zero bits behind it rounds to itself. *)
Lemma binary_round_aux_exact s m n f : Z.log2 (Zpos m) = prec - 1 -> 0 <= n ->
  3 - emax - prec <= f <= emax - prec ->
  binary_round_aux prec emax s (Zpos m * 2 ^ n) (f - n) loc_Exact = S754_finite s m f.
Proof.
  intros Hm Hn Hf. assert (0 < Zpos m * 2 ^ n) as Hpos by (pose proof (Z.pow_pos_nonneg 2 n); nia).
  unfold binary_round_aux, shr_fexp. rewrite Zdigits2_log2, Z.log2_mul_pow2, Hm by lia.
  replace (fexp prec emax (n + (prec - 1) + 1 + (f - n)) - (f - n)) with n by (unfold fexp, emin; lia).
  assert (shr (shr_record_of_loc (Zpos m * 2 ^ n) loc_Exact) (f - n) n
          = ({| shr_m := Zpos m; shr_r := false; shr_s := false |}, f)) as ->.
  { destruct n as [| k | k]; [| | lia].
    - rewrite Z.mul_1_r, Z.sub_0_r. done.
    - unfold shr. simpl shr_record_of_loc. rewrite iter_shr_exact by lia. f_equal. lia. }
  cbn [shr_m loc_of_shr_record round_nearest_even]. rewrite Zdigits2_log2, Hm by lia.
  rewrite shr_neg by (unfold fexp, emin; lia). cbn [shr_record_of_loc shr_m].
  by rewrite (proj2 (Z.leb_le _ _)) by lia.
Qed.

(** [p * 2 ^ j] at exponent [-j]: the mantissa of [p] scaled to [prec] bits. *)
Definition int_mantissa (p : positive) : positive := Z.to_pos (Zpos p * 2 ^ (prec - 1 - Z.log2 (Zpos p))).
Definition int_exponent (p : positive) : Z := Z.log2 (Zpos p) + 1 - prec.

Lemma int_mantissa_spec p : Z.log2 (Zpos p) < prec ->
  Zpos (int_mantissa p) = Zpos p * 2 ^ (- int_exponent p)
  /\ Z.log2 (Zpos (int_mantissa p)) = prec - 1.
Proof.
  intros Hp. unfold int_mantissa, int_exponent.
  replace (- (Z.log2 (Zpos p) + 1 - prec)) with (prec - 1 - Z.log2 (Zpos p)) by lia.
  pose proof (Z.pow_pos_nonneg 2 (prec - 1 - Z.log2 (Zpos p)) ltac:(lia) ltac:(lia)).
  rewrite Z2Pos.id by nia. split; [done |]. rewrite Z.log2_mul_pow2 by lia. lia.
Qed.

Lemma binary_round_exact s p q j : Z.log2 (Zpos p) < prec -> 0 <= j -> Zpos q = Zpos p * 2 ^ j ->
  binary_round prec emax s q (- j) = S754_finite s (int_mantissa p) (int_exponent p).
Proof.
  intros Hp Hj Hq. destruct (int_mantissa_spec p Hp) as [HM HlM].
  pose proof (Z.log2_nonneg (Zpos p)) as Hlp.
  assert (Z.log2 (Zpos q) = Z.log2 (Zpos p) + j) as Hlq by (rewrite Hq, Z.log2_mul_pow2 by lia; lia).
  unfold binary_round. rewrite digits2_log2, Hlq.
  replace (fexp prec emax (Z.log2 (Zpos p) + j + 1 + - j)) with (int_exponent p)
    by (unfold fexp, emin, int_exponent; lia).
  pose proof (shl_align_spec q (- j) (int_exponent p)) as H.
  destruct (shl_align _ _ _) as [m' e'']. destruct H as [Hm' He''].
  set (f := int_exponent p) in *. assert (f <= 0 /\ 3 - emax - prec <= f) by (unfold f, int_exponent; lia).
  destruct (Z.le_gt_cases f (- j)).
  - assert (e'' = f - 0) as -> by lia. replace (Zpos m') with (Zpos (int_mantissa p) * 2 ^ 0).
    + apply binary_round_aux_exact; lia.
    + rewrite Z.mul_1_r, HM, Hm', Hq, Z.shiftl_mul_pow2, <- Z.mul_assoc, <- Z.pow_add_r by lia.
      do 2 f_equal. lia.
  - assert (e'' = f - (f + j)) as -> by lia.
    replace (Zpos m') with (Zpos (int_mantissa p) * 2 ^ (f + j)).
    + apply binary_round_aux_exact; lia.
    + rewrite Hm', HM, Hq, <- Z.mul_assoc, <- Z.pow_add_r by lia.
      replace (- f + (f + j)) with j by lia.
      replace (- j - (f - (f + j))) with 0 by lia. by rewrite Z.shiftl_0_r.
Qed.

(** The integer [z] with [|z| < 2 ^ prec], and the same value written [z * 2 ^ j] at [-j]. *)
Definition int_float (z : Z) : spec_float :=
  match z with
  | Z0 => S754_zero false
  | Zpos p => S754_finite false (int_mantissa p) (int_exponent p)
  | Zneg p => S754_finite true (int_mantissa p) (int_exponent p)
  end.

Lemma log2_lt_prec p : Zpos p < 2 ^ prec -> Z.log2 (Zpos p) < prec.
Proof. intros H. apply Z.log2_lt_pow2; lia. Qed.

Lemma binary_normalize_int z j : Z.abs z < 2 ^ prec -> 0 <= j ->
  binary_normalize prec emax (z * 2 ^ j) (- j) false = int_float z.
Proof.
  intros Hz Hj. pose proof (Z.pow_pos_nonneg 2 j ltac:(lia) Hj) as Hp.
  destruct z as [| p | p]; [done | |].
  - destruct (Zpos p * 2 ^ j) as [| q | q] eqn:E; try lia.
    by apply binary_round_exact; [apply log2_lt_prec | |].
  - destruct (Zneg p * 2 ^ j) as [| q | q] eqn:E; try lia.
    by apply binary_round_exact; [apply log2_lt_prec | | lia].
Qed.

(** The difference of two integers is exact. *)
Lemma SFsub_int a b : 0 <= a < 2 ^ prec -> 0 <= b < 2 ^ prec ->
  SFsub prec emax (int_float a) (int_float b) = int_float (a - b).
Proof.
  intros Ha Hb. destruct a as [| a | a], b as [| b | b]; try lia; [done | done | by rewrite Z.sub_0_r |].
  destruct (int_mantissa_spec a (log2_lt_prec a ltac:(lia))) as [HMa _].
  destruct (int_mantissa_spec b (log2_lt_prec b ltac:(lia))) as [HMb _].
  assert (int_exponent a <= 0 /\ int_exponent b <= 0) as [Hea Heb].
  { pose proof (log2_lt_prec a ltac:(lia)). pose proof (log2_lt_prec b ltac:(lia)).
    unfold int_exponent. lia. }
  cbn [int_float SFsub]. set (k := Z.min (int_exponent a) (int_exponent b)).
  pose proof (shl_align_spec (int_mantissa a) (int_exponent a) k) as Sa.
  pose proof (shl_align_spec (int_mantissa b) (int_exponent b) k) as Sb.
  destruct (shl_align (int_mantissa a) _ _) as [ma ea], (shl_align (int_mantissa b) _ _) as [mb eb].
  destruct Sa as [Sa ->], Sb as [Sb ->]. cbn [fst cond_Zopp].
  rewrite <- (binary_normalize_int (Zpos a - Zpos b) (- k)) by lia.
  rewrite Sa, Sb, HMa, HMb, !Z.shiftl_mul_pow2, <- !Z.mul_assoc, <- !Z.pow_add_r by lia.
  f_equal; [| lia]. rewrite Z.mul_sub_distr_r. repeat f_equal; lia.
Qed.

(** *** A quotient that is at most one *)

(** At most one in magnitude. *)
Definition f_unit (x : spec_float) : Prop :=
  match x with S754_zero _ => True | S754_finite _ m e => e <= 0 /\ Zpos m <= 2 ^ (- e) | _ => False end.

Lemma pow_split a n : 0 <= n -> n <= a -> 2 ^ a = 2 ^ (a - n) * 2 ^ n.
Proof. intros Hn Ha. rewrite <- Z.pow_add_r by lia. f_equal. lia. Qed.

Lemma shiftr_le_pow m a n : 0 <= m -> 0 <= n <= a -> m <= 2 ^ a -> Z.shiftr m n <= 2 ^ (a - n).
Proof.
  intros Hm Hn Hle. rewrite Z.shiftr_div_pow2 by lia.
  apply Z.div_le_upper_bound; [apply Z.pow_pos_nonneg; lia |].
  rewrite Z.mul_comm, <- pow_split by lia. done.
Qed.

Lemma shiftr_lt_pow m a n : 0 <= m -> 0 <= n <= a -> m < 2 ^ a -> Z.shiftr m n < 2 ^ (a - n).
Proof.
  intros Hm Hn Hlt. rewrite Z.shiftr_div_pow2 by lia.
  apply Z.div_lt_upper_bound; [apply Z.pow_pos_nonneg; lia |].
  rewrite Z.mul_comm, <- pow_split by lia. done.
Qed.

(** The second half of a rounding: a mantissa that is already at most one. *)
Lemma round_tail_unit s m2 e1 : 0 <= m2 -> e1 <= 0 -> 3 - emax - prec <= e1 -> m2 <= 2 ^ (- e1) ->
  f_unit (let '(mrs, e) := shr_fexp prec emax m2 e1 loc_Exact in
          match shr_m mrs with
          | Z0 => S754_zero s
          | Zpos m => if e <=? emax - prec then S754_finite s m e else S754_infinity s
          | _ => S754_nan
          end).
Proof.
  intros Hm He1 Hmin Hle. unfold shr_fexp.
  set (n := fexp prec emax (Zdigits2 m2 + e1) - e1).
  assert (n <= - e1) as Hn.
  { unfold n, fexp, emin. destruct (decide (m2 = 0)) as [-> | Hnz]; [simpl; lia |].
    rewrite Zdigits2_log2 by lia. pose proof (Z.log2_le_mono _ _ Hle) as Hl.
    rewrite Z.log2_pow2 in Hl by lia. lia. }
  clearbody n. destruct (Z.le_gt_cases n 0) as [Hneg | Hpos].
  - rewrite shr_neg by done. rewrite shr_record_of_loc_m.
    destruct m2 as [| p | p]; [done | | lia]. by rewrite (proj2 (Z.leb_le _ _)) by lia.
  - destruct (shr_spec m2 loc_Exact e1 n Hm ltac:(lia)) as [Hm3 He3].
    destruct (shr _ _ _) as [r e]. simpl in Hm3, He3. rewrite Hm3, He3.
    pose proof (shiftr_le_pow m2 (- e1) n Hm ltac:(lia) Hle) as H3.
    destruct (Z.shiftr m2 n) as [| p | p] eqn:Ep; [done | |].
    + rewrite (proj2 (Z.leb_le _ _)) by lia. cbn [f_unit]. split; [lia |].
      replace (- (e1 + n)) with (- e1 - n) by lia. done.
    + pose proof (Z.shiftr_nonneg m2 n). lia.
Qed.

(** Below one, whatever was cut off; or one exactly. *)
Lemma binary_round_aux_unit s m e l : 0 <= m -> e <= 0 -> e <= 3 - emax - prec \/ e <= fexp prec emax (Zdigits2 m + e) ->
  m < 2 ^ (- e) \/ (m = 2 ^ (- e) /\ l = loc_Exact) ->
  f_unit (binary_round_aux prec emax s m e l).
Proof.
  intros Hm He Hfe Hle. assert (e <= fexp prec emax (Zdigits2 m + e)) as Hfe'.
  { destruct Hfe; [unfold fexp, emin; lia | done]. }
  destruct Hle as [Hlt | [-> ->]].
  - unfold binary_round_aux. unfold shr_fexp at 1.
    remember (fexp prec emax (Zdigits2 m + e) - e) as n eqn:Hn.
    assert (e + n < 0 /\ 3 - emax - prec <= e + n) as [Hen Hmin].
    { rewrite Hn. unfold fexp, emin. destruct (decide (m = 0)) as [-> | Hnz]; [simpl; lia |].
      rewrite Zdigits2_log2 by lia.
      assert (Z.log2 m < - e) by (apply Z.log2_lt_pow2; lia). lia. }
    destruct (shr_spec m l e n Hm ltac:(lia)) as [Hm1 He1].
    destruct (shr _ _ _) as [r1 e1]. simpl in Hm1, He1. subst e1. rewrite Hm1.
    pose proof (shiftr_lt_pow m (- e) n Hm ltac:(lia) Hlt) as H1.
    assert (0 <= Z.shiftr m n) by (by apply Z.shiftr_nonneg).
    apply round_tail_unit; [| lia | done |].
    + destruct (round_nearest_even_cases (Z.shiftr m n) (loc_of_shr_record r1)) as [-> | ->]; lia.
    + replace (- (e + n)) with (- e - n) by lia.
      destruct (round_nearest_even_cases (Z.shiftr m n) (loc_of_shr_record r1)) as [-> | ->]; lia.
  - destruct (Z.le_gt_cases (1 - prec) e) as [Hs | Hs].
    + (* the mantissa is short: nothing is shifted out *)
      unfold binary_round_aux, shr_fexp at 1. rewrite Zdigits2_log2, Z.log2_pow2 in * by lia.
      rewrite shr_neg by (unfold fexp, emin in *; lia).
      rewrite shr_record_of_loc_m. cbn [shr_record_of_loc loc_of_shr_record round_nearest_even].
      apply round_tail_unit; lia.
    + rewrite (pow_split (- e) (1 - prec - e)) by lia.
      replace (- e - (1 - prec - e)) with (prec - 1) by lia.
      destruct (2 ^ (prec - 1)) as [| p | p] eqn:Ep; try (pose proof (Z.pow_pos_nonneg 2 (prec - 1)); lia).
      replace e with (1 - prec - (1 - prec - e)) at 2 by lia.
      rewrite binary_round_aux_exact; [| by rewrite <- Ep, Z.log2_pow2 by lia | lia | lia].
      split; [lia |]. replace (- (1 - prec)) with (prec - 1) by lia. lia.
Qed.

Lemma shift_up (m n : Z) : 0 < n ->
  match n with Z0 => m | Zpos _ => Z.shiftl m n | Zneg _ => 0 end = m * 2 ^ n.
Proof. intros Hn. rewrite <- Z.shiftl_mul_pow2 by lia. by destruct n. Qed.

Lemma SFdiv_int_unit a b : 0 < b < 2 ^ prec -> Z.abs a <= b ->
  f_unit (SFdiv prec emax (int_float a) (int_float b)).
Proof.
  intros Hb Hab. destruct b as [| b | b]; try lia.
  assert (forall s p, Zpos p <= Zpos b -> f_unit (SFdiv prec emax
    (S754_finite s (int_mantissa p) (int_exponent p)) (int_float (Zpos b)))) as Hpos.
  2: { destruct a as [| a | a]; [done | apply Hpos; lia ..]. }
  intros s p Hp. cbn [int_float SFdiv]. unfold SFdiv_core_binary.
  destruct (int_mantissa_spec b (log2_lt_prec b ltac:(lia))) as [HMb Hlb].
  destruct (int_mantissa_spec p (log2_lt_prec p ltac:(lia))) as [HMp Hlp].
  pose proof (log2_lt_prec p ltac:(lia)). pose proof (log2_lt_prec b ltac:(lia)).
  pose proof (Z.log2_nonneg (Zpos p)). pose proof (Z.log2_nonneg (Zpos b)).
  assert (int_exponent p <= int_exponent b) as Hexp.
  { unfold int_exponent. pose proof (Z.log2_le_mono _ _ Hp). lia. }
  assert (int_exponent b <= 0) as Heb by (unfold int_exponent; lia).
  rewrite !Zdigits2_log2, Hlb, Hlp by lia. set (ea := int_exponent p) in *. set (eb := int_exponent b) in *.
  replace (prec - 1 + 1 + ea - (prec - 1 + 1 + eb)) with (ea - eb) by lia.
  assert (fexp prec emax (ea - eb) = ea - eb - prec) as -> by (unfold fexp, emin, ea, eb, int_exponent; lia).
  replace (Z.min (ea - eb - prec) (ea - eb)) with (ea - eb - prec) by lia.
  replace (ea - eb - (ea - eb - prec)) with prec by lia.
  rewrite shift_up by lia.
  set (M := Zpos (int_mantissa p) * 2 ^ prec). set (D := Zpos (int_mantissa b)) in *.
  assert (M <= D * 2 ^ (- (ea - eb - prec))) as HM.
  { unfold M. rewrite HMp, HMb, <- !Z.mul_assoc, <- !Z.pow_add_r by lia.
    replace (- eb + - (ea - eb - prec)) with (- ea + prec) by lia.
    apply Z.mul_le_mono_nonneg_r; [apply Z.pow_nonneg; lia | lia]. }
  assert (0 <= M) as HM0 by (unfold M; pose proof (Z.pow_pos_nonneg 2 prec); nia).
  assert (2 ^ (prec - 1) <= D < 2 ^ prec) as [HD1 HD2].
  { pose proof (Z.log2_spec D ltac:(lia)) as [? Hu]. rewrite Hlb in *.
    replace (Z.succ (prec - 1)) with prec in Hu by lia. done. }
  assert (2 ^ (prec - 1) <= Zpos (int_mantissa p)) as HP1.
  { pose proof (Z.log2_spec (Zpos (int_mantissa p)) ltac:(lia)) as [? _]. by rewrite Hlp in *. }
  pose proof (Z.div_eucl_eq M D ltac:(lia)) as Hdiv.
  pose proof (Z.mod_pos_bound M D ltac:(lia)) as Hmod. unfold Z.modulo in Hmod.
  destruct (Z.div_eucl M D) as [d r].
  set (K := 2 ^ (- (ea - eb - prec))) in *.
  assert (0 <= d) by nia. assert (d <= K) by nia.
  assert (2 ^ (prec - 1) <= d) as Hdlow.
  { assert (2 ^ (prec - 1) * 2 ^ prec <= M) by (unfold M; nia).
    assert (D * 2 ^ (prec - 1) < 2 ^ (prec - 1) * 2 ^ prec) by (pose proof (Z.pow_pos_nonneg 2 (prec - 1)); nia).
    nia. }
  apply binary_round_aux_unit; [done | lia | |].
  - right. rewrite Zdigits2_log2 by (pose proof (Z.pow_pos_nonneg 2 (prec - 1)); lia).
    pose proof (Z.log2_le_mono _ _ Hdlow) as Hl. rewrite Z.log2_pow2 in Hl by lia.
    unfold fexp, emin. unfold ea, eb, int_exponent in *. lia.
  - fold K. destruct (decide (d = K)) as [-> | Hne]; [right | left; lia].
    split; [done |]. assert (r = 0) as -> by nia.
    unfold new_location, new_location_even, new_location_odd. by destruct (Z.even _).
Qed.

(** Between minus one and one, for a canonical value. *)
Definition f_unit_one : spec_float := S754_finite false (Z.to_pos (2 ^ (prec - 1))) (1 - prec).

Lemma f_unit_le x : f_unit x -> valid_binary prec emax x = true ->
  f_le (f_opp f_unit_one) x = true /\ f_le x f_unit_one = true.
Proof.
  intros Hu Hv. destruct x as [[] | s | | s m e]; try done.
  destruct Hu as [He Hm]. apply (valid_finite_inv prec emax) in Hv as [Hc _].
  assert (e < 1 - prec \/ (e = 1 - prec /\ Zpos m <= 2 ^ (prec - 1))) as Hcase.
  { pose proof (Z.log2_le_mono _ _ Hm) as Hl. rewrite Z.log2_pow2 in Hl by lia.
    destruct (Z.lt_ge_cases e (1 - prec)) as [? | Hge]; [by left | right].
    assert (e = 1 - prec) as -> by lia. split; [done |].
    by replace (prec - 1) with (- (1 - prec)) by lia. }
  pose proof (Z.pow_pos_nonneg 2 (prec - 1) ltac:(lia) ltac:(lia)) as Hp.
  unfold f_le, f_opp, f_unit_one, SFleb. cbn [SFopp negb]. unfold SFcompare.
  destruct Hcase as [Hlt | [-> Hle]].
  - destruct s; rewrite ?(proj2 (Z.compare_lt_iff _ _) Hlt), ?(proj2 (Z.compare_gt_iff _ _) Hlt); done.
  - rewrite Z.compare_refl.
    assert (Pos.compare_cont Eq m (Z.to_pos (2 ^ (prec - 1))) <> Gt) as Hcmp.
    { change (Pos.compare_cont Eq m (Z.to_pos (2 ^ (prec - 1)))) with (Pos.compare m (Z.to_pos (2 ^ (prec - 1)))).
      rewrite Pos.compare_gt_iff. lia. }
    destruct s.
    + split; [| done]. rewrite Pos.compare_cont_antisym. cbn [CompOpp].
      by destruct (Pos.compare_cont Eq m _).
    + split; [done |]. by destruct (Pos.compare_cont Eq m _).
Qed.
End exact.

(** ** [f32] *)

Lemma f32_of_Z_int z : Z.abs z < 2 ^ 24 -> f32_of_Z z = int_float 24 z.
Proof.
  intros Hz. pose proof (binary_normalize_int 24 128 ltac:(lia) ltac:(lia) z 0 Hz ltac:(lia)) as H.
  by rewrite Z.mul_1_r in H.
Qed.

Lemma f32_sub_of_Z a b : 0 <= a < 2 ^ 24 -> 0 <= b < 2 ^ 24 ->
  f32_sub (f32_of_Z a) (f32_of_Z b) = f32_of_Z (a - b).
Proof.
  intros Ha Hb. rewrite !f32_of_Z_int by lia. unfold f32_sub. by rewrite (SFsub_int 24 128) by lia.
Qed.

Lemma f32_ratio_unit a b : 0 < b < 2 ^ 24 -> Z.abs a <= b ->
  f_le (f_opp f32_one) (f32_div (f32_of_Z a) (f32_of_Z b)) = true
  /\ f_le (f32_div (f32_of_Z a) (f32_of_Z b)) f32_one = true.
Proof.
  intros Hb Ha. change f32_one with (f_unit_one 24).
  apply (f_unit_le 24 128); [lia | lia | |].
  - rewrite !f32_of_Z_int by lia. apply (SFdiv_int_unit 24 128); lia.
  - apply SFdiv_valid; [lia .. | |]; apply f32_of_Z_valid.
Qed.

(** ** [f64] *)

Lemma f64_of_Z_int z : Z.abs z < 2 ^ 53 -> f64_of_Z z = int_float 53 z.
Proof.
  intros Hz. pose proof (binary_normalize_int 53 1024 ltac:(lia) ltac:(lia) z 0 Hz ltac:(lia)) as H.
  by rewrite Z.mul_1_r in H.
Qed.

Lemma SFsub_opp prec emax x y : SFsub prec emax x y = SFadd prec emax x (SFopp y).
Proof.
  destruct x as [sx | sx | | sx mx ex], y as [sy | sy | | sy my ey]; cbn; try reflexivity;
    by destruct sx, sy.
Qed.

Lemma f_unit_below x : f_unit x -> f_below 0 x.
Proof.
  destruct x as [| | | s m e]; try done. intros [He Hm]. unfold f_below.
  pose proof (Z.log2_le_mono _ _ Hm) as H. rewrite Z.log2_pow2 in H by lia. lia.
Qed.

(** The difference of two shares of a whole is a number. *)
Lemma f64_shares_finite a b c : 0 < c < 2 ^ 53 -> Z.abs a <= c -> Z.abs b <= c ->
  f_is_finite (f64_sub (f64_div (f64_of_Z a) (f64_of_Z c)) (f64_div (f64_of_Z b) (f64_of_Z c))) = true.
Proof.
  intros Hc Ha Hb. rewrite !f64_of_Z_int by lia. unfold f64_sub. rewrite SFsub_opp.
  assert (forall x, f_below 0 x -> f_below 0 (SFopp x)) as Hopp by (by intros []).
  apply (f_below_finite 2). apply (SFadd_below 53 1024 ltac:(lia) ltac:(lia) 0); [lia | lia | |].
  - apply f_unit_below. apply (SFdiv_int_unit 53 1024); lia.
  - apply Hopp, f_unit_below. apply (SFdiv_int_unit 53 1024); lia.
Qed.

Lemma f64_mul_zero x : f_is_finite x = true -> exists s, f64_mul x f_zero = S754_zero s.
Proof. destruct x; try done; intros _; by eexists. Qed.
