(* ===== verification/IeeeValue.v ===== *)
(** The values of rounded quotients and products: how far a quotient, and a quotient
    multiplied back, can be from the exact value, and when rounding to the nearest integer
    recovers it. *)

From S2P Require Import Prelude Ieee IeeeRatio.
From Stdlib Require Import Floats.SpecFloat.

Section value.
Context (prec emax : Z) (Hprec : 1 < prec) (Hemax : 3 * prec <= emax).

(** A long mantissa is cut to [prec] bits and perhaps incremented, in units of the last place
    [2 ^ (e + n)]. *)
Lemma binary_round_aux_value s m e l n : 0 < m -> n = Z.log2 m + 1 - prec -> 0 <= n ->
  3 - emax - prec <= e + n -> e + n < emax - prec ->
  exists M E c, binary_round_aux prec emax s m e l = S754_finite s M E
    /\ 0 <= c <= 1 /\ e + n <= E /\ Zpos M * 2 ^ (E - (e + n)) = Z.shiftr m n + c.
Proof.
  intros Hm Hn Hn0 Hlo Hhi. unfold binary_round_aux, shr_fexp at 1. rewrite Zdigits2_log2 by lia.
  replace (fexp prec emax (Z.log2 m + 1 + e) - e) with n by (unfold fexp, emin; lia).
  destruct (shr_spec m l e n ltac:(lia) ltac:(lia)) as [Hm1 He1].
  destruct (shr (shr_record_of_loc m l) e n) as [r1 e1]. simpl in Hm1, He1. subst e1. rewrite Hm1.
  pose proof (log2_shiftr_le m n) as Hlog.
  set (m1 := Z.shiftr m n) in *.
  assert (Z.log2 m1 = prec - 1 /\ 0 < m1) as [Hl1 Hp1].
  { assert (0 < m1).
    { unfold m1. rewrite Z.shiftr_div_pow2 by lia. apply Z.div_str_pos. split; [apply Z.pow_pos_nonneg; lia |].
      pose proof (Z.log2_spec m Hm) as [? _]. eapply Z.le_trans; [| done]. apply Z.pow_le_mono_r; lia. }
    split; [| done]. destruct (Hlog ltac:(done) Hn0 Hm) as [-> _]. lia. }
  assert (exists c, 0 <= c <= 1 /\ round_nearest_even m1 (loc_of_shr_record r1) = m1 + c) as (c & Hc & ->).
  { destruct (round_nearest_even_cases m1 (loc_of_shr_record r1)) as [-> | ->]; [exists 0 | exists 1]; lia. }
  pose proof (Z.log2_spec m1 Hp1) as [_ Hub]. rewrite Hl1 in Hub. replace (Z.succ (prec - 1)) with prec in Hub by lia.
  unfold shr_fexp. rewrite Zdigits2_log2 by lia.
  assert (m1 + c < 2 ^ prec \/ m1 + c = 2 ^ prec) as [Hs | Hb] by lia.
  - assert (Z.log2 (m1 + c) = prec - 1) as ->.
    { pose proof (Z.log2_le_mono m1 (m1 + c) ltac:(lia)).
      assert (Z.log2 (m1 + c) < prec) by (apply Z.log2_lt_pow2; lia). lia. }
    rewrite shr_neg by (unfold fexp, emin; lia). rewrite shr_record_of_loc_m.
    destruct (m1 + c) as [| p | p] eqn:Ep; [lia | | lia].
    rewrite (proj2 (Z.leb_le _ _)) by lia. exists p, (e + n), c.
    rewrite Z.sub_diag. repeat split; lia.
  - rewrite Hb, Z.log2_pow2 by lia.
    replace (fexp prec emax (prec + 1 + (e + n)) - (e + n)) with 1 by (unfold fexp, emin; lia).
    destruct (shr_spec (2 ^ prec) loc_Exact (e + n) 1 ltac:(lia) ltac:(lia)) as [Hm3 He3].
    destruct (shr _ (e + n) 1) as [r3 e3]. simpl in Hm3, He3. rewrite Hm3.
    assert (Z.shiftr (2 ^ prec) 1 = 2 ^ (prec - 1)) as ->.
    { rewrite Z.shiftr_div_pow2, Z.pow_sub_r by lia. done. }
    destruct (2 ^ (prec - 1)) as [| p | p] eqn:Ep; [lia | | lia].
    rewrite He3, (proj2 (Z.leb_le _ _)) by lia. exists p, (e + n + 1), c.
    split; [done |]. split; [done |]. split; [lia |].
    rewrite <- Ep, <- Z.pow_add_r by lia. rewrite Hb. f_equal. lia.
Qed.

(** What is cut off is less than a unit: the relative error is at most [2 ^ (1 - prec)]. *)
Lemma shiftr_error m n c : 0 < m -> n = Z.log2 m + 1 - prec -> 0 <= n -> 0 <= c <= 1 ->
  - 2 ^ n < (Z.shiftr m n + c) * 2 ^ n - m <= 2 ^ n /\ 2 ^ n * 2 ^ (prec - 1) <= m.
Proof.
  intros Hm Hn Hn0 Hc. rewrite Z.shiftr_div_pow2 by lia.
  pose proof (Z.pow_pos_nonneg 2 n ltac:(lia) Hn0).
  pose proof (Z.div_mod m (2 ^ n) ltac:(lia)). pose proof (Z.mod_pos_bound m (2 ^ n) ltac:(lia)).
  split; [nia |]. rewrite <- Z.pow_add_r by lia. replace (n + (prec - 1)) with (Z.log2 m) by lia.
  by apply Z.log2_spec.
Qed.

(** *** Quotients *)

(** The unit of the integer quotient of two mantissas. *)
Definition div_unit (m1 : positive) (e1 : Z) (m2 : positive) (e2 : Z) : Z :=
  Z.log2 (Zpos m1) + e1 - (Z.log2 (Zpos m2) + e2) - prec.

Lemma SFdiv_value s m1 e1 m2 e2 : let k := div_unit m1 e1 m2 e2 in
  Z.log2 (Zpos m1) < prec + Z.log2 (Zpos m2) -> 3 - emax - prec <= k -> k + 1 < emax - prec ->
  exists M E, SFdiv prec emax (S754_finite s m1 e1) (S754_finite false m2 e2) = S754_finite s M E
    /\ k <= E
    /\ Z.abs (Zpos m2 * (Zpos M * 2 ^ (E - k)) - Zpos m1 * 2 ^ (e1 - e2 - k)) * 2 ^ (prec - 1)
       <= Zpos m1 * 2 ^ (e1 - e2 - k).
Proof.
  intros k Hd Hlo Hhi. cbn [SFdiv]. unfold SFdiv_core_binary. rewrite !Zdigits2_log2 by lia.
  replace (fexp prec emax (Z.log2 (Zpos m1) + 1 + e1 - (Z.log2 (Zpos m2) + 1 + e2))) with k
    by (unfold fexp, emin, k, div_unit in *; lia).
  replace (Z.min k (e1 - e2)) with k by (unfold k, div_unit in *; lia).
  set (sh := e1 - e2 - k). assert (0 < sh) as Hsh by (unfold sh, k, div_unit in *; lia).
  rewrite shift_up by done. set (N := Zpos m1 * 2 ^ sh).
  pose proof (Z.div_eucl_eq N (Zpos m2) ltac:(lia)) as Hdiv.
  pose proof (Z.mod_pos_bound N (Zpos m2) ltac:(lia)) as Hmod. unfold Z.modulo in Hmod.
  destruct (Z.div_eucl N (Zpos m2)) as [q r].
  assert (2 ^ (prec - 1) <= q < 2 ^ (prec + 1)) as Hq.
  { pose proof (Z.log2_spec (Zpos m1) ltac:(lia)) as [Ha1 Ha2].
    pose proof (Z.log2_spec (Zpos m2) ltac:(lia)) as [Hb1 Hb2]. unfold Z.succ in *.
    pose proof (Z.log2_nonneg (Zpos m1)). pose proof (Z.log2_nonneg (Zpos m2)).
    assert (2 ^ (Z.log2 (Zpos m1) + sh) <= N < 2 ^ (Z.log2 (Zpos m1) + 1 + sh)) as [HN1 HN2].
    { unfold N. rewrite !(Z.pow_add_r 2 _ sh) by lia. pose proof (Z.pow_pos_nonneg 2 sh). nia. }
    replace (Z.log2 (Zpos m1) + sh) with (Z.log2 (Zpos m2) + 1 + (prec - 1)) in HN1
      by (unfold sh, k, div_unit in *; lia).
    replace (Z.log2 (Zpos m1) + 1 + sh) with (Z.log2 (Zpos m2) + (prec + 1)) in HN2
      by (unfold sh, k, div_unit in *; lia).
    rewrite Z.pow_add_r in HN1, HN2 by lia. nia. }
  assert (Z.log2 q = prec - 1 \/ Z.log2 q = prec) as Hlq.
  { pose proof (Z.log2_le_mono _ _ (proj1 Hq)) as H1. rewrite Z.log2_pow2 in H1 by lia.
    assert (Z.log2 q < prec + 1) by (apply Z.log2_lt_pow2; lia). lia. }
  pose proof (Z.pow_pos_nonneg 2 (prec - 1) ltac:(lia) ltac:(lia)) as Hpp.
  set (n := Z.log2 q + 1 - prec).
  destruct (binary_round_aux_value (xorb s false) q k (new_location (Zpos m2) r) n)
    as (M & E & c & -> & Hc & HE & HM); [lia | done | unfold n; lia .. |].
  rewrite xorb_false_r. exists M, E. split; [done |]. split; [lia |].
  assert (Zpos M * 2 ^ (E - k) = (Z.shiftr q n + c) * 2 ^ n) as ->.
  { rewrite <- HM, <- Z.mul_assoc, <- Z.pow_add_r by lia. repeat f_equal; lia. }
  fold N. rewrite Hdiv. destruct Hlq as [Hlq | Hlq].
  - replace n with 0 by lia. rewrite Z.shiftr_0_r, Z.pow_0_r.
    assert (Z.abs (Zpos m2 * ((q + c) * 1) - (Zpos m2 * q + r)) <= Zpos m2) by nia. nia.
  - destruct (shiftr_error q n c) as [He1 He2]; [lia | done | unfold n; lia | lia |]. replace n with 1 in * by lia.
    change (2 ^ 1) with 2 in *. set (X := (Z.shiftr q 1 + c) * 2) in *.
    assert (Z.abs (Zpos m2 * X - (Zpos m2 * q + r)) <= 2 * Zpos m2) by nia. nia.
Qed.

(** *** Products *)

Lemma SFmul_value s m1 e1 m2 e2 : let k := e1 + e2 in
  prec <= Z.log2 (Zpos m1 * Zpos m2) + 1 ->
  3 - emax - prec <= k -> k + (Z.log2 (Zpos m1 * Zpos m2) + 1 - prec) < emax - prec ->
  exists M E, SFmul prec emax (S754_finite s m1 e1) (S754_finite false m2 e2) = S754_finite s M E
    /\ k <= E
    /\ Z.abs (Zpos M * 2 ^ (E - k) - Zpos m1 * Zpos m2) * 2 ^ (prec - 1) <= Zpos m1 * Zpos m2.
Proof.
  intros k Hlong Hlo Hhi. cbn [SFmul]. rewrite xorb_false_r. fold k.
  change (Zpos (m1 * m2)) with (Zpos m1 * Zpos m2). set (N := Zpos m1 * Zpos m2) in *.
  set (n := Z.log2 N + 1 - prec) in *.
  destruct (binary_round_aux_value s N k loc_Exact n) as (M & E & c & -> & Hc & HE & HM);
    [lia | done | unfold n; lia .. |].
  exists M, E. split; [done |]. split; [lia |].
  assert (Zpos M * 2 ^ (E - k) = (Z.shiftr N n + c) * 2 ^ n) as ->.
  { rewrite <- HM, <- Z.mul_assoc, <- Z.pow_add_r by lia. repeat f_equal; lia. }
  destruct (shiftr_error N n c) as [He1 He2]; [lia | done | unfold n; lia | lia |].
  pose proof (Z.pow_pos_nonneg 2 (prec - 1) ltac:(lia) ltac:(lia)). nia.
Qed.
End value.

(** A value within one half of [p] rounds to [p]; both are counted in units [2 ^ - k]. *)
Lemma f_round_near m e p k : 0 <= k -> 0 <= e + k ->
  2 * Z.abs (Zpos m * 2 ^ (e + k) - p * 2 ^ k) < 2 ^ k ->
  f_round_nonneg (S754_finite false m e) = p.
Proof.
  intros Hk Hek Hnear. unfold f_round_nonneg. change (-1) with (- (1)).
  rewrite Z.shiftl_opp_r, Z.shiftr_div_pow2 by lia. change (2 ^ 1) with 2.
  assert (Z.shiftl (Zpos m) (e + 1) = 2 * (Zpos m * 2 ^ (e + k)) / 2 ^ k) as ->.
  { pose proof (Z.pow_pos_nonneg 2 k ltac:(lia) Hk).
    destruct (Z.le_gt_cases 0 (e + 1)) as [He | He].
    - rewrite Z.shiftl_mul_pow2 by lia.
      replace (2 * (Zpos m * 2 ^ (e + k))) with (Zpos m * 2 ^ (e + 1) * 2 ^ k); [by rewrite Z.div_mul by lia |].
      rewrite <- Z.mul_assoc, <- Z.pow_add_r by lia. replace (e + 1 + k) with (Z.succ (e + k)) by lia.
      rewrite Z.pow_succ_r by lia. lia.
    - assert (Z.shiftl (Zpos m) (e + 1) = Z.shiftr (Zpos m) (- (e + 1))) as ->
        by (by rewrite <- Z.shiftl_opp_r, Z.opp_involutive).
      rewrite Z.shiftr_div_pow2 by lia.
      replace (2 ^ k) with (2 ^ (e + k + 1) * 2 ^ (- (e + 1))) by (rewrite <- Z.pow_add_r by lia; f_equal; lia).
      replace (2 * (Zpos m * 2 ^ (e + k))) with (2 ^ (e + k + 1) * Zpos m)
        by (rewrite Z.pow_add_r by lia; lia).
      rewrite Z.div_mul_cancel_l; [done | |]; apply Z.pow_nonzero; lia. }
  set (Y := Zpos m * 2 ^ (e + k)) in *. set (U := 2 ^ k) in *.
  assert (0 < U) by (apply Z.pow_pos_nonneg; lia).
  assert (2 * Y / U = 2 * p \/ 2 * Y / U = 2 * p - 1) as [-> | ->].
  { destruct (Z.le_gt_cases (p * U) Y).
    - left. symmetry. apply (Z.div_unique _ _ _ (2 * Y - 2 * p * U)); [left |]; nia.
    - right. symmetry. apply (Z.div_unique _ _ _ (2 * Y - (2 * p - 1) * U)); [left |]; nia. }
  - rewrite (Z.add_comm _ 1), (Z.mul_comm 2), Z.div_add by lia. done.
  - replace (2 * p - 1 + 1) with (p * 2) by lia. by rewrite Z.div_mul.
Qed.

(** ** Dividing by a hundred and multiplying back *)

(** A positive integer written with a scaled mantissa. *)
Definition scaled (p : positive) (m : positive) (e : Z) : Prop :=
  e <= 0 /\ Z.log2 (Zpos m) < 53 /\ Zpos m = Zpos p * 2 ^ (- e).

Lemma scaled_log2 p m e : scaled p m e -> Z.log2 (Zpos m) + e = Z.log2 (Zpos p).
Proof. intros (? & _ & ->). rewrite Z.log2_mul_pow2 by lia. lia. Qed.

Lemma scaled_self p : Zpos p < 2 ^ 53 -> scaled p p 0.
Proof. intros Hp. split; [lia |]. split; [by apply Z.log2_lt_pow2 |]. change (2 ^ (- 0)) with 1. lia. Qed.

Lemma scaled_of_Z p : Zpos p < 2 ^ 53 ->
  exists m e, f64_of_Z (Zpos p) = S754_finite false m e /\ f64_of_Z (Zneg p) = S754_finite true m e
    /\ scaled p m e.
Proof.
  intros Hp. exists (int_mantissa 53 p), (int_exponent 53 p).
  assert (forall z, Z.abs z < 2 ^ 53 -> f64_of_Z z = int_float 53 z) as H.
  { intros z Hz. pose proof (binary_normalize_int 53 1024 ltac:(lia) ltac:(lia) z 0 Hz ltac:(lia)) as H.
    by rewrite Z.mul_1_r in H. }
  rewrite !H by (simpl; lia). split; [done |]. split; [done |].
  pose proof (log2_lt_prec 53 p Hp) as Hl. destruct (int_mantissa_spec 53 1024 ltac:(lia) ltac:(lia) p Hl) as [HM HL].
  unfold scaled, int_exponent in *. pose proof (Z.log2_nonneg (Zpos p)). repeat split; try lia; done.
Qed.

Lemma hundredth_and_back s p m1 e1 m2 e2 : Zpos p < 2 ^ 49 -> scaled p m1 e1 -> scaled 100 m2 e2 ->
  f_round_as_i64 (f64_mul (SFdiv 53 1024 (S754_finite s m1 e1) (S754_finite false m2 e2)) (f64_of_Z 100))
  = cond_Zopp s (Zpos p).
Proof.
  intros Hp H1 H2. pose proof (scaled_log2 _ _ _ H1) as L1. pose proof (scaled_log2 _ _ _ H2) as L2.
  change (Z.log2 100) with 6 in L2. destruct H1 as (? & ? & Hm1), H2 as (? & ? & Hm2).
  assert (0 <= Z.log2 (Zpos p) < 49) as Hlp.
  { split; [apply Z.log2_nonneg | apply Z.log2_lt_pow2; lia]. }
  destruct (SFdiv_value 53 1024 ltac:(lia) ltac:(lia) s m1 e1 m2 e2) as (M & E & -> & HE & HM);
    [unfold div_unit; lia .. |].
  assert (div_unit 53 m1 e1 m2 e2 = Z.log2 (Zpos p) - 6 - 53) as Hk by (unfold div_unit; lia).
  rewrite Hk in *. set (k := Z.log2 (Zpos p) - 6 - 53) in *. assert (k = Z.log2 (Zpos p) - 59) as Hkl by (unfold k; lia).
  assert (-59 <= k <= -11) by lia. clearbody k.
  set (X := Zpos M * 2 ^ (E - k)) in *.
  assert (Z.abs (100 * X - Zpos p * 2 ^ (- k)) * 2 ^ 52 <= Zpos p * 2 ^ (- k)) as HX.
  { assert (Zpos m1 * 2 ^ (e1 - e2 - k) = 2 ^ (- e2) * (Zpos p * 2 ^ (- k))) as Hs.
    { rewrite Hm1, (Z.mul_comm (2 ^ (- e2))), <- !Z.mul_assoc, <- !Z.pow_add_r by lia.
      do 2 f_equal; lia. }
    rewrite Hs, Hm2 in HM. change (53 - 1) with 52 in HM.
    replace (100 * 2 ^ (- e2) * X - 2 ^ (- e2) * (Zpos p * 2 ^ (- k)))
      with (2 ^ (- e2) * (100 * X - Zpos p * 2 ^ (- k))) in HM by lia.
    rewrite Z.abs_mul in HM. pose proof (Z.pow_pos_nonneg 2 (- e2)) as Hpos.
    rewrite (Z.abs_eq (2 ^ (- e2))) in HM by lia. nia. }
  clear HM Hm1 Hm2 L1 L2. unfold f64_mul.
  change (f64_of_Z 100) with (S754_finite false 7036874417766400 (-46)).
  assert (0 < 2 ^ (- k)) by (apply Z.pow_pos_nonneg; lia).
  assert (0 <= Z.log2 (Zpos M) < 55 /\ E + Z.log2 (Zpos M) <= 60) as [HlM HlE].
  { assert (100 * X <= 2 * (Zpos p * 2 ^ (- k))) by nia.
    assert (X < 2 ^ 55) as HX2.
    { pose proof (Z.log2_spec (Zpos p) ltac:(lia)) as [_ Hu].
      assert (Zpos p * 2 ^ (- k) < 2 ^ 60) as Hb.
      { replace (2 ^ 60) with (2 ^ Z.succ (Z.log2 (Zpos p)) * 2 ^ (- k)) by (rewrite <- Z.pow_add_r by lia; f_equal; lia).
        by apply Z.mul_lt_mono_pos_r. }
      lia. }
    assert (Zpos M <= X) by (unfold X; pose proof (Z.pow_pos_nonneg 2 (E - k)); nia).
    assert (Z.log2 (Zpos M) < 55) by (apply Z.log2_lt_pow2; lia).
    assert (Z.log2 (Zpos M) + (E - k) < 55).
    { pose proof (Z.log2_mul_pow2 (Zpos M) (E - k) ltac:(lia) ltac:(lia)) as Hl. fold X in Hl.
      assert (Z.log2 X < 55) by (apply Z.log2_lt_pow2; lia). lia. }
    pose proof (Z.log2_nonneg (Zpos M)). lia. }
  assert (52 <= Z.log2 (Zpos M * 7036874417766400) < 108) as Hlong.
  { split; [change 52 with (Z.log2 7036874417766400); apply Z.log2_le_mono; lia |].
    pose proof (Z.log2_mul_above (Zpos M) 7036874417766400 ltac:(lia) ltac:(lia)) as Ha.
    change (Z.log2 7036874417766400) with 52 in Ha. lia. }
  destruct (SFmul_value 53 1024 ltac:(lia) ltac:(lia) s M E 7036874417766400 (-46))
    as (M' & E' & -> & HE' & HM'); [lia .. |].
  change (53 - 1) with 52 in HM'.
  assert (f_round_nonneg (S754_finite false M' E') = Zpos p) as Hr.
  { apply (f_round_near _ _ _ (46 - k)); [lia | lia |].
    assert (Zpos M' * 2 ^ (E' + (46 - k)) = (Zpos M' * 2 ^ (E' - (E + -46))) * 2 ^ (E - k)) as ->.
    { rewrite <- Z.mul_assoc, <- Z.pow_add_r by lia. do 2 f_equal; lia. }
    set (Y := Zpos M' * 2 ^ (E' - (E + -46))) in *.
    replace (2 ^ (46 - k)) with (2 ^ 46 * 2 ^ (- k)) by (rewrite <- Z.pow_add_r by lia; f_equal; lia).
    assert (Z.abs (Y * 2 ^ (E - k) - 100 * 2 ^ 46 * X) * 2 ^ 52 <= 100 * 2 ^ 46 * X) as HY.
    { unfold X. pose proof (Z.pow_pos_nonneg 2 (E - k) ltac:(lia) ltac:(lia)).
      change 7036874417766400 with (100 * 2 ^ 46) in HM'. nia. }
    set (Z1 := Y * 2 ^ (E - k)) in *. set (U := 2 ^ (- k)) in *.
    change (2 ^ 46) with 70368744177664 in *. change (2 ^ 52) with 4503599627370496 in *.
    change (2 ^ 49) with 562949953421312 in *. nia. }
  unfold f_round_as_i64. rewrite Hr. unfold sat. change (2 ^ 49) with 562949953421312 in Hp.
  unfold_ok. split_ifs; try done; destruct s; simpl in *; lia.
Qed.

Lemma f64_hundredth_and_back z : Z.abs z < 2 ^ 49 ->
  f_round_as_i64 (f64_mul (f64_div (f64_of_Z z) (f64_of_Z 100)) (f64_of_Z 100)) = z.
Proof.
  intros Hz. destruct (scaled_of_Z 100 ltac:(lia)) as (m2 & e2 & H2 & _ & S2).
  unfold f64_div. destruct z as [| p | p]; [by vm_compute | |].
  all: destruct (scaled_of_Z p) as (m1 & e1 & H1 & H1' & S1); [simpl in Hz; lia |].
  - rewrite H1. rewrite H2 at 1. apply (hundredth_and_back false p m1 e1 m2 e2); [simpl in Hz |..]; done.
  - rewrite H1'. rewrite H2 at 1. apply (hundredth_and_back true p m1 e1 m2 e2); [simpl in Hz |..]; done.
Qed.

(** The same from the exact ratio, which is how a decimal is read. *)
Lemma ratio_hundredth_and_back s p : Zpos p < 2 ^ 49 ->
  f_round_as_i64 (f64_mul (SFdiv 53 1024 (S754_finite s p 0) (S754_finite false 100 0)) (f64_of_Z 100))
  = cond_Zopp s (Zpos p).
Proof. intros Hp. apply hundredth_and_back; [done | apply scaled_self; lia | by apply scaled_self]. Qed.
