(* ===== verification/Bytes.v ===== *)
(** Byte strings: the big-endian codecs ([to_be_bytes], [from_be_bytes]), the
    lowercase hexadecimal rendering that approval.rs and engine.rs of the
    execution crate use, and the integer parser of the standard library, with
    their round trips. *)

From S2P Require Import Prelude.

Definition byte_ok (b : Z) : Prop := 0 <= b < 256.
Abbreviation bytes_ok := (Forall byte_ok).

(** [z.to_be_bytes()] of an [n]-byte integer; two's complement for a negative [z]. *)
Fixpoint be_bytes (n : nat) (z : Z) : list Z :=
  match n with
  | O => []
  | S m => (Z.shiftr z (8 * Z.of_nat m)) mod 256 :: be_bytes m z
  end.

(** [uN::from_be_bytes]. *)
Definition from_be (l : list Z) : Z := foldl (fun acc b => acc * 256 + b) 0 l.

(** [{:x}] of a digit, [{:02x}] of a byte. *)
Definition hex_digit (d : Z) : Ascii.ascii :=
  Ascii.ascii_of_N (Z.to_N (if d <? 10 then 48 + d else 87 + d)).
Fixpoint to_hex (l : list Z) : string :=
  match l with
  | [] => EmptyString
  | b :: rest => String (hex_digit (b / 16)) (String (hex_digit (b mod 16)) (to_hex rest))
  end.

(** The inverse of [to_hex], used to state that it loses nothing. *)
Definition hex_value (c : Ascii.ascii) : Z :=
  let n := Z.of_N (Ascii.N_of_ascii c) in if n <? 58 then n - 48 else n - 87.
Fixpoint of_hex (s : string) : list Z :=
  match s with
  | String a (String b rest) => (16 * hex_value a + hex_value b) :: of_hex rest
  | _ => []
  end.

(** [uN::from_str_radix] ([str::parse] is radix 10): an optional plus sign, at least
    one digit, [None] on any other byte and on overflow of [max]. *)
Definition plus_sign : Ascii.ascii := Ascii.ascii_of_N 43.
Definition digit_of (radix : Z) (c : Ascii.ascii) : option Z :=
  let n := Z.of_N (Ascii.N_of_ascii c) in
  let d :=
    if (48 <=? n) && (n <=? 57) then n - 48
    else if (97 <=? n) && (n <=? 122) then n - 87
    else if (65 <=? n) && (n <=? 90) then n - 55 else radix in
  if d <? radix then Some d else None.
Fixpoint parse_digits (radix max acc : Z) (s : string) : option Z :=
  match s with
  | EmptyString => Some acc
  | String c rest =>
    match digit_of radix c with
    | Some d =>
      if max <? acc * radix + d then None else parse_digits radix max (acc * radix + d) rest
    | None => None
    end
  end.
Definition from_str_radix (radix max : Z) (s : string) : option Z :=
  match s with
  | EmptyString => None
  | String c rest =>
    if Ascii.eqb c plus_sign then
      match rest with EmptyString => None | _ => parse_digits radix max 0 rest end
    else parse_digits radix max 0 s
  end.

Lemma be_bytes_length n z : length (be_bytes n z) = n.
Proof. induction n; simpl; congruence. Qed.

Lemma be_bytes_ok n z : bytes_ok (be_bytes n z).
Proof.
  induction n; simpl; constructor; [| done].
  unfold byte_ok. apply Z.mod_pos_bound. lia.
Qed.

Lemma from_be_app l1 l2 : from_be (l1 ++ l2) = from_be l1 * 256 ^ Z.of_nat (length l2) + from_be l2.
Proof.
  unfold from_be. rewrite foldl_app. generalize (foldl (fun acc b => acc * 256 + b) 0 l1).
  induction l2 as [| b l2 IH] using rev_ind; intros a; simpl; [lia |].
  rewrite !foldl_app, length_app. simpl. rewrite IH, Nat2Z.inj_add, Z.pow_add_r by lia. lia.
Qed.

Lemma from_be_cons b l : from_be (b :: l) = b * 256 ^ Z.of_nat (length l) + from_be l.
Proof. change (b :: l) with ([b] ++ l). rewrite from_be_app. unfold from_be. simpl. lia. Qed.

Lemma from_be_bytes n z : from_be (be_bytes n z) = z mod 256 ^ Z.of_nat n.
Proof.
  induction n as [| n IH]; [by rewrite Z.mod_1_r |].
  simpl be_bytes. rewrite from_be_cons, be_bytes_length, IH, Nat2Z.inj_succ, Z.pow_succ_r by lia.
  rewrite Z.shiftr_div_pow2 by lia.
  replace (2 ^ (8 * Z.of_nat n)) with (256 ^ Z.of_nat n) by (by rewrite Z.pow_mul_r by lia).
  rewrite (Z.mul_comm 256), Z.rem_mul_r by lia. lia.
Qed.

Lemma from_be_range l : bytes_ok l -> 0 <= from_be l < 256 ^ Z.of_nat (length l).
Proof.
  induction 1 as [| b l Hb Hl IH]; [done |]. rewrite from_be_cons.
  cbn [length]. rewrite Nat2Z.inj_succ, Z.pow_succ_r by lia. unfold byte_ok in Hb. nia.
Qed.

Lemma be_bytes_mod n z k : (n <= k)%nat -> be_bytes n (z mod 256 ^ Z.of_nat k) = be_bytes n z.
Proof.
  induction n as [| n IH]; intros Hk; simpl; [done |]. f_equal; [| apply IH; lia].
  rewrite !Z.shiftr_div_pow2 by lia. rewrite (Z.pow_mul_r 2 8) by lia. change (2 ^ 8) with 256.
  replace (Z.of_nat k) with (Z.of_nat n + Z.of_nat (k - n)) by lia.
  rewrite Z.pow_add_r, Z.rem_mul_r by lia.
  rewrite (Z.mul_comm (256 ^ Z.of_nat n)), Z.div_add by lia.
  rewrite (Z.div_small (z mod _)) by (apply Z.mod_pos_bound; lia). simpl.
  replace (Z.of_nat (k - n)) with (Z.succ (Z.of_nat (k - S n))) by lia.
  rewrite Z.pow_succ_r by lia. apply Z.mod_mod_divide.
  exists (256 ^ Z.of_nat (k - S n)). lia.
Qed.

Lemma be_bytes_from_be l : bytes_ok l -> be_bytes (length l) (from_be l) = l.
Proof.
  induction 1 as [| b l Hb Hl IH]; [done |]. simpl. rewrite from_be_cons.
  pose proof (from_be_range l Hl) as Hr. f_equal.
  - rewrite Z.shiftr_div_pow2, (Z.pow_mul_r 2 8) by lia. change (2 ^ 8) with 256.
    rewrite (Z.add_comm (b * _)), Z.div_add, Z.div_small by lia.
    apply Z.mod_small. unfold byte_ok in Hb. lia.
  - rewrite <- (be_bytes_mod _ _ (length l)) by lia.
    rewrite (Z.add_comm (b * _)), Z.mod_add, Z.mod_small by lia. done.
Qed.

(** Equal encodings of in-range integers are equal integers. *)
Lemma be_bytes_inj n z1 z2 lo :
  lo <= z1 < lo + 256 ^ Z.of_nat n -> lo <= z2 < lo + 256 ^ Z.of_nat n ->
  be_bytes n z1 = be_bytes n z2 -> z1 = z2.
Proof.
  intros H1 H2 E. apply (f_equal from_be) in E. rewrite !from_be_bytes in E.
  assert ((z1 - lo) mod 256 ^ Z.of_nat n = (z2 - lo) mod 256 ^ Z.of_nat n) as E'.
  { rewrite (Zminus_mod z1), (Zminus_mod z2), E. done. }
  rewrite !Z.mod_small in E' by lia. lia.
Qed.

Lemma hex_value_digit d : 0 <= d < 16 -> hex_value (hex_digit d) = d.
Proof.
  intros H. assert (d = 0 \/ d = 1 \/ d = 2 \/ d = 3 \/ d = 4 \/ d = 5 \/ d = 6 \/ d = 7 \/
    d = 8 \/ d = 9 \/ d = 10 \/ d = 11 \/ d = 12 \/ d = 13 \/ d = 14 \/ d = 15) as Hd by lia.
  by repeat (destruct Hd as [-> | Hd]; [done |]); subst.
Qed.

Lemma of_hex_to_hex l : bytes_ok l -> of_hex (to_hex l) = l.
Proof.
  induction 1 as [| b l Hb Hl IH]; [done |]. simpl. rewrite IH. f_equal.
  unfold byte_ok in Hb. rewrite !hex_value_digit.
  - pose proof (Z.div_mod b 16). lia.
  - apply Z.mod_pos_bound. lia.
  - split; [apply Z.div_pos; lia | apply Z.div_lt_upper_bound; lia].
Qed.

Lemma to_hex_inj l1 l2 : bytes_ok l1 -> bytes_ok l2 -> to_hex l1 = to_hex l2 -> l1 = l2.
Proof. intros H1 H2 E. by rewrite <- (of_hex_to_hex l1), <- (of_hex_to_hex l2), E. Qed.

#[export] Hint Resolve be_bytes_ok be_bytes_length : hedge.

(** Parsing what [to_hex] prints. *)

Lemma hex_digit_of d : 0 <= d < 16 ->
  digit_of 16 (hex_digit d) = Some d /\ Ascii.eqb (hex_digit d) plus_sign = false.
Proof.
  intros H. assert (d = 0 \/ d = 1 \/ d = 2 \/ d = 3 \/ d = 4 \/ d = 5 \/ d = 6 \/ d = 7 \/
    d = 8 \/ d = 9 \/ d = 10 \/ d = 11 \/ d = 12 \/ d = 13 \/ d = 14 \/ d = 15) as Hd by lia.
  by repeat (destruct Hd as [-> | Hd]; [done |]); subst.
Qed.

Lemma nibbles b : byte_ok b -> 0 <= b / 16 < 16 /\ 0 <= b mod 16 < 16.
Proof.
  unfold byte_ok. intros H. pose proof (Z.div_mod b 16). pose proof (Z.mod_pos_bound b 16). lia.
Qed.

Lemma to_hex_length l : String.length (to_hex l) = (2 * length l)%nat.
Proof. induction l as [| b l IH]; simpl; [done |]. rewrite IH. lia. Qed.

Lemma parse_digits_hex l : bytes_ok l -> forall max acc, 0 <= acc ->
  acc * 256 ^ Z.of_nat (length l) + from_be l <= max ->
  parse_digits 16 max acc (to_hex l) = Some (acc * 256 ^ Z.of_nat (length l) + from_be l).
Proof.
  induction 1 as [| b l Hb Hl IH]; intros max acc Hacc Hmax.
  { simpl. f_equal. unfold from_be. simpl. lia. }
  pose proof (nibbles b Hb) as [Hn1 Hn2]. pose proof (Z.div_mod b 16 ltac:(lia)) as Hb16.
  cbn [to_hex parse_digits]. rewrite (proj1 (hex_digit_of _ Hn1)), (proj1 (hex_digit_of _ Hn2)).
  rewrite from_be_cons in *. cbn [length] in *. rewrite Nat2Z.inj_succ, Z.pow_succ_r in * by lia.
  pose proof (from_be_range l Hl) as Hr.
  assert (acc * 256 + b <= max) as Hle by nia.
  destruct (Z.ltb_spec max (acc * 16 + b / 16)); [lia |].
  destruct (Z.ltb_spec max ((acc * 16 + b / 16) * 16 + b mod 16)); [lia |].
  replace ((acc * 16 + b / 16) * 16 + b mod 16) with (acc * 256 + b) by lia.
  rewrite IH by lia. f_equal. lia.
Qed.

(** [uN::from_str_radix(s, 16)] reads back a lowercase rendering. *)
Lemma from_str_radix_hex l max : bytes_ok l -> l <> [] -> from_be l <= max ->
  from_str_radix 16 max (to_hex l) = Some (from_be l).
Proof.
  intros Hl Hne Hmax. destruct l as [| b l]; [done |].
  pose proof (proj1 (Forall_cons _ _ _) Hl) as [Hb _]. pose proof (nibbles b Hb) as [Hn _].
  pose proof (parse_digits_hex _ Hl max 0 ltac:(lia)) as Hp. rewrite Z.mul_0_l in Hp.
  cbn [to_hex] in *. unfold from_str_radix. rewrite (proj2 (hex_digit_of _ Hn)). by apply Hp.
Qed.

(** Parsing what [{}] prints of an unsigned integer. *)

Lemma decimal_char d : 0 <= d < 10 ->
  digit_of 10 (pretty_N_char (Z.to_N d)) = Some d
  /\ Ascii.eqb (pretty_N_char (Z.to_N d)) plus_sign = false.
Proof.
  intros H. assert (d = 0 \/ d = 1 \/ d = 2 \/ d = 3 \/ d = 4 \/ d = 5 \/ d = 6 \/ d = 7 \/
    d = 8 \/ d = 9) as Hd by lia.
  by repeat (destruct Hd as [-> | Hd]; [done |]); subst.
Qed.

Lemma N_mod_10_range x : 0 <= Z.of_N (x `mod` 10) < 10.
Proof. rewrite N2Z.inj_mod. apply Z.mod_pos_bound. lia. Qed.

Lemma parse_digits_pretty max x : forall s, Z.of_N x <= max ->
  parse_digits 10 max 0 (pretty_N_go x s) = parse_digits 10 max (Z.of_N x) s.
Proof.
  induction (N.lt_wf_0 x) as [x _ IH]. intros s Hx.
  destruct (decide (x = 0)%N) as [-> | Hnz]; [done |].
  rewrite pretty_N_go_step by lia. rewrite IH; [| by apply N.div_lt; lia |].
  - pose proof (N.div_mod x 10 ltac:(lia)) as Hdm.
    assert (0 <= Z.of_N (x `mod` 10) < 10) as Hm by (apply N_mod_10_range).
    cbn [parse_digits]. rewrite <- (N2Z.id (x `mod` 10)), (proj1 (decimal_char _ Hm)).
    replace (Z.of_N (x `div` 10) * 10 + Z.of_N (x `mod` 10)) with (Z.of_N x) by lia.
    destruct (Z.ltb_spec max (Z.of_N x)); [lia | done].
  - pose proof (N.div_lt x 10 ltac:(lia) ltac:(lia)). lia.
Qed.

Lemma pretty_N_go_first x s : (0 < x)%N -> exists c r,
  pretty_N_go x s = String c r /\ Ascii.eqb c plus_sign = false.
Proof.
  revert s. induction (N.lt_wf_0 x) as [x _ IH]. intros s Hx.
  rewrite pretty_N_go_step by done. destruct (decide (x `div` 10 = 0)%N) as [Hz | Hz].
  - rewrite Hz, pretty_N_go_0. eexists _, _. split; [done |].
    assert (0 <= Z.of_N (x `mod` 10) < 10) as Hm by (apply N_mod_10_range).
    rewrite <- (N2Z.id (x `mod` 10)). by apply decimal_char.
  - apply IH; [by apply N.div_lt | by apply N.neq_0_lt_0].
Qed.

Lemma from_str_radix_pretty max z : 0 <= z <= max -> from_str_radix 10 max (pretty z) = Some z.
Proof.
  intros [Hz Hm]. destruct z as [| p | p]; [| | lia].
  { change (from_str_radix 10 max (pretty 0)) with (if max <? 0 then None else Some 0).
    destruct (Z.ltb_spec max 0); [lia | done]. }
  change (pretty (Zpos p)) with (pretty (Npos p)). unfold pretty, pretty_N.
  case_decide; [done |]. destruct (pretty_N_go_first (Npos p) EmptyString ltac:(lia)) as (c & r & E & Hc).
  pose proof (parse_digits_pretty max (Npos p) EmptyString ltac:(lia)) as Hp.
  unfold from_str_radix. rewrite E in *. rewrite Hc. exact Hp.
Qed.

(** ** Little-endian fields *)

(** [z.to_le_bytes()], [uN::from_le_bytes], [iN::from_le_bytes]. *)
Definition le_bytes (n : nat) (z : Z) : list Z := rev (be_bytes n z).
Definition from_le (l : list Z) : Z := from_be (rev l).
Definition i64_from_le (l : list Z) : Z := as_i64 (from_le l).
Definition i8_of_byte (b : Z) : Z := wrap_s 8 b.

(** [bytes[offset..offset + n]]. *)
Definition slice (offset n : nat) (bytes : list Z) : list Z := take n (drop offset bytes).

Lemma le_bytes_length n z : length (le_bytes n z) = n.
Proof. unfold le_bytes. by rewrite length_rev, be_bytes_length. Qed.

Lemma from_le_bytes n z : from_le (le_bytes n z) = z mod 256 ^ Z.of_nat n.
Proof. unfold from_le, le_bytes. by rewrite rev_involutive, from_be_bytes. Qed.

Lemma u32_le z : u32_ok z -> from_le (le_bytes 4 z) = z.
Proof. intros H. rewrite from_le_bytes. apply Z.mod_small. unfold_ok. simpl. lia. Qed.

Lemma u64_le z : u64_ok z -> from_le (le_bytes 8 z) = z.
Proof. intros H. rewrite from_le_bytes. apply Z.mod_small. unfold_ok. simpl. lia. Qed.

Lemma wrap_s_mod w z : 0 < w -> wrap_s w (z mod 2 ^ w) = wrap_s w z.
Proof. intros Hw. unfold wrap_s. by rewrite Zplus_mod_idemp_l. Qed.

Lemma i64_le z : i64_ok z -> i64_from_le (le_bytes 8 z) = z.
Proof.
  intros H. unfold i64_from_le. rewrite from_le_bytes. change (256 ^ Z.of_nat 8) with (2 ^ 64).
  unfold as_i64. rewrite wrap_s_mod by lia. by apply as_i64_id.
Qed.

Lemma i8_byte z : i8_ok z -> i8_of_byte (as_u8 z) = z.
Proof.
  intros H. unfold i8_of_byte, as_u8, wrap_u. rewrite wrap_s_mod by lia.
  apply wrap_s_id; unfold_ok; simpl; lia.
Qed.

(** Reading fields in order: the field, and what is left. *)
Definition next (n : nat) (bytes : list Z) : list Z * list Z := (take n bytes, drop n bytes).

Lemma next_app n a b : length a = n -> next n (a ++ b) = (a, b).
Proof. intros <-. unfold next. by rewrite take_app_length, drop_app_length. Qed.

Lemma slice_app_r k n a b : (length a <= k)%nat -> slice k n (a ++ b) = slice (k - length a) n b.
Proof. intros H. unfold slice. by rewrite drop_app_ge. Qed.

Lemma slice_app_l n a b : length a = n -> slice 0 n (a ++ b) = a.
Proof. intros <-. unfold slice. rewrite drop_0. apply take_app_length. Qed.
