(* ===== verification/Core.v ===== *)
(** The primitives of crates/hedge-core: the fixed-point price [Px] (price.rs),
    the identifiers and quantities of ids.rs, the wire enums of enums.rs, and the
    rolling window [RingWindow] (window.rs) with its refinement to a bounded list. *)

From S2P Require Import Prelude.

(** ** Prices in paise (price.rs) *)

Module Px.

(** [Px(pub i64)]: the paise count itself. *)
Definition t := Z.

Definition PAISE_PER_INR : Z := 100.
Definition ZERO : t := 0.
Definition from_paise (paise : Z) : t := paise.
Definition from_inr (rupees : Z) : t := as_i64 (rupees * PAISE_PER_INR).
Definition to_paise (p : t) : Z := p.
Definition to_inr (p : t) : Z := Z.quot p PAISE_PER_INR.

Definition saturating_add (p q : t) : t := i64_sat_add p q.
Definition saturating_sub (p q : t) : t := i64_sat_sub p q.

Definition checked (z : Z) : option t := if decide (i64_ok z) then Some z else None.
Definition checked_add (p q : t) : option t := checked (p + q).
Definition checked_sub (p q : t) : option t := checked (p - q).
Definition checked_mul_scalar (p : t) (k : Z) : option t := checked (p * k).

Definition is_non_negative (p : t) : bool := 0 <=? p.
(** [i64::saturating_abs]. *)
Definition abs (p : t) : t := sat i64_min i64_max (Z.abs p).

(** The operators: [+], [-], [*] and unary [-] wrap in the release profile. *)
Definition add (p q : t) : t := as_i64 (p + q).
Definition sub (p q : t) : t := as_i64 (p - q).
Definition mul (p : t) (k : Z) : t := as_i64 (p * k).
Definition neg (p : t) : t := as_i64 (- p).
(** [/] panics on a zero divisor and on [i64::MIN / -1]: [None]. *)
Definition div (p : t) (k : Z) : option t :=
  if (k =? 0) || ((p =? i64_min) && (k =? -1)) then None else Some (Z.quot p k).

(** [{:02}] of a number below 100. *)
Definition two_digits (n : Z) : string :=
  if n <? 10 then String.append "0" (pretty n) else pretty n.

(** [Display]: sign, the rupee glyph (UTF-8 E2 82 B9), rupees, two digits of paise. *)
Definition fmt (p : t) : string :=
  let sign := if p <? 0 then "-"%string else EmptyString in
  let abs := Z.abs p in
  String.append sign (String.append "₹" (String.append (pretty (abs / PAISE_PER_INR))
    (String.append "." (two_digits (abs mod PAISE_PER_INR))))).

End Px.

(** ** Identifiers and quantities (ids.rs) *)

Module Qty.
Definition t := Z.
Definition ZERO : t := 0.
Definition new (raw : Z) : t := raw.
Definition raw (q : t) : Z := q.
Definition saturating_add (a b : t) : t := u64_sat_add a b.
Definition saturating_sub (a b : t) : t := u64_sat_sub a b.
Definition checked_add (a b : t) : option t :=
  if decide (u64_ok (a + b)) then Some (a + b) else None.
End Qty.

Module CorrelationId.
(** [CorrelationId(pub u128)]. *)
Definition t := Z.
Definition NIL : t := 0.
Definition as_u128 (c : t) : Z := c.
End CorrelationId.

Module SymbolId.
(** [SymbolId(pub u32)]. *)
Definition t := Z.
Definition new (raw : Z) : t := raw.
Definition raw (s : t) : Z := s.
End SymbolId.

(** ** Wire enums (enums.rs) *)

Module Side.
Inductive t := Buy | Sell.
Definition opposite (s : t) : t := match s with Buy => Sell | Sell => Buy end.
Definition as_u8 (s : t) : Z := match s with Buy => 0 | Sell => 1 end.
#[global] Instance eq_dec : EqDecision t.
Proof. solve_decision. Defined.
End Side.

Module Regime.
Inductive t :=
| Trending | Sideways | Panic | HighVolatility | NewsDriven | LiquidityCrisis | LowParticipation.
Definition as_u8 (r : t) : Z :=
  match r with
  | Trending => 0 | Sideways => 1 | Panic => 2 | HighVolatility => 3
  | NewsDriven => 4 | LiquidityCrisis => 5 | LowParticipation => 6
  end.
End Regime.

Module BrokerId.
Inductive t := Zerodha | Dhan | Shoonya | AngelOne | Upstox | Simulated.
Definition as_u8 (b : t) : Z :=
  match b with
  | Zerodha => 0 | Dhan => 1 | Shoonya => 2 | AngelOne => 3 | Upstox => 4 | Simulated => 255
  end.
(** [{:?}]: the derived [Debug] prints the variant's name. *)
Definition debug (b : t) : string :=
  match b with
  | Zerodha => "Zerodha" | Dhan => "Dhan" | Shoonya => "Shoonya"
  | AngelOne => "AngelOne" | Upstox => "Upstox" | Simulated => "Simulated"
  end.
#[global] Instance eq_dec : EqDecision t.
Proof. solve_decision. Defined.
Definition of_tag (z : Z) : option t :=
  find (fun b => as_u8 b =? z) [Zerodha; Dhan; Shoonya; AngelOne; Upstox; Simulated].
#[global] Instance countable : Countable t.
Proof. apply (inj_countable as_u8 of_tag). by intros []. Defined.
End BrokerId.

Module Priority.
Inductive t := P1 | P2 | P3 | P4.
Definition as_u8 (p : t) : Z := match p with P1 => 1 | P2 => 2 | P3 => 3 | P4 => 4 end.
End Priority.

(** ** The rolling window (window.rs) *)

Module RingWindow.

Section ring.
Context {T : Type}.

(** [RingWindow<T, N>]: [cap] is the const generic [N]; [buf] its [N] slots. *)
Record t := mk { cap : nat; buf : list T; head : nat; len : nat }.

(** [new] asserts [N > 0]; [d] is [T::default()]. *)
Definition new (N : nat) (d : T) : option t :=
  if decide (0 < N)%nat then Some (mk N (replicate N d) 0 0) else None.

Definition is_empty (w : t) : bool := (len w =? 0)%nat.
Definition is_full (w : t) : bool := (len w =? cap w)%nat.

Definition push (w : t) (value : T) : t :=
  if is_full w then
    mk (cap w) (<[head w := value]> (buf w)) ((head w + 1) mod cap w) (len w)
  else
    let idx := ((head w + len w) mod cap w)%nat in
    mk (cap w) (<[idx := value]> (buf w)) (head w) (len w + 1).

Definition clear (w : t) : t := mk (cap w) (buf w) 0 0.

Definition latest (w : t) : option T :=
  if is_empty w then None
  else buf w !! ((head w + len w + cap w - 1) mod cap w)%nat.

Definition oldest (w : t) : option T :=
  if is_empty w then None else buf w !! head w.

Definition iter (w : t) : list T :=
  if is_full w then drop (head w) (buf w) ++ take (head w) (buf w)
  else take (len w) (drop (head w) (buf w)).

Definition iter_recent (w : t) (k : nat) : list T :=
  let tk := (k `min` len w)%nat in
  let skip := (len w - tk)%nat in
  drop skip (iter w).

(** The abstract window: the list of live elements, oldest first, and a push that
    keeps the [N] most recent. *)
Definition last_n (n : nat) (l : list T) : list T := drop (length l - n) l.
Definition spec_push (N : nat) (l : list T) (v : T) : list T := last_n N (l ++ [v]).

(** The representation invariant. *)
Definition wf (w : t) : Prop :=
  (0 < cap w)%nat /\ length (buf w) = cap w /\ (head w < cap w)%nat /\ (len w <= cap w)%nat
  /\ ((len w < cap w)%nat -> head w = 0%nat).

Lemma new_wf N d w : new N d = Some w -> wf w /\ iter w = [].
Proof.
  unfold new. case_decide; [| done]. intros [= <-]. split.
  - unfold wf; simpl. rewrite length_replicate. lia.
  - unfold iter, is_full; simpl. destruct N; [lia | done].
Qed.

(** [RingWindow::new] where the capacity is a positive constant. *)
Definition fresh (N : nat) (d : T) : t := mk N (replicate N d) 0 0.

Lemma fresh_new N d : (0 < N)%nat -> new N d = Some (fresh N d).
Proof. intros HN. unfold new. by rewrite decide_True. Qed.

Lemma fresh_wf N d : (0 < N)%nat -> wf (fresh N d) /\ iter (fresh N d) = [].
Proof. intros HN. by apply (new_wf N d), fresh_new. Qed.

Lemma iter_length w : wf w -> length (iter w) = len w.
Proof.
  intros (H0 & H1 & H2 & H3 & H4). unfold iter, is_full.
  destruct (Nat.eqb_spec (len w) (cap w)) as [E | E].
  - rewrite length_app, length_drop, length_take. lia.
  - rewrite length_take, length_drop, H4 by lia. lia.
Qed.

Lemma push_wf w v : wf w -> wf (push w v).
Proof.
  intros (H0 & H1 & H2 & H3 & H4). unfold push, wf, is_full.
  destruct (Nat.eqb_spec (len w) (cap w)) as [E | E]; simpl; rewrite length_insert.
  - pose proof (Nat.mod_upper_bound (head w + 1) (cap w)). lia.
  - rewrite H4 by lia. lia.
Qed.

Lemma clear_wf w : wf w -> wf (clear w).
Proof. intros (H0 & H1 & H2 & H3 & H4). unfold wf; simpl. lia. Qed.

Lemma insert_drop_take (l : list T) i v x : l !! i = Some x ->
  drop (S i) (<[i:=v]> l) ++ take (S i) (<[i:=v]> l) = tail (drop i l ++ take i l) ++ [v].
Proof.
  intros Hx. pose proof (lookup_lt_Some _ _ _ Hx).
  rewrite drop_insert_lt by lia. rewrite (drop_S l x i Hx). simpl.
  rewrite (take_S_r _ i v) by (apply list_lookup_insert_eq; lia).
  rewrite take_insert_ge by lia. by rewrite (assoc_L (++)).
Qed.

(** [push] is the abstract push. *)
Lemma push_refines w v : wf w -> iter (push w v) = spec_push (cap w) (iter w) v.
Proof.
  intros Hwf. pose proof (iter_length w Hwf) as Hlen.
  destruct Hwf as (H0 & H1 & H2 & H3 & H4). unfold spec_push, last_n.
  rewrite length_app, Hlen. simpl. unfold push. unfold is_full at 1.
  destruct (Nat.eqb_spec (len w) (cap w)) as [E | E].
  - unfold iter, is_full. simpl. rewrite E, Nat.eqb_refl.
    replace (cap w + 1 - cap w)%nat with 1%nat by lia.
    destruct (lookup_lt_is_Some_2 (buf w) (head w) ltac:(lia)) as [x Hx].
    rewrite (drop_S _ _ _ Hx). simpl.
    pose proof (insert_drop_take _ _ v _ Hx) as Hi. rewrite (drop_S _ _ _ Hx) in Hi.
    simpl in Hi. change (drop 0 ?l) with l. rewrite <- Hi.
    destruct (decide (S (head w) = cap w)) as [Hc | Hc].
    + replace ((head w + 1) mod cap w)%nat with 0%nat
        by (replace (head w + 1)%nat with (cap w) by lia; by rewrite Nat.Div0.mod_same).
      rewrite drop_0, take_0, app_nil_r.
      by rewrite (drop_ge _ (S (head w))), (take_ge _ (S (head w)))
        by (rewrite length_insert; lia).
    + rewrite Nat.mod_small by lia. by replace (head w + 1)%nat with (S (head w)) by lia.
  - replace (len w + 1 - cap w)%nat with 0%nat by lia. rewrite drop_0.
    rewrite (H4 ltac:(lia)). simpl. rewrite Nat.mod_small by lia.
    unfold iter, is_full. simpl. rewrite (H4 ltac:(lia)).
    destruct (Nat.eqb_spec (len w) (cap w)); [done |]. rewrite !drop_0.
    rewrite Nat.add_1_r. rewrite (take_S_r _ _ v) by (apply list_lookup_insert_eq; lia).
    assert (take (len w) (<[len w:=v]> (buf w)) = take (len w) (buf w)) as Ht
      by (by rewrite take_insert_ge).
    destruct (Nat.eqb_spec (S (len w)) (cap w)) as [Ef | Ef]; [| by rewrite Ht].
    rewrite take_0, app_nil_r, <- Ht, <- (take_S_r _ _ v) by (apply list_lookup_insert_eq; lia).
    rewrite take_ge; [done |]. rewrite length_insert. lia.
Qed.

Lemma push_cap w v : cap (push w v) = cap w.
Proof. unfold push. by destruct (is_full w). Qed.

Lemma last_n_length n (l : list T) : length (last_n n l) = (n `min` length l)%nat.
Proof. unfold last_n. rewrite length_drop. lia. Qed.

Lemma spec_push_last_n N (l : list T) v :
  (0 < N)%nat -> spec_push N (last_n N l) v = last_n N (l ++ [v]).
Proof.
  intros HN. unfold spec_push, last_n. rewrite !length_app, length_drop. simpl.
  destruct (Nat.le_gt_cases (length l) N) as [Hle | Hgt].
  - replace (length l - N)%nat with 0%nat by lia. rewrite drop_0. f_equal. lia.
  - rewrite !drop_app_le by (rewrite ?length_drop; lia). rewrite drop_drop.
    do 2 f_equal. lia.
Qed.

Lemma oldest_spec w : wf w -> oldest w = list.head (iter w).
Proof.
  intros (H0 & H1 & H2 & H3 & H4). unfold oldest, is_empty, iter, is_full.
  destruct (Nat.eqb_spec (len w) 0) as [E | E]; destruct (Nat.eqb_spec (len w) (cap w)).
  - lia.
  - by rewrite E, take_0.
  - destruct (lookup_lt_is_Some_2 (buf w) (head w) ltac:(lia)) as [x Hx].
    by rewrite (drop_S _ _ _ Hx), Hx.
  - destruct (lookup_lt_is_Some_2 (buf w) (head w) ltac:(lia)) as [x Hx].
    rewrite (drop_S _ _ _ Hx), Hx. by destruct (len w).
Qed.

Lemma latest_spec w : wf w -> latest w = last (iter w).
Proof.
  intros Hwf. rewrite last_lookup, (iter_length w Hwf).
  destruct Hwf as (H0 & H1 & H2 & H3 & H4).
  unfold latest, is_empty, iter, is_full.
  destruct (Nat.eqb_spec (len w) 0) as [E | E]; destruct (Nat.eqb_spec (len w) (cap w)) as [F | F].
  - lia.
  - by rewrite E, take_0.
  - rewrite F. destruct (decide (head w = 0%nat)) as [Hz | Hz].
    + rewrite Hz, drop_0, take_0, app_nil_r.
      replace (0 + cap w + cap w - 1)%nat with (cap w - 1 + 1 * cap w)%nat by lia.
      rewrite Nat.Div0.mod_add, Nat.mod_small by lia. f_equal. lia.
    + replace (head w + cap w + cap w - 1)%nat with (head w - 1 + 2 * cap w)%nat by lia.
      rewrite Nat.Div0.mod_add, Nat.mod_small by lia.
      rewrite lookup_app_r, length_drop by (rewrite length_drop; lia).
      rewrite lookup_take_lt by lia. f_equal. lia.
  - rewrite H4 by lia. rewrite drop_0.
    replace (0 + len w + cap w - 1)%nat with (len w - 1 + 1 * cap w)%nat by lia.
    rewrite Nat.Div0.mod_add, Nat.mod_small by lia.
    rewrite lookup_take_lt by lia. f_equal. lia.
Qed.

Lemma iter_recent_spec w k : wf w -> iter_recent w k = last_n k (iter w).
Proof.
  intros Hwf. unfold iter_recent, last_n. rewrite (iter_length w Hwf). f_equal. lia.
Qed.

Lemma pushes_spec vs w : wf w -> forall l, iter w = last_n (cap w) l ->
  wf (foldl push w vs) /\ cap (foldl push w vs) = cap w
  /\ iter (foldl push w vs) = last_n (cap w) (l ++ vs).
Proof.
  revert w. induction vs as [| v vs IH]; intros w Hwf l Hl; simpl.
  - by rewrite app_nil_r.
  - destruct (IH (push w v) (push_wf w v Hwf) (l ++ [v])) as (? & Hc & Hi).
    + rewrite push_refines, Hl, push_cap by done. apply spec_push_last_n, Hwf.
    + rewrite push_cap in Hc, Hi. split; [done |]. split; [done |].
      by rewrite Hi, <- (assoc_L (++)).
Qed.

(** [w] has capacity [N] and has received [l]. *)
Definition tracks (N : nat) (w : t) (l : list T) : Prop :=
  wf w /\ cap w = N /\ iter w = last_n N l.

Lemma tracks_fresh N d : (0 < N)%nat -> tracks N (fresh N d) [].
Proof. intros HN. destruct (fresh_wf N d HN) as [Hw Hi]. by split_and!. Qed.

Lemma tracks_push N w l v : tracks N w l -> tracks N (push w v) (l ++ [v]).
Proof.
  intros (Hw & Hc & Hi). split_and!; [by apply push_wf | by rewrite push_cap |].
  rewrite push_refines, Hi, Hc by done. apply spec_push_last_n. rewrite <- Hc. apply Hw.
Qed.

Lemma tracks_len N w l : tracks N w l -> len w = (N `min` length l)%nat.
Proof. intros (Hw & _ & Hi). by rewrite <- (iter_length w Hw), Hi, last_n_length. Qed.

Lemma tracks_is_empty N w l : tracks N w l -> is_empty w = bool_decide (l = []).
Proof.
  intros H. unfold is_empty. rewrite (tracks_len N w l H). destruct H as ((Hpos & _) & Hc & _).
  rewrite Hc in Hpos. destruct l; [by rewrite Nat.min_0_r |].
  rewrite bool_decide_eq_false_2 by done. destruct N; [lia | done].
Qed.

Lemma last_n_last N l : (0 < N)%nat -> last (last_n N l) = last l.
Proof.
  intros HN. unfold last_n. destruct l as [| x l _] using rev_ind; [done |].
  rewrite length_app. cbn [length]. rewrite drop_app_le by lia. by rewrite !last_snoc.
Qed.

Lemma tracks_latest N w l : tracks N w l -> latest w = last l.
Proof.
  intros (Hw & Hc & Hi). rewrite latest_spec, Hi by done. apply last_n_last. rewrite <- Hc. apply Hw.
Qed.

Lemma tracks_oldest N w l : tracks N w l -> oldest w = list.head (last_n N l).
Proof. intros (Hw & Hc & Hi). by rewrite oldest_spec, Hi. Qed.

End ring.
Arguments t : clear implicits.
End RingWindow.

(** ** The bounded payload (payload.rs): a small vector that refuses a push beyond [N] *)

Module BoundedEvents.

Section bounded.
Context {T : Type}.

Record t := mk { capacity : nat; as_slice : list T }.

Definition new (N : nat) : t := mk N [].
Definition len (b : t) : nat := length (as_slice b).
Definition is_empty (b : t) : bool := (len b =? 0)%nat.
Definition is_full (b : t) : bool := (capacity b <=? len b)%nat.

(** The error returns the value. *)
Definition try_push (b : t) (value : T) : result unit T * t :=
  if is_full b then (Err value, b) else (Ok tt, mk (capacity b) (as_slice b ++ [value])).
Definition clear (b : t) : t := mk (capacity b) [].

(** A run of pushes keeps what fits, in order, and counts the rest as refused. *)
Definition push_all (b : t) (vs : list T) : t := foldl (fun b v => (try_push b v).2) b vs.

Lemma push_all_spec vs : forall b, (len b <= capacity b)%nat ->
  as_slice (push_all b vs) = as_slice b ++ take (capacity b - len b) vs
  /\ capacity (push_all b vs) = capacity b.
Proof.
  induction vs as [| v vs IH]; intros b Hb; [simpl; by rewrite take_nil, app_nil_r |].
  change (push_all b (v :: vs)) with (push_all (try_push b v).2 vs). unfold try_push, is_full. destruct (Nat.leb_spec (capacity b) (len b)) as [Hf | Hf]; cbn [snd].
  - destruct (IH b Hb) as [-> ->]. by replace (capacity b - len b)%nat with 0%nat by lia.
  - unfold len in *. destruct (IH (mk (capacity b) (as_slice b ++ [v]))) as [-> ->];
      [simpl; rewrite length_app; simpl; lia |].
    simpl. rewrite length_app. simpl. split; [| done].
    replace (capacity b - length (as_slice b))%nat
      with (S (capacity b - (length (as_slice b) + 1)))%nat by lia.
    by rewrite <- (assoc_L (++)).
Qed.

End bounded.
Arguments t : clear implicits.
End BoundedEvents.

(** A window of capacity [N > 0] that received the values [vs] iterates exactly the
    last [N] of them in insertion order; [latest], [oldest] and [iter_recent k] are the
    newest, the oldest and the last [k] of that list, and [len] never exceeds [N]. *)
Theorem ring_window_refines_list {T} (N : nat) (d : T) (vs : list T) (k : nat) w0 :
  RingWindow.new N d = Some w0 ->
  let w := foldl RingWindow.push w0 vs in
  let l := RingWindow.last_n N vs in
  RingWindow.iter w = l
  /\ RingWindow.latest w = last l
  /\ RingWindow.oldest w = list.head l
  /\ RingWindow.iter_recent w k = RingWindow.last_n k l
  /\ RingWindow.len w = (N `min` length vs)%nat.
Proof.
  intros Hn. destruct (RingWindow.new_wf _ _ _ Hn) as [Hwf Hi].
  assert (RingWindow.cap w0 = N) as HN.
  { revert Hn. unfold RingWindow.new. case_decide; [| done]. by intros [= <-]. }
  destruct (RingWindow.pushes_spec vs w0 Hwf []) as (Hwf' & Hc & Hiter); [done |].
  rewrite HN in Hiter. simpl in Hiter. cbv zeta.
  rewrite RingWindow.latest_spec, RingWindow.oldest_spec, RingWindow.iter_recent_spec by done.
  rewrite <- (RingWindow.iter_length _ Hwf'), Hiter, RingWindow.last_n_length. done.
Qed.

Lemma ring_window_refines_list_witness :
  exists w0, RingWindow.new 3 0 = Some w0
  /\ RingWindow.iter (foldl RingWindow.push w0 [1; 2; 3; 4; 5]) = [3; 4; 5].
Proof.
  eexists. split; [reflexivity |].
  exact (proj1 (ring_window_refines_list 3 0 [1; 2; 3; 4; 5] 2 _ eq_refl)).
Defined.
