(* ===== verification/HotPath.v ===== *)
(** What the hot path of every engine is built on (hedge-core): the rings between stages (ring.rs) and
    the clock with its latency timers (clock.rs).

    The queues are those of the crate crossbeam and the instants those of the crate quanta: classes of
    operations, with what their documentation promises as laws.  A ring is a shared pointer to its
    queue: an address of a heap, so that clones are the same address. *)

From S2P Require Import Prelude.

(** ** Rings *)

(** [crossbeam::queue::ArrayQueue], each operation atomic. *)
Class ArrayQueue (Q : Type -> Type) := {
  aq_new {A} : nat -> Q A;
  aq_push {A} : Q A -> A -> result unit A * Q A;
  aq_pop {A} : Q A -> option A * Q A;
  aq_capacity {A} : Q A -> nat;
  aq_len {A} : Q A -> nat;
  aq_is_empty {A} : Q A -> bool;
  aq_is_full {A} : Q A -> bool;
}.
(** What it holds, the oldest first. *)
Class ArrayQueueLaws Q `{!ArrayQueue Q} := {
  aq_items {A} : Q A -> list A;
  aq_new_items {A} cap : aq_items (aq_new (A := A) cap) = [] /\ aq_capacity (aq_new (A := A) cap) = cap;
  aq_push_items {A} (q : Q A) a : (length (aq_items q) <= aq_capacity q)%nat ->
    if (length (aq_items q) <? aq_capacity q)%nat
    then (aq_push q a).1 = Ok tt /\ aq_items (aq_push q a).2 = aq_items q ++ [a]
         /\ aq_capacity (aq_push q a).2 = aq_capacity q
    else aq_push q a = (Err a, q);
  aq_pop_items {A} (q : Q A) :
    (aq_pop q).1 = head (aq_items q) /\ aq_items (aq_pop q).2 = tail (aq_items q)
    /\ aq_capacity (aq_pop q).2 = aq_capacity q;
  aq_len_items {A} (q : Q A) : aq_len q = length (aq_items q);
}.

(** [crossbeam::queue::SegQueue]. *)
Class SegQueue (Q : Type -> Type) := {
  sq_new {A} : Q A;
  sq_push {A} : Q A -> A -> Q A;
  sq_pop {A} : Q A -> option A * Q A;
  sq_len {A} : Q A -> nat;
  sq_is_empty {A} : Q A -> bool;
}.

Module Ring.
(** The heap of the queues, and the address of the next. *)
Record heap (Q : Type) := mk_heap { queues : gmap nat Q; fresh_address : nat }.
Arguments mk_heap {Q}. Arguments queues {Q}. Arguments fresh_address {Q}.
Definition empty_heap {Q} : heap Q := mk_heap ∅ 0.

Definition alloc {Q} (q : Q) (h : heap Q) : nat * heap Q :=
  (fresh_address h, mk_heap (<[fresh_address h := q]> (queues h)) (S (fresh_address h))).
Definition at_address {Q} (a : nat) (h : heap Q) : option Q := queues h !! a.
Definition put {Q} (a : nat) (q : Q) (h : heap Q) : heap Q := mk_heap (<[a := q]> (queues h)) (fresh_address h).
End Ring.

Module MpmcRing.
Import Ring.
Section ring.
Context {Q : Type -> Type} `{!ArrayQueue Q} {A : Type}.

Record t := mk { inner : nat }.

(** [None] is the panic of the assertion. *)
Definition with_capacity (cap : nat) (h : heap (Q A)) : option (t * heap (Q A)) :=
  if (0 <? cap)%nat then let '(a, h) := alloc (aq_new cap) h in Some (mk a, h) else None.

(** An address a ring holds has a queue: [None] does not happen. *)
Definition push (r : t) (value : A) (h : heap (Q A)) : option (result unit A * heap (Q A)) :=
  q ← at_address (inner r) h;
  let '(res, q) := aq_push q value in Some (res, put (inner r) q h).
Definition pop (r : t) (h : heap (Q A)) : option (option A * heap (Q A)) :=
  q ← at_address (inner r) h;
  let '(res, q) := aq_pop q in Some (res, put (inner r) q h).
Definition capacity (r : t) (h : heap (Q A)) : option nat := option_map aq_capacity (at_address (inner r) h).
Definition len (r : t) (h : heap (Q A)) : option nat := option_map aq_len (at_address (inner r) h).
Definition is_empty (r : t) (h : heap (Q A)) : option bool := option_map aq_is_empty (at_address (inner r) h).
Definition is_full (r : t) (h : heap (Q A)) : option bool := option_map aq_is_full (at_address (inner r) h).
(** [Arc::clone]. *)
Definition clone (r : t) : t := mk (inner r).
End ring.
End MpmcRing.

Module MpscRing.
Import Ring.
Section ring.
Context {Q : Type -> Type} `{!ArrayQueue Q} {A : Type} (N : nat).

Record t := mk { inner : MpmcRing.t }.
Definition CAPACITY : nat := N.

Definition new (h : heap (Q A)) : option (t * heap (Q A)) :=
  '(r, h) ← MpmcRing.with_capacity N h; Some (mk r, h).
Definition push (r : t) := MpmcRing.push (Q := Q) (A := A) (inner r).
Definition pop (r : t) := MpmcRing.pop (Q := Q) (A := A) (inner r).
Definition capacity (r : t) : nat := N.
Definition len (r : t) := MpmcRing.len (Q := Q) (A := A) (inner r).
Definition is_empty (r : t) := MpmcRing.is_empty (Q := Q) (A := A) (inner r).
Definition is_full (r : t) := MpmcRing.is_full (Q := Q) (A := A) (inner r).
Definition clone (r : t) : t := mk (MpmcRing.clone (inner r)).
End ring.
End MpscRing.

Module UnboundedRing.
Import Ring.
Section ring.
Context {Q : Type -> Type} `{!SegQueue Q} {A : Type}.

Record t := mk { inner : nat }.
Definition new (h : heap (Q A)) : t * heap (Q A) := let '(a, h) := alloc sq_new h in (mk a, h).
Definition push (r : t) (value : A) (h : heap (Q A)) : option (heap (Q A)) :=
  q ← at_address (inner r) h; Some (put (inner r) (sq_push q value) h).
Definition pop (r : t) (h : heap (Q A)) : option (option A * heap (Q A)) :=
  q ← at_address (inner r) h;
  let '(res, q) := sq_pop q in Some (res, put (inner r) q h).
Definition len (r : t) (h : heap (Q A)) : option nat := option_map sq_len (at_address (inner r) h).
Definition is_empty (r : t) (h : heap (Q A)) : option bool := option_map sq_is_empty (at_address (inner r) h).
Definition clone (r : t) : t := mk (inner r).
End ring.
End UnboundedRing.

(** ** Clock *)

(** [quanta::Instant]: the nanoseconds from one instant to another, zero when it is earlier. *)
Class Instants := {
  Instant : Type;
  nanos_between : Instant -> Instant -> Z;
}.

Module Clock.
Section clock.
Context `{Instants} (read : nat -> Instant).

(** The reference instant of the process, and the readings made. *)
Record t := mk { epoch : option Instant; readings : nat }.
Definition start : t := mk None 0.

Definition instant_now (c : t) : Instant * t := (read (readings c), mk (epoch c) (S (readings c))).
Definition epoch_instant (c : t) : Instant * t :=
  match epoch c with
  | Some e => (e, c)
  | None => let '(e, c) := instant_now c in (e, mk (Some e) (readings c))
  end.
Definition clamp_u64 (n : Z) : Z := if u64_max <? n then u64_max else n.
Definition now_ns (c : t) : Z * t :=
  let '(epoch, c) := epoch_instant c in
  let '(i, c) := instant_now c in
  (clamp_u64 (nanos_between epoch i), c).
Definition elapsed_ns_from (start : Instant) (c : t) : Z * t :=
  let '(i, c) := instant_now c in (clamp_u64 (nanos_between start i), c).
End clock.
End Clock.

Module LatencyTimers.
Section timers.
Context `{Instants} (read : nat -> Instant).
Abbreviation instant_now := (Clock.instant_now read) (only parsing).
Abbreviation elapsed_ns_from := (Clock.elapsed_ns_from read) (only parsing).

(** A callback is named, and calling it is recorded with its argument. *)
Record CallbackLatencyTimer := mk_Callback { cb_start : Instant; on_drop : option nat }.
Definition callback_new (f : nat) (c : Clock.t) : CallbackLatencyTimer * Clock.t :=
  let '(i, c) := instant_now c in (mk_Callback i (Some f), c).
Definition callback_elapsed_ns (t : CallbackLatencyTimer) (c : Clock.t) : Z * Clock.t :=
  elapsed_ns_from (cb_start t) c.
(** [Drop::drop] leaves a timer without a callback. *)
Definition callback_drop (t : CallbackLatencyTimer) (calls : list (nat * Z)) (c : Clock.t)
  : CallbackLatencyTimer * list (nat * Z) * Clock.t :=
  match on_drop t with
  | Some f => let '(n, c) := elapsed_ns_from (cb_start t) c in (mk_Callback (cb_start t) None, calls ++ [(f, n)], c)
  | None => (t, calls, c)
  end.

(** [sink] is the address of the atomic cell. *)
Record AtomicLatencyTimer := mk_Atomic { at_start : Instant; sink : nat; armed : bool }.
Definition atomic_new (sink : nat) (c : Clock.t) : AtomicLatencyTimer * Clock.t :=
  let '(i, c) := instant_now c in (mk_Atomic i sink true, c).
Definition atomic_elapsed_ns (t : AtomicLatencyTimer) (c : Clock.t) : Z * Clock.t := elapsed_ns_from (at_start t) c.
Definition atomic_drop (t : AtomicLatencyTimer) (cells : gmap nat Z) (c : Clock.t) : gmap nat Z * Clock.t :=
  if armed t then let '(n, c) := elapsed_ns_from (at_start t) c in (<[sink t := n]> cells, c) else (cells, c).
(** [cancel] consumes the timer: disarmed, then dropped. *)
Definition cancel (t : AtomicLatencyTimer) (cells : gmap nat Z) (c : Clock.t) : gmap nat Z * Clock.t :=
  atomic_drop (mk_Atomic (at_start t) (sink t) false) cells c.
End timers.
End LatencyTimers.

(** ** Specification: a bounded queue as a list *)

Module RingSpec.
Section spec.
Context {A : Type}.

(** What a producer or a consumer does, through whichever clone. *)
Inductive op := Push (r : MpmcRing.t) (value : A) | Pop (r : MpmcRing.t).
Inductive output := Pushed (r : result unit A) | Popped (v : option A).
Definition ring_of (o : op) : MpmcRing.t := match o with Push r _ | Pop r => r end.

Definition spec_step (cap : nat) (l : list A) (o : op) : output * list A :=
  match o with
  | Push _ v => if (length l <? cap)%nat then (Pushed (Ok tt), l ++ [v]) else (Pushed (Err v), l)
  | Pop _ => (Popped (head l), tail l)
  end.
Fixpoint spec_run (cap : nat) (l : list A) (ops : list op) : list output * list A :=
  match ops with
  | [] => ([], l)
  | o :: ops => let '(out, l) := spec_step cap l o in let '(outs, l) := spec_run cap l ops in (out :: outs, l)
  end.

(** The values accepted and the values handed out, each in order. *)
Definition accepted (ops : list op) (outs : list output) : list A :=
  omap (fun p => match p with (Push _ v, Pushed (Ok _)) => Some v | _ => None end) (zip ops outs).
Definition handed_out (outs : list output) : list A :=
  omap (fun o => match o with Popped v => v | _ => None end) outs.

Lemma spec_run_fifo cap ops : forall l, (length l <= cap)%nat ->
  let '(outs, l') := spec_run cap l ops in
  l ++ accepted ops outs = handed_out outs ++ l' /\ (length l' <= cap)%nat.
Proof.
  induction ops as [| o ops IH]; intros l Hl; cbn [spec_run]; [cbn; by rewrite app_nil_r |].
  destruct o as [r v | r]; cbn [spec_step].
  - destruct (Nat.ltb_spec (length l) cap) as [Hlt | Hge].
    + specialize (IH (l ++ [v]) ltac:(rewrite length_app; cbn; lia)).
      destruct (spec_run cap (l ++ [v]) ops) as [outs l']. cbn. by rewrite <- app_assoc in IH.
    + specialize (IH l Hl). by destruct (spec_run cap l ops) as [outs l'].
  - specialize (IH (tail l) ltac:(destruct l; cbn in *; lia)).
    destruct (spec_run cap (tail l) ops) as [outs l']. destruct IH as [IH Hc]. split; [| done].
    destruct l as [| x l]; [exact IH | exact (f_equal (cons x) IH)].
Qed.
End spec.
Arguments op A : clear implicits.
Arguments output A : clear implicits.

Section run.
Context {Q : Type -> Type} `{!ArrayQueue Q} {A : Type}.

Definition step (h : Ring.heap (Q A)) (o : op A) : option (output A * Ring.heap (Q A)) :=
  match o with
  | Push r v => option_map (fun p => (Pushed p.1, p.2)) (MpmcRing.push r v h)
  | Pop r => option_map (fun p => (Popped p.1, p.2)) (MpmcRing.pop r h)
  end.
Fixpoint run (h : Ring.heap (Q A)) (ops : list (op A)) : option (list (output A) * Ring.heap (Q A)) :=
  match ops with
  | [] => Some ([], h)
  | o :: ops =>
    match step h o with
    | None => None
    | Some (out, h) => option_map (fun p => (out :: p.1, p.2)) (run h ops)
    end
  end.

Context `{!ArrayQueueLaws Q}.

(** A ring holds a list within its capacity. *)
Definition holds (h : Ring.heap (Q A)) (a cap : nat) (l : list A) : Prop :=
  exists q, Ring.at_address a h = Some q /\ aq_items q = l /\ aq_capacity q = cap /\ (length l <= cap)%nat.

Lemma step_refines h a cap l o : holds h a cap l -> MpmcRing.inner (ring_of o) = a ->
  exists out h', step h o = Some (out, h') /\ out = (spec_step cap l o).1
    /\ holds h' a cap (spec_step cap l o).2
    /\ forall b, b <> a -> Ring.at_address b h' = Ring.at_address b h.
Proof.
  intros (q & Hq & <- & <- & Hl) Ha. destruct o as [r v | r]; cbn [ring_of] in Ha; cbn [step spec_step].
  - pose proof (aq_push_items q v Hl) as Hp. unfold MpmcRing.push. rewrite Ha, Hq.
    destruct (Nat.ltb_spec (length (aq_items q)) (aq_capacity q)) as [Hlt | Hge].
    + destruct Hp as (H1 & H2 & H3). cbn. destruct (aq_push q v) as [res q']. cbn in *. subst res.
      eexists _, _. split_and!; [reflexivity | done | |].
      * exists q'. split_and!; [by apply lookup_insert_eq | done | done | rewrite length_app; cbn; lia].
      * intros b Hb. by apply lookup_insert_ne.
    + cbn. rewrite Hp. eexists _, _. split_and!; [reflexivity | done | |].
      * exists q. split_and!; [by apply lookup_insert_eq | done | done | done].
      * intros b Hb. by apply lookup_insert_ne.
  - unfold MpmcRing.pop. rewrite Ha, Hq. cbn. destruct (aq_pop_items q) as (H1 & H2 & H3).
    destruct (aq_pop q) as [res q']. cbn in *. subst res. eexists _, _. split_and!; [reflexivity | done | |].
    + exists q'. split_and!; [by apply lookup_insert_eq | done | done |]. destruct (aq_items q); cbn in *; lia.
    + intros b Hb. by apply lookup_insert_ne.
Qed.

Lemma run_refines ops : forall h a cap l, holds h a cap l ->
  Forall (fun o => MpmcRing.inner (ring_of o) = a) ops ->
  exists outs h', run h ops = Some (outs, h') /\ outs = (spec_run cap l ops).1
    /\ holds h' a cap (spec_run cap l ops).2
    /\ forall b, b <> a -> Ring.at_address b h' = Ring.at_address b h.
Proof.
  induction ops as [| o ops IH]; intros h a cap l Hh Hops; cbn [run spec_run].
  - by exists [], h.
  - apply Forall_cons in Hops as [Ho Hops]. destruct (step_refines h a cap l o Hh Ho) as (out & h1 & -> & -> & H1 & Hb).
    destruct (spec_step cap l o) as [out l1]. cbn [fst snd] in *.
    destruct (IH h1 a cap l1 H1 Hops) as (outs & h2 & -> & -> & H2 & Hb').
    destruct (spec_run cap l1 ops) as [outs l2]. cbn in *. eexists _, _.
    split_and!; [reflexivity | done | done |]. intros b Hne. by rewrite Hb', Hb.
Qed.
End run.
End RingSpec.

(** A ring is a bounded queue. Whatever its producers and consumers do through its clones, in the
    order in which their operations take effect: no operation fails for want of the queue, what was
    accepted is what was handed out followed by what the ring still holds, in order; the ring never
    holds more than its capacity, refuses a value only when full and gives that very value back; and no
    other ring is touched.  Construction panics exactly at capacity zero. *)
Theorem ring_is_a_bounded_fifo {Q : Type -> Type} `{!ArrayQueue Q} `{!ArrayQueueLaws Q} {A : Type}
  (cap : nat) (h : Ring.heap (Q A)) (ops : list (RingSpec.op A)) :
  match MpmcRing.with_capacity cap h with
  | None => cap = 0%nat
  | Some (r, h1) =>
    Forall (fun o => MpmcRing.inner (RingSpec.ring_of o) = MpmcRing.inner r) ops ->
    exists outs h2 held, RingSpec.run h1 ops = Some (outs, h2)
      /\ outs = (RingSpec.spec_run cap [] ops).1
      /\ RingSpec.holds h2 (MpmcRing.inner r) cap held
      /\ RingSpec.accepted ops outs = RingSpec.handed_out outs ++ held
      /\ forall b, b <> MpmcRing.inner r -> Ring.at_address b h2 = Ring.at_address b h
  end.
Proof.
  unfold MpmcRing.with_capacity. destruct (Nat.ltb_spec 0 cap) as [Hc | Hc]; [| lia]. cbn. intros Hops.
  set (h1 := Ring.mk_heap _ _). assert (RingSpec.holds h1 (Ring.fresh_address h) cap []) as Hh.
  { destruct (aq_new_items (A := A) cap) as [Hi Hcap]. eexists. split_and!; [by apply lookup_insert_eq | done | done | cbn; lia]. }
  destruct (RingSpec.run_refines ops h1 _ cap [] Hh Hops) as (outs & h2 & Hr & -> & H2 & Hb).
  pose proof (RingSpec.spec_run_fifo cap ops [] ltac:(cbn; lia)) as Hf.
  destruct (RingSpec.spec_run cap [] ops) as [outs held]. cbn [fst snd] in *. destruct Hf as [Hf _].
  exists outs, h2, held. split_and!; try done. intros b Hne. rewrite Hb by done. by apply lookup_insert_ne.
Qed.

(** ** Time never goes back *)

Module ClockFacts.
Section facts.
Context `{Instants} (read : nat -> Instant).

(** The calls of one process, one after the other. *)
Fixpoint stamps (n : nat) (c : Clock.t) : list Z * Clock.t :=
  match n with
  | O => ([], c)
  | S n => let '(z, c) := Clock.now_ns read c in let '(zs, c) := stamps n c in (z :: zs, c)
  end.

Lemma clamp_ok z : 0 <= z -> u64_ok (Clock.clamp_u64 z).
Proof. intros Hz. unfold Clock.clamp_u64. destruct (Z.ltb_spec u64_max z); unfold_ok; lia. Qed.
Lemma clamp_mono z z' : z <= z' -> Clock.clamp_u64 z <= Clock.clamp_u64 z'.
Proof. intros Hz. unfold Clock.clamp_u64. destruct (Z.ltb_spec u64_max z), (Z.ltb_spec u64_max z'); lia. Qed.

Context (Hpos : forall i j, 0 <= nanos_between i j).
Context (Hmono : forall e m n, (m <= n)%nat -> nanos_between e (read m) <= nanos_between e (read n)).

Lemma stamps_from n : forall e k,
  Forall (fun z => u64_ok z /\ Clock.clamp_u64 (nanos_between e (read k)) <= z) (stamps n (Clock.mk (Some e) k)).1
  /\ Sorted Z.le (stamps n (Clock.mk (Some e) k)).1.
Proof.
  induction n as [| n IH]; intros e k; cbn [stamps]; [by repeat constructor |].
  unfold Clock.now_ns, Clock.epoch_instant, Clock.instant_now. cbn [Clock.epoch Clock.readings].
  destruct (IH e (S k)) as [Hf Hs]. destruct (stamps n (Clock.mk (Some e) (S k))) as [zs c]. cbn [fst] in *.
  assert (Forall (fun z => u64_ok z /\ Clock.clamp_u64 (nanos_between e (read k)) <= z) zs) as Hf'.
  { eapply Forall_impl; [exact Hf |]. intros z [Hz Hle]. split; [done |]. etransitivity; [| exact Hle].
    apply clamp_mono, Hmono. lia. }
  split; [constructor; [split; [by apply clamp_ok | done] | done] |]. constructor; [done |].
  destruct zs as [| z zs]; constructor. by apply Forall_cons in Hf' as [[_ ?] _].
Qed.
End facts.
End ClockFacts.

(** The timestamps of a process are non-decreasing 64-bit values that start from the first instant it
    read, if the instants themselves do not go back. *)
Theorem timestamps_never_go_back `{Instants} (read : nat -> Instant)
  (Hpos : forall i j, 0 <= nanos_between i j)
  (Hmono : forall e m n, (m <= n)%nat -> nanos_between e (read m) <= nanos_between e (read n)) (n : nat) :
  Forall (fun z => u64_ok z /\ Clock.clamp_u64 (nanos_between (read 0%nat) (read 1%nat)) <= z)
    (ClockFacts.stamps read n Clock.start).1
  /\ Sorted Z.le (ClockFacts.stamps read n Clock.start).1.
Proof.
  destruct n as [| n]; [by repeat constructor |].
  exact (ClockFacts.stamps_from read Hpos Hmono (S n) (read 0%nat) 1).
Qed.

(** A timer reports once, when it is dropped, the time since it was started, and a cancelled one not
    at all; reading it on the way changes nothing. *)
Lemma timers_report_once `{Instants} (read : nat -> Instant) sink cells f calls (c : Clock.t) :
  let '(t, c1) := LatencyTimers.atomic_new read sink c in
  let '(_, c2) := LatencyTimers.atomic_elapsed_ns read t c1 in
  let n := Clock.clamp_u64 (nanos_between (read (Clock.readings c)) (read (Clock.readings c2))) in
  (LatencyTimers.atomic_drop read t cells c2).1 = <[sink := n]> cells
  /\ LatencyTimers.cancel read t cells c2 = (cells, c2)
  /\ let '(t, c1) := LatencyTimers.callback_new read f c in
     let '(t', calls', c3) := LatencyTimers.callback_drop read t calls c1 in
     calls' = calls ++ [(f, Clock.clamp_u64 (nanos_between (read (Clock.readings c)) (read (Clock.readings c1))))]
     /\ LatencyTimers.callback_drop read t' calls' c3 = (t', calls', c3).
Proof. by split_and!. Qed.

(** ** A concrete queue *)

Module PlainQueue.
Definition t (A : Type) : Type := nat * list A.
#[global] Instance ops : ArrayQueue t := {|
  aq_new A cap := (cap, []);
  aq_push A q a := if (length q.2 <? q.1)%nat then (Ok tt, (q.1, q.2 ++ [a])) else (Err a, q);
  aq_pop A q := (head q.2, (q.1, tail q.2));
  aq_capacity A q := q.1;
  aq_len A q := length q.2;
  aq_is_empty A q := (length q.2 =? 0)%nat;
  aq_is_full A q := (length q.2 =? q.1)%nat;
|}.
#[global] Instance laws : ArrayQueueLaws t.
Proof.
  refine {| aq_items A q := q.2 |}; try done. intros A [cap l] a Hl. cbn -[Nat.ltb] in *.
  by destruct (length l <? cap)%nat.
Defined.
End PlainQueue.

(** Two clones of a ring of two places. *)
Module RingSample.
Import RingSpec.
Definition ring : MpmcRing.t := MpmcRing.mk 0.
Definition ops : list (op Z) :=
  [Push ring 1; Push (MpmcRing.clone ring) 2; Push ring 3; Pop (MpmcRing.clone ring); Push ring 4; Pop ring].
Definition after : Ring.heap (PlainQueue.t Z) := Ring.put 0%nat (aq_new 2) (Ring.mk_heap ∅ 1).
End RingSample.

Lemma ring_is_a_bounded_fifo_witness :
  exists outs h2 held, RingSpec.run RingSample.after RingSample.ops = Some (outs, h2)
    /\ RingSpec.holds h2 0%nat 2%nat held
    /\ RingSpec.accepted RingSample.ops outs = RingSpec.handed_out outs ++ held.
Proof.
  destruct (ring_is_a_bounded_fifo (Q := PlainQueue.t) 2%nat Ring.empty_heap RingSample.ops)
    as (outs & h2 & held & Hr & _ & Hh & Ha & _).
  - repeat constructor.
  - exists outs, h2, held. split_and!; [exact Hr | exact Hh | exact Ha].
Defined.

(** The third value is refused while the ring is full. *)
Example ring_outputs : (RingSpec.spec_run (A := Z) 2 [] RingSample.ops).1
  = [RingSpec.Pushed (Ok tt); RingSpec.Pushed (Ok tt); RingSpec.Pushed (Err 3); RingSpec.Popped (Some 1);
     RingSpec.Pushed (Ok tt); RingSpec.Popped (Some 2)].
Proof. reflexivity. Qed.

Lemma timestamps_never_go_back_witness :
  let I := {| Instant := Z; nanos_between a b := Z.max 0 (b - a) |} in
  Sorted Z.le (ClockFacts.stamps (H := I) (fun n => 3 * Z.of_nat n) 4 Clock.start).1
  /\ (ClockFacts.stamps (H := I) (fun n => 3 * Z.of_nat n) 4 Clock.start).1 = [3; 6; 9; 12].
Proof.
  intros I. split; [| reflexivity].
  refine (proj2 (timestamps_never_go_back (H := I) (fun n => 3 * Z.of_nat n) _ _ 4)).
  - intros i j. cbn. lia.
  - intros e m n H. cbn in *. lia.
Defined.
