(* ===== verification/Decimal.v ===== *)
(** Decimal text of the standard library: [f64::from_str] with its grammar and its correct
    rounding, and the reading back of prices printed in rupees with two digits of paise. *)

From S2P Require Import Prelude Ieee IeeeValue Bytes Core.
From Stdlib Require Import Ascii Floats.SpecFloat.

(** The digits at the front of a text: their value appended to [acc], how many there are,
    and the rest. *)
Fixpoint scan_digits (acc n : Z) (s : string) : Z * Z * string :=
  match s with
  | String c rest =>
    match digit_of 10 c with
    | Some d => scan_digits (acc * 10 + d) (n + 1) rest
    | None => (acc, n, s)
    end
  | EmptyString => (acc, n, EmptyString)
  end.

(** [d * 10 ^ x] rounded to the nearest. *)
Definition f64_of_decimal (neg : bool) (d x : Z) : f64 :=
  match d with
  | Zpos p =>
    if 0 <=? x then binary_normalize 53 1024 (cond_Zopp neg (Zpos p * 10 ^ x)) 0 neg
    else SFdiv 53 1024 (S754_finite neg p 0) (S754_finite false (Z.to_pos (10 ^ (- x))) 0)
  | _ => S754_zero neg
  end.

(** An optional sign. *)
Definition scan_sign (s : string) : bool * string :=
  match s with
  | String "-" rest => (true, rest)
  | String "+" rest => (false, rest)
  | _ => (false, s)
  end.

(** The exponent, when there is one: [None] when it has no digit or something follows it. *)
Definition scan_exponent (s : string) : option Z :=
  match s with
  | EmptyString => Some 0
  | String c rest =>
    if (Ascii.eqb c "e" || Ascii.eqb c "E")%char then
      let '(neg, rest) := scan_sign rest in
      match scan_digits 0 0 rest with
      | (x, n, EmptyString) => if n =? 0 then None else Some (if neg then - x else x)
      | _ => None
      end
    else None
  end.

Definition scan_number (neg : bool) (s : string) : option f64 :=
  let '(d, n, r) := scan_digits 0 0 s in
  let '(d, f, r) := match r with String "." r => scan_digits d 0 r | _ => (d, 0, r) end in
  if n + f =? 0 then None
  else match scan_exponent r with
       | Some x => Some (f64_of_decimal neg d (x - f))
       | None => None
       end.

Definition ascii_lower (c : ascii) : ascii :=
  let n := N_of_ascii c in
  if ((65 <=? n) && (n <=? 90))%N then ascii_of_N (n + 32) else c.
Fixpoint to_ascii_lowercase (s : string) : string :=
  match s with
  | EmptyString => EmptyString
  | String c rest => String (ascii_lower c) (to_ascii_lowercase rest)
  end.

(** [str::parse::<f64>]. *)
Definition parse_f64 (s : string) : option f64 :=
  let '(neg, s) := scan_sign s in
  match scan_number neg s with
  | Some x => Some x
  | None =>
    let s := to_ascii_lowercase s in
    if decide (s = "inf" \/ s = "infinity") then Some (S754_infinity neg)
    else if decide (s = "nan") then Some S754_nan else None
  end.

Example parse_f64_examples :
  parse_f64 "101.25" = Some (f64_div (f64_of_Z 405) (f64_of_Z 4))
  /\ parse_f64 "-1e3" = Some (f64_of_Z (-1000)) /\ parse_f64 ".5E+1" = Some (f64_of_Z 5)
  /\ parse_f64 "." = None /\ parse_f64 "1e" = None /\ parse_f64 "+Inf" = Some (S754_infinity false).
Proof. by vm_compute. Qed.

(** ** Reading a printed price *)

Lemma scan_pretty x : forall n s, exists k, 0 <= k /\ (x <> 0%N -> 0 < k)
  /\ scan_digits 0 n (pretty_N_go x s) = scan_digits (Z.of_N x) (n + k) s.
Proof.
  induction (N.lt_wf_0 x) as [x _ IH]. intros n s.
  destruct (decide (x = 0)%N) as [-> | Hnz]; [exists 0; rewrite Z.add_0_r; split_and!; done |].
  rewrite pretty_N_go_step by lia.
  destruct (IH (x `div` 10)%N ltac:(apply N.div_lt; lia) n
              (String (pretty_N_char (x `mod` 10)) s)) as (k & Hk & _ & ->).
  exists (k + 1). split_and!; [lia | lia |]. cbn [scan_digits].
  pose proof (N_mod_10_range x) as Hm.
  rewrite <- (N2Z.id (x `mod` 10)), (proj1 (decimal_char _ Hm)).
  pose proof (N.div_mod x 10 ltac:(lia)). f_equal; lia.
Qed.

Lemma str_app_assoc (a b c : string) : (a +:+ b) +:+ c = a +:+ (b +:+ c).
Proof. induction a as [| x a IH]; [done |]. by apply (f_equal (String x)) in IH. Qed.

Lemma str_app_nil (a : string) : a +:+ EmptyString = a.
Proof. induction a as [| x a IH]; [done |]. by apply (f_equal (String x)) in IH. Qed.

Lemma pretty_N_go_app x : forall s, pretty_N_go x s = pretty_N_go x EmptyString +:+ s.
Proof.
  induction (N.lt_wf_0 x) as [x _ IH]. intros s.
  destruct (decide (x = 0)%N) as [-> | Hnz]; [done |].
  rewrite (pretty_N_go_step x s), (pretty_N_go_step x EmptyString) by lia.
  assert (x `div` 10 < x)%N as Hlt by (apply N.div_lt; lia).
  rewrite (IH _ Hlt (String _ s)), (IH _ Hlt (String _ EmptyString)).
  by rewrite str_app_assoc.
Qed.

Lemma scan_pretty_Z z n s : 0 <= z -> exists k, 0 < k
  /\ scan_digits 0 n (pretty z +:+ s) = scan_digits z (n + k) s.
Proof.
  intros Hz. destruct z as [| p | p]; [by exists 1 | | lia].
  change (pretty (Zpos p)) with (pretty (Npos p)). unfold pretty, pretty_N. case_decide; [done |].
  rewrite <- pretty_N_go_app. destruct (scan_pretty (Npos p) n s) as (k & _ & Hk & ->).
  exists k. split; [by apply Hk | done].
Qed.

(** The two digits of a number below a hundred. *)
Definition digit_pair (d : Z) : string :=
  String (pretty_N_char (Z.to_N (d / 10))) (String (pretty_N_char (Z.to_N (d mod 10))) EmptyString).

Lemma two_digits_chars d : 0 <= d < 100 -> Px.two_digits d = digit_pair d.
Proof.
  intros Hd. assert (forallb (fun d => bool_decide (Px.two_digits d = digit_pair d)) (seqZ 0 100) = true) as H
    by (by vm_compute).
  rewrite forallb_forall in H. apply (bool_decide_eq_true_1 _), H.
  apply list_elem_of_In, elem_of_seqZ. lia.
Qed.

Lemma scan_two_digits acc d : 0 <= d < 100 ->
  scan_digits acc 0 (Px.two_digits d) = (acc * 100 + d, 2, EmptyString).
Proof.
  intros Hd. rewrite two_digits_chars by done. unfold digit_pair.
  pose proof (Z.mod_pos_bound d 10 ltac:(lia)). pose proof (Z.div_mod d 10 ltac:(lia)).
  assert (0 <= d / 10 < 10) by lia.
  cbn [scan_digits]. rewrite (proj1 (decimal_char (d / 10) ltac:(lia))).
  rewrite (proj1 (decimal_char (d mod 10) ltac:(lia))). do 2 f_equal; lia.
Qed.

(** A price as the brokers' decimal text: an optional minus sign, rupees, two digits. *)
Definition rupee_text (neg : bool) (rupees frac : Z) : string :=
  (if neg then "-" else EmptyString) +:+ (pretty rupees +:+ ("." +:+ Px.two_digits frac)).

Lemma scan_number_rupees neg rupees frac : 0 <= rupees -> 0 <= frac < 100 ->
  scan_number neg (pretty rupees +:+ ("." +:+ Px.two_digits frac))
  = Some (f64_of_decimal neg (rupees * 100 + frac) (-2)).
Proof.
  intros Hr Hf. unfold scan_number.
  destruct (scan_pretty_Z rupees 0 ("." +:+ Px.two_digits frac) Hr) as (k & Hk & ->).
  change ("." +:+ Px.two_digits frac) with (String "." (Px.two_digits frac)). cbn [scan_digits].
  change (digit_of 10 ".") with (@None Z). cbv iota beta.
  rewrite scan_two_digits by done. cbv iota beta.
  destruct (Z.eqb_spec (0 + k + 2) 0); [lia | done].
Qed.

(** The first character of a printed number is a digit, not a sign. *)
Lemma scan_sign_digit c r d : digit_of 10 c = Some d -> scan_sign (String c r) = (false, String c r).
Proof. destruct c as [[] [] [] [] [] [] [] []]; done. Qed.

Lemma scan_sign_pretty z s : 0 <= z -> scan_sign (pretty z +:+ s) = (false, pretty z +:+ s).
Proof.
  intros Hz. destruct (scan_pretty_Z z 0 EmptyString Hz) as (k & Hk & Hs). rewrite str_app_nil in Hs.
  destruct (pretty z) as [| c r]; [injection Hs; lia |].
  cbn [scan_digits] in Hs. destruct (digit_of 10 c) as [d |] eqn:Ed; [| injection Hs; lia].
  change (String c r +:+ s) with (String c (r +:+ s)). by apply (scan_sign_digit _ _ d).
Qed.

Lemma parse_f64_rupees neg rupees frac : 0 <= rupees -> 0 <= frac < 100 ->
  parse_f64 (rupee_text neg rupees frac) = Some (f64_of_decimal neg (rupees * 100 + frac) (-2)).
Proof.
  intros Hr Hf. unfold parse_f64, rupee_text.
  assert (forall t, scan_sign ((if neg then "-" else EmptyString) +:+ (pretty rupees +:+ t))
          = (neg, pretty rupees +:+ t)) as ->.
  { intros t. destruct neg; [done |]. by apply scan_sign_pretty. }
  by rewrite scan_number_rupees.
Qed.

(** What is printed of [z] hundredths, read as a float and multiplied back, is [z]. *)
Lemma rupee_text_and_back z : Z.abs z < 2 ^ 49 ->
  exists x, parse_f64 (rupee_text (z <? 0) (Z.abs z / 100) (Z.abs z mod 100)) = Some x
    /\ f_round_as_i64 (f64_mul x (f64_of_Z 100)) = z.
Proof.
  intros Hz. pose proof (Z.mod_pos_bound (Z.abs z) 100 ltac:(lia)).
  pose proof (Z.div_pos (Z.abs z) 100 ltac:(lia) ltac:(lia)).
  eexists. split; [by apply parse_f64_rupees |].
  replace (Z.abs z / 100 * 100 + Z.abs z mod 100) with (Z.abs z) by (pose proof (Z.div_mod (Z.abs z) 100); lia).
  destruct z as [| p | p]; [by vm_compute | |]; unfold f64_of_decimal; cbn [Z.abs Z.leb Z.compare Z.ltb].
  - by apply (ratio_hundredth_and_back false).
  - by apply (ratio_hundredth_and_back true).
Qed.
