(* ===== verification/Schemas.v ===== *)
(** The wire types of crates/hedge-schemas: the tagged enums of lib.rs with their
    [from_u8] / [as_u8] / [as_str] tables, and the records of the generated module
    that the trading path exchanges. *)

From S2P Require Import Prelude Ieee.

Module Stage.
Inductive t :=
| TickIngest | FeatureExtraction | AiScoringFetch | RiskCheck | ExecutionRouting | BrokerSubmit.
Definition from_u8 (byte : Z) : option t :=
  match byte with
  | 0 => Some TickIngest | 1 => Some FeatureExtraction | 2 => Some AiScoringFetch
  | 3 => Some RiskCheck | 4 => Some ExecutionRouting | 5 => Some BrokerSubmit
  | _ => None
  end.
Definition as_u8 (s : t) : Z :=
  match s with
  | TickIngest => 0 | FeatureExtraction => 1 | AiScoringFetch => 2
  | RiskCheck => 3 | ExecutionRouting => 4 | BrokerSubmit => 5
  end.
Definition as_str (s : t) : string :=
  match s with
  | TickIngest => "TickIngest" | FeatureExtraction => "FeatureExtraction"
  | AiScoringFetch => "AiScoringFetch" | RiskCheck => "RiskCheck"
  | ExecutionRouting => "ExecutionRouting" | BrokerSubmit => "BrokerSubmit"
  end.
End Stage.

Module OrderLifecycleState.
Inductive t := New | Submitted | PartiallyFilled | Filled | Cancelled | Rejected.
Definition from_u8 (byte : Z) : option t :=
  match byte with
  | 0 => Some New | 1 => Some Submitted | 2 => Some PartiallyFilled
  | 3 => Some Filled | 4 => Some Cancelled | 5 => Some Rejected
  | _ => None
  end.
Definition as_u8 (s : t) : Z :=
  match s with
  | New => 0 | Submitted => 1 | PartiallyFilled => 2
  | Filled => 3 | Cancelled => 4 | Rejected => 5
  end.
Definition as_str (s : t) : string :=
  match s with
  | New => "New" | Submitted => "Submitted" | PartiallyFilled => "PartiallyFilled"
  | Filled => "Filled" | Cancelled => "Cancelled" | Rejected => "Rejected"
  end.
Definition is_terminal (s : t) : bool :=
  match s with Filled | Cancelled | Rejected => true | _ => false end.
#[global] Instance eq_dec : EqDecision t.
Proof. solve_decision. Defined.
End OrderLifecycleState.

Module StrategyId.
Inductive t :=
| OpeningRangeBreakout | VwapPullback | MomentumBreakout | LiquiditySweepReversal
| OptionsOiExpansionBreakout | VolatilityCompressionBreakout | CompositeAlphaBreakout.
Definition from_u8 (byte : Z) : option t :=
  match byte with
  | 0 => Some OpeningRangeBreakout | 1 => Some VwapPullback | 2 => Some MomentumBreakout
  | 3 => Some LiquiditySweepReversal | 4 => Some OptionsOiExpansionBreakout
  | 5 => Some VolatilityCompressionBreakout | 6 => Some CompositeAlphaBreakout
  | _ => None
  end.
Definition as_u8 (s : t) : Z :=
  match s with
  | OpeningRangeBreakout => 0 | VwapPullback => 1 | MomentumBreakout => 2
  | LiquiditySweepReversal => 3 | OptionsOiExpansionBreakout => 4
  | VolatilityCompressionBreakout => 5 | CompositeAlphaBreakout => 6
  end.
Definition as_str (s : t) : string :=
  match s with
  | OpeningRangeBreakout => "OpeningRangeBreakout" | VwapPullback => "VwapPullback"
  | MomentumBreakout => "MomentumBreakout" | LiquiditySweepReversal => "LiquiditySweepReversal"
  | OptionsOiExpansionBreakout => "OptionsOiExpansionBreakout"
  | VolatilityCompressionBreakout => "volatility_compression"
  | CompositeAlphaBreakout => "composite_alpha"
  end.
End StrategyId.

Module RejectionReason.
Inductive t :=
| Approved | SessionClosed | MaxDailyLoss | MaxPosition | MaxLeverage | MaxDrawdown
| TradeFrequency | MaxExposure | SlippageCooldown | VolatilityBlock | BrokerLatencyBlock
| ProfitTargetReached | KillSwitchEngaged | RegimeBlocked | NewsBlocked
| WarModeConfidenceTooLow | AdaptiveRiskZero | InvalidApprovalToken | InternalError.
Definition from_u8 (byte : Z) : option t :=
  match byte with
  | 0 => Some Approved | 1 => Some SessionClosed | 2 => Some MaxDailyLoss
  | 3 => Some MaxPosition | 4 => Some MaxLeverage | 5 => Some MaxDrawdown
  | 6 => Some TradeFrequency | 7 => Some MaxExposure | 8 => Some SlippageCooldown
  | 9 => Some VolatilityBlock | 10 => Some BrokerLatencyBlock
  | 11 => Some ProfitTargetReached | 12 => Some KillSwitchEngaged
  | 13 => Some RegimeBlocked | 14 => Some NewsBlocked
  | 15 => Some WarModeConfidenceTooLow | 16 => Some AdaptiveRiskZero
  | 17 => Some InvalidApprovalToken | 18 => Some InternalError
  | _ => None
  end.
Definition as_u8 (r : t) : Z :=
  match r with
  | Approved => 0 | SessionClosed => 1 | MaxDailyLoss => 2 | MaxPosition => 3
  | MaxLeverage => 4 | MaxDrawdown => 5 | TradeFrequency => 6 | MaxExposure => 7
  | SlippageCooldown => 8 | VolatilityBlock => 9 | BrokerLatencyBlock => 10
  | ProfitTargetReached => 11 | KillSwitchEngaged => 12 | RegimeBlocked => 13
  | NewsBlocked => 14 | WarModeConfidenceTooLow => 15 | AdaptiveRiskZero => 16
  | InvalidApprovalToken => 17 | InternalError => 18
  end.
Definition as_str (r : t) : string :=
  match r with
  | Approved => "approved" | SessionClosed => "session_closed"
  | MaxDailyLoss => "max_daily_loss" | MaxPosition => "max_position"
  | MaxLeverage => "max_leverage" | MaxDrawdown => "max_drawdown"
  | TradeFrequency => "trade_frequency" | MaxExposure => "max_exposure"
  | SlippageCooldown => "slippage_cooldown" | VolatilityBlock => "volatility_block"
  | BrokerLatencyBlock => "broker_latency_block"
  | ProfitTargetReached => "profit_target_reached"
  | KillSwitchEngaged => "kill_switch_engaged" | RegimeBlocked => "regime_blocked"
  | NewsBlocked => "news_blocked"
  | WarModeConfidenceTooLow => "war_mode_confidence_too_low"
  | AdaptiveRiskZero => "adaptive_risk_zero"
  | InvalidApprovalToken => "invalid_approval_token" | InternalError => "internal_error"
  end.
#[global] Instance eq_dec : EqDecision t.
Proof. solve_decision. Defined.
End RejectionReason.

(** ** Records (generated/*.rs).  [[u8; 16]] is a list of 16 bytes. *)

Record RiskProfile := mk_RiskProfile {
  stop_loss_paise : Z;
  take_profit_paise : Z;
  max_size_qty : Z;
  time_horizon_seconds : Z;
}.

Record Signal := mk_Signal {
  sig_correlation_id : list Z;
  sig_strategy : Z;
  sig_symbol : Z;
  sig_side : Z;
  sig_base_probability : f32;
  sig_confidence : f32;
  sig_risk_profile : RiskProfile;
  sig_ts_ns : Z;
}.

Record OrderIntent := mk_OrderIntent {
  oi_correlation_id : list Z;
  oi_symbol : Z;
  oi_side : Z;
  oi_quantity : Z;
  oi_order_type : Z;
  oi_limit_paise : Z;
  oi_exchange : Z;
}.

Record LatencyRecord := mk_LatencyRecord {
  lr_correlation_id : list Z;
  lr_stage : Z;
  lr_nanos : Z;
  lr_budget_nanos : Z;
  lr_breach : bool;
}.

Record Tick := mk_Tick {
  tk_correlation_id : list Z;
  tk_symbol : Z;
  tk_exchange : Z;
  ltp_paise : Z;
  bid_paise : Z;
  ask_paise : Z;
  ltq : Z;
  total_buy_qty : Z;
  total_sell_qty : Z;
  ts_exchange_ns : Z;
  ts_recv_ns : Z;
}.

Record BookLevel := mk_BookLevel { price_paise : Z; qty : Z; orders : Z }.

(** Levels from best to worst. *)
Record OrderBook := mk_OrderBook {
  ob_correlation_id : list Z;
  ob_symbol : Z;
  ob_exchange : Z;
  ob_bid_levels : list BookLevel;
  ob_ask_levels : list BookLevel;
  ob_ts_ns : Z;
}.

Record FeatureSnapshot := mk_FeatureSnapshot {
  fs_correlation_id : list Z;
  fs_symbol : Z;
  price : Z;
  vwap : Z;
  atr : Z;
  ema_fast : Z;
  ema_slow : Z;
  ema_trend : Z;
  ema_slope : f32;
  realized_vol : f32;
  momentum : f32;
  rsi : f32;
  adx : f32;
  donchian_upper : Z;
  donchian_lower : Z;
  rolling_delta : Z;
  liquidity_imbalance : f32;
  orderflow_strength : f32;
  candle_structure : Z;
  breakout_pressure : f32;
  compression_zone : f32;
  liquidity_sweep : f32;
  fs_ts_ns : Z;
}.

(** Every tag table is a bijection between the variants and the bytes [from_u8]
    accepts, so [as_u8] is a faithful wire encoding. *)
Definition tag_codec {A} (from : Z -> option A) (to : A -> Z) : Prop :=
  (forall a, from (to a) = Some a /\ u8_ok (to a)) /\ (forall b a, from b = Some a -> to a = b).

Lemma tag_codec_inj {A} from (to : A -> Z) :
  tag_codec from to -> forall a b, to a = to b -> a = b.
Proof. intros [H _] a b E. pose proof (proj1 (H a)) as Ha. rewrite E, (proj1 (H b)) in Ha. congruence. Qed.

(** Case analysis on a byte literal compared by a [match]. *)
Ltac byte_cases b :=
  destruct b as [| p | p]; try done; repeat (destruct p as [p | p |]; try done).

(** For each wire enum, [from_u8 (as_u8 v)] gives back [v], every tag is a byte, and
    any byte [from_u8] accepts is the tag of the variant it returns. *)
Theorem wire_enums_roundtrip :
  tag_codec Stage.from_u8 Stage.as_u8
  /\ tag_codec OrderLifecycleState.from_u8 OrderLifecycleState.as_u8
  /\ tag_codec StrategyId.from_u8 StrategyId.as_u8
  /\ tag_codec RejectionReason.from_u8 RejectionReason.as_u8.
Proof.
  repeat split; try (destruct a; done || (unfold u8_ok; simpl; lia)).
  all: intros b a; byte_cases b; by intros [= <-].
Qed.
