(* ===== verification/BrokerApi.v ===== *)
(** crates/hedge-broker-api/src/lib.rs: the broker-agnostic order types, the error
    classes that drive retry and failover, and the [BrokerAdapter] interface that the
    execution engine is written against. *)

From S2P Require Import Prelude Core Schemas.

Module OrderType.
Inductive t := Market | Limit.
Definition from_u8 (byte : Z) : option t :=
  match byte with 0 => Some Market | 1 => Some Limit | _ => None end.
Definition as_u8 (o : t) : Z := match o with Market => 0 | Limit => 1 end.
#[global] Instance eq_dec : EqDecision t.
Proof. solve_decision. Defined.
End OrderType.

Module Exchange.
Inductive t := Nse | Bse.
Definition from_i8 (byte : Z) : option t :=
  match byte with 0 => Some Nse | 1 => Some Bse | _ => None end.
Definition as_i8 (e : t) : Z := match e with Nse => 0 | Bse => 1 end.
Definition as_str (e : t) : string := match e with Nse => "NSE" | Bse => "BSE" end.
#[global] Instance eq_dec : EqDecision t.
Proof. solve_decision. Defined.
End Exchange.

(** The broker-agnostic order ([OrderIntent] of this crate). *)
Record BrokerOrder := mk_BrokerOrder {
  bo_correlation_id : CorrelationId.t;
  bo_symbol_raw : Z;
  bo_side : Side.t;
  bo_quantity : Qty.t;
  bo_order_type : OrderType.t;
  bo_limit_paise : Z;
  bo_exchange : Exchange.t;
}.

Record OrderModification := mk_OrderModification {
  om_broker_order_id : string;
  om_new_quantity : option Qty.t;
  om_new_limit_paise : option Z;
}.

Record SubmitAck := mk_SubmitAck {
  ack_broker_order_id : string;
  ack_broker_ts_ns : option Z;
}.

Record OrderStatus := mk_OrderStatus {
  os_broker_order_id : string;
  os_state : OrderLifecycleState.t;
  os_filled_qty : Qty.t;
  os_avg_fill_paise : Z;
  os_broker_ts_ns : option Z;
}.

Module BrokerError.
Inductive t :=
| NotReady (reason : string)
| Rejected (reason : string)
| Transient (reason : string)
| Network (reason : string)
| Http (status : Z) (body : string)
| Auth (reason : string)
| InvalidApprovalToken
| UnknownOrderId (id : string)
| Internal (reason : string).

Definition is_retryable (e : t) : bool :=
  match e with Transient _ | Network _ => true | _ => false end.

Definition counts_toward_failover (e : t) : bool :=
  match e with Transient _ | Network _ | Http _ _ | Rejected _ => true | _ => false end.

(** [Display], from the [#[error(...)]] attributes. *)
Definition to_string (e : t) : string :=
  match e with
  | NotReady s => "broker not ready: " +:+ s
  | Rejected s => "broker rejected: " +:+ s
  | Transient s => "broker transient error: " +:+ s
  | Network s => "network error: " +:+ s
  | Http status body => "http " +:+ pretty status +:+ ": " +:+ body
  | Auth s => "auth failure: " +:+ s
  | InvalidApprovalToken => "invalid approval token"
  | UnknownOrderId s => "unknown order id: " +:+ s
  | Internal s => "internal adapter error: " +:+ s
  end.

Lemma retryable_counts e : is_retryable e = true -> counts_toward_failover e = true.
Proof. by destruct e. Qed.
End BrokerError.

Module ReadyState.
Inductive t := Ready | ConfigError (reason : string) | Disconnected (reason : string).
Definition is_ready (r : t) : bool := match r with Ready => true | _ => false end.
Definition is_unready (r : t) : bool := negb (is_ready r).
Definition to_string (r : t) : string :=
  match r with
  | Ready => "Ready"
  | ConfigError s => "ConfigError(" +:+ s +:+ ")"
  | Disconnected s => "Disconnected(" +:+ s +:+ ")"
  end.
End ReadyState.

Module BrokerOp.
Inductive t := Submit | Modify | Cancel | Status | Ready.
Definition as_str (o : t) : string :=
  match o with
  | Submit => "submit" | Modify => "modify" | Cancel => "cancel"
  | Status => "status" | Ready => "ready"
  end.
#[global] Instance eq_dec : EqDecision t.
Proof. solve_decision. Defined.
End BrokerOp.

Record BrokerMetric := mk_BrokerMetric {
  bm_broker_id : BrokerId.t;
  bm_correlation_id : CorrelationId.t;
  bm_op : BrokerOp.t;
  bm_latency_ns : Z;
  bm_error : bool;
  bm_http_status : option Z;
  bm_ts_ns : Z;
}.

Definition broker_id_token (broker : BrokerId.t) : string :=
  match broker with
  | BrokerId.Zerodha => "zerodha" | BrokerId.Dhan => "dhan"
  | BrokerId.Shoonya => "shoonya" | BrokerId.AngelOne => "angel_one"
  | BrokerId.Upstox => "upstox" | BrokerId.Simulated => "simulated"
  end.

Definition broker_metric_subject (broker : BrokerId.t) : string :=
  "broker.metric." +:+ broker_id_token broker.

(** [dyn BrokerAdapter]: the operations of one broker over a shared world [W]
    (the brokers' remote state).  Each runs to completion before the caller
    continues, as the engine [await]s every call. *)
Record BrokerAdapter (W : Type) := mk_BrokerAdapter {
  ba_broker_id : BrokerId.t;
  ba_submit : BrokerOrder -> SE W BrokerError.t SubmitAck;
  ba_modify : OrderModification -> SE W BrokerError.t unit;
  ba_cancel : string -> SE W BrokerError.t unit;
  ba_status : string -> SE W BrokerError.t OrderStatus;
  ba_ready : W -> ReadyState.t * W;
}.
Arguments mk_BrokerAdapter {W}.
Arguments ba_broker_id {W} _.
Arguments ba_submit {W} _ _.
Arguments ba_modify {W} _ _.
Arguments ba_cancel {W} _ _.
Arguments ba_status {W} _ _.
Arguments ba_ready {W} _ _.
