(* ===== verification/KillSwitch.v ===== *)
(** crates/hedge-risk/src/kill_switch.rs: the latched switch, as the sequential
    operations and as the interleaving of the atomic steps concurrent callers take. *)

From S2P Require Import Prelude.

Module KillReason.
Inductive t :=
| MaxDrawdown | TraderRequest | PsychologyCritical | SupervisorHalt | AiGovernanceCritical.
Definition as_str (r : t) : string :=
  match r with
  | MaxDrawdown => "max_drawdown" | TraderRequest => "trader_request"
  | PsychologyCritical => "psychology_critical" | SupervisorHalt => "supervisor_halt"
  | AiGovernanceCritical => "ai_governance_critical"
  end.
#[global] Instance eq_dec : EqDecision t.
Proof. solve_decision. Defined.
End KillReason.

Module KillSwitchState.

(** [active : AtomicBool], [reason : Mutex<Option<KillReason>>]. *)
Record t := mk { active : bool; reason : option KillReason.t }.

Definition new : t := mk false None.
Definition is_active (k : t) : bool := active k.

(** [activate]: the returned boolean is the [false -> true] edge. *)
Definition activate (k : t) (r : KillReason.t) : bool * t :=
  let transitioned := negb (active k) in
  let k := mk true (reason k) in
  (transitioned, if transitioned then mk (active k) (Some r) else k).

Definition reset (k : t) : t :=
  let k := mk (active k) None in
  mk false (reason k).

Lemma activate_latches k r : is_active (snd (activate k r)) = true.
Proof. unfold activate. by destruct (active k). Qed.

Lemma activate_edge k r :
  fst (activate k r) = true <-> is_active k = false.
Proof. unfold activate, is_active. by destruct (active k). Qed.

Lemma activate_active k r : is_active k = true -> activate k r = (false, k).
Proof. destruct k as [[] rs]; [done | done]. Qed.

End KillSwitchState.

(** ** Concurrent callers

    [activate] is two atomic steps: the [compare_exchange] of [active], then,
    only for the winner, the store of [reason] under its mutex.  [reset] is two
    as well: [reason] first, then [active].  A system is the shared switch and
    one program counter per call. *)

Module KillSwitchConc.
Import KillSwitchState.

Inductive pc :=
| ActStart (r : KillReason.t)   (* before the compare_exchange *)
| ActWon (r : KillReason.t)     (* the exchange succeeded, the reason is not stored yet *)
| ActDone (edge : bool)         (* returned [edge] *)
| RstStart                      (* before the reason is cleared *)
| RstMid                        (* reason cleared, flag not stored yet *)
| RstDone.

Definition sys : Type := t * list pc.

Inductive step : sys -> sys -> Prop :=
| step_cas_ok k ts i r :
    ts !! i = Some (ActStart r) -> active k = false ->
    step (k, ts) (mk true (reason k), <[i:=ActWon r]> ts)
| step_cas_fail k ts i r :
    ts !! i = Some (ActStart r) -> active k = true ->
    step (k, ts) (k, <[i:=ActDone false]> ts)
| step_reason k ts i r :
    ts !! i = Some (ActWon r) ->
    step (k, ts) (mk (active k) (Some r), <[i:=ActDone true]> ts)
| step_rst_reason k ts i :
    ts !! i = Some RstStart ->
    step (k, ts) (mk (active k) None, <[i:=RstMid]> ts)
| step_rst_active k ts i :
    ts !! i = Some RstMid ->
    step (k, ts) (mk false (reason k), <[i:=RstDone]> ts).

(** A call that has taken, or is about to return, the edge. *)
Definition is_winner (p : pc) : bool :=
  match p with ActWon _ | ActDone true => true | _ => false end.
Definition is_reset (p : pc) : bool :=
  match p with RstStart | RstMid | RstDone => true | _ => false end.
Definition is_done (p : pc) : bool :=
  match p with ActDone _ | RstDone => true | _ => false end.

Definition winners (ts : list pc) : nat := length (List.filter is_winner ts).

Lemma elem_of_insert_pc (ts : list pc) i p q :
  p ∈ <[i:=q]> ts -> p = q \/ p ∈ ts.
Proof.
  intros [j Hj]%list_elem_of_lookup. apply list_lookup_insert_Some in Hj as [(_ & <- & _) | [_ Hj]].
  - by left.
  - right. by eapply list_elem_of_lookup_2.
Qed.

Lemma elem_of_inserted (ts : list pc) i p q : ts !! i = Some p -> q ∈ <[i:=q]> ts.
Proof.
  intros Hi. eapply list_elem_of_lookup_2, list_lookup_insert_eq. by eapply lookup_lt_Some.
Qed.

(** Activations [rs] alone: nothing has happened; or one call owns the edge and has
    not stored its reason yet; or it has, and no call is left between its two steps. *)
Inductive inv (rs : list KillReason.t) : sys -> Prop :=
| inv_idle ts :
    (forall p, p ∈ ts -> exists r, p = ActStart r /\ r ∈ rs) ->
    inv rs (new, ts)
| inv_won ts i r0 :
    ts !! i = Some (ActWon r0) -> r0 ∈ rs ->
    (forall j p, j <> i -> ts !! j = Some p ->
       (exists r, p = ActStart r) \/ p = ActDone false) ->
    inv rs (mk true None, ts)
| inv_stored ts i r0 :
    ts !! i = Some (ActDone true) -> r0 ∈ rs ->
    (forall j p, j <> i -> ts !! j = Some p ->
       (exists r, p = ActStart r) \/ p = ActDone false) ->
    inv rs (mk true (Some r0), ts).

Lemma inv_init rs : inv rs (new, ActStart <$> rs).
Proof. constructor. intros p [r [-> Hr]]%list_elem_of_fmap. eauto. Qed.

(** Every step but the winner's own keeps the other counters in their two states. *)
Lemma others_insert (ts : list pc) i j q :
  (forall j' p, j' <> i -> ts !! j' = Some p -> (exists r, p = ActStart r) \/ p = ActDone false) ->
  (exists r, q = ActStart r) \/ q = ActDone false \/ j = i ->
  forall j' p, j' <> i -> <[j:=q]> ts !! j' = Some p ->
  (exists r, p = ActStart r) \/ p = ActDone false.
Proof.
  intros H Hq j' p Hj' Hl. apply list_lookup_insert_Some in Hl as [(-> & <- & _) | [_ Hl]].
  - destruct Hq as [Hq | [Hq | Hq]]; [by left | by right | done].
  - exact (H j' p Hj' Hl).
Qed.

Lemma inv_step rs s s' : inv rs s -> step s s' -> inv rs s'.
Proof.
  intros Hinv Hs.
  inversion Hinv as [ts H | ts i0 r0 Hi0 Hr0 H | ts i0 r0 Hi0 Hr0 H]; subst; clear Hinv;
    inversion Hs as [k ts' i r Hi Ha | k ts' i r Hi Ha | k ts' i r Hi
                    | k ts' i Hi | k ts' i Hi]; subst; simpl in *; try done.
  all: try (destruct (H _ (list_elem_of_lookup_2 _ _ _ Hi)) as (r' & E & Hin); simplify_eq).
  all: try (destruct (decide (i = i0)) as [-> | Hne]; [simplify_eq |
            destruct (H _ _ Hne Hi) as [[? ?] | ?]; simplify_eq]).
  - apply (inv_won _ _ i r'); [by eapply list_lookup_insert_eq, lookup_lt_Some | done |].
    intros j p Hj Hl. rewrite list_lookup_insert_ne in Hl by done.
    destruct (H _ (list_elem_of_lookup_2 _ _ _ Hl)) as (r & -> & _). eauto.
  - apply (inv_won _ _ i0 r0); [by rewrite list_lookup_insert_ne | done |].
    eapply others_insert; eauto.
  - apply (inv_stored _ _ i0 r0); [by eapply list_lookup_insert_eq, lookup_lt_Some | done |].
    eapply others_insert; eauto.
  - apply (inv_stored _ _ i0 r0); [by rewrite list_lookup_insert_ne | done |].
    eapply others_insert; eauto.
Qed.

Lemma inv_reachable rs s : rtc step (new, ActStart <$> rs) s -> inv rs s.
Proof.
  revert s. apply (rtc_ind_r (inv rs)).
  - apply inv_init.
  - intros y z _ Hyz IH. exact (inv_step _ _ _ IH Hyz).
Qed.

Lemma step_length k ts k' ts' : step (k, ts) (k', ts') -> length ts' = length ts.
Proof. inversion 1; subst; apply length_insert. Qed.

Lemma winners_zero ts : (forall p, p ∈ ts -> is_winner p = false) -> winners ts = 0%nat.
Proof.
  unfold winners. induction ts as [| p ts IH]; intros H; simpl; [done |].
  rewrite (H p) by set_solver. apply IH. set_solver.
Qed.

(** One winner at [i], none elsewhere. *)
Lemma winners_one ts i p : ts !! i = Some p -> is_winner p = true ->
  (forall j q, j <> i -> ts !! j = Some q -> is_winner q = false) -> winners ts = 1%nat.
Proof.
  unfold winners. revert i. induction ts as [| x ts IH]; intros [| i] Hi Hp H; simplify_eq/=.
  - rewrite Hp. simpl. f_equal. apply winners_zero. intros q [j Hj]%list_elem_of_lookup.
    apply (H (S j) q); [done | exact Hj].
  - rewrite (H 0%nat x) by done. eapply IH; [exact Hi | done |].
    intros j q Hj Hl. apply (H (S j) q); [congruence | exact Hl].
Qed.

End KillSwitchConc.

(** C31: however any number of concurrent [activate] calls interleave, at most one of
    them takes the [false -> true] edge; and once all of them have returned (and there
    was at least one) exactly one returned [true], the switch is active, and the reason
    recorded is one that was passed in. *)
Theorem killswitch_edge_exactly_once (rs : list KillReason.t) k ts :
  rtc KillSwitchConc.step (KillSwitchState.new, KillSwitchConc.ActStart <$> rs) (k, ts) ->
  (KillSwitchConc.winners ts <= 1)%nat
  /\ (rs <> [] -> length ts = length rs ->
      Forall (fun p => KillSwitchConc.is_done p = true) ts ->
      KillSwitchConc.winners ts = 1%nat
      /\ KillSwitchState.is_active k = true
      /\ exists r, r ∈ rs /\ KillSwitchState.reason k = Some r).
Proof.
  intros Hr. apply KillSwitchConc.inv_reachable in Hr.
  inversion Hr as [ts' H | ts' i0 r0 Hi0 Hr0 H | ts' i0 r0 Hi0 Hr0 H]; subst.
  - rewrite KillSwitchConc.winners_zero; [| intros p (? & -> & _)%H; done].
    split; [lia |]. intros Hne Hlen Hd. destruct ts as [| p ts]; [by destruct rs |].
    destruct (H p) as (? & -> & _); [set_solver |]. by apply Forall_cons in Hd as [? _].
  - rewrite (KillSwitchConc.winners_one ts i0 _ Hi0); [| done |
      intros j q Hj Hl; by destruct (H _ _ Hj Hl) as [[? ->] | ->]].
    split; [lia |]. intros _ _ Hd. rewrite Forall_lookup in Hd. by apply Hd in Hi0.
  - rewrite (KillSwitchConc.winners_one ts i0 _ Hi0); [| done |
      intros j q Hj Hl; by destruct (H _ _ Hj Hl) as [[? ->] | ->]].
    split; [lia |]. eauto.
Qed.

Import KillSwitchState KillSwitchConc.

(** Two racing calls, the first wins. *)
Lemma killswitch_race_run :
  rtc step (new, ActStart <$> [KillReason.MaxDrawdown; KillReason.TraderRequest])
    (mk true (Some KillReason.MaxDrawdown), [ActDone true; ActDone false]).
Proof.
  eapply rtc_l; [by eapply (step_cas_ok new _ 0) |].
  eapply rtc_l; [by eapply (step_cas_fail (mk true None) _ 1) |].
  eapply rtc_l; [by eapply (step_reason (mk true None) _ 0) |].
  apply rtc_refl.
Qed.

Lemma killswitch_edge_exactly_once_witness :
  winners [ActDone true; ActDone false] = 1%nat.
Proof.
  apply (killswitch_edge_exactly_once [KillReason.MaxDrawdown; KillReason.TraderRequest] _ _
           killswitch_race_run); [done | done |].
  repeat constructor.
Defined.

(** [reset] does not uphold its ordering argument against a concurrent [activate].
    An activation whose exchange succeeded before the reset stores its reason after it:
    every call has returned, the switch is inactive, and it still holds the reason of
    the activation that the reset undid. *)
Theorem killswitch_reset_race_keeps_stale_reason :
  rtc step (new, [ActStart KillReason.TraderRequest; RstStart])
    (mk false (Some KillReason.TraderRequest), [ActDone true; RstDone]).
Proof.
  eapply rtc_l; [by eapply (step_cas_ok new _ 0) |].
  eapply rtc_l; [by eapply (step_rst_reason (mk true None) _ 1) |].
  eapply rtc_l; [by eapply (step_rst_active (mk true None) _ 1) |].
  eapply rtc_l; [by eapply (step_reason (mk false None) _ 0) |].
  apply rtc_refl.
Qed.
