(* ===== verification/RiskTables.v ===== *)
(** The tables the risk engine keeps in [RiskState]: cooldown.rs, frequency.rs,
    volatility.rs, target.rs and the [BrokerLatencyTable] of state.rs, all of
    crates/hedge-risk. *)

From S2P Require Import Prelude Ieee Core.

(** ** Cooldowns (cooldown.rs) *)

Module Cooldown.

Inductive CooldownReason := Slippage | PsychologyCooldown.
Definition as_str (r : CooldownReason) : string :=
  match r with Slippage => "slippage" | PsychologyCooldown => "psychology_cooldown" end.

Inductive CooldownTransition := Engaged | Extended.

(** [inner : BTreeMap<SymbolId, (expiry_ns, reason)>]. *)
Abbreviation t := (gmap Z (Z * CooldownReason)).
Definition new : t := ∅.

Definition is_cooling (m : t) (symbol now_ns : Z) : bool :=
  match m !! symbol with
  | Some (expiry, _) => now_ns <? expiry
  | None => false
  end.

Definition engage (m : t) (symbol expiry_ns : Z) (reason : CooldownReason)
  : CooldownTransition * t :=
  match m !! symbol with
  | Some entry =>
      (Extended, if entry.1 <? expiry_ns then <[symbol := (expiry_ns, reason)]> m else m)
  | None => (Engaged, <[symbol := (expiry_ns, reason)]> m)
  end.

(** Collect the expired keys in map order, then remove them one by one. *)
Definition expired_at (now_ns : Z) (e : Z * (Z * CooldownReason)) : option Z :=
  if e.2.1 <=? now_ns then Some e.1 else None.
Definition prune (m : t) (now_ns : Z) : list Z * t :=
  let expired := omap (expired_at now_ns) (btree_iter m) in
  (expired, foldl (fun acc sym => delete sym acc) m expired).

Definition active_count (m : t) : nat := size m.
Definition reason_for (m : t) (symbol : Z) : option CooldownReason := snd <$> m !! symbol.

Lemma lookup_delete_list (m : t) l s :
  foldl (fun acc sym => delete sym acc) m l !! s = if decide (s ∈ l) then None else m !! s.
Proof.
  revert m. induction l as [| x l IH]; intros m; simpl; [done |].
  rewrite IH. destruct (decide (s = x)) as [-> | Hne].
  - rewrite lookup_delete_eq, (decide_True _ _ (P := x ∈ x :: l)) by set_solver. by destruct (decide (x ∈ l)).
  - rewrite lookup_delete_ne by done. apply decide_ext. rewrite elem_of_cons. split; [by right | by intros [-> | ?]].
Qed.

Lemma elem_of_expired m now s :
  s ∈ omap (expired_at now) (btree_iter m) <-> exists e r, m !! s = Some (e, r) /\ e <= now.
Proof.
  rewrite list_elem_of_omap. unfold expired_at. split.
  - intros [[k [e r]] [Hin Hx]]. apply elem_of_btree_iter in Hin. simpl in Hx.
    destruct (e <=? now) eqn:E; simplify_eq. bool_to_prop. eauto.
  - intros (e & r & Hm & Hle). exists (s, (e, r)). split; [by apply elem_of_btree_iter |].
    simpl. by rewrite (proj2 (Z.leb_le e now)).
Qed.

Lemma prune_lookup m now s :
  snd (prune m now) !! s =
  match m !! s with Some (e, r) => if e <=? now then None else Some (e, r) | None => None end.
Proof.
  unfold prune. simpl. rewrite lookup_delete_list. case_decide as Hin.
  - apply elem_of_expired in Hin as (e & r & -> & Hle). by rewrite (proj2 (Z.leb_le e now)).
  - destruct (m !! s) as [[e r] |] eqn:Hm; [| done]. destruct (e <=? now) eqn:E; [| done].
    bool_to_prop. exfalso. apply Hin, elem_of_expired. eauto.
Qed.

Lemma prune_is_cooling m now s t : now <= t ->
  is_cooling (snd (prune m now)) s t = is_cooling m s t.
Proof.
  intros H. unfold is_cooling. rewrite prune_lookup. destruct (m !! s) as [[e r] |]; [| done].
  split_ifs; [| done]. symmetry. apply Z.ltb_ge. lia.
Qed.

Lemma engage_is_cooling m s e r s' t :
  is_cooling (snd (engage m s e r)) s' t = is_cooling m s' t || ((s =? s') && (t <? e)).
Proof.
  unfold is_cooling, engage. destruct (Z.eqb_spec s s') as [<- | Hne]; simpl.
  - destruct (m !! s) as [[e0 r0] |] eqn:Hm; simpl.
    + destruct (e0 <? e) eqn:E; bool_to_prop; rewrite ?lookup_insert_eq, ?Hm; simpl; lia.
    + by rewrite lookup_insert_eq.
  - rewrite orb_false_r. destruct (m !! s) as [[e0 r0] |]; simpl;
      [destruct (e0 <? e) |]; by rewrite ?lookup_insert_ne by done.
Qed.

(** A history of the registry: what the engine did to it, oldest first. *)
Inductive op := OpEngage (s e : Z) (r : CooldownReason) | OpPrune (now : Z).
Definition run_op (m : t) (o : op) : t :=
  match o with OpEngage s e r => snd (engage m s e r) | OpPrune n => snd (prune m n) end.
Definition engaged_past (s t : Z) (o : op) : bool :=
  match o with OpEngage s' e _ => (s' =? s) && (t <? e) | OpPrune _ => false end.

Lemma run_is_cooling ops s t :
  (forall n, OpPrune n ∈ ops -> n <= t) ->
  is_cooling (foldl run_op new ops) s t = existsb (engaged_past s t) ops.
Proof.
  induction ops as [| o ops IH] using rev_ind; intros H; [done |].
  rewrite foldl_app, existsb_app. simpl. rewrite orb_false_r, <- IH by set_solver.
  destruct o as [s' e r | n]; simpl.
  - apply engage_is_cooling.
  - rewrite orb_false_r. apply prune_is_cooling. set_solver.
Qed.
End Cooldown.

(** After any sequence of [engage] and [prune] calls whose prunes happened at or
    before [t], a symbol is cooling at [t] exactly when some [engage] on it set an expiry
    after [t]: engaging never shortens a cooldown and pruning is invisible to the gate. *)
Theorem cooldown_history_exact (ops : list Cooldown.op) (s t : Z) :
  (forall n, Cooldown.OpPrune n ∈ ops -> n <= t) ->
  Cooldown.is_cooling (foldl Cooldown.run_op Cooldown.new ops) s t
  = existsb (Cooldown.engaged_past s t) ops.
Proof. apply Cooldown.run_is_cooling. Qed.

Lemma cooldown_history_exact_witness :
  Cooldown.is_cooling
    (foldl Cooldown.run_op Cooldown.new
       [Cooldown.OpEngage 7 100 Cooldown.Slippage; Cooldown.OpPrune 40;
        Cooldown.OpEngage 7 60 Cooldown.Slippage]) 7 90 = true.
Proof.
  rewrite cooldown_history_exact; [reflexivity |].
  intros n Hn. repeat (apply elem_of_cons in Hn as [Hn | Hn]; [simplify_eq; lia |]).
  by apply elem_of_nil in Hn.
Defined.

(** [prune] returns exactly the symbols whose expiry has passed, in ascending order and
    without repetition, and removes exactly those entries. *)
Theorem cooldown_prune_exact (m : Cooldown.t) (now : Z) :
  let '(expired, m') := Cooldown.prune m now in
  (forall s, s ∈ expired <-> exists e r, m !! s = Some (e, r) /\ e <= now)
  /\ (forall s, m' !! s = match m !! s with
                          | Some (e, r) => if e <=? now then None else Some (e, r)
                          | None => None
                          end)
  /\ StronglySorted Z.lt expired.
Proof.
  destruct (Cooldown.prune m now) as [expired m'] eqn:E.
  assert (expired = omap (Cooldown.expired_at now) (btree_iter m)) as ->
    by (by unfold Cooldown.prune in E; simplify_eq).
  split; [intros s; apply Cooldown.elem_of_expired |]. split.
  - intros s. pose proof (Cooldown.prune_lookup m now s) as H. by rewrite E in H.
  - pose proof (btree_keys_strict m) as Hs. unfold btree_keys in Hs. revert Hs. clear.
    induction (btree_iter m) as [| [k [e r]] l IH]; simpl; intros Hs; [constructor |].
    apply StronglySorted_inv in Hs as [Hs Hf]. simpl.
    unfold Cooldown.expired_at at 1. simpl. destruct (e <=? now); simpl; [| by apply IH].
    constructor; [by apply IH |]. rewrite Forall_forall in Hf |- *.
    intros x [[k' [e' r']] [Hin Hx]]%list_elem_of_omap. unfold Cooldown.expired_at in Hx.
    simpl in Hx. destruct (e' <=? now); simplify_eq. apply Hf.
    apply list_elem_of_fmap. by exists (x, (e', r')).
Qed.

(** ** Trade frequency (frequency.rs) *)

Module Frequency.

Definition PER_MINUTE_CAP : nat := 8.
Definition PER_HOUR_CAP : nat := 64.
Definition PER_SESSION_CAP : nat := 128.
Definition NS_PER_MINUTE : Z := 60 * 1000000000.
Definition NS_PER_HOUR : Z := 60 * NS_PER_MINUTE.

Record t := mk {
  minute : RingWindow.t Z;
  hour : RingWindow.t Z;
  session : RingWindow.t Z;
  cached_minute_count : Z;
  cached_hour_count : Z;
  cached_session_count : Z;
}.

(** [RingWindow::new] panics on a zero capacity, hence the option. *)
Definition new : option t :=
  m ← RingWindow.new PER_MINUTE_CAP 0;
  h ← RingWindow.new PER_HOUR_CAP 0;
  s ← RingWindow.new PER_SESSION_CAP 0;
  Some (mk m h s 0 0 0).

Definition live (now_ns window_ns ts : Z) : bool := u64_sat_sub now_ns ts <=? window_ns.

(** [count] is a [u32] that is incremented at most once per slot. *)
Definition live_count (ring : RingWindow.t Z) (now_ns window_ns : Z) : Z :=
  foldl (fun count ts => if live now_ns window_ns ts then as_u32 (count + 1) else count)
    0 (RingWindow.iter ring).

Definition would_breach (c : t) (now_ns max_per_minute max_per_hour max_per_session : Z)
  : bool * t :=
  let m := live_count (minute c) now_ns NS_PER_MINUTE in
  let h := live_count (hour c) now_ns NS_PER_HOUR in
  let s := as_u32 (Z.of_nat (RingWindow.len (session c))) in
  (((as_u32 (m + 1) >? max_per_minute) || (as_u32 (h + 1) >? max_per_hour)
    || (as_u32 (s + 1) >? max_per_session)),
   mk (minute c) (hour c) (session c) m h s).

Definition record (c : t) (now_ns : Z) : t :=
  let mi := RingWindow.push (minute c) now_ns in
  let ho := RingWindow.push (hour c) now_ns in
  let se := RingWindow.push (session c) now_ns in
  mk mi ho se (live_count mi now_ns NS_PER_MINUTE) (live_count ho now_ns NS_PER_HOUR)
    (as_u32 (Z.of_nat (RingWindow.len se))).

Definition reset_session (c : t) : t :=
  mk (minute c) (hour c) (RingWindow.clear (session c))
    (cached_minute_count c) (cached_hour_count c) 0.

Definition count_minute (c : t) : Z := cached_minute_count c.
Definition count_hour (c : t) : Z := cached_hour_count c.
Definition count_session (c : t) : Z := cached_session_count c.

(** The reference: unbounded histories of admissions. *)
Inductive op := Rec (ts : Z) | Reset.
Definition run_op (c : t) (o : op) : t :=
  match o with Rec ts => record c ts | Reset => reset_session c end.
Definition history (ops : list op) : list Z :=
  omap (fun o => match o with Rec ts => Some ts | Reset => None end) ops.
Definition session_step (l : list Z) (o : op) : list Z :=
  match o with Rec ts => l ++ [ts] | Reset => [] end.
Definition session_history (ops : list op) : list Z := foldl session_step [] ops.
Definition count_live (now window : Z) (l : list Z) : nat :=
  length (List.filter (live now window) l).

Definition spec_breach (ops : list op) (now mpm mph mps : Z) : bool :=
  (Z.of_nat (count_live now NS_PER_MINUTE (history ops)) + 1 >? mpm)
  || (Z.of_nat (count_live now NS_PER_HOUR (history ops)) + 1 >? mph)
  || (Z.of_nat (length (session_history ops)) + 1 >? mps).

Lemma live_mono now w a b : a <= b -> live now w a = true -> live now w b = true.
Proof. unfold live. sat_lia. Qed.

Lemma count_live_app now w l1 l2 :
  count_live now w (l1 ++ l2) = (count_live now w l1 + count_live now w l2)%nat.
Proof. unfold count_live. by rewrite List.filter_app, length_app. Qed.

Lemma count_live_le now w l : (count_live now w l <= length l)%nat.
Proof.
  unfold count_live. induction l as [| x l IH]; simpl; [lia |].
  destruct (live now w x); simpl; lia.
Qed.

Lemma count_live_all now w l : (forall x, x ∈ l -> live now w x = true) ->
  count_live now w l = length l.
Proof.
  unfold count_live. induction l as [| x l IH]; intros H; simpl; [done |].
  rewrite (H x) by set_solver. simpl. f_equal. apply IH. set_solver.
Qed.

Lemma count_live_none now w l : (forall x, x ∈ l -> live now w x = false) ->
  count_live now w l = 0%nat.
Proof.
  unfold count_live. induction l as [| x l IH]; intros H; simpl; [done |].
  rewrite (H x) by set_solver. apply IH. set_solver.
Qed.

Lemma StronglySorted_app_le (l1 l2 : list Z) x y :
  StronglySorted Z.le (l1 ++ l2) -> x ∈ l1 -> y ∈ l2 -> x <= y.
Proof.
  induction l1 as [| a l1 IH]; intros Hs Hx Hy; [by apply elem_of_nil in Hx |].
  apply StronglySorted_inv in Hs as [Hs Hf]. apply elem_of_cons in Hx as [-> | Hx]; [| eauto].
  rewrite Forall_forall in Hf. apply Hf. set_solver.
Qed.

(** In a sorted history the live entries are a suffix, so a window of [n] slots sees
    all of them unless it is full of live ones. *)
Lemma count_live_last_n now w n l : StronglySorted Z.le l ->
  count_live now w (RingWindow.last_n n l) = (n `min` count_live now w l)%nat.
Proof.
  intros Hs. unfold RingWindow.last_n. set (k := (length l - n)%nat).
  rewrite <- (take_drop k l) in Hs. rewrite <- (take_drop k l) at 2. rewrite count_live_app.
  pose proof (count_live_le now w (drop k l)) as Hle.
  assert (length (drop k l) = (n `min` length l)%nat) as Hlen by (rewrite length_drop; lia).
  destruct (decide (Exists (fun x => live now w x = true) (take k l))) as [Hex | Hno];
    rewrite Exists_exists in *; [destruct Hex as (x & Hx & Hlive) |].
  - rewrite (count_live_all now w (drop k l)).
    + assert (k <> 0%nat) by (intros E; rewrite E, take_0 in Hx; by apply elem_of_nil in Hx). lia.
    + intros y Hy. eapply live_mono; [| exact Hlive]. by eapply StronglySorted_app_le.
  - rewrite (count_live_none now w (take k l)); [lia |].
    intros x Hx. destruct (live now w x) eqn:E; [| done]. naive_solver.
Qed.

Lemma live_count_spec ring now w : (Z.of_nat (length (RingWindow.iter ring)) <= u32_max) ->
  live_count ring now w = Z.of_nat (count_live now w (RingWindow.iter ring)).
Proof.
  unfold live_count, count_live. intros Hlen.
  enough (forall l acc, 0 <= acc -> acc + Z.of_nat (length l) <= u32_max ->
    foldl (fun count ts => if live now w ts then as_u32 (count + 1) else count) acc l
    = acc + Z.of_nat (length (List.filter (live now w) l))) as H by (apply H; lia).
  clear. induction l as [| x l IH]; intros acc H0 Hle; simpl in *; [lia |].
  destruct (live now w x); simpl.
  - rewrite as_u32_id by (unfold u32_ok; lia). rewrite IH by lia. lia.
  - apply IH; lia.
Qed.

(** The rings hold the most recent admissions. *)
Definition rep (c : t) (ops : list op) : Prop :=
  RingWindow.wf (minute c) /\ RingWindow.cap (minute c) = PER_MINUTE_CAP
  /\ RingWindow.iter (minute c) = RingWindow.last_n PER_MINUTE_CAP (history ops)
  /\ RingWindow.wf (hour c) /\ RingWindow.cap (hour c) = PER_HOUR_CAP
  /\ RingWindow.iter (hour c) = RingWindow.last_n PER_HOUR_CAP (history ops)
  /\ RingWindow.wf (session c) /\ RingWindow.cap (session c) = PER_SESSION_CAP
  /\ RingWindow.iter (session c) = RingWindow.last_n PER_SESSION_CAP (session_history ops).

Lemma push_rep (w : RingWindow.t Z) N l ts :
  RingWindow.wf w -> RingWindow.cap w = N -> RingWindow.iter w = RingWindow.last_n N l ->
  RingWindow.wf (RingWindow.push w ts) /\ RingWindow.cap (RingWindow.push w ts) = N
  /\ RingWindow.iter (RingWindow.push w ts) = RingWindow.last_n N (l ++ [ts]).
Proof.
  intros Hwf <- Hi. destruct (RingWindow.pushes_spec [ts] w Hwf l Hi) as (? & ? & ?). done.
Qed.

Lemma rep_step c ops o : rep c ops -> rep (run_op c o) (ops ++ [o]).
Proof.
  intros (Hm & Hmc & Hmi & Hh & Hhc & Hhi & Hs & Hsc & Hsi).
  unfold rep, history, session_history. rewrite omap_app, foldl_app.
  fold (history ops) (session_history ops). destruct o as [ts |]; simpl.
  - destruct (push_rep _ _ _ ts Hm Hmc Hmi) as (? & ? & ?).
    destruct (push_rep _ _ _ ts Hh Hhc Hhi) as (? & ? & ?).
    destruct (push_rep _ _ _ ts Hs Hsc Hsi) as (? & ? & ?). done.
  - rewrite app_nil_r. repeat (split; [first [done | by apply RingWindow.clear_wf] |]).
    unfold RingWindow.iter, RingWindow.is_full. simpl. rewrite Hsc. by rewrite take_0.
Qed.

Lemma rep_run c0 ops : new = Some c0 -> rep (foldl run_op c0 ops) ops.
Proof.
  intros [= <-]. induction ops as [| o ops IH] using rev_ind.
  - pose proof (proj1 (RingWindow.new_wf PER_MINUTE_CAP 0 _ eq_refl)).
    pose proof (proj1 (RingWindow.new_wf PER_HOUR_CAP 0 _ eq_refl)).
    pose proof (proj1 (RingWindow.new_wf PER_SESSION_CAP 0 _ eq_refl)).
    by unfold rep; split_and!.
  - rewrite foldl_app. by apply rep_step.
Qed.

Lemma rep_breach c ops now mpm mph mps : rep c ops -> StronglySorted Z.le (history ops) ->
  fst (would_breach c now mpm mph mps) =
  (Z.of_nat (8 `min` count_live now NS_PER_MINUTE (history ops)) + 1 >? mpm)
  || (Z.of_nat (64 `min` count_live now NS_PER_HOUR (history ops)) + 1 >? mph)
  || (Z.of_nat (128 `min` length (session_history ops)) + 1 >? mps).
Proof.
  intros (Hm & Hmc & Hmi & Hh & Hhc & Hhi & Hs & Hsc & Hsi) Hsort.
  unfold would_breach. cbn [fst].
  rewrite !live_count_spec by
    (rewrite ?Hmi, ?Hhi, RingWindow.last_n_length; unfold u32_max, PER_MINUTE_CAP, PER_HOUR_CAP; lia).
  rewrite Hmi, Hhi, !count_live_last_n by done.
  rewrite <- (RingWindow.iter_length _ Hs), Hsi, RingWindow.last_n_length.
  unfold PER_MINUTE_CAP, PER_HOUR_CAP, PER_SESSION_CAP.
  rewrite (as_u32_id (Z.of_nat (128 `min` _))) by (unfold u32_ok, u32_max; lia).
  rewrite !as_u32_id by (unfold u32_ok, u32_max; lia). done.
Qed.
End Frequency.

(** For limits the rings can hold (at most 8 per minute, 64 per hour and 128 per
    session) and admissions recorded in time order, [would_breach] answers exactly as
    counters over the whole unbounded history would. *)
Theorem frequency_equals_unbounded_history (ops : list Frequency.op) c0 (now mpm mph mps : Z) :
  Frequency.new = Some c0 ->
  StronglySorted Z.le (Frequency.history ops) ->
  mpm <= 8 -> mph <= 64 -> mps <= 128 ->
  fst (Frequency.would_breach (foldl Frequency.run_op c0 ops) now mpm mph mps)
  = Frequency.spec_breach ops now mpm mph mps.
Proof.
  intros Hn Hs H1 H2 H3. rewrite (Frequency.rep_breach _ ops) by eauto using Frequency.rep_run.
  unfold Frequency.spec_breach. f_equal; [f_equal |]; rewrite !Z.gtb_ltb;
    apply eq_true_iff_eq; rewrite !Z.ltb_lt; lia.
Qed.

Lemma frequency_equals_unbounded_history_witness :
  exists c0, Frequency.new = Some c0 /\
  fst (Frequency.would_breach
         (foldl Frequency.run_op c0 (Frequency.Rec <$> [1; 2; 3; 4])) 5 4 30 60) = true.
Proof.
  eexists. split; [reflexivity |].
  rewrite (frequency_equals_unbounded_history (Frequency.Rec <$> [1; 2; 3; 4])
             _ 5 4 30 60 eq_refl); [reflexivity | | lia | lia | lia].
  apply Sorted_StronglySorted; [intros ???; lia |]. repeat constructor; lia.
Defined.

(** Limits above the inline capacities are not enforced at all.  With
    [max_trades_per_minute >= 9], [max_trades_per_hour >= 65] and
    [max_trades_per_session >= 129] the gate never rejects, however many trades were
    admitted. *)
Theorem frequency_limits_above_capacity_never_reject
  (ops : list Frequency.op) c0 (now mpm mph mps : Z) :
  Frequency.new = Some c0 ->
  StronglySorted Z.le (Frequency.history ops) ->
  9 <= mpm -> 65 <= mph -> 129 <= mps ->
  fst (Frequency.would_breach (foldl Frequency.run_op c0 ops) now mpm mph mps) = false.
Proof.
  intros Hn Hs H1 H2 H3. rewrite (Frequency.rep_breach _ ops) by eauto using Frequency.rep_run.
  rewrite !Z.gtb_ltb. rewrite !(proj2 (Z.ltb_ge _ _)) by lia. done.
Qed.

Lemma frequency_limits_above_capacity_never_reject_witness :
  exists c0, Frequency.new = Some c0 /\
  fst (Frequency.would_breach
         (foldl Frequency.run_op c0 (Frequency.Rec <$> replicate 200 5)) 5 9 65 129) = false.
Proof.
  eexists. split; [reflexivity |].
  apply (frequency_limits_above_capacity_never_reject (Frequency.Rec <$> replicate 200 5)
           _ 5 9 65 129 eq_refl); [| lia | lia | lia].
  apply Sorted_StronglySorted; [intros ???; lia |]. vm_compute. repeat constructor; discriminate.
Defined.

(** ** Realized volatility (volatility.rs) *)

Module Volatility.

Inductive VolatilityTransition := Steady | Blocked | Unblocked.

(** [inner : BTreeMap<SymbolId, f32>]. *)
Abbreviation t := (gmap Z f32).
Definition new : t := ∅.

Definition update (m : t) (symbol : Z) (vol threshold : f32) : VolatilityTransition * t :=
  let prior := m !! symbol in
  let m := <[symbol := vol]> m in
  let was_blocked := unwrap_or false ((fun p => f_gt p threshold) <$> prior) in
  let now_blocked := f_gt vol threshold in
  (match was_blocked, now_blocked with
   | false, true => Blocked
   | true, false => Unblocked
   | _, _ => Steady
   end, m).

Definition is_blocked (m : t) (symbol : Z) (threshold : f32) : bool :=
  match m !! symbol with
  | Some v => f_gt v threshold
  | None => false
  end.

Definition realized_vol (m : t) (symbol : Z) : option f32 := m !! symbol.
Definition len (m : t) : nat := size m.
Definition is_empty (m : t) : bool := (size m =? 0)%nat.

End Volatility.

(** ** Daily profit target (target.rs) *)

Module Target.

(** [hedge_config::PostTargetPolicy]. *)
Inductive PostTargetPolicy := ReduceSizeToZero | StopForSession | HalveSize | Continue.
Inductive TargetTransition := Steady | Crossed.

#[global] Instance policy_eq_dec : EqDecision PostTargetPolicy.
Proof. solve_decision. Defined.

Record t := mk {
  realized_pnl_paise : Z;
  upper_band_paise : Z;
  crossed : bool;
  policy : PostTargetPolicy;
}.

Definition new (upper_band_inr : Z) (p : PostTargetPolicy) : t :=
  mk 0 (as_i64 (upper_band_inr * 100)) false p.

Definition reset_session (s : t) : t := mk 0 (upper_band_paise s) false (policy s).

Definition record_realized (s : t) (realized : Z) : TargetTransition * t :=
  let s := mk realized (upper_band_paise s) (crossed s) (policy s) in
  if negb (crossed s) && (realized >=? upper_band_paise s)
  then (Crossed, mk (realized_pnl_paise s) (upper_band_paise s) true (policy s))
  else (Steady, s).

Definition is_reached (s : t) : bool := crossed s.

Definition should_reject (s : t) : bool :=
  crossed s && match policy s with ReduceSizeToZero | StopForSession => true | _ => false end.
Definition should_halve (s : t) : bool :=
  crossed s && match policy s with HalveSize => true | _ => false end.

(** The transitions reported over a sequence of recorded session totals. *)
Fixpoint record_all (s : t) (l : list Z) : list TargetTransition * t :=
  match l with
  | [] => ([], s)
  | x :: l => let '(tr, s1) := record_realized s x in
              let '(trs, s2) := record_all s1 l in (tr :: trs, s2)
  end.

Definition is_crossed (tr : TargetTransition) : bool :=
  match tr with Crossed => true | Steady => false end.

Lemma record_all_latched s l : crossed s = true ->
  List.filter is_crossed (fst (record_all s l)) = [] /\ crossed (snd (record_all s l)) = true.
Proof.
  revert s. induction l as [| x l IH]; intros s Hs; simpl; [done |].
  unfold record_realized. simpl. rewrite Hs. simpl.
  specialize (IH (mk x (upper_band_paise s) true (policy s)) eq_refl).
  by destruct (record_all _ l).
Qed.

Lemma record_all_spec s l : crossed s = false ->
  let hit := existsb (fun x => upper_band_paise s <=? x) l in
  crossed (snd (record_all s l)) = hit
  /\ length (List.filter is_crossed (fst (record_all s l))) = (if hit then 1 else 0)%nat.
Proof.
  revert s. induction l as [| x l IH]; intros s Hs; simpl; [done |].
  unfold record_realized. simpl. rewrite Hs, Z.geb_leb. simpl.
  destruct (upper_band_paise s <=? x) eqn:E; simpl.
  - pose proof (record_all_latched (mk x (upper_band_paise s) true (policy s)) l eq_refl) as [Hf Hc].
    destruct (record_all _ l) as [trs s2]. simpl in *. by rewrite Hf.
  - specialize (IH (mk x (upper_band_paise s) false (policy s)) eq_refl). simpl in IH.
    by destruct (record_all _ l) as [trs s2].
Qed.

Lemma record_all_policy s l : policy (snd (record_all s l)) = policy s.
Proof.
  revert s. induction l as [| x l IH]; intros s; simpl; [done |].
  destruct (record_realized s x) as [tr s1] eqn:E. specialize (IH s1).
  destruct (record_all s1 l) as [trs s2]. simpl in *. rewrite IH.
  unfold record_realized in E. by destruct (negb _ && _); simplify_eq.
Qed.
End Target.

(** Over the totals recorded in a session, [Crossed] is reported at most once, exactly
    when some total reached the upper band; from then on the tracker stays reached and the
    policy decides: two policies reject new entries, one halves them, one does neither. *)
Theorem target_crossed_exactly_once (band : Z) (p : Target.PostTargetPolicy) (totals : list Z) :
  let s0 := Target.new band p in
  let '(trs, s) := Target.record_all s0 totals in
  let hit := existsb (fun x => Target.upper_band_paise s0 <=? x) totals in
  length (List.filter Target.is_crossed trs) = (if hit then 1 else 0)%nat
  /\ Target.is_reached s = hit
  /\ Target.should_reject s =
       hit && bool_decide (p = Target.ReduceSizeToZero \/ p = Target.StopForSession)
  /\ Target.should_halve s = hit && bool_decide (p = Target.HalveSize).
Proof.
  cbv zeta. pose proof (Target.record_all_spec (Target.new band p) totals eq_refl) as [Hc Hl].
  pose proof (Target.record_all_policy (Target.new band p) totals) as Hp.
  destruct (Target.record_all _ totals) as [trs s]. simpl in *.
  unfold Target.is_reached, Target.should_reject, Target.should_halve. rewrite Hc, Hp.
  split; [done |]. split; [done |]. by destruct (existsb _ totals), p.
Qed.

(** ** Broker latency (state.rs) *)

Module BrokerLatency.
(** [inner : BTreeMap<BrokerId, u32>]. *)
Abbreviation t := (gmap BrokerId.t Z).
Definition new : t := ∅.
Definition record (m : t) (broker : BrokerId.t) (latency_ms : Z) : t := <[broker := latency_ms]> m.
Definition is_blocked (m : t) (broker : BrokerId.t) (threshold_ms : Z) : bool :=
  match m !! broker with
  | Some v => v >? threshold_ms
  | None => false
  end.
Definition latency_ms (m : t) (broker : BrokerId.t) : option Z := m !! broker.
End BrokerLatency.
