(* ===== verification/Approval.v ===== *)
(** crates/hedge-risk/src/approval.rs: the canonical 63-byte encoding of an order
    intent, in both of its implementations, and the minting and verification of
    approval tokens over it.  HMAC-SHA256 is the third-party [hmac] / [sha2] code: a
    function argument [hmac key message] returning the digest. *)

From S2P Require Import Prelude Bytes Schemas.

Module Approval.

Definition APPROVAL_TOKEN_BYTES : nat := 32.
Definition INTENT_CANONICAL_BYTES : nat := 63.

(** The field ranges the Rust types impose on an [OrderIntent_v1]. *)
Definition intent_ok (i : OrderIntent) : Prop :=
  length (oi_correlation_id i) = 16%nat /\ bytes_ok (oi_correlation_id i)
  /\ u32_ok (oi_symbol i) /\ u8_ok (oi_side i) /\ u64_ok (oi_quantity i)
  /\ u8_ok (oi_order_type i) /\ i64_ok (oi_limit_paise i) /\ i8_ok (oi_exchange i).

(** [push_canonical]: the growing-vector implementation. *)
Definition push_canonical (out : list Z) (intent : OrderIntent)
  (sized_quantity ts_ns sequence : Z) : list Z :=
  let cid := from_be (oi_correlation_id intent) in
  let out := out ++ be_bytes 16 cid in
  let out := out ++ be_bytes 4 (oi_symbol intent) in
  let out := out ++ [oi_side intent] in
  let out := out ++ be_bytes 8 (oi_quantity intent) in
  let out := out ++ [oi_order_type intent] in
  let out := out ++ be_bytes 8 (oi_limit_paise intent) in
  let out := out ++ [as_u8 (oi_exchange intent)] in
  let out := out ++ be_bytes 8 sized_quantity in
  let out := out ++ be_bytes 8 ts_ns in
  out ++ be_bytes 8 sequence.

Definition canonicalize_intent_bytes (intent : OrderIntent)
  (sized_quantity ts_ns sequence : Z) : list Z :=
  push_canonical [] intent sized_quantity ts_ns sequence.

(** [buf[off..off + src.len()].copy_from_slice(src)]; [None] is the panic of a range
    that does not fit. *)
Definition copy_at (buf : list Z) (off : nat) (src : list Z) : option (list Z) :=
  if decide (off + length src <= length buf)%nat
  then Some (take off buf ++ src ++ drop (off + length src) buf) else None.

(** [write_canonical_to_array]: the fixed-array implementation, field by field with an
    explicit running offset. *)
Definition write_canonical_to_array (buf : list Z) (intent : OrderIntent)
  (sized_quantity ts_ns sequence : Z) : option (list Z) :=
  let off := 0%nat in
  let cid := from_be (oi_correlation_id intent) in
  buf ← copy_at buf off (be_bytes 16 cid);
  let off := (off + 16)%nat in
  buf ← copy_at buf off (be_bytes 4 (oi_symbol intent));
  let off := (off + 4)%nat in
  buf ← copy_at buf off [oi_side intent];
  let off := (off + 1)%nat in
  buf ← copy_at buf off (be_bytes 8 (oi_quantity intent));
  let off := (off + 8)%nat in
  buf ← copy_at buf off [oi_order_type intent];
  let off := (off + 1)%nat in
  buf ← copy_at buf off (be_bytes 8 (oi_limit_paise intent));
  let off := (off + 8)%nat in
  buf ← copy_at buf off [as_u8 (oi_exchange intent)];
  let off := (off + 1)%nat in
  buf ← copy_at buf off (be_bytes 8 sized_quantity);
  let off := (off + 8)%nat in
  buf ← copy_at buf off (be_bytes 8 ts_ns);
  let off := (off + 8)%nat in
  copy_at buf off (be_bytes 8 sequence).

(** [ApprovalToken(pub [u8; 32])]; derived equality is byte equality. *)
Record ApprovalToken := mk_token { token_bytes : list Z }.
#[global] Instance token_eq_dec : EqDecision ApprovalToken.
Proof. solve_decision. Defined.

Definition from_bytes (b : list Z) : ApprovalToken := mk_token b.
Definition as_bytes (t : ApprovalToken) : list Z := token_bytes t.
Definition token_to_hex (t : ApprovalToken) : string := to_hex (token_bytes t).

(** Both key holders keep the raw key bytes. *)
Record ApprovalSigner := mk_signer { signer_key : list Z }.
Record ApprovalVerifier := mk_verifier { verifier_key : list Z }.
Definition paired_verifier (s : ApprovalSigner) : ApprovalVerifier := mk_verifier (signer_key s).

Section hmac.
Context (hmac : list Z -> list Z -> list Z).

(** The buffer is zero-initialised; [None] would be an out-of-range panic. *)
Definition canonical_buf (intent : OrderIntent) (sized_quantity ts_ns sequence : Z) : list Z :=
  unwrap_or [] (write_canonical_to_array (replicate INTENT_CANONICAL_BYTES 0) intent
    sized_quantity ts_ns sequence).

Definition sign (s : ApprovalSigner) (intent : OrderIntent)
  (sized_quantity ts_ns sequence : Z) : ApprovalToken :=
  mk_token (hmac (signer_key s) (canonical_buf intent sized_quantity ts_ns sequence)).

(** [Hmac::verify_slice] accepts exactly the digest. *)
Definition verify (v : ApprovalVerifier) (token : ApprovalToken) (intent : OrderIntent)
  (sized_quantity ts_ns sequence : Z) : bool :=
  bool_decide (hmac (verifier_key v) (canonical_buf intent sized_quantity ts_ns sequence)
               = token_bytes token).
End hmac.

(** ** Lemmas *)

(** Copying into the zeroed tail behind a written prefix extends the prefix. *)
Lemma copy_at_prefix pre src n k off :
  off = length pre -> (length src <= n)%nat -> k = (n - length src)%nat ->
  copy_at (pre ++ replicate n 0) off src = Some ((pre ++ src) ++ replicate k 0).
Proof.
  intros -> Hn ->. unfold copy_at. rewrite length_app, length_replicate.
  rewrite decide_True by lia. rewrite take_app_length, drop_app_ge by lia.
  rewrite drop_replicate, <- (assoc_L (++)). do 4 f_equal. lia.
Qed.

Local Ltac step k :=
  rewrite (copy_at_prefix _ _ _ k) by
    (rewrite ?length_app, ?be_bytes_length; simpl; reflexivity || lia); cbn [mbind option_bind].

Lemma write_is_push intent q t s :
  write_canonical_to_array (replicate INTENT_CANONICAL_BYTES 0) intent q t s
  = Some (push_canonical [] intent q t s).
Proof.
  unfold write_canonical_to_array, push_canonical, INTENT_CANONICAL_BYTES.
  change (replicate 63 0) with ([] ++ replicate 63 0).
  step 47%nat. step 43%nat. step 42%nat. step 34%nat. step 33%nat. step 25%nat.
  step 24%nat. step 16%nat. step 8%nat. step 0%nat.
  by rewrite app_nil_r.
Qed.

Lemma canonical_buf_eq intent q t s :
  canonical_buf intent q t s = canonicalize_intent_bytes intent q t s.
Proof. unfold canonical_buf. by rewrite write_is_push. Qed.

Lemma canonical_length intent q t s :
  length (canonicalize_intent_bytes intent q t s) = INTENT_CANONICAL_BYTES.
Proof.
  unfold canonicalize_intent_bytes, push_canonical. cbn [app].
  by rewrite !length_app, !be_bytes_length.
Qed.

Lemma as_u8_i8_inj a b : i8_ok a -> i8_ok b -> as_u8 a = as_u8 b -> a = b.
Proof. unfold as_u8, wrap_u. unfold_ok. intros. Z.div_mod_to_equations. lia. Qed.

(** Peels the last [n] bytes off both sides of an equation between encodings. *)
Lemma app_be_inj (l1 l2 : list Z) n z1 z2 lo :
  lo <= z1 < lo + 256 ^ Z.of_nat n -> lo <= z2 < lo + 256 ^ Z.of_nat n ->
  l1 ++ be_bytes n z1 = l2 ++ be_bytes n z2 -> l1 = l2 /\ z1 = z2.
Proof.
  intros H1 H2 E. apply app_inj_2 in E as [-> E]; [| by rewrite !be_bytes_length].
  split; [done |]. by eapply be_bytes_inj.
Qed.

Lemma canonical_inj i1 q1 t1 s1 i2 q2 t2 s2 :
  intent_ok i1 -> intent_ok i2 -> u64_ok q1 -> u64_ok q2 -> u64_ok t1 -> u64_ok t2 ->
  u64_ok s1 -> u64_ok s2 ->
  canonicalize_intent_bytes i1 q1 t1 s1 = canonicalize_intent_bytes i2 q2 t2 s2 ->
  i1 = i2 /\ q1 = q2 /\ t1 = t2 /\ s1 = s2.
Proof.
  intros (Hc1 & Hb1 & Hy1 & Hd1 & Hq1 & Ho1 & Hl1 & He1)
         (Hc2 & Hb2 & Hy2 & Hd2 & Hq2 & Ho2 & Hl2 & He2) ? ? ? ? ? ?.
  unfold canonicalize_intent_bytes, push_canonical. rewrite !app_nil_l. unfold_ok. intros E.
  apply (app_be_inj _ _ _ _ _ 0) in E as [E ->]; [| lia ..].
  apply (app_be_inj _ _ _ _ _ 0) in E as [E ->]; [| lia ..].
  apply (app_be_inj _ _ _ _ _ 0) in E as [E ->]; [| lia ..].
  apply app_inj_tail in E as [E Hex]. apply as_u8_i8_inj in Hex; [| unfold_ok; lia ..].
  apply (app_be_inj _ _ _ _ _ (-9223372036854775808)) in E as [E Hli]; [| lia ..].
  apply app_inj_tail in E as [E Hot].
  apply (app_be_inj _ _ _ _ _ 0) in E as [E Hqt]; [| lia ..].
  apply app_inj_tail in E as [E Hsd].
  apply (app_be_inj _ _ _ _ _ 0) in E as [E Hsy]; [| lia ..].
  assert (oi_correlation_id i1 = oi_correlation_id i2) as Hcid.
  { rewrite <- (be_bytes_from_be _ Hb1), <- (be_bytes_from_be _ Hb2). by rewrite Hc1, Hc2. }
  destruct i1, i2; simpl in *; by subst.
Qed.

End Approval.

(** The fixed-array canonicalisation used on the signing path writes exactly the 63
    bytes that the growing-vector one returns, and never runs out of its buffer. *)
Theorem canonical_implementations_agree (intent : OrderIntent) (q t s : Z) :
  Approval.write_canonical_to_array (replicate Approval.INTENT_CANONICAL_BYTES 0) intent q t s
  = Some (Approval.canonicalize_intent_bytes intent q t s)
  /\ length (Approval.canonicalize_intent_bytes intent q t s) = Approval.INTENT_CANONICAL_BYTES.
Proof. split; [apply Approval.write_is_push | apply Approval.canonical_length]. Qed.

Definition sample_intent : OrderIntent :=
  mk_OrderIntent (replicate 16 7) 42 1 10 0 (-5) 0.

Lemma sample_intent_ok : Approval.intent_ok sample_intent.
Proof.
  unfold Approval.intent_ok, sample_intent; simpl. split_and!; unfold_ok; try lia; try done.
  repeat constructor; unfold byte_ok; lia.
Qed.

(** C38: a minted token verifies under the paired verifier for the tuple it was minted
    over; and if it verifies for any other well-typed (intent, quantity, timestamp,
    sequence) tuple, then the two tuples are encoded by different messages on which HMAC
    under the signer's key collides. *)
Theorem token_binds_intent (hmac : list Z -> list Z -> list Z) signer i1 q1 t1 s1 i2 q2 t2 s2 :
  Approval.intent_ok i1 -> Approval.intent_ok i2 ->
  u64_ok q1 -> u64_ok q2 -> u64_ok t1 -> u64_ok t2 -> u64_ok s1 -> u64_ok s2 ->
  let token := Approval.sign hmac signer i1 q1 t1 s1 in
  let verifier := Approval.paired_verifier signer in
  Approval.verify hmac verifier token i1 q1 t1 s1 = true
  /\ (Approval.verify hmac verifier token i2 q2 t2 s2 = true ->
      (i1, q1, t1, s1) = (i2, q2, t2, s2)
      \/ (let m1 := Approval.canonicalize_intent_bytes i1 q1 t1 s1 in
          let m2 := Approval.canonicalize_intent_bytes i2 q2 t2 s2 in
          m1 <> m2 /\ hmac (Approval.signer_key signer) m1 = hmac (Approval.signer_key signer) m2)).
Proof.
  intros Hi1 Hi2 ? ? ? ? ? ? token verifier. unfold Approval.verify. split.
  - by apply bool_decide_eq_true_2.
  - intros E%bool_decide_eq_true_1. simpl in E. rewrite !Approval.canonical_buf_eq in E.
    destruct (decide (Approval.canonicalize_intent_bytes i1 q1 t1 s1
                      = Approval.canonicalize_intent_bytes i2 q2 t2 s2)) as [Em | Hne].
    + left. by apply Approval.canonical_inj in Em as (-> & -> & -> & ->).
    + right. by split.
Qed.

Lemma token_binds_intent_witness :
  Approval.verify (fun k m => k ++ m) (Approval.mk_verifier [1; 2])
    (Approval.sign (fun k m => k ++ m) (Approval.mk_signer [1; 2]) sample_intent 10 99 1)
    sample_intent 10 99 1 = true.
Proof.
  apply (token_binds_intent (fun k m => k ++ m) (Approval.mk_signer [1; 2])
           sample_intent 10 99 1 sample_intent 10 99 1
           sample_intent_ok sample_intent_ok); unfold_ok; lia.
Defined.
