(* ===== verification/Config.v ===== *)
(** The parts of crates/hedge-config (models.rs, defaults.rs) that the trading path
    reads.  A [NaiveTime] is its number of seconds since midnight: the configuration
    format is [%H:%M:%S]. *)

From S2P Require Import Prelude Ieee Core RiskTables.

(** [NaiveTime::from_hms_opt]. *)
Definition from_hms_opt (h m s : Z) : option Z :=
  if (0 <=? h) && (h <? 24) && (0 <=? m) && (m <? 60) && (0 <=? s) && (s <? 60)
  then Some (h * 3600 + m * 60 + s) else None.

Record CapitalConfig := mk_CapitalConfig {
  base_inr : Z;
  daily_profit_target_min_inr : Z;
  daily_profit_target_max_inr : Z;
  post_target_policy : Target.PostTargetPolicy;
}.

Record RiskConfig := mk_RiskConfig {
  max_daily_loss_inr : Z;
  max_position_per_symbol : Z;
  max_position_portfolio : Z;
  max_leverage_per_symbol : f32;
  max_leverage_account : f32;
  max_drawdown_inr : Z;
  max_trades_per_minute : Z;
  max_trades_per_hour : Z;
  max_trades_per_session : Z;
  max_exposure_per_symbol_inr : Z;
  max_exposure_per_sector_inr : Z;
  slippage_threshold_bps : Z;
  slippage_cooldown_ms : Z;
  volatility_block_threshold : f32;
  broker_latency_block_ms : Z;
  base_risk_per_trade_inr : Z;
}.

Record SessionConfig := mk_SessionConfig { start_ist : Z; end_ist : Z }.

Record BrokerConfig := mk_BrokerConfig {
  primary : BrokerId.t;
  backup : BrokerId.t;
  failover_error_rate : f32;
  failover_latency_ms : Z;
}.

(** [nats_url] is only used to connect. *)
Record WarmCacheConfig := mk_WarmCacheConfig {
  trade_confidence_lru_size : Z;
  staleness_window_ms : Z;
}.

Module Defaults.
Definition ist_0915 : Z := unwrap_or 0 (from_hms_opt 9 15 0).
Definition ist_0945 : Z := unwrap_or 0 (from_hms_opt 9 45 0).
Definition ist_1530 : Z := unwrap_or 0 (from_hms_opt 15 30 0).

Definition capital : CapitalConfig :=
  {| base_inr := 20000; daily_profit_target_min_inr := 300;
     daily_profit_target_max_inr := 1000; post_target_policy := Target.ReduceSizeToZero |}.

Definition risk : RiskConfig :=
  {| max_daily_loss_inr := 600;
     max_position_per_symbol := 200;
     max_position_portfolio := 500;
     max_leverage_per_symbol := f32_of_Z 5;
     max_leverage_account := f32_of_Z 5;
     max_drawdown_inr := 1000;
     max_trades_per_minute := 4;
     max_trades_per_hour := 30;
     max_trades_per_session := 60;
     max_exposure_per_symbol_inr := 20000;
     max_exposure_per_sector_inr := 30000;
     slippage_threshold_bps := 25;
     slippage_cooldown_ms := 60000;
     volatility_block_threshold := f32_lit 6 100;
     broker_latency_block_ms := 250;
     base_risk_per_trade_inr := 100 |}.

Definition session : SessionConfig := {| start_ist := ist_0915; end_ist := ist_1530 |}.

Definition brokers : BrokerConfig :=
  {| primary := BrokerId.Zerodha; backup := BrokerId.Dhan;
     failover_error_rate := f32_lit 20 100; failover_latency_ms := 250 |}.

Definition warm_cache : WarmCacheConfig :=
  {| trade_confidence_lru_size := 8192; staleness_window_ms := 5000 |}.
End Defaults.

(** The ranges the Rust field types impose. *)
Definition capital_ok (c : CapitalConfig) : Prop :=
  u32_ok (base_inr c) /\ u32_ok (daily_profit_target_max_inr c).

Definition risk_ok (c : RiskConfig) : Prop :=
  u32_ok (max_daily_loss_inr c) /\ u32_ok (max_position_per_symbol c)
  /\ u32_ok (max_position_portfolio c) /\ u32_ok (max_drawdown_inr c)
  /\ u32_ok (max_exposure_per_symbol_inr c) /\ u32_ok (base_risk_per_trade_inr c).
