(* ===== verification/Decision.v ===== *)
(** crates/hedge-risk/src/decision.rs, state.rs and warmcache.rs: the decision an
    evaluation returns with its per-gate trace, the mutable [RiskState] it reads, and
    the [WarmCacheView] interface with its in-memory implementation. *)

From S2P Require Import Prelude Ieee Core Schemas RiskTables Approval Config.

(** ** Decisions (decision.rs) *)

Inductive GateOutcome := Pass | Reject (r : RejectionReason.t).
#[global] Instance GateOutcome_eq_dec : EqDecision GateOutcome.
Proof. solve_decision. Defined.

Record RiskRationale := mk_RiskRationale {
  r_kill_switch : option GateOutcome;
  r_session_time : option GateOutcome;
  r_daily_loss : option GateOutcome;
  r_drawdown : option GateOutcome;
  r_frequency : option GateOutcome;
  r_position_size : option GateOutcome;
  r_leverage : option GateOutcome;
  r_exposure : option GateOutcome;
  r_slippage_cooldown : option GateOutcome;
  r_volatility_block : option GateOutcome;
  r_broker_latency_block : option GateOutcome;
  r_profit_target : option GateOutcome;
  r_adaptive_risk : option GateOutcome;
}.

Module Rationale.
Definition default : RiskRationale :=
  mk_RiskRationale None None None None None None None None None None None None None.

(** The array [all_passed] builds, in declaration order. *)
Definition gates (r : RiskRationale) : list (option GateOutcome) :=
  [r_kill_switch r; r_session_time r; r_daily_loss r; r_drawdown r; r_frequency r;
   r_position_size r; r_leverage r; r_exposure r; r_slippage_cooldown r;
   r_volatility_block r; r_broker_latency_block r; r_profit_target r; r_adaptive_risk r].

Definition all_passed (r : RiskRationale) : bool :=
  let any_recorded := existsb is_some (gates r) in
  let all_pass :=
    forallb (fun g => match g with Some Pass | None => true | _ => false end) (gates r) in
  any_recorded && all_pass.

(** Assignments to one field. *)
Definition set_kill_switch g '(mk_RiskRationale _ b c d e f h i j k l m n) :=
  mk_RiskRationale g b c d e f h i j k l m n.
Definition set_session_time g '(mk_RiskRationale a _ c d e f h i j k l m n) :=
  mk_RiskRationale a g c d e f h i j k l m n.
Definition set_daily_loss g '(mk_RiskRationale a b _ d e f h i j k l m n) :=
  mk_RiskRationale a b g d e f h i j k l m n.
Definition set_drawdown g '(mk_RiskRationale a b c _ e f h i j k l m n) :=
  mk_RiskRationale a b c g e f h i j k l m n.
Definition set_frequency g '(mk_RiskRationale a b c d _ f h i j k l m n) :=
  mk_RiskRationale a b c d g f h i j k l m n.
Definition set_position_size g '(mk_RiskRationale a b c d e _ h i j k l m n) :=
  mk_RiskRationale a b c d e g h i j k l m n.
Definition set_leverage g '(mk_RiskRationale a b c d e f _ i j k l m n) :=
  mk_RiskRationale a b c d e f g i j k l m n.
Definition set_exposure g '(mk_RiskRationale a b c d e f h _ j k l m n) :=
  mk_RiskRationale a b c d e f h g j k l m n.
Definition set_slippage_cooldown g '(mk_RiskRationale a b c d e f h i _ k l m n) :=
  mk_RiskRationale a b c d e f h i g k l m n.
Definition set_volatility_block g '(mk_RiskRationale a b c d e f h i j _ l m n) :=
  mk_RiskRationale a b c d e f h i j g l m n.
Definition set_broker_latency_block g '(mk_RiskRationale a b c d e f h i j k _ m n) :=
  mk_RiskRationale a b c d e f h i j k g m n.
Definition set_profit_target g '(mk_RiskRationale a b c d e f h i j k l _ n) :=
  mk_RiskRationale a b c d e f h i j k l g n.
Definition set_adaptive_risk g '(mk_RiskRationale a b c d e f h i j k l m _) :=
  mk_RiskRationale a b c d e f h i j k l m g.
End Rationale.

Inductive RiskDecision :=
| Approved (token : Approval.ApprovalToken) (sized_quantity : Z) (rationale : RiskRationale)
| Rejected (reason : RejectionReason.t) (rationale : RiskRationale).

Definition is_approved (d : RiskDecision) : bool :=
  match d with Approved _ _ _ => true | _ => false end.
Definition rejection_reason (d : RiskDecision) : option RejectionReason.t :=
  match d with Rejected reason _ => Some reason | _ => None end.
Definition decision_token (d : RiskDecision) : option Approval.ApprovalToken :=
  match d with Approved token _ _ => Some token | _ => None end.
Definition decision_sized_quantity (d : RiskDecision) : Z :=
  match d with Approved _ q _ => q | _ => 0 end.
Definition decision_rationale (d : RiskDecision) : RiskRationale :=
  match d with Approved _ _ r => r | Rejected _ r => r end.

(** ** The engine's mutable state (state.rs) *)

Record RiskState := mk_RiskState {
  rs_realized_pnl_paise : Z;
  rs_unrealized_pnl_paise : Z;
  rs_drawdown_paise : Z;
  rs_peak_equity_paise : Z;
  rs_portfolio_position : Z;
  rs_per_symbol_position : gmap Z Z;
  rs_per_symbol_exposure_paise : gmap Z Z;
  rs_per_sector_exposure_paise : gmap Z Z;
  rs_aggregate_notional_paise : Z;
  rs_frequency : Frequency.t;
  rs_cooldowns : Cooldown.t;
  rs_volatility : Volatility.t;
  rs_broker_latency : BrokerLatency.t;
  rs_target : Target.t;
}.

Module RiskStateOps.

Definition new (capital : CapitalConfig) : option RiskState :=
  let initial_equity_paise := as_i64 (base_inr capital * 100) in
  freq ← Frequency.new;
  Some (mk_RiskState 0 0 0 initial_equity_paise 0 ∅ ∅ ∅ 0 freq Cooldown.new Volatility.new
    BrokerLatency.new
    (Target.new (daily_profit_target_max_inr capital) (post_target_policy capital))).

Definition reset_session (s : RiskState) (capital : CapitalConfig) : RiskState :=
  mk_RiskState 0 0 0 (as_i64 (base_inr capital * 100)) 0 ∅ ∅ ∅ 0
    (Frequency.reset_session (rs_frequency s)) (rs_cooldowns s) (rs_volatility s)
    (rs_broker_latency s) (Target.reset_session (rs_target s)).

Definition update_pnl (s : RiskState) (realized_paise unrealized_paise : Z)
  (capital : CapitalConfig) : RiskState :=
  let capital_paise := as_i64 (base_inr capital * 100) in
  let current_equity :=
    i64_sat_add (i64_sat_add capital_paise realized_paise) unrealized_paise in
  let peak := if current_equity >? rs_peak_equity_paise s then current_equity
              else rs_peak_equity_paise s in
  mk_RiskState realized_paise unrealized_paise (i64_sat_sub peak current_equity) peak
    (rs_portfolio_position s) (rs_per_symbol_position s) (rs_per_symbol_exposure_paise s)
    (rs_per_sector_exposure_paise s) (rs_aggregate_notional_paise s) (rs_frequency s)
    (rs_cooldowns s) (rs_volatility s) (rs_broker_latency s) (rs_target s).

Definition total_pnl_paise (s : RiskState) : Z :=
  i64_sat_add (rs_realized_pnl_paise s) (rs_unrealized_pnl_paise s).

(** [state.frequency = ...]. *)
Definition set_frequency (s : RiskState) (f : Frequency.t) : RiskState :=
  mk_RiskState (rs_realized_pnl_paise s) (rs_unrealized_pnl_paise s) (rs_drawdown_paise s)
    (rs_peak_equity_paise s) (rs_portfolio_position s) (rs_per_symbol_position s)
    (rs_per_symbol_exposure_paise s) (rs_per_sector_exposure_paise s)
    (rs_aggregate_notional_paise s) f (rs_cooldowns s) (rs_volatility s)
    (rs_broker_latency s) (rs_target s).

(** The equities of a sequence of [update_pnl] calls, as the doc comment writes them. *)
Definition equity (capital : CapitalConfig) (u : Z * Z) : Z :=
  i64_sat_add (i64_sat_add (as_i64 (base_inr capital * 100)) u.1) u.2.
Definition run_updates (capital : CapitalConfig) (s : RiskState) (us : list (Z * Z)) : RiskState :=
  foldl (fun s u => update_pnl s u.1 u.2 capital) s us.

Lemma equity_ok capital u : i64_ok (equity capital u).
Proof. unfold equity. sat_lia. Qed.

Lemma run_updates_peak capital us s :
  rs_peak_equity_paise (run_updates capital s us) =
  foldl Z.max (rs_peak_equity_paise s) (equity capital <$> us).
Proof.
  revert s. induction us as [| u us IH]; intros s; simpl; [done |].
  rewrite IH. f_equal. unfold update_pnl, equity. simpl. rewrite Z.gtb_ltb. split_ifs; lia.
Qed.
End RiskStateOps.

(** After any updates of the session's profit and loss, the peak equity is the
    maximum of the starting peak and every equity observed, and the drawdown is the
    distance from that peak to the latest equity, never negative. *)
Theorem drawdown_tracks_peak (capital : CapitalConfig) (s : RiskState) (us : list (Z * Z)) (u : Z * Z) :
  i64_ok (rs_peak_equity_paise s) ->
  let s' := RiskStateOps.run_updates capital s (us ++ [u]) in
  let peak := foldl Z.max (rs_peak_equity_paise s) (RiskStateOps.equity capital <$> us ++ [u]) in
  rs_peak_equity_paise s' = peak
  /\ rs_drawdown_paise s' = Z.min i64_max (peak - RiskStateOps.equity capital u)
  /\ 0 <= rs_drawdown_paise s'
  /\ RiskStateOps.total_pnl_paise s' = i64_sat_add u.1 u.2.
Proof.
  intros Hok s' peak. subst s' peak. rewrite RiskStateOps.run_updates_peak. split; [done |].
  unfold RiskStateOps.run_updates at 1 2 3. rewrite foldl_app.
  change (foldl _ s us) with (RiskStateOps.run_updates capital s us).
  rewrite fmap_app, foldl_app. simpl. rewrite RiskStateOps.run_updates_peak.
  fold (RiskStateOps.equity capital u).
  set (p := foldl Z.max _ _).
  pose proof (RiskStateOps.equity_ok capital u) as He.
  assert (i64_ok p) as Hp.
  { subst p. clear -Hok. revert Hok. generalize (rs_peak_equity_paise s).
    induction us as [| v us IH]; intros a Ha; simpl; [done |].
    apply IH. pose proof (RiskStateOps.equity_ok capital v). unfold_ok. lia. }
  fold (RiskStateOps.equity capital u). rewrite Z.gtb_ltb. clearbody p.
  split; [| split; [| done]]; destruct (Z.ltb_spec p (RiskStateOps.equity capital u));
    [rewrite Z.max_r by lia | rewrite Z.max_l by lia | ..]; sat_lia.
Qed.

Lemma drawdown_tracks_peak_witness :
  let s0 := unwrap_or (mk_RiskState 0 0 0 0 0 ∅ ∅ ∅ 0
    (Frequency.mk (RingWindow.mk 8 [] 0 0) (RingWindow.mk 64 [] 0 0) (RingWindow.mk 128 [] 0 0) 0 0 0)
    ∅ ∅ ∅ (Target.new 0 Target.Continue)) (RiskStateOps.new Defaults.capital) in
  rs_drawdown_paise (RiskStateOps.run_updates Defaults.capital s0 ([(500, 0)] ++ [(0, -200)])) = 700.
Proof.
  intros s0.
  destruct (drawdown_tracks_peak Defaults.capital s0 [(500, 0)] (0, -200)) as (_ & -> & _ & _);
    [vm_compute; split; discriminate | reflexivity].
Defined.

(** ** The Warm AI cache interface (warmcache.rs) *)

(** What one evaluation reads from a [WarmCacheView]. *)
Class WarmCacheView (V : Type) := {
  wc_market_stability : V -> f32;
  wc_trade_confidence : V -> CorrelationId.t -> option f32;
  wc_trader_stability : V -> f32;
}.

Module MockWarmCache.
Record t := mk {
  market_stability : f32;
  trader_stability : f32;
  trade_confidence : gmap Z f32;
  confidence_stale : bool;
}.
Definition neutral : t := mk f32_one f32_one ∅ false.
Definition set_market_stability (m : t) (v : f32) : t :=
  mk v (trader_stability m) (trade_confidence m) (confidence_stale m).
Definition set_trader_stability (m : t) (v : f32) : t :=
  mk (market_stability m) v (trade_confidence m) (confidence_stale m).
Definition with_values (ms ts : f32) : t :=
  set_trader_stability (set_market_stability neutral ms) ts.
Definition set_trade_confidence (m : t) (cid : CorrelationId.t) (v : f32) : t :=
  mk (market_stability m) (trader_stability m)
    (<[CorrelationId.as_u128 cid := v]> (trade_confidence m)) (confidence_stale m).
Definition set_confidence_stale (m : t) (stale : bool) : t :=
  mk (market_stability m) (trader_stability m) (trade_confidence m) stale.
Definition lookup_confidence (m : t) (cid : CorrelationId.t) : option f32 :=
  if confidence_stale m then None else trade_confidence m !! CorrelationId.as_u128 cid.
#[global] Instance view : WarmCacheView t :=
  { wc_market_stability := market_stability;
    wc_trade_confidence := lookup_confidence;
    wc_trader_stability := trader_stability }.
End MockWarmCache.
