(* ===== verification/RiskEngine.v ===== *)
(** crates/hedge-risk/src/engine.rs: the final-authority evaluator.

    An evaluation runs the source's thirteen gates in order over the engine; each gate
    records its outcome in the rationale and returns early when it rejects.  The clock
    readings are inputs: the civil time in Asia/Kolkata that the session gate derives
    from [Utc::now] through chrono_tz, and the three values [now_ns()] returns. *)

From S2P Require Import Prelude Ieee Bytes Core Schemas KillSwitch RiskTables Approval Config Decision.

Module RiskEngine.

Inductive Weekday := Mon | Tue | Wed | Thu | Fri | Sat | Sun.

Record Clock := mk_Clock {
  ck_weekday : Weekday;
  ck_hour : Z;
  ck_minute : Z;
  ck_second : Z;
  ck_frequency_ns : Z;
  ck_cooldown_ns : Z;
  ck_mint_ns : Z;
}.

(** [None] is the [expect] panic on components out of range. *)
Definition is_within_session (cfg : SessionConfig) (ck : Clock) : option bool :=
  match ck_weekday ck with
  | Sat | Sun => Some false
  | _ =>
    now_time ← from_hms_opt (ck_hour ck) (ck_minute ck) (ck_second ck);
    Some ((now_time >=? start_ist cfg) && (now_time <=? end_ist cfg))
  end.

Definition clamp01 (v : f32) : f32 :=
  if f_is_nan v || f_lt v f_zero then f_zero
  else if f_gt v f32_one then f32_one else v.

Section engine.
Context (hmac : list Z -> list Z -> list Z) {V : Type} {view : WarmCacheView V}.

Record t := mk {
  capital : CapitalConfig;
  risk_cfg : RiskConfig;
  session_cfg : SessionConfig;
  signer : Approval.ApprovalSigner;
  kill_switch : KillSwitchState.t;
  state : RiskState;
  warm_cache : V;
  sequence : Z;
}.

(** [None]: a zero-capacity ring window would panic. *)
Definition new (cap : CapitalConfig) (rc : RiskConfig) (sc : SessionConfig)
  (sg : Approval.ApprovalSigner) (wc : V) : option t :=
  st ← RiskStateOps.new cap;
  Some (mk cap rc sc sg KillSwitchState.new st wc 1).

Definition set_kill_switch (e : t) (k : KillSwitchState.t) : t :=
  mk (capital e) (risk_cfg e) (session_cfg e) (signer e) k (state e) (warm_cache e) (sequence e).
Definition set_state (e : t) (s : RiskState) : t :=
  mk (capital e) (risk_cfg e) (session_cfg e) (signer e) (kill_switch e) s (warm_cache e) (sequence e).
Definition set_warm_cache (e : t) (w : V) : t :=
  mk (capital e) (risk_cfg e) (session_cfg e) (signer e) (kill_switch e) (state e) w (sequence e).
Definition set_sequence (e : t) (n : Z) : t :=
  mk (capital e) (risk_cfg e) (session_cfg e) (signer e) (kill_switch e) (state e) (warm_cache e) n.

(** *** The conditions of the gates *)

Definition breaches_daily_loss (e : t) : bool :=
  let max_daily_loss_paise := - (max_daily_loss_inr (risk_cfg e) * 100) in
  RiskStateOps.total_pnl_paise (state e) <=? max_daily_loss_paise.

Definition breaches_drawdown (e : t) : bool :=
  let max_drawdown_paise := max_drawdown_inr (risk_cfg e) * 100 in
  rs_drawdown_paise (state e) >=? max_drawdown_paise.

(** [would_breach] refreshes the counters it caches, so it returns the next tracker too. *)
Definition frequency_check (e : t) (ck : Clock) : bool * Frequency.t :=
  Frequency.would_breach (rs_frequency (state e)) (ck_frequency_ns ck)
    (max_trades_per_minute (risk_cfg e)) (max_trades_per_hour (risk_cfg e))
    (max_trades_per_session (risk_cfg e)).

Definition breaches_frequency (e : t) (ck : Clock) : bool := fst (frequency_check e ck).

Definition prospective_qty (sig : Signal) : Z := Z.max (max_size_qty (sig_risk_profile sig)) 1.

Definition breaches_position (e : t) (sig : Signal) : bool :=
  let current_per_symbol :=
    unwrap_or 0 (rs_per_symbol_position (state e) !! SymbolId.new (sig_symbol sig)) in
  (u64_sat_add current_per_symbol (prospective_qty sig) >? max_position_per_symbol (risk_cfg e))
  || (u64_sat_add (rs_portfolio_position (state e)) (prospective_qty sig)
        >? max_position_portfolio (risk_cfg e)).

Definition breaches_leverage (e : t) (sig : Signal) (entry_price_paise : Z) : bool :=
  let capital_paise := base_inr (capital e) * 100 in
  let prospective_notional :=
    i64_sat_add (rs_aggregate_notional_paise (state e))
      (i64_sat_mul entry_price_paise (as_i64 (prospective_qty sig))) in
  if capital_paise >? 0 then
    let leverage := f64_div (f64_of_Z prospective_notional) (f64_of_Z capital_paise) in
    f_gt leverage (f32_to_f64 (max_leverage_account (risk_cfg e)))
  else false.

Definition breaches_exposure (e : t) (sig : Signal) (entry_price_paise : Z) : bool :=
  let prospective_exposure := i64_sat_mul entry_price_paise (as_i64 (prospective_qty sig)) in
  let current_per_symbol_exposure :=
    unwrap_or 0 (rs_per_symbol_exposure_paise (state e) !! SymbolId.new (sig_symbol sig)) in
  let max_exposure_per_symbol_paise := max_exposure_per_symbol_inr (risk_cfg e) * 100 in
  i64_sat_add current_per_symbol_exposure prospective_exposure >? max_exposure_per_symbol_paise.

Definition in_cooldown (e : t) (sig : Signal) (ck : Clock) : bool :=
  Cooldown.is_cooling (rs_cooldowns (state e)) (SymbolId.new (sig_symbol sig)) (ck_cooldown_ns ck).

Definition blocked_by_volatility (e : t) (sig : Signal) : bool :=
  Volatility.is_blocked (rs_volatility (state e)) (SymbolId.new (sig_symbol sig))
    (volatility_block_threshold (risk_cfg e)).

Definition any_broker_ok (e : t) : bool :=
  let broker_threshold := broker_latency_block_ms (risk_cfg e) in
  existsb (fun b => match BrokerLatency.latency_ms (rs_broker_latency (state e)) b with
                    | Some ms => ms <=? broker_threshold
                    | None => true
                    end)
    [BrokerId.Zerodha; BrokerId.Dhan; BrokerId.Shoonya; BrokerId.AngelOne; BrokerId.Upstox].

(** *** Sizing *)

Definition base_risk_paise (e : t) : Z := base_risk_per_trade_inr (risk_cfg e) * 100.

(** Step 13. *)
Definition adaptive_risk_paise (e : t) (sig : Signal) (cid : CorrelationId.t) : Z :=
  let market_stability := clamp01 (wc_market_stability (warm_cache e)) in
  let signal_confidence :=
    clamp01 (unwrap_or (sig_confidence sig) (wc_trade_confidence (warm_cache e) cid)) in
  let trader_discipline := clamp01 (wc_trader_stability (warm_cache e)) in
  let base := f64_of_Z (base_risk_paise e) in
  let scaled :=
    f64_mul (f64_mul (f64_mul base (f32_to_f64 market_stability)) (f32_to_f64 signal_confidence))
      (f32_to_f64 trader_discipline) in
  if f_is_finite scaled && f_gt scaled f_zero then f_as_i64 (f_min scaled base) else 0.

(** Step 14. *)
Definition size_quantity (e : t) (sig : Signal) (entry_price_paise adaptive : Z) : Z :=
  let sized_quantity :=
    if entry_price_paise >? 0
    then as_u64 (Z.quot (as_u128 adaptive) (as_u128 entry_price_paise)) else 0 in
  let sized_quantity :=
    if Target.should_halve (rs_target (state e)) then Z.quot sized_quantity 2 else sized_quantity in
  let sized_quantity := Z.min sized_quantity (max_size_qty (sig_risk_profile sig)) in
  if sized_quantity =? 0 then 1 else sized_quantity.

(** Step 15. *)
Definition minted_intent (sig : Signal) (sized_quantity : Z) : OrderIntent :=
  {| oi_correlation_id := sig_correlation_id sig;
     oi_symbol := sig_symbol sig;
     oi_side := sig_side sig;
     oi_quantity := sized_quantity;
     oi_order_type := 0;
     oi_limit_paise := take_profit_paise (sig_risk_profile sig);
     oi_exchange := 0 |}.

(** *** The evaluation *)

Abbreviation M := (SE (t * RiskRationale) RejectionReason.t).

Definition record (set : option GateOutcome -> RiskRationale -> RiskRationale) (g : GateOutcome)
  : M unit := se_modify (fun w => (w.1, set (Some g) w.2)).

(** [rationale.<field> = Some(Reject(reason)); return Rejected { reason, .. }]. *)
Definition reject (set : option GateOutcome -> RiskRationale -> RiskRationale)
  (reason : RejectionReason.t) : M unit :=
  (record set (Reject reason) ;? se_fail reason)%se.

Definition gate (set : option GateOutcome -> RiskRationale -> RiskRationale)
  (reason : RejectionReason.t) (fails : bool) : M unit :=
  if fails then reject set reason else record set Pass.

(** Step 4 engages the kill switch before it returns. *)
Definition drawdown_gate (fails : bool) : M unit :=
  if fails then
    (record Rationale.set_drawdown (Reject RejectionReason.MaxDrawdown) ;?
     se_modify (fun w => (set_kill_switch w.1
       (snd (KillSwitchState.activate (kill_switch w.1) KillReason.MaxDrawdown)), w.2)) ;?
     se_fail RejectionReason.MaxDrawdown)%se
  else record Rationale.set_drawdown Pass.

(** Step 5. *)
Definition frequency_gate (e : t) (ck : Clock) : M unit :=
  let '(breach, freq) := frequency_check e ck in
  (se_modify (fun w => (set_state w.1 (RiskStateOps.set_frequency (state w.1) freq), w.2)) ;?
   gate Rationale.set_frequency RejectionReason.TradeFrequency breach)%se.

Definition mint (sig : Signal) (sized_quantity ts_ns : Z) : M (Approval.ApprovalToken * Z) :=
  fun w =>
    let seq := sequence w.1 in
    (Ok (Approval.sign hmac (signer w.1) (minted_intent sig sized_quantity) sized_quantity ts_ns seq,
         sized_quantity),
     (set_sequence w.1 (as_u64 (seq + 1)), w.2)).

Definition evaluate_steps (e : t) (sig : Signal) (entry_price_paise : Z) (cid : CorrelationId.t)
  (ck : Clock) (in_session : bool) : M (Approval.ApprovalToken * Z) :=
  (gate Rationale.set_kill_switch RejectionReason.KillSwitchEngaged
     (KillSwitchState.is_active (kill_switch e)) ;?
   gate Rationale.set_session_time RejectionReason.SessionClosed (negb in_session) ;?
   gate Rationale.set_daily_loss RejectionReason.MaxDailyLoss (breaches_daily_loss e) ;?
   drawdown_gate (breaches_drawdown e) ;?
   frequency_gate e ck ;?
   gate Rationale.set_position_size RejectionReason.MaxPosition (breaches_position e sig) ;?
   gate Rationale.set_leverage RejectionReason.MaxLeverage
     (breaches_leverage e sig entry_price_paise) ;?
   gate Rationale.set_exposure RejectionReason.MaxExposure
     (breaches_exposure e sig entry_price_paise) ;?
   gate Rationale.set_slippage_cooldown RejectionReason.SlippageCooldown (in_cooldown e sig ck) ;?
   gate Rationale.set_volatility_block RejectionReason.VolatilityBlock
     (blocked_by_volatility e sig) ;?
   gate Rationale.set_broker_latency_block RejectionReason.BrokerLatencyBlock
     (negb (any_broker_ok e)) ;?
   gate Rationale.set_profit_target RejectionReason.ProfitTargetReached
     (Target.should_reject (rs_target (state e))) ;?
   let adaptive := adaptive_risk_paise e sig cid in
   gate Rationale.set_adaptive_risk RejectionReason.AdaptiveRiskZero (adaptive <=? 0) ;?
   mint sig (size_quantity e sig entry_price_paise adaptive) (ck_mint_ns ck))%se.

(** [None] is the panic of [is_within_session], which the source reaches only when the
    switch is not active. *)
Definition evaluate_inner (e : t) (sig : Signal) (entry_price_paise : Z) (cid : CorrelationId.t)
  (ck : Clock) : option (RiskDecision * t) :=
  in_session ← (if KillSwitchState.is_active (kill_switch e) then Some false
                else is_within_session (session_cfg e) ck);
  Some (match evaluate_steps e sig entry_price_paise cid ck in_session (e, Rationale.default) with
        | (Ok (token, sized_quantity), (e', r)) => (Approved token sized_quantity r, e')
        | (Err reason, (e', r)) => (Rejected reason r, e')
        end).

Definition evaluate (e : t) (sig : Signal) (entry_price_paise : Z) (ck : Clock)
  : option (RiskDecision * t) :=
  let cid := from_be (sig_correlation_id sig) in
  evaluate_inner e sig entry_price_paise cid ck.

(** ** Specification: the ordered table of gates *)

(** What the engine promises: the gates in the order R5 lists them, each with the
    condition on which it refuses and the reason it gives. *)
Definition gate_table (e : t) (sig : Signal) (price : Z) (ck : Clock) (in_session : bool)
  : list (bool * RejectionReason.t) :=
  [(KillSwitchState.is_active (kill_switch e), RejectionReason.KillSwitchEngaged);
   (negb in_session, RejectionReason.SessionClosed);
   (breaches_daily_loss e, RejectionReason.MaxDailyLoss);
   (breaches_drawdown e, RejectionReason.MaxDrawdown);
   (breaches_frequency e ck, RejectionReason.TradeFrequency);
   (breaches_position e sig, RejectionReason.MaxPosition);
   (breaches_leverage e sig price, RejectionReason.MaxLeverage);
   (breaches_exposure e sig price, RejectionReason.MaxExposure);
   (in_cooldown e sig ck, RejectionReason.SlippageCooldown);
   (blocked_by_volatility e sig, RejectionReason.VolatilityBlock);
   (negb (any_broker_ok e), RejectionReason.BrokerLatencyBlock);
   (Target.should_reject (rs_target (state e)), RejectionReason.ProfitTargetReached);
   (adaptive_risk_paise e sig (from_be (sig_correlation_id sig)) <=? 0,
    RejectionReason.AdaptiveRiskZero)].

(** The first gate that refuses, with the number of gates before it. *)
Fixpoint first_refusal (g : list (bool * RejectionReason.t)) : option (nat * RejectionReason.t) :=
  match g with
  | [] => None
  | (true, r) :: _ => Some (0%nat, r)
  | (false, _) :: g => prod_map S id <$> first_refusal g
  end.

Definition rationale_at (i : nat) (r : RejectionReason.t) : list (option GateOutcome) :=
  replicate i (Some Pass) ++ Some (Reject r) :: replicate (12 - i) None.

Definition in_session_of (e : t) (ck : Clock) : option bool :=
  if KillSwitchState.is_active (kill_switch e) then Some false
  else is_within_session (session_cfg e) ck.

(** The engine a decision leaves behind: gate [i] of the table refused, or none did. *)
Definition engine_after (e : t) (ck : Clock) (refusal : option (nat * RejectionReason.t)) : t :=
  let counted := set_state e (RiskStateOps.set_frequency (state e) (snd (frequency_check e ck))) in
  match refusal with
  | Some (i, _) =>
      if (i <? 3)%nat then e
      else if (i =? 3)%nat
      then set_kill_switch e (snd (KillSwitchState.activate (kill_switch e) KillReason.MaxDrawdown))
      else counted
  | None => set_sequence counted (as_u64 (sequence e + 1))
  end.

(** ** Lemmas *)

Local Ltac refuse := eexists; split; [reflexivity | cbn; done].

Lemma evaluate_spec e sig price ck ins : in_session_of e ck = Some ins ->
  let refusal := first_refusal (gate_table e sig price ck ins) in
  exists d, evaluate e sig price ck = Some (d, engine_after e ck refusal)
  /\ match refusal with
     | Some (i, reason) =>
         rejection_reason d = Some reason
         /\ Rationale.gates (decision_rationale d) = rationale_at i reason
     | None =>
         let q := size_quantity e sig price
                    (adaptive_risk_paise e sig (from_be (sig_correlation_id sig))) in
         decision_token d = Some (Approval.sign hmac (signer e) (minted_intent sig q) q
                                    (ck_mint_ns ck) (sequence e))
         /\ decision_sized_quantity d = q
         /\ Rationale.gates (decision_rationale d) = replicate 13 (Some Pass)
     end.
Proof.
  intros Hs refusal. subst refusal. unfold evaluate, evaluate_inner.
  unfold in_session_of in Hs. rewrite Hs. cbn [mbind option_bind].
  unfold evaluate_steps, gate_table, engine_after, breaches_frequency, frequency_gate.
  destruct (frequency_check e ck) as [bf f]. cbn [fst snd].
  set (ad := adaptive_risk_paise _ _ _). clearbody ad.
  destruct (KillSwitchState.is_active (kill_switch e)); [refuse |].
  destruct (negb ins); [refuse |].
  destruct (breaches_daily_loss e); [refuse |].
  destruct (breaches_drawdown e); [refuse |].
  destruct bf; [refuse |].
  destruct (breaches_position e sig); [refuse |].
  destruct (breaches_leverage e sig price); [refuse |].
  destruct (breaches_exposure e sig price); [refuse |].
  destruct (in_cooldown e sig ck); [refuse |].
  destruct (blocked_by_volatility e sig); [refuse |].
  destruct (negb (any_broker_ok e)); [refuse |].
  destruct (Target.should_reject (rs_target (state e))); [refuse |].
  destruct (ad <=? 0); refuse.
Qed.

Lemma first_refusal_None g : first_refusal g = None -> Forall (fun x => x.1 = false) g.
Proof.
  induction g as [| [[] r] g IH]; simpl; intros H; [constructor | done |].
  apply fmap_None in H. constructor; [done | auto].
Qed.

Lemma evaluate_in_session e sig price ck d e' :
  evaluate e sig price ck = Some (d, e') -> exists ins, in_session_of e ck = Some ins.
Proof.
  unfold evaluate, evaluate_inner. intros (ins & Hs & _)%bind_Some. by exists ins.
Qed.

(** What holds of every evaluation that approves. *)
Lemma approved_inv e sig price ck token q r e' :
  evaluate e sig price ck = Some (Approved token q r, e') ->
  in_session_of e ck = Some true
  /\ Forall (fun x => x.1 = false) (gate_table e sig price ck true)
  /\ e' = engine_after e ck None
  /\ q = size_quantity e sig price (adaptive_risk_paise e sig (from_be (sig_correlation_id sig)))
  /\ token = Approval.sign hmac (signer e) (minted_intent sig q) q (ck_mint_ns ck) (sequence e)
  /\ Rationale.gates r = replicate 13 (Some Pass).
Proof.
  intros He. destruct (evaluate_in_session _ _ _ _ _ _ He) as [ins Hins].
  destruct (evaluate_spec e sig price ck ins Hins) as (d & Hd & Hcase).
  remember (first_refusal (gate_table e sig price ck ins)) as refusal eqn:Hf.
  rewrite He in Hd. injection Hd as <- He'.
  destruct refusal as [[i reason] |].
  - destruct Hcase as [Hr _]. done.
  - symmetry in Hf. apply first_refusal_None in Hf. simpl in Hcase. destruct Hcase as ([= Htok] & Hq & Hg).
    assert (ins = true) as ->.
    { apply Forall_cons in Hf as [_ Hf]. apply Forall_cons in Hf as [Hf _]. by destruct ins. }
    subst q. by split_and!.
Qed.

(** What the gates without a bound of their own leave when they pass. *)

Lemma frequency_room e ck : breaches_frequency e ck = false ->
  let freq := rs_frequency (state e) in
  let now := ck_frequency_ns ck in
  as_u32 (Frequency.live_count (Frequency.minute freq) now Frequency.NS_PER_MINUTE + 1)
    <= max_trades_per_minute (risk_cfg e)
  /\ as_u32 (Frequency.live_count (Frequency.hour freq) now Frequency.NS_PER_HOUR + 1)
    <= max_trades_per_hour (risk_cfg e)
  /\ as_u32 (as_u32 (Z.of_nat (RingWindow.len (Frequency.session freq))) + 1)
    <= max_trades_per_session (risk_cfg e).
Proof.
  unfold breaches_frequency, frequency_check, Frequency.would_breach. cbn [fst].
  rewrite !orb_false_iff, !Z.gtb_ltb, !Z.ltb_ge. tauto.
Qed.

Lemma leverage_room e sig price : breaches_leverage e sig price = false ->
  let notional := i64_sat_add (rs_aggregate_notional_paise (state e))
    (i64_sat_mul price (as_i64 (prospective_qty sig))) in
  0 < base_inr (capital e) ->
  f_gt (f64_div (f64_of_Z notional) (f64_of_Z (base_inr (capital e) * 100)))
    (f32_to_f64 (max_leverage_account (risk_cfg e))) = false.
Proof.
  unfold breaches_leverage. rewrite Z.gtb_ltb. intros H. cbn zeta. intros Hc.
  by rewrite (proj2 (Z.ltb_lt 0 (base_inr (capital e) * 100))) in H by lia.
Qed.

Lemma broker_room e : negb (any_broker_ok e) = false ->
  exists b, match BrokerLatency.latency_ms (rs_broker_latency (state e)) b with
    | Some ms => ms <= broker_latency_block_ms (risk_cfg e)
    | None => True
    end.
Proof.
  intros H%negb_false_iff. unfold any_broker_ok in H. apply existsb_exists in H as (b & _ & H).
  exists b. destruct (BrokerLatency.latency_ms (rs_broker_latency (state e)) b); [| done]. by apply Z.leb_le.
Qed.

(** *** Adaptive risk *)

Lemma adaptive_bounds e sig cid : u32_ok (base_risk_per_trade_inr (risk_cfg e)) ->
  adaptive_risk_paise e sig cid <= base_risk_paise e.
Proof.
  intros Hb. unfold adaptive_risk_paise.
  set (b := base_risk_paise e).
  assert (0 <= b < 2 ^ 53) as Hb' by (unfold b, base_risk_paise; unfold_ok; lia).
  set (scaled := f64_mul _ _).
  assert (f64_valid scaled) as Hv by (unfold scaled; auto 10 with hedge).
  destruct (decide (b = 0)) as [E0 | Hpos].
  { subst scaled. rewrite E0. change (f64_of_Z 0) with f_zero.
    assert (forall y, exists z, f64_mul f_zero y = z /\ (z = S754_nan \/ exists s, z = S754_zero s))
      as Hz by (intros []; eexists; split; eauto).
    assert (forall s y, exists z, f64_mul (S754_zero s) y = z
              /\ (z = S754_nan \/ exists s, z = S754_zero s))
      as Hz' by (intros ? []; eexists; split; eauto).
    destruct (Hz (f32_to_f64 (clamp01 (wc_market_stability (warm_cache e))))) as (z & -> & Hc).
    destruct Hc as [-> | [s ->]]; [done |].
    match goal with |- context [f64_mul (S754_zero s) ?y] =>
      destruct (Hz' s y) as (z & -> & [-> | [s' ->]]) end; [done |].
    match goal with |- context [f64_mul (S754_zero s') ?y] =>
      destruct (Hz' s' y) as (z & -> & [-> | [s'' ->]]) end; done. }
  destruct (f_is_finite scaled && f_gt scaled f_zero) eqn:Hc; [| lia].
  apply andb_prop in Hc as [Hfin _].
  assert (f_is_nan scaled = false) as Hnan by (by destruct scaled).
  unfold f_min. rewrite Hnan.
  destruct (f_is_nan (f64_of_Z b)) eqn:Hnb.
  { exfalso. revert Hnb. unfold f64_of_Z. rewrite (binary_normalize_exact 53 1024) by lia. discriminate. }
  destruct (f_lt (f64_of_Z b) scaled) eqn:Hlt.
  - rewrite f_as_i64_of_Z by lia. lia.
  - apply f_as_i64_le; try done; lia.
Qed.

Lemma clamp01_one : clamp01 f32_one = f32_one.
Proof. reflexivity. Qed.

Lemma adaptive_neutral e sig cid :
  u32_ok (base_risk_per_trade_inr (risk_cfg e)) ->
  wc_market_stability (warm_cache e) = f32_one -> wc_trader_stability (warm_cache e) = f32_one ->
  unwrap_or (sig_confidence sig) (wc_trade_confidence (warm_cache e) cid) = f32_one ->
  adaptive_risk_paise e sig cid = base_risk_paise e.
Proof.
  intros Hb Hm Ht Hc. unfold adaptive_risk_paise. rewrite Hm, Ht, Hc, clamp01_one.
  set (b := base_risk_paise e).
  assert (0 <= b < 2 ^ 53) as Hb' by (unfold b, base_risk_paise; unfold_ok; lia).
  change (f32_to_f64 f32_one) with f64_one. rewrite !f64_mul_one by auto with hedge.
  destruct (decide (b = 0)) as [-> | Hpos]; [done |].
  assert (exists m ex, f64_of_Z b = S754_finite false m ex) as (m & ex & E).
  { unfold f64_of_Z. rewrite (binary_normalize_exact 53 1024) by lia. eauto. }
  assert (f_min (f64_of_Z b) (f64_of_Z b) = f64_of_Z b) as ->.
  { unfold f_min. destruct (f_is_nan _); [done |]. by destruct (f_lt _ _). }
  rewrite f_as_i64_of_Z by lia. by rewrite E.
Qed.

Lemma size_quantity_bounds e sig price adaptive :
  0 <= adaptive <= i64_max -> price <= i64_max -> u64_ok (max_size_qty (sig_risk_profile sig)) ->
  let q := size_quantity e sig price adaptive in
  1 <= q <= prospective_qty sig /\ (q = 1 \/ (0 < price /\ q * price <= adaptive)).
Proof.
  intros Ha Hp Hm q. subst q. unfold size_quantity, prospective_qty.
  set (m := max_size_qty _) in *. clearbody m.
  rewrite Z.gtb_ltb. destruct (Z.ltb_spec 0 price) as [Hpos | Hneg].
  - unfold as_u128. rewrite !wrap_u_id by (unfold_ok; lia).
    rewrite (Z.quot_div_nonneg adaptive price) by lia.
    assert (0 <= adaptive / price <= adaptive) as Hq.
    { split; [apply Z.div_pos; lia |]. apply Z.div_le_upper_bound; nia. }
    rewrite as_u64_id by (unfold_ok; lia).
    set (d := adaptive / price) in *.
    assert (d * price <= adaptive) as Hdp by (unfold d; pose proof (Z.mul_div_le adaptive price Hpos); lia).
    set (h := if Target.should_halve _ then _ else _).
    assert (0 <= h <= d) as Hh.
    { unfold h. destruct (Target.should_halve _); [| lia].
      rewrite Z.quot_div_nonneg by lia. pose proof (Z.div_le_upper_bound d 2 d).
      split; [apply Z.div_pos; lia | lia]. }
    clearbody h. destruct (Z.eqb_spec (Z.min h m) 0); unfold_ok; [lia |].
    split; [lia |]. right. split; [done |]. nia.
  - assert ((if Target.should_halve (rs_target (state e)) then Z.quot 0 2 else 0) = 0) as ->
      by (by destruct (Target.should_halve _)).
    unfold_ok. rewrite Z.min_l by lia. simpl. lia.
Qed.

(** *** Sessions: evaluations interleaved with the other tasks of the process *)

(** The trader and supervisor subscribers engage the switch, the state subscribers
    replace the state they lock, the warm-cache writer its view. *)
Inductive action :=
| Evaluate (sig : Signal) (price : Z) (ck : Clock)
| MutateState (s : RiskState)
| UpdateWarmCache (w : V)
| Engage (r : KillReason.t).

Record outcome := mk_outcome {
  oc_signal : Signal; oc_price : Z; oc_clock : Clock; oc_decision : RiskDecision }.

Definition act (e : t) (a : action) : option (list outcome * t) :=
  match a with
  | Evaluate sig price ck =>
      '(d, e') ← evaluate e sig price ck;
      Some ([mk_outcome sig price ck d], e')
  | MutateState s => Some ([], set_state e s)
  | UpdateWarmCache w => Some ([], set_warm_cache e w)
  | Engage r => Some ([], set_kill_switch e (snd (KillSwitchState.activate (kill_switch e) r)))
  end.

Fixpoint run (e : t) (acts : list action) : option (list outcome * t) :=
  match acts with
  | [] => Some ([], e)
  | a :: acts =>
      '(o1, e1) ← act e a;
      '(o2, e2) ← run e1 acts;
      Some (o1 ++ o2, e2)
  end.

Lemma run_cons e a acts os e' : run e (a :: acts) = Some (os, e') <->
  exists o1 e1 o2, act e a = Some (o1, e1) /\ run e1 acts = Some (o2, e') /\ os = o1 ++ o2.
Proof.
  simpl. split.
  - intros ([o1 e1] & Ha & ([o2 e2] & Hr & [= <- <-])%bind_Some)%bind_Some. eauto 10.
  - intros (o1 & e1 & o2 & -> & Hr & ->). simpl. by rewrite Hr.
Qed.

(** An engaged switch decides every evaluation, and stays engaged. *)
Lemma evaluate_engaged e sig price ck : KillSwitchState.is_active (kill_switch e) = true ->
  exists r, evaluate e sig price ck = Some (Rejected RejectionReason.KillSwitchEngaged r, e).
Proof.
  intros Ha. unfold evaluate, evaluate_inner, evaluate_steps. rewrite Ha. eexists. reflexivity.
Qed.

Lemma run_engaged acts : forall e os e', KillSwitchState.is_active (kill_switch e) = true ->
  run e acts = Some (os, e') ->
  KillSwitchState.is_active (kill_switch e') = true
  /\ Forall (fun o => rejection_reason (oc_decision o) = Some RejectionReason.KillSwitchEngaged) os.
Proof.
  induction acts as [| a acts IH]; intros e os e' Ha Hr.
  - simpl in Hr. injection Hr as <- <-. split; [done | constructor].
  - apply run_cons in Hr as (o1 & e1 & o2 & H1 & H2 & ->).
    assert (KillSwitchState.is_active (kill_switch e1) = true
            /\ Forall (fun o => rejection_reason (oc_decision o)
                               = Some RejectionReason.KillSwitchEngaged) o1) as [Ha1 Ho1].
    { destruct a as [sig price ck | s | w | r]; simpl in H1.
      - destruct (evaluate_engaged e sig price ck Ha) as [r Hev]. rewrite Hev in H1.
        injection H1 as <- <-. split; [done | by repeat constructor].
      - injection H1 as <- <-. by split.
      - injection H1 as <- <-. by split.
      - injection H1 as <- <-. split; [apply KillSwitchState.activate_latches | constructor]. }
    destruct (IH _ _ _ Ha1 H2) as [Ha2 Ho2]. split; [done | by apply Forall_app].
Qed.

Local Ltac skip := intros [= <- <-]; discriminate.

(** A drawdown refusal leaves the switch engaged. *)
Lemma evaluate_drawdown_engages e sig price ck d e' :
  evaluate e sig price ck = Some (d, e') ->
  rejection_reason d = Some RejectionReason.MaxDrawdown ->
  KillSwitchState.is_active (kill_switch e') = true.
Proof.
  intros He Hd. destruct (evaluate_in_session _ _ _ _ _ _ He) as [ins Hins].
  revert He. unfold evaluate, evaluate_inner. unfold in_session_of in Hins. rewrite Hins.
  cbn [mbind option_bind]. unfold evaluate_steps, frequency_gate.
  destruct (frequency_check e ck) as [bf f].
  set (ad := adaptive_risk_paise _ _ _). clearbody ad.
  destruct (KillSwitchState.is_active (kill_switch e)); [skip |].
  destruct (negb ins); [skip |].
  destruct (breaches_daily_loss e); [skip |].
  destruct (breaches_drawdown e).
  { intros [= <- <-]. apply KillSwitchState.activate_latches. }
  destruct bf; [skip |].
  destruct (breaches_position e sig); [skip |].
  destruct (breaches_leverage e sig price); [skip |].
  destruct (breaches_exposure e sig price); [skip |].
  destruct (in_cooldown e sig ck); [skip |].
  destruct (blocked_by_volatility e sig); [skip |].
  destruct (negb (any_broker_ok e)); [skip |].
  destruct (Target.should_reject (rs_target (state e))); [skip |].
  destruct (ad <=? 0); skip.
Qed.

(** *** The tokens a session mints *)

Definition count_approved (os : list outcome) : Z :=
  Z.of_nat (length (filter (fun o => is_approved (oc_decision o)) os)).

Definition message (o : outcome) (seq : Z) : list Z :=
  let q := decision_sized_quantity (oc_decision o) in
  Approval.canonicalize_intent_bytes (minted_intent (oc_signal o) q) q
    (ck_mint_ns (oc_clock o)) seq.

Lemma evaluate_sequence e sig price ck d e' :
  evaluate e sig price ck = Some (d, e') ->
  signer e' = signer e
  /\ sequence e' = if is_approved d then as_u64 (sequence e + 1) else sequence e.
Proof.
  intros He. destruct (evaluate_in_session _ _ _ _ _ _ He) as [ins Hins].
  destruct (evaluate_spec e sig price ck ins Hins) as (d' & Hd & Hcase).
  remember (first_refusal _) as refusal. rewrite He in Hd. injection Hd as <- ->.
  destruct refusal as [[i reason] |].
  - destruct Hcase as [Hr _]. destruct d; [done |]. simpl.
    by destruct (i <? 3)%nat, (i =? 3)%nat.
  - destruct Hcase as [Hr _]. by destruct d.
Qed.

Lemma run_tokens acts : forall e os e',
  run e acts = Some (os, e') -> 0 <= sequence e -> sequence e + Z.of_nat (length os) <= u64_max ->
  forall i o token, os !! i = Some o -> decision_token (oc_decision o) = Some token ->
  token = Approval.mk_token (hmac (Approval.signer_key (signer e))
            (message o (sequence e + count_approved (take i os)))).
Proof.
  induction acts as [| a acts IH]; intros e os e' Hr H0 Hmax i o token Hi Ht.
  - simpl in Hr. injection Hr as <- <-. done.
  - apply run_cons in Hr as (o1 & e1 & o2 & H1 & H2 & ->).
    destruct a as [sig price ck | s | w | r]; simpl in H1.
    2-4: injection H1 as <- <-; exact (IH _ _ _ H2 H0 Hmax i o token Hi Ht).
    apply bind_Some in H1 as ([d e1'] & Hev & [= <- <-]).
    destruct (evaluate_sequence _ _ _ _ _ _ Hev) as [Hsg Hseq].
    simpl in Hmax. destruct i as [| i]; simpl in Hi.
    + injection Hi as <-. simpl in Ht. destruct d as [tk q r |]; [| done]. injection Ht as ->.
      apply approved_inv in Hev as (_ & _ & _ & _ & -> & _).
      unfold message, Approval.sign. rewrite Approval.canonical_buf_eq. simpl.
      unfold count_approved. simpl. by rewrite Z.add_0_r.
    + assert (as_u64 (sequence e + 1) = sequence e + 1) as Hw by (apply as_u64_id; unfold_ok; lia).
      rewrite Hw in Hseq.
      rewrite (IH _ _ _ H2 ltac:(rewrite Hseq; destruct (is_approved d); lia)
                 ltac:(rewrite Hseq; destruct (is_approved d); lia) i o token Hi Ht).
      rewrite Hsg, Hseq. simpl. do 3 f_equal. unfold count_approved. rewrite filter_cons. simpl.
      destruct (is_approved d); simpl; lia.
Qed.

Lemma count_approved_lt os i j o : os !! i = Some o -> is_approved (oc_decision o) = true ->
  (i < j)%nat -> count_approved (take i os) < count_approved (take j os).
Proof.
  intros Hi Ha Hij. unfold count_approved.
  assert (take j os = take i os ++ o :: take (j - S i) (drop (S i) os)) as ->.
  { rewrite <- (take_drop_middle os i o Hi) at 1.
    assert (i < length os)%nat by (by eapply lookup_lt_Some).
    rewrite take_app_ge by (rewrite length_take; lia).
    rewrite length_take, Nat.min_l by lia.
    replace (j - i)%nat with (S (j - S i)) by lia. done. }
  rewrite filter_app, length_app, filter_cons, Ha. simpl. lia.
Qed.

Lemma count_approved_le os i : count_approved (take i os) <= Z.of_nat (length os).
Proof.
  unfold count_approved. pose proof (length_filter (fun o => is_approved (oc_decision o)) (take i os)).
  rewrite length_take in *. lia.
Qed.

Lemma message_inj o1 o2 s1 s2 : u64_ok s1 -> u64_ok s2 -> message o1 s1 = message o2 s2 -> s1 = s2.
Proof.
  unfold message, Approval.canonicalize_intent_bytes, Approval.push_canonical. unfold_ok.
  intros ? ? E. by apply (Approval.app_be_inj _ _ _ _ _ 0) in E as [_ E]; [| lia ..].
Qed.

End engine.
End RiskEngine.

(** ** Properties *)

(** Whether a tracker holds no trade. *)
Definition no_trades (c : Frequency.t) : Prop :=
  RingWindow.iter (Frequency.minute c) = [] /\ RingWindow.iter (Frequency.hour c) = []
  /\ RingWindow.len (Frequency.session c) = 0%nat.

Lemma no_trades_new c : Frequency.new = Some c -> no_trades c.
Proof. intros [= <-]. by split_and!. Qed.

Lemma no_trades_check c now a b d : no_trades c -> 1 <= a -> 1 <= b -> 1 <= d ->
  fst (Frequency.would_breach c now a b d) = false
  /\ no_trades (snd (Frequency.would_breach c now a b d)).
Proof.
  intros (Hm & Hh & Hs) ? ? ?. split; [| by split_and!].
  unfold Frequency.would_breach, Frequency.live_count. rewrite Hm, Hh, Hs. simpl.
  rewrite !Z.gtb_ltb. repeat (apply orb_false_intro); apply Z.ltb_ge; done.
Qed.

Section properties.
Context (hmac : list Z -> list Z -> list Z) {V : Type} {view : WarmCacheView V}.
Import RiskEngine.

(** C1: an evaluation decides by the first refusing gate of the ordered table: the reason
    is that gate's, the rationale records a pass for every earlier gate and nothing for the
    later ones; with no refusal the token is minted over the sized intent with the engine's
    sequence number and all thirteen gates are recorded as passed.  The engine changes only
    as [engine_after] says: the counters the frequency gate caches, the kill switch when the
    drawdown gate refuses, the sequence number when a token is minted.  The only panic is the
    conversion of the current civil time of day, which the source attempts with the switch off
    on a weekday. *)
Theorem evaluate_decides_by_first_refusal (e : t (V := V)) (sig : Signal) (price : Z) (ck : Clock) :
  match in_session_of e ck with
  | None => evaluate hmac e sig price ck = None
      /\ KillSwitchState.is_active (kill_switch e) = false
      /\ ck_weekday ck <> Sat /\ ck_weekday ck <> Sun
      /\ from_hms_opt (ck_hour ck) (ck_minute ck) (ck_second ck) = None
  | Some ins =>
      let refusal := first_refusal (gate_table e sig price ck ins) in
      exists d, evaluate hmac e sig price ck = Some (d, engine_after e ck refusal)
      /\ match refusal with
         | Some (i, reason) =>
             rejection_reason d = Some reason
             /\ Rationale.gates (decision_rationale d) = rationale_at i reason
         | None =>
             let q := size_quantity e sig price
                        (adaptive_risk_paise e sig (from_be (sig_correlation_id sig))) in
             decision_token d = Some (Approval.sign hmac (signer e) (minted_intent sig q) q
                                        (ck_mint_ns ck) (sequence e))
             /\ decision_sized_quantity d = q
             /\ Rationale.gates (decision_rationale d) = replicate 13 (Some Pass)
         end
  end.
Proof.
  destruct (in_session_of e ck) as [ins |] eqn:Hs; [by apply evaluate_spec |].
  unfold evaluate, evaluate_inner. unfold in_session_of in Hs. rewrite Hs. split; [done |].
  destruct (KillSwitchState.is_active (kill_switch e)); [discriminate Hs |]. split; [done |].
  unfold is_within_session in Hs. destruct (ck_weekday ck); try discriminate Hs;
    by destruct (from_hms_opt (ck_hour ck) (ck_minute ck) (ck_second ck)).
Qed.

(** The ranges the Rust types impose on what the limits are compared with. *)
Definition engine_ok (e : t (V := V)) (sig : Signal) (price : Z) : Prop :=
  risk_ok (risk_cfg e) /\ u64_ok (max_size_qty (sig_risk_profile sig))
  /\ 0 <= price <= i64_max
  /\ u64_ok (rs_portfolio_position (state e))
  /\ u64_ok (unwrap_or 0 (rs_per_symbol_position (state e) !! sig_symbol sig))
  /\ i64_ok (unwrap_or 0 (rs_per_symbol_exposure_paise (state e) !! sig_symbol sig)).


(** C39: the adaptive risk never exceeds the configured base risk, whatever the cached
    factors hold, NaN and infinities included; and when all three factors are neutral it is
    exactly the base risk. *)
Theorem adaptive_risk_bounded_and_neutral (e : t (V := V)) (sig : Signal) (cid : CorrelationId.t) :
  u32_ok (base_risk_per_trade_inr (risk_cfg e)) ->
  adaptive_risk_paise e sig cid <= base_risk_paise e
  /\ (wc_market_stability (warm_cache e) = f32_one -> wc_trader_stability (warm_cache e) = f32_one ->
      unwrap_or (sig_confidence sig) (wc_trade_confidence (warm_cache e) cid) = f32_one ->
      adaptive_risk_paise e sig cid = base_risk_paise e).
Proof. intros Hb. split; [by apply adaptive_bounds | by apply adaptive_neutral]. Qed.

(** The drawdown gate latches: in any interleaving of evaluations with state updates,
    cache updates and further engagements, every evaluation after one refused for drawdown
    is refused because the kill switch is engaged. *)
Theorem drawdown_refusal_latches (e e' : t (V := V)) (acts : list action) os i j oi oj :
  run hmac e acts = Some (os, e') ->
  os !! i = Some oi -> rejection_reason (oc_decision oi) = Some RejectionReason.MaxDrawdown ->
  (i < j)%nat -> os !! j = Some oj ->
  rejection_reason (oc_decision oj) = Some RejectionReason.KillSwitchEngaged.
Proof.
  revert e os i j. induction acts as [| a acts IH]; intros e os i j Hr Hi Hd Hij Hj.
  { simpl in Hr. by injection Hr as <- <-. }
  apply run_cons in Hr as (o1 & e1 & o2 & H1 & H2 & ->).
  destruct a as [sig price ck | s | w | r]; simpl in H1.
  2-4: injection H1 as <- <-; exact (IH _ _ _ _ H2 Hi Hd Hij Hj).
  apply bind_Some in H1 as ([d e1'] & Hev & [= <- <-]).
  destruct j as [| j]; [lia |]. destruct i as [| i]; simpl in Hi, Hj.
  - injection Hi as <-. pose proof (evaluate_drawdown_engages hmac _ _ _ _ _ _ Hev Hd) as Ha.
    destruct (run_engaged hmac _ _ _ _ Ha H2) as [_ Hall].
    by apply (Forall_lookup_1 _ _ _ _ Hall Hj).
  - assert (i < j)%nat as Hij' by lia. exact (IH _ _ _ _ H2 Hi Hd Hij' Hj).
Qed.

(** Two approvals of one session never share a token unless HMAC collides on two
    different messages: the sequence number makes every minted message distinct, byte-equal
    intents included, until the 64-bit counter wraps. *)
Theorem session_tokens_distinct (e e' : t (V := V)) (acts : list action) os i j oi oj token :
  run hmac e acts = Some (os, e') ->
  0 <= sequence e -> sequence e + Z.of_nat (length os) <= u64_max ->
  os !! i = Some oi -> os !! j = Some oj -> (i < j)%nat ->
  decision_token (oc_decision oi) = Some token -> decision_token (oc_decision oj) = Some token ->
  exists m1 m2, m1 <> m2
    /\ hmac (Approval.signer_key (signer e)) m1 = Approval.token_bytes token
    /\ hmac (Approval.signer_key (signer e)) m2 = Approval.token_bytes token.
Proof.
  intros Hr H0 Hmax Hi Hj Hij Hti Htj.
  pose proof (run_tokens hmac _ _ _ _ Hr H0 Hmax _ _ _ Hi Hti) as Ei.
  pose proof (run_tokens hmac _ _ _ _ Hr H0 Hmax _ _ _ Hj Htj) as Ej.
  do 2 eexists. split; [| split; [by rewrite Ei at 1 | by rewrite Ej at 1]].
  intros Em.
  assert (is_approved (oc_decision oi) = true) as Ha by (by destruct (oc_decision oi)).
  pose proof (count_approved_lt os i j oi Hi Ha Hij).
  pose proof (count_approved_le os i). pose proof (count_approved_le os j).
  assert (forall k, 0 <= count_approved (take k os)) as Hpos by (intros; unfold count_approved; lia).
  pose proof (Hpos i). pose proof (Hpos j).
  apply message_inj in Em; unfold u64_ok; lia.
Qed.

Local Ltac next := match goal with |- context [if ?b then _ else _] => destruct b end.

(** Nothing the engine does ever counts a trade: starting with no trade recorded, in
    any session whose other tasks record none either, no evaluation is refused for trade
    frequency, however many orders were approved before it. *)
Theorem frequency_gate_never_refuses (e e' : t (V := V)) (acts : list action) os :
  no_trades (rs_frequency (state e)) ->
  Forall (fun a => match a with MutateState s => no_trades (rs_frequency s) | _ => True end) acts ->
  1 <= max_trades_per_minute (risk_cfg e) -> 1 <= max_trades_per_hour (risk_cfg e) ->
  1 <= max_trades_per_session (risk_cfg e) ->
  run hmac e acts = Some (os, e') ->
  Forall (fun o => rejection_reason (oc_decision o) <> Some RejectionReason.TradeFrequency) os.
Proof.
  revert e os. induction acts as [| a acts IH]; intros e os Hn Hacts Hmin Hhour Hsess Hr.
  { simpl in Hr. injection Hr as <- <-. constructor. }
  apply Forall_cons in Hacts as [Ha Hacts].
  apply run_cons in Hr as (o1 & e1 & o2 & H1 & H2 & ->).
  destruct a as [sig price ck | s | w | r]; simpl in H1.
  2-4: injection H1 as <- <-; eapply IH; [.. | exact H2]; done.
  apply bind_Some in H1 as ([d e1'] & Hev & [= <- <-]).
  destruct (evaluate_in_session _ _ _ _ _ _ _ Hev) as [ins Hins].
  destruct (evaluate_spec hmac e sig price ck ins Hins) as (d' & Hd & Hcase).
  rewrite Hev in Hd. injection Hd as <- ->.
  destruct (no_trades_check (rs_frequency (state e)) (ck_frequency_ns ck) _ _ _ Hn Hmin Hhour Hsess)
    as [Hfreq Hn'].
  simpl. constructor.
  - simpl. clear H2. destruct (first_refusal _) as [[i reason] |] eqn:Ef.
    + destruct Hcase as [-> _]. intros [= ->]. revert Ef. unfold gate_table, breaches_frequency.
      unfold frequency_check. rewrite Hfreq. clear.
      simpl. repeat (next; [discriminate |]). discriminate.
    + destruct d; [done |]. by destruct Hcase.
  - assert (no_trades (rs_frequency (state (engine_after e ck
             (first_refusal (gate_table e sig price ck ins)))))
            /\ risk_cfg (engine_after e ck (first_refusal (gate_table e sig price ck ins)))
               = risk_cfg e) as [Hn2 Hrc].
    { unfold engine_after. destruct (first_refusal _) as [[i reason] |]; [| by split].
      destruct (i <? 3)%nat; [done |]. by destruct (i =? 3)%nat. }
    eapply IH; [exact Hn2 | exact Hacts | rewrite Hrc; done .. | exact H2].
Qed.
End properties.

(** *** A sample engine *)

Module Sample.
Import RiskEngine.
Definition hmac (k m : list Z) : list Z := k ++ m.
Definition all_day : SessionConfig := {| start_ist := 0; end_ist := 86399 |}.
Definition engine : t (V := MockWarmCache.t) :=
  match new Defaults.capital Defaults.risk all_day (Approval.mk_signer [1; 2]) MockWarmCache.neutral with
  | Some e => e
  | None => mk Defaults.capital Defaults.risk all_day (Approval.mk_signer []) KillSwitchState.new
              (mk_RiskState 0 0 0 0 0 ∅ ∅ ∅ 0
                 (Frequency.mk (RingWindow.mk 0 [] 0 0) (RingWindow.mk 0 [] 0 0)
                    (RingWindow.mk 0 [] 0 0) 0 0 0)
                 ∅ ∅ ∅ (Target.new 0 Target.Continue)) MockWarmCache.neutral 1
  end.
Definition signal : Signal :=
  {| sig_correlation_id := replicate 16 9; sig_strategy := 0; sig_symbol := 5; sig_side := 0;
     sig_base_probability := f32_lit 7 10; sig_confidence := f32_one;
     sig_risk_profile := mk_RiskProfile 9900 10500 50 300; sig_ts_ns := 1000 |}.
Definition clock : Clock := mk_Clock Mon 10 0 0 5000 5000 5001.

(** The base risk of 100 rupees at 500 paise a share buys 20 shares. *)
Definition decided : option (RiskDecision * t) := evaluate hmac engine signal 500 clock.
(** Profit up to 2000 rupees, then back to 500: past the drawdown limit of 1000. *)
Definition in_drawdown : RiskState :=
  RiskStateOps.update_pnl (RiskStateOps.update_pnl (state engine) 200000 0 Defaults.capital)
    50000 0 Defaults.capital.
Definition session : list (action (V := MockWarmCache.t)) :=
  [MutateState in_drawdown; Evaluate signal 500 clock; MutateState (state engine);
   Evaluate signal 500 clock].
End Sample.


Lemma adaptive_risk_bounded_and_neutral_witness :
  RiskEngine.adaptive_risk_paise Sample.engine Sample.signal 7 = 10000.
Proof.
  assert (u32_ok 100) as H by (unfold_ok; lia).
  destruct (adaptive_risk_bounded_and_neutral Sample.engine Sample.signal 7 H) as [_ Hn].
  rewrite Hn; reflexivity.
Defined.

Lemma drawdown_refusal_latches_witness :
  exists os e', RiskEngine.run Sample.hmac Sample.engine Sample.session = Some (os, e')
  /\ (RiskEngine.oc_decision <$> os !! 1%nat) ≫= rejection_reason
     = Some RejectionReason.KillSwitchEngaged.
Proof.
  do 2 eexists. split; [vm_compute; reflexivity |].
  refine (drawdown_refusal_latches Sample.hmac Sample.engine _ Sample.session _ 0 1 _ _ _ _ _ _ _);
    [vm_compute; reflexivity | reflexivity | reflexivity | lia | reflexivity].
Defined.

Lemma session_tokens_distinct_witness :
  let acts := [RiskEngine.Evaluate (V := MockWarmCache.t) Sample.signal 500 Sample.clock;
               RiskEngine.Evaluate (V := MockWarmCache.t) Sample.signal 500 Sample.clock] in
  exists m1 m2 : list Z, m1 <> m2.
Proof.
  intros acts.
  destruct (session_tokens_distinct (fun _ _ => [3]) Sample.engine
    (snd (unwrap_or ([], Sample.engine) (RiskEngine.run (fun _ _ => [3]) Sample.engine acts))) acts
    (fst (unwrap_or ([], Sample.engine) (RiskEngine.run (fun _ _ => [3]) Sample.engine acts))) 0 1
    (RiskEngine.mk_outcome Sample.signal 500 Sample.clock
       (Approved (Approval.mk_token [3]) 20 (mk_RiskRationale (Some Pass) (Some Pass) (Some Pass)
         (Some Pass) (Some Pass) (Some Pass) (Some Pass) (Some Pass) (Some Pass) (Some Pass)
         (Some Pass) (Some Pass) (Some Pass))))
    (RiskEngine.mk_outcome Sample.signal 500 Sample.clock
       (Approved (Approval.mk_token [3]) 20 (mk_RiskRationale (Some Pass) (Some Pass) (Some Pass)
         (Some Pass) (Some Pass) (Some Pass) (Some Pass) (Some Pass) (Some Pass) (Some Pass)
         (Some Pass) (Some Pass) (Some Pass))))
    (Approval.mk_token [3])) as (m1 & m2 & Hne & _);
    [vm_compute; reflexivity | vm_compute; discriminate | vm_compute; discriminate
    | vm_compute; reflexivity | vm_compute; reflexivity | lia | reflexivity | reflexivity |].
  by exists m1, m2.
Defined.

Lemma frequency_gate_never_refuses_witness :
  exists os e', RiskEngine.run Sample.hmac Sample.engine
      (replicate 6 (RiskEngine.Evaluate (V := MockWarmCache.t) Sample.signal 500 Sample.clock)) = Some (os, e')
  /\ Forall (fun o => rejection_reason (RiskEngine.oc_decision o)
                      <> Some RejectionReason.TradeFrequency) os.
Proof.
  do 2 eexists. split; [vm_compute; reflexivity |].
  apply (frequency_gate_never_refuses Sample.hmac Sample.engine
    (snd (unwrap_or ([], Sample.engine) (RiskEngine.run Sample.hmac Sample.engine
       (replicate 6 (RiskEngine.Evaluate (V := MockWarmCache.t) Sample.signal 500 Sample.clock)))))
    (replicate 6 (RiskEngine.Evaluate (V := MockWarmCache.t) Sample.signal 500 Sample.clock)));
    [by split_and! | by repeat constructor | vm_compute; discriminate .. | vm_compute; reflexivity].
Defined.
