(* ===== verification/OrderFlow.v ===== *)
(** The state and the measures of crates/hedge-orderflow: the live book (book.rs), the
    rolling delta and the book indicators (metrics.rs), the heatmap rows (heatmap.rs).  The
    fixed-capacity vectors of arrayvec are lists, with the capacity where the code checks it. *)

From S2P Require Import Prelude Ieee Core Schemas.

(** ** The live book (book.rs) *)

Definition MAX_BOOK_LEVELS : nat := 20.

Module LiveBook.

(** [last_seq] is the timestamp of the last book accepted, 0 before the first. *)
Record t := mk { bid_levels : list BookLevel; ask_levels : list BookLevel; last_seq : Z }.

Definition new : t := mk [] [] 0.
Definition is_empty (b : t) : bool :=
  bool_decide (bid_levels b = []) && bool_decide (ask_levels b = []).
Definition top_bid (b : t) : option BookLevel := list.head (bid_levels b).
Definition top_ask (b : t) : option BookLevel := list.head (ask_levels b).
Definition top_bid_px (b : t) : option Px.t := (fun l => Px.from_paise (price_paise l)) <$> top_bid b.
Definition top_ask_px (b : t) : option Px.t := (fun l => Px.from_paise (price_paise l)) <$> top_ask b.

(** [ArrayVec::try_push] refuses an element beyond the capacity. *)
Definition try_push (levels : list BookLevel) (l : BookLevel) : list BookLevel :=
  if (length levels <? MAX_BOOK_LEVELS)%nat then levels ++ [l] else levels.
Definition fill (levels : list BookLevel) : list BookLevel :=
  foldl try_push [] (take MAX_BOOK_LEVELS levels).

(** False when the book is refused as out of order. *)
Definition apply (b : t) (book : OrderBook) : bool * t :=
  if (ob_ts_ns book <=? last_seq b) && negb (last_seq b =? 0) then (false, b)
  else (true, mk (fill (ob_bid_levels book)) (fill (ob_ask_levels book)) (ob_ts_ns book)).

Definition clear (b : t) : t := mk [] [] 0.

Lemma fill_take levels : fill levels = take MAX_BOOK_LEVELS levels.
Proof.
  unfold fill. set (l := take MAX_BOOK_LEVELS levels).
  assert (length l <= MAX_BOOK_LEVELS)%nat as Hl by (unfold l; rewrite length_take; lia).
  clearbody l. rewrite <- (app_nil_l l) at 2. rewrite <- (app_nil_l l) in Hl.
  generalize dependent (@nil BookLevel). induction l as [| x l IH]; intros acc Hl; simpl.
  - by rewrite app_nil_r.
  - rewrite length_app in Hl. simpl in Hl. unfold try_push at 2.
    rewrite (proj2 (Nat.ltb_lt _ _)) by lia.
    rewrite IH by (rewrite !length_app; simpl; lia). by rewrite <- (assoc_L (++)).
Qed.

(** The book a sequence of updates should leave: the first of those with the greatest
    timestamp. *)
Fixpoint latest (books : list OrderBook) : option OrderBook :=
  match books with
  | [] => None
  | b :: books =>
    match latest books with
    | Some b' => if ob_ts_ns b <? ob_ts_ns b' then Some b' else Some b
    | None => Some b
    end
  end.

Definition shows (o : option OrderBook) (b : t) : Prop :=
  match o with
  | Some book => b = mk (take MAX_BOOK_LEVELS (ob_bid_levels book))
                       (take MAX_BOOK_LEVELS (ob_ask_levels book)) (ob_ts_ns book)
  | None => b = new
  end.

Lemma latest_app books book :
  latest (books ++ [book]) =
  match latest books with
  | Some b => if ob_ts_ns b <? ob_ts_ns book then Some book else Some b
  | None => Some book
  end.
Proof.
  induction books as [| b books IH]; simpl; [done |]. rewrite IH.
  destruct (latest books) as [c |]; [| done].
  destruct (Z.ltb_spec (ob_ts_ns c) (ob_ts_ns book)), (Z.ltb_spec (ob_ts_ns b) (ob_ts_ns c)); simpl;
    split_ifs; try done; bool_to_prop; lia.
Qed.

Lemma latest_elem books b : latest books = Some b -> b ∈ books.
Proof.
  revert b. induction books as [| x books IH]; intros b; simpl; [done |].
  destruct (latest books) as [c |].
  - destruct (_ <? _); intros [= <-]; [apply list_elem_of_further, IH; done | apply list_elem_of_here].
  - intros [= <-]. apply list_elem_of_here.
Qed.

Lemma applies_latest books : Forall (fun b => 0 < ob_ts_ns b) books ->
  shows (latest books) (foldl (fun b book => (apply b book).2) new books).
Proof.
  induction books as [| book books IH] using rev_ind; [done |]. intros [Hb [Hpos _]%Forall_cons]%Forall_app.
  specialize (IH Hb). rewrite foldl_app, latest_app. cbn [foldl].
  set (b0 := foldl _ _ books) in *. clearbody b0. unfold apply. rewrite !fill_take.
  pose proof (latest_elem books) as Hin. destruct (latest books) as [c |]; simpl in IH; rewrite IH; [| simpl; by rewrite andb_false_r].
  specialize (Hin c eq_refl). rewrite Forall_forall in Hb. specialize (Hb c Hin). simpl in *.
  destruct (Z.eqb_spec (ob_ts_ns c) 0); [lia |]. rewrite andb_true_r.
  destruct (Z.leb_spec (ob_ts_ns book) (ob_ts_ns c)), (Z.ltb_spec (ob_ts_ns c) (ob_ts_ns book));
    simpl; try lia; done.
Qed.

End LiveBook.

(** ** The rolling delta (metrics.rs) *)

Module RollingDelta.

Definition DEFAULT_ROLLING_DELTA_WINDOW_NS : Z := 30 * 1000000000.
Definition ROLLING_DELTA_BUCKETS : nat := 300.

Record DeltaBucket := mk_DeltaBucket {
  bucket_start_ns : Z;
  bkt_buyer_volume : Z;
  bkt_seller_volume : Z;
}.

Record t := mk {
  window_ns : Z;
  bucket_size_ns : Z;
  buckets : RingWindow.t DeltaBucket;
  open : DeltaBucket;
  open_initialised : bool;
}.

Definition bucket_size (window : Z) : Z := Z.max (window / Z.of_nat ROLLING_DELTA_BUCKETS) 1.

Definition with_window (window : Z) : t :=
  mk window (bucket_size window)
    (RingWindow.fresh ROLLING_DELTA_BUCKETS (mk_DeltaBucket 0 0 0)) (mk_DeltaBucket 0 0 0) false.

Definition record (d : t) (now_ns buyer_volume seller_volume : Z) : t :=
  let bucket_start := now_ns / bucket_size_ns d * bucket_size_ns d in
  if negb (open_initialised d) then
    mk (window_ns d) (bucket_size_ns d) (buckets d)
      (mk_DeltaBucket bucket_start buyer_volume seller_volume) true
  else if bucket_start =? bucket_start_ns (open d) then
    mk (window_ns d) (bucket_size_ns d) (buckets d)
      (mk_DeltaBucket (bucket_start_ns (open d))
         (u64_sat_add (bkt_buyer_volume (open d)) buyer_volume)
         (u64_sat_add (bkt_seller_volume (open d)) seller_volume)) true
  else
    mk (window_ns d) (bucket_size_ns d) (RingWindow.push (buckets d) (open d))
      (mk_DeltaBucket bucket_start buyer_volume seller_volume) true.

(** The body that [buyer_volume] and [seller_volume] share. *)
Definition volume (vol : DeltaBucket -> Z) (d : t) (now_ns : Z) : Z :=
  let cutoff := u64_sat_sub now_ns (window_ns d) in
  let total := foldl (fun total b =>
    if cutoff <=? bucket_start_ns b then u128_sat_add total (vol b) else total)
    0 (RingWindow.iter (buckets d)) in
  let total := if open_initialised d && (cutoff <=? bucket_start_ns (open d))
               then u128_sat_add total (vol (open d)) else total in
  Z.min total u64_max.
Definition buyer_volume : t -> Z -> Z := volume bkt_buyer_volume.
Definition seller_volume : t -> Z -> Z := volume bkt_seller_volume.

Definition signed_delta (d : t) (now_ns : Z) : Z :=
  sat i64_min i64_max (buyer_volume d now_ns - seller_volume d now_ns).

(** *** The specification: the trades recorded, each at the start of its bucket *)

Record trade := mk_trade { at_ns : Z; bought : Z; sold : Z }.

Definition records (window : Z) (trades : list trade) : t :=
  foldl (fun d r => record d (at_ns r) (bought r) (sold r)) (with_window window) trades.

Definition bucket_of (window : Z) (r : trade) : Z := at_ns r / bucket_size window * bucket_size window.

Definition volume_since (qty : trade -> Z) (window cutoff : Z) (trades : list trade) : Z :=
  list_sum (qty <$> filter (fun r => cutoff <= bucket_of window r) trades).

End RollingDelta.

Module RollingDeltaFacts.
Import RollingDelta.
Section facts.
Context (window : Z) (Hwindow : 0 <= window).

Let size := bucket_size window.
Lemma size_pos : 1 <= bucket_size window.
Proof. unfold bucket_size. lia. Qed.

Definition spaced (a b : DeltaBucket) : Prop := bucket_start_ns a + size <= bucket_start_ns b.

Lemma spaced_first x l o : StronglySorted spaced (x :: l ++ [o]) ->
  bucket_start_ns x + (1 + Z.of_nat (length l)) * size <= bucket_start_ns o.
Proof.
  revert x. induction l as [| y l IH]; intros x H.
  - apply StronglySorted_inv in H as [_ [Hx _]%Forall_cons]. unfold spaced in Hx. simpl. lia.
  - apply StronglySorted_inv in H as [H [Hx _]%Forall_cons]. unfold spaced in Hx.
    specialize (IH y H). cbn [length]. lia.
Qed.

Lemma volumes_since vol cutoff l : Forall (fun b => u64_ok (vol b)) l -> (length l <= 400)%nat ->
  forall acc, 0 <= acc <= u64_max * (400 - Z.of_nat (length l)) ->
  foldl (fun total b => if cutoff <=? bucket_start_ns b then u128_sat_add total (vol b) else total) acc l
  = acc + list_sum (vol <$> filter (fun b => cutoff <= bucket_start_ns b) l).
Proof.
  induction 1 as [| b l Hb Hl IH]; intros Hn acc Hacc; [simpl; lia |].
  cbn [length] in Hn, Hacc. rewrite filter_cons. cbn [foldl].
  destruct (Z.leb_spec cutoff (bucket_start_ns b)).
  - rewrite decide_True by done. unfold u128_sat_add. rewrite sat_id by (unfold_ok; lia).
    rewrite IH by (unfold_ok; lia). rewrite fmap_cons, list_sum_cons. lia.
  - rewrite decide_False by lia. apply IH; unfold_ok; lia.
Qed.

(** What the closed buckets [L] and the open one tell of the trades on either side. *)
Definition agrees (vol : DeltaBucket -> Z) (qty : trade -> Z) (bs : list DeltaBucket) (rs : list trade) :=
  Forall (fun b => u64_ok (vol b)) bs /\ forall cutoff,
  Z.min u64_max (list_sum (vol <$> filter (fun b => cutoff <= bucket_start_ns b) bs))
  = Z.min u64_max (volume_since qty window cutoff rs).

Record inv (rs : list trade) (r : trade) (d : t) (L : list DeltaBucket) : Prop := {
  inv_window : window_ns d = window;
  inv_size : bucket_size_ns d = size;
  inv_wf : RingWindow.wf (buckets d);
  inv_cap : RingWindow.cap (buckets d) = ROLLING_DELTA_BUCKETS;
  inv_iter : RingWindow.iter (buckets d) = RingWindow.last_n ROLLING_DELTA_BUCKETS L;
  inv_open : open_initialised d = true;
  inv_spaced : StronglySorted spaced (L ++ [open d]);
  inv_last : bucket_start_ns (open d) = bucket_of window r;
  inv_buyer : agrees bkt_buyer_volume bought (L ++ [open d]) (rs ++ [r]);
  inv_seller : agrees bkt_seller_volume sold (L ++ [open d]) (rs ++ [r]);
}.

Lemma volume_since_app qty cutoff rs r :
  volume_since qty window cutoff (rs ++ [r])
  = volume_since qty window cutoff rs + (if cutoff <=? bucket_of window r then qty r else 0).
Proof.
  unfold volume_since. rewrite filter_app, fmap_app, list_sum_app. f_equal.
  rewrite filter_cons, filter_nil. destruct (Z.leb_spec cutoff (bucket_of window r)).
  - rewrite decide_True by done. csimpl. unfold list_sum. simpl. lia.
  - rewrite decide_False by lia. done.
Qed.

Lemma sum_since_app vol cutoff L b :
  list_sum (vol <$> filter (fun b => cutoff <= bucket_start_ns b) (L ++ [b]))
  = list_sum (vol <$> filter (fun b => cutoff <= bucket_start_ns b) L)
    + (if cutoff <=? bucket_start_ns b then vol b else 0).
Proof.
  rewrite filter_app, fmap_app, list_sum_app. f_equal.
  rewrite filter_cons, filter_nil. destruct (Z.leb_spec cutoff (bucket_start_ns b)).
  - rewrite decide_True by done. csimpl. unfold list_sum. simpl. lia.
  - rewrite decide_False by lia. done.
Qed.

Lemma filtered_sum_nonneg {A} (f : A -> Z) (P : A -> Prop) `{!forall x, Decision (P x)} (l : list A) :
  Forall (fun x => u64_ok (f x)) l -> 0 <= list_sum (f <$> filter P l).
Proof.
  induction 1 as [| x l Hx Hl IH]; [done |]. rewrite filter_cons. unfold_ok.
  destruct (decide (P x)); [| done]. rewrite fmap_cons, list_sum_cons. lia.
Qed.

Lemma filtered_sum_le {A} (f : A -> Z) (P : A -> Prop) `{!forall x, Decision (P x)} (l : list A) :
  Forall (fun x => u64_ok (f x)) l ->
  list_sum (f <$> filter P l) <= u64_max * Z.of_nat (length l).
Proof.
  induction 1 as [| x l Hx Hl IH]; [done |]. rewrite filter_cons. unfold_ok. cbn [length].
  destruct (decide (P x)); [| lia]. rewrite fmap_cons, list_sum_cons. lia.
Qed.

(** A trade in the open bucket, and a trade that opens the next one. *)
Lemma agrees_same vol qty L o o' rs r :
  bucket_start_ns o' = bucket_start_ns o -> bucket_start_ns o = bucket_of window r ->
  vol o' = u64_sat_add (vol o) (qty r) -> u64_ok (qty r) -> Forall (fun r => u64_ok (qty r)) rs ->
  agrees vol qty (L ++ [o]) rs -> agrees vol qty (L ++ [o']) (rs ++ [r]).
Proof.
  intros Hs Hr Hv Hq Hrs [[HL Ho]%Forall_app Hsum]. rewrite Forall_singleton in Ho. split.
  - apply Forall_app. split; [done |]. apply Forall_singleton. rewrite Hv. unfold_ok. sat_lia.
  - intros cutoff. specialize (Hsum cutoff). rewrite volume_since_app. revert Hsum.
    rewrite !sum_since_app, Hs, Hr, Hv. pose proof (filtered_sum_nonneg vol (fun b => cutoff <= bucket_start_ns b) L HL).
    pose proof (filtered_sum_nonneg qty (fun r => cutoff <= bucket_of window r) rs Hrs) as Hn.
    fold (volume_since qty window cutoff rs) in Hn. unfold_ok.
    destruct (cutoff <=? bucket_of window r); [| lia]. sat_lia.
Qed.

Lemma agrees_next vol qty L o rs r :
  bucket_start_ns o = bucket_of window r -> vol o = qty r -> u64_ok (qty r) ->
  Forall (fun r => u64_ok (qty r)) rs -> Forall (fun b => u64_ok (vol b)) L ->
  agrees vol qty L rs -> agrees vol qty (L ++ [o]) (rs ++ [r]).
Proof.
  intros Hs Hv Hq Hrs HL [_ Hsum]. split.
  - apply Forall_app. split; [done |]. apply Forall_singleton. by rewrite Hv.
  - intros cutoff. specialize (Hsum cutoff). rewrite volume_since_app, sum_since_app, Hs, Hv. unfold_ok.
    pose proof (filtered_sum_nonneg vol (fun b => cutoff <= bucket_start_ns b) L HL).
    pose proof (filtered_sum_nonneg qty (fun r => cutoff <= bucket_of window r) rs Hrs) as Hn.
    fold (volume_since qty window cutoff rs) in Hn.
    destruct (cutoff <=? bucket_of window r); lia.
Qed.

Definition trade_ok (r : trade) : Prop := 0 <= at_ns r /\ u64_ok (bought r) /\ u64_ok (sold r).

Lemma bucket_of_mono r r' : at_ns r <= at_ns r' -> bucket_of window r <= bucket_of window r'.
Proof.
  intros H. unfold bucket_of. pose proof size_pos.
  apply Z.mul_le_mono_nonneg_r; [lia |]. apply Z.div_le_mono; lia.
Qed.

Lemma bucket_of_le r : bucket_of window r <= at_ns r.
Proof.
  unfold bucket_of. pose proof size_pos.
  pose proof (Z.div_mod (at_ns r) (bucket_size window) ltac:(lia)).
  pose proof (Z.mod_pos_bound (at_ns r) (bucket_size window) ltac:(lia)). lia.
Qed.

Lemma inv_first r : trade_ok r ->
  inv [] r (record (with_window window) (at_ns r) (bought r) (sold r)) [].
Proof.
  intros (Hn & Hb & Hs). pose proof (RingWindow.fresh_wf ROLLING_DELTA_BUCKETS (mk_DeltaBucket 0 0 0)) as [Hw Hi];
    [unfold ROLLING_DELTA_BUCKETS; lia |].
  split; try done; try (by repeat constructor).
  all: apply (agrees_next _ _ [] _ []); [done | done | done | constructor | constructor | by split].
Qed.

Lemma rolling_inv_step rs r r' d L : inv rs r d L -> at_ns r <= at_ns r' -> trade_ok r' ->
  Forall trade_ok (rs ++ [r]) ->
  exists L', inv (rs ++ [r]) r' (record d (at_ns r') (bought r') (sold r')) L'.
Proof.
  intros [Hw Hsz Hwf Hc Hi Ho Hsp Hl Hb Hs] Hle (Hn & Hb' & Hs') Hall.
  assert (Forall (fun r => u64_ok (bought r)) (rs ++ [r]) /\ Forall (fun r => u64_ok (sold r)) (rs ++ [r]))
    as [Hbs Hss] by (split; eapply Forall_impl; try exact Hall; by intros ? (? & ? & ?)).
  pose proof (bucket_of_mono r r' Hle) as Hmono.
  unfold record. rewrite Ho, Hsz. fold size. change (at_ns r' / size * size) with (bucket_of window r').
  cbn [negb]. destruct (Z.eqb_spec (bucket_of window r') (bucket_start_ns (open d))) as [He | He].
  - exists L. split; cbn [window_ns bucket_size_ns buckets open open_initialised bucket_start_ns]; try done.
    + apply StronglySorted_app in Hsp as (Hx & H1 & _). apply StronglySorted_app.
      split_and!; [| done | by repeat constructor]. intros a b Ha Hb0%list_elem_of_singleton. subst b.
      specialize (Hx a (open d) Ha ltac:(by apply list_elem_of_singleton)). done.
    + by apply (agrees_same _ _ L (open d)).
    + by apply (agrees_same _ _ L (open d)).
  - exists (L ++ [open d]). split; cbn [window_ns bucket_size_ns buckets open open_initialised bucket_start_ns];
      try done.
    + by apply RingWindow.push_wf.
    + by rewrite RingWindow.push_cap.
    + rewrite RingWindow.push_refines, Hi, Hc by done. apply RingWindow.spec_push_last_n.
      unfold ROLLING_DELTA_BUCKETS. lia.
    + apply StronglySorted_app. split_and!; [| done | by repeat constructor].
      intros a b Ha Hb0%list_elem_of_singleton. subst b. unfold spaced. cbn [bucket_start_ns].
      assert (bucket_start_ns a <= bucket_start_ns (open d)) as Hao.
      { apply elem_of_app in Ha as [Ha | ->%list_elem_of_singleton]; [| done].
        apply StronglySorted_app in Hsp as (Hx & _).
        specialize (Hx a (open d) Ha ltac:(by apply list_elem_of_singleton)). unfold spaced in Hx.
        pose proof size_pos. unfold size in Hx. lia. }
      rewrite Hl in *. unfold bucket_of in *. fold size in Hmono, He, Hao |- *.
      pose proof size_pos as Hp. fold size in Hp.
      assert (at_ns r / size < at_ns r' / size) by (apply (Z.mul_lt_mono_pos_r size); lia). nia.
    + apply (agrees_next _ _ (L ++ [open d])); try done. apply Hb.
    + apply (agrees_next _ _ (L ++ [open d])); try done. apply Hs.
Qed.

Lemma inv_records rs r : StronglySorted (fun a b => at_ns a <= at_ns b) (rs ++ [r]) ->
  Forall trade_ok (rs ++ [r]) -> exists L, inv rs r (records window (rs ++ [r])) L.
Proof.
  revert r. induction rs as [| r0 rs IH] using rev_ind; intros r Hs Ha.
  - exists []. apply Forall_cons in Ha as [Ha _]. by apply inv_first.
  - apply StronglySorted_app in Hs as (Hx & Hs & _). apply Forall_app in Ha as [Ha Hr].
    destruct (IH r0 Hs Ha) as [L HL]. unfold records in *. rewrite foldl_app. cbn [foldl].
    apply (rolling_inv_step rs r0 r _ L); try done.
    + apply Hx; [apply elem_of_app; right; by apply list_elem_of_singleton | by apply list_elem_of_singleton].
    + by apply Forall_cons in Hr as [? _].
Qed.

(** Buckets that the ring has dropped start before the window. *)
Lemma dropped_before_window rs r d L now : inv rs r d L -> window / size <= 300 ->
  at_ns r <= now <= u64_max ->
  filter (fun b => u64_sat_sub now window <= bucket_start_ns b)
    (take (length L - ROLLING_DELTA_BUCKETS) L) = [].
Proof.
  intros HI Hk Hnow. set (k := (length L - ROLLING_DELTA_BUCKETS)%nat).
  assert (Forall (fun b => ~ u64_sat_sub now window <= bucket_start_ns b) (take k L)) as HF.
  { apply Forall_lookup. intros i b Hb. apply lookup_take_Some in Hb as [Hb Hik].
    pose proof (inv_spaced _ _ _ _ HI) as Hsp. rewrite <- (take_drop_middle L i b Hb) in Hsp.
    rewrite <- (assoc_L (++)) in Hsp. apply StronglySorted_app in Hsp as (_ & _ & Hsp).
    apply spaced_first in Hsp. rewrite length_drop, (inv_last _ _ _ _ HI) in Hsp.
    pose proof (bucket_of_le r). pose proof size_pos as Hp. fold size in Hp.
    pose proof (lookup_lt_Some _ _ _ Hb).
    assert (300 <= Z.of_nat (length L - S i)) by (unfold k, ROLLING_DELTA_BUCKETS in Hik; lia).
    pose proof (Z.div_mod window size ltac:(lia)). pose proof (Z.mod_pos_bound window size ltac:(lia)).
    assert (window < 301 * size) by nia.
    assert (301 * size <= (1 + Z.of_nat (length L - S i)) * size) by nia.
    unfold u64_sat_sub, sat. destruct (Z.ltb_spec (now - window) 0); [lia |].
    destruct (Z.ltb_spec u64_max (now - window)); unfold_ok; lia. }
  induction HF as [| b l Hb HF IHl]; [done |]. rewrite filter_cons, decide_False by done. done.
Qed.

Lemma volume_exact vol qty rs r d L now : inv rs r d L -> window / size <= 300 ->
  at_ns r <= now <= u64_max -> agrees vol qty (L ++ [open d]) (rs ++ [r]) ->
  volume vol d now = Z.min u64_max (volume_since qty window (u64_sat_sub now window) (rs ++ [r])).
Proof.
  intros HI Hk Hnow [Hok Hsum]. pose proof (dropped_before_window rs r d L now HI Hk Hnow) as Hdrop.
  destruct HI as [Hw _ Hwf Hc Hi Ho _ _ _ _].
  unfold volume. rewrite Hw, Hi, Ho. rewrite <- Hsum. set (cutoff := u64_sat_sub now window) in *.
  apply Forall_app in Hok as [HL Hopen]. apply Forall_cons in Hopen as [Hopen _].
  pose proof (filtered_sum_nonneg vol (fun b => cutoff <= bucket_start_ns b) L HL) as Hnn.
  assert (list_sum (vol <$> filter (fun b => cutoff <= bucket_start_ns b) L)
    = list_sum (vol <$> filter (fun b => cutoff <= bucket_start_ns b) (RingWindow.last_n ROLLING_DELTA_BUCKETS L)))
    as Hlast.
  { rewrite <- (take_drop (length L - ROLLING_DELTA_BUCKETS) L) at 1.
    rewrite filter_app, Hdrop. done. }
  assert (Forall (fun b => u64_ok (vol b)) (RingWindow.last_n ROLLING_DELTA_BUCKETS L)) as HLn
    by (by apply Forall_drop).
  assert (length (RingWindow.last_n ROLLING_DELTA_BUCKETS L) <= 300)%nat as Hlen
    by (rewrite RingWindow.last_n_length; unfold ROLLING_DELTA_BUCKETS; lia).
  rewrite (volumes_since vol cutoff) by (try done; unfold_ok; lia).
  rewrite sum_since_app, Hlast. cbn [andb].
  assert (list_sum (vol <$> filter (fun b => cutoff <= bucket_start_ns b)
    (RingWindow.last_n ROLLING_DELTA_BUCKETS L)) <= u64_max * 300) as Hub.
  { etransitivity; [apply filtered_sum_le, HLn | unfold_ok; lia]. }
  rewrite Hlast in Hnn.
  destruct (cutoff <=? bucket_start_ns (open d)); [| lia].
  unfold u128_sat_add. rewrite sat_id by (unfold_ok; lia). lia.
Qed.

End facts.
End RollingDeltaFacts.

(** After trades recorded in time order, the buyer and seller volumes read at a later
    time are the sums, capped at the 64-bit maximum, of all the trades whose bucket starts
    inside the window, and the signed delta is their difference: the 300-bucket ring and the
    open bucket lose nothing, provided the window is at most 301 buckets long, as it is when
    300 divides it. *)
Theorem rolling_delta_exact (window now : Z) (trades : list RollingDelta.trade) :
  0 <= window -> window / RollingDelta.bucket_size window <= 300 -> 0 <= now <= u64_max ->
  Forall RollingDeltaFacts.trade_ok trades ->
  StronglySorted (fun a b => RollingDelta.at_ns a <= RollingDelta.at_ns b) trades ->
  Forall (fun r => RollingDelta.at_ns r <= now) trades ->
  let d := RollingDelta.records window trades in
  let total qty := Z.min u64_max
    (RollingDelta.volume_since qty window (u64_sat_sub now window) trades) in
  RollingDelta.buyer_volume d now = total RollingDelta.bought
  /\ RollingDelta.seller_volume d now = total RollingDelta.sold
  /\ RollingDelta.signed_delta d now
     = sat i64_min i64_max (total RollingDelta.bought - total RollingDelta.sold).
Proof.
  intros Hw Hk Hnow Hok Hsorted Hbefore d total.
  assert (RollingDelta.buyer_volume d now = total RollingDelta.bought
    /\ RollingDelta.seller_volume d now = total RollingDelta.sold) as [Hb Hs].
  { destruct trades as [| r rs _] using rev_ind.
    - unfold d, total, RollingDelta.records, RollingDelta.buyer_volume, RollingDelta.seller_volume.
      cbn [foldl]. unfold RollingDelta.volume, RollingDelta.with_window.
      cbn [RollingDelta.buckets RollingDelta.open_initialised RollingDelta.window_ns andb].
      destruct (RingWindow.fresh_wf RollingDelta.ROLLING_DELTA_BUCKETS (RollingDelta.mk_DeltaBucket 0 0 0))
        as [_ ->]; [unfold RollingDelta.ROLLING_DELTA_BUCKETS; lia | done].
    - destruct (RollingDeltaFacts.inv_records window rs r Hsorted Hok) as [L HI].
      apply Forall_app in Hbefore as [_ [Hr _]%Forall_cons].
      split; eapply (RollingDeltaFacts.volume_exact window Hw _ _ rs r); eauto; try lia;
        [apply (RollingDeltaFacts.inv_buyer _ _ _ _ _ HI) | apply (RollingDeltaFacts.inv_seller _ _ _ _ _ HI)]. }
  split_and!; [done | done |]. unfold RollingDelta.signed_delta. by rewrite Hb, Hs.
Qed.

(** A window of 600 ns: buckets of 2 ns; a trade before the window, two in one bucket. *)
Module DeltaSample.
Definition trades : list RollingDelta.trade :=
  [RollingDelta.mk_trade 10 5 0; RollingDelta.mk_trade 500 7 0; RollingDelta.mk_trade 501 0 3;
   RollingDelta.mk_trade 900 1 1].
End DeltaSample.

Lemma rolling_delta_exact_witness :
  RollingDelta.buyer_volume (RollingDelta.records 600 DeltaSample.trades) 1000 = 8
  /\ RollingDelta.seller_volume (RollingDelta.records 600 DeltaSample.trades) 1000 = 4
  /\ RollingDelta.signed_delta (RollingDelta.records 600 DeltaSample.trades) 1000 = 4.
Proof.
  refine (rolling_delta_exact 600 1000 DeltaSample.trades _ _ _ _ _ _).
  - lia.
  - vm_compute. discriminate.
  - unfold u64_max. lia.
  - repeat constructor; vm_compute; discriminate.
  - repeat constructor; vm_compute; discriminate.
  - repeat constructor; vm_compute; discriminate.
Defined.

(** ** The book indicators (metrics.rs) *)

Module Indicators.

Definition LIQUIDITY_PRESSURE_DEPTH : nat := 5.
Definition f32_neg_one : f32 := f_opp f32_one.

Definition bid_ask_imbalance (book : LiveBook.t) : f32 :=
  let bid_qty := f64_of_Z (unwrap_or 0 (qty <$> LiveBook.top_bid book)) in
  let ask_qty := f64_of_Z (unwrap_or 0 (qty <$> LiveBook.top_ask book)) in
  let total := f64_add bid_qty ask_qty in
  if f_le total f_zero then f_zero
  else
    let v := f64_div (f64_sub bid_qty ask_qty) total in
    f_clamp f32_neg_one f32_one (f64_to_f32 v).

Definition depth (levels : list BookLevel) : Z :=
  list_sum (qty <$> take LIQUIDITY_PRESSURE_DEPTH levels).

Definition liquidity_pressure (book : LiveBook.t) : f32 :=
  let bid_sum := depth (LiveBook.bid_levels book) in
  let ask_sum := depth (LiveBook.ask_levels book) in
  let total := bid_sum + ask_sum in
  if total =? 0 then f_zero
  else
    let num := f64_sub (f64_of_Z bid_sum) (f64_of_Z ask_sum) in
    let den := f64_of_Z total in
    f_clamp f32_neg_one f32_one (f64_to_f32 (f64_div num den)).

Definition levels_ok (levels : list BookLevel) : Prop := Forall (fun l => u64_ok (qty l)) levels.

Lemma top_ok levels : levels_ok levels -> u64_ok (unwrap_or 0 (qty <$> list.head levels)).
Proof. intros H. destruct H; [unfold_ok; simpl; lia | done]. Qed.

Lemma depth_bound levels : levels_ok levels -> 0 <= depth levels <= 5 * u64_max.
Proof.
  intros H. assert (Forall (fun l => u64_ok (qty l)) (take LIQUIDITY_PRESSURE_DEPTH levels)) as Ht
    by (by apply Forall_take).
  assert (length (take LIQUIDITY_PRESSURE_DEPTH levels) <= 5)%nat as Hn
    by (rewrite length_take; unfold LIQUIDITY_PRESSURE_DEPTH; lia).
  unfold depth. revert Hn Ht. generalize (take LIQUIDITY_PRESSURE_DEPTH levels). intros l Hn Ht.
  assert (0 <= list_sum (qty <$> l) <= u64_max * Z.of_nat (length l)); [| unfold_ok; nia].
  clear Hn. induction Ht as [| x l Hx Ht IH]; [done |]. rewrite fmap_cons, list_sum_cons. cbn [length].
  unfold_ok. lia.
Qed.

(** A value in [-1, 1]. *)
Definition unit_range (x : f32) : Prop :=
  f_is_nan x = false /\ f_le f32_neg_one x = true /\ f_le x f32_one = true.

Lemma clamped_unit v : f_is_nan v = false ->
  unit_range (f_clamp f32_neg_one f32_one (f64_to_f32 v)).
Proof. intros Hv. apply f_clamp_bounds; try done. by apply f64_to_f32_not_nan. Qed.

Lemma quotient_not_nan a b d : f_is_finite a = true -> f_is_finite b = true ->
  f_is_finite d = true -> f_le d f_zero = false ->
  f_is_nan (f64_div (f64_sub a b) d) = false.
Proof.
  intros Ha Hb Hd Hz. destruct d as [[] | | | s m e]; try done.
  apply SFdiv_not_nan; try lia. by apply SFsub_not_nan; try lia.
Qed.
End Indicators.

(** Whatever quantities a book shows, the bid-ask imbalance and the liquidity pressure
    are numbers in [-1, 1]: no division by zero, overflow or NaN. *)
Theorem book_indicators_in_unit_range (book : LiveBook.t) :
  Indicators.levels_ok (LiveBook.bid_levels book) -> Indicators.levels_ok (LiveBook.ask_levels book) ->
  Indicators.unit_range (Indicators.bid_ask_imbalance book)
  /\ Indicators.unit_range (Indicators.liquidity_pressure book).
Proof.
  intros Hb Ha. split.
  - unfold Indicators.bid_ask_imbalance.
    pose proof (Indicators.top_ok _ Hb) as Hqb. pose proof (Indicators.top_ok _ Ha) as Hqa.
    fold (LiveBook.top_bid book) in Hqb. fold (LiveBook.top_ask book) in Hqa.
    pose proof (f64_of_u64_below _ Hqb) as Fb.
    pose proof (f64_of_u64_below _ Hqa) as Fa.
    set (x := f64_of_Z (unwrap_or 0 (qty <$> LiveBook.top_bid book))) in *.
    set (y := f64_of_Z (unwrap_or 0 (qty <$> LiveBook.top_ask book))) in *.
    destruct (f_le (f64_add x y) f_zero) eqn:E; [by split_and! |].
    apply Indicators.clamped_unit, Indicators.quotient_not_nan; try done;
      eapply f_below_finite; try eassumption.
    eapply (SFadd_below 53 1024) with (k := 129); try eassumption; lia.
  - unfold Indicators.liquidity_pressure.
    pose proof (Indicators.depth_bound _ Hb) as Hdb. pose proof (Indicators.depth_bound _ Ha) as Hda.
    set (x := Indicators.depth (LiveBook.bid_levels book)) in *.
    set (y := Indicators.depth (LiveBook.ask_levels book)) in *. clearbody x y.
    destruct (Z.eqb_spec (x + y) 0); [by split_and! |].
    apply Indicators.clamped_unit. unfold_ok.
    destruct (f64_of_Z_nonzero (x + y) ltac:(lia)) as (s & m & e & ->).
    apply SFdiv_not_nan; try lia.
    apply SFsub_not_nan; try lia; eapply f_below_finite, f64_of_Z_below; lia.
Qed.

Lemma book_indicators_in_unit_range_witness :
  let book := LiveBook.mk [mk_BookLevel 100 u64_max 1] [mk_BookLevel 101 1 1] 5 in
  Indicators.unit_range (Indicators.bid_ask_imbalance book)
  /\ Indicators.unit_range (Indicators.liquidity_pressure book).
Proof.
  apply (book_indicators_in_unit_range (LiveBook.mk [mk_BookLevel 100 u64_max 1] [mk_BookLevel 101 1 1] 5));
    repeat constructor; vm_compute; discriminate.
Defined.

(** ** The heatmap (heatmap.rs) *)

Module HeatmapSnapshot.
Record HeatmapRow := mk_HeatmapRow {
  bid_price_paise : Z; bid_qty : Z; ask_price_paise : Z; ask_qty : Z;
}.
Definition default_row : HeatmapRow := mk_HeatmapRow 0 0 0 0.
#[global] Instance HeatmapRow_eq_dec : EqDecision HeatmapRow.
Proof. solve_decision. Defined.

Record t := mk { hm_symbol : Z; hm_ts_ns : Z; rows : list HeatmapRow }.

Definition empty (symbol : Z) : t := mk symbol 0 (replicate MAX_BOOK_LEVELS default_row).

Definition row (book : LiveBook.t) (i : nat) : HeatmapRow :=
  let bid := LiveBook.bid_levels book !! i in
  let ask := LiveBook.ask_levels book !! i in
  mk_HeatmapRow (unwrap_or 0 (price_paise <$> bid)) (unwrap_or 0 (qty <$> bid))
    (unwrap_or 0 (price_paise <$> ask)) (unwrap_or 0 (qty <$> ask)).

(** [for i in 0..MAX_BOOK_LEVELS { self.rows[i] = ... }] *)
Definition fill_from (s : t) (book : LiveBook.t) (ts_ns : Z) : t :=
  mk (hm_symbol s) ts_ns
    (foldl (fun rows i => <[i := row book i]> rows) (rows s) (seq 0 MAX_BOOK_LEVELS)).

Definition from_book (symbol : Z) (book : LiveBook.t) (ts_ns : Z) : t :=
  fill_from (empty symbol) book ts_ns.

Definition is_empty (s : t) : bool := forallb (fun r => bool_decide (r = default_row)) (rows s).

Lemma from_book_rows symbol book ts_ns :
  rows (from_book symbol book ts_ns) = row book <$> seq 0 MAX_BOOK_LEVELS.
Proof. reflexivity. Qed.
End HeatmapSnapshot.

(** The watch channel of a symbol holds the last snapshot sent. *)
Module OrderflowHeatmap.
Record t := mk { symbol : Z; sender : HeatmapSnapshot.t }.
Definition new (symbol : Z) : t := mk symbol (HeatmapSnapshot.empty symbol).
Definition get_snapshot (h : t) : HeatmapSnapshot.t := sender h.
Definition publish (h : t) (snap : HeatmapSnapshot.t) : t := mk (symbol h) snap.
Definition publish_from_book (h : t) (book : LiveBook.t) (ts_ns : Z) : t :=
  publish h (HeatmapSnapshot.from_book (symbol h) book ts_ns).
End OrderflowHeatmap.
