(* ===== verification/OrderFlowDetector.v ===== *)
(** The event detector of crates/hedge-orderflow (events.rs): liquidity gaps, absorption,
    hidden liquidity, and the spoofing tracker over a bounded list of candidates. *)

From S2P Require Import Prelude Ieee Core Schemas OrderFlow.

Module OrderflowEvent.
Inductive t :=
| LiquidityGap (side : Side.t) (level : Px.t) (size : Z)
| Absorption (side : Side.t) (level : Px.t) (size : Z)
| HiddenLiquidity (side : Side.t) (level : Px.t)
| Spoofing (side : Side.t) (level : Px.t) (evidence_score : f32).
End OrderflowEvent.

(** ** Compaction in place

    The loops of the detector read the list at increasing indices and write back what they
    keep at a second index, then truncate.  [body] says whether to keep the element, and
    threads a state. *)

Module Compact.
Section compact.
Context {A B : Type} (body : A -> B -> bool * B).

Fixpoint loop (reads : list nat) (buf : list A) (write : nat) (b : B) : list A * nat * B :=
  match reads with
  | [] => (buf, write, b)
  | read :: reads =>
    match buf !! read with
    | None => (buf, write, b)
    | Some p =>
      let '(keep, b) := body p b in
      if keep then loop reads (<[write := p]> buf) (S write) b else loop reads buf write b
    end
  end.

Definition retain (buf : list A) (b : B) : list A * B :=
  let '(buf, write, b) := loop (seq 0 (length buf)) buf 0 b in (take write buf, b).

(** What the loop computes: one pass that keeps the elements in order. *)
Fixpoint pass (l : list A) (b : B) : list A * B :=
  match l with
  | [] => ([], b)
  | p :: l =>
    let '(keep, b) := body p b in
    let '(l, b) := pass l b in (if keep then p :: l else l, b)
  end.

Lemma loop_pass l : forall kept gap b, exists tl,
  let '(buf, write, b') := loop (seq (length kept + length gap) (length l)) (kept ++ gap ++ l) (length kept) b in
  buf = kept ++ (pass l b).1 ++ tl /\ write = (length kept + length (pass l b).1)%nat /\ b' = (pass l b).2.
Proof.
  induction l as [| p l IH]; intros kept gap b; cbn [length seq loop pass].
  - exists gap. rewrite app_nil_r. cbn. split_and!; [done | lia | done].
  - rewrite lookup_app_r by lia. rewrite lookup_app_r by lia.
    replace (length kept + length gap - length kept - length gap)%nat with 0%nat by lia. cbn [lookup list_lookup].
    destruct (body p b) as [[] b1].
    + destruct gap as [| g gap].
      * cbn [length app] in *. rewrite Nat.add_0_r.
        rewrite list_insert_id by (rewrite lookup_app_r, Nat.sub_diag by lia; done).
        destruct (IH (kept ++ [p]) [] b1) as [tl H]. exists tl. revert H.
        rewrite length_app. cbn [length app]. rewrite <- (assoc_L (++) kept [p]).
        replace (length kept + 1 + 0)%nat with (S (length kept)) by lia.
        replace (length kept + 1)%nat with (S (length kept)) by lia.
        destruct (loop _ _ _ _) as [[buf w] b']. destruct (pass l b1) as [l' b2]. cbn.
        intros (-> & -> & ->). rewrite <- !(assoc_L (++)). split_and!; [done | lia | done].
      * replace (<[length kept := p]> (kept ++ (g :: gap) ++ p :: l))
          with ((kept ++ [p]) ++ (gap ++ [p]) ++ l).
        2: { rewrite insert_app_r_alt, Nat.sub_diag by lia. cbn. by rewrite <- !(assoc_L (++)). }
        destruct (IH (kept ++ [p]) (gap ++ [p]) b1) as [tl H]. exists tl. revert H.
        rewrite !length_app. cbn [length app].
        replace (length kept + 1 + (length gap + 1))%nat with (S (length kept + S (length gap))) by lia.
        replace (length kept + 1)%nat with (S (length kept)) by lia.
        destruct (loop _ _ _ _) as [[buf w] b']. destruct (pass l b1) as [l' b2]. cbn.
        intros (-> & -> & ->). rewrite <- !(assoc_L (++)). split_and!; [done | lia | done].
    + destruct (IH kept (gap ++ [p]) b1) as [tl H]. exists tl. revert H.
      rewrite !length_app, <- (assoc_L (++) gap [p]). cbn [length app].
      replace (length kept + (length gap + 1))%nat with (S (length kept + length gap)) by lia.
      destruct (loop _ _ _ _) as [[buf w] b']. destruct (pass l b1) as [l' b2]. cbn. done.
Qed.

Lemma retain_pass l b : retain l b = pass l b.
Proof.
  unfold retain. destruct (loop_pass l [] [] b) as [tl H]. cbn [length app] in H. revert H.
  destruct (loop _ _ _ _) as [[buf w] b']. intros (-> & -> & ->). cbn [app].
  rewrite Nat.add_0_l, take_app_length. by destruct (pass l b).
Qed.
Lemma pass_kept l : forall b p, p ∈ (pass l b).1 -> p ∈ l /\ exists b', (body p b').1 = true.
Proof.
  induction l as [| x l IH]; intros b p; cbn [pass]; [by intros ?%elem_of_nil |].
  destruct (body x b) as [keep b1] eqn:E. specialize (IH b1 p). destruct (pass l b1) as [l' b2].
  cbn [fst] in *. destruct keep.
  - intros [-> | Hp]%elem_of_cons.
    + split; [apply list_elem_of_here | exists b; by rewrite E].
    + destruct (IH Hp) as [? ?]. split; [by apply list_elem_of_further | done].
  - intros Hp. destruct (IH Hp) as [? ?]. split; [by apply list_elem_of_further | done].
Qed.
End compact.

Lemma pass_stateless {A B} (keep : A -> bool) (l : list A) (b : B) :
  pass (fun p b => (keep p, b)) l b = (filter (fun p => keep p = true) l, b).
Proof.
  induction l as [| p l IH]; cbn [pass]; [done |]. rewrite IH, filter_cons.
  destruct (keep p); [by rewrite decide_True | by rewrite decide_False].
Qed.
End Compact.

(** ** The detector *)

Module Detector.

Definition LIQUIDITY_GAP_TICKS : Z := 3.
Definition DEFAULT_TICK_SIZE_PAISE : Z := 1.
Definition SPOOF_QTY_MULTIPLIER : Z := 5.
Definition SPOOF_WINDOW_NS : Z := 500000000.
Definition SPOOF_MEDIAN_WINDOW : nat := 64.
Definition SPOOF_PENDING_CAPACITY : nat := 32.

Record PendingOrder := mk_PendingOrder {
  p_side : Side.t;
  p_price_paise : Z;
  p_qty : Z;
  placed_ts_ns : Z;
  filled_qty : Z;
}.

Record t := mk {
  tick_size_paise : Z;
  qty_history : RingWindow.t Z;
  pending : list PendingOrder;
  last_top_bid : option BookLevel;
  last_top_ask : option BookLevel;
}.

Definition with_tick_size (tick : Z) : t :=
  mk (Z.max tick 1) (RingWindow.fresh SPOOF_MEDIAN_WINDOW 0) [] None None.
Definition new : t := with_tick_size DEFAULT_TICK_SIZE_PAISE.
Definition pending_len (d : t) : nat := length (pending d).

Definition median (samples : list Z) : Z :=
  let buf := merge_sort Z.le (take SPOOF_MEDIAN_WINDOW samples) in
  let n := length buf in
  if (n =? 0)%nat then 0
  else if (n mod 2 =? 0)%nat then
    (unwrap_or 0 (buf !! (n / 2 - 1)%nat) + unwrap_or 0 (buf !! (n / 2)%nat)) / 2
  else unwrap_or 0 (buf !! (n / 2)%nat).

Definition rolling_median_qty (d : t) : Z :=
  if RingWindow.is_empty (qty_history d) then 0 else median (RingWindow.iter (qty_history d)).

(** The caller's [BoundedEvents] and the number emitted into it. *)
Definition sink : Type := BoundedEvents.t OrderflowEvent.t * nat.
Definition emit (e : OrderflowEvent.t) (s : sink) : sink :=
  let '(r, out) := BoundedEvents.try_push s.1 e in
  (out, if is_ok r then S s.2 else s.2).

Definition detect_liquidity_gap (side : Side.t) (levels : list BookLevel) (tick : Z) :
    option OrderflowEvent.t :=
  match levels with
  | top :: next :: _ =>
    let gap_paise := as_i64 (Z.abs (as_i64 (price_paise top - price_paise next))) in
    let threshold_paise := i64_sat_mul LIQUIDITY_GAP_TICKS tick in
    if threshold_paise <? gap_paise
    then Some (OrderflowEvent.LiquidityGap side (Px.from_paise (price_paise top)) (qty top))
    else None
  | _ => None
  end.

Definition top (side : Side.t) (book : LiveBook.t) : option BookLevel :=
  match side with Side.Buy => LiveBook.top_bid book | Side.Sell => LiveBook.top_ask book end.

Definition still_present (p : PendingOrder) (book : LiveBook.t) : bool :=
  match top (p_side p) book with
  | Some l => (price_paise l =? p_price_paise p) && (p_qty p / 2 <=? qty l)
  | None => false
  end.

Definition evidence (quantity filled : Z) : f32 :=
  f_clamp f_zero f32_one
    (f32_div (f32_of_Z (u64_sat_sub quantity filled)) (f32_of_Z (Z.max quantity 1))).

(** One round of the loop of [advance_spoofing]. *)
Definition advance_body (book : LiveBook.t) (now_ns : Z) (p : PendingOrder) (s : sink) : bool * sink :=
  let age := u64_sat_sub now_ns (placed_ts_ns p) in
  if negb (still_present p book) && (age <=? SPOOF_WINDOW_NS) && (filled_qty p <? p_qty p / 4) then
    (false, emit (OrderflowEvent.Spoofing (p_side p) (Px.from_paise (p_price_paise p))
                    (evidence (p_qty p) (filled_qty p))) s)
  else if SPOOF_WINDOW_NS <? age then (false, s)
  else (true, s).

Definition set_pending (d : t) (ps : list PendingOrder) : t :=
  mk (tick_size_paise d) (qty_history d) ps (last_top_bid d) (last_top_ask d).

Definition advance_spoofing (d : t) (book : LiveBook.t) (now_ns : Z) (s : sink) : t * sink :=
  let '(ps, s) := Compact.retain (advance_body book now_ns) (pending d) s in (set_pending d ps, s).

(** The index of the first pending order with the least timestamp. *)
Fixpoint oldest (ps : list PendingOrder) (i oldest_idx : nat) (oldest_ts : Z) : nat :=
  match ps with
  | [] => oldest_idx
  | p :: ps => if placed_ts_ns p <? oldest_ts then oldest ps (S i) i (placed_ts_ns p)
               else oldest ps (S i) oldest_idx oldest_ts
  end.

Definition same_quote (side : Side.t) (price : Z) (p : PendingOrder) : bool :=
  bool_decide (p_side p = side) && (p_price_paise p =? price).

Definition try_register_pending (d : t) (side : Side.t) (l : BookLevel) (now_ns : Z) : t :=
  if existsb (same_quote side (price_paise l)) (pending d) then d
  else
    let entry := mk_PendingOrder side (price_paise l) (qty l) now_ns 0 in
    if (length (pending d) <? SPOOF_PENDING_CAPACITY)%nat then set_pending d (pending d ++ [entry])
    else set_pending d (<[oldest (pending d) 0 0 u64_max := entry]> (pending d)).

Definition register_if_large (threshold : Z) (side : Side.t) (book : LiveBook.t) (now_ns : Z) (d : t) : t :=
  match top side book with
  | Some l => if threshold <? qty l then try_register_pending d side l now_ns else d
  | None => d
  end.

Definition emit_option (o : option OrderflowEvent.t) (s : sink) : sink :=
  match o with Some e => emit e s | None => s end.

Definition dominant_qty (book : LiveBook.t) : Z :=
  Z.max (unwrap_or 0 (qty <$> LiveBook.top_bid book)) (unwrap_or 0 (qty <$> LiveBook.top_ask book)).

(** The third and fourth parts of [observe_book]: the quantity window, then the candidates. *)
Definition push_qty (d : t) (book : LiveBook.t) : t :=
  mk (tick_size_paise d) (RingWindow.push (qty_history d) (dominant_qty book))
    (pending d) (last_top_bid d) (last_top_ask d).
Definition register_candidates (d : t) (book : LiveBook.t) (now_ns : Z) : t :=
  let median := rolling_median_qty d in
  if 0 <? median then
    let threshold := u64_sat_mul median SPOOF_QTY_MULTIPLIER in
    register_if_large threshold Side.Sell book now_ns
      (register_if_large threshold Side.Buy book now_ns d)
  else d.

Definition observe_book (d : t) (book : LiveBook.t) (now_ns : Z)
    (out : BoundedEvents.t OrderflowEvent.t) : t * sink :=
  let s := (out, 0%nat) in
  let s := emit_option (detect_liquidity_gap Side.Buy (LiveBook.bid_levels book) (tick_size_paise d)) s in
  let s := emit_option (detect_liquidity_gap Side.Sell (LiveBook.ask_levels book) (tick_size_paise d)) s in
  let '(d, s) := advance_spoofing d book now_ns s in
  let d := register_candidates (push_qty d book) book now_ns in
  (mk (tick_size_paise d) (qty_history d) (pending d) (LiveBook.top_bid book) (LiveBook.top_ask book), s).

Definition aggressor_side (trade_px : Z) (book : LiveBook.t) : option Side.t :=
  match LiveBook.top_ask book with
  | Some ask =>
    if price_paise ask <=? trade_px then Some Side.Buy
    else match LiveBook.top_bid book with
         | Some bid => if trade_px <=? price_paise bid then Some Side.Sell else None
         | None => None
         end
  | None => None
  end.

Definition absorb (trade_px trade_qty : Z) (book : LiveBook.t) (s : sink) : sink :=
  match aggressor_side trade_px book with
  | None => s
  | Some aggr =>
    match (match aggr with Side.Buy => LiveBook.top_ask book | Side.Sell => LiveBook.top_bid book end) with
    | None => s
    | Some level =>
      if qty level <? trade_qty then
        emit (OrderflowEvent.HiddenLiquidity (Side.opposite aggr) (Px.from_paise (price_paise level)))
          (emit (OrderflowEvent.Absorption (Side.opposite aggr) (Px.from_paise (price_paise level)) trade_qty) s)
      else s
    end
  end.

Definition account (trade_px trade_qty : Z) (p : PendingOrder) : PendingOrder :=
  if p_price_paise p =? trade_px then
    mk_PendingOrder (p_side p) (p_price_paise p) (p_qty p) (placed_ts_ns p)
      (u64_sat_add (filled_qty p) trade_qty)
  else p.

Definition observe_trade (d : t) (tick : Tick) (book : LiveBook.t)
    (out : BoundedEvents.t OrderflowEvent.t) : t * sink :=
  let trade_px := ltp_paise tick in
  let trade_qty := ltq tick in
  if trade_qty =? 0 then (d, (out, 0%nat))
  else
    let s := absorb trade_px trade_qty book (out, 0%nat) in
    let ps := account trade_px trade_qty <$> pending d in
    let '(ps, s) := Compact.retain (fun p s => (filled_qty p <? p_qty p, s)) ps s in
    (set_pending d ps, s).

End Detector.

(** ** The specification: what a history of observations says of a spoofing report *)

Module SpoofSpec.
Import Detector.

Inductive observation :=
| Book (book : LiveBook.t) (now_ns : Z)
| Trade (tick : Tick) (book : LiveBook.t).

Definition events_capacity : nat := 4.

(** Each observation writes into a fresh vector, as the engine does. *)
Definition step (d : t) (o : observation) : t * list OrderflowEvent.t :=
  let out := BoundedEvents.new events_capacity in
  let '(d, (out, _)) :=
    match o with
    | Book book now_ns => observe_book d book now_ns out
    | Trade tick book => observe_trade d tick book out
    end in
  (d, BoundedEvents.as_slice out).

Definition run (tick : Z) (h : list observation) : t :=
  foldl (fun d o => (step d o).1) (with_tick_size tick) h.

(** The larger top quantity of each book seen. *)
Fixpoint quantities (h : list observation) : list Z :=
  match h with
  | [] => []
  | Book book _ :: h => dominant_qty book :: quantities h
  | Trade _ _ :: h => quantities h
  end.

Definition usual_size (h : list observation) : Z :=
  median (RingWindow.last_n SPOOF_MEDIAN_WINDOW (quantities h)).

(** The quantity traded at a price. *)
Fixpoint traded (price : Z) (h : list observation) : Z :=
  match h with
  | [] => 0
  | Trade tick _ :: h => (if ltp_paise tick =? price then ltq tick else 0) + traded price h
  | Book _ _ :: h => traded price h
  end.

Definition shown (side : Side.t) (price quantity : Z) (book : LiveBook.t) : Prop :=
  exists l, top side book = Some l /\ price_paise l = price /\ quantity / 2 <= qty l.

Definition shown_throughout (side : Side.t) (price quantity : Z) (h : list observation) : Prop :=
  Forall (fun o => match o with Book b _ => shown side price quantity b | Trade _ _ => True end) h.

(** [quantity] appeared at the top of [side] at [placed], more than five times the usual
    size then, and what followed is [since]. *)
Definition appeared (h : list observation) (side : Side.t) (price quantity placed : Z)
    (since : list observation) : Prop :=
  exists before book l,
    h = before ++ Book book placed :: since
    /\ top side book = Some l /\ price_paise l = price /\ qty l = quantity
    /\ 0 < usual_size (before ++ [Book book placed])
    /\ u64_sat_mul (usual_size (before ++ [Book book placed])) SPOOF_QTY_MULTIPLIER < quantity.

Definition observation_ok (o : observation) : Prop :=
  match o with
  | Trade tick _ => u64_ok (ltq tick)
  | Book book _ => Indicators.levels_ok (LiveBook.bid_levels book)
                   /\ Indicators.levels_ok (LiveBook.ask_levels book)
  end.

End SpoofSpec.

Module SpoofFacts.
Import Detector SpoofSpec.

Lemma quantities_app h h' : quantities (h ++ h') = quantities h ++ quantities h'.
Proof. induction h as [| [] h IH]; cbn; [done | by rewrite IH | done]. Qed.

Lemma traded_app price h h' : traded price (h ++ h') = traded price h + traded price h'.
Proof. induction h as [| [] h IH]; cbn; [done | done | rewrite IH; lia]. Qed.

Lemma traded_nonneg price h : Forall observation_ok h -> 0 <= traded price h.
Proof.
  induction 1 as [| o h Ho Hh IH]; [done |]. destruct o; cbn; [done |].
  cbn in Ho. unfold_ok. destruct (_ =? price); lia.
Qed.

Lemma appeared_app h side price q placed since o :
  appeared h side price q placed since -> appeared (h ++ [o]) side price q placed (since ++ [o]).
Proof.
  intros (before & book & l & -> & H). exists before, book, l. split; [| done].
  by rewrite <- (assoc_L (++)).
Qed.

Lemma appeared_ok h side price q placed since :
  appeared h side price q placed since -> Forall observation_ok h -> Forall observation_ok since.
Proof. intros (before & book & l & -> & _) [_ [_ H]%Forall_cons]%Forall_app. done. Qed.

Lemma appeared_qty h side price q placed since :
  appeared h side price q placed since -> Forall observation_ok h -> u64_ok q.
Proof.
  intros (before & book & l & -> & Hl & _ & <- & _) [_ [[Hb Ha] _]%Forall_cons]%Forall_app.
  destruct side; cbn in Hl; unfold LiveBook.top_bid, LiveBook.top_ask in Hl;
    [destruct Hb | destruct Ha]; try done; by injection Hl as <-.
Qed.

Lemma still_present_shown p book :
  still_present p book = true <-> shown (p_side p) (p_price_paise p) (p_qty p) book.
Proof.
  unfold still_present, shown. destruct (top (p_side p) book) as [l |].
  - rewrite andb_true_iff, Z.eqb_eq, Z.leb_le. split; [intros []; by exists l |].
    by intros (l' & [= <-] & ? & ?).
  - split; [done | by intros (? & ? & _)].
Qed.

(** What the tracker knows of a candidate. *)
Definition justified (h : list observation) (p : PendingOrder) : Prop :=
  exists since,
    appeared h (p_side p) (p_price_paise p) (p_qty p) (placed_ts_ns p) since
    /\ filled_qty p = Z.min u64_max (traded (p_price_paise p) since)
    /\ (filled_qty p < p_qty p / 4 ->
        shown_throughout (p_side p) (p_price_paise p) (p_qty p) since).

Lemma justified_trade h p tick book : Forall observation_ok h -> u64_ok (ltq tick) ->
  justified h p -> justified (h ++ [Trade tick book]) (account (ltp_paise tick) (ltq tick) p).
Proof.
  intros Hh Ht (since & Ha & Hf & Hs).
  pose proof (traded_nonneg (p_price_paise p) since (appeared_ok _ _ _ _ _ _ Ha Hh)) as Hn.
  exists (since ++ [Trade tick book]). unfold account.
  destruct (Z.eqb_spec (p_price_paise p) (ltp_paise tick)) as [He | He];
    cbn [p_side p_price_paise p_qty placed_ts_ns filled_qty];
    (split; [by apply appeared_app |]); rewrite traded_app; cbn [traded].
  - rewrite <- He, Z.eqb_refl.
    assert (u64_sat_add (filled_qty p) (ltq tick)
      = Z.min u64_max (traded (p_price_paise p) since + (ltq tick + 0))) as -> by (unfold_ok; rewrite Hf; sat_lia).
    split; [done |]. intros Hlt. apply Forall_app. split; [apply Hs; unfold_ok; lia | by constructor].
  - rewrite (proj2 (Z.eqb_neq _ _)) by done. split; [lia |].
    intros Hlt. apply Forall_app. split; [by apply Hs | by constructor].
Qed.

Lemma justified_book h p book now : justified h p ->
  (filled_qty p < p_qty p / 4 -> still_present p book = true) ->
  justified (h ++ [Book book now]) p.
Proof.
  intros (since & Ha & Hf & Hs) Hp. exists (since ++ [Book book now]). split_and!.
  - by apply appeared_app.
  - rewrite traded_app. cbn. by rewrite Z.add_0_r.
  - intros Hlt. apply Forall_app. split; [by apply Hs |]. constructor; [| done].
    by apply still_present_shown, Hp.
Qed.

(** *** Where the events come from *)

Lemma emit_elem e e' s : e ∈ BoundedEvents.as_slice (emit e' s).1 ->
  e ∈ BoundedEvents.as_slice s.1 \/ e = e'.
Proof.
  unfold emit, BoundedEvents.try_push. destruct (BoundedEvents.is_full s.1); cbn; [by left |].
  intros [? | ->%list_elem_of_singleton]%elem_of_app; [by left | by right].
Qed.

Definition vanished (book : LiveBook.t) (now_ns : Z) (p : PendingOrder) : Prop :=
  still_present p book = false /\ u64_sat_sub now_ns (placed_ts_ns p) <= SPOOF_WINDOW_NS
  /\ filled_qty p < p_qty p / 4.

Lemma advance_elem book now_ns e l : forall s,
  e ∈ BoundedEvents.as_slice (Compact.pass (advance_body book now_ns) l s).2.1 ->
  e ∈ BoundedEvents.as_slice s.1 \/ exists p, p ∈ l /\ vanished book now_ns p
    /\ e = OrderflowEvent.Spoofing (p_side p) (p_price_paise p) (evidence (p_qty p) (filled_qty p)).
Proof.
  induction l as [| p l IH]; intros s; cbn [Compact.pass]; [by left |].
  destruct (advance_body book now_ns p s) as [keep s1] eqn:E. specialize (IH s1).
  destruct (Compact.pass _ l s1) as [l' s2]. cbn [snd] in *. intros He.
  destruct (IH He) as [Hs | (q & Hq & Hv & Heq)].
  2: { right. exists q. split; [by apply list_elem_of_further | done]. }
  revert E. unfold advance_body. split_ifs; intros [= _ <-]; try by left.
  apply emit_elem in Hs as [Hs | ->]; [by left |]. right. exists p.
  split_and!; [apply list_elem_of_here | by split_and! | done].
Qed.

Lemma advance_kept book now_ns p s : (advance_body book now_ns p s).1 = true ->
  filled_qty p < p_qty p / 4 -> still_present p book = true.
Proof.
  unfold advance_body. intros H Hlt. destruct (still_present p book) eqn:E; [done |].
  revert H. cbn [negb andb]. split_ifs; cbn; try done. bool_to_prop. lia.
Qed.

Lemma register_forall (P : PendingOrder -> Prop) threshold side book now_ns d :
  Forall P (pending d) ->
  (forall l, top side book = Some l -> threshold < qty l ->
    P (mk_PendingOrder side (price_paise l) (qty l) now_ns 0)) ->
  Forall P (pending (register_if_large threshold side book now_ns d))
  /\ qty_history (register_if_large threshold side book now_ns d) = qty_history d.
Proof.
  intros Hd He. unfold register_if_large. destruct (top side book) as [l |]; [| done].
  destruct (Z.ltb_spec threshold (qty l)) as [Hlt |]; [| done]. specialize (He l eq_refl Hlt).
  unfold try_register_pending. destruct (existsb _ _); [done |].
  destruct (_ <? _)%nat; (split; [| done]); cbn [set_pending pending].
  - apply Forall_app. split; [done |]. by constructor.
  - by apply Forall_insert.
Qed.

(** *** The invariant *)

Record inv (h : list observation) (d : t) : Prop := {
  inv_wf : RingWindow.wf (qty_history d);
  inv_cap : RingWindow.cap (qty_history d) = SPOOF_MEDIAN_WINDOW;
  inv_iter : RingWindow.iter (qty_history d) = RingWindow.last_n SPOOF_MEDIAN_WINDOW (quantities h);
  inv_pending : Forall (justified h) (pending d);
}.

Lemma median_spec h d : inv h d -> rolling_median_qty d = usual_size h.
Proof.
  intros [Hwf Hc Hi _]. unfold rolling_median_qty, usual_size. rewrite <- Hi.
  unfold RingWindow.is_empty. destruct (Nat.eqb_spec (RingWindow.len (qty_history d)) 0) as [H0 |]; [| done].
  rewrite <- (RingWindow.iter_length _ Hwf) in H0. apply nil_length_inv in H0. by rewrite H0.
Qed.

Lemma inv_new tick : inv [] (with_tick_size tick).
Proof.
  destruct (RingWindow.fresh_wf SPOOF_MEDIAN_WINDOW 0) as [Hw Hi]; [unfold SPOOF_MEDIAN_WINDOW; lia |].
  by split.
Qed.

Lemma inv_book h d book now_ns : inv h d -> inv (h ++ [Book book now_ns]) (step d (Book book now_ns)).1.
Proof.
  intros [Hwf Hc Hi Hp]. unfold step, observe_book, advance_spoofing. rewrite Compact.retain_pass.
  set (s0 := emit_option _ (emit_option _ _)). clearbody s0.
  pose proof (Compact.pass_kept (advance_body book now_ns) (pending d) s0) as Hkept.
  destruct (Compact.pass _ _ s0) as [ps [out n]]. cbn [fst] in Hkept.
  assert (inv (h ++ [Book book now_ns]) (push_qty (set_pending d ps) book)) as Hd1.
  { split; cbn [push_qty set_pending qty_history pending].
    - by apply RingWindow.push_wf.
    - by rewrite RingWindow.push_cap.
    - rewrite RingWindow.push_refines, Hc, Hi, quantities_app by done. apply RingWindow.spec_push_last_n.
      unfold SPOOF_MEDIAN_WINDOW. lia.
    - apply Forall_forall. intros p Hin. destruct (Hkept p Hin) as [Hin' [s Hs]].
      apply justified_book; [by apply (proj1 (Forall_forall _ _) Hp) |]. by apply (advance_kept _ now_ns _ s). }
  set (d1 := push_qty _ _) in *. clearbody d1. clear Hp Hkept Hwf Hc Hi.
  unfold register_candidates. rewrite (median_spec _ _ Hd1).
  destruct (Z.ltb_spec 0 (usual_size (h ++ [Book book now_ns]))) as [Hpos |]; [| by destruct Hd1].
  set (threshold := u64_sat_mul _ _).
  assert (forall side l, top side book = Some l -> threshold < qty l ->
    justified (h ++ [Book book now_ns]) (mk_PendingOrder side (price_paise l) (qty l) now_ns 0)) as Hentry.
  { intros side l Hl Hlt. exists []. split_and!; [| done | by constructor]. by exists h, book, l. }
  destruct Hd1 as [Hwf Hc Hi Hp].
  destruct (register_forall _ threshold Side.Buy book now_ns d1 Hp (Hentry Side.Buy)) as [Hp1 Hq1].
  destruct (register_forall _ threshold Side.Sell book now_ns _ Hp1 (Hentry Side.Sell)) as [Hp2 Hq2].
  split; cbn [qty_history pending fst]; by rewrite ?Hq2, ?Hq1.
Qed.

Lemma inv_trade h d tick book : inv h d -> Forall observation_ok h -> u64_ok (ltq tick) ->
  inv (h ++ [Trade tick book]) (step d (Trade tick book)).1.
Proof.
  intros [Hwf Hc Hi Hp] Hh Ht.
  assert (quantities (h ++ [Trade tick book]) = quantities h) as Hq by (by rewrite quantities_app, app_nil_r).
  assert (Forall (justified (h ++ [Trade tick book])) (account (ltp_paise tick) (ltq tick) <$> pending d)) as Hacc.
  { apply Forall_fmap. eapply Forall_impl; [exact Hp |]. intros p. by apply justified_trade. }
  unfold step, observe_trade. destruct (Z.eqb_spec (ltq tick) 0) as [H0 | _].
  - cbn [fst]. split; try done; [by rewrite Hq |].
    assert (account (ltp_paise tick) (ltq tick) <$> pending d = pending d) as <-; [| done].
    rewrite H0. clear -Hp Hh. induction Hp as [| p ps (since & Ha & Hf & _) Hps IH]; [done |].
    rewrite fmap_cons, IH. f_equal. unfold account. destruct (_ =? _); [| done].
    pose proof (traded_nonneg (p_price_paise p) since (appeared_ok _ _ _ _ _ _ Ha Hh)).
    destruct p as [sd pr q pl f]. cbn in *. f_equal. unfold_ok. sat_lia.
  - rewrite Compact.retain_pass, Compact.pass_stateless.
    destruct (absorb _ _ _ _) as [out n]. cbn [fst set_pending].
    split; cbn [qty_history pending]; try done; [by rewrite Hq |].
    apply Forall_forall. intros p Hin. apply list_elem_of_filter in Hin as [_ Hin].
    by apply (proj1 (Forall_forall _ _) Hacc).
Qed.

Lemma spoof_inv_run tick h : Forall observation_ok h -> inv h (run tick h).
Proof.
  induction h as [| o h IH] using rev_ind; [intros _; apply inv_new |].
  intros [Hh Ho]%Forall_app. apply Forall_cons in Ho as [Ho _]. specialize (IH Hh).
  unfold run. rewrite foldl_app. cbn [foldl]. fold (run tick h).
  destruct o as [book now_ns | tk book]; [by apply inv_book | by apply inv_trade].
Qed.

Definition is_spoofing (e : OrderflowEvent.t) : bool :=
  match e with OrderflowEvent.Spoofing _ _ _ => true | _ => false end.

Lemma gaps_not_spoofing side levels tick e :
  detect_liquidity_gap side levels tick = Some e -> is_spoofing e = false.
Proof.
  unfold detect_liquidity_gap. destruct levels as [| l [| l' levels]]; try done.
  destruct (_ <? _); [| done]. by intros [= <-].
Qed.

Lemma emit_option_elem e o s : e ∈ BoundedEvents.as_slice (emit_option o s).1 ->
  e ∈ BoundedEvents.as_slice s.1 \/ o = Some e.
Proof.
  destruct o as [e' |]; [| by left]. intros [? | ->]%emit_elem; [by left | by right].
Qed.

Lemma step_spoofing d o e : e ∈ (step d o).2 -> is_spoofing e = true ->
  exists book now_ns p, o = Book book now_ns /\ p ∈ pending d /\ vanished book now_ns p
    /\ e = OrderflowEvent.Spoofing (p_side p) (p_price_paise p) (evidence (p_qty p) (filled_qty p)).
Proof.
  destruct o as [book now_ns | tick book]; unfold step.
  - unfold observe_book, advance_spoofing. rewrite Compact.retain_pass.
    set (o1 := detect_liquidity_gap Side.Buy _ _). set (o2 := detect_liquidity_gap Side.Sell _ _).
    pose proof (advance_elem book now_ns e (pending d) (emit_option o2 (emit_option o1
      (BoundedEvents.new events_capacity, 0%nat)))) as He.
    destruct (Compact.pass _ _ _) as [ps [out n]]. cbn [fst snd] in *. intros Hin Hs.
    destruct (He Hin) as [Hin' | (p & H)]; [| by exists book, now_ns, p].
    apply emit_option_elem in Hin' as [Hin' | H2]; [| by rewrite (gaps_not_spoofing _ _ _ _ H2) in Hs].
    apply emit_option_elem in Hin' as [Hin' | H1]; [| by rewrite (gaps_not_spoofing _ _ _ _ H1) in Hs].
    by apply elem_of_nil in Hin'.
  - unfold observe_trade. destruct (ltq tick =? 0); [by intros ?%elem_of_nil |].
    rewrite Compact.retain_pass, Compact.pass_stateless.
    intros Hin Hs. exfalso. revert Hin.
    assert (forall s, e ∈ BoundedEvents.as_slice (absorb (ltp_paise tick) (ltq tick) book s).1 ->
      e ∈ BoundedEvents.as_slice s.1) as Habs.
    { intros s. unfold absorb. destruct (aggressor_side _ _) as [aggr |]; [| done].
      destruct (match aggr with Side.Buy => LiveBook.top_ask book | Side.Sell => _ end) as [l |]; [| done].
      destruct (qty l <? ltq tick); [| done].
      intros [[? | ->]%emit_elem | ->]%emit_elem; done. }
    specialize (Habs (BoundedEvents.new events_capacity, 0%nat)).
    destruct (absorb _ _ _ _) as [out n]. cbn [fst snd] in *. intros Hin%Habs. by apply elem_of_nil in Hin.
Qed.

End SpoofFacts.

(** C16: a spoofing report is always about a quote that appeared at the top of its side at a
    book update at most 500 ms earlier, with more than five times the usual top quantity of
    the last 64 updates; that stayed there, with at least half its size, at every update in
    between; that has vanished or shrunk below half at this one; and of which less than a
    quarter was traded meanwhile.  The score is the untraded share. *)
Theorem spoofing_reports_justified (tick : Z) (h : list SpoofSpec.observation) (o : SpoofSpec.observation)
    (side : Side.t) (level : Px.t) (score : f32) :
  Forall SpoofSpec.observation_ok h ->
  OrderflowEvent.Spoofing side level score ∈ (SpoofSpec.step (SpoofSpec.run tick h) o).2 ->
  exists book now_ns quantity placed since,
    o = SpoofSpec.Book book now_ns
    /\ SpoofSpec.appeared h side level quantity placed since
    /\ SpoofSpec.shown_throughout side level quantity since
    /\ ~ SpoofSpec.shown side level quantity book
    /\ u64_sat_sub now_ns placed <= 500000000
    /\ SpoofSpec.traded level since < quantity / 4
    /\ score = Detector.evidence quantity (SpoofSpec.traded level since).
Proof.
  intros Hh Hin. destruct (SpoofFacts.step_spoofing _ _ _ Hin eq_refl)
    as (book & now_ns & p & -> & Hp & (Hgone & Hage & Hfill) & [= -> -> ->]).
  destruct (SpoofFacts.spoof_inv_run tick h Hh) as [_ _ _ HP].
  apply (proj1 (Forall_forall _ _) HP) in Hp as (since & Ha & Hf & Hs).
  exists book, now_ns, (Detector.p_qty p), (Detector.placed_ts_ns p), since.
  pose proof (SpoofFacts.appeared_qty _ _ _ _ _ _ Ha Hh) as Hq.
  pose proof (Z.div_le_upper_bound (Detector.p_qty p) 4 (Detector.p_qty p) ltac:(lia) ltac:(unfold_ok; lia)).
  assert (Detector.filled_qty p = SpoofSpec.traded (Detector.p_price_paise p) since) as Hf'
    by (unfold_ok; lia).
  split_and!; try done; try (by apply Hs); try congruence.
  - rewrite <- SpoofFacts.still_present_shown. by rewrite Hgone.
Qed.

(** A bid of 100 among quotes of 10, of which 5 are traded before it is withdrawn. *)
Module SpoofSample.
Definition book (price quantity : Z) : LiveBook.t :=
  LiveBook.mk [mk_BookLevel price quantity 1] [mk_BookLevel 1002 10 1] 1.
Definition history : list SpoofSpec.observation :=
  [SpoofSpec.Book (book 1000 10) 0; SpoofSpec.Book (book 1000 10) 1; SpoofSpec.Book (book 1000 100) 2;
   SpoofSpec.Trade (mk_Tick [] 1 0 1000 0 0 5 0 0 0 0) (book 1000 100)].
Definition withdrawn : SpoofSpec.observation := SpoofSpec.Book (book 999 10) 400000000.
End SpoofSample.

Lemma spoofing_reports_justified_witness :
  exists quantity placed since,
    SpoofSpec.appeared SpoofSample.history Side.Buy 1000 quantity placed since
    /\ SpoofSpec.traded 1000 since < quantity / 4.
Proof.
  destruct (spoofing_reports_justified 1 SpoofSample.history SpoofSample.withdrawn Side.Buy 1000
    (Detector.evidence 100 5)) as (book & now_ns & quantity & placed & since & _ & Ha & _ & _ & _ & Ht & _).
  - repeat constructor; vm_compute; discriminate.
  - assert ((SpoofSpec.step (SpoofSpec.run 1 SpoofSample.history) SpoofSample.withdrawn).2
      = [OrderflowEvent.Spoofing Side.Buy 1000 (Detector.evidence 100 5)]) as ->
      by (vm_compute; reflexivity).
    apply list_elem_of_here.
  - exists quantity, placed, since. split; [exact Ha | exact Ht].
Defined.
