(* ===== verification/OrderFlowEngine.v ===== *)
(** The engine of crates/hedge-orderflow (engine.rs), the War_Mode profile (war_mode.rs, a
    copy of which is in crates/hedge-features) and the way the service builds its books from
    messages (bin/main.rs).  A lock is held for a whole call, so a call is one step. *)

From S2P Require Import Prelude Ieee Core Schemas OrderFlow OrderFlowDetector.

(** ** The War_Mode profile: three atomics, written by one control task *)

Module WarModeProfile.

Definition NORMAL_SCAN_MULTIPLIER : f32 := f32_one.
Definition NORMAL_MIN_CONFIDENCE : f32 := f_zero.

Record t := mk { active : bool; scan_multiplier_bits : Z; min_confidence_bits : Z }.

Definition inactive : t :=
  mk false (f32_to_bits NORMAL_SCAN_MULTIPLIER) (f32_to_bits NORMAL_MIN_CONFIDENCE).

(** The stores of [activate] and [deactivate] in program order. *)
Inductive store := Active (b : bool) | ScanMultiplier (bits : Z) | MinConfidence (bits : Z).
Definition write (p : t) (s : store) : t :=
  match s with
  | Active b => mk b (scan_multiplier_bits p) (min_confidence_bits p)
  | ScanMultiplier bits => mk (active p) bits (min_confidence_bits p)
  | MinConfidence bits => mk (active p) (scan_multiplier_bits p) bits
  end.
Definition activate_stores (scan_multiplier min_confidence : f32) : list store :=
  [ScanMultiplier (f32_to_bits scan_multiplier); MinConfidence (f32_to_bits min_confidence); Active true].
Definition deactivate_stores : list store :=
  [Active false; ScanMultiplier (f32_to_bits NORMAL_SCAN_MULTIPLIER);
   MinConfidence (f32_to_bits NORMAL_MIN_CONFIDENCE)].
Definition activate (p : t) (scan_multiplier min_confidence : f32) : t :=
  foldl write p (activate_stores scan_multiplier min_confidence).
Definition deactivate (p : t) : t := foldl write p deactivate_stores.

Definition is_active (p : t) : bool := active p.
Definition scan_multiplier (p : t) : f32 := f32_of_bits (scan_multiplier_bits p).
Definition min_confidence (p : t) : f32 := f32_of_bits (min_confidence_bits p).
Definition sensitivity_factor (p : t) : f32 :=
  if is_active p then
    let m := scan_multiplier p in if f_gt m f_zero then m else NORMAL_SCAN_MULTIPLIER
  else NORMAL_SCAN_MULTIPLIER.

(** A reader that runs between two stores of an activation that follows a deactivation (or
    the start) and sees the flag sees both new values. *)
Lemma active_implies_profile p m c k : f32_valid m -> f32_valid c ->
  let p' := foldl write (deactivate p) (take k (activate_stores m c)) in
  is_active p' = true -> scan_multiplier p' = m /\ min_confidence p' = c.
Proof.
  intros Hm Hc. destruct k as [| [| [| k]]]; cbn; try done.
  unfold scan_multiplier, min_confidence. cbn. rewrite take_nil. cbn.
  intros _. by rewrite !f32_of_to_bits.
Qed.

(** While a profile is replaced by another without a deactivation between, a reader can see
    the multiplier of the new one with the floor of the old one. *)
Lemma reactivation_mixes_profiles p m c m' c' : f32_valid c -> f32_valid m' ->
  let p' := foldl write (activate p m c) (take 1 (activate_stores m' c')) in
  is_active p' = true /\ scan_multiplier p' = m' /\ min_confidence p' = c.
Proof. intros Hc Hm. cbn. unfold scan_multiplier, min_confidence. cbn. by rewrite !f32_of_to_bits. Qed.

End WarModeProfile.

(** ** Snapshots (metrics.rs) and per-symbol state (engine.rs) *)

Record OrderflowSnapshot := mk_OrderflowSnapshot {
  of_symbol : Z;
  of_bid_ask_imbalance : f32;
  aggressive_buyer_volume : Z;
  aggressive_seller_volume : Z;
  of_rolling_delta : Z;
  of_liquidity_pressure : f32;
  events : BoundedEvents.t OrderflowEvent.t;
}.

Definition EVENTS : nat := 4.

Definition empty_snapshot (symbol : Z) : OrderflowSnapshot :=
  mk_OrderflowSnapshot symbol f_zero 0 0 0 f_zero (BoundedEvents.new EVENTS).

Module OrderflowState.

Record t := mk {
  symbol : Z;
  book : LiveBook.t;
  detector : Detector.t;
  delta : RollingDelta.t;
  heatmap : OrderflowHeatmap.t;
}.

Definition with_window (symbol rolling_delta_window_ns : Z) : t :=
  mk symbol LiveBook.new Detector.new (RollingDelta.with_window rolling_delta_window_ns)
    (OrderflowHeatmap.new symbol).
Definition new (symbol : Z) : t := with_window symbol RollingDelta.DEFAULT_ROLLING_DELTA_WINDOW_NS.
Definition get_current_heatmap (s : t) : HeatmapSnapshot.t := OrderflowHeatmap.get_snapshot (heatmap s).

(** The struct both handlers build at their end. *)
Definition snapshot (s : t) (now_ns : Z) (out : BoundedEvents.t OrderflowEvent.t) : OrderflowSnapshot :=
  mk_OrderflowSnapshot (symbol s) (Indicators.bid_ask_imbalance (book s))
    (RollingDelta.buyer_volume (delta s) now_ns) (RollingDelta.seller_volume (delta s) now_ns)
    (RollingDelta.signed_delta (delta s) now_ns) (Indicators.liquidity_pressure (book s)) out.

Definition ingest_book (s : t) (update : OrderBook) (now_ns : Z) : option OrderflowSnapshot * t :=
  let '(accepted, b) := LiveBook.apply (book s) update in
  if negb accepted then (None, s)
  else
    let hm := OrderflowHeatmap.publish_from_book (heatmap s) b now_ns in
    let '(det, (out, _)) := Detector.observe_book (detector s) b now_ns (BoundedEvents.new EVENTS) in
    let s := mk (symbol s) b det (delta s) hm in
    (Some (snapshot s now_ns out), s).

Definition ingest_tick (s : t) (tick : Tick) (now_ns : Z) : OrderflowSnapshot * t :=
  let buyer_v := match LiveBook.top_ask (book s) with
                 | Some ask => if price_paise ask <=? ltp_paise tick then ltq tick else 0
                 | None => 0
                 end in
  let seller_v := match LiveBook.top_bid (book s) with
                  | Some bid => if ltp_paise tick <=? price_paise bid then ltq tick else 0
                  | None => 0
                  end in
  let dl := if negb (buyer_v =? 0) || negb (seller_v =? 0)
            then RollingDelta.record (delta s) now_ns buyer_v seller_v else delta s in
  let '(det, (out, _)) := Detector.observe_trade (detector s) tick (book s) (BoundedEvents.new EVENTS) in
  let s := mk (symbol s) (book s) det dl (heatmap s) in
  (snapshot s now_ns out, s).

End OrderflowState.

(** ** The engine *)

Module OrderflowEngine.

Record t := mk {
  inner : gmap Z OrderflowState.t;
  rolling_delta_window_ns : Z;
  war_mode : WarModeProfile.t;
}.

Definition with_window (window : Z) : t := mk ∅ window WarModeProfile.inactive.
Definition new : t := with_window RollingDelta.DEFAULT_ROLLING_DELTA_WINDOW_NS.

(** [entry(symbol).or_insert_with(...)] *)
Definition entry (e : t) (symbol : Z) : OrderflowState.t :=
  match inner e !! symbol with
  | Some s => s
  | None => OrderflowState.with_window symbol (rolling_delta_window_ns e)
  end.
Definition put (e : t) (symbol : Z) (s : OrderflowState.t) : t :=
  mk (<[symbol := s]> (inner e)) (rolling_delta_window_ns e) (war_mode e).

Definition ensure_symbol (e : t) (symbol : Z) : t := put e symbol (entry e symbol).
Definition current_heatmap (e : t) (symbol : Z) : option HeatmapSnapshot.t :=
  OrderflowState.get_current_heatmap <$> inner e !! symbol.
Definition ingest_book (e : t) (book : OrderBook) (now_ns : Z) : option OrderflowSnapshot * t :=
  let symbol := ob_symbol book in
  let '(r, s) := OrderflowState.ingest_book (entry e symbol) book now_ns in (r, put e symbol s).
Definition ingest_tick (e : t) (tick : Tick) (now_ns : Z) : OrderflowSnapshot * t :=
  let symbol := tk_symbol tick in
  let '(r, s) := OrderflowState.ingest_tick (entry e symbol) tick now_ns in (r, put e symbol s).
Definition tracked_symbol_count (e : t) : nat := size (inner e).

(** *** The specification: one independent state per symbol *)

Inductive message := BookUpdate (book : OrderBook) (now_ns : Z) | TradeTick (tick : Tick) (now_ns : Z).
Definition symbol_of (m : message) : Z :=
  match m with BookUpdate b _ => ob_symbol b | TradeTick t _ => tk_symbol t end.

Definition handle (e : t) (m : message) : option OrderflowSnapshot * t :=
  match m with
  | BookUpdate b now_ns => ingest_book e b now_ns
  | TradeTick tk now_ns => let '(r, e) := ingest_tick e tk now_ns in (Some r, e)
  end.
Fixpoint replies (e : t) (ms : list message) : list (Z * option OrderflowSnapshot) :=
  match ms with
  | [] => []
  | m :: ms => let '(r, e) := handle e m in (symbol_of m, r) :: replies e ms
  end.

Definition handle_alone (s : OrderflowState.t) (m : message) : option OrderflowSnapshot * OrderflowState.t :=
  match m with
  | BookUpdate b now_ns => OrderflowState.ingest_book s b now_ns
  | TradeTick tk now_ns => let '(r, s) := OrderflowState.ingest_tick s tk now_ns in (Some r, s)
  end.
Fixpoint replies_alone (s : OrderflowState.t) (ms : list message) : list (option OrderflowSnapshot) :=
  match ms with
  | [] => []
  | m :: ms => let '(r, s) := handle_alone s m in r :: replies_alone s ms
  end.

Lemma handle_spec e m :
  let '(r, s) := handle_alone (entry e (symbol_of m)) m in handle e m = (r, put e (symbol_of m) s).
Proof.
  destruct m as [b now_ns | tk now_ns]; cbn [handle_alone handle symbol_of].
  - unfold ingest_book. by destruct (OrderflowState.ingest_book _ _ _).
  - unfold ingest_tick. by destruct (OrderflowState.ingest_tick _ _ _).
Qed.

Lemma entry_put e k s k' : entry (put e k s) k' = if decide (k = k') then s else entry e k'.
Proof.
  unfold entry, put. cbn [inner rolling_delta_window_ns]. case_decide as Hk.
  - by rewrite Hk, lookup_insert_eq.
  - by rewrite lookup_insert_ne.
Qed.

Lemma replies_of_symbol ms : forall e k,
  (filter (fun x => x.1 = k) (replies e ms)).*2
  = replies_alone (entry e k) (filter (fun m => symbol_of m = k) ms).
Proof.
  induction ms as [| m ms IH]; intros e k; cbn [replies]; [done |].
  pose proof (handle_spec e m) as Hh. rewrite (filter_cons _ m).
  destruct (decide (symbol_of m = k)) as [Hk | Hk].
  - rewrite Hk in Hh. cbn [replies_alone]. destruct (handle_alone (entry e k) m) as [r s] eqn:E.
    rewrite Hh, filter_cons. cbn [fst]. rewrite decide_True by done. rewrite fmap_cons. cbn [snd].
    rewrite IH, entry_put. by rewrite decide_True.
  - destruct (handle_alone _ m) as [r s]. rewrite Hh, filter_cons. cbn [fst].
    rewrite decide_False by done. rewrite IH, entry_put. by rewrite decide_False.
Qed.
End OrderflowEngine.

(** On any interleaving of book updates and ticks of many symbols, the snapshots the
    engine returns for one symbol are those of an order-flow state of its own that receives
    that symbol's messages only, in order. *)
Theorem orderflow_symbols_are_independent (window symbol : Z) (ms : list OrderflowEngine.message) :
  (filter (fun x => x.1 = symbol) (OrderflowEngine.replies (OrderflowEngine.with_window window) ms)).*2
  = OrderflowEngine.replies_alone (OrderflowState.with_window symbol window)
      (filter (fun m => OrderflowEngine.symbol_of m = symbol) ms).
Proof. apply OrderflowEngine.replies_of_symbol. Qed.

(** ** The service's books (bin/main.rs): at most one level a side *)

(** The numeric fields of a message, after the JSON defaults. *)
Record BookFields := mk_BookFields {
  f_symbol_id : Z; f_bid_paise : Z; f_bid_qty : Z; f_ask_paise : Z; f_ask_qty : Z; f_ts_ns : Z;
}.

Definition book_of_fields (f : BookFields) : OrderBook :=
  mk_OrderBook (replicate 16 0) (f_symbol_id f) 0
    (if 0 <? f_bid_qty f then [mk_BookLevel (f_bid_paise f) (f_bid_qty f) 1] else [])
    (if 0 <? f_ask_qty f then [mk_BookLevel (f_ask_paise f) (f_ask_qty f) 1] else [])
    (f_ts_ns f).

(** The messages with symbol 0 are skipped. *)
Definition handle_book_message (e : OrderflowEngine.t) (f : BookFields) (now_ns : Z) :
    option OrderflowSnapshot * OrderflowEngine.t :=
  if f_symbol_id f =? 0 then (None, e) else OrderflowEngine.ingest_book e (book_of_fields f) now_ns.

(** A book of one level a side has no gap to report. *)
Lemma service_books_have_no_gap f b side tick :
  let b' := (LiveBook.apply b (book_of_fields f)).2 in
  (length (LiveBook.bid_levels b) <= 1)%nat -> (length (LiveBook.ask_levels b) <= 1)%nat ->
  Detector.detect_liquidity_gap side (LiveBook.bid_levels b') tick = None
  /\ Detector.detect_liquidity_gap side (LiveBook.ask_levels b') tick = None.
Proof.
  assert (forall l, (length l <= 1)%nat -> Detector.detect_liquidity_gap side l tick = None) as Hl.
  { intros [| x [| y l]] H; try done. simpl in H. lia. }
  intros b' Hb Ha. unfold b', LiveBook.apply. destruct (_ && _); [by split; apply Hl |].
  cbn [LiveBook.bid_levels LiveBook.ask_levels snd]. rewrite !LiveBook.fill_take.
  split; apply Hl; rewrite length_take; unfold book_of_fields; cbn;
    destruct (0 <? _); simpl; lia.
Qed.

(** A trade inside a crossed book is counted on both sides of the delta, while the detector
    takes it for a buy. *)
Lemma crossed_book_counts_both_sides (s : OrderflowState.t) bid ask tick :
  LiveBook.top_bid (OrderflowState.book s) = Some bid ->
  LiveBook.top_ask (OrderflowState.book s) = Some ask ->
  price_paise ask <= ltp_paise tick <= price_paise bid -> ltq tick <> 0 ->
  OrderflowState.delta (OrderflowState.ingest_tick s tick 0).2
  = RollingDelta.record (OrderflowState.delta s) 0 (ltq tick) (ltq tick)
  /\ Detector.aggressor_side (ltp_paise tick) (OrderflowState.book s) = Some Side.Buy.
Proof.
  intros Hb Ha [Hlo Hhi] Hq. unfold OrderflowState.ingest_tick, Detector.aggressor_side.
  rewrite Hb, Ha, (proj2 (Z.leb_le _ _) Hlo), (proj2 (Z.leb_le _ _) Hhi).
  destruct (Z.eqb_spec (ltq tick) 0); [done |]. cbn [negb orb].
  by destruct (Detector.observe_trade _ _ _ _) as [det [out cnt]].
Qed.
