(* ===== verification/Features.v ===== *)
(** The feature engine of crates/hedge-features: the per-symbol state (state.rs), the
    incremental indicators (incremental/*.rs) and the engine (engine.rs).

    The fields of [FeatureState] are grouped as its comments group them, so that each
    indicator writes its own group.  The natural logarithm of the standard library is a
    parameter.  Subtractions of prices wrap at 64 bits as in the release profile. *)

From S2P Require Import Prelude Ieee Bytes Core Schemas.

(** ** The state (state.rs) *)

Definition ATR_WINDOW : nat := 14.
Definition EMA_FAST_PERIOD : Z := 9.
Definition EMA_SLOW_PERIOD : Z := 21.
Definition EMA_TREND_PERIOD : Z := 5000.
Definition RSI_WINDOW : Z := 1400.
Definition ADX_WINDOW : Z := 1400.
Definition DONCHIAN_WINDOW : nat := 2000.
Definition EMA_SLOPE_LOOKBACK : nat := 5.
Definition MOMENTUM_WINDOW : nat := 10.
Definition VOLATILITY_WINDOW : nat := 30.
Definition COMPRESSION_WINDOW : nat := 20.
Definition SWEEP_LOOKAHEAD : Z := 3.
Definition ROLLING_DELTA_WINDOW_NS : Z := 30 * 1000000000.
Definition ROLLING_DELTA_CAPACITY : nat := 256.

Record DeltaSample := mk_DeltaSample { ts_ns : Z; signed_qty : Z }.
Record LastBook := mk_LastBook { lb_bid_paise : Z; lb_ask_paise : Z; lb_total_buy_qty : Z; lb_total_sell_qty : Z }.

Record Identification := mk_Identification {
  tick_count : Z; last_ltp_paise : Z; prev_ltp_paise : Z; last_ts_ns : Z;
}.
Record VwapState := mk_VwapState { vwap_num : Z; vwap_den : Z }.
Record AtrState := mk_AtrState {
  tr_window : RingWindow.t Z; prev_close_paise : Z; bar_high_paise : Z; bar_low_paise : Z;
}.
(** One exponential average; the state has three of them and a history of the fast one. *)
Record EmaLine := mk_EmaLine { ema_paise : Z; ema_acc : f64; ema_seeded : bool }.
Record EmaState := mk_EmaState {
  ema_fast_line : EmaLine; ema_slow_line : EmaLine; ema_trend_line : EmaLine;
  ema_fast_history : RingWindow.t Z;
}.
Record RsiState := mk_RsiState { rsi_avg_gain : f64; rsi_avg_loss : f64; rsi_value : f32 }.
Record AdxState := mk_AdxState {
  adx_smoothed_tr : f64; adx_smoothed_pdm : f64; adx_smoothed_ndm : f64;
  adx_smoothed_dx : f64; adx_value : f32;
}.
Record DeltaState := mk_DeltaState { delta_samples : RingWindow.t DeltaSample; rolling_delta_cached : Z }.
Record RangeState := mk_RangeState {
  compression_prices : RingWindow.t Z; session_high_paise : Z; session_low_paise : Z;
}.
Record SweepState := mk_SweepState {
  last_high_break_idx : option Z; last_low_break_idx : option Z;
  last_high_break_paise : Z; last_low_break_paise : Z; sweep_signal : f32;
}.
Record BookState := mk_BookState {
  last_book : LastBook; liquidity_imbalance_cached : f32; orderflow_strength_cached : f32;
}.

Record FeatureState := mk_FeatureState {
  ident : Identification;
  vwap_st : VwapState;
  atr_st : AtrState;
  ema_st : EmaState;
  rsi_st : RsiState;
  adx_st : AdxState;
  donchian_prices : RingWindow.t Z;
  momentum_prices : RingWindow.t Z;
  log_returns : RingWindow.t f64;
  delta_st : DeltaState;
  range_st : RangeState;
  sweep_st : SweepState;
  book_st : BookState;
}.

Definition default_state : FeatureState :=
  mk_FeatureState (mk_Identification 0 0 0 0) (mk_VwapState 0 0)
    (mk_AtrState (RingWindow.fresh ATR_WINDOW 0) 0 0 0)
    (mk_EmaState (mk_EmaLine 0 f_zero false) (mk_EmaLine 0 f_zero false) (mk_EmaLine 0 f_zero false)
       (RingWindow.fresh EMA_SLOPE_LOOKBACK 0))
    (mk_RsiState f_zero f_zero f_zero) (mk_AdxState f_zero f_zero f_zero f_zero f_zero)
    (RingWindow.fresh DONCHIAN_WINDOW 0) (RingWindow.fresh MOMENTUM_WINDOW 0)
    (RingWindow.fresh VOLATILITY_WINDOW f_zero)
    (mk_DeltaState (RingWindow.fresh ROLLING_DELTA_CAPACITY (mk_DeltaSample 0 0)) 0)
    (mk_RangeState (RingWindow.fresh COMPRESSION_WINDOW 0) 0 0)
    (mk_SweepState None None 0 0 f_zero)
    (mk_BookState (mk_LastBook 0 0 0 0) f_zero f_zero).
Definition clear_session (s : FeatureState) : FeatureState := default_state.

(** Writing one group. *)
Definition set_ident (s : FeatureState) (x : Identification) : FeatureState :=
  mk_FeatureState x (vwap_st s) (atr_st s) (ema_st s) (rsi_st s) (adx_st s) (donchian_prices
    s) (momentum_prices s) (log_returns s) (delta_st s) (range_st s) (sweep_st s) (book_st s).
Definition set_vwap (s : FeatureState) (x : VwapState) : FeatureState :=
  mk_FeatureState (ident s) x (atr_st s) (ema_st s) (rsi_st s) (adx_st s) (donchian_prices s)
    (momentum_prices s) (log_returns s) (delta_st s) (range_st s) (sweep_st s) (book_st s).
Definition set_atr (s : FeatureState) (x : AtrState) : FeatureState :=
  mk_FeatureState (ident s) (vwap_st s) x (ema_st s) (rsi_st s) (adx_st s) (donchian_prices s)
    (momentum_prices s) (log_returns s) (delta_st s) (range_st s) (sweep_st s) (book_st s).
Definition set_ema (s : FeatureState) (x : EmaState) : FeatureState :=
  mk_FeatureState (ident s) (vwap_st s) (atr_st s) x (rsi_st s) (adx_st s) (donchian_prices s)
    (momentum_prices s) (log_returns s) (delta_st s) (range_st s) (sweep_st s) (book_st s).
Definition set_rsi (s : FeatureState) (x : RsiState) : FeatureState :=
  mk_FeatureState (ident s) (vwap_st s) (atr_st s) (ema_st s) x (adx_st s) (donchian_prices s)
    (momentum_prices s) (log_returns s) (delta_st s) (range_st s) (sweep_st s) (book_st s).
Definition set_adx (s : FeatureState) (x : AdxState) : FeatureState :=
  mk_FeatureState (ident s) (vwap_st s) (atr_st s) (ema_st s) (rsi_st s) x (donchian_prices s)
    (momentum_prices s) (log_returns s) (delta_st s) (range_st s) (sweep_st s) (book_st s).
Definition set_donchian_prices (s : FeatureState) (x : RingWindow.t Z) : FeatureState :=
  mk_FeatureState (ident s) (vwap_st s) (atr_st s) (ema_st s) (rsi_st s) (adx_st s) x
    (momentum_prices s) (log_returns s) (delta_st s) (range_st s) (sweep_st s) (book_st s).
Definition set_momentum_prices (s : FeatureState) (x : RingWindow.t Z) : FeatureState :=
  mk_FeatureState (ident s) (vwap_st s) (atr_st s) (ema_st s) (rsi_st s) (adx_st s)
    (donchian_prices s) x (log_returns s) (delta_st s) (range_st s) (sweep_st s) (book_st s).
Definition set_log_returns (s : FeatureState) (x : RingWindow.t f64) : FeatureState :=
  mk_FeatureState (ident s) (vwap_st s) (atr_st s) (ema_st s) (rsi_st s) (adx_st s)
    (donchian_prices s) (momentum_prices s) x (delta_st s) (range_st s) (sweep_st s) (book_st
    s).
Definition set_delta (s : FeatureState) (x : DeltaState) : FeatureState :=
  mk_FeatureState (ident s) (vwap_st s) (atr_st s) (ema_st s) (rsi_st s) (adx_st s)
    (donchian_prices s) (momentum_prices s) (log_returns s) x (range_st s) (sweep_st s) (book_st
    s).
Definition set_range (s : FeatureState) (x : RangeState) : FeatureState :=
  mk_FeatureState (ident s) (vwap_st s) (atr_st s) (ema_st s) (rsi_st s) (adx_st s)
    (donchian_prices s) (momentum_prices s) (log_returns s) (delta_st s) x (sweep_st s) (book_st
    s).
Definition set_sweep (s : FeatureState) (x : SweepState) : FeatureState :=
  mk_FeatureState (ident s) (vwap_st s) (atr_st s) (ema_st s) (rsi_st s) (adx_st s)
    (donchian_prices s) (momentum_prices s) (log_returns s) (delta_st s) (range_st s) x (book_st
    s).
Definition set_book (s : FeatureState) (x : BookState) : FeatureState :=
  mk_FeatureState (ident s) (vwap_st s) (atr_st s) (ema_st s) (rsi_st s) (adx_st s)
    (donchian_prices s) (momentum_prices s) (log_returns s) (delta_st s) (range_st s) (sweep_st
    s) x.

(** Differences of prices. *)
Definition i64_sub (a b : Z) : Z := as_i64 (a - b).
Definition i64_abs (a : Z) : Z := as_i64 (Z.abs a).

(** ** The indicators (incremental/*.rs) *)

Module RollingDeltaFeature.

Definition sign_volume (s : FeatureState) (tick : Tick) : Z :=
  let mag := Z.min (ltq tick) i64_max in
  if mag =? 0 then 0
  else
    let prev_buy := lb_total_buy_qty (last_book (book_st s)) in
    let prev_sell := lb_total_sell_qty (last_book (book_st s)) in
    let book_imbalance := (total_buy_qty tick - prev_buy) - (total_sell_qty tick - prev_sell) in
    let last := last_ltp_paise (ident s) in
    if 0 <? book_imbalance then mag
    else if book_imbalance <? 0 then - mag
    else if negb (last =? 0) && (last <? ltp_paise tick) then mag
    else if negb (last =? 0) && (ltp_paise tick <? last) then - mag
    else 0.

Definition update (s : FeatureState) (tick : Tick) : FeatureState :=
  let samples := RingWindow.push (delta_samples (delta_st s))
                   (mk_DeltaSample (ts_recv_ns tick) (sign_volume s tick)) in
  let cutoff := u64_sat_sub (ts_recv_ns tick) ROLLING_DELTA_WINDOW_NS in
  let sum := foldl (fun sum x => if cutoff <=? ts_ns x then i64_sat_add sum (signed_qty x) else sum)
               0 (RingWindow.iter samples) in
  set_delta s (mk_DeltaState samples sum).

Definition compute_paise (s : FeatureState) : Z := rolling_delta_cached (delta_st s).
Definition is_ready (s : FeatureState) : bool := negb (RingWindow.is_empty (delta_samples (delta_st s))).
End RollingDeltaFeature.

Module Liquidity.
Definition f32_neg_one : f32 := f_opp f32_one.
Definition f64_neg_one : f64 := f_opp f64_one.

Definition update (s : FeatureState) (tick : Tick) : FeatureState :=
  let buy := f64_of_Z (total_buy_qty tick) in
  let sell := f64_of_Z (total_sell_qty tick) in
  let denom := f_max (f64_add buy sell) f64_one in
  let raw := f64_div (f64_sub buy sell) denom in
  set_book s (mk_BookState
    (mk_LastBook (bid_paise tick) (ask_paise tick) (total_buy_qty tick) (total_sell_qty tick))
    (f64_to_f32 (f_clamp f64_neg_one f64_one raw))
    (orderflow_strength_cached (book_st s))).

Definition update_orderflow (s : FeatureState) (value : f32) : FeatureState :=
  set_book s (mk_BookState (last_book (book_st s)) (liquidity_imbalance_cached (book_st s))
    (f_clamp f32_neg_one f32_one value)).

Definition compute_imbalance (s : FeatureState) : f32 := liquidity_imbalance_cached (book_st s).
Definition compute_orderflow_strength (s : FeatureState) : f32 := orderflow_strength_cached (book_st s).
(** The sum of the two quantities wraps. *)
Definition is_ready (s : FeatureState) : bool :=
  (0 <? tick_count (ident s))
  || (0 <? as_u64 (lb_total_buy_qty (last_book (book_st s)) + lb_total_sell_qty (last_book (book_st s)))).
End Liquidity.

Module Vwap.
Definition update (s : FeatureState) (tick : Tick) : FeatureState :=
  if ltq tick =? 0 then s
  else
    let contribution := as_i128 (ltp_paise tick * ltq tick) in
    set_vwap s (mk_VwapState (i128_sat_add (vwap_num (vwap_st s)) contribution)
                             (u128_sat_add (vwap_den (vwap_st s)) (ltq tick))).

Definition compute_paise (s : FeatureState) : Z :=
  if vwap_den (vwap_st s) =? 0 then 0
  else
    let v := Z.quot (vwap_num (vwap_st s)) (as_i128 (vwap_den (vwap_st s))) in
    if i64_max <? v then i64_max else if v <? i64_min then i64_min else v.
Definition is_ready (s : FeatureState) : bool := 0 <? vwap_den (vwap_st s).
End Vwap.

Module Atr.
Definition update (s : FeatureState) (tick : Tick) : FeatureState :=
  let high := ltp_paise tick in
  let low := ltp_paise tick in
  let prev_close := if tick_count (ident s) =? 0 then ltp_paise tick else prev_close_paise (atr_st s) in
  let hl := i64_abs (i64_sub high low) in
  let hpc := i64_abs (i64_sub high prev_close) in
  let lpc := i64_abs (i64_sub low prev_close) in
  let tr := Z.max (Z.max hl hpc) lpc in
  set_atr s (mk_AtrState (RingWindow.push (tr_window (atr_st s)) tr) (ltp_paise tick) high low).

Definition compute_paise (s : FeatureState) : Z :=
  if RingWindow.is_empty (tr_window (atr_st s)) then 0
  else
    let sum := foldl Z.add 0 (RingWindow.iter (tr_window (atr_st s))) in
    as_i64 (Z.quot sum (Z.of_nat (RingWindow.len (tr_window (atr_st s))))).
Definition is_ready (s : FeatureState) : bool := (ATR_WINDOW <=? RingWindow.len (tr_window (atr_st s)))%nat.
End Atr.

Module Ema.
Definition alpha (period : Z) : f64 := f64_div (f64_of_Z 2) (f64_add (f64_of_Z period) f64_one).
Definition ALPHA_FAST : f64 := alpha EMA_FAST_PERIOD.
Definition ALPHA_SLOW : f64 := alpha EMA_SLOW_PERIOD.
Definition ALPHA_TREND : f64 := alpha EMA_TREND_PERIOD.

(** The block that [update] repeats for each line. *)
Definition advance (alpha : f64) (l : EmaLine) (tick : Tick) : EmaLine :=
  let price := f64_of_Z (ltp_paise tick) in
  if ema_seeded l then
    let prev := ema_acc l in
    let acc := f64_add prev (f64_mul alpha (f64_sub price prev)) in
    mk_EmaLine (f_round_as_i64 acc) acc true
  else mk_EmaLine (ltp_paise tick) price true.

Definition update (s : FeatureState) (tick : Tick) : FeatureState :=
  let fast := advance ALPHA_FAST (ema_fast_line (ema_st s)) tick in
  let slow := advance ALPHA_SLOW (ema_slow_line (ema_st s)) tick in
  let trend := advance ALPHA_TREND (ema_trend_line (ema_st s)) tick in
  set_ema s (mk_EmaState fast slow trend (RingWindow.push (ema_fast_history (ema_st s)) (ema_paise fast))).

Definition compute_line (l : EmaLine) : Z := if ema_seeded l then ema_paise l else 0.
Definition compute_fast_paise (s : FeatureState) : Z := compute_line (ema_fast_line (ema_st s)).
Definition compute_slow_paise (s : FeatureState) : Z := compute_line (ema_slow_line (ema_st s)).
Definition compute_trend_paise (s : FeatureState) : Z := compute_line (ema_trend_line (ema_st s)).

Definition compute_slope (s : FeatureState) : f32 :=
  if (RingWindow.len (ema_fast_history (ema_st s)) <? EMA_SLOPE_LOOKBACK)%nat then f_zero
  else
    match list.head (RingWindow.iter_recent (ema_fast_history (ema_st s)) EMA_SLOPE_LOOKBACK) with
    | None => f_zero
    | Some oldest =>
      let now := ema_paise (ema_fast_line (ema_st s)) in
      f64_to_f32 (f64_div (f64_of_Z (i64_sub now oldest))
                    (f64_of_Z (Z.max (Z.of_nat EMA_SLOPE_LOOKBACK - 1) 1)))
    end.
Definition is_ready (s : FeatureState) : bool :=
  ema_seeded (ema_fast_line (ema_st s)) && ema_seeded (ema_slow_line (ema_st s))
  && ema_seeded (ema_trend_line (ema_st s))
  && (EMA_SLOPE_LOOKBACK <=? RingWindow.len (ema_fast_history (ema_st s)))%nat.
End Ema.

Module Volatility.
Section volatility.
Context (ln : f64 -> f64).

Definition update (s : FeatureState) (tick : Tick) : FeatureState :=
  if (0 <? last_ltp_paise (ident s)) && (0 <? ltp_paise tick) then
    let cur := ln (f64_of_Z (ltp_paise tick)) in
    let prev := ln (f64_of_Z (last_ltp_paise (ident s))) in
    set_log_returns s (RingWindow.push (log_returns s) (f64_sub cur prev))
  else s.
End volatility.

Definition compute (s : FeatureState) : f32 :=
  let n := RingWindow.len (log_returns s) in
  if (n <? 2)%nat then f_zero
  else
    let sum := foldl f64_add f_zero (RingWindow.iter (log_returns s)) in
    let mean := f64_div sum (f64_of_Z (Z.of_nat n)) in
    let var := foldl (fun var v => let d := f64_sub v mean in f64_add var (f64_mul d d))
                 f_zero (RingWindow.iter (log_returns s)) in
    let variance := f64_div var (f64_sub (f64_of_Z (Z.of_nat n)) f64_one) in
    f64_to_f32 (f64_sqrt variance).
Definition is_ready (s : FeatureState) : bool := (VOLATILITY_WINDOW <=? RingWindow.len (log_returns s))%nat.
End Volatility.

Module Momentum.
Definition update (s : FeatureState) (tick : Tick) : FeatureState :=
  set_momentum_prices s (RingWindow.push (momentum_prices s) (ltp_paise tick)).
Definition compute (s : FeatureState) : f32 :=
  if (RingWindow.len (momentum_prices s) <? 2)%nat then f_zero
  else
    match RingWindow.oldest (momentum_prices s) with
    | None => f_zero
    | Some oldest =>
      if oldest =? 0 then f_zero
      else
        match RingWindow.latest (momentum_prices s) with
        | None => f_zero
        | Some newest =>
          f64_to_f32 (f64_div (f64_sub (f64_of_Z newest) (f64_of_Z oldest)) (f64_of_Z oldest))
        end
    end.
Definition is_ready (s : FeatureState) : bool := (MOMENTUM_WINDOW <=? RingWindow.len (momentum_prices s))%nat.
End Momentum.

Module CandleStructure.
Inductive t := Doji | Marubozu | Hammer | InvertedHammer | LongUpperShadow | LongLowerShadow.
Definition as_u8 (c : t) : Z :=
  match c with
  | Doji => 0 | Marubozu => 1 | Hammer => 2 | InvertedHammer => 3
  | LongUpperShadow => 4 | LongLowerShadow => 5
  end.
Definition from_u8 (byte : Z) : option t :=
  match byte with
  | 0 => Some Doji | 1 => Some Marubozu | 2 => Some Hammer | 3 => Some InvertedHammer
  | 4 => Some LongUpperShadow | 5 => Some LongLowerShadow | _ => None
  end.
End CandleStructure.

Module Candle.
Definition update (s : FeatureState) (tick : Tick) : FeatureState :=
  let r := range_st s in
  let p := ltp_paise tick in
  set_range s (mk_RangeState (RingWindow.push (compression_prices r) p)
    (if (session_high_paise r =? 0) || (session_high_paise r <? p) then p else session_high_paise r)
    (if (session_low_paise r =? 0) || (p <? session_low_paise r) then p else session_low_paise r)).

Definition classify (s : FeatureState) : CandleStructure.t :=
  let close := last_ltp_paise (ident s) in
  let open := prev_ltp_paise (ident s) in
  if (close =? 0) || (open =? 0) then CandleStructure.Doji
  else
    let high := Z.max open close in
    let low := Z.min open close in
    let body := i64_abs (i64_sub close open) in
    let range := Z.max (i64_sub high low) 1 in
    let body_ratio := f64_div (f64_of_Z body) (f64_of_Z range) in
    if body =? 0 then CandleStructure.Doji
    else if f_gt body_ratio (f64_lit 95 100) then CandleStructure.Marubozu
    else
      let upper_wick := f64_of_Z (i64_sub high (Z.max close open)) in
      let lower_wick := f64_of_Z (i64_sub (Z.min close open) low) in
      let body_f := f64_of_Z body in
      let two := f64_of_Z 2 in
      let one_half := f64_lit 15 10 in
      if f_gt lower_wick (f64_mul two body_f) && f_lt upper_wick body_f then CandleStructure.Hammer
      else if f_gt upper_wick (f64_mul two body_f) && f_lt lower_wick body_f
      then CandleStructure.InvertedHammer
      else if f_gt upper_wick (f64_mul lower_wick one_half) then CandleStructure.LongUpperShadow
      else if f_gt lower_wick (f64_mul upper_wick one_half) then CandleStructure.LongLowerShadow
      else CandleStructure.Doji.
Definition is_ready (s : FeatureState) : bool :=
  (0 <? last_ltp_paise (ident s)) && (0 <? prev_ltp_paise (ident s)).
End Candle.

Module Sweep.
Definition update (s : FeatureState) (tick : Tick) : FeatureState :=
  let idx := tick_count (ident s) in
  let new_price := ltp_paise tick in
  let r := range_st s in
  let w := sweep_st s in
  let high_break := (0 <? session_high_paise r) && (session_high_paise r <=? new_price)
                    && (last_high_break_paise w <? new_price) in
  let high_idx := if high_break then Some idx else last_high_break_idx w in
  let high_paise := if high_break then new_price else last_high_break_paise w in
  let low_break := (0 <? session_low_paise r) && (new_price <=? session_low_paise r)
                   && ((last_low_break_paise w =? 0) || (new_price <? last_low_break_paise w)) in
  let low_idx := if low_break then Some idx else last_low_break_idx w in
  let low_paise := if low_break then new_price else last_low_break_paise w in
  let '(high_idx, signal) :=
    match high_idx with
    | Some b_idx =>
      let elapsed := u64_sat_sub idx b_idx in
      if (0 <? elapsed) && (elapsed <=? SWEEP_LOOKAHEAD) && (new_price <? high_paise)
      then (high_idx, f_opp f32_one)
      else if SWEEP_LOOKAHEAD <? elapsed then (None, f_zero) else (high_idx, f_zero)
    | None => (None, f_zero)
    end in
  let '(low_idx, signal) :=
    match low_idx with
    | Some b_idx =>
      let elapsed := u64_sat_sub idx b_idx in
      if (0 <? elapsed) && (elapsed <=? SWEEP_LOOKAHEAD) && (low_paise <? new_price)
      then (low_idx, f32_one)
      else if SWEEP_LOOKAHEAD <? elapsed then (None, signal) else (low_idx, signal)
    | None => (None, signal)
    end in
  set_sweep s (mk_SweepState high_idx low_idx high_paise low_paise signal).
Definition compute (s : FeatureState) : f32 := sweep_signal (sweep_st s).
Definition is_ready (s : FeatureState) : bool :=
  is_some (last_high_break_idx (sweep_st s)) || is_some (last_low_break_idx (sweep_st s)).
End Sweep.

Module Rsi.
Definition update (s : FeatureState) (tick : Tick) : FeatureState :=
  let r := rsi_st s in
  let price := f64_of_Z (ltp_paise tick) in
  if tick_count (ident s) =? 0 then set_rsi s (mk_RsiState (rsi_avg_gain r) (rsi_avg_loss r) f_zero)
  else
    let prev_price := f64_of_Z (prev_ltp_paise (ident s)) in
    let change := f64_sub price prev_price in
    let '(current_gain, current_loss) :=
      if f_gt change f_zero then (change, f_zero) else (f_zero, f_abs change) in
    let n := f64_of_Z (if tick_count (ident s) <? RSI_WINDOW then tick_count (ident s) else RSI_WINDOW) in
    let smooth avg current := f64_div (f64_add (f64_mul avg (f64_sub n f64_one)) current) n in
    let gain := smooth (rsi_avg_gain r) current_gain in
    let loss := smooth (rsi_avg_loss r) current_loss in
    let hundred := f64_of_Z 100 in
    let value :=
      if f_eq loss f_zero then f32_of_Z 100
      else
        let rs := f64_div gain loss in
        f64_to_f32 (f64_sub hundred (f64_div hundred (f64_add f64_one rs))) in
    set_rsi s (mk_RsiState gain loss value).
Definition compute (s : FeatureState) : f32 := rsi_value (rsi_st s).
Definition is_ready (s : FeatureState) : bool := RSI_WINDOW <=? tick_count (ident s).
End Rsi.

Module Donchian.
Definition update (s : FeatureState) (tick : Tick) : FeatureState :=
  set_donchian_prices s (RingWindow.push (donchian_prices s) (ltp_paise tick)).
Definition compute_upper (s : FeatureState) : Z :=
  if RingWindow.is_empty (donchian_prices s) then 0
  else foldl (fun m p => if m <? p then p else m) i64_min (RingWindow.iter (donchian_prices s)).
Definition compute_lower (s : FeatureState) : Z :=
  if RingWindow.is_empty (donchian_prices s) then 0
  else foldl (fun m p => if p <? m then p else m) i64_max (RingWindow.iter (donchian_prices s)).
Definition is_ready (s : FeatureState) : bool :=
  (DONCHIAN_WINDOW <=? RingWindow.len (donchian_prices s))%nat.
End Donchian.

Module Adx.
Definition update (s : FeatureState) (tick : Tick) : FeatureState :=
  let a := adx_st s in
  if tick_count (ident s) =? 0 then
    set_adx s (mk_AdxState (adx_smoothed_tr a) (adx_smoothed_pdm a) (adx_smoothed_ndm a)
                 (adx_smoothed_dx a) f_zero)
  else
    let prev_high := f64_of_Z (bar_high_paise (atr_st s)) in
    let prev_low := f64_of_Z (bar_low_paise (atr_st s)) in
    let prev_close := f64_of_Z (prev_ltp_paise (ident s)) in
    let ltp := f64_of_Z (ltp_paise tick) in
    let tr := f_abs (f64_sub ltp prev_close) in
    let up_move := f64_sub ltp prev_high in
    let down_move := f64_sub prev_low ltp in
    let pdm := if f_gt up_move down_move && f_gt up_move f_zero then up_move else f_zero in
    let ndm := if f_gt down_move up_move && f_gt down_move f_zero then down_move else f_zero in
    let window := f64_of_Z ADX_WINDOW in
    let n := tick_count (ident s) in
    if n <? ADX_WINDOW then
      set_adx s (mk_AdxState (f64_add (adx_smoothed_tr a) tr) (f64_add (adx_smoothed_pdm a) pdm)
                   (f64_add (adx_smoothed_ndm a) ndm) (adx_smoothed_dx a) (adx_value a))
    else if n =? ADX_WINDOW then
      set_adx s (mk_AdxState (f64_div (adx_smoothed_tr a) window) (f64_div (adx_smoothed_pdm a) window)
                   (f64_div (adx_smoothed_ndm a) window) (adx_smoothed_dx a) (adx_value a))
    else
      let wilder x v := f64_add (f64_sub x (f64_div x window)) v in
      let str := wilder (adx_smoothed_tr a) tr in
      let spdm := wilder (adx_smoothed_pdm a) pdm in
      let sndm := wilder (adx_smoothed_ndm a) ndm in
      let hundred := f64_of_Z 100 in
      let '(pdi, ndi) :=
        if f_gt str f_zero
        then (f64_mul hundred (f64_div spdm str), f64_mul hundred (f64_div sndm str))
        else (f_zero, f_zero) in
      let dx := if f_gt (f64_add pdi ndi) f_zero
                then f64_mul hundred (f64_div (f_abs (f64_sub pdi ndi)) (f64_add pdi ndi))
                else f_zero in
      let sdx := if n <=? 2 * ADX_WINDOW then dx
                 else f64_div (f64_add (f64_mul (adx_smoothed_dx a) (f64_sub window f64_one)) dx) window in
      set_adx s (mk_AdxState str spdm sndm sdx (f64_to_f32 sdx)).
Definition compute (s : FeatureState) : f32 := adx_value (adx_st s).
Definition is_ready (s : FeatureState) : bool := 2 * ADX_WINDOW <=? tick_count (ident s).
End Adx.

Module Breakout.
Definition compute (s : FeatureState) : f32 :=
  let close := last_ltp_paise (ident s) in
  let high := session_high_paise (range_st s) in
  let low := session_low_paise (range_st s) in
  if (close =? 0) || (high =? 0) || (low =? 0) then f_zero
  else
    let range := f64_of_Z (i64_sub high low) in
    if f_le range f_zero then f_zero
    else
      let prox_high := f64_div (f64_of_Z (i64_sub close low)) range in
      let prox_low := f64_div (f64_of_Z (i64_sub high close)) range in
      let raw := f64_sub prox_high prox_low in
      let vol_ratio := f_max (f_min (f64_div (f64_of_Z (i64_abs (rolling_delta_cached (delta_st s))))
                                       (f64_of_Z 100)) f64_one) f_zero in
      f64_to_f32 (f_clamp Liquidity.f64_neg_one f64_one (f64_mul raw vol_ratio)).
Definition is_ready (s : FeatureState) : bool :=
  let r := range_st s in
  (0 <? session_high_paise r) && (0 <? session_low_paise r) && (session_low_paise r <? session_high_paise r).
End Breakout.

Module Compression.
Definition compute (s : FeatureState) : f32 :=
  let prices := compression_prices (range_st s) in
  if (RingWindow.len prices <? COMPRESSION_WINDOW)%nat then f_zero
  else
    let hi := foldl (fun m p => if m <? p then p else m) i64_min (RingWindow.iter prices) in
    let lo := foldl (fun m p => if p <? m then p else m) i64_max (RingWindow.iter prices) in
    let range := f64_of_Z (i64_sub hi lo) in
    let atr_paise := f64_of_Z (Atr.compute_paise s) in
    if f_le atr_paise f_zero then f_zero
    else f64_to_f32 (f_clamp f_zero f64_one (f64_sub f64_one (f64_div range atr_paise))).
Definition is_ready (s : FeatureState) : bool :=
  Atr.is_ready s && (COMPRESSION_WINDOW <=? RingWindow.len (compression_prices (range_st s)))%nat.
End Compression.

(** ** One tick (engine.rs) *)

Section process.
Context (ln : f64 -> f64).

(** The updates of [process_tick_into_state] in order; those of breakout and compression do
    nothing. *)
Definition update_indicators (s : FeatureState) (tick : Tick) : FeatureState :=
  let s := RollingDeltaFeature.update s tick in
  let s := Liquidity.update s tick in
  let s := Vwap.update s tick in
  let s := Atr.update s tick in
  let s := Ema.update s tick in
  let s := Volatility.update ln s tick in
  let s := Momentum.update s tick in
  let s := Candle.update s tick in
  let s := Sweep.update s tick in
  let s := Rsi.update s tick in
  let s := Donchian.update s tick in
  Adx.update s tick.

Definition advance_pointers (s : FeatureState) (tick : Tick) : FeatureState :=
  set_ident s (mk_Identification (u64_sat_add (tick_count (ident s)) 1) (ltp_paise tick)
    (last_ltp_paise (ident s)) (ts_recv_ns tick)).

Definition feature_snapshot (s : FeatureState) (tick : Tick) : FeatureSnapshot :=
  mk_FeatureSnapshot (tk_correlation_id tick) (tk_symbol tick) (ltp_paise tick)
    (Vwap.compute_paise s) (Atr.compute_paise s)
    (Ema.compute_fast_paise s) (Ema.compute_slow_paise s) (Ema.compute_trend_paise s) (Ema.compute_slope s)
    (Volatility.compute s) (Momentum.compute s) (Rsi.compute s) (Adx.compute s)
    (Donchian.compute_upper s) (Donchian.compute_lower s) (RollingDeltaFeature.compute_paise s)
    (Liquidity.compute_imbalance s) (Liquidity.compute_orderflow_strength s)
    (CandleStructure.as_u8 (Candle.classify s)) (Breakout.compute s) (Compression.compute s)
    (Sweep.compute s) (ts_recv_ns tick).

Definition process_tick_into_state (s : FeatureState) (tick : Tick) : FeatureSnapshot * FeatureState :=
  let s := advance_pointers (update_indicators s tick) tick in (feature_snapshot s tick, s).

(** ** The engine: a state per symbol *)

Definition states : Type := gmap Z FeatureState.

Definition FEATURE_EXTRACTION_BUDGET_NS : Z := 3000000.

Definition state_of (m : states) (symbol : Z) : FeatureState :=
  match m !! symbol with Some s => s | None => default_state end.

Definition process_tick (m : states) (tick : Tick) : FeatureSnapshot * states :=
  let '(snap, s) := process_tick_into_state (state_of m (tk_symbol tick)) tick in
  (snap, <[tk_symbol tick := s]> m).
Definition reset_symbol (m : states) (symbol : Z) : states := alter clear_session symbol m.
Definition reset_all (m : states) : states := clear_session <$> m.
Definition ingest_orderflow_pressure (m : states) (symbol : Z) (value : f32) : states :=
  <[symbol := Liquidity.update_orderflow (state_of m symbol) value]> m.

Inductive Emission := EmitRecord (stage : Stage.t) (r : LatencyRecord)
                    | EmitBreach (stage : Stage.t) (r : LatencyRecord).
Definition emit_feature_extract_latency (cid : Z) (elapsed_ns : Z) : list Emission :=
  let breach := FEATURE_EXTRACTION_BUDGET_NS <? elapsed_ns in
  let record := mk_LatencyRecord (be_bytes 16 cid) (Stage.as_u8 Stage.FeatureExtraction)
                  elapsed_ns FEATURE_EXTRACTION_BUDGET_NS breach in
  EmitRecord Stage.FeatureExtraction record
  :: if breach then [EmitBreach Stage.FeatureExtraction record] else [].
End process.
