(* ===== verification/FeatureFacts.v ===== *)
(** What the incremental indicators of Features.v compute: the batch definitions over the
    whole tick history, and the consequences of the order in which they read the state. *)

From S2P Require Import Prelude Ieee Bytes Core Schemas Features.

(** ** Each update writes its own group *)

Module Frames.

Lemma delta s t : RollingDeltaFeature.update s t = set_delta s (delta_st (RollingDeltaFeature.update s t)).
Proof. reflexivity. Qed.
Lemma book s t : Liquidity.update s t = set_book s (book_st (Liquidity.update s t)).
Proof. reflexivity. Qed.
Lemma vwap s t : Vwap.update s t = set_vwap s (vwap_st (Vwap.update s t)).
Proof. unfold Vwap.update. destruct (_ =? 0); [by destruct s | done]. Qed.
Lemma atr s t : Atr.update s t = set_atr s (atr_st (Atr.update s t)).
Proof. reflexivity. Qed.
Lemma ema s t : Ema.update s t = set_ema s (ema_st (Ema.update s t)).
Proof. reflexivity. Qed.
Lemma volatility ln s t : Volatility.update ln s t = set_log_returns s (log_returns (Volatility.update ln s t)).
Proof. unfold Volatility.update. destruct (_ && _); [done | by destruct s]. Qed.
Lemma momentum s t : Momentum.update s t = set_momentum_prices s (momentum_prices (Momentum.update s t)).
Proof. reflexivity. Qed.
Lemma candle s t : Candle.update s t = set_range s (range_st (Candle.update s t)).
Proof. reflexivity. Qed.
Lemma sweep s t : Sweep.update s t = set_sweep s (sweep_st (Sweep.update s t)).
Proof.
  unfold Sweep.update. cbv zeta. by repeat case_match.
Qed.
Lemma rsi s t : Rsi.update s t = set_rsi s (rsi_st (Rsi.update s t)).
Proof. unfold Rsi.update. cbv zeta. destruct (_ =? 0); [done |]. by destruct (if f_gt _ _ then _ else _). Qed.
Lemma donchian s t : Donchian.update s t = set_donchian_prices s (donchian_prices (Donchian.update s t)).
Proof. reflexivity. Qed.
Lemma adx s t : Adx.update s t = set_adx s (adx_st (Adx.update s t)).
Proof.
  unfold Adx.update. cbv zeta. destruct (_ =? 0); [done |]. destruct (_ <? _); [done |].
  destruct (_ =? _); [done |]. by destruct (if f_gt _ _ then _ else _).
Qed.

Lemma adx_reads s s' t : ident s = ident s' -> atr_st s = atr_st s' -> adx_st s = adx_st s' ->
  adx_st (Adx.update s t) = adx_st (Adx.update s' t).
Proof.
  intros Hi Ha Hx. unfold Adx.update. rewrite Hi, Ha, Hx. cbv zeta. destruct (_ =? 0); [done |].
  destruct (_ <? _); [done |]. destruct (_ =? _); [done |]. by destruct (if f_gt _ _ then _ else _).
Qed.

(** The groups after all the updates. *)
Section groups.
Context (ln : f64 -> f64) (s : FeatureState) (t : Tick).

Ltac through_updates :=
  unfold update_indicators;
  rewrite (adx _ t), (rsi _ t), (sweep _ t), (volatility ln _ t), (vwap _ t); reflexivity.

Lemma ident_after : ident (update_indicators ln s t) = ident s.
Proof. through_updates. Qed.
Lemma atr_after : atr_st (update_indicators ln s t) = atr_st (Atr.update s t).
Proof. through_updates. Qed.
Lemma donchian_after :
  donchian_prices (update_indicators ln s t) = RingWindow.push (donchian_prices s) (ltp_paise t).
Proof. through_updates. Qed.
Lemma momentum_after :
  momentum_prices (update_indicators ln s t) = RingWindow.push (momentum_prices s) (ltp_paise t).
Proof. through_updates. Qed.
Lemma delta_after : delta_st (update_indicators ln s t) = delta_st (RollingDeltaFeature.update s t).
Proof. through_updates. Qed.
Lemma book_after : book_st (update_indicators ln s t) = book_st (Liquidity.update s t).
Proof. through_updates. Qed.
Lemma range_after : range_st (update_indicators ln s t) = range_st (Candle.update s t).
Proof. through_updates. Qed.
Lemma ema_after : ema_st (update_indicators ln s t) = ema_st (Ema.update s t).
Proof. through_updates. Qed.
(** Two groups that read others: what they are updated from does not matter here. *)
Lemma sweep_after : exists u, sweep_st (update_indicators ln s t) = sweep_st (Sweep.update u t).
Proof.
  assert (forall u x, sweep_st (set_adx u x) = sweep_st u) as H1 by reflexivity.
  assert (forall u, sweep_st (Donchian.update u t) = sweep_st u) as H2 by reflexivity.
  assert (forall u x, sweep_st (set_rsi u x) = sweep_st u) as H3 by reflexivity.
  unfold update_indicators. rewrite (adx _ t), H1, H2, (rsi _ t), H3. by eexists.
Qed.
Lemma rsi_after : exists u, rsi_st (update_indicators ln s t) = rsi_st (Rsi.update u t).
Proof.
  assert (forall u x, rsi_st (set_adx u x) = rsi_st u) as H1 by reflexivity.
  assert (forall u, rsi_st (Donchian.update u t) = rsi_st u) as H2 by reflexivity.
  unfold update_indicators. rewrite (adx _ t), H1, H2. by eexists.
Qed.
Lemma vwap_after : vwap_st (update_indicators ln s t) = vwap_st (Vwap.update s t).
Proof.
  unfold update_indicators. rewrite (adx _ t), (rsi _ t), (sweep _ t), (volatility ln _ t).
  change (vwap_st (Vwap.update (Liquidity.update (RollingDeltaFeature.update s t) t) t)
    = vwap_st (Vwap.update s t)).
  unfold Vwap.update. by destruct (ltq t =? 0).
Qed.
Lemma adx_after :
  adx_st (update_indicators ln s t) = adx_st (Adx.update (set_atr s (atr_st (Atr.update s t))) t).
Proof.
  unfold update_indicators. apply adx_reads;
    rewrite (rsi _ t), (sweep _ t), (volatility ln _ t), (vwap _ t); reflexivity.
Qed.
End groups.

(** One tick, group by group. *)
Record after (ln : f64 -> f64) (s : FeatureState) (t : Tick) (s' : FeatureState) : Prop := {
  after_ident : ident s' = mk_Identification (u64_sat_add (tick_count (ident s)) 1) (ltp_paise t)
                             (last_ltp_paise (ident s)) (ts_recv_ns t);
  after_vwap : vwap_st s' = vwap_st (Vwap.update s t);
  after_atr : atr_st s' = atr_st (Atr.update s t);
  after_donchian : donchian_prices s' = RingWindow.push (donchian_prices s) (ltp_paise t);
  after_momentum : momentum_prices s' = RingWindow.push (momentum_prices s) (ltp_paise t);
  after_delta : delta_st s' = delta_st (RollingDeltaFeature.update s t);
  after_range : range_st s' = range_st (Candle.update s t);
  after_book : book_st s' = book_st (Liquidity.update s t);
  after_adx : adx_st s' = adx_st (Adx.update (set_atr s (atr_st (Atr.update s t))) t);
}.

Lemma after_advance ln s t u : u = update_indicators ln s t -> after ln s t (advance_pointers u t).
Proof.
  intros E. split; cbn [advance_pointers set_ident ident vwap_st atr_st donchian_prices momentum_prices
    delta_st range_st book_st adx_st]; rewrite E.
  - by rewrite ident_after.
  - apply vwap_after.
  - apply atr_after.
  - apply donchian_after.
  - apply momentum_after.
  - apply delta_after.
  - apply range_after.
  - apply book_after.
  - apply adx_after.
Qed.

Lemma process_after ln s t : after ln s t (process_tick_into_state ln s t).2.
Proof. by apply after_advance. Qed.
End Frames.

(** ** The batch definitions *)

Module Batch.

(** [f] of each tick and the one before it. *)
Section pairwise.
Context {A : Type} (f : option Tick -> Tick -> A).
Fixpoint pairwise (prev : option Tick) (ts : list Tick) : list A :=
  match ts with [] => [] | t :: ts => f prev t :: pairwise (Some t) ts end.

Lemma pairwise_app ts t : forall prev,
  pairwise prev (ts ++ [t])
  = pairwise prev ts ++ [f (match last ts with Some u => Some u | None => prev end) t].
Proof.
  induction ts as [| u ts IH]; intros prev; [done |]. cbn [pairwise app]. rewrite IH.
  destruct ts as [| u' ts]; [done |]. rewrite (last_cons u (u' :: ts)), last_cons.
  by destruct (last ts).
Qed.

Lemma pairwise_length ts : forall prev, length (pairwise prev ts) = length ts.
Proof. induction ts as [| t ts IH]; intros prev; [done |]. simpl. by rewrite IH. Qed.
End pairwise.

Definition prices (ts : list Tick) : list Z := ltp_paise <$> ts.
Definition notional (ts : list Tick) : Z := list_sum ((fun t => ltp_paise t * ltq t) <$> ts).
Definition quantity (ts : list Tick) : Z := list_sum (ltq <$> ts).

(** The volume-weighted average price over the session. *)
Definition vwap_of (ts : list Tick) : Z :=
  if quantity ts =? 0 then 0 else notional ts / quantity ts.

(** True range of a tick stream: the absolute move from the price before. *)
Definition true_range (prev : option Tick) (t : Tick) : Z :=
  match prev with Some u => Z.abs (ltp_paise t - ltp_paise u) | None => 0 end.
Definition atr_of (ts : list Tick) : Z :=
  let w := RingWindow.last_n ATR_WINDOW (pairwise true_range None ts) in
  if bool_decide (w = []) then 0 else list_sum w / Z.of_nat (length w).

(** A tick's volume, signed by the change of the book, or else by the change of price. *)
Definition signed_volume (prev : option Tick) (t : Tick) : Z :=
  let mag := Z.min (ltq t) i64_max in
  let '(buy, sell, p) := match prev with
                         | Some u => (total_buy_qty u, total_sell_qty u, ltp_paise u)
                         | None => (0, 0, 0)
                         end in
  let book := (total_buy_qty t - buy) - (total_sell_qty t - sell) in
  mag * (if book =? 0 then (if p =? 0 then 0 else Z.sgn (ltp_paise t - p)) else Z.sgn book).
Definition delta_of (ts : list Tick) (now : Z) : Z :=
  let samples := RingWindow.last_n ROLLING_DELTA_CAPACITY
    (pairwise (fun prev t => mk_DeltaSample (ts_recv_ns t) (signed_volume prev t)) None ts) in
  foldl i64_sat_add 0
    (signed_qty <$> filter (fun x => u64_sat_sub now ROLLING_DELTA_WINDOW_NS <= ts_ns x) samples).

Definition momentum_of (ts : list Tick) : f32 :=
  let w := RingWindow.last_n MOMENTUM_WINDOW (prices ts) in
  match list.head w, last w with
  | Some oldest, Some newest =>
    if (length w <? 2)%nat || (oldest =? 0) then f_zero
    else f64_to_f32 (f64_div (f64_sub (f64_of_Z newest) (f64_of_Z oldest)) (f64_of_Z oldest))
  | _, _ => f_zero
  end.

Definition tick_ok (t : Tick) : Prop := 0 <= ltp_paise t <= i64_max /\ u64_ok (ltq t).

(** What one state has accumulated of a history. *)
Record inv (ts : list Tick) (s : FeatureState) : Prop := {
  inv_first : tick_count (ident s) = 0 <-> ts = [];
  inv_count : 0 <= tick_count (ident s);
  inv_last : last_ltp_paise (ident s) = unwrap_or 0 (last (prices ts));
  inv_prev_last : prev_ltp_paise (ident s) = unwrap_or 0 (last (prices (removelast ts)));
  inv_vwap : 0 <= notional ts <= i128_max -> quantity ts <= i128_max ->
             vwap_st s = mk_VwapState (notional ts) (quantity ts);
  inv_tr : RingWindow.tracks ATR_WINDOW (tr_window (atr_st s)) (pairwise true_range None ts);
  inv_close : prev_close_paise (atr_st s) = unwrap_or 0 (last (prices ts));
  inv_donchian : RingWindow.tracks DONCHIAN_WINDOW (donchian_prices s) (prices ts);
  inv_momentum : RingWindow.tracks MOMENTUM_WINDOW (momentum_prices s) (prices ts);
  inv_samples : RingWindow.tracks ROLLING_DELTA_CAPACITY (delta_samples (delta_st s))
    (pairwise (fun prev t => mk_DeltaSample (ts_recv_ns t) (signed_volume prev t)) None ts);
  inv_delta : rolling_delta_cached (delta_st s) =
    match last ts with Some t => delta_of ts (ts_recv_ns t) | None => 0 end;
  inv_book : (lb_total_buy_qty (last_book (book_st s)), lb_total_sell_qty (last_book (book_st s)))
    = match last ts with Some u => (total_buy_qty u, total_sell_qty u) | None => (0, 0) end;
}.

Lemma sign_volume_spec ts s t : inv ts s -> u64_ok (ltq t) ->
  RollingDeltaFeature.sign_volume s t
  = signed_volume (match last ts with Some u => Some u | None => None end) t.
Proof.
  intros H Ht. unfold RollingDeltaFeature.sign_volume, signed_volume.
  pose proof (inv_book _ _ H) as Hb. pose proof (inv_last _ _ H) as Hl. unfold prices in Hl.
  rewrite fmap_last in Hl. rewrite Hl.
  set (mag := Z.min (ltq t) i64_max). assert (mag = 0 \/ mag <> 0) as Hm by lia.
  destruct (last ts) as [u |]; injection Hb as -> ->; cbn [fmap option_fmap option_map unwrap_or];
    set (book := _ - _); clearbody book mag; unfold_ok;
    destruct (Z.eqb_spec mag 0) as [-> | _]; try lia;
    destruct (Z.ltb_spec 0 book), (Z.ltb_spec book 0), (Z.eqb_spec book 0); try lia.
  - destruct (Z.eqb_spec (ltp_paise u) 0); cbn [negb andb]; [lia |].
    destruct (Z.ltb_spec (ltp_paise u) (ltp_paise t)), (Z.ltb_spec (ltp_paise t) (ltp_paise u)); lia.
  - cbn. lia.
Qed.

Lemma delta_sum cutoff l : forall acc,
  foldl (fun sum x => if cutoff <=? ts_ns x then i64_sat_add sum (signed_qty x) else sum) acc l
  = foldl i64_sat_add acc (signed_qty <$> filter (fun x => cutoff <= ts_ns x) l).
Proof.
  induction l as [| x l IH]; intros acc; [done |]. rewrite filter_cons. cbn [foldl].
  destruct (Z.leb_spec cutoff (ts_ns x)).
  - rewrite decide_True by done. rewrite fmap_cons. cbn [foldl]. apply IH.
  - rewrite decide_False by lia. apply IH.
Qed.

Lemma prices_app ts t : prices (ts ++ [t]) = prices ts ++ [ltp_paise t].
Proof. unfold prices. by rewrite fmap_app. Qed.
Lemma notional_app ts t : notional (ts ++ [t]) = notional ts + ltp_paise t * ltq t.
Proof. unfold notional. rewrite fmap_app, list_sum_app. cbn. lia. Qed.
Lemma quantity_app ts t : quantity (ts ++ [t]) = quantity ts + ltq t.
Proof. unfold quantity. rewrite fmap_app, list_sum_app. cbn. lia. Qed.

Lemma totals_nonneg ts : Forall tick_ok ts ->
  0 <= quantity ts /\ 0 <= notional ts <= i64_max * quantity ts.
Proof.
  induction 1 as [| t ts [Hp Hq] Hts IH]; [cbn; lia |]. unfold notional, quantity in *.
  rewrite !fmap_cons, !list_sum_cons. unfold_ok. nia.
Qed.

Lemma batch_inv_init : inv [] default_state.
Proof.
  split; try done; cbn; apply RingWindow.tracks_fresh; by apply Nat.ltb_lt.
Qed.

Lemma true_range_spec s ts t : inv ts s -> Forall tick_ok ts -> tick_ok t ->
  let prev_close := if tick_count (ident s) =? 0 then ltp_paise t else prev_close_paise (atr_st s) in
  Z.max (Z.max (i64_abs (i64_sub (ltp_paise t) (ltp_paise t))) (i64_abs (i64_sub (ltp_paise t) prev_close)))
        (i64_abs (i64_sub (ltp_paise t) prev_close))
  = true_range (match last ts with Some u => Some u | None => None end) t.
Proof.
  intros H Hts [Hp _]. pose proof (inv_first _ _ H) as Hf. pose proof (inv_close _ _ H) as Hc.
  unfold prices in Hc. rewrite fmap_last in Hc. cbv zeta.
  assert (forall a b, 0 <= a <= i64_max -> 0 <= b <= i64_max -> i64_abs (i64_sub a b) = Z.abs (a - b)) as Habs.
  { intros a b Ha Hb. unfold i64_abs, i64_sub. unfold_ok. rewrite !as_i64_id; unfold_ok; try lia.
    rewrite as_i64_id; unfold_ok; lia. }
  destruct (last ts) as [u |] eqn:E; cbn in Hc.
  - assert (tick_ok u) as [Hu _].
    { apply last_Some in E as [l ->]. apply Forall_app in Hts as [_ [? _]%Forall_cons]. done. }
    destruct (Z.eqb_spec (tick_count (ident s)) 0) as [H0 |].
    { apply Hf in H0. by subst ts. }
    rewrite Hc, !Habs by done. cbn. lia.
  - apply last_None in E. rewrite (proj2 Hf E), Z.eqb_refl, !Habs by done. cbn. lia.
Qed.

Lemma batch_inv_step ln ts s t : inv ts s -> Forall tick_ok ts -> tick_ok t ->
  inv (ts ++ [t]) (process_tick_into_state ln s t).2.
Proof.
  intros H Hts Ht. pose proof (totals_nonneg ts Hts) as [Hq0 Hn0].
  destruct (Frames.process_after ln s t) as [Eident Evwap Eatr Edonchian Emomentum Edelta _ Ebook _].
  generalize dependent (process_tick_into_state ln s t).2. intros s' Eident Evwap Eatr Edonchian Emomentum
    Edelta Ebook.
  assert (last (prices (ts ++ [t])) = Some (ltp_paise t)) as Hlast
    by (by rewrite prices_app, last_snoc).
  split.
  - rewrite Eident; cbn [tick_count]. pose proof (inv_count _ _ H). split; [unfold u64_sat_add; sat_lia |].
    by intros [_ ?]%app_eq_nil.
  - rewrite Eident; cbn [tick_count]. pose proof (inv_count _ _ H). unfold u64_sat_add. sat_lia.
  - by rewrite Eident, Hlast.
  - rewrite Eident; cbn [prev_ltp_paise]. rewrite removelast_last. apply (inv_last _ _ H).
  - rewrite Evwap, notional_app, quantity_app. intros Hn Hq.
    destruct Ht as [Hp Htq]. unfold_ok.
    assert (vwap_st s = mk_VwapState (notional ts) (quantity ts)) as Hv
      by (apply (inv_vwap _ _ H); unfold_ok; nia).
    unfold Vwap.update. destruct (Z.eqb_spec (ltq t) 0) as [E | E].
    + rewrite Hv, E. f_equal; lia.
    + cbn [set_vwap vwap_st]. rewrite Hv. cbn [vwap_num vwap_den]. unfold i128_sat_add, u128_sat_add.
      rewrite as_i128_id by (unfold_ok; nia). rewrite !sat_id by (unfold_ok; nia). done.
  - rewrite Eatr, (pairwise_app true_range). unfold Atr.update. cbn [set_atr atr_st tr_window].
    rewrite <- (true_range_spec s ts t) by done. by apply RingWindow.tracks_push, (inv_tr _ _ H).
  - rewrite Eatr, Hlast. done.
  - rewrite Edonchian, prices_app. by apply RingWindow.tracks_push, (inv_donchian _ _ H).
  - rewrite Emomentum, prices_app. by apply RingWindow.tracks_push, (inv_momentum _ _ H).
  - rewrite Edelta, pairwise_app. unfold RollingDeltaFeature.update.
    cbn [set_delta delta_st delta_samples]. rewrite <- (sign_volume_spec ts s t H) by apply Ht.
    apply RingWindow.tracks_push, (inv_samples _ _ H).
  - rewrite Edelta, last_snoc. unfold RollingDeltaFeature.update.
    cbn [set_delta delta_st rolling_delta_cached]. rewrite delta_sum. unfold delta_of. rewrite pairwise_app.
    rewrite (sign_volume_spec ts s t H) by apply Ht.
    pose proof (RingWindow.tracks_push _ _ _ (mk_DeltaSample (ts_recv_ns t)
      (signed_volume (match last ts with Some u => Some u | None => None end) t)) (inv_samples _ _ H)) as (_ & _ & Hi).
    by rewrite Hi.
  - rewrite Ebook, last_snoc. done.
Qed.

Definition run (ln : f64 -> f64) (ts : list Tick) : FeatureState :=
  foldl (fun s t => (process_tick_into_state ln s t).2) default_state ts.

Lemma batch_inv_run ln ts : Forall tick_ok ts -> inv ts (run ln ts).
Proof.
  induction ts as [| t ts IH] using rev_ind; [intros _; apply batch_inv_init |].
  intros [Hts [Ht _]%Forall_cons]%Forall_app. unfold run. rewrite foldl_app. cbn [foldl].
  by apply batch_inv_step; [apply IH | |].
Qed.

(** *** Reading the indicators *)

Lemma compute_vwap ts s : inv ts s -> Forall tick_ok ts -> notional ts <= i128_max ->
  quantity ts <= i128_max -> Vwap.compute_paise s = vwap_of ts.
Proof.
  intros H Hts Hn Hq. pose proof (totals_nonneg ts Hts) as [Hq0 Hn0].
  unfold Vwap.compute_paise, vwap_of. rewrite (inv_vwap _ _ H) by lia. cbn [vwap_den vwap_num].
  destruct (Z.eqb_spec (quantity ts) 0); [done |].
  rewrite as_i128_id by (unfold_ok; lia). rewrite Z.quot_div_nonneg by lia.
  pose proof (Z.div_pos (notional ts) (quantity ts) ltac:(lia) ltac:(lia)).
  pose proof (Z.div_le_upper_bound (notional ts) (quantity ts) i64_max ltac:(lia) ltac:(lia)).
  unfold_ok. split_ifs; lia.
Qed.

Lemma foldl_add l : forall acc, foldl Z.add acc l = acc + list_sum l.
Proof. induction l as [| x l IH]; intros acc; [simpl; lia |]. cbn [foldl]. rewrite IH, list_sum_cons. lia. Qed.

Lemma list_sum_le l b : Forall (fun x => 0 <= x <= b) l -> 0 <= list_sum l <= b * Z.of_nat (length l).
Proof. induction 1 as [| x l Hx Hl IH]; [simpl; lia |]. rewrite list_sum_cons. cbn [length]. lia. Qed.

Lemma true_ranges_ok ts : Forall tick_ok ts -> forall prev,
  match prev with Some u => tick_ok u | None => True end ->
  Forall (fun x => 0 <= x <= i64_max) (pairwise true_range prev ts).
Proof.
  induction 1 as [| t ts Ht Hts IH]; intros prev Hp; [constructor |]. cbn [pairwise].
  constructor; [| by apply IH]. destruct Ht as [Ht _]. destruct prev as [u |]; cbn; [| unfold_ok; lia].
  destruct Hp as [Hp _]. unfold_ok. lia.
Qed.

Lemma compute_atr ts s : inv ts s -> Forall tick_ok ts -> Atr.compute_paise s = atr_of ts.
Proof.
  intros H Hts. pose proof (inv_tr _ _ H) as Htr. unfold Atr.compute_paise, atr_of.
  rewrite (RingWindow.tracks_is_empty _ _ _ Htr), (RingWindow.tracks_len _ _ _ Htr).
  destruct Htr as (Hw & _ & ->). set (l := pairwise true_range None ts).
  assert (Forall (fun x => 0 <= x <= i64_max) (RingWindow.last_n ATR_WINDOW l)) as Hl
    by (by apply Forall_drop, true_ranges_ok).
  apply list_sum_le in Hl. rewrite RingWindow.last_n_length in Hl.
  destruct l as [| x l' _] using rev_ind; [done |].
  assert (ATR_WINDOW `min` length (l' ++ [x]) <> 0)%nat as Hnz
    by (rewrite length_app; cbn [length]; unfold ATR_WINDOW; lia).
  rewrite !bool_decide_eq_false_2.
  2: { intros E. apply (f_equal length) in E. rewrite RingWindow.last_n_length in E. done. }
  2: { by intros [_ ?]%app_eq_nil. }
  rewrite foldl_add, Z.add_0_l, RingWindow.last_n_length. rewrite Z.quot_div_nonneg by lia.
  set (n := Z.of_nat _) in *. assert (0 < n) by lia. clearbody n.
  pose proof (Z.div_pos (list_sum (RingWindow.last_n ATR_WINDOW (l' ++ [x]))) n ltac:(lia) ltac:(lia)).
  pose proof (Z.div_le_upper_bound (list_sum (RingWindow.last_n ATR_WINDOW (l' ++ [x]))) n i64_max
    ltac:(lia) ltac:(lia)).
  apply as_i64_id. unfold_ok. lia.
Qed.

Lemma foldl_max l : forall m, let x := foldl (fun m p => if m <? p then p else m) m l in
  m <= x /\ Forall (fun p => p <= x) l /\ (x = m \/ x ∈ l).
Proof.
  induction l as [| p l IH]; intros m; cbn [foldl]; [split_and!; [lia | constructor | by left] |].
  destruct (Z.ltb_spec m p).
  - destruct (IH p) as (H1 & H2 & H3). split_and!; [lia | by constructor |].
    right. destruct H3 as [-> | H3]; [apply list_elem_of_here | by apply list_elem_of_further].
  - destruct (IH m) as (H1 & H2 & H3). split_and!; [lia | by constructor; [lia |] |].
    destruct H3 as [H3 | H3]; [by left | right; by apply list_elem_of_further].
Qed.

Lemma foldl_min l : forall m, let x := foldl (fun m p => if p <? m then p else m) m l in
  x <= m /\ Forall (fun p => x <= p) l /\ (x = m \/ x ∈ l).
Proof.
  induction l as [| p l IH]; intros m; cbn [foldl]; [split_and!; [lia | constructor | by left] |].
  destruct (Z.ltb_spec p m).
  - destruct (IH p) as (H1 & H2 & H3). split_and!; [lia | by constructor |].
    right. destruct H3 as [-> | H3]; [apply list_elem_of_here | by apply list_elem_of_further].
  - destruct (IH m) as (H1 & H2 & H3). split_and!; [lia | by constructor; [lia |] |].
    destruct H3 as [H3 | H3]; [by left | right; by apply list_elem_of_further].
Qed.

Definition greatest (l : list Z) (x : Z) : Prop := x ∈ l /\ Forall (fun p => p <= x) l.
Definition least (l : list Z) (x : Z) : Prop := x ∈ l /\ Forall (fun p => x <= p) l.

Lemma compute_donchian ts s t : inv (ts ++ [t]) s -> Forall tick_ok (ts ++ [t]) ->
  let w := RingWindow.last_n DONCHIAN_WINDOW (prices (ts ++ [t])) in
  greatest w (Donchian.compute_upper s) /\ least w (Donchian.compute_lower s).
Proof.
  intros H Hts w. pose proof (inv_donchian _ _ H) as Hd.
  unfold Donchian.compute_upper, Donchian.compute_lower.
  rewrite (RingWindow.tracks_is_empty _ _ _ Hd), bool_decide_eq_false_2.
  2: { rewrite prices_app. by intros [_ ?]%app_eq_nil. }
  destruct Hd as (_ & _ & ->). fold w.
  assert (Forall (fun p => 0 <= p <= i64_max) w) as Hw.
  { apply Forall_drop, Forall_fmap. eapply Forall_impl; [exact Hts |]. by intros u [? _]. }
  assert (last w = Some (ltp_paise t)) as Hl.
  { unfold w. rewrite RingWindow.last_n_last by (by apply Nat.ltb_lt). by rewrite prices_app, last_snoc. }
  apply last_Some_elem_of in Hl.
  pose proof (proj1 (Forall_forall _ _) Hw _ Hl) as Hp. cbn beta in Hp. unfold_ok.
  destruct (foldl_max w i64_min) as (_ & Hu & Hui). destruct (foldl_min w i64_max) as (_ & Hlo & Hli).
  unfold_ok. split; split; try done.
  - destruct Hui as [E |]; [| done]. rewrite E in Hu. pose proof (proj1 (Forall_forall _ _) Hu _ Hl). cbn in *. lia.
  - destruct Hli as [E |]; [| done]. rewrite E in Hlo |- *.
    pose proof (proj1 (Forall_forall _ _) Hlo _ Hl) as Hx. cbn in Hx.
    assert (ltp_paise t = 9223372036854775807) as <- by lia. done.
Qed.

Lemma compute_momentum ts s : inv ts s -> Momentum.compute s = momentum_of ts.
Proof.
  intros H. pose proof (inv_momentum _ _ H) as Hm. unfold Momentum.compute, momentum_of.
  rewrite (RingWindow.tracks_oldest _ _ _ Hm), (RingWindow.tracks_latest _ _ _ Hm),
    (RingWindow.tracks_len _ _ _ Hm), RingWindow.last_n_length,
    RingWindow.last_n_last by (unfold MOMENTUM_WINDOW; lia).
  destruct (Nat.ltb_spec (MOMENTUM_WINDOW `min` length (prices ts)) 2); cbn [orb].
  - destruct (list.head _); [| done]. by destruct (last _).
  - destruct (list.head _) as [o |]; [| done].
    destruct (last (prices ts)); [by destruct (o =? 0) | by destruct (o =? 0)].
Qed.
End Batch.

(** C12: after any sequence of ticks, the incremental indicators of a snapshot are the batch
    ones: the volume-weighted price of the session, the mean true range of the last 14
    ticks, the extremes of the last 2000 prices, the return over the last 10, and the signed
    volume of the last 30 s as far as the last 256 ticks reach. *)
Theorem incremental_features_equal_batch (ln : f64 -> f64) (ts : list Tick) (t : Tick) :
  let all := ts ++ [t] in
  Forall Batch.tick_ok all -> Batch.notional all <= i128_max -> Batch.quantity all <= i128_max ->
  let snap := (process_tick_into_state ln (Batch.run ln ts) t).1 in
  let range := RingWindow.last_n DONCHIAN_WINDOW (Batch.prices all) in
  price snap = ltp_paise t
  /\ vwap snap = Batch.vwap_of all
  /\ atr snap = Batch.atr_of all
  /\ rolling_delta snap = Batch.delta_of all (ts_recv_ns t)
  /\ momentum snap = Batch.momentum_of all
  /\ Batch.greatest range (donchian_upper snap) /\ Batch.least range (donchian_lower snap).
Proof.
  intros all Hok Hn Hq snap range.
  pose proof (Batch.batch_inv_run ln all Hok) as HI. unfold all, Batch.run in HI. rewrite foldl_app in HI.
  cbn [foldl] in HI. fold (Batch.run ln ts) in HI. subst snap. unfold process_tick_into_state in *.
  cbn [fst snd] in *. generalize dependent (advance_pointers (update_indicators ln (Batch.run ln ts) t) t).
  intros s HI. unfold feature_snapshot.
  cbn [price vwap atr rolling_delta momentum donchian_upper donchian_lower].
  split_and!; try done.
  - by apply Batch.compute_vwap.
  - by apply Batch.compute_atr.
  - unfold RollingDeltaFeature.compute_paise. rewrite (Batch.inv_delta _ _ HI). by rewrite last_snoc.
  - by apply Batch.compute_momentum.
  - by apply (Batch.compute_donchian ts s t).
  - by apply (Batch.compute_donchian ts s t).
Qed.

Module FeatureSample.
Definition tick (p q buy ns : Z) : Tick := mk_Tick [] 1 0 p 0 0 q buy 0 0 ns.
Definition ticks : list Tick := [tick 10000 10 5 0; tick 10030 20 4 1; tick 10010 0 9 2].
End FeatureSample.

Lemma incremental_features_equal_batch_witness :
  let snap := (process_tick_into_state (fun x => x) (Batch.run (fun x => x) FeatureSample.ticks)
                 (FeatureSample.tick 10020 30 20 3)).1 in
  vwap snap = Batch.vwap_of (FeatureSample.ticks ++ [FeatureSample.tick 10020 30 20 3])
  /\ Batch.vwap_of (FeatureSample.ticks ++ [FeatureSample.tick 10020 30 20 3]) = 10020
  /\ Batch.atr_of (FeatureSample.ticks ++ [FeatureSample.tick 10020 30 20 3]) = 15
  /\ Batch.delta_of (FeatureSample.ticks ++ [FeatureSample.tick 10020 30 20 3]) 3 = 20.
Proof.
  destruct (incremental_features_equal_batch (fun x => x) FeatureSample.ticks (FeatureSample.tick 10020 30 20 3))
    as (_ & H & _).
  - repeat constructor; vm_compute; discriminate.
  - vm_compute. discriminate.
  - vm_compute. discriminate.
  - split_and!; [exact H | reflexivity | reflexivity | vm_compute; reflexivity].
Defined.

(** The session average lies between the least and the greatest traded price. *)
Lemma vwap_between (lo hi : Z) (ts : list Tick) : Forall Batch.tick_ok ts ->
  Forall (fun t => ltq t = 0 \/ lo <= ltp_paise t <= hi) ts -> 0 < Batch.quantity ts ->
  lo <= Batch.vwap_of ts <= hi.
Proof.
  intros Hok Hr Hq.
  assert (lo * Batch.quantity ts <= Batch.notional ts <= hi * Batch.quantity ts) as Hb.
  { clear Hq. induction Hr as [| t ts Ht Hts IH]; [cbn; lia |]. apply Forall_cons in Hok as [[_ Hq] Hok].
    specialize (IH Hok). unfold Batch.notional, Batch.quantity in *. rewrite !fmap_cons, !list_sum_cons.
    unfold_ok. destruct Ht as [E | Ht]; [rewrite E; lia | nia]. }
  unfold Batch.vwap_of. destruct (Z.eqb_spec (Batch.quantity ts) 0); [lia |].
  split; [apply Z.div_le_lower_bound; lia | apply Z.div_le_upper_bound; lia].
Qed.

(** ** Consequences of the order of updates *)

Lemma f_gt_irrefl a : f_gt a a = false.
Proof.
  unfold f_gt, SFltb. pose proof (SFcompare_antisym a a) as H. destruct (SFcompare a a) as [[] |]; done.
Qed.

(** The average directional index compares a tick with the bar of [Atr.update], which has
    already been set to that same tick: the directional movements and the index are zero
    whatever the prices do. *)
Module AdxFacts.
Definition flat (a : AdxState) : Prop :=
  adx_smoothed_pdm a = f_zero /\ adx_smoothed_ndm a = f_zero
  /\ adx_smoothed_dx a = f_zero /\ adx_value a = f_zero.

Lemma share_zero str : f_gt str f_zero = true -> f64_mul (f64_of_Z 100) (f64_div f_zero str) = f_zero.
Proof. destruct str as [[] | [] | | [] m e]; done. Qed.

Lemma update_flat s t : bar_high_paise (atr_st s) = ltp_paise t -> bar_low_paise (atr_st s) = ltp_paise t ->
  flat (adx_st s) -> flat (adx_st (Adx.update s t)).
Proof.
  intros Hh Hl (Hp & Hn & Hd & Hv). unfold Adx.update, flat. rewrite Hh, Hl, Hp, Hn, Hd, Hv.
  rewrite f_gt_irrefl. cbn [andb]. cbv zeta.
  destruct (_ =? 0); [done |]. destruct (_ <? _); [done |]. destruct (_ =? _); [done |].
  change (f64_add (f64_sub f_zero (f64_div f_zero (f64_of_Z ADX_WINDOW))) f_zero) with f_zero.
  destruct (f_gt _ f_zero) eqn:E; [rewrite (share_zero _ E) |];
    change (f_gt (f64_add f_zero f_zero) f_zero) with false; cbv iota;
    destruct (_ <=? _); cbn [set_adx adx_st adx_smoothed_pdm adx_smoothed_ndm adx_smoothed_dx adx_value];
    split_and!; reflexivity.
Qed.
End AdxFacts.

Lemma adx_is_always_zero (ln : f64 -> f64) (ts : list Tick) : Adx.compute (Batch.run ln ts) = f_zero.
Proof.
  enough (AdxFacts.flat (adx_st (Batch.run ln ts))) as (_ & _ & _ & H) by exact H.
  induction ts as [| t ts IH] using rev_ind; [by split_and! |].
  unfold Batch.run. rewrite foldl_app. cbn [foldl]. fold (Batch.run ln ts).
  pose proof (Frames.after_adx _ _ _ _ (Frames.process_after ln (Batch.run ln ts) t)) as ->.
  apply AdxFacts.update_flat; [reflexivity | reflexivity | exact IH].
Qed.

(** The relative strength index and the true range of [Adx.update] read [prev_ltp_paise],
    which at that point is the price two ticks back, and 0 on the second tick. *)
Lemma indicators_see_two_ticks_back ln ts t : Forall Batch.tick_ok (ts ++ [t]) ->
  prev_ltp_paise (ident (Batch.run ln (ts ++ [t]))) = unwrap_or 0 (last (Batch.prices ts)).
Proof.
  intros Hok. rewrite (Batch.inv_prev_last _ _ (Batch.batch_inv_run ln _ Hok)). by rewrite removelast_last.
Qed.

(** So a first move from 10000 to 10001 is averaged as a gain of 10001. *)
Example second_tick_gain :
  let s := Batch.run (fun x => x) [FeatureSample.tick 10000 1 0 0; FeatureSample.tick 10001 1 0 1] in
  f_as_i64 (rsi_avg_gain (rsi_st s)) = 10001 /\ f_as_i64 (rsi_avg_loss (rsi_st s)) = 0.
Proof. split; reflexivity. Qed.

(** A candle built from two prices has no wicks: it is a doji or a marubozu, and the other
    four structures are never reported. *)
Lemma candle_is_doji_or_marubozu s :
  0 <= last_ltp_paise (ident s) <= i64_max -> 0 <= prev_ltp_paise (ident s) <= i64_max ->
  Candle.classify s = CandleStructure.Doji \/ Candle.classify s = CandleStructure.Marubozu.
Proof.
  intros Hc Ho. unfold Candle.classify. set (close := last_ltp_paise (ident s)) in *.
  set (open := prev_ltp_paise (ident s)) in *. clearbody close open.
  destruct ((close =? 0) || (open =? 0)); [by left |].
  assert (i64_abs (i64_sub close open) = Z.abs (close - open)) as ->.
  { unfold i64_abs, i64_sub. unfold_ok. rewrite !as_i64_id; unfold_ok; try lia. rewrite as_i64_id; unfold_ok; lia. }
  assert (i64_sub (Z.max open close) (Z.min open close) = Z.abs (close - open)) as ->
    by (unfold i64_sub; rewrite as_i64_id; unfold_ok; lia).
  destruct (Z.eqb_spec (Z.abs (close - open)) 0) as [| Hne]; [by left | right].
  replace (Z.max (Z.abs (close - open)) 1) with (Z.abs (close - open)) by lia. unfold_ok.
  destruct (f64_of_Z_nonzero (Z.abs (close - open)) ltac:(lia)) as (sg & m & e & ->).
  rewrite f64_div_self. reflexivity.
Qed.
