(* ===== verification/WarmCache.v ===== *)
(** The warm cache of crates/hedge-warmcache: the bounded confidence map (lru.rs), the
    snapshot of last-known values (snapshot.rs), the cache over both (cache.rs) and the
    updater that feeds it (updater.rs).  The confidence map refines an association list
    with first-in first-out eviction; the cache is an instance of the interface the risk
    engine reads.  The JSON decoder is a parameter. *)

From S2P Require Import Prelude Ieee Bytes Core Schemas Config Decision RiskEngine.

(** ** The bounded confidence map (lru.rs) *)

Module ConfidenceLru.

Record Entry := mk_Entry { confidence : f32; entry_ts_ns : Z }.

(** [map] is the [DashMap], [order] the queue of keys, oldest first. *)
Record t := mk {
  map : gmap Z Entry;
  order : list Z;
  capacity : Z;
  staleness_ns : Z;
}.

(** [new] panics on a zero capacity: [None]. *)
Definition new (capacity staleness_ns : Z) : option t :=
  if capacity =? 0 then None else Some (mk ∅ [] capacity staleness_ns).

Definition len (c : t) : Z := Z.of_nat (size (map c)).
Definition is_empty (c : t) : bool := len c =? 0.

(** The [while] loop of [insert]: pops and removes the oldest keys over capacity. *)
Fixpoint evict (capacity : Z) (order : list Z) (m : gmap Z Entry) : list Z * gmap Z Entry :=
  match order with
  | [] => ([], m)
  | k :: rest =>
    if capacity <? Z.of_nat (length order) then evict capacity rest (delete k m)
    else (order, m)
  end.

Definition insert (c : t) (cid : CorrelationId.t) (confidence : f32) (now_ns : Z) : t :=
  let key := CorrelationId.as_u128 cid in
  let was_present := is_some (map c !! key) in
  let m := <[key := mk_Entry confidence now_ns]> (map c) in
  if negb was_present then
    let '(o, m) := evict (capacity c) (order c ++ [key]) m in
    mk m o (capacity c) (staleness_ns c)
  else mk m (order c) (capacity c) (staleness_ns c).

Definition get (c : t) (cid : CorrelationId.t) (now_ns : Z) : option f32 :=
  match map c !! CorrelationId.as_u128 cid with
  | None => None
  | Some entry =>
    if (0 <? staleness_ns c) && (staleness_ns c <? u64_sat_sub now_ns (entry_ts_ns entry))
    then None else Some (confidence entry)
  end.

(** The abstract map: entries in order of first insertion; an insertion updates the
    entry of its key where it is, or appends one and keeps the last [cap]. *)
Definition spec := list (Z * Entry).
Fixpoint assoc (k : Z) (l : spec) : option Entry :=
  match l with
  | [] => None
  | (k', e) :: l => if k' =? k then Some e else assoc k l
  end.
Fixpoint update (k : Z) (e : Entry) (l : spec) : spec :=
  match l with
  | [] => []
  | (k', e') :: l => if k' =? k then (k', e) :: l else (k', e') :: update k e l
  end.
Definition spec_insert (cap : nat) (l : spec) (k : Z) (e : Entry) : spec :=
  match assoc k l with
  | Some _ => update k e l
  | None => RingWindow.last_n cap (l ++ [(k, e)])
  end.
Definition fresh (staleness now_ns : Z) (e : Entry) : Prop :=
  staleness <= 0 \/ u64_sat_sub now_ns (entry_ts_ns e) <= staleness.

(** An insertion as an event of a history. *)
Record put := mk_put { put_cid : CorrelationId.t; put_value : f32; put_ts : Z }.
Definition puts (c : t) (h : list put) : t :=
  foldl (fun c p => insert c (put_cid p) (put_value p) (put_ts p)) c h.
Definition spec_puts (cap : nat) (l : spec) (h : list put) : spec :=
  foldl (fun l p => spec_insert cap l (put_cid p) (mk_Entry (put_value p) (put_ts p))) l h.

Definition repr (c : t) (l : spec) : Prop :=
  order c = l.*1 /\ NoDup l.*1 /\ (forall k, map c !! k = assoc k l)
  /\ Z.of_nat (length l) <= capacity c /\ 0 < capacity c.
Definition wf (c : t) : Prop := exists l, repr c l.

Lemma assoc_None k l : assoc k l = None <-> k ∉ l.*1.
Proof.
  induction l as [| [k' e] l IH]; csimpl; [split; [intros _; apply not_elem_of_nil | done] |].
  rewrite not_elem_of_cons. destruct (Z.eqb_spec k' k) as [-> |].
  - split; [done | by intros []].
  - rewrite IH. split; [done | by intros []].
Qed.

Lemma assoc_app k l1 l2 :
  assoc k (l1 ++ l2) = match assoc k l1 with Some e => Some e | None => assoc k l2 end.
Proof. induction l1 as [| [k' e] l1 IH]; simpl; [done |]. by destruct (k' =? k). Qed.

Lemma update_fst k e l : (update k e l).*1 = l.*1.
Proof.
  induction l as [| [k' e'] l IH]; csimpl; [done |]. by destruct (k' =? k); csimpl; [| rewrite IH].
Qed.

Lemma assoc_update k e l j :
  is_Some (assoc k l) -> assoc j (update k e l) = if k =? j then Some e else assoc j l.
Proof.
  induction l as [| [k' e'] l IH]; simpl; [by intros [] |].
  destruct (Z.eqb_spec k' k) as [-> | Hne]; simpl; [by destruct (k =? j) |].
  intros Hs. rewrite IH by done. destruct (Z.eqb_spec k' j); [| done].
  destruct (Z.eqb_spec k j); [congruence | done].
Qed.

(** The loop removes the keys in front of the last [cap]. *)
Lemma evict_spec (cap : nat) (l : spec) m :
  NoDup l.*1 -> (forall k, m !! k = assoc k l) ->
  (evict (Z.of_nat cap) l.*1 m).1 = (RingWindow.last_n cap l).*1
  /\ (forall k, (evict (Z.of_nat cap) l.*1 m).2 !! k = assoc k (RingWindow.last_n cap l)).
Proof.
  revert m. induction l as [| [k e] l IH]; intros m Hn Hm; [done |].
  unfold RingWindow.last_n. change ((k, e) :: l).*1 with (k :: l.*1) in *. cbn [evict length].
  rewrite length_fmap. apply NoDup_cons in Hn as [Hk Hn].
  destruct (Z.ltb_spec (Z.of_nat cap) (Z.of_nat (S (length l)))) as [Hlt | Hge].
  - replace (S (length l) - cap)%nat with (S (length l - cap)) by lia. cbn [drop].
    apply IH; [done |]. intros j. specialize (Hm j). simpl in Hm.
    destruct (decide (k = j)) as [-> | Hne].
    + rewrite lookup_delete_eq. symmetry. by apply assoc_None.
    + rewrite lookup_delete_ne by done. rewrite Hm. by destruct (Z.eqb_spec k j).
  - replace (S (length l) - cap)%nat with 0%nat by lia. done.
Qed.

Lemma insert_repr c l cid v ts : repr c l ->
  repr (insert c cid v ts) (spec_insert (Z.to_nat (capacity c)) l cid (mk_Entry v ts)).
Proof.
  intros (Ho & Hn & Hm & Hl & Hc). unfold insert, spec_insert, CorrelationId.as_u128.
  rewrite Hm. destruct (assoc cid l) as [e |] eqn:Ha; simpl.
  - split_and!; simpl; [by rewrite update_fst | by rewrite update_fst | | | done].
    + intros k. rewrite assoc_update by (by rewrite Ha).
      destruct (Z.eqb_spec cid k) as [-> |]; [by rewrite lookup_insert_eq | by rewrite lookup_insert_ne].
    + rewrite <- (length_fmap fst), update_fst, length_fmap. done.
  - set (e := mk_Entry v ts). set (l' := l ++ [(cid, e)]).
    assert (l'.*1 = order c ++ [cid]) as Hl' by (unfold l'; rewrite fmap_app, Ho; done).
    assert (NoDup l'.*1) as Hn'.
    { rewrite Hl', Ho. apply NoDup_app. split_and!; [done | | apply NoDup_singleton].
      intros x Hx ->%list_elem_of_singleton. by apply assoc_None in Ha. }
    destruct (evict_spec (Z.to_nat (capacity c)) l' (<[cid := e]> (map c)) Hn') as [E1 E2].
    { intros k. unfold l'. rewrite assoc_app, <- Hm. simpl.
      destruct (Z.eqb_spec cid k) as [-> | Hne].
      - rewrite lookup_insert_eq, Hm, Ha. done.
      - rewrite lookup_insert_ne by done. by destruct (map c !! k). }
    rewrite Z2Nat.id in E1, E2 by lia. rewrite Hl' in E1, E2.
    destruct (evict _ _ _) as [o m]. simpl in E1, E2. split_and!; simpl; try done.
    + unfold RingWindow.last_n. rewrite fmap_drop. by apply (sublist_NoDup _ l'.*1), sublist_drop.
    + rewrite RingWindow.last_n_length. lia.
Qed.

Lemma insert_capacity c cid v ts :
  capacity (insert c cid v ts) = capacity c /\ staleness_ns (insert c cid v ts) = staleness_ns c.
Proof.
  unfold insert. destruct (is_some _); simpl; [done |]. by destruct (evict _ _ _).
Qed.

Lemma puts_repr h : forall c l, repr c l ->
  repr (puts c h) (spec_puts (Z.to_nat (capacity c)) l h)
  /\ capacity (puts c h) = capacity c /\ staleness_ns (puts c h) = staleness_ns c.
Proof.
  induction h as [| p h IH]; intros c l Hr; [done |]. simpl.
  destruct (IH _ _ (insert_repr c l (put_cid p) (put_value p) (put_ts p) Hr)) as (H1 & H2 & H3).
  destruct (insert_capacity c (put_cid p) (put_value p) (put_ts p)) as [Hc Hs].
  rewrite Hc in H1. split_and!; [done | congruence | congruence].
Qed.

Lemma list_to_map_assoc (l : spec) k : (list_to_map l : gmap Z Entry) !! k = assoc k l.
Proof.
  induction l as [| [k' e] l IH]; [done |]. simpl.
  destruct (Z.eqb_spec k' k) as [-> |];
    [by rewrite lookup_insert_eq | by rewrite lookup_insert_ne].
Qed.

Lemma repr_len c l : repr c l -> len c = Z.of_nat (length l).
Proof.
  intros (Ho & Hn & Hm & _). unfold len. f_equal.
  assert (map c = list_to_map l) as ->.
  { apply map_eq. intros k. by rewrite Hm, list_to_map_assoc. }
  rewrite <- length_map_to_list. by rewrite map_to_list_to_map.
Qed.

Lemma get_spec c l cid now : repr c l ->
  get c cid now =
  match assoc cid l with
  | Some e => if decide (fresh (staleness_ns c) now e) then Some (confidence e) else None
  | None => None
  end.
Proof.
  intros (_ & _ & Hm & _). unfold get, CorrelationId.as_u128. rewrite Hm.
  destruct (assoc cid l) as [e |]; [| done].
  destruct (Z.ltb_spec 0 (staleness_ns c)), (Z.ltb_spec (staleness_ns c) (u64_sat_sub now (entry_ts_ns e)));
    simpl; case_decide as Hf; unfold fresh in Hf; done || lia.
Qed.

Lemma update_length k e l : length (update k e l) = length l.
Proof. by rewrite <- (length_fmap fst), update_fst, length_fmap. Qed.

Lemma update_keeps k e k' e' pre post : k' <> k ->
  exists pre' post', update k' e' (pre ++ (k, e) :: post) = pre' ++ (k, e) :: post'
    /\ length post' = length post.
Proof.
  intros Hk. induction pre as [| [k1 e1] pre (pre' & post' & E & Hp)]; simpl.
  - destruct (Z.eqb_spec k k'); [congruence |]. exists [], (update k' e' post).
    split; [done | apply update_length].
  - destruct (k1 =? k').
    + exists ((k1, e') :: pre), post. done.
    + exists ((k1, e1) :: pre'), post'. by rewrite E.
Qed.

(** A key is not evicted before [cap] others were appended after it. *)
Lemma spec_insert_keeps cap pre k e post k' e' :
  k' <> k -> (length post + 1 < cap)%nat ->
  exists pre' post', spec_insert cap (pre ++ (k, e) :: post) k' e' = pre' ++ (k, e) :: post'
    /\ (length post' <= length post + 1)%nat.
Proof.
  intros Hk Hl. unfold spec_insert. destruct (assoc k' _).
  - destruct (update_keeps k e k' e' pre post Hk) as (pre' & post' & -> & Hp).
    exists pre', post'. split; [done | lia].
  - unfold RingWindow.last_n. rewrite !length_app. simpl.
    rewrite <- (assoc_L (++)). simpl. rewrite drop_app_le by lia.
    eexists _, (post ++ [(k', e')]). split; [done |]. rewrite length_app. simpl. lia.
Qed.

Lemma spec_puts_keeps cap (k : Z) e h : forall pre post : spec,
  Forall (fun p => put_cid p <> k) h -> (length post + length h < cap)%nat ->
  exists pre' post', spec_puts cap (pre ++ (k, e) :: post) h = pre' ++ (k, e) :: post'.
Proof.
  induction h as [| p h IH]; intros pre post Hf Hl; [by exists pre, post |].
  apply Forall_cons in Hf as [Hp Hf]. simpl in Hl.
  unfold spec_puts. simpl. fold (spec_puts cap).
  destruct (spec_insert_keeps cap pre k e post (put_cid p) (mk_Entry (put_value p) (put_ts p)))
    as (pre' & post' & -> & Hlen); [done | lia |].
  apply IH; [done | lia].
Qed.

Lemma assoc_middle k e pre post : NoDup (pre ++ (k, e) :: post).*1 ->
  assoc k (pre ++ (k, e) :: post) = Some e.
Proof.
  intros Hn. rewrite assoc_app. simpl. rewrite Z.eqb_refl.
  destruct (assoc k pre) eqn:E; [| done]. exfalso.
  rewrite fmap_app in Hn. apply NoDup_app in Hn as (_ & Hd & _).
  assert (k ∈ pre.*1) as Hin.
  { destruct (decide (k ∈ pre.*1)) as [| Hk]; [done |]. apply assoc_None in Hk. congruence. }
  apply (Hd k Hin). csimpl. apply list_elem_of_here.
Qed.

Lemma new_repr cap st c : 0 <= cap -> new cap st = Some c ->
  repr c [] /\ capacity c = cap /\ staleness_ns c = st.
Proof.
  unfold new. destruct (Z.eqb_spec cap 0); [done |]. intros Hc [= <-]. unfold repr. split_and!; simpl; try done.
  - apply NoDup_nil_2.
  - lia.
Qed.
End ConfidenceLru.

(** Whatever confidences are stored, the cache holds at most [capacity] of them and
    reads the abstract first-in first-out map; in particular a confidence stored for a new
    identifier is read back, until it is stale, as long as fewer than [capacity] others
    were stored after it. *)
Theorem confidence_cache_refines_fifo (cap st now : Z) (h1 h2 : list ConfidenceLru.put)
    (cid : CorrelationId.t) (v : f32) (ts : Z) c0 :
  0 <= cap -> ConfidenceLru.new cap st = Some c0 ->
  let n := Z.to_nat cap in
  let e := ConfidenceLru.mk_Entry v ts in
  let l1 := ConfidenceLru.spec_puts n [] h1 in
  let c1 := ConfidenceLru.puts c0 h1 in
  let c2 := ConfidenceLru.puts (ConfidenceLru.insert c1 cid v ts) h2 in
  (ConfidenceLru.len c1 = Z.of_nat (length l1) /\ Z.of_nat (length l1) <= cap)
  /\ (forall k, ConfidenceLru.get c1 k now =
       match ConfidenceLru.assoc k l1 with
       | Some e => if decide (ConfidenceLru.fresh st now e) then Some (ConfidenceLru.confidence e) else None
       | None => None
       end)
  /\ (ConfidenceLru.assoc cid l1 = None -> Forall (fun p => ConfidenceLru.put_cid p <> cid) h2 ->
      Z.of_nat (length h2) < cap ->
      ConfidenceLru.get c2 cid now = if decide (ConfidenceLru.fresh st now e) then Some v else None).
Proof.
  intros Hc Hn. destruct (ConfidenceLru.new_repr cap st c0 Hc Hn) as (Hr & Hcap & Hst). cbv zeta.
  destruct (ConfidenceLru.puts_repr h1 c0 [] Hr) as (Hr1 & Hc1 & Hs1). rewrite Hcap in Hr1, Hc1.
  rewrite Hst in Hs1. split_and!.
  - by apply ConfidenceLru.repr_len.
  - destruct Hr1 as (_ & _ & _ & Hl & _). by rewrite Hc1 in Hl.
  - intros k. rewrite <- Hs1. by apply ConfidenceLru.get_spec.
  - intros Ha Hf Hl.
    pose proof (ConfidenceLru.insert_repr _ _ cid v ts Hr1) as Hr2. rewrite Hc1 in Hr2.
    destruct (ConfidenceLru.insert_capacity (ConfidenceLru.puts c0 h1) cid v ts) as [Hc2 Hs2].
    destruct (ConfidenceLru.puts_repr h2 _ _ Hr2) as (Hr3 & Hc3 & Hs3).
    rewrite (ConfidenceLru.get_spec _ _ _ _ Hr3), Hs3, Hs2, Hs1. rewrite Hc2, Hc1 in Hr3 |- *.
    unfold ConfidenceLru.spec_insert in *. rewrite Ha in *. unfold RingWindow.last_n in *.
    rewrite length_app in *. simpl in *. rewrite drop_app_le in * by lia.
    destruct (ConfidenceLru.spec_puts_keeps (Z.to_nat cap) cid (ConfidenceLru.mk_Entry v ts) h2
      (drop (length (ConfidenceLru.spec_puts (Z.to_nat cap) [] h1) + 1 - Z.to_nat cap)
        (ConfidenceLru.spec_puts (Z.to_nat cap) [] h1)) [] Hf) as (pre & post & E); [simpl; lia |].
    rewrite E in *. rewrite ConfidenceLru.assoc_middle; [done |]. apply Hr3.
Qed.

(** Two slots: the third identifier evicts the first, the second is still read. *)
Lemma confidence_cache_refines_fifo_witness : exists c0, ConfidenceLru.new 2 100 = Some c0 /\
  ConfidenceLru.get
    (ConfidenceLru.puts
      (ConfidenceLru.insert (ConfidenceLru.puts c0 [ConfidenceLru.mk_put 1 f32_one 5]) 2 f32_one 7)
      [ConfidenceLru.mk_put 3 f32_one 9]) 2 50 = Some f32_one.
Proof.
  eexists. split; [reflexivity |].
  destruct (confidence_cache_refines_fifo 2 100 50 [ConfidenceLru.mk_put 1 f32_one 5]
    [ConfidenceLru.mk_put 3 f32_one 9] 2 f32_one 7 _ ltac:(lia) eq_refl) as (_ & _ & H).
  rewrite H; [reflexivity | reflexivity | by repeat constructor | vm_compute; reflexivity].
Defined.

(** Overwriting an identifier does not move it back in the queue: the identifier stored
    last can be the next to go. *)
Lemma overwritten_entry_evicted_first : exists c0, ConfidenceLru.new 2 0 = Some c0 /\
  ConfidenceLru.get (ConfidenceLru.puts c0
    [ConfidenceLru.mk_put 1 f32_one 1; ConfidenceLru.mk_put 2 f32_one 2;
     ConfidenceLru.mk_put 1 f32_one 3; ConfidenceLru.mk_put 3 f32_one 4]) 1 5 = None.
Proof. eexists. by split. Qed.

(** ** The snapshot of last-known values (snapshot.rs) *)

Definition MAX_TRACKED_SYMBOLS : nat := 512.

(** [clamp]: a NaN becomes the lower bound. *)
Definition clamp (v lo hi : f32) : f32 :=
  if f_is_nan v || f_lt v lo then lo else if f_gt v hi then hi else v.

Record NewsImpactSnapshot := mk_News {
  sentiment : f32;
  impact_magnitude : f32;
  news_ts_ns : Z;
}.

Module NewsImpact.
Definition default : NewsImpactSnapshot := mk_News f_zero f_zero 0.
Definition clamp (n : NewsImpactSnapshot) : NewsImpactSnapshot :=
  mk_News (clamp (sentiment n) (f32_of_Z (-1)) f32_one) (clamp (impact_magnitude n) f_zero f32_one)
    (news_ts_ns n).
End NewsImpact.

Module Snapshot.

(** [priority] and [news_impact] are [SmallVec]s of pairs, searched in order. *)
Record t := mk {
  market_stability : f32;
  market_stability_ts_ns : Z;
  trader_stability : f32;
  trader_stability_ts_ns : Z;
  priority_tab : list (SymbolId.t * Priority.t);
  news_impact_tab : list (SymbolId.t * NewsImpactSnapshot);
}.

Definition neutral : t := mk f32_one 0 f32_one 0 [] [].

Fixpoint find_slot {A} (sym : SymbolId.t) (l : list (SymbolId.t * A)) : option A :=
  match l with
  | [] => None
  | (s, a) :: l => if s =? sym then Some a else find_slot sym l
  end.
Fixpoint set_slot {A} (sym : SymbolId.t) (a : A) (l : list (SymbolId.t * A)) : list (SymbolId.t * A) :=
  match l with
  | [] => []
  | (s, b) :: l => if s =? sym then (s, a) :: l else (s, b) :: set_slot sym a l
  end.

Definition priority (s : t) (sym : SymbolId.t) : Priority.t :=
  unwrap_or Priority.P3 (find_slot sym (priority_tab s)).
Definition news_impact (s : t) (sym : SymbolId.t) : NewsImpactSnapshot :=
  unwrap_or NewsImpact.default (find_slot sym (news_impact_tab s)).

Definition with_market_stability (s : t) (value : f32) (ts_ns : Z) : t :=
  mk (clamp value f_zero f32_one) ts_ns (trader_stability s) (trader_stability_ts_ns s)
    (priority_tab s) (news_impact_tab s).
Definition with_trader_stability (s : t) (value : f32) (ts_ns : Z) : t :=
  mk (market_stability s) (market_stability_ts_ns s) (clamp value f_zero f32_one) ts_ns
    (priority_tab s) (news_impact_tab s).

(** The three branches both tables share: overwrite, push, or replace the first. *)
Definition upsert {A} (l : list (SymbolId.t * A)) (sym : SymbolId.t) (a : A) : list (SymbolId.t * A) :=
  match find_slot sym l with
  | Some _ => set_slot sym a l
  | None => if decide (length l < MAX_TRACKED_SYMBOLS)%nat then l ++ [(sym, a)] else <[0%nat := (sym, a)]> l
  end.
Definition with_priority (s : t) (sym : SymbolId.t) (tier : Priority.t) : t :=
  mk (market_stability s) (market_stability_ts_ns s) (trader_stability s) (trader_stability_ts_ns s)
    (upsert (priority_tab s) sym tier) (news_impact_tab s).
Definition with_news_impact (s : t) (sym : SymbolId.t) (value : NewsImpactSnapshot) : t :=
  mk (market_stability s) (market_stability_ts_ns s) (trader_stability s) (trader_stability_ts_ns s)
    (priority_tab s) (upsert (news_impact_tab s) sym (NewsImpact.clamp value)).

(** The types the fields document: ranges, one slot per symbol, bounded tables. *)
Definition in_range (lo hi x : f32) : Prop := f_le lo x = true /\ f_le x hi = true.
Abbreviation unit_range := (in_range f_zero f32_one).
Definition news_ok (n : NewsImpactSnapshot) : Prop :=
  in_range (f32_of_Z (-1)) f32_one (sentiment n) /\ unit_range (impact_magnitude n).
Definition table_ok {A} (P : A -> Prop) (l : list (SymbolId.t * A)) : Prop :=
  NoDup l.*1 /\ (length l <= MAX_TRACKED_SYMBOLS)%nat /\ Forall (fun p => P p.2) l.
Definition wf (s : t) : Prop :=
  unit_range (market_stability s) /\ unit_range (trader_stability s)
  /\ table_ok (fun _ => True) (priority_tab s) /\ table_ok news_ok (news_impact_tab s).

Lemma clamp_range lo hi v : f_is_nan lo = false -> f_is_nan hi = false -> f_le lo hi = true ->
  f_le lo lo = true -> f_le hi hi = true -> in_range lo hi (clamp v lo hi).
Proof.
  intros Hlo Hhi Hle Hl Hh. unfold in_range, clamp, f_gt. destruct (f_is_nan v) eqn:Hn; simpl; [done |].
  destruct (f_lt v lo) eqn:Hv; [done |]. destruct (SFltb hi v) eqn:Hv2; [done |].
  split; by apply f_lt_false_le.
Qed.

Lemma snapshot_clamp_id lo hi v : in_range lo hi v -> clamp v lo hi = v.
Proof.
  unfold in_range, clamp, f_gt, f_le, f_lt, SFleb, SFltb. intros [H1 H2].
  rewrite (SFcompare_antisym lo v), (SFcompare_antisym v hi).
  destruct (SFcompare lo v) as [[] |] eqn:E1; try done;
    destruct (SFcompare v hi) as [[] |] eqn:E2; try done; simpl; destruct v; done.
Qed.

Lemma set_slot_fst {A} sym (a : A) l : (set_slot sym a l).*1 = l.*1.
Proof.
  induction l as [| [s b] l IH]; csimpl; [done |]. by destruct (s =? sym); csimpl; [| rewrite IH].
Qed.

Lemma find_slot_None {A} sym (l : list (SymbolId.t * A)) : find_slot sym l = None <-> sym ∉ l.*1.
Proof.
  induction l as [| [s b] l IH]; csimpl; [split; [intros _; apply not_elem_of_nil | done] |].
  rewrite not_elem_of_cons. destruct (Z.eqb_spec s sym) as [-> |].
  - split; [done | by intros []].
  - rewrite IH. split; [done | by intros []].
Qed.

Lemma set_slot_Forall {A} (P : A -> Prop) sym a l :
  P a -> Forall (fun p => P p.2) l -> Forall (fun p => P p.2) (set_slot sym a l).
Proof.
  intros Ha. induction 1 as [| [s b] l Hb Hl IH]; simpl; [by constructor |].
  destruct (s =? sym); by constructor.
Qed.

Lemma upsert_ok {A} (P : A -> Prop) l sym a : table_ok P l -> P a -> table_ok P (upsert l sym a).
Proof.
  intros (Hn & Hl & Hf) Ha. unfold upsert. destruct (find_slot sym l) eqn:E.
  - split_and!; [by rewrite set_slot_fst | | by apply set_slot_Forall].
    by rewrite <- (length_fmap fst), set_slot_fst, length_fmap.
  - apply find_slot_None in E. case_decide as Hd.
    + split_and!.
      * rewrite fmap_app. apply NoDup_app. split_and!; [done | | apply NoDup_singleton].
        by intros x Hx ->%list_elem_of_singleton.
      * rewrite length_app. simpl. lia.
      * apply Forall_app. by split; [| constructor].
    + destruct l as [| [s b] l]; [simpl in Hd; unfold MAX_TRACKED_SYMBOLS in Hd; lia |].
      csimpl in *. apply NoDup_cons in Hn as [_ Hn]. apply not_elem_of_cons in E as [_ E].
      apply Forall_cons in Hf as [_ Hf]. split_and!; [by constructor | done | by constructor].
Qed.

(** A write is read back; the other symbols keep their value, except the evicted one. *)
Lemma find_upsert {A} l sym (a : A) : (length l <= MAX_TRACKED_SYMBOLS)%nat ->
  find_slot sym (upsert l sym a) = Some a.
Proof.
  intros Hl. unfold upsert. destruct (find_slot sym l) eqn:E.
  - clear Hl. induction l as [| [s c] l IH]; simpl in *; [done |].
    destruct (s =? sym) eqn:Es; simpl; rewrite Es; [done | by apply IH].
  - case_decide as Hd.
    + clear Hl Hd. induction l as [| [s c] l IH]; simpl in *; [by rewrite Z.eqb_refl |].
      destruct (s =? sym); [done | by apply IH].
    + destruct l as [| p l]; [simpl in Hd; unfold MAX_TRACKED_SYMBOLS in Hd; lia |].
      simpl. by rewrite Z.eqb_refl.
Qed.

Lemma find_set_slot_ne {A} l sym s (a : A) : s <> sym ->
  find_slot s (set_slot sym a l) = find_slot s l.
Proof.
  intros Hne. induction l as [| [s' c] l IH]; simpl in *; [done |].
  destruct (Z.eqb_spec s' sym) as [-> |]; simpl; [by destruct (Z.eqb_spec sym s) |].
  destruct (s' =? s); [done | by apply IH].
Qed.

Lemma find_upsert_ne {A} l sym s (a : A) : (length l < MAX_TRACKED_SYMBOLS)%nat -> s <> sym ->
  find_slot s (upsert l sym a) = find_slot s l.
Proof.
  intros Hl Hne. unfold upsert. destruct (find_slot sym l) eqn:E; [by apply find_set_slot_ne |].
  case_decide; [| done]. clear - Hne. induction l as [| [s' c] l IH]; simpl.
  - destruct (Z.eqb_spec sym s); congruence.
  - by destruct (s' =? s).
Qed.

Lemma upsert_length {A} l sym (a : A) : (length (upsert l sym a) <= length l + 1)%nat.
Proof.
  unfold upsert. destruct (find_slot sym l).
  - rewrite <- (length_fmap fst), set_slot_fst, length_fmap. lia.
  - case_decide; [rewrite length_app; simpl; lia | rewrite length_insert; lia].
Qed.

Lemma with_market_stability_wf s v ts : wf s -> wf (with_market_stability s v ts).
Proof. intros (? & ? & ? & ?). split_and!; try done; by apply clamp_range. Qed.

Lemma with_trader_stability_wf s v ts : wf s -> wf (with_trader_stability s v ts).
Proof. intros (? & ? & ? & ?). split_and!; try done; by apply clamp_range. Qed.

Lemma with_priority_wf s sym tier : wf s -> wf (with_priority s sym tier).
Proof. intros (? & ? & ? & ?). split_and!; try done; by apply upsert_ok. Qed.

Lemma with_news_impact_wf s sym n : wf s -> wf (with_news_impact s sym n).
Proof.
  intros (? & ? & ? & ?). split_and!; try done. apply upsert_ok; [done |].
  split; by apply clamp_range.
Qed.

Lemma neutral_wf : wf neutral.
Proof. unfold wf, table_ok. split_and!; try done; simpl; try apply NoDup_nil_2; try lia. Qed.

End Snapshot.

(** ** The cache (cache.rs, config.rs) *)

Module WarmCache.

(** [config] is [WarmCacheConfig], transparent over the configuration record. *)
Record t := mk {
  inner : Snapshot.t;
  confidence : ConfidenceLru.t;
  config : WarmCacheConfig;
}.

(** [new] panics when the configured size is zero. *)
Definition new (cfg : WarmCacheConfig) : option t :=
  let staleness_ns := u64_sat_mul (staleness_window_ms cfg) 1000000 in
  confidence ← ConfidenceLru.new (trade_confidence_lru_size cfg) staleness_ns;
  Some (mk Snapshot.neutral confidence cfg).

Definition load (c : t) : Snapshot.t := inner c.
Definition market_stability (c : t) : f32 := Snapshot.market_stability (inner c).
Definition trader_stability (c : t) : f32 := Snapshot.trader_stability (inner c).
Definition trade_confidence_at (c : t) (cid : CorrelationId.t) (now_ns : Z) : option f32 :=
  ConfidenceLru.get (confidence c) cid now_ns.
Definition priority (c : t) (sym : SymbolId.t) : Priority.t := Snapshot.priority (inner c) sym.
Definition news_impact (c : t) (sym : SymbolId.t) : NewsImpactSnapshot :=
  Snapshot.news_impact (inner c) sym.
Definition fallback_confidence (c : t) (sig : Signal) (now_ns : Z) : f32 :=
  let cid := from_be (sig_correlation_id sig) in
  unwrap_or (sig_confidence sig) (ConfidenceLru.get (confidence c) cid now_ns).

Definition set_inner (c : t) (s : Snapshot.t) : t := mk s (confidence c) (config c).
Definition store_market_stability (c : t) (value : f32) (ts_ns : Z) : t :=
  set_inner c (Snapshot.with_market_stability (inner c) value ts_ns).
Definition store_trader_stability (c : t) (value : f32) (ts_ns : Z) : t :=
  set_inner c (Snapshot.with_trader_stability (inner c) value ts_ns).
Definition store_trade_confidence (c : t) (cid : CorrelationId.t) (v : f32) (ts_ns : Z) : t :=
  mk (inner c) (ConfidenceLru.insert (confidence c) cid v ts_ns) (config c).
Definition store_priority (c : t) (sym : SymbolId.t) (tier : Priority.t) : t :=
  set_inner c (Snapshot.with_priority (inner c) sym tier).
Definition store_news_impact (c : t) (sym : SymbolId.t) (impact : NewsImpactSnapshot) : t :=
  set_inner c (Snapshot.with_news_impact (inner c) sym impact).

Definition wf (c : t) : Prop := Snapshot.wf (inner c) /\ ConfidenceLru.wf (confidence c).

(** What the risk engine's interface asks for: the cache, read at an instant. *)
#[global] Instance view : WarmCacheView (t * Z) :=
  { wc_market_stability := fun v => market_stability v.1;
    wc_trade_confidence := fun v cid => trade_confidence_at v.1 cid v.2;
    wc_trader_stability := fun v => trader_stability v.1 }.

End WarmCache.

(** ** The updater (updater.rs) *)

Record AiRankEvent := mk_AiRankEvent {
  rank_correlation_id : string;
  trade_confidence_score : f32;
  rank_ts_ns : Z;
}.
Record AiRegimeChangedEvent := mk_AiRegimeChangedEvent { regime_to : string; regime_ts_ns : Z }.
Record AiPsychStabilityEvent := mk_AiPsychStabilityEvent { score : f32; psych_ts_ns : Z }.
Record AiPriorityChangedEvent := mk_AiPriorityChangedEvent {
  priority_symbol : string;
  priority_to : string;
  priority_ts_ns : Z;
}.
Record AiNewsImpactEvent := mk_AiNewsImpactEvent {
  news_symbol : string;
  news_sentiment : f32;
  news_impact_magnitude : f32;
  news_event_ts_ns : Z;
}.

Definition regime_to_market_stability (label : string) : f32 :=
  if decide (label = "Trending") then f32_one
  else if decide (label = "Sideways") then f32_lit 80 100
  else if decide (label = "HighVolatility") then f32_lit 50 100
  else if decide (label = "NewsDriven") then f32_lit 40 100
  else if decide (label = "LowParticipation") then f32_lit 30 100
  else if decide (label = "LiquidityCrisis") then f32_lit 10 100
  else if decide (label = "Panic") then f32_lit 5 100
  else f32_one.

Definition parse_priority (label : string) : Priority.t :=
  if decide (label = "P1") then Priority.P1
  else if decide (label = "P2") then Priority.P2
  else if decide (label = "P3") then Priority.P3
  else if decide (label = "P4") then Priority.P4
  else Priority.P3.

Definition parse_symbol (s : string) : option SymbolId.t :=
  SymbolId.new <$> from_str_radix 10 u32_max s.

Definition parse_correlation_id (s : string) : option CorrelationId.t :=
  match (if (String.length s =? 32)%nat then from_str_radix 16 u128_max s else None) with
  | Some v => Some v
  | None => from_str_radix 10 u128_max s
  end.

Module WarmCacheUpdater.

(** [serde_json::from_slice] at the five payload types; [None] is a decode error. *)
Record Json := mk_Json {
  rank_from_slice : list Z -> option AiRankEvent;
  regime_from_slice : list Z -> option AiRegimeChangedEvent;
  psych_from_slice : list Z -> option AiPsychStabilityEvent;
  priority_from_slice : list Z -> option AiPriorityChangedEvent;
  news_from_slice : list Z -> option AiNewsImpactEvent;
}.

Section updater.
Context (json : Json).

(** [if ev.ts_ns == 0 { now_ns() } else { ev.ts_ns }]. *)
Definition event_ts (ts now_ns : Z) : Z := if ts =? 0 then now_ns else ts.

Definition handle_rank (c : WarmCache.t) (bytes : list Z) (now_ns : Z) : WarmCache.t :=
  match rank_from_slice json bytes with
  | Some ev =>
    match parse_correlation_id (rank_correlation_id ev) with
    | None => c
    | Some cid =>
      WarmCache.store_trade_confidence c cid (trade_confidence_score ev)
        (event_ts (rank_ts_ns ev) now_ns)
    end
  | None => c
  end.

Definition handle_regime (c : WarmCache.t) (bytes : list Z) (now_ns : Z) : WarmCache.t :=
  match regime_from_slice json bytes with
  | Some ev =>
    WarmCache.store_market_stability c (regime_to_market_stability (regime_to ev))
      (event_ts (regime_ts_ns ev) now_ns)
  | None => c
  end.

Definition handle_psych (c : WarmCache.t) (bytes : list Z) (now_ns : Z) : WarmCache.t :=
  match psych_from_slice json bytes with
  | Some ev => WarmCache.store_trader_stability c (score ev) (event_ts (psych_ts_ns ev) now_ns)
  | None => c
  end.

Definition handle_priority (c : WarmCache.t) (bytes : list Z) : WarmCache.t :=
  match priority_from_slice json bytes with
  | Some ev =>
    match parse_symbol (priority_symbol ev) with
    | None => c
    | Some sym => WarmCache.store_priority c sym (parse_priority (priority_to ev))
    end
  | None => c
  end.

Definition handle_news (c : WarmCache.t) (bytes : list Z) (now_ns : Z) : WarmCache.t :=
  match news_from_slice json bytes with
  | Some ev =>
    match parse_symbol (news_symbol ev) with
    | None => c
    | Some sym =>
      WarmCache.store_news_impact c sym
        (mk_News (news_sentiment ev) (news_impact_magnitude ev)
          (event_ts (news_event_ts_ns ev) now_ns))
    end
  | None => c
  end.

(** The five subscriptions, and what [recv_bytes] resolves to. *)
Inductive feed := RankFeed | RegimeFeed | PsychFeed | PriorityFeed | NewsFeed.
Inductive received := Payload (bytes : list Z) | SubscriptionClosed | OtherError.

Definition handle (f : feed) (c : WarmCache.t) (bytes : list Z) (now_ns : Z) : WarmCache.t :=
  match f with
  | RankFeed => handle_rank c bytes now_ns
  | RegimeFeed => handle_regime c bytes now_ns
  | PsychFeed => handle_psych c bytes now_ns
  | PriorityFeed => handle_priority c bytes
  | NewsFeed => handle_news c bytes now_ns
  end.

(** The [select!] loop of [run], over the receptions in the order they are taken, each
    with the clock its handler reads; [true] when it returned. *)
Fixpoint run (c : WarmCache.t) (rs : list (feed * received * Z)) : WarmCache.t * bool :=
  match rs with
  | [] => (c, false)
  | (f, Payload bytes, now_ns) :: rs => run (handle f c bytes now_ns) rs
  | (_, SubscriptionClosed, _) :: _ => (c, true)
  | (_, OtherError, _) :: rs => run c rs
  end.

(** The specification: the last value a feed carried. *)
Definition last_of {A} (f : feed * received * Z -> option A) (rs : list (feed * received * Z)) : option A :=
  foldl (fun acc r => match f r with Some a => Some a | None => acc end) None rs.
Definition regime_of (r : feed * received * Z) : option f32 :=
  match r with
  | (RegimeFeed, Payload b, _) => regime_to_market_stability ∘ regime_to <$> regime_from_slice json b
  | _ => None
  end.
Definition psych_of (r : feed * received * Z) : option f32 :=
  match r with
  | (PsychFeed, Payload b, _) => score <$> psych_from_slice json b
  | _ => None
  end.
Definition priority_of (sym : SymbolId.t) (r : feed * received * Z) : option Priority.t :=
  match r with
  | (PriorityFeed, Payload b, _) =>
    ev ← priority_from_slice json b; s ← parse_symbol (priority_symbol ev);
    if s =? sym then Some (parse_priority (priority_to ev)) else None
  | _ => None
  end.
Definition news_of (sym : SymbolId.t) (r : feed * received * Z) : option NewsImpactSnapshot :=
  match r with
  | (NewsFeed, Payload b, now_ns) =>
    ev ← news_from_slice json b; s ← parse_symbol (news_symbol ev);
    if s =? sym then
      Some (NewsImpact.clamp (mk_News (news_sentiment ev) (news_impact_magnitude ev)
        (event_ts (news_event_ts_ns ev) now_ns)))
    else None
  | _ => None
  end.
Definition open (r : feed * received * Z) : Prop := r.1.2 <> SubscriptionClosed.

End updater.
End WarmCacheUpdater.

Module WarmCacheFacts.
Import WarmCacheUpdater.

Lemma insert_wf c cid v ts : ConfidenceLru.wf c -> ConfidenceLru.wf (ConfidenceLru.insert c cid v ts).
Proof. intros [l Hr]. eexists. by apply ConfidenceLru.insert_repr. Qed.

Lemma cache_new_wf cfg c0 : 0 <= trade_confidence_lru_size cfg -> WarmCache.new cfg = Some c0 ->
  WarmCache.wf c0 /\ WarmCache.inner c0 = Snapshot.neutral.
Proof.
  unfold WarmCache.new. intros Hc H. apply bind_Some in H as (l & Hl & [= <-]).
  split; [| done]. split; [apply Snapshot.neutral_wf |]. simpl. exists [].
  by eapply ConfidenceLru.new_repr.
Qed.

Section facts.
Context (json : Json).

Lemma handle_wf f c b now : WarmCache.wf c -> WarmCache.wf (handle json f c b now).
Proof.
  intros [Hs Hl]. destruct f; simpl.
  - unfold handle_rank. destruct (rank_from_slice _ _); [| done].
    destruct (parse_correlation_id _); [| done]. split; [done | by apply insert_wf].
  - unfold handle_regime. destruct (regime_from_slice _ _); [| done].
    split; [by apply Snapshot.with_market_stability_wf | done].
  - unfold handle_psych. destruct (psych_from_slice _ _); [| done].
    split; [by apply Snapshot.with_trader_stability_wf | done].
  - unfold handle_priority. destruct (priority_from_slice _ _); [| done].
    destruct (parse_symbol _); [| done]. split; [by apply Snapshot.with_priority_wf | done].
  - unfold handle_news. destruct (news_from_slice _ _); [| done].
    destruct (parse_symbol _); [| done]. split; [by apply Snapshot.with_news_impact_wf | done].
Qed.

Lemma run_wf rs : forall c, WarmCache.wf c -> WarmCache.wf (run json c rs).1.
Proof.
  induction rs as [| [[f []] now] rs IH]; intros c Hc; simpl; [done | | done | by apply IH].
  by apply IH, handle_wf.
Qed.

Definition step (c : WarmCache.t) (r : feed * received * Z) : WarmCache.t :=
  match r with (f, Payload b, now) => handle json f c b now | _ => c end.

Lemma run_open rs : forall c, Forall open rs -> run json c rs = (foldl step c rs, false).
Proof.
  induction rs as [| [[f []] now] rs IH]; intros c Hf; simpl; [done | | |];
    apply Forall_cons in Hf as [Ho Hf]; [by apply IH | by destruct Ho | by apply IH].
Qed.

Lemma last_of_snoc {A} (f : feed * received * Z -> option A) rs r :
  last_of f (rs ++ [r]) = match f r with Some a => Some a | None => last_of f rs end.
Proof. unfold last_of. by rewrite foldl_app. Qed.

Lemma regime_unit label : Snapshot.unit_range (regime_to_market_stability label).
Proof. unfold regime_to_market_stability. repeat case_decide; done. Qed.

(** What the snapshot holds after the receptions [rs]. *)
Definition reports (s : Snapshot.t) (rs : list (feed * received * Z)) : Prop :=
  Snapshot.market_stability s = unwrap_or f32_one (last_of (regime_of json) rs)
  /\ Snapshot.trader_stability s =
     unwrap_or f32_one ((fun v => clamp v f_zero f32_one) <$> last_of (psych_of json) rs)
  /\ (forall sym, Snapshot.find_slot sym (Snapshot.priority_tab s) = last_of (priority_of json sym) rs)
  /\ (forall sym, Snapshot.find_slot sym (Snapshot.news_impact_tab s) = last_of (news_of json sym) rs)
  /\ (length (Snapshot.priority_tab s) <= length rs)%nat
  /\ (length (Snapshot.news_impact_tab s) <= length rs)%nat.

Lemma upsert_reports {A} l (f : SymbolId.t -> feed * received * Z -> option A) rs r sym0 a :
  (forall sym, Snapshot.find_slot sym l = last_of (f sym) rs) ->
  (length l < MAX_TRACKED_SYMBOLS)%nat ->
  (forall sym, f sym r = if sym0 =? sym then Some a else None) ->
  forall sym, Snapshot.find_slot sym (Snapshot.upsert l sym0 a) = last_of (f sym) (rs ++ [r]).
Proof.
  intros Hl Hlen Hf sym. rewrite last_of_snoc, Hf.
  destruct (Z.eqb_spec sym0 sym) as [-> |]; [apply Snapshot.find_upsert; lia |].
  by rewrite Snapshot.find_upsert_ne.
Qed.

Lemma skip_reports {A} (f : feed * received * Z -> option A) rs r x :
  f r = None -> x = last_of f rs -> x = last_of f (rs ++ [r]).
Proof. intros Hr ->. by rewrite last_of_snoc, Hr. Qed.

Lemma idle_reports s rs r :
  regime_of json r = None -> psych_of json r = None ->
  (forall sym, priority_of json sym r = None) -> (forall sym, news_of json sym r = None) ->
  reports s rs -> reports s (rs ++ [r]).
Proof.
  intros H1 H2 H3 H4 (Hm & Ht & Hp & Hn & Lp & Ln).
  unfold reports. rewrite !last_of_snoc, H1, H2, length_app. simpl. split_and!; try done; try lia.
  - intros sym. by apply skip_reports.
  - intros sym. by apply skip_reports.
Qed.

Lemma reports_neutral : reports Snapshot.neutral [].
Proof. unfold reports. split_and!; try done. Qed.

Lemma regime_reports s rs b now ev : reports s rs ->
  regime_from_slice json b = Some ev ->
  reports (Snapshot.with_market_stability s (regime_to_market_stability (regime_to ev))
    (event_ts (regime_ts_ns ev) now)) (rs ++ [(RegimeFeed, Payload b, now)]).
Proof.
  intros (Hm & Ht & Hp & Hn & Lp & Ln) E.
  unfold reports. rewrite !last_of_snoc, length_app. simpl. rewrite E. simpl. split_and!; try lia.
  - apply Snapshot.snapshot_clamp_id, regime_unit.
  - done.
  - intros sym. by apply skip_reports.
  - intros sym. by apply skip_reports.
Qed.

Lemma psych_reports s rs b now ev : reports s rs ->
  psych_from_slice json b = Some ev ->
  reports (Snapshot.with_trader_stability s (score ev) (event_ts (psych_ts_ns ev) now))
    (rs ++ [(PsychFeed, Payload b, now)]).
Proof.
  intros (Hm & Ht & Hp & Hn & Lp & Ln) E.
  unfold reports. rewrite !last_of_snoc, length_app. simpl. rewrite E. simpl. split_and!; try lia.
  - done.
  - done.
  - intros sym. by apply skip_reports.
  - intros sym. by apply skip_reports.
Qed.

Lemma priority_reports s rs b now ev sym : reports s rs ->
  (length rs < MAX_TRACKED_SYMBOLS)%nat ->
  priority_from_slice json b = Some ev -> parse_symbol (priority_symbol ev) = Some sym ->
  reports (Snapshot.with_priority s sym (parse_priority (priority_to ev)))
    (rs ++ [(PriorityFeed, Payload b, now)]).
Proof.
  intros (Hm & Ht & Hp & Hn & Lp & Ln) Hl E Es.
  pose proof (Snapshot.upsert_length (Snapshot.priority_tab s) sym (parse_priority (priority_to ev))).
  unfold reports. rewrite !last_of_snoc, length_app. simpl. split_and!; try done; try lia.
  - apply upsert_reports; [done | lia |]. intros sym'. simpl. rewrite E. simpl. by rewrite Es.
  - intros sym'. by apply skip_reports.
Qed.

Lemma news_reports s rs b now ev sym : reports s rs ->
  (length rs < MAX_TRACKED_SYMBOLS)%nat ->
  news_from_slice json b = Some ev -> parse_symbol (news_symbol ev) = Some sym ->
  reports (Snapshot.with_news_impact s sym (mk_News (news_sentiment ev) (news_impact_magnitude ev)
    (event_ts (news_event_ts_ns ev) now))) (rs ++ [(NewsFeed, Payload b, now)]).
Proof.
  intros (Hm & Ht & Hp & Hn & Lp & Ln) Hl E Es.
  pose proof (Snapshot.upsert_length (Snapshot.news_impact_tab s) sym
    (NewsImpact.clamp (mk_News (news_sentiment ev) (news_impact_magnitude ev)
      (event_ts (news_event_ts_ns ev) now)))).
  unfold reports. rewrite !last_of_snoc, length_app. simpl. split_and!; try done; try lia.
  - intros sym'. by apply skip_reports.
  - apply upsert_reports; [done | lia |]. intros sym'. simpl. rewrite E. simpl. by rewrite Es.
Qed.

Lemma step_reports c rs r : (length rs < MAX_TRACKED_SYMBOLS)%nat ->
  reports (WarmCache.inner c) rs -> reports (WarmCache.inner (step c r)) (rs ++ [r]).
Proof.
  intros Hl Hr. destruct r as [[f [b | |]] now].
  2,3: by apply idle_reports; [by destruct f | by destruct f | by destruct f | by destruct f |].
  destruct f; simpl.
  - unfold handle_rank. apply idle_reports; try done.
    destruct (rank_from_slice json b) as [ev |]; [| done].
    by destruct (parse_correlation_id (rank_correlation_id ev)).
  - unfold handle_regime. destruct (regime_from_slice json b) as [ev |] eqn:E.
    + by apply regime_reports.
    + by apply idle_reports; simpl; rewrite ?E.
  - unfold handle_psych. destruct (psych_from_slice json b) as [ev |] eqn:E.
    + by apply psych_reports.
    + by apply idle_reports; simpl; rewrite ?E.
  - unfold handle_priority. destruct (priority_from_slice json b) as [ev |] eqn:E.
    + destruct (parse_symbol (priority_symbol ev)) as [sym |] eqn:Es.
      * by apply priority_reports.
      * apply idle_reports; try done. intros sym. simpl. rewrite E. simpl. by rewrite Es.
    + apply idle_reports; try done. intros sym. simpl. by rewrite E.
  - unfold handle_news. destruct (news_from_slice json b) as [ev |] eqn:E.
    + destruct (parse_symbol (news_symbol ev)) as [sym |] eqn:Es.
      * by apply news_reports.
      * apply idle_reports; try done. intros sym. simpl. rewrite E. simpl. by rewrite Es.
    + apply idle_reports; try done. intros sym. simpl. by rewrite E.
Qed.

Lemma run_reports rs c : Forall open rs -> (length rs <= MAX_TRACKED_SYMBOLS)%nat ->
  WarmCache.inner c = Snapshot.neutral -> reports (WarmCache.inner (run json c rs).1) rs.
Proof.
  intros Ho Hl Hc. rewrite run_open by done. simpl. induction rs as [| r rs IH] using rev_ind.
  - simpl. rewrite Hc. apply reports_neutral.
  - rewrite length_app in Hl. simpl in Hl. apply Forall_app in Ho as [Ho _].
    rewrite foldl_app. simpl. apply step_reports; [lia |]. apply IH; [done | lia].
Qed.
End facts.
End WarmCacheFacts.

(** From a new cache, whatever the five feeds deliver, the two stabilities are numbers
    between 0 and 1 (so that the risk engine's own clamp changes nothing), the news values
    are in their documented ranges, each table has one slot per symbol and at most 512, and
    the confidence map stays within its capacity with its queue and map in step. *)
Theorem warm_cache_well_typed (json : WarmCacheUpdater.Json) (cfg : WarmCacheConfig) rs c0 now :
  u32_ok (trade_confidence_lru_size cfg) -> WarmCache.new cfg = Some c0 ->
  let c := (WarmCacheUpdater.run json c0 rs).1 in
  WarmCache.wf c
  /\ RiskEngine.clamp01 (wc_market_stability (c, now)) = wc_market_stability (c, now)
  /\ RiskEngine.clamp01 (wc_trader_stability (c, now)) = wc_trader_stability (c, now).
Proof.
  intros [Hc _] Hn. destruct (WarmCacheFacts.cache_new_wf cfg c0 Hc Hn) as [Hw _]. cbv zeta.
  pose proof (WarmCacheFacts.run_wf json rs c0 Hw) as Hwf. split; [done |].
  destruct Hwf as [(Hm & Ht & _) _]. split; by apply (Snapshot.snapshot_clamp_id f_zero f32_one).
Qed.

(** As long as no subscription closes and at most 512 messages arrived, the cache
    reports, feed by feed and symbol by symbol, the last value that decoded; malformed
    messages and symbols, and receive errors, change nothing; what was never published
    reads as its neutral default. *)
Theorem cache_reports_last_known_values (json : WarmCacheUpdater.Json) (cfg : WarmCacheConfig) rs c0 :
  u32_ok (trade_confidence_lru_size cfg) -> WarmCache.new cfg = Some c0 ->
  Forall WarmCacheUpdater.open rs -> (length rs <= MAX_TRACKED_SYMBOLS)%nat ->
  exists c, WarmCacheUpdater.run json c0 rs = (c, false)
  /\ WarmCache.market_stability c =
     unwrap_or f32_one (WarmCacheUpdater.last_of (WarmCacheUpdater.regime_of json) rs)
  /\ WarmCache.trader_stability c =
     unwrap_or f32_one ((fun v => clamp v f_zero f32_one) <$>
       WarmCacheUpdater.last_of (WarmCacheUpdater.psych_of json) rs)
  /\ (forall sym, WarmCache.priority c sym =
       unwrap_or Priority.P3 (WarmCacheUpdater.last_of (WarmCacheUpdater.priority_of json sym) rs))
  /\ (forall sym, WarmCache.news_impact c sym =
       unwrap_or NewsImpact.default (WarmCacheUpdater.last_of (WarmCacheUpdater.news_of json sym) rs)).
Proof.
  intros [Hc _] Hn Ho Hl. destruct (WarmCacheFacts.cache_new_wf cfg c0 Hc Hn) as [_ Hi].
  pose proof (WarmCacheFacts.run_reports json rs c0 Ho Hl Hi) as (Hm & Ht & Hp & Hnews & _).
  rewrite (WarmCacheFacts.run_open json rs c0 Ho) in *. eexists. split; [reflexivity |].
  split_and!; [done | done | |]; intros sym.
  - unfold WarmCache.priority, Snapshot.priority. by rewrite Hp.
  - unfold WarmCache.news_impact, Snapshot.news_impact. by rewrite Hnews.
Qed.

(** The 32-digit hexadecimal form of any identifier is parsed back to it. *)
Theorem correlation_id_hex_roundtrip (cid : CorrelationId.t) : u128_ok cid ->
  parse_correlation_id (to_hex (be_bytes 16 (CorrelationId.as_u128 cid))) = Some cid.
Proof.
  intros Hc. unfold parse_correlation_id, CorrelationId.as_u128.
  assert (from_be (be_bytes 16 cid) = cid) as Hv.
  { rewrite from_be_bytes. apply Z.mod_small. unfold_ok. simpl. lia. }
  rewrite to_hex_length, be_bytes_length. simpl Nat.eqb. cbv iota.
  rewrite from_str_radix_hex, Hv; [done | apply be_bytes_ok | done |].
  rewrite Hv. unfold_ok. lia.
Qed.

Lemma correlation_id_hex_roundtrip_witness :
  u128_ok 255 /\ parse_correlation_id "000000000000000000000000000000ff" = Some 255.
Proof. split; [vm_compute; split; discriminate | exact (correlation_id_hex_roundtrip 255 ltac:(vm_compute; split; discriminate))]. Defined.

(** A decimal identifier of 32 digits is read as hexadecimal. *)
Lemma decimal_id_of_32_digits_read_as_hex :
  parse_correlation_id "10000000000000000000000000000000" = Some (16 ^ 31)
  /\ parse_correlation_id "1000000000000000000000000000000" = Some (10 ^ 30).
Proof. by vm_compute. Qed.

(** The age of an entry is measured against the reader's own clock, nanoseconds since its
    process started: a score stamped by its producer with the time since 1970 is fresh
    whatever the window, until the process is older than that. *)
Lemma producer_stamped_confidence_never_stale c cid v ts now :
  0 <= ConfidenceLru.staleness_ns c -> now <= ts ->
  ConfidenceLru.get (ConfidenceLru.mk (<[cid := ConfidenceLru.mk_Entry v ts]> (ConfidenceLru.map c))
    (ConfidenceLru.order c) (ConfidenceLru.capacity c) (ConfidenceLru.staleness_ns c)) cid now = Some v.
Proof.
  intros Hs Hn. unfold ConfidenceLru.get, CorrelationId.as_u128. simpl. rewrite lookup_insert_eq. simpl.
  assert (u64_sat_sub now ts = 0) as -> by sat_lia.
  destruct (Z.ltb_spec 0 (ConfidenceLru.staleness_ns c)), (Z.ltb_spec (ConfidenceLru.staleness_ns c) 0);
    done || lia.
Qed.

(** ** A concrete decoder: the first byte selects the message. *)

Module WarmCacheSample.
Import WarmCacheUpdater.
Definition json : Json := {|
  rank_from_slice b := Some (mk_AiRankEvent "0000000000000000000000000000002a" f32_one 5);
  regime_from_slice b := match b with [1] => Some (mk_AiRegimeChangedEvent "Panic" 3) | _ => None end;
  psych_from_slice b := match b with [2] => Some (mk_AiPsychStabilityEvent (f32_of_Z 7) 0) | _ => None end;
  priority_from_slice b := match b with [3] => Some (mk_AiPriorityChangedEvent "42" "P1" 4) | _ => None end;
  news_from_slice b := match b with [4] => Some (mk_AiNewsImpactEvent "x" f32_one f32_one 5) | _ => None end |}.
Definition receptions : list (feed * received * Z) :=
  [(RankFeed, Payload [0], 10); (RegimeFeed, Payload [1], 11); (PsychFeed, Payload [2], 12);
   (RegimeFeed, Payload [9], 13); (PriorityFeed, Payload [3], 14); (PriorityFeed, OtherError, 15);
   (NewsFeed, Payload [4], 16)].
End WarmCacheSample.

Lemma warm_cache_well_typed_witness : exists c0, WarmCache.new Defaults.warm_cache = Some c0
  /\ WarmCache.wf (WarmCacheUpdater.run WarmCacheSample.json c0 WarmCacheSample.receptions).1.
Proof.
  eexists. split; [reflexivity |].
  exact (proj1 (warm_cache_well_typed WarmCacheSample.json Defaults.warm_cache WarmCacheSample.receptions
    _ 20 ltac:(vm_compute; split; discriminate) eq_refl)).
Defined.

Lemma cache_reports_last_known_values_witness : exists c0 c,
  WarmCache.new Defaults.warm_cache = Some c0
  /\ WarmCacheUpdater.run WarmCacheSample.json c0 WarmCacheSample.receptions = (c, false)
  /\ WarmCache.market_stability c = f32_lit 5 100 /\ WarmCache.trader_stability c = f32_one
  /\ WarmCache.priority c 42 = Priority.P1 /\ WarmCache.priority c 43 = Priority.P3.
Proof.
  destruct (cache_reports_last_known_values WarmCacheSample.json Defaults.warm_cache
    WarmCacheSample.receptions _ ltac:(vm_compute; split; discriminate) eq_refl)
    as (c & E & Hm & Ht & Hp & _); [by repeat constructor | vm_compute; lia |].
  eexists _, c. split_and!; [reflexivity | exact E | by rewrite Hm | by rewrite Ht | |].
  - by rewrite Hp.
  - by rewrite Hp.
Defined.
