(* ===== verification/Replay.v ===== *)
(** The records of crates/hedge-replay and the frames they are written in (record.rs):
    a length prefix and an archive, read back through reads that may be cut anywhere. *)

From S2P Require Import Prelude Bytes.

(** ** Records (record.rs) *)

Module AISource.
Inductive t := Ranking | Regime | News | Psychology | Priority | Journal | Governance | Other.
#[global] Instance t_eq_dec : EqDecision t.
Proof. solve_decision. Defined.
Definition as_u8 (s : t) : Z :=
  match s with
  | Ranking => 0 | Regime => 1 | News => 2 | Psychology => 3 | Priority => 4 | Journal => 5
  | Governance => 6 | Other => 255
  end.
End AISource.

Module RecordKind.
Inductive t :=
| Tick | OrderBook | OpenInterest | NewsEvent | SignalEmitted | RiskDecision | OrderSubmitted
| OrderModified | OrderCancelled | Fill | TraderAction | AIDecision (source : AISource.t)
| MarketConditionSnapshot.
#[global] Instance t_eq_dec : EqDecision t.
Proof. solve_decision. Defined.
End RecordKind.

Record ReplayRecord := mk_ReplayRecord {
  session_id : Z;
  sequence_no : Z;
  monotonic_ns : Z;
  wallclock_utc : Z;
  kind : RecordKind.t;
  payload : list Z;
}.

Definition payload_bytes (r : ReplayRecord) : Z := Z.of_nat (length (payload r)).

(** The kinds of [io::Error] the crate makes or meets; [Panicked] is a failed [expect]. *)
Inductive io_error := UnexpectedEof | InvalidData | AlreadyExists | NotFound | Panicked.

(** ** Framing (record.rs, [framed]) *)

Module Framed.

(** A source of bytes: what is left, and how many bytes at most the [i]-th read is given
    besides the first, since [Read::read] may return fewer than asked. *)
Record reader := mk_reader { data : list Z; reads : nat; short : nat -> nat }.

(** [inp.read(&mut buf)] into [n > 0] bytes: empty only at the end. *)
Definition read (n : nat) (r : reader) : list Z * reader :=
  let k := (n `min` S (short r (reads r)))%nat in
  (take k (data r), mk_reader (drop k (data r)) (S (reads r)) (short r)).

(** [inp.read_exact]. *)
Definition read_exact (n : nat) (r : reader) : result (list Z) io_error * reader :=
  if decide (n <= length (data r))%nat
  then (Ok (take n (data r)), mk_reader (drop n (data r)) (S (reads r)) (short r))
  else (Err UnexpectedEof, mk_reader [] (S (reads r)) (short r)).

(** [write_framed]: the bytes it writes. *)
Definition write_framed (archive : list Z) : list Z :=
  be_bytes 4 (as_u32 (Z.of_nat (length archive))) ++ archive.

(** The [while filled < 4] loop; [fuel] counts its turns, each of which fills a byte. *)
Fixpoint fill_prefix (fuel : nat) (filled : list Z) (r : reader) : result (list Z) io_error * reader :=
  match fuel with
  | O => (Ok filled, r)
  | S fuel =>
    if decide (length filled < 4)%nat then
      let '(more, r) := read (4 - length filled) r in
      match more with
      | [] => (Err UnexpectedEof, r)
      | _ => fill_prefix fuel (filled ++ more) r
      end
    else (Ok filled, r)
  end.

Definition read_framed (r : reader) : result (option (list Z)) io_error * reader :=
  let '(first, r) := read 4 r in
  match first with
  | [] => (Ok None, r)
  | _ =>
    match fill_prefix 3 first r with
    | (Ok len_buf, r) =>
      match read_exact (Z.to_nat (from_be len_buf)) r with
      | (Ok buf, r) => (Ok (Some buf), r)
      | (Err e, r) => (Err e, r)
      end
    | (Err e, r) => (Err e, r)
    end
  end.

(** The length prefix is read whole however the reads are cut. *)
Lemma fill_prefix_spec fuel : forall filled r,
  (length filled <= 4)%nat -> (4 <= length filled + fuel)%nat ->
  (4 <= length filled + length (data r))%nat ->
  let n := (4 - length filled)%nat in
  exists k, fill_prefix fuel filled r =
    (Ok (filled ++ take n (data r)), mk_reader (drop n (data r)) k (short r)).
Proof.
  induction fuel as [| fuel IH]; intros filled r H1 H2 H3; cbv zeta.
  - replace (4 - length filled)%nat with 0%nat by lia. exists (reads r).
    simpl. rewrite take_0, app_nil_r. by destruct r.
  - cbn [fill_prefix]. case_decide as Hd.
    + unfold read. set (k := ((4 - length filled) `min` S (short r (reads r)))%nat).
      assert (1 <= k <= 4 - length filled)%nat as Hk by (unfold k; lia). clearbody k.
      destruct (take k (data r)) eqn:Ht.
      { apply (f_equal length) in Ht. rewrite length_take in Ht. simpl in Ht. lia. }
      rewrite <- Ht. assert (length (take k (data r)) = k) as Hlen by (rewrite length_take; lia).
      destruct (IH (filled ++ take k (data r))
        (mk_reader (drop k (data r)) (S (reads r)) (short r))) as (m & E).
      1-3: rewrite ?length_app, ?Hlen; simpl; rewrite ?length_drop; lia.
      exists m. rewrite E. simpl. rewrite length_app, Hlen, <- (assoc_L (++)), drop_drop, take_take_drop.
      by replace (k + (4 - (length filled + k)))%nat with (4 - length filled)%nat by lia.
    + replace (4 - length filled)%nat with 0%nat by lia. exists (reads r).
      rewrite take_0, app_nil_r. by destruct r.
Qed.

(** A frame followed by anything reads back, wherever the reads are cut. *)
Lemma read_framed_frame archive rest n short : Z.of_nat (length archive) <= u32_max ->
  exists k, read_framed (mk_reader (write_framed archive ++ rest) n short)
    = (Ok (Some archive), mk_reader rest k short).
Proof.
  intros Hl. unfold read_framed, read. cbn [data reads Framed.short].
  set (k := (4 `min` S (short n))%nat). assert (1 <= k <= 4)%nat as Hk by (unfold k; lia). clearbody k.
  unfold write_framed. set (len := as_u32 (Z.of_nat (length archive))).
  set (prefix := be_bytes 4 len). assert (length prefix = 4%nat) as Hp by apply be_bytes_length.
  assert (Z.to_nat (from_be prefix) = length archive) as Hlen.
  { unfold prefix, len. rewrite from_be_bytes, as_u32_id by (unfold_ok; lia).
    rewrite Z.mod_small by (unfold_ok; simpl; lia). lia. }
  clearbody prefix. rewrite <- (assoc_L (++)), take_app_le, drop_app_le by lia.
  destruct (take k prefix) eqn:Ht.
  { apply (f_equal length) in Ht. rewrite length_take in Ht. simpl in Ht. lia. }
  cbv beta iota. rewrite <- Ht. assert (length (take k prefix) = k) as Htl by (rewrite length_take; lia).
  destruct (fill_prefix_spec 3 (take k prefix) (mk_reader (drop k prefix ++ archive ++ rest) (S n) short))
    as (m & E); [cbn [data]; rewrite ?Htl, ?length_app, ?length_drop; lia .. |].
  rewrite E. simpl. rewrite Htl, take_app_le, drop_app_le by (rewrite length_drop; lia).
  rewrite (take_ge (drop k prefix)), (drop_ge (drop k prefix)) by (rewrite length_drop; lia).
  rewrite take_drop. simpl. rewrite Hlen. unfold read_exact. simpl.
  rewrite decide_True by (rewrite length_app; lia).
  rewrite take_app_length, drop_app_length. by eexists.
Qed.

Lemma read_framed_end n short : exists k,
  read_framed (mk_reader [] n short) = (Ok None, mk_reader [] k short).
Proof. by eexists. Qed.

Lemma fill_prefix_short fuel : forall filled r,
  (4 <= length filled + fuel)%nat -> (length filled + length (data r) < 4)%nat ->
  (fill_prefix fuel filled r).1 = Err UnexpectedEof.
Proof.
  induction fuel as [| fuel IH]; intros filled r H1 H2; [lia |].
  cbn [fill_prefix]. rewrite decide_True by lia. unfold read.
  set (k := ((4 - length filled) `min` S (short r (reads r)))%nat).
  assert (1 <= k)%nat as Hk by (unfold k; lia). clearbody k.
  destruct (take k (data r)) eqn:Ht; [done |]. rewrite <- Ht.
  assert (1 <= length (take k (data r)))%nat by (rewrite Ht; simpl; lia).
  rewrite length_take in *. apply IH; rewrite length_app, length_take; [lia |].
  cbn [data]. rewrite length_drop. lia.
Qed.

(** A prefix of a frame, cut anywhere, is an error, never a record. *)
Lemma read_framed_truncated archive n short cut : Z.of_nat (length archive) <= u32_max ->
  (0 < cut < length (write_framed archive))%nat ->
  (read_framed (mk_reader (take cut (write_framed archive)) n short)).1 = Err UnexpectedEof.
Proof.
  intros Hl Hcut. unfold write_framed in *. rewrite length_app, be_bytes_length in Hcut.
  unfold read_framed, read. cbn [data reads Framed.short].
  set (len := as_u32 (Z.of_nat (length archive))).
  set (prefix := be_bytes 4 len). assert (length prefix = 4%nat) as Hp by apply be_bytes_length.
  set (bytes := take cut (prefix ++ archive)).
  assert (length bytes = cut) as Hb by (unfold bytes; rewrite length_take, length_app; lia).
  set (k := (4 `min` S (short n))%nat). assert (1 <= k <= 4)%nat as Hk by (unfold k; lia). clearbody k.
  destruct (take k bytes) eqn:Ht.
  { apply (f_equal length) in Ht. rewrite length_take in Ht. simpl in Ht. lia. }
  cbv beta iota. rewrite <- Ht. assert (length (take k bytes) = k `min` cut)%nat as Htl
    by (rewrite length_take; lia).
  destruct (decide (cut < 4)%nat) as [Hc | Hc].
  - pose proof (fill_prefix_short 3 (take k bytes) (mk_reader (drop k bytes) (S n) short)) as Hf.
    cbn [data] in Hf. rewrite Htl, length_drop, Hb in Hf. specialize (Hf ltac:(lia) ltac:(lia)).
    destruct (fill_prefix _ _ _) as [r' rd]. simpl in Hf. by rewrite Hf.
  - destruct (fill_prefix_spec 3 (take k bytes) (mk_reader (drop k bytes) (S n) short))
      as (m & E); [cbn [data]; rewrite ?Htl, ?length_drop, ?Hb; lia .. |].
    rewrite E. cbn [data Framed.short]. rewrite Htl.
    replace (k `min` cut)%nat with k by lia. rewrite take_take_drop, drop_drop.
    replace (k + (4 - k))%nat with 4%nat by lia.
    assert (take 4 bytes = prefix) as ->.
    { unfold bytes. rewrite take_take. replace (4 `min` cut)%nat with 4%nat by lia.
      rewrite take_app_le by lia. apply take_ge. lia. }
    assert (from_be prefix = Z.of_nat (length archive)) as ->.
    { unfold prefix, len. rewrite from_be_bytes, as_u32_id by (unfold_ok; lia).
      apply Z.mod_small. unfold_ok. simpl. lia. }
    unfold read_exact. cbn [data]. rewrite Nat2Z.id, length_drop, Hb, decide_False by lia. done.
Qed.

End Framed.

(** ** The wire form of a record (command.rs) *)

Module AiSourceWire.
Inductive t := Ranking | Regime | News | Psychology | Priority | Journal | Governance | Other.
#[global] Instance t_eq_dec : EqDecision t.
Proof. solve_decision. Defined.
Definition of_source (s : AISource.t) : t :=
  match s with
  | AISource.Ranking => Ranking | AISource.Regime => Regime | AISource.News => News
  | AISource.Psychology => Psychology | AISource.Priority => Priority
  | AISource.Journal => Journal | AISource.Governance => Governance | AISource.Other => Other
  end.
End AiSourceWire.

Module RecordKindWire.
Inductive t :=
| Tick | OrderBook | OpenInterest | NewsEvent | SignalEmitted | RiskDecision | OrderSubmitted
| OrderModified | OrderCancelled | Fill | TraderAction | AiDecision (source : AiSourceWire.t)
| MarketConditionSnapshot.
Definition of_kind (k : RecordKind.t) : t :=
  match k with
  | RecordKind.Tick => Tick | RecordKind.OrderBook => OrderBook
  | RecordKind.OpenInterest => OpenInterest | RecordKind.NewsEvent => NewsEvent
  | RecordKind.SignalEmitted => SignalEmitted | RecordKind.RiskDecision => RiskDecision
  | RecordKind.OrderSubmitted => OrderSubmitted | RecordKind.OrderModified => OrderModified
  | RecordKind.OrderCancelled => OrderCancelled | RecordKind.Fill => Fill
  | RecordKind.TraderAction => TraderAction
  | RecordKind.AIDecision src => AiDecision (AiSourceWire.of_source src)
  | RecordKind.MarketConditionSnapshot => MarketConditionSnapshot
  end.
End RecordKindWire.

Module Base64.
Definition TABLE : string := "ABCDEFGHIJKLMNOPQRSTUVWXYZabcdefghijklmnopqrstuvwxyz0123456789+/".

(** [TABLE[i as usize] as char] for an index below 64. *)
Definition char_at (i : Z) : Ascii.ascii :=
  unwrap_or plus_sign (String.get (Z.to_nat i) TABLE).
Definition pad_char : Ascii.ascii := Ascii.ascii_of_N 61.

(** The loop over groups of three bytes, and its two remainders. *)
Fixpoint encode (input : list Z) : string :=
  match input with
  | b0 :: b1 :: b2 :: rest =>
    let n := Z.lor (Z.lor (Z.shiftl b0 16) (Z.shiftl b1 8)) b2 in
    String (char_at (Z.land (Z.shiftr n 18) 63)) (String (char_at (Z.land (Z.shiftr n 12) 63))
      (String (char_at (Z.land (Z.shiftr n 6) 63)) (String (char_at (Z.land n 63)) (encode rest))))
  | [b0] =>
    let n := Z.shiftl b0 16 in
    String (char_at (Z.land (Z.shiftr n 18) 63)) (String (char_at (Z.land (Z.shiftr n 12) 63))
      (String pad_char (String pad_char EmptyString)))
  | [b0; b1] =>
    let n := Z.lor (Z.shiftl b0 16) (Z.shiftl b1 8) in
    String (char_at (Z.land (Z.shiftr n 18) 63)) (String (char_at (Z.land (Z.shiftr n 12) 63))
      (String (char_at (Z.land (Z.shiftr n 6) 63)) (String pad_char EmptyString)))
  | [] => EmptyString
  end.

(** RFC 4648 decoding, the specification: [None] on a byte outside the alphabet. *)
Fixpoint index_in (c : Ascii.ascii) (s : string) (i : Z) : option Z :=
  match s with
  | EmptyString => None
  | String d s => if Ascii.eqb c d then Some i else index_in c s (i + 1)
  end.
Definition value (c : Ascii.ascii) : option Z := index_in c TABLE 0.
Fixpoint decode (s : string) : option (list Z) :=
  match s with
  | EmptyString => Some []
  | String c0 (String c1 (String c2 (String c3 rest))) =>
    i0 ← value c0; i1 ← value c1;
    if Ascii.eqb c2 pad_char then Some [i0 * 4 + i1 / 16]
    else
      i2 ← value c2;
      if Ascii.eqb c3 pad_char then Some [i0 * 4 + i1 / 16; i1 mod 16 * 16 + i2 / 4]
      else
        i3 ← value c3; l ← decode rest;
        Some (i0 * 4 + i1 / 16 :: i1 mod 16 * 16 + i2 / 4 :: i2 mod 4 * 64 + i3 :: l)
  | _ => None
  end.

Lemma char_at_ok i : 0 <= i < 64 ->
  value (char_at i) = Some i /\ Ascii.eqb (char_at i) pad_char = false.
Proof.
  assert (forallb (fun k => let i := Z.of_nat k in
    bool_decide (value (char_at i) = Some i) && negb (Ascii.eqb (char_at i) pad_char)) (seq 0 64) = true)
    as Hall by (vm_compute; reflexivity).
  intros Hi. rewrite List.forallb_forall in Hall. specialize (Hall (Z.to_nat i)).
  rewrite List.in_seq, Z2Nat.id in Hall by lia. specialize (Hall ltac:(lia)).
  apply andb_prop in Hall as [H1 H2]. apply bool_decide_eq_true in H1. apply negb_true_iff in H2. done.
Qed.

(** The fields of a 24-bit group. *)
Lemma sextet b0 b1 b2 k : byte_ok b0 -> byte_ok b1 -> byte_ok b2 -> 0 <= k ->
  Z.land (Z.shiftr (Z.lor (Z.lor (Z.shiftl b0 16) (Z.shiftl b1 8)) b2) k) 63
  = (65536 * b0 + 256 * b1 + b2) / 2 ^ k mod 64.
Proof.
  unfold byte_ok. intros H0 H1 H2 Hk. change 63 with (Z.ones 6).
  rewrite Z.land_ones, Z.shiftr_div_pow2 by lia. do 2 f_equal.
  rewrite (lor_shiftl b0 (Z.shiftl b1 8) 16) by (rewrite ?Z.shiftl_mul_pow2; simpl; lia).
  replace (b0 * 2 ^ 16 + Z.shiftl b1 8) with (Z.shiftl (b0 * 256 + b1) 8)
    by (rewrite !Z.shiftl_mul_pow2 by lia; simpl; lia).
  rewrite lor_shiftl by (simpl; lia). simpl. lia.
Qed.

Lemma digits_base_64 n : 0 <= n < 16777216 ->
  n = (n / 262144 mod 64) * 262144 + (n / 4096 mod 64) * 4096 + (n / 64 mod 64) * 64 + n mod 64.
Proof.
  intros Hn. pose proof (Z.div_mod n 64 ltac:(lia)) as H1.
  pose proof (Z.div_mod (n / 64) 64 ltac:(lia)) as H2. rewrite Z.div_div in H2 by lia.
  pose proof (Z.div_mod (n / 4096) 64 ltac:(lia)) as H3. rewrite Z.div_div in H3 by lia.
  change (64 * 64) with 4096 in *. change (4096 * 64) with 262144 in *.
  rewrite (Z.mod_small (n / 262144)) by (split; [apply Z.div_pos; lia | apply Z.div_lt_upper_bound; lia]).
  lia.
Qed.

(** Four sextets give the three bytes back. *)
Lemma group_bytes b0 b1 b2 : byte_ok b0 -> byte_ok b1 -> byte_ok b2 ->
  let n := 65536 * b0 + 256 * b1 + b2 in
  let i0 := n / 262144 mod 64 in let i1 := n / 4096 mod 64 in
  let i2 := n / 64 mod 64 in let i3 := n mod 64 in
  i0 * 4 + i1 / 16 = b0 /\ i1 mod 16 * 16 + i2 / 4 = b1 /\ i2 mod 4 * 64 + i3 = b2.
Proof.
  unfold byte_ok. intros H0 H1 H2. cbv zeta. set (n := 65536 * b0 + 256 * b1 + b2).
  pose proof (digits_base_64 n ltac:(lia)) as Hn.
  pose proof (Z.mod_pos_bound (n / 262144) 64 ltac:(lia)) as R0.
  pose proof (Z.mod_pos_bound (n / 4096) 64 ltac:(lia)) as R1.
  pose proof (Z.mod_pos_bound (n / 64) 64 ltac:(lia)) as R2.
  pose proof (Z.mod_pos_bound n 64 ltac:(lia)) as R3.
  generalize dependent (n / 262144 mod 64). generalize dependent (n / 4096 mod 64).
  generalize dependent (n / 64 mod 64). generalize dependent (n mod 64).
  intros i3 R3 i2 R2 i1 R1 i0 Hn R0. subst n.
  pose proof (Z.div_mod i1 16 ltac:(lia)). pose proof (Z.mod_pos_bound i1 16 ltac:(lia)).
  pose proof (Z.div_mod i2 4 ltac:(lia)). pose proof (Z.mod_pos_bound i2 4 ltac:(lia)).
  lia.
Qed.

Lemma mod_64_range x : 0 <= x mod 64 < 64.
Proof. apply Z.mod_pos_bound. lia. Qed.

Lemma decode_encode l : bytes_ok l -> decode (encode l) = Some l.
Proof.
  remember (length l) as n eqn:Hn. revert l Hn.
  induction (Nat.lt_wf_0 n) as [n _ IH]. intros l -> Hl.
  destruct l as [| b0 [| b1 [| b2 rest]]]; [done | | |];
    apply Forall_cons in Hl as [H0 Hl]; try (apply Forall_cons in Hl as [H1 Hl]);
    try (apply Forall_cons in Hl as [H2 Hl]).
  - assert (byte_ok 0) as Hz by (unfold byte_ok; lia).
    pose proof (sextet b0 0 0 18 H0 Hz Hz ltac:(lia)) as E1.
    pose proof (sextet b0 0 0 12 H0 Hz Hz ltac:(lia)) as E2.
    rewrite Z.shiftl_0_l, !Z.lor_0_r in E1, E2.
    destruct (group_bytes b0 0 0 H0 Hz Hz) as (Hb & _).
    cbn [encode]. rewrite E1, E2. cbn [decode].
    rewrite !(proj1 (char_at_ok _ (mod_64_range _))). simpl. f_equal. f_equal. exact Hb.
  - assert (byte_ok 0) as Hz by (unfold byte_ok; lia).
    pose proof (sextet b0 b1 0 18 H0 H1 Hz ltac:(lia)) as E1.
    pose proof (sextet b0 b1 0 12 H0 H1 Hz ltac:(lia)) as E2.
    pose proof (sextet b0 b1 0 6 H0 H1 Hz ltac:(lia)) as E3.
    rewrite !Z.lor_0_r in E1, E2, E3.
    destruct (group_bytes b0 b1 0 H0 H1 Hz) as (Ha & Hb & _).
    cbn [encode]. rewrite E1, E2, E3. cbn [decode].
    rewrite !(proj1 (char_at_ok _ (mod_64_range _))), (proj2 (char_at_ok _ (mod_64_range _))).
    simpl. f_equal. f_equal; [exact Ha |]. f_equal. exact Hb.
  - pose proof (sextet b0 b1 b2 18 H0 H1 H2 ltac:(lia)) as E1.
    pose proof (sextet b0 b1 b2 12 H0 H1 H2 ltac:(lia)) as E2.
    pose proof (sextet b0 b1 b2 6 H0 H1 H2 ltac:(lia)) as E3.
    pose proof (sextet b0 b1 b2 0 H0 H1 H2 ltac:(lia)) as E4. rewrite Z.shiftr_0_r, Z.div_1_r in E4.
    destruct (group_bytes b0 b1 b2 H0 H1 H2) as (Ha & Hb & Hc).
    cbn [encode]. rewrite E1, E2, E3, E4. cbn [decode].
    rewrite !(proj1 (char_at_ok _ (mod_64_range _))), !(proj2 (char_at_ok _ (mod_64_range _))).
    cbn [mbind option_bind]. rewrite (IH (length rest)) by (simpl; done || lia).
    simpl. f_equal. f_equal; [exact Ha |]. f_equal; [exact Hb |]. f_equal. exact Hc.
Qed.
End Base64.

Record ReplayRecordWire := mk_ReplayRecordWire {
  w_session_id : Z;
  w_sequence_no : Z;
  w_monotonic_ns : Z;
  w_wallclock_utc : Z;
  w_kind : RecordKindWire.t;
  w_payload_b64 : string;
}.
Definition wire_of_record (r : ReplayRecord) : ReplayRecordWire :=
  mk_ReplayRecordWire (session_id r) (sequence_no r) (monotonic_ns r) (wallclock_utc r)
    (RecordKindWire.of_kind (kind r)) (Base64.encode (payload r)).

(** The wire form loses nothing of a record. *)
Lemma wire_of_record_inj r1 r2 : bytes_ok (payload r1) -> bytes_ok (payload r2) ->
  wire_of_record r1 = wire_of_record r2 -> r1 = r2.
Proof.
  intros H1 H2 E. destruct r1 as [s1 q1 m1 u1 k1 p1], r2 as [s2 q2 m2 u2 k2 p2].
  unfold wire_of_record in E. simpl in *. injection E as -> -> -> -> Ek Ep.
  apply (f_equal Base64.decode) in Ep. rewrite !Base64.decode_encode in Ep by done.
  injection Ep as ->. f_equal.
  destruct k1 as [| | | | | | | | | | | [] |], k2 as [| | | | | | | | | | | [] |]; done.
Qed.
