(* ===== verification/ReplaySegments.v ===== *)
(** The segment files of crates/hedge-replay (segments.rs): a writer that splits a session
    over numbered files, and a reader that walks them.  A directory is a map from file
    names to bytes; the rkyv codec is a parameter. *)

From S2P Require Import Prelude Bytes Replay.

Definition DEFAULT_MAX_SEGMENT_BYTES : Z := 1073741824.

(** [{:04}] of an unsigned integer. *)
Definition digit (d : Z) : string := String (hex_digit d) EmptyString.
Definition pad4 (n : Z) : string :=
  if n <? 10000
  then digit (n / 1000 mod 10) +:+ digit (n / 100 mod 10) +:+ digit (n / 10 mod 10) +:+ digit (n mod 10)
  else pretty n.

Definition session_dir (session : Z) : string := pretty session.
Definition segment_name (idx : Z) : string := "seg-" +:+ pad4 idx +:+ ".rkyv".

Abbreviation directory := (gmap string (list Z)).
Abbreviation file_system := (gmap string directory).

(** [n.starts_with("seg-") && n.ends_with(".rkyv")]. *)
Definition ends_with (suffix s : string) : bool :=
  let k := (String.length s - String.length suffix)%nat in
  (String.length suffix <=? String.length s)%nat
  && String.eqb (String.substring k (String.length suffix) s) suffix.
Definition is_segment_name (s : string) : bool :=
  String.prefix "seg-" s && ends_with ".rkyv" s.

Module SegmentWriter.

(** [active_file] is the open file with what its [BufWriter] still holds: bytes it may
    spill early are only observed after a flush, so they are kept until then. *)
Record t := mk {
  max_segment_bytes : Z;
  active_session : option Z;
  active_segment_idx : Z;
  active_file : option (string * string * list Z);
  active_bytes : Z;
}.
Definition new (max : Z) : t := mk max None 0 None 0.

Section writer.
Context (encode_record : ReplayRecord -> list Z).

Definition world : Type := t * file_system.
Definition io := SE world io_error.

Definition append_bytes (fs : file_system) (dir name : string) (bytes : list Z) : file_system :=
  let files := unwrap_or ∅ (fs !! dir) in
  <[dir := <[name := unwrap_or [] (files !! name) ++ bytes]> files]> fs.

(** [flush]: the buffer of the open file reaches it. *)
Definition flush : io unit := fun '(w, fs) =>
  match active_file w with
  | Some (dir, name, buf) =>
    (Ok tt, (mk (max_segment_bytes w) (active_session w) (active_segment_idx w)
      (Some (dir, name, [])) (active_bytes w), append_bytes fs dir name buf))
  | None => (Ok tt, (w, fs))
  end.

Definition close_active : io unit := fun '(w, fs) =>
  let fs := match active_file w with
            | Some (dir, name, buf) => append_bytes fs dir name buf
            | None => fs
            end in
  (Ok tt, (mk (max_segment_bytes w) (active_session w) (active_segment_idx w) None 0, fs)).

(** [open_next_segment]: [create_dir_all], then [create_new], which refuses an existing
    file. *)
Definition open_next_segment (session : Z) : io unit := fun '(w, fs) =>
  let idx := sat 0 u32_max (active_segment_idx w + 1) in
  let dir := session_dir session in
  let files := unwrap_or ∅ (fs !! dir) in
  let fs := <[dir := files]> fs in
  let name := segment_name idx in
  if is_some (files !! name) then
    (Err AlreadyExists, (mk (max_segment_bytes w) (active_session w) idx (active_file w) (active_bytes w), fs))
  else
    (Ok tt, (mk (max_segment_bytes w) (active_session w) idx (Some (dir, name, [])) 0,
             <[dir := <[name := []]> files]> fs)).

Definition set_session (session : Z) : io unit :=
  se_modify (fun '(w, fs) =>
    (mk (max_segment_bytes w) (Some session) 0 (active_file w) (active_bytes w), fs)).
Definition reset_idx : io unit :=
  se_modify (fun '(w, fs) =>
    (mk (max_segment_bytes w) (active_session w) 0 (active_file w) (active_bytes w), fs)).

(** [write_framed] into the open file; the path returned is its directory and name. *)
Definition write_active (archive : list Z) (frame_size : Z) : io (string * string) := fun '(w, fs) =>
  match active_file w with
  | Some (dir, name, buf) =>
    (Ok (dir, name),
     (mk (max_segment_bytes w) (active_session w) (active_segment_idx w)
        (Some (dir, name, buf ++ Framed.write_framed archive))
        (u64_sat_add (active_bytes w) frame_size), fs))
  | None => (Err Panicked, (w, fs))
  end.

Definition append (record : ReplayRecord) : io (string * string) := fun '(w, fs) =>
  let archive := encode_record record in
  let frame_size := 4 + Z.of_nat (length archive) in
  let session := session_id record in
  let session_changed := negb (bool_decide (active_session w = Some session)) in
  let size_overflow :=
    is_some (active_file w)
    && (max_segment_bytes w <? u64_sat_add (active_bytes w) frame_size) in
  (if session_changed then
     close_active ;? set_session session ;? open_next_segment session ;?
     write_active archive frame_size
   else if size_overflow then
     close_active ;? open_next_segment session ;? write_active archive frame_size
   else if negb (is_some (active_file w)) then
     reset_idx ;? open_next_segment session ;? write_active archive frame_size
   else write_active archive frame_size)%se (w, fs).

(** A sequence of appends that stops at the first error; [Drop] closes the file. *)
Fixpoint append_all (rs : list ReplayRecord) : io unit :=
  match rs with
  | [] => se_ret tt
  | r :: rs => (append r ;? append_all rs)%se
  end.
Definition write_session (rs : list ReplayRecord) : io unit :=
  (append_all rs ;? close_active)%se.

End writer.
End SegmentWriter.

Module SegmentReader.

(** [active_idx] indexes [segments]; [active] is the reader of the open file. *)
Record t := mk {
  segments : list (string * string);
  active : option Framed.reader;
  active_idx : nat;
}.

Definition open_session (fs : file_system) (session : Z) : t :=
  let dir := session_dir session in
  match fs !! dir with
  | None => mk [] None 0
  | Some files =>
    mk (pair dir <$> merge_sort String.le (List.filter is_segment_name (map_to_list files).*1)) None 0
  end.

Definition segment_count (r : t) : nat := length (segments r).

Section reader.
Context (decode_record : list Z -> option ReplayRecord) (short : string -> nat -> nat)
  (fs : file_system).

Definition file (path : string * string) : option (list Z) :=
  files ← fs !! path.1; files !! path.2.

(** The loop of [next_record]; [fuel] bounds its turns, one per exhausted segment.  [None]
    is fuel exhaustion; a segment that disappeared is an open error. *)
Fixpoint next_record (fuel : nat) (r : t) : option (result (option ReplayRecord) io_error * t) :=
  match fuel with
  | O => None
  | S fuel =>
    let opened :=
      match active r with
      | Some rd => Some (Ok rd)
      | None =>
        match segments r !! active_idx r with
        | None => None
        | Some path =>
          Some (match file path with
                | Some bytes => Ok (Framed.mk_reader bytes 0 (short path.2))
                | None => Err NotFound
                end)
        end
      end in
    match opened with
    | None => Some (Ok None, r)
    | Some (Err e) => Some (Err e, r)
    | Some (Ok rd) =>
      match Framed.read_framed rd with
      | (Err e, rd) => Some (Err e, mk (segments r) (Some rd) (active_idx r))
      | (Ok (Some bytes), rd) =>
        let r := mk (segments r) (Some rd) (active_idx r) in
        match decode_record bytes with
        | Some rec => Some (Ok (Some rec), r)
        | None => Some (Err InvalidData, r)
        end
      | (Ok None, _) => next_record fuel (mk (segments r) None (S (active_idx r)))
      end
    end
  end.

(** The loop of [read_all]. *)
Fixpoint read_loop (fuel : nat) (r : t) (out : list ReplayRecord) :
    option (result (list ReplayRecord) io_error) :=
  match fuel with
  | O => None
  | S fuel =>
    match next_record (S (length (segments r))) r with
    | None => None
    | Some (Err e, _) => Some (Err e)
    | Some (Ok None, _) => Some (Ok out)
    | Some (Ok (Some rec), r) => read_loop fuel r (out ++ [rec])
    end
  end.
(** Every record takes at least four bytes of a segment. *)
Definition bytes_left (r : t) : nat :=
  sum_list ((fun p => length (unwrap_or [] (file p))) <$> segments r).
Definition read_all (r : t) : option (result (list ReplayRecord) io_error) :=
  read_loop (S (bytes_left r)) r [].

End reader.
End SegmentReader.

(** [list_sessions]: the directories whose name is a [u64], in ascending order. *)
Definition list_sessions (fs : file_system) : list Z :=
  merge_sort Z.le (omap (from_str_radix 10 u64_max) (map_to_list fs).*1).

(** ** Names *)

Lemma hex_digit_compare a b : 0 <= a < 10 -> 0 <= b < 10 ->
  Ascii.compare (hex_digit a) (hex_digit b) = (a ?= b).
Proof.
  intros Ha Hb. unfold Ascii.compare, hex_digit.
  destruct (Z.ltb_spec a 10), (Z.ltb_spec b 10); try lia.
  rewrite !Ascii.N_ascii_embedding by lia. rewrite <- N2Z.inj_compare, !Z2N.id by lia.
  destruct (Z.compare_spec a b); destruct (Z.compare_spec (48 + a) (48 + b)); lia || done.
Qed.

Lemma ascii_compare_refl c : Ascii.compare c c = Eq.
Proof. apply N.compare_refl. Qed.

Lemma string_compare_refl s : String.compare s s = Eq.
Proof. induction s as [| c s IH]; simpl; [done |]. by rewrite ascii_compare_refl. Qed.

Lemma four_digits n : 0 <= n < 10000 -> exists a b c d,
  n = 1000 * a + 100 * b + 10 * c + d
  /\ 0 <= a < 10 /\ 0 <= b < 10 /\ 0 <= c < 10 /\ 0 <= d < 10
  /\ pad4 n = digit a +:+ digit b +:+ digit c +:+ digit d.
Proof.
  intros Hn. exists (n / 1000 mod 10), (n / 100 mod 10), (n / 10 mod 10), (n mod 10).
  pose proof (Z.div_mod n 10 ltac:(lia)) as H1.
  pose proof (Z.div_mod (n / 10) 10 ltac:(lia)) as H2. rewrite Z.div_div in H2 by lia.
  pose proof (Z.div_mod (n / 100) 10 ltac:(lia)) as H3. rewrite Z.div_div in H3 by lia.
  pose proof (Z.div_mod (n / 1000) 10 ltac:(lia)) as H4. rewrite Z.div_div in H4 by lia.
  change (10 * 10) with 100 in *. change (100 * 10) with 1000 in *.
  change (1000 * 10) with 10000 in *. rewrite (Z.div_small n 10000) in H4 by lia.
  split_and!; try (apply Z.mod_pos_bound; lia).
  - lia.
  - unfold pad4. destruct (Z.ltb_spec n 10000); [done | lia].
Qed.

(** Segment names order as their numbers, as long as these have four digits. *)
Lemma segment_name_compare m n : 0 <= m < 10000 -> 0 <= n < 10000 ->
  String.compare (segment_name m) (segment_name n) = (m ?= n).
Proof.
  intros Hm Hn. unfold segment_name.
  destruct (four_digits m Hm) as (a & b & c & d & Em & Ha & Hb & Hc & Hd & ->).
  destruct (four_digits n Hn) as (a' & b' & c' & d' & En & Ha' & Hb' & Hc' & Hd' & ->).
  lazy -[Ascii.compare hex_digit Z.compare]. rewrite !ascii_compare_refl, !hex_digit_compare by done.
  destruct (Z.compare_spec a a'); [| destruct (Z.compare_spec m n); lia || done ..].
  destruct (Z.compare_spec b b'); [| destruct (Z.compare_spec m n); lia || done ..].
  destruct (Z.compare_spec c c'); [| destruct (Z.compare_spec m n); lia || done ..].
  destruct (Z.compare_spec d d'); destruct (Z.compare_spec m n); lia || done.
Qed.

Lemma segment_name_inj m n : 0 <= m < 10000 -> 0 <= n < 10000 ->
  segment_name m = segment_name n -> m = n.
Proof.
  intros Hm Hn E. pose proof (segment_name_compare m n Hm Hn) as Hc. rewrite E in Hc.
  rewrite string_compare_refl in Hc. by apply Z.compare_eq.
Qed.

Lemma is_segment_name_ok n : 0 <= n < 10000 -> is_segment_name (segment_name n) = true.
Proof.
  intros Hn. unfold segment_name.
  by destruct (four_digits n Hn) as (a & b & c & d & _ & _ & _ & _ & _ & ->).
Qed.

Definition names (n : nat) : list string := (fun i => segment_name (Z.of_nat i)) <$> seq 1 n.

Lemma names_S n : names (S n) = names n ++ [segment_name (Z.of_nat (S n))].
Proof. unfold names. by rewrite seq_S, fmap_app. Qed.

Lemma elem_of_names n nm : nm ∈ names n <-> exists i, 1 <= i <= Z.of_nat n /\ nm = segment_name i.
Proof.
  unfold names. rewrite list_elem_of_fmap. setoid_rewrite elem_of_seq. split.
  - intros (i & -> & Hi). exists (Z.of_nat i). split; [lia | done].
  - intros (i & Hi & ->). exists (Z.to_nat i). rewrite Z2Nat.id by lia. split; [done | lia].
Qed.

Lemma names_sorted n : Z.of_nat n < 10000 -> StronglySorted String.le (names n) /\ NoDup (names n).
Proof.
  induction n as [| n IH]; intros Hn; [split; constructor |].
  destruct (IH ltac:(lia)) as [IHs IHn]. rewrite names_S. split.
  - apply StronglySorted_app_2; [| done | repeat constructor].
    intros x1 x2 H1 ->%list_elem_of_singleton. apply elem_of_names in H1 as (i & Hi & ->).
    unfold String.le, String.leb. rewrite segment_name_compare by lia.
    by destruct (Z.compare_spec i (Z.of_nat (S n))); [| | lia].
  - apply NoDup_app. split_and!; [done | | apply NoDup_singleton].
    intros x Hx ->%list_elem_of_singleton. apply elem_of_names in Hx as (i & Hi & E).
    apply segment_name_inj in E; lia.
Qed.

(** The reader's list of files, for a directory that holds exactly the first [n]. *)
Lemma sorted_names (files : directory) n : Z.of_nat n < 10000 ->
  (forall nm, is_Some (files !! nm) <-> nm ∈ names n) ->
  merge_sort String.le (List.filter is_segment_name (map_to_list files).*1) = names n.
Proof.
  intros Hn Hd. destruct (names_sorted n Hn) as [Hs Hnd].
  apply (StronglySorted_unique String.le); [apply StronglySorted_merge_sort; apply _ | done |].
  rewrite merge_sort_Permutation. apply NoDup_Permutation; [| done |].
  - apply NoDup_ListNoDup, List.NoDup_filter, NoDup_ListNoDup, NoDup_fst_map_to_list.
  - intros nm. rewrite list_elem_of_In, filter_In, <- list_elem_of_In, list_elem_of_fmap, <- Hd.
    split.
    + intros [([k v] & -> & Hin) _]. apply elem_of_map_to_list in Hin. by eexists.
    + intros [v Hv]. split; [exists (nm, v); split; [done | by apply elem_of_map_to_list] |].
      assert (nm ∈ names n) as Hin by (apply Hd; by eexists).
      apply elem_of_names in Hin as (i & Hi & ->). apply is_segment_name_ok. lia.
Qed.

(** ** The ledger: what the files hold *)

Module Ledger.

(** An operation of the writer's owner on one session. *)
Inductive op := Append (r : ReplayRecord) | Flush.

(** The specification of a session: its finished segments and the current one. *)
Definition segs := option (list (list ReplayRecord) * list ReplayRecord).
Definition all (st : segs) : list (list ReplayRecord) :=
  match st with None => [] | Some (older, cur) => older ++ [cur] end.

Section ledger.
Context (encode_record : ReplayRecord -> list Z).

Definition frame_size (r : ReplayRecord) : Z := 4 + Z.of_nat (length (encode_record r)).
Definition frames (rs : list ReplayRecord) : list Z :=
  concat ((fun r => Framed.write_framed (encode_record r)) <$> rs).
Definition seg_bytes (rs : list ReplayRecord) : Z :=
  foldl (fun a r => u64_sat_add a (frame_size r)) 0 rs.

(** A record goes to the current segment unless it would overflow it. *)
Definition seg_append (max : Z) (st : segs) (r : ReplayRecord) : segs :=
  match st with
  | None => Some ([], [r])
  | Some (older, cur) =>
    if max <? u64_sat_add (seg_bytes cur) (frame_size r)
    then Some (older ++ [cur], [r]) else Some (older, cur ++ [r])
  end.
Definition seg_step (max : Z) (st : segs) (o : op) : segs :=
  match o with Append r => seg_append max st r | Flush => st end.
Definition segment (max : Z) (ops : list op) : segs := foldl (seg_step max) None ops.
Definition appended (ops : list op) : list ReplayRecord :=
  omap (fun o => match o with Append r => Some r | Flush => None end) ops.

(** The writer's run over a session, then [Drop]. *)
Definition perform (o : op) : SegmentWriter.io unit :=
  match o with
  | Append r => (SegmentWriter.append encode_record r ;? se_ret tt)%se
  | Flush => SegmentWriter.flush
  end.
Fixpoint performs (ops : list op) : SegmentWriter.io unit :=
  match ops with [] => se_ret tt | o :: ops => (perform o ;? performs ops)%se end.

(** The files of a closed session. *)
Definition holds (files : directory) (l : list (list ReplayRecord)) : Prop :=
  Forall2 (fun nm c => files !! nm = Some (frames c)) (names (length l)) l
  /\ (forall nm, is_Some (files !! nm) <-> nm ∈ names (length l)).

Section invariant.
Context (s max : Z) (fs0 : file_system).

(** The state of a writer that has performed [st]: the last file and the buffer together
    hold the current segment. *)
Definition inv (st : segs) (x : SegmentWriter.world) : Prop :=
  let '(w, fs) := x in
  SegmentWriter.max_segment_bytes w = max /\
  match st with
  | None =>
    SegmentWriter.active_session w = None /\ SegmentWriter.active_file w = None /\ fs = fs0
  | Some (older, cur) =>
    let n := length (all st) in
    exists files content buf,
      SegmentWriter.active_session w = Some s
      /\ SegmentWriter.active_segment_idx w = Z.of_nat n
      /\ SegmentWriter.active_file w = Some (session_dir s, segment_name (Z.of_nat n), buf)
      /\ SegmentWriter.active_bytes w = seg_bytes cur
      /\ fs !! session_dir s = Some files
      /\ files !! segment_name (Z.of_nat n) = Some content /\ content ++ buf = frames cur
      /\ Forall2 (fun nm c => files !! nm = Some (frames c)) (names (length older)) older
      /\ (forall nm, is_Some (files !! nm) <-> nm ∈ names n)
      /\ (forall d, d <> session_dir s -> fs !! d = fs0 !! d)
  end.

Lemma frames_snoc rs r : frames (rs ++ [r]) = frames rs ++ Framed.write_framed (encode_record r).
Proof. unfold frames. by rewrite fmap_app, concat_app; simpl; rewrite app_nil_r. Qed.

Lemma seg_bytes_snoc rs r : seg_bytes (rs ++ [r]) = u64_sat_add (seg_bytes rs) (frame_size r).
Proof. unfold seg_bytes. by rewrite foldl_app. Qed.

Lemma name_fresh n nm : Z.of_nat (S n) < 10000 -> nm ∈ names n -> nm <> segment_name (Z.of_nat (S n)).
Proof.
  intros Hn Hin ->. apply elem_of_names in Hin as (i & Hi & E).
  apply segment_name_inj in E; lia.
Qed.

(** Other files of the directory are not disturbed by writing one. *)
Lemma Forall2_insert_ne (files : directory) nm v l : nm ∉ names (length l) ->
  Forall2 (fun nm c => files !! nm = Some (frames c)) (names (length l)) l ->
  Forall2 (fun nm' c => <[nm := v]> files !! nm' = Some (frames c)) (names (length l)) l.
Proof.
  intros Hn Hf.
  apply Forall2_same_length_lookup in Hf as [Hl Hf]. apply Forall2_same_length_lookup.
  split; [done |]. intros i x y Hx Hy. cbv beta. rewrite lookup_insert_ne; [by eapply Hf |].
  intros <-. by eapply Hn, list_elem_of_lookup_2.
Qed.

Lemma append_bytes_spec fs files dir nm content buf :
  fs !! dir = Some files -> files !! nm = Some content ->
  SegmentWriter.append_bytes fs dir nm buf = <[dir := <[nm := content ++ buf]> files]> fs.
Proof. intros H1 H2. unfold SegmentWriter.append_bytes. rewrite H1. simpl. by rewrite H2. Qed.

(** Moving the buffer into its file. *)
Lemma spill_inv older cur w fs buf' files content buf :
  let n := length (older ++ [cur]) in
  Z.of_nat n < 10000 ->
  inv (Some (older, cur)) (w, fs) ->
  fs !! session_dir s = Some files -> files !! segment_name (Z.of_nat n) = Some content ->
  SegmentWriter.active_file w = Some (session_dir s, segment_name (Z.of_nat n), buf) ->
  buf' = [] ->
  inv (Some (older, cur))
    (SegmentWriter.mk (SegmentWriter.max_segment_bytes w) (SegmentWriter.active_session w)
       (SegmentWriter.active_segment_idx w)
       (Some (session_dir s, segment_name (Z.of_nat n), buf')) (SegmentWriter.active_bytes w),
     SegmentWriter.append_bytes fs (session_dir s) (segment_name (Z.of_nat n)) buf).
Proof.
  cbv zeta. intros Hn [Hm (files0 & content0 & buf0 & H1 & H2 & H3 & H4 & H5 & H6 & H7 & H8 & H9 & H10)] Hf Hc Ha ->.
  cbn [all] in *. rewrite Hf in H5. injection H5 as <-. rewrite Hc in H6. injection H6 as <-.
  rewrite Ha in H3. injection H3 as <-. rewrite (append_bytes_spec _ _ _ _ _ _ Hf Hc).
  split; [done |]. cbn [all].
  exists (<[segment_name (Z.of_nat (length (older ++ [cur]))) := content ++ buf]> files), (content ++ buf), [].
  split_and!; try done.
  - apply lookup_insert_eq.
  - apply lookup_insert_eq.
  - by rewrite app_nil_r.
  - apply Forall2_insert_ne; [| done]. rewrite length_app, Nat.add_1_r in *. intros Hin.
    by eapply name_fresh.
  - intros nm. rewrite <- H9, lookup_insert_is_Some'. split; [| by right].
    intros [<- |]; [by eexists | done].
  - intros d Hd. rewrite lookup_insert_ne by done. by apply H10.
Qed.

Lemma open_next_ok w fs files n :
  unwrap_or ∅ (fs !! session_dir s) = files ->
  (forall nm, is_Some (files !! nm) <-> nm ∈ names n) ->
  SegmentWriter.active_segment_idx w = Z.of_nat n -> Z.of_nat (S n) < 10000 ->
  let nm := segment_name (Z.of_nat (S n)) in
  SegmentWriter.open_next_segment s (w, fs) =
    (Ok tt, (SegmentWriter.mk (SegmentWriter.max_segment_bytes w) (SegmentWriter.active_session w)
       (Z.of_nat (S n)) (Some (session_dir s, nm, [])) 0,
     <[session_dir s := <[nm := []]> files]> (<[session_dir s := files]> fs))).
Proof.
  intros Hf Hd Hi Hn. cbv zeta. unfold SegmentWriter.open_next_segment. rewrite Hi, Hf.
  assert (sat 0 u32_max (Z.of_nat n + 1) = Z.of_nat (S n)) as -> by (rewrite sat_id; unfold_ok; lia).
  destruct (files !! segment_name (Z.of_nat (S n))) eqn:E; [| done].
  exfalso. assert (segment_name (Z.of_nat (S n)) ∈ names n) as Hin by (apply Hd; by eexists).
  by eapply name_fresh.
Qed.

(** A fresh file and its first frame. *)
Lemma first_frame_inv w fs files n older r :
  length older = n -> Z.of_nat (S n) < 10000 ->
  SegmentWriter.max_segment_bytes w = max -> SegmentWriter.active_session w = Some s ->
  (forall nm, is_Some (files !! nm) <-> nm ∈ names n) ->
  Forall2 (fun nm c => files !! nm = Some (frames c)) (names n) older ->
  (forall d, d <> session_dir s -> fs !! d = fs0 !! d) ->
  let nm := segment_name (Z.of_nat (S n)) in
  inv (Some (older, [r]))
    (SegmentWriter.mk (SegmentWriter.max_segment_bytes w) (SegmentWriter.active_session w)
       (Z.of_nat (S n)) (Some (session_dir s, nm, [] ++ Framed.write_framed (encode_record r)))
       (u64_sat_add 0 (frame_size r)),
     <[session_dir s := <[nm := []]> files]> (<[session_dir s := files]> fs)).
Proof.
  intros Hl Hn Hm Hs Hd Hf Ho. cbv zeta. split; [done |]. cbn [all].
  assert (length (older ++ [[r]]) = S n) as Hlen by (rewrite length_app; simpl; lia). rewrite Hlen.
  exists (<[segment_name (Z.of_nat (S n)) := []]> files), [], ([] ++ Framed.write_framed (encode_record r)).
  split_and!; try done.
  - apply lookup_insert_eq.
  - apply lookup_insert_eq.
  - unfold frames. simpl. by rewrite app_nil_r.
  - rewrite Hl. subst n. apply Forall2_insert_ne; [| done]. intros Hin. by eapply name_fresh.
  - intros nm. rewrite lookup_insert_is_Some', Hd, names_S, elem_of_app, list_elem_of_singleton.
    split; [intros [<- |]; [by right | by left] | intros [|]; [by right | by left]].
  - intros d Hne. rewrite !lookup_insert_ne by done. by apply Ho.
Qed.

Lemma append_inv st r x : inv st x -> session_id r = s -> fs0 !! session_dir s = None ->
  Z.of_nat (length (all (seg_append max st r))) < 10000 ->
  exists p x', SegmentWriter.append encode_record r x = (Ok p, x') /\ inv (seg_append max st r) x'.
Proof.
  destruct x as [w fs]. intros Hi Hs H0 Hn. unfold SegmentWriter.append. rewrite Hs.
  change (4 + Z.of_nat (length (encode_record r))) with (frame_size r).
  destruct st as [[older cur] |]; cbn [seg_append] in *.
  - pose proof Hi as [Hm (files & content & buf & H1 & H2 & H3 & H4 & H5 & H6 & H7 & H8 & H9 & H10)].
    rewrite H1, bool_decide_eq_true_2 by done. rewrite H3, H4, Hm. cbn [negb is_some andb].
    destruct (max <? u64_sat_add (seg_bytes cur) (frame_size r)) eqn:Hov.
    + cbn [all] in *. rewrite length_app in Hn. simpl in Hn.
      assert (length (older ++ [cur]) = S (length older)) as Hlen by (rewrite length_app; simpl; lia).
      pose proof (spill_inv older cur w fs [] files content buf ltac:(lia) Hi H5 H6 H3 eq_refl)
        as [_ (files' & content' & buf' & _ & _ & E3 & _ & E5 & E6 & E7 & E8 & E9 & E10)].
      cbn [SegmentWriter.active_file all] in *. injection E3 as <-. rewrite app_nil_r in E7.
      unfold se_bind at 1, SegmentWriter.close_active. rewrite H3. cbv beta iota. unfold se_bind at 1.
      rewrite (open_next_ok _ _ files' (S (length older))); [| by rewrite E5 | by rewrite <- Hlen | | lia];
        [| cbn [SegmentWriter.active_segment_idx]; lia].
      cbv beta iota. unfold SegmentWriter.write_active at 1. cbn [SegmentWriter.active_file].
      eexists _, _. split; [reflexivity |].
      apply (first_frame_inv (SegmentWriter.mk (SegmentWriter.max_segment_bytes w)
        (SegmentWriter.active_session w) (SegmentWriter.active_segment_idx w) None 0)); try done; try lia.
      * by rewrite <- Hlen.
      * rewrite names_S. apply Forall2_app; [done |]. constructor; [| constructor].
        by rewrite <- Hlen, E6, <- E7.
    + unfold SegmentWriter.write_active. rewrite H3. eexists _, _. split; [reflexivity |].
      split; [done |]. cbn [all] in *.
      assert (length (older ++ [cur ++ [r]]) = length (older ++ [cur])) as -> by (by rewrite !length_app).
      exists files, content, (buf ++ Framed.write_framed (encode_record r)). split_and!; try done.
      * rewrite seg_bytes_snoc, <- H4. reflexivity.
      * by rewrite frames_snoc, (assoc_L (++)), H7.
  - destruct Hi as (Hm & Ha & Hf & ->). rewrite Ha, bool_decide_eq_false_2 by done. cbn [negb].
    unfold se_bind at 1, SegmentWriter.close_active. rewrite Hf. cbv beta iota.
    unfold se_bind at 1, SegmentWriter.set_session, se_modify. cbv beta iota. unfold se_bind at 1.
    rewrite (open_next_ok _ _ ∅ 0%nat); [| by rewrite H0 | | done | done];
      [| intros nm; rewrite lookup_empty, elem_of_nil; by split; [intros [] |]].
    cbv beta iota. unfold SegmentWriter.write_active at 1. cbn [SegmentWriter.active_file].
    eexists _, _. split; [reflexivity |].
    apply (first_frame_inv (SegmentWriter.mk (SegmentWriter.max_segment_bytes w) (Some s) 0 None 0));
      try done.
    intros nm. rewrite lookup_empty, elem_of_nil. by split; [intros [] |].
Qed.

Lemma flush_inv st x : inv st x -> Z.of_nat (length (all st)) < 10000 ->
  exists x', SegmentWriter.flush x = (Ok tt, x') /\ inv st x'.
Proof.
  destruct x as [w fs]. intros Hi Hn. unfold SegmentWriter.flush.
  destruct st as [[older cur] |].
  - pose proof Hi as [_ (files & content & buf & _ & _ & H3 & _ & H5 & H6 & _)].
    cbn [all] in *. rewrite H3. eexists. split; [reflexivity |]. by eapply spill_inv.
  - pose proof Hi as (_ & _ & Hf & _). rewrite Hf. by eexists.
Qed.

Lemma seg_append_length st r : (length (all st) <= length (all (seg_append max st r)))%nat.
Proof.
  destruct st as [[older cur] |]; simpl; [| lia].
  destruct (max <? _); simpl; rewrite !length_app; simpl; lia.
Qed.

Lemma segments_length ops : forall st,
  (length (all st) <= length (all (foldl (seg_step max) st ops)))%nat.
Proof.
  induction ops as [| [r |] ops IH]; intros st; simpl; [done | |].
  - pose proof (seg_append_length st r). specialize (IH (seg_append max st r)). lia.
  - apply IH.
Qed.

Lemma performs_inv ops : forall st x, inv st x -> fs0 !! session_dir s = None ->
  Forall (fun r => session_id r = s) (appended ops) ->
  Z.of_nat (length (all (foldl (seg_step max) st ops))) < 10000 ->
  exists x', performs ops x = (Ok tt, x') /\ inv (foldl (seg_step max) st ops) x'.
Proof.
  induction ops as [| o ops IH]; intros st x Hi H0 Hs Hn; [by eexists |].
  cbn [performs]. unfold se_bind at 1. simpl in Hn.
  pose proof (segments_length ops (seg_step max st o)) as Hlen.
  destruct o as [r |]; simpl in *.
  - apply Forall_cons in Hs as [Hr Hs].
    destruct (append_inv st r x Hi Hr H0 ltac:(lia)) as (p & x' & E & Hi').
    unfold se_bind at 1. rewrite E. simpl. by apply IH.
  - destruct (flush_inv st x Hi ltac:(lia)) as (x' & E & Hi'). rewrite E. by apply IH.
Qed.

(** Closing leaves the whole of every segment in its file. *)
Lemma close_holds st x : inv st x -> fs0 !! session_dir s = None ->
  Z.of_nat (length (all st)) < 10000 ->
  exists w' fs', SegmentWriter.close_active x = (Ok tt, (w', fs'))
  /\ (forall d, d <> session_dir s -> fs' !! d = fs0 !! d)
  /\ match fs' !! session_dir s with
     | None => all st = []
     | Some files => holds files (all st)
     end.
Proof.
  destruct x as [w fs]. intros Hi H0 Hn. unfold SegmentWriter.close_active.
  destruct st as [[older cur] |].
  - pose proof Hi as [_ (files & content & buf & _ & _ & H3 & _ & H5 & H6 & _)].
    cbn [all] in *. rewrite H3.
    pose proof (spill_inv older cur w fs [] files content buf Hn Hi H5 H6 H3 eq_refl)
      as [_ (files' & content' & buf' & _ & _ & E3 & _ & E5 & E6 & E7 & E8 & E9 & E10)].
    cbn [SegmentWriter.active_file all] in *. injection E3 as <-. rewrite app_nil_r in E7.
    eexists _, _. split; [reflexivity |]. split; [done |]. rewrite E5. split; [| done].
    rewrite length_app, Nat.add_1_r, names_S. apply Forall2_app; [done |].
    constructor; [| constructor]. rewrite length_app, Nat.add_1_r in E6. by rewrite E6, <- E7.
  - pose proof Hi as (_ & _ & Hf & ->). rewrite Hf. eexists _, _. split; [reflexivity |].
    split; [done |]. by rewrite H0.
Qed.

End invariant.

Lemma all_append max st r : concat (all (seg_append max st r)) = concat (all st) ++ [r].
Proof.
  destruct st as [[older cur] |]; simpl; [| done].
  destruct (max <? _); simpl; rewrite !concat_app; simpl; rewrite ?app_nil_r; [done |].
  by rewrite (assoc_L (++)).
Qed.

(** The segments, one after the other, are the records appended. *)
Lemma segment_concat max ops : concat (all (segment max ops)) = appended ops.
Proof.
  unfold segment. induction ops as [| o ops IH] using rev_ind; [done |].
  rewrite foldl_app. unfold appended in *. rewrite omap_app. destruct o as [r |]; simpl.
  - by rewrite all_append, IH.
  - by rewrite app_nil_r.
Qed.

(** A segment of more than one record fits the budget. *)
Lemma seg_bytes_exact max c : max < u64_max -> seg_bytes c <= max ->
  Z.of_nat (length (frames c)) <= max /\ Z.of_nat (length (frames c)) = seg_bytes c.
Proof.
  intros Hm. induction c as [| r c IH] using rev_ind; [by intros |].
  rewrite frames_snoc, seg_bytes_snoc, length_app. unfold Framed.write_framed.
  rewrite length_app, be_bytes_length. unfold frame_size. intros H.
  assert (0 <= seg_bytes c) as Hp.
  { clear. induction c as [| r c IH] using rev_ind; [done |]. rewrite seg_bytes_snoc. sat_lia. }
  assert (seg_bytes c + (4 + Z.of_nat (length (encode_record r))) <= max) as Hle.
  { unfold u64_sat_add in H. apply (sat_le_inv 0 u64_max); [| done]. split; [| done].
    etrans; [| exact H]. apply sat_range. unfold_ok. lia. }
  destruct IH as [_ IH]; [lia |]. sat_lia.
Qed.

Lemma segments_fit max ops : max < u64_max ->
  Forall (fun c => length c = 1%nat \/ Z.of_nat (length (frames c)) <= max) (all (segment max ops)).
Proof.
  intros Hm. eapply (Forall_impl (fun c => length c = 1%nat \/ seg_bytes c <= max)).
  - unfold segment. induction ops as [| o ops IH] using rev_ind; [constructor |].
    rewrite foldl_app. destruct o as [r |]; simpl; [| done].
    destruct (foldl (seg_step max) None ops) as [[older cur] |]; simpl in *.
    + apply Forall_app in IH as [IH1 IH2]. destruct (Z.ltb_spec max (u64_sat_add (seg_bytes cur) (frame_size r))).
      * simpl. rewrite !Forall_app. split_and!; [done | done | repeat constructor].
      * simpl. apply Forall_app. split; [done |]. constructor; [| constructor].
        right. by rewrite seg_bytes_snoc.
    + repeat constructor.
  - intros c [|]; [by left | right]. by apply seg_bytes_exact.
Qed.

End ledger.
End Ledger.

(** ** Reading a closed session back *)

Module ReadBack.
Section read_back.
Context (encode_record : ReplayRecord -> list Z) (decode_record : list Z -> option ReplayRecord)
  (short : string -> nat -> nat) (fs : file_system).

(** The codec gives a record back, and its archive fits the length prefix. *)
Definition good (r : ReplayRecord) : Prop :=
  decode_record (encode_record r) = Some r /\ Z.of_nat (length (encode_record r)) <= u32_max.

Abbreviation frames := (Ledger.frames encode_record).
Abbreviation next := (SegmentReader.next_record decode_record short fs).

Definition stored (path : string * string) (c : list ReplayRecord) : Prop :=
  SegmentReader.file fs path = Some (frames c).

(** The records a reader has still to deliver, segment by segment. *)
Definition pending (r : SegmentReader.t) (l : list (list ReplayRecord)) : Prop :=
  match SegmentReader.active r with
  | None => Forall2 stored (drop (SegmentReader.active_idx r) (SegmentReader.segments r)) l
  | Some rd =>
    exists cur rest, l = cur :: rest /\ Framed.data rd = frames cur
    /\ (SegmentReader.active_idx r < length (SegmentReader.segments r))%nat
    /\ Forall2 stored (drop (S (SegmentReader.active_idx r)) (SegmentReader.segments r)) rest
  end.

Lemma frames_cons x c : frames (x :: c) = Framed.write_framed (encode_record x) ++ frames c.
Proof. reflexivity. Qed.

Definition next_ok (fuel : nat) (r : SegmentReader.t) (l : list (list ReplayRecord)) : Prop :=
  match concat l with
  | [] => exists r', next fuel r = Some (Ok None, r')
  | x :: tl => exists r' l', next fuel r = Some (Ok (Some x), r') /\ pending r' l' /\ concat l' = tl
      /\ SegmentReader.segments r' = SegmentReader.segments r
  end.

(** One turn of the loop on an open segment. *)
Lemma next_open fuel r rd cur rest :
  (SegmentReader.active r = Some rd \/
   SegmentReader.active r = None /\ exists path bytes,
     SegmentReader.segments r !! SegmentReader.active_idx r = Some path
     /\ SegmentReader.file fs path = Some bytes /\ rd = Framed.mk_reader bytes 0 (short path.2)) ->
  Framed.data rd = frames cur ->
  (SegmentReader.active_idx r < length (SegmentReader.segments r))%nat ->
  Forall2 stored (drop (S (SegmentReader.active_idx r)) (SegmentReader.segments r)) rest ->
  Forall good cur ->
  (cur = [] -> next_ok fuel (SegmentReader.mk (SegmentReader.segments r) None (S (SegmentReader.active_idx r))) rest) ->
  next_ok (S fuel) r (cur :: rest).
Proof.
  intros Ho Hd Hi Hf Hg Hrec.
  assert (forall A (k : _ -> A) (d : A), match
      match SegmentReader.active r with
      | Some rd => Some (Ok rd)
      | None =>
        match SegmentReader.segments r !! SegmentReader.active_idx r with
        | None => None
        | Some path =>
          Some (match SegmentReader.file fs path with
                | Some bytes => Ok (Framed.mk_reader bytes 0 (short path.2))
                | None => Err NotFound
                end)
        end
      end with None => d | Some x => k x end = k (Ok rd)) as Hopen.
  { intros A k d. destruct Ho as [-> | [-> (path & bytes & -> & -> & ->)]]; done. }
  unfold next_ok. cbn [SegmentReader.next_record]. rewrite !Hopen. cbv beta iota.
  destruct rd as [data n sh]. cbn [Framed.data] in Hd. subst data.
  destruct cur as [| x cur].
  - destruct (Framed.read_framed_end n sh) as [k E]. change (frames []) with (@nil Z).
    rewrite !E. specialize (Hrec eq_refl). unfold next_ok in Hrec. simpl in Hrec |- *.
    destruct (concat rest); exact Hrec.
  - apply Forall_cons in Hg as [[codec size] _].
    rewrite frames_cons. destruct (Framed.read_framed_frame (encode_record x) (frames cur) n sh size)
      as [k E].
    rewrite !E. simpl. rewrite codec. eexists _, (cur :: rest). split; [reflexivity |].
    split; [| done]. simpl. by exists cur, rest.
Qed.

Lemma next_spec fuel : forall r l, pending r l -> Forall good (concat l) ->
  (length (SegmentReader.segments r) - SegmentReader.active_idx r < fuel)%nat -> next_ok fuel r l.
Proof.
  induction fuel as [| fuel IH]; intros r l Hp Hg Hf; [lia |].
  unfold pending in Hp. destruct (SegmentReader.active r) as [rd |] eqn:Ha.
  - destruct Hp as (cur & rest & -> & Hd & Hi & Hr).
    apply Forall_app in Hg as [Hg1 Hg2].
    eapply next_open; eauto. intros _. apply IH; [done | done | simpl; lia].
  - destruct (SegmentReader.segments r !! SegmentReader.active_idx r) as [path |] eqn:Hs.
    + pose proof (lookup_lt_Some _ _ _ Hs). rewrite (drop_S _ _ _ Hs) in Hp.
      apply Forall2_cons_inv_l in Hp as (cur & rest & Hc & Hr & ->).
      apply Forall_app in Hg as [Hg1 Hg2].
      eapply (next_open fuel r (Framed.mk_reader (frames cur) 0 (short path.2))); eauto.
      * right. split; [done |]. eexists path, _. done.
      * intros _. apply IH; [done | done | simpl; lia].
    + apply lookup_ge_None in Hs. rewrite drop_ge in Hp by done.
      apply Forall2_nil_inv_l in Hp as ->. unfold next_ok. simpl. rewrite Ha.
      rewrite (proj2 (lookup_ge_None _ _)) by done. by eexists.
Qed.

Lemma read_loop_spec fuel : forall r l out, pending r l -> Forall good (concat l) -> (length (concat l) < fuel)%nat ->
  SegmentReader.read_loop decode_record short fs fuel r out = Some (Ok (out ++ concat l)).
Proof.
  induction fuel as [| fuel IH]; intros r l out Hp Hg Hf; [lia |]. cbn [SegmentReader.read_loop].
  pose proof (next_spec (S (length (SegmentReader.segments r))) r l Hp Hg ltac:(lia)) as Hn.
  unfold next_ok in Hn. destruct (concat l) as [| x tl] eqn:Hc.
  - destruct Hn as [r' ->]. by rewrite app_nil_r.
  - destruct Hn as (r' & l' & -> & Hp' & Hc' & _). simpl in Hf.
    apply Forall_cons in Hg as [_ Hg].
    rewrite (IH r' l') by (done || rewrite Hc'; done || lia). by rewrite <- (assoc_L (++)), Hc'.
Qed.

(** The fuel of [read_all]: frames are not empty. *)
Lemma frames_length c : (length c <= length (frames c))%nat.
Proof.
  induction c as [| x c IH]; [done |]. rewrite frames_cons, length_app. simpl.
  assert (1 <= length (Framed.write_framed (encode_record x)))%nat; [| lia].
  unfold Framed.write_framed. rewrite length_app, be_bytes_length. lia.
Qed.

Lemma bytes_left_enough r l : Forall2 stored (SegmentReader.segments r) l ->
  (length (concat l) <= SegmentReader.bytes_left fs r)%nat.
Proof.
  unfold SegmentReader.bytes_left. induction 1 as [| p c ps l Hc Hl IH]; [done |]. csimpl.
  rewrite length_app. unfold stored in Hc. rewrite Hc. simpl. pose proof (frames_length c). lia.
Qed.

Lemma read_session session l : Forall good (concat l) ->
  Z.of_nat (length l) < 10000 ->
  match fs !! session_dir session with
  | None => l = []
  | Some files => Ledger.holds encode_record files l
  end ->
  let r := SegmentReader.open_session fs session in
  SegmentReader.segment_count r = length l
  /\ SegmentReader.read_all decode_record short fs r = Some (Ok (concat l)).
Proof.
  intros Hg Hl Hf. cbv zeta. unfold SegmentReader.open_session, SegmentReader.read_all, SegmentReader.segment_count.
  destruct (fs !! session_dir session) as [files |] eqn:E; [| by subst l].
  destruct Hf as [Hf Hd]. rewrite (sorted_names files (length l)) by done.
  set (r := SegmentReader.mk _ None 0).
  assert (Forall2 stored (SegmentReader.segments r) l) as Hs.
  { unfold r. simpl. apply Forall2_fmap_l. eapply Forall2_impl; [exact Hf |].
    intros nm c Hc. unfold stored, SegmentReader.file. simpl. rewrite E. exact Hc. }
  split.
  - apply Forall2_length in Hs. exact Hs.
  - apply (read_loop_spec _ r l []); [exact Hs | done |]. pose proof (bytes_left_enough r l Hs). lia.
Qed.

End read_back.
End ReadBack.

(** A session performed on a fresh directory, then closed, then read. *)
Lemma session_written encode_record decode_record short max session fs0 ops :
  Forall (ReadBack.good encode_record decode_record) (Ledger.appended ops) ->
  fs0 !! session_dir session = None ->
  Forall (fun r => session_id r = session) (Ledger.appended ops) ->
  let segments := Ledger.all (Ledger.segment encode_record max ops) in
  Z.of_nat (length segments) < 10000 ->
  exists w1 fs1 w2 fs2,
    Ledger.performs encode_record ops (SegmentWriter.new max, fs0) = (Ok tt, (w1, fs1))
    /\ SegmentWriter.close_active (w1, fs1) = (Ok tt, (w2, fs2))
    /\ SegmentReader.read_all decode_record short fs2 (SegmentReader.open_session fs2 session)
       = Some (Ok (Ledger.appended ops))
    /\ SegmentReader.segment_count (SegmentReader.open_session fs2 session) = length segments
    /\ (forall other, other <> session_dir session -> fs2 !! other = fs0 !! other).
Proof.
  intros Hg H0 Hs segments Hn. unfold segments in *. clear segments.
  destruct (Ledger.performs_inv encode_record session max fs0 ops None (SegmentWriter.new max, fs0))
    as ([w1 fs1] & E & Hi); try done.
  destruct (Ledger.close_holds encode_record session max fs0 _ _ Hi H0 Hn) as (w' & fs' & Ec & Ho & Hh).
  pose proof (ReadBack.read_session encode_record decode_record short fs' session
    _ ltac:(by rewrite Ledger.segment_concat) Hn Hh) as [Hc Hr].
  exists w1, fs1, w', fs'. split_and!; try done. by rewrite Hr, Ledger.segment_concat.
Qed.

(** C14: a session recorded by a writer that starts on a fresh directory, with flushes
    anywhere, then closed, reads back whole and in order, however the reads are cut, as
    long as it takes fewer than ten thousand segments; every append succeeds, a segment of
    more than one record fits the size budget, and no other session is touched. *)
Theorem replay_ledger_roundtrip
    (encode_record : ReplayRecord -> list Z) (decode_record : list Z -> option ReplayRecord)
    (short : string -> nat -> nat) (max session : Z) (fs0 : file_system) (ops : list Ledger.op) :
  Forall (ReadBack.good encode_record decode_record) (Ledger.appended ops) ->
  fs0 !! session_dir session = None ->
  Forall (fun r => session_id r = session) (Ledger.appended ops) ->
  let segments := Ledger.all (Ledger.segment encode_record max ops) in
  Z.of_nat (length segments) < 10000 ->
  exists w' fs',
    (Ledger.performs encode_record ops ;? SegmentWriter.close_active)%se (SegmentWriter.new max, fs0)
      = (Ok tt, (w', fs'))
    /\ SegmentReader.read_all decode_record short fs' (SegmentReader.open_session fs' session)
       = Some (Ok (Ledger.appended ops))
    /\ SegmentReader.segment_count (SegmentReader.open_session fs' session) = length segments
    /\ (forall other, other <> session_dir session -> fs' !! other = fs0 !! other)
    /\ (max < u64_max -> Forall (fun c => length c = 1%nat
         \/ Z.of_nat (length (Ledger.frames encode_record c)) <= max) segments).
Proof.
  intros Hg H0 Hs segments Hn. unfold segments in *. clear segments.
  destruct (session_written encode_record decode_record short max session fs0 ops)
    as (w1 & fs1 & w' & fs' & E & Ec & Hr & Hc & Ho); try done.
  exists w', fs'. split_and!; try done.
  - unfold se_bind. by rewrite E.
  - intros Hm. by apply Ledger.segments_fit.
Qed.

(** A toy codec and a budget of two frames: three records over two segments. *)
Module ReplaySample.
Definition rec (seq : Z) : ReplayRecord := mk_ReplayRecord 7 seq 0 0 RecordKind.Tick [1; 2].
Definition encode (r : ReplayRecord) : list Z := [session_id r; sequence_no r].
Definition decode (l : list Z) : option ReplayRecord :=
  match l with [7; seq] => Some (rec seq) | _ => None end.
Definition ops : list Ledger.op :=
  [Ledger.Append (rec 0); Ledger.Append (rec 1); Ledger.Flush; Ledger.Append (rec 2)].
End ReplaySample.

Lemma replay_ledger_roundtrip_witness : exists w' fs',
  (Ledger.performs ReplaySample.encode ReplaySample.ops ;? SegmentWriter.close_active)%se
    (SegmentWriter.new 12, ∅) = (Ok tt, (w', fs'))
  /\ SegmentReader.read_all ReplaySample.decode (fun _ _ => 0%nat) fs' (SegmentReader.open_session fs' 7)
     = Some (Ok [ReplaySample.rec 0; ReplaySample.rec 1; ReplaySample.rec 2])
  /\ SegmentReader.segment_count (SegmentReader.open_session fs' 7) = 2%nat.
Proof.
  destruct (replay_ledger_roundtrip ReplaySample.encode ReplaySample.decode (fun _ _ => 0%nat) 12 7 ∅
    ReplaySample.ops) as (w' & fs' & H1 & H2 & H3 & _).
  - repeat constructor; vm_compute; discriminate.
  - reflexivity.
  - by repeat constructor.
  - vm_compute. reflexivity.
  - exists w', fs'. split_and!; [exact H1 | exact H2 | exact H3].
Defined.

(** A writer that comes back to a session, or a new one for a session already on disk,
    refuses that record and every later one of the session: it always starts at the first
    segment, which exists. *)
Lemma append_to_existing_session_fails encode_record w fs r files :
  SegmentWriter.active_session w <> Some (session_id r) ->
  SegmentWriter.active_file w = None ->
  fs !! session_dir (session_id r) = Some files -> is_Some (files !! segment_name 1) ->
  exists x', SegmentWriter.append encode_record r (w, fs) = (Err AlreadyExists, x')
  /\ forall r', session_id r' = session_id r ->
     (SegmentWriter.append encode_record r' x').1 = Err AlreadyExists.
Proof.
  intros Hs Ha Hf [c Hc]. unfold SegmentWriter.append. rewrite bool_decide_eq_false_2 by done. cbn [negb].
  unfold se_bind at 1, SegmentWriter.close_active. rewrite Ha. cbv beta iota.
  unfold se_bind at 1, SegmentWriter.set_session, se_modify. cbv beta iota.
  unfold se_bind at 1, SegmentWriter.open_next_segment. rewrite Hf. cbn [unwrap_or SegmentWriter.active_segment_idx].
  change (sat 0 u32_max (0 + 1)) with 1. rewrite Hc. cbn [is_some]. cbv beta iota.
  eexists. split; [reflexivity |]. intros r' Hr'. rewrite Hr'.
  cbn [SegmentWriter.active_session SegmentWriter.active_file].
  rewrite bool_decide_eq_true_2 by done. cbn [negb is_some andb].
  unfold se_bind at 1, SegmentWriter.reset_idx, se_modify. cbv beta iota.
  unfold se_bind at 1, SegmentWriter.open_next_segment.
  rewrite lookup_insert_eq. cbn [unwrap_or SegmentWriter.active_segment_idx].
  change (sat 0 u32_max (0 + 1)) with 1. by rewrite Hc.
Qed.

(** Past 9999 segments the lexicographic order of the names is not their order. *)
Lemma segment_order_breaks_at_five_digits :
  String.leb (segment_name 10000) (segment_name 9999) = true.
Proof. reflexivity. Qed.
