(* ===== verification/ReplayPlayer.v ===== *)
(** The recorder and the player of crates/hedge-replay (recorder.rs, player.rs, error.rs),
    with the wire form of a record (command.rs) and the replay speeds of hedge-config.
    The outcome of the Redis append and the clock readings are arguments of a call; the
    random generator the player hands out is left out. *)

From S2P Require Import Prelude Bytes Replay ReplaySegments.

(** ** Errors (error.rs) *)

Module ReplayError.
Inductive t :=
| SegmentIo (source : io_error)
| Decode (msg : string)
| Bus (msg : string)
| SequenceInvariant (session expected got : Z)
| SeekNotFound (target : Z)
| BadCommand (msg : string)
| Config (msg : string).
End ReplayError.

Module ReplaySpeed.
Inductive t := X1 | X10 | Max.
Definition divisor (s : t) : option Z := match s with X1 => Some 1 | X10 => Some 10 | Max => None end.
Definition as_str (s : t) : string := match s with X1 => "x1" | X10 => "x10" | Max => "max" end.
End ReplaySpeed.

(** ** The recorder (recorder.rs) *)

Module Recorder.

Record t := mk {
  rec_session : Z;
  segment_writer : SegmentWriter.t;
  has_redis_sink : bool;
  next_seq : Z;
  bytes_written : Z;
  records_appended : Z;
}.

Definition new (session max_segment_bytes : Z) : t :=
  mk session (SegmentWriter.new max_segment_bytes) false 0 0 0.
(** [with_redis], [attach_redis]. *)
Definition attach_redis (r : t) : t :=
  mk (rec_session r) (segment_writer r) true (next_seq r) (bytes_written r) (records_appended r).

Section recorder.
Context (encode_record : ReplayRecord -> list Z).

Definition io := SE (t * file_system) ReplayError.t.

Definition set_writer (r : t) (w : SegmentWriter.t) : t :=
  mk (rec_session r) w (has_redis_sink r) (next_seq r) (bytes_written r) (records_appended r).

(** Runs an operation of the writer, wrapping its error in [segment_io]. *)
Definition on_writer {A} (m : SegmentWriter.io A) : io A := fun '(r, fs) =>
  let '(res, (w, fs)) := m (segment_writer r, fs) in
  (map_err ReplayError.SegmentIo res, (set_writer r w, fs)).

Definition flush : io unit := on_writer SegmentWriter.flush.

Definition add_bytes (n : Z) : io unit := se_modify (fun '(r, fs) =>
  (mk (rec_session r) (segment_writer r) (has_redis_sink r) (next_seq r)
     (u64_sat_add (bytes_written r) n) (records_appended r), fs)).
Definition commit : io Z := fun '(r, fs) =>
  (Ok (next_seq r), (mk (rec_session r) (segment_writer r) (has_redis_sink r)
     (u64_sat_add (next_seq r) 1) (bytes_written r) (u64_sat_add (records_appended r) 1), fs)).

(** [redis] is what [xadd_bytes] returns, if it is reached: [None] is success. *)
Definition record_raw (record : ReplayRecord) (redis : option string) : io Z := fun '(r, fs) =>
  if negb (sequence_no record =? next_seq r) then
    (Err (ReplayError.SequenceInvariant (rec_session r) (next_seq r) (sequence_no record)), (r, fs))
  else if negb (session_id record =? rec_session r) then
    (Err (ReplayError.Config ("record.session_id (" +:+ pretty (session_id record)
       +:+ ") does not match recorder.session_id (" +:+ pretty (rec_session r) +:+ ")")), (r, fs))
  else
    (on_writer (SegmentWriter.append encode_record record) ;?
     add_bytes (4 + Z.of_nat (length (encode_record record))) ;?
     (match (if has_redis_sink r then redis else None) with
      | Some e => se_fail (ReplayError.Bus e)
      | None => se_ret tt
      end) ;?
     commit)%se (r, fs).

(** A call of [record], with the two clocks it reads. *)
Record call := mk_call {
  call_kind : RecordKind.t;
  call_payload : list Z;
  call_monotonic_ns : Z;
  call_wallclock_utc : Z;
  call_redis : option string;
}.

Definition record (c : call) : io Z := fun '(r, fs) =>
  record_raw (mk_ReplayRecord (rec_session r) (next_seq r) (call_monotonic_ns c)
    (call_wallclock_utc c) (call_kind c) (call_payload c)) (call_redis c) (r, fs).

Definition active_segment_path (r : t) : option (string * string) :=
  if SegmentWriter.active_segment_idx (segment_writer r) =? 0 then None
  else
    s ← SegmentWriter.active_session (segment_writer r);
    Some (session_dir s, segment_name (SegmentWriter.active_segment_idx (segment_writer r))).

(** A caller that goes on after an error, as the recording task does, then drops the
    recorder; the results are kept. *)
Fixpoint records (calls : list call) (x : t * file_system) :
    list (result Z ReplayError.t) * (t * file_system) :=
  match calls with
  | [] => ([], x)
  | c :: calls =>
    let '(res, x) := record c x in
    let '(rest, x) := records calls x in (res :: rest, x)
  end.

(** What a session's ledger receives: a call whose Redis append failed has written its
    record, but its number is used again. *)
Definition committed (sink : bool) (c : call) : bool :=
  negb (sink && is_some (call_redis c)).
Definition call_record (session seq : Z) (c : call) : ReplayRecord :=
  mk_ReplayRecord session seq (call_monotonic_ns c) (call_wallclock_utc c) (call_kind c) (call_payload c).
Fixpoint numbered (sink : bool) (session seq : Z) (calls : list call) : list ReplayRecord :=
  match calls with
  | [] => []
  | c :: calls =>
    call_record session seq c ::
    numbered sink session (if committed sink c then seq + 1 else seq) calls
  end.

End recorder.
End Recorder.

(** ** The player (player.rs) *)

Module Player.

Record t := mk {
  pl_session : Z;
  pl_records : list ReplayRecord;
  cursor : nat;
  default_speed : ReplaySpeed.t;
}.

(** The loop over [records.iter().enumerate()]: the first misnumbered record. *)
Fixpoint check_sequence (session : Z) (i : Z) (l : list ReplayRecord) : result unit ReplayError.t :=
  match l with
  | [] => Ok tt
  | r :: l =>
    if negb (sequence_no r =? i)
    then Err (ReplayError.SequenceInvariant session i (sequence_no r))
    else check_sequence session (i + 1) l
  end.

Definition from_records (session : Z) (records : list ReplayRecord) (speed : ReplaySpeed.t) :
    result t ReplayError.t :=
  match check_sequence session 0 records with
  | Ok _ => Ok (mk session records 0 speed)
  | Err e => Err e
  end.

(** [open]; the outer option is the fuel of the reader's loops. *)
Definition open (decode_record : list Z -> option ReplayRecord) (short : string -> nat -> nat)
    (fs : file_system) (session : Z) (speed : ReplaySpeed.t) : option (result t ReplayError.t) :=
  match SegmentReader.read_all decode_record short fs (SegmentReader.open_session fs session) with
  | None => None
  | Some (Err e) => Some (Err (ReplayError.SegmentIo e))
  | Some (Ok records) => Some (from_records session records speed)
  end.

Definition total_records (p : t) : nat := length (pl_records p).
Definition at_end (p : t) : bool := (length (pl_records p) <=? cursor p)%nat.

Definition set_cursor (p : t) (n : nat) : t := mk (pl_session p) (pl_records p) n (default_speed p).

Definition step (p : t) : option ReplayRecord * t :=
  match pl_records p !! cursor p with
  | None => (None, p)
  | Some r => (Some r, set_cursor p (S (cursor p)))
  end.

(** [binary_search_by_key] finds the record of that number: numbers are distinct, so
    which one of several it would be does not matter. *)
Definition search (target : Z) (l : list ReplayRecord) : option nat :=
  fst <$> list_find (fun r => sequence_no r = target) l.
Definition seek (p : t) (target : Z) : result unit ReplayError.t * t :=
  if Z.of_nat (length (pl_records p)) <? target then (Err (ReplayError.SeekNotFound target), p)
  else
    match search target (pl_records p) with
    | Some idx => (Ok tt, set_cursor p idx)
    | None =>
      if target =? Z.of_nat (length (pl_records p))
      then (Ok tt, set_cursor p (length (pl_records p)))
      else (Err (ReplayError.SeekNotFound target), p)
    end.

Definition rewind (p : t) : t := set_cursor p 0.

End Player.

Module PacedReplay.

(** [sleep] is the deadline of the timer it is parked on. *)
Record t := mk {
  player : Player.t;
  speed : ReplaySpeed.t;
  sleep : option Z;
  last_monotonic_ns : option Z;
}.
Inductive poll := Ready (item : option ReplayRecord) | Pending.

Definition play (p : Player.t) (speed : ReplaySpeed.t) : t := mk p speed None None.

(** The delay computed when [next] is released after a record stamped [last]. *)
Definition delay (speed : ReplaySpeed.t) (last : option Z) (next : ReplayRecord) : Z :=
  match ReplaySpeed.divisor speed, last with
  | None, _ => 0
  | Some _, None => 0
  | Some div, Some prev => if prev <? monotonic_ns next then (monotonic_ns next - prev) / div else 0
  end.

(** [poll_next] at the instant [now]. *)
Definition poll_next (s : t) (now : Z) : poll * t :=
  if (match sleep s with Some deadline => now <? deadline | None => false end) then (Pending, s)
  else
    match Player.step (player s) with
    | (None, p) => (Ready None, mk p (speed s) None (last_monotonic_ns s))
    | (Some next, p) =>
      let d := delay (speed s) (last_monotonic_ns s) next in
      (Ready (Some next),
       mk p (speed s) (if d =? 0 then None else Some (now + d)) (Some (monotonic_ns next)))
    end.

(** The records released by polls at the given instants, with the instant of each. *)
Fixpoint releases (s : t) (times : list Z) : list (Z * ReplayRecord) :=
  match times with
  | [] => []
  | now :: times =>
    match poll_next s now with
    | (Ready (Some r), s) => (now, r) :: releases s times
    | (_, s) => releases s times
    end
  end.

End PacedReplay.

(** ** Recording then replaying *)

Module RecorderFacts.
Section facts.
Context (encode_record : ReplayRecord -> list Z).

(** The result of each call, as long as the disk accepts every record. *)
Fixpoint results (sink : bool) (seq : Z) (calls : list Recorder.call) : list (result Z ReplayError.t) :=
  match calls with
  | [] => []
  | c :: calls =>
    if Recorder.committed sink c then Ok seq :: results sink (seq + 1) calls
    else Err (ReplayError.Bus (unwrap_or EmptyString (Recorder.call_redis c))) :: results sink seq calls
  end.

Definition appends (sink : bool) (session seq : Z) (calls : list Recorder.call) : list Ledger.op :=
  Ledger.Append <$> Recorder.numbered sink session seq calls.

Lemma appended_appends sink session seq calls :
  Ledger.appended (appends sink session seq calls) = Recorder.numbered sink session seq calls.
Proof.
  unfold appends, Ledger.appended. generalize (Recorder.numbered sink session seq calls). intros l.
  induction l as [| r l IH]; [done |]. csimpl. by rewrite IH.
Qed.

Lemma numbered_session sink session seq calls :
  Forall (fun r => session_id r = session) (Recorder.numbered sink session seq calls).
Proof. revert seq. induction calls; intros seq; simpl; constructor; [done | auto]. Qed.

(** One call on a disk that accepts the record. *)
Lemma record_step r fs c p w1 fs1 :
  0 <= Recorder.next_seq r < u64_max ->
  SegmentWriter.append encode_record
    (Recorder.call_record (Recorder.rec_session r) (Recorder.next_seq r) c) (Recorder.segment_writer r, fs)
    = (Ok p, (w1, fs1)) ->
  exists r1, Recorder.record encode_record c (r, fs) =
    ((if Recorder.committed (Recorder.has_redis_sink r) c then Ok (Recorder.next_seq r)
      else Err (ReplayError.Bus (unwrap_or EmptyString (Recorder.call_redis c)))), (r1, fs1))
  /\ Recorder.segment_writer r1 = w1 /\ Recorder.rec_session r1 = Recorder.rec_session r
  /\ Recorder.has_redis_sink r1 = Recorder.has_redis_sink r
  /\ Recorder.next_seq r1 =
     if Recorder.committed (Recorder.has_redis_sink r) c then Recorder.next_seq r + 1
     else Recorder.next_seq r.
Proof.
  intros Hn E. unfold Recorder.record, Recorder.record_raw. cbn [sequence_no session_id].
  rewrite !Z.eqb_refl. cbn [negb]. fold (Recorder.call_record (Recorder.rec_session r) (Recorder.next_seq r) c).
  unfold se_bind at 1, Recorder.on_writer. rewrite E. cbn [map_err].
  unfold se_bind at 1, Recorder.add_bytes, se_modify. cbv beta iota.
  unfold se_bind, Recorder.committed. cbn [Recorder.has_redis_sink Recorder.set_writer].
  assert (u64_sat_add (Recorder.next_seq r) 1 = Recorder.next_seq r + 1) as Hs by sat_lia.
  destruct (Recorder.has_redis_sink r); [destruct (Recorder.call_redis c) as [e |] |]; cbn;
    eexists; split_and!; try reflexivity; exact Hs.
Qed.

Lemma records_perform calls : forall r fs w' fs',
  0 <= Recorder.next_seq r -> Recorder.next_seq r + Z.of_nat (length calls) <= u64_max ->
  Ledger.performs encode_record
    (appends (Recorder.has_redis_sink r) (Recorder.rec_session r) (Recorder.next_seq r) calls)
    (Recorder.segment_writer r, fs) = (Ok tt, (w', fs')) ->
  exists r', Recorder.records encode_record calls (r, fs)
    = (results (Recorder.has_redis_sink r) (Recorder.next_seq r) calls, (r', fs'))
  /\ Recorder.segment_writer r' = w'.
Proof.
  induction calls as [| c calls IH]; intros r fs w' fs' H0 Hn E.
  - simpl in E. injection E as <- <-. exists r. done.
  - cbn [length] in Hn. unfold appends in E. cbn [Recorder.numbered] in E. csimpl in E.
    unfold se_bind at 1 in E. unfold Ledger.perform in E. unfold se_bind at 1 in E.
    destruct (SegmentWriter.append _ _ _) as [[p | e] [w1 fs1]] eqn:Ea; [| done].
    destruct (record_step r fs c p w1 fs1 ltac:(lia) Ea) as (r1 & Er & Hw & Hs & Hr & Hseq).
    cbn [Recorder.records]. rewrite Er. simpl in E.
    destruct (IH r1 fs1 w' fs') as (r' & Ei & Hw').
    + rewrite Hseq. destruct (Recorder.committed _ _); lia.
    + rewrite Hseq. destruct (Recorder.committed _ _); lia.
    + rewrite Hw, Hs, Hr, Hseq. exact E.
    + rewrite Ei. exists r'. split; [| done]. rewrite Hr, Hseq. cbn [results].
      by destruct (Recorder.committed _ _).
Qed.

(** The player accepts the ledger exactly when no number was used twice. *)
Lemma check_numbered sink session calls : forall seq,
  Player.check_sequence session seq (Recorder.numbered sink session seq calls) = Ok tt <->
  Forall (fun c => Recorder.committed sink c = true) (removelast calls).
Proof.
  induction calls as [| c calls IH]; intros seq; [split; [constructor | done] |].
  cbn [Recorder.numbered Player.check_sequence Recorder.call_record sequence_no].
  rewrite Z.eqb_refl. cbn [negb]. destruct calls as [| c' calls]; [split; [constructor | done] |].
  change (removelast (c :: c' :: calls)) with (c :: removelast (c' :: calls)).
  rewrite Forall_cons. destruct (Recorder.committed sink c) eqn:Hc.
  - rewrite IH. split; [by intros | by intros []].
  - split; [| by intros [? _]]. cbn [Recorder.numbered Player.check_sequence Recorder.call_record sequence_no].
    destruct (Z.eqb_spec seq (seq + 1)); [lia | done].
Qed.

Lemma check_error session l : forall i, Player.check_sequence session i l = Ok tt \/
  exists e, Player.check_sequence session i l = Err e.
Proof.
  induction l as [| r l IH]; intros i; simpl; [by left |].
  destruct (negb _); [right; by eexists | apply IH].
Qed.

End facts.
End RecorderFacts.

(** C33: a recorder that starts a session on a fresh directory assigns the numbers 0, 1, 2,
    ... to the calls that succeed and writes every record to disk, also those whose live
    append then failed; once it is dropped, the player opens the session, with exactly the
    records written, if and only if no call before the last one had a failed live append. *)
Theorem recorded_session_replays
    (encode_record : ReplayRecord -> list Z) (decode_record : list Z -> option ReplayRecord)
    (short : string -> nat -> nat) (max session : Z) (fs0 : file_system) (sink : bool)
    (calls : list Recorder.call) (speed : ReplaySpeed.t) :
  let r0 := if sink then Recorder.attach_redis (Recorder.new session max) else Recorder.new session max in
  let written := Recorder.numbered sink session 0 calls in
  Forall (ReadBack.good encode_record decode_record) written ->
  fs0 !! session_dir session = None -> Z.of_nat (length calls) <= u64_max ->
  Z.of_nat (length (Ledger.all (Ledger.segment encode_record max (Ledger.Append <$> written)))) < 10000 ->
  exists r1 fs1 w2 fs2,
    Recorder.records encode_record calls (r0, fs0) = (RecorderFacts.results sink 0 calls, (r1, fs1))
    /\ SegmentWriter.close_active (Recorder.segment_writer r1, fs1) = (Ok tt, (w2, fs2))
    /\ (Player.open decode_record short fs2 session speed = Some (Ok (Player.mk session written 0 speed))
       <-> Forall (fun c => Recorder.committed sink c = true) (removelast calls))
    /\ ((exists e, Player.open decode_record short fs2 session speed = Some (Err e))
       <-> ~ Forall (fun c => Recorder.committed sink c = true) (removelast calls)).
Proof.
  intros r0 written Hg H0 Hc Hn.
  assert (Recorder.segment_writer r0 = SegmentWriter.new max /\ Recorder.rec_session r0 = session
    /\ Recorder.has_redis_sink r0 = sink /\ Recorder.next_seq r0 = 0) as (Hw & Hs & Hr & Hq)
    by (unfold r0; by destruct sink).
  clearbody r0. unfold written in Hg, Hn. rewrite <- (RecorderFacts.appended_appends sink session 0 calls) in Hg.
  destruct (session_written encode_record decode_record short max session fs0
    (RecorderFacts.appends sink session 0 calls)) as (w1 & fs1 & w2 & fs2 & E & Ec & Hread & _ & _);
    try done.
  { rewrite RecorderFacts.appended_appends. apply RecorderFacts.numbered_session. }
  rewrite RecorderFacts.appended_appends in Hread.
  rewrite <- Hw in E. rewrite <- Hr, <- Hs, <- Hq in E at 1.
  destruct (RecorderFacts.records_perform encode_record calls r0 fs0 w1 fs1) as (r1 & Er & Hw1);
    [lia | lia | exact E |].
  rewrite Hr, Hq in Er. exists r1, fs1, w2, fs2. rewrite Hw1. split_and!; try done.
  - unfold Player.open. rewrite Hread. unfold Player.from_records.
    rewrite <- (RecorderFacts.check_numbered sink session calls 0).
    destruct (Player.check_sequence _ _ _) as [[] | e]; [done |]. split; [| done]. congruence.
  - unfold Player.open. rewrite Hread. unfold Player.from_records.
    rewrite <- (RecorderFacts.check_numbered sink session calls 0). fold written.
    destruct (RecorderFacts.check_error session written 0) as [-> | [e ->]].
    + split; [by intros [] | done].
    + split; [done | intros _; by eexists].
Qed.

(** Three calls, the last of which loses its live append. *)
Module RecorderSample.
Definition call (redis : option string) : Recorder.call :=
  Recorder.mk_call RecordKind.Tick [1; 2] 0 0 redis.
Definition calls : list Recorder.call := [call None; call None; call (Some "unreachable")].
End RecorderSample.

Lemma recorded_session_replays_witness : exists r1 fs1 w2 fs2,
  Recorder.records ReplaySample.encode RecorderSample.calls
      (Recorder.attach_redis (Recorder.new 7 12), ∅)
    = ([Ok 0; Ok 1; Err (ReplayError.Bus "unreachable")], (r1, fs1))
  /\ SegmentWriter.close_active (Recorder.segment_writer r1, fs1) = (Ok tt, (w2, fs2))
  /\ Player.open ReplaySample.decode (fun _ _ => 0%nat) fs2 7 ReplaySpeed.X1
     = Some (Ok (Player.mk 7 [ReplaySample.rec 0; ReplaySample.rec 1; ReplaySample.rec 2] 0 ReplaySpeed.X1)).
Proof.
  destruct (recorded_session_replays ReplaySample.encode ReplaySample.decode (fun _ _ => 0%nat) 12 7 ∅ true
    RecorderSample.calls ReplaySpeed.X1) as (r1 & fs1 & w2 & fs2 & H1 & H2 & [_ H3] & _).
  - repeat constructor; vm_compute; discriminate.
  - reflexivity.
  - vm_compute. discriminate.
  - vm_compute. reflexivity.
  - exists r1, fs1, w2, fs2. split_and!; [exact H1 | exact H2 |]. apply H3. repeat constructor.
Defined.

(** ** Pacing *)

Module PacedFacts.
Import PacedReplay.

(** Every release waits out the delay computed at the one before it. *)
Fixpoint paced (speed : ReplaySpeed.t) (last : option Z) (rel : list (Z * ReplayRecord)) : Prop :=
  match rel with
  | [] => True
  | (t1, r1) :: rest =>
    match rest with (t2, _) :: _ => t1 + delay speed last r1 <= t2 | [] => True end
    /\ paced speed (Some (monotonic_ns r1)) rest
  end.

Definition remaining (p : Player.t) : list ReplayRecord := drop (Player.cursor p) (Player.pl_records p).

Lemma step_spec p : Player.step p =
  match remaining p with
  | [] => (None, p)
  | r :: _ => (Some r, Player.set_cursor p (S (Player.cursor p)))
  end.
Proof.
  unfold Player.step, remaining. destruct (Player.pl_records p !! Player.cursor p) eqn:E.
  - by rewrite (drop_S _ _ _ E).
  - apply lookup_ge_None in E. by rewrite drop_ge.
Qed.

Lemma remaining_step p r l : remaining p = r :: l ->
  remaining (Player.set_cursor p (S (Player.cursor p))) = l.
Proof.
  unfold remaining. intros E. simpl. rewrite <- Nat.add_1_r, <- drop_drop, E. done.
Qed.

Lemma delay_nonneg speed last r : 0 <= delay speed last r.
Proof.
  unfold delay. destruct speed, last as [prev |]; simpl; try done;
    destruct (Z.ltb_spec prev (monotonic_ns r)); try done; apply Z.div_pos; lia.
Qed.

Lemma releases_cons s now times :
  releases s (now :: times) =
  match poll_next s now with
  | (Ready (Some r), s) => (now, r) :: releases s times
  | (_, s) => releases s times
  end.
Proof. reflexivity. Qed.

Lemma poll_cases s now :
  (exists d, sleep s = Some d /\ now < d /\ poll_next s now = (Pending, s))
  \/ ((forall d, sleep s = Some d -> d <= now) /\
     ((remaining (player s) = [] /\
       poll_next s now = (Ready None, mk (player s) (speed s) None (last_monotonic_ns s)))
      \/ exists r l, remaining (player s) = r :: l /\
        poll_next s now =
          (Ready (Some r), mk (Player.set_cursor (player s) (S (Player.cursor (player s)))) (speed s)
            (if delay (speed s) (last_monotonic_ns s) r =? 0 then None
             else Some (now + delay (speed s) (last_monotonic_ns s) r)) (Some (monotonic_ns r))))).
Proof.
  unfold poll_next. destruct (sleep s) as [d |] eqn:Hs.
  - destruct (Z.ltb_spec now d); [left; by exists d |]. right. split; [intros ? [= <-]; done |].
    rewrite step_spec. destruct (remaining (player s)) as [| r l] eqn:Hr; [by left | right; by exists r, l].
  - right. split; [done |].
    rewrite step_spec. destruct (remaining (player s)) as [| r l] eqn:Hr; [by left | right; by exists r, l].
Qed.

Lemma releases_in_order times : forall s, StronglySorted Z.le times ->
  (releases s times).*2 = take (length (releases s times)) (remaining (player s))
  /\ paced (speed s) (last_monotonic_ns s) (releases s times)
  /\ (forall d t r rest, sleep s = Some d -> releases s times = (t, r) :: rest -> d <= t)
  /\ Forall (fun x => x.1 ∈ times) (releases s times).
Proof.
  induction times as [| now times IH]; intros s Ht; [done |].
  apply StronglySorted_inv in Ht as [Ht Hnow]. rewrite releases_cons.
  assert (forall l : list (Z * ReplayRecord), Forall (fun x => x.1 ∈ times) l ->
    Forall (fun x => x.1 ∈ now :: times) l) as Hmono.
  { intros l Hl. eapply Forall_impl; [exact Hl |]. intros x Hx. by right. }
  destruct (poll_cases s now) as [(d & Hd & Hlt & ->) | [Hs [[Hr ->] | (r & l & Hr & ->)]]].
  - destruct (IH s Ht) as (H1 & H2 & H3 & H4). auto.
  - set (s' := mk _ _ _ _). destruct (IH s' Ht) as (H1 & H2 & H3 & H4).
    assert (releases s' times = []) as E.
    { simpl in H1. rewrite Hr in H1. rewrite take_nil in H1. by apply fmap_nil_inv in H1. }
    rewrite E. rewrite Hr. split_and!; done.
  - set (s' := mk _ _ _ _). destruct (IH s' Ht) as (H1 & H2 & H3 & H4).
    assert (remaining (player s') = l) as Hl by exact (remaining_step _ _ _ Hr).
    rewrite Hl in H1. rewrite Hr. csimpl. split_and!.
    + by rewrite H1 at 1.
    + destruct (releases s' times) as [| [t2 r2] rest] eqn:E; [done |].
      destruct (Z.eqb_spec (delay (speed s) (last_monotonic_ns s) r) 0) as [Hz | Hz].
      * rewrite Hz. apply Forall_cons in H4 as [H4 _]. simpl in H4.
        rewrite Forall_forall in Hnow. specialize (Hnow t2 H4). lia.
      * apply (H3 _ t2 r2 rest); [| done]. unfold s'. simpl.
        by destruct (Z.eqb_spec (delay (speed s) (last_monotonic_ns s) r) 0).
    + exact H2.
    + intros d t r' rest Hsl [= <- <- <-]. by apply Hs.
    + constructor; [by left | by apply Hmono].
Qed.

(** Without pacing every poll releases. *)
Lemma releases_max times : forall s, speed s = ReplaySpeed.Max -> sleep s = None ->
  releases s times = zip times (remaining (player s)).
Proof.
  induction times as [| now times IH]; intros s Hsp Hsl; [done |]. rewrite releases_cons.
  destruct (poll_cases s now) as [(d & Hd & _) | [_ [[Hr ->] | (r & l & Hr & ->)]]]; [congruence | |].
  - rewrite IH by done. simpl. rewrite Hr. by destruct times.
  - rewrite IH; [| done | by simpl; rewrite Hsp]. simpl. rewrite Hr.
    by rewrite (remaining_step _ _ _ Hr).
Qed.
End PacedFacts.

(** Whatever the instants a stream is polled at, it releases the records from the
    cursor on, each once and in order; a release waits at least the delay computed at the
    one before it (the recorded gap that ends there, divided by the speed), and without
    pacing every poll releases a record until none is left. *)
Theorem paced_replay_in_order (p : Player.t) (speed : ReplaySpeed.t) (times : list Z) :
  StronglySorted Z.le times ->
  let rel := PacedReplay.releases (PacedReplay.play p speed) times in
  rel.*2 = take (length rel) (drop (Player.cursor p) (Player.pl_records p))
  /\ PacedFacts.paced speed None rel
  /\ (speed = ReplaySpeed.Max -> rel = zip times (drop (Player.cursor p) (Player.pl_records p))).
Proof.
  intros Ht rel. destruct (PacedFacts.releases_in_order times (PacedReplay.play p speed) Ht)
    as (H1 & H2 & _). split_and!; [exact H1 | exact H2 |].
  intros Hs. by apply PacedFacts.releases_max.
Qed.

Module PlayerSample.
Definition rec (seq ns : Z) : ReplayRecord := mk_ReplayRecord 7 seq ns 0 RecordKind.Tick [].
Definition player : Player.t :=
  Player.mk 7 [rec 0 0; rec 1 1000; rec 2 1010; rec 3 5000] 0 ReplaySpeed.X1.
End PlayerSample.

Lemma paced_replay_in_order_witness :
  PacedReplay.releases (PacedReplay.play PlayerSample.player ReplaySpeed.X1) [0; 0; 10; 1000; 1005; 1010]
  = [(0, PlayerSample.rec 0 0); (0, PlayerSample.rec 1 1000); (1000, PlayerSample.rec 2 1010);
     (1010, PlayerSample.rec 3 5000)]
  /\ PacedFacts.paced ReplaySpeed.X1 None
      (PacedReplay.releases (PacedReplay.play PlayerSample.player ReplaySpeed.X1) [0; 0; 10; 1000; 1005; 1010]).
Proof.
  split; [reflexivity |]. refine (proj1 (proj2 (paced_replay_in_order _ _ _ _))).
  repeat constructor; done.
Defined.

(** The gap that ends at a record delays the next one, not the record: the first two come
    out together however far apart they were recorded. *)
Lemma first_recorded_gap_is_not_waited p speed t r0 r1 l :
  drop (Player.cursor p) (Player.pl_records p) = r0 :: r1 :: l ->
  PacedReplay.releases (PacedReplay.play p speed) [t; t] = [(t, r0); (t, r1)].
Proof.
  intros E. unfold PacedReplay.play. rewrite !PacedFacts.releases_cons. unfold PacedReplay.poll_next at 1.
  cbn [PacedReplay.sleep PacedReplay.player]. rewrite PacedFacts.step_spec. unfold PacedFacts.remaining.
  rewrite E. assert (PacedReplay.delay speed None r0 = 0) as Hd by (by destruct speed).
  cbn [PacedReplay.speed PacedReplay.last_monotonic_ns]. rewrite Hd. cbn [Z.eqb].
  rewrite PacedFacts.releases_cons. unfold PacedReplay.poll_next.
  cbn [PacedReplay.sleep PacedReplay.player]. rewrite PacedFacts.step_spec.
  by rewrite (PacedFacts.remaining_step p r0 (r1 :: l)).
Qed.

(** A numbered ledger can be entered at any of its numbers, and at its end. *)
Lemma seek_spec p target : Player.check_sequence (Player.pl_session p) 0 (Player.pl_records p) = Ok tt ->
  0 <= target -> Player.seek p target =
    if target <=? Z.of_nat (length (Player.pl_records p))
    then (Ok tt, Player.set_cursor p (Z.to_nat target))
    else (Err (ReplayError.SeekNotFound target), p).
Proof.
  intros Hc Ht.
  assert (forall l i, Player.check_sequence (Player.pl_session p) i l = Ok tt -> i <= target ->
    Player.search target l =
      if target <? i + Z.of_nat (length l) then Some (Z.to_nat (target - i)) else None) as Hs.
  { unfold Player.search. clear. induction l as [| r l IH]; intros i Hc Hi.
    - rewrite (proj2 (Z.ltb_ge target (i + Z.of_nat (length [])))) by (cbn; lia). done.
    - cbn [Player.check_sequence] in Hc. destruct (Z.eqb_spec (sequence_no r) i) as [Hr |]; [| done].
      cbn [negb] in Hc. cbn [list_find length]. case_decide as Hd.
      + simpl. destruct (Z.ltb_spec target (i + Z.of_nat (S (length l)))); [| lia].
        by replace (target - i) with 0 by lia.
      + assert (forall o : option (nat * ReplayRecord), fst <$> (prod_map S id <$> o) = S <$> (fst <$> o))
          as -> by (by intros [[]|]).
        rewrite (IH (i + 1) Hc ltac:(lia)).
        destruct (Z.ltb_spec target (i + 1 + Z.of_nat (length l))),
          (Z.ltb_spec target (i + Z.of_nat (S (length l)))); try lia; [| done].
        simpl. f_equal. lia. }
  unfold Player.seek. rewrite (Hs _ 0 Hc Ht), Z.sub_0_r.
  destruct (Z.ltb_spec (Z.of_nat (length (Player.pl_records p))) target),
    (Z.leb_spec target (Z.of_nat (length (Player.pl_records p)))); try lia; [done |].
  destruct (Z.ltb_spec target (0 + Z.of_nat (length (Player.pl_records p)))); [done |].
  destruct (Z.eqb_spec target (Z.of_nat (length (Player.pl_records p)))) as [-> |]; [| lia].
  by rewrite Nat2Z.id.
Qed.
