(* ===== verification/Lifecycle.v ===== *)
(** crates/hedge-exec: the execution errors (error.rs) and the per-order lifecycle
    state machine (lifecycle.rs). *)

From S2P Require Import Prelude Core Schemas BrokerApi.

(** ** Errors (error.rs) *)

Module ExecError.
(** [Bus] carries the rendered [BusError]: the engine itself never builds one. *)
Inductive t :=
| InvalidApprovalToken (correlation_id_hex : string)
| DuplicateToken (correlation_id_hex : string)
| InvalidFsmTransition (from to : OrderLifecycleState.t)
| Broker (broker : BrokerId.t) (attempt : Z) (source : BrokerError.t)
| Bus (rendered : string)
| Config (msg : string)
| RetryExhausted (attempts : Z) (last_error : string)
| Internal (msg : string).

Definition is_retryable (e : t) : bool :=
  match e with Broker _ _ source => BrokerError.is_retryable source | _ => false end.

Definition counts_toward_failover (e : t) : bool :=
  match e with Broker _ _ source => BrokerError.counts_toward_failover source | _ => false end.

Definition broker (e : t) : option BrokerId.t :=
  match e with Broker b _ _ => Some b | _ => None end.

Definition tag (e : t) : string :=
  match e with
  | InvalidApprovalToken _ => "invalid_token"
  | DuplicateToken _ => "duplicate_token"
  | InvalidFsmTransition _ _ => "invalid_fsm_transition"
  | Broker _ _ source =>
      match source with
      | BrokerError.NotReady _ => "broker_not_ready"
      | BrokerError.Rejected _ => "broker_rejected"
      | BrokerError.Transient _ => "broker_transient"
      | BrokerError.Network _ => "broker_network"
      | BrokerError.Http _ _ => "broker_http"
      | BrokerError.Auth _ => "broker_auth"
      | BrokerError.InvalidApprovalToken => "broker_invalid_token"
      | BrokerError.UnknownOrderId _ => "broker_unknown_order"
      | BrokerError.Internal _ => "broker_internal"
      end
  | Bus _ => "bus"
  | Config _ => "config"
  | RetryExhausted _ _ => "retry_exhausted"
  | Internal _ => "internal"
  end.

Definition from_broker (b : BrokerId.t) (attempt : Z) (source : BrokerError.t) : t :=
  Broker b attempt source.

(** [{state:?}] *)
Definition state_debug (s : OrderLifecycleState.t) : string :=
  match s with
  | OrderLifecycleState.New => "New" | OrderLifecycleState.Submitted => "Submitted"
  | OrderLifecycleState.PartiallyFilled => "PartiallyFilled"
  | OrderLifecycleState.Filled => "Filled" | OrderLifecycleState.Cancelled => "Cancelled"
  | OrderLifecycleState.Rejected => "Rejected"
  end.

(** [Display], from the [#[error(...)]] attributes. *)
Definition to_string (e : t) : string :=
  match e with
  | InvalidApprovalToken h =>
      "approval token HMAC mismatch (intent.correlation_id_hex=" +:+ h +:+ ")"
  | DuplicateToken h =>
      "approval token already consumed (intent.correlation_id_hex=" +:+ h +:+ ")"
  | InvalidFsmTransition from to =>
      "invalid FSM transition: " +:+ state_debug from +:+ " → " +:+ state_debug to
  | Broker b attempt source =>
      "broker " +:+ BrokerId.debug b +:+ " (attempt " +:+ pretty attempt +:+ "): "
        +:+ BrokerError.to_string source
  | Bus r => "bus error: " +:+ r
  | Config m => "configuration error: " +:+ m
  | RetryExhausted n last =>
      "retry budget exhausted after " +:+ pretty n +:+ " attempts; last error: " +:+ last
  | Internal m => "internal error: " +:+ m
  end.
End ExecError.

(** ** The tracker (lifecycle.rs) *)

Module Lifecycle.
Import OrderLifecycleState.

Record LifecycleEvent := mk_LifecycleEvent {
  le_correlation_id : CorrelationId.t;
  le_broker : BrokerId.t;
  le_state : OrderLifecycleState.t;
  le_filled_qty : Z;
  le_avg_fill_paise : Z;
  le_broker_order_id : option string;
  le_ts_ns : Z;
}.

Record Tracker := mk_Tracker {
  correlation_id : CorrelationId.t;
  broker : BrokerId.t;
  state : OrderLifecycleState.t;
  requested_qty : Z;
  filled_qty : Z;
  avg_fill_paise : Z;
  broker_order_id : option string;
}.

Definition new (cid : CorrelationId.t) (b : BrokerId.t) (requested : Z) : Tracker :=
  mk_Tracker cid b New requested 0 0 None.

Definition tracker_is_terminal (t : Tracker) : bool := is_terminal (state t).

Definition set_broker_order_id (t : Tracker) (id : string) : Tracker :=
  mk_Tracker (correlation_id t) (broker t) (state t) (requested_qty t) (filled_qty t)
    (avg_fill_paise t) (Some id).

Definition set_state (t : Tracker) (s : OrderLifecycleState.t) : Tracker :=
  mk_Tracker (correlation_id t) (broker t) s (requested_qty t) (filled_qty t)
    (avg_fill_paise t) (broker_order_id t).

Definition set_fill (t : Tracker) (cum_qty cum_avg : Z) : Tracker :=
  mk_Tracker (correlation_id t) (broker t) (state t) (requested_qty t) cum_qty cum_avg
    (broker_order_id t).

Definition event (t : Tracker) (ts_ns : Z) : LifecycleEvent :=
  mk_LifecycleEvent (correlation_id t) (broker t) (state t) (filled_qty t) (avg_fill_paise t)
    (broker_order_id t) ts_ns.

Definition is_legal_transition (from to : OrderLifecycleState.t) : bool :=
  match from, to with
  | New, Submitted => true
  | Submitted, PartiallyFilled => true
  | Submitted, Filled => true
  | Submitted, Cancelled => true
  | Submitted, Rejected => true
  | PartiallyFilled, PartiallyFilled => true
  | PartiallyFilled, Filled => true
  | PartiallyFilled, Cancelled => true
  | _, _ => false
  end.

Abbreviation T := (SE Tracker ExecError.t LifecycleEvent).

Definition transition_no_fill (target : OrderLifecycleState.t) (ts_ns : Z) (id : option string) : T :=
  fun t =>
    if negb (is_legal_transition (state t) target)
    then (Err (ExecError.InvalidFsmTransition (state t) target), t)
    else
      let t := match id with Some id => set_broker_order_id t id | None => t end in
      let t := set_state t target in
      (Ok (event t ts_ns), t).

Definition submit (id : option string) (ts_ns : Z) : T := transition_no_fill Submitted ts_ns id.
Definition cancel (ts_ns : Z) : T := transition_no_fill Cancelled ts_ns None.
Definition reject (ts_ns : Z) : T := transition_no_fill Rejected ts_ns None.
Definition transition (target : OrderLifecycleState.t) (ts_ns : Z) : T :=
  transition_no_fill target ts_ns None.

Definition partial_fill (cum_filled_qty cum_avg_fill_paise ts_ns : Z) : T :=
  fun t =>
    if cum_filled_qty <? filled_qty t
    then (Err (ExecError.Internal ("fill regression: " +:+ pretty (filled_qty t) +:+ " -> "
                                   +:+ pretty cum_filled_qty)), t)
    else if cum_filled_qty >? requested_qty t
    then (Err (ExecError.Internal ("fill overflow: " +:+ pretty cum_filled_qty
                                   +:+ " > requested " +:+ pretty (requested_qty t))), t)
    else
      let target :=
        if (cum_filled_qty >=? requested_qty t) && (requested_qty t >? 0)
        then Filled else PartiallyFilled in
      if negb (is_legal_transition (state t) target)
      then (Err (ExecError.InvalidFsmTransition (state t) target), t)
      else
        let t := set_state (set_fill t cum_filled_qty cum_avg_fill_paise) target in
        (Ok (event t ts_ns), t).

(** *** Runs of a tracker *)

Inductive op :=
| Submit (id : option string) (ts_ns : Z)
| PartialFill (cum_qty cum_avg ts_ns : Z)
| Cancel (ts_ns : Z)
| Reject (ts_ns : Z)
| Transition (target : OrderLifecycleState.t) (ts_ns : Z).

Definition apply (o : op) : T :=
  match o with
  | Submit id ts => submit id ts
  | PartialFill q a ts => partial_fill q a ts
  | Cancel ts => cancel ts
  | Reject ts => reject ts
  | Transition s ts => transition s ts
  end.

Definition run (t : Tracker) (ops : list op) : Tracker := foldl (fun t o => snd (apply o t)) t ops.

(** The states an order reaches by legal edges from [New]. *)
Inductive reachable : OrderLifecycleState.t -> Prop :=
| reach_new : reachable New
| reach_step from to : reachable from -> is_legal_transition from to = true -> reachable to.

Lemma terminal_no_edge from to : is_terminal from = true -> is_legal_transition from to = false.
Proof. by destruct from, to. Qed.

Lemma partial_fill_cases q a ts t :
  match partial_fill q a ts t with
  | (Err _, t') => t' = t
  | (Ok _, t') => filled_qty t <= q <= requested_qty t /\ exists s, t' = set_state (set_fill t q a) s
  end.
Proof.
  unfold partial_fill. destruct (Z.ltb_spec q (filled_qty t)); [done |].
  rewrite Z.gtb_ltb. destruct (Z.ltb_spec (requested_qty t) q); [done |].
  destruct (is_legal_transition _ _); [| done]. simpl. split; [lia | by eexists].
Qed.

(** One operation either fails and changes nothing, or follows a legal edge, reports the
    state it leaves, and keeps the identity and the quantity bounds of the order. *)
Lemma apply_spec o t :
  match apply o t with
  | (Err _, t') => t' = t
  | (Ok ev, t') =>
      is_legal_transition (state t) (state t') = true
      /\ ev = event t' (le_ts_ns ev)
      /\ correlation_id t' = correlation_id t /\ broker t' = broker t
      /\ requested_qty t' = requested_qty t
      /\ filled_qty t <= filled_qty t'
      /\ (filled_qty t' = filled_qty t \/ filled_qty t' <= requested_qty t)
  end.
Proof.
  assert (forall target ts id,
    match transition_no_fill target ts id t with
    | (Err _, t') => t' = t
    | (Ok ev, t') =>
        is_legal_transition (state t) (state t') = true
        /\ ev = event t' (le_ts_ns ev)
        /\ correlation_id t' = correlation_id t /\ broker t' = broker t
        /\ requested_qty t' = requested_qty t
        /\ filled_qty t <= filled_qty t'
        /\ (filled_qty t' = filled_qty t \/ filled_qty t' <= requested_qty t)
    end) as Hno.
  { intros target ts id. unfold transition_no_fill.
    destruct (is_legal_transition (state t) target) eqn:E; [| done]. simpl.
    destruct id; simpl; split_and!; auto; lia. }
  destruct o; simpl; try apply Hno. unfold partial_fill.
  destruct (Z.ltb_spec cum_qty (filled_qty t)); [done |].
  rewrite Z.gtb_ltb. destruct (Z.ltb_spec (requested_qty t) cum_qty); [done |].
  destruct (is_legal_transition (state t) _) eqn:E; [| done]. simpl in *.
  split_and!; auto; lia.
Qed.

Lemma run_app t ops o : run t (ops ++ [o]) = snd (apply o (run t ops)).
Proof. unfold run. by rewrite foldl_app. Qed.

Lemma run_invariant ops t0 t :
  reachable (state t0) -> 0 <= filled_qty t0 <= requested_qty t0 -> t = run t0 ops ->
  reachable (state t) /\ filled_qty t0 <= filled_qty t <= requested_qty t
  /\ requested_qty t = requested_qty t0 /\ correlation_id t = correlation_id t0
  /\ broker t = broker t0.
Proof.
  intros Hr0 Hq0. revert t. induction ops as [| o ops IH] using rev_ind; intros t ->.
  - simpl. split_and!; try done; lia.
  - rewrite run_app. destruct (IH _ eq_refl) as (Hr & Hq & Hreq & Hc & Hb).
    pose proof (apply_spec o (run t0 ops)) as Hs. destruct (apply o (run t0 ops)) as [[ev | err] t'].
    + destruct Hs as (Hl & _ & Hc' & Hb' & Hreq' & Hle & Hor). simpl.
      split_and!; try congruence; try lia. exact (reach_step _ _ Hr Hl).
    + simpl. subst t'. split_and!; done || lia.
Qed.

Lemma terminal_run ops t : is_terminal (state t) = true -> run t ops = t.
Proof.
  intros Ht. induction ops as [| o ops IH] using rev_ind; [done |].
  rewrite run_app, IH. pose proof (apply_spec o t) as Hs.
  destruct (apply o t) as [[ev | err] t']; [| done].
  destruct Hs as [Hl _]. by rewrite terminal_no_edge in Hl.
Qed.
End Lifecycle.


