(* ===== verification/Retry.v ===== *)
(** crates/hedge-exec/src/retry.rs: the bounded exponential backoff around a broker call.
    A [Duration] is its number of nanoseconds.  The loop runs over an arbitrary world [W]
    that the operation changes; what the [Sleeper] is asked to sleep is recorded in
    order, as [RecordingSleeper] does. *)

From S2P Require Import Prelude Ieee Core Schemas BrokerApi Lifecycle.

Record RetryPolicy := mk_RetryPolicy {
  max_attempts : Z;
  base_backoff_ns : Z;
  max_backoff_ns : Z;
  jitter_bps : Z;
}.

Module Retry.

Definition default : RetryPolicy := mk_RetryPolicy 3 50000000 1000000000 2500.

Definition capped_backoff (p : RetryPolicy) (attempt : Z) : Z :=
  let exp := Z.min (attempt - 1) 31 in
  let raw := u64_sat_mul (base_backoff_ns p) (Z.shiftl 1 exp) in
  Z.min raw (max_backoff_ns p).

Definition backoff_for_attempt (p : RetryPolicy) (attempt : Z) (jitter_unit : f64) : Z :=
  if attempt =? 0 then 0
  else
    let capped := capped_backoff p attempt in
    let unit := if f_is_finite jitter_unit
                then f_clamp (f64_of_Z (-1)) f64_one jitter_unit else f_zero in
    let pct := f64_div (f64_of_Z (jitter_bps p)) (f64_of_Z 10000) in
    let delta := f64_mul (f64_mul (f64_of_Z capped) pct) unit in
    let with_jitter := f64_add (f64_of_Z capped) delta in
    f_as_u64 (f_min (f_max with_jitter f_zero) (f64_of_Z (max_backoff_ns p))).

(** *** Jitter sources *)

(** The trait, with the law that what a source yields is an [f64]. *)
Class JitterSource (J : Type) := {
  next_unit : J -> f64 * J;
  next_unit_valid j : f64_valid (fst (next_unit j));
}.

#[global] Instance NoJitter : JitterSource unit.
Proof. exists (fun _ => (f_zero, tt)). done. Defined.

Record SeededJitter := mk_SeededJitter { seed_state : Z }.
Definition GOLDEN : Z := 0x9E3779B97F4A7C15.
Definition seeded (seed : Z) : SeededJitter := mk_SeededJitter (as_u64 (seed + GOLDEN)).

Definition seeded_next (j : SeededJitter) : f64 * SeededJitter :=
  let state := as_u64 (seed_state j + GOLDEN) in
  let z := state in
  let z := as_u64 (Z.lxor z (Z.shiftr z 30) * 0xBF58476D1CE4E5B9) in
  let z := as_u64 (Z.lxor z (Z.shiftr z 27) * 0x94D049BB133111EB) in
  let z := Z.lxor z (Z.shiftr z 31) in
  let f := f64_div (f64_of_Z z) (f64_of_Z u64_max) in
  (f64_sub (f64_mul (f64_of_Z 2) f) f64_one, mk_SeededJitter state).
#[global] Instance SeededJitter_source : JitterSource SeededJitter.
Proof. exists seeded_next. intros j. apply f64_sub_valid; auto 10 with hedge. Defined.

(** *** The loop *)

Section loop.
Context {W J A : Type} `{!JitterSource J} (policy : RetryPolicy) (op : Z -> SE W ExecError.t A).

Record world := mk_world { rw_world : W; rw_jitter : J; rw_sleeps : list Z }.

(** [sleeper.sleep(policy.backoff_for_attempt(attempt, jitter.next_unit()))]. *)
Definition sleep (attempt : Z) (w : world) : world :=
  let '(unit, j) := next_unit (rw_jitter w) in
  mk_world (rw_world w) j (rw_sleeps w ++ [backoff_for_attempt policy attempt unit]).

(** The iterations [attempt ..= max] of the [for] loop; [n] is how many are left. *)
Fixpoint attempts (max : Z) (n : nat) (attempt : Z) (last_err : option ExecError.t)
  : SE world ExecError.t A :=
  fun w =>
    match n with
    | O =>
        let last_msg := match last_err with Some e => ExecError.to_string e | None => "unknown" end in
        (Err (ExecError.RetryExhausted max last_msg), w)
    | S n =>
        match op attempt (rw_world w) with
        | (Ok value, w') => (Ok value, mk_world w' (rw_jitter w) (rw_sleeps w))
        | (Err err, w') =>
            let w := mk_world w' (rw_jitter w) (rw_sleeps w) in
            if negb (ExecError.is_retryable err) then (Err err, w)
            else
              let w := if attempt <? max then sleep attempt w else w in
              attempts max n (attempt + 1) (Some err) w
        end
    end.

Definition retry_with_backoff : SE world ExecError.t A :=
  let max := Z.max (max_attempts policy) 1 in
  attempts max (Z.to_nat max) 1 None.

(** *** Specification *)

(** [tried k w last]: attempts [1 .. k] were made from [w0], every one failed with a
    retryable error, the last with [last], and they left the world [w]. *)
Inductive tried (w0 : W) : Z -> W -> option ExecError.t -> Prop :=
| tried_none : tried w0 0 w0 None
| tried_again k w last err w' :
    tried w0 k w last -> op (k + 1) w = (Err err, w') -> ExecError.is_retryable err = true ->
    tried w0 (k + 1) w' (Some err).

(** What one call promises: it makes attempts one after the other, sleeping between them,
    and stops at the first success, the first permanent error, or after [max]. *)
Definition retry_outcome (max : Z) (w0 : W) (n0 : nat) (r : result A ExecError.t) (w : world) : Prop :=
  (exists k w1 last, 0 <= k < max /\ tried w0 k w1 last
     /\ op (k + 1) w1 = (r, rw_world w)
     /\ (forall e, r = Err e -> ExecError.is_retryable e = false)
     /\ length (rw_sleeps w) = (n0 + Z.to_nat k)%nat)
  \/ (exists e, tried w0 max (rw_world w) (Some e)
       /\ r = Err (ExecError.RetryExhausted max (ExecError.to_string e))
       /\ length (rw_sleeps w) = (n0 + Z.to_nat (max - 1))%nat).

Lemma attempts_spec max w0 n0 n : forall k last w,
  Z.of_nat n = max - k -> 0 <= k -> 0 < max ->
  tried w0 k (rw_world w) last -> (k = 0 -> last = None) -> (0 < k -> is_Some last) ->
  length (rw_sleeps w) = (n0 + Z.to_nat (Z.min k (max - 1)))%nat ->
  let '(r, w') := attempts max n (k + 1) last w in retry_outcome max w0 n0 r w'.
Proof.
  induction n as [| n IH]; intros k last w Hn Hk Hmax Ht H0 Hs Hlen.
  - assert (k = max) as -> by lia. destruct (Hs Hmax) as [e ->]. simpl. right.
    exists e. split_and!; try done. rewrite Hlen. do 2 f_equal. lia.
  - simpl. destruct (op (k + 1) (rw_world w)) as [[v | err] w1] eqn:Hop.
    { left. exists k, (rw_world w), last. simpl. split_and!; try done; [lia |].
      rewrite Hlen. do 2 f_equal. lia. }
    destruct (ExecError.is_retryable err) eqn:Hr; simpl.
    + apply IH; try lia; [| eauto |].
      * replace (rw_world (if k + 1 <? max then _ else _)) with w1.
        { by apply (tried_again w0 k (rw_world w) last). }
        destruct (k + 1 <? max); [| done]. unfold sleep. simpl. by destruct (next_unit _).
      * destruct (Z.ltb_spec (k + 1) max).
        { unfold sleep. simpl. destruct (next_unit _). simpl. rewrite length_app, Hlen. simpl. lia. }
        simpl. rewrite Hlen. lia.
    + left. exists k, (rw_world w), last. simpl. split_and!; try done; [lia | | ].
      * by intros e [= <-].
      * rewrite Hlen. lia.
Qed.

Lemma retry_first_ok w v w' : op 1 (rw_world w) = (Ok v, w') ->
  retry_with_backoff w = (Ok v, mk_world w' (rw_jitter w) (rw_sleeps w)).
Proof.
  intros Hop. unfold retry_with_backoff.
  destruct (Z.to_nat (Z.max (max_attempts policy) 1)) as [| n] eqn:E; [lia |]. simpl. by rewrite Hop.
Qed.

(** Everything a call sleeps is within the bound [b] of the single sleeps. *)
Lemma attempts_sleeps (b : Z) max n : 
  (forall a u, f64_valid u -> backoff_for_attempt policy a u <= b) ->
  forall k last w, Forall (fun d => d <= b) (rw_sleeps w) ->
  Forall (fun d => d <= b) (rw_sleeps (snd (attempts max n k last w))).
Proof.
  intros Hb. induction n as [| n IH]; intros k last w Hw; [done |].
  simpl. destruct (op k (rw_world w)) as [[v | err] w1]; [done |].
  destruct (ExecError.is_retryable err); [| done]. simpl. apply IH.
  destruct (k <? max); [| done]. unfold sleep. simpl.
  pose proof (next_unit_valid (rw_jitter w)) as Hu. destruct (next_unit _). simpl.
  apply Forall_app. split; [done | constructor; [by apply Hb | done]].
Qed.
End loop.

Lemma backoff_bound p attempt u : f64_valid u -> 0 <= max_backoff_ns p < 2 ^ 53 ->
  backoff_for_attempt p attempt u <= max_backoff_ns p.
Proof.
  intros Hu Hm. unfold backoff_for_attempt. destruct (attempt =? 0); [lia |].
  apply f_to_int_min_le; unfold_ok; try lia. apply f_max_valid; [| done].
  apply f64_add_valid; [auto with hedge |]. apply f64_mul_valid; [auto with hedge |].
  destruct (f_is_finite u); [| done]. unfold f_clamp.
  by destruct (f_lt u (f64_of_Z (-1))), (f_gt u f64_one).
Qed.

Lemma capped_bounds p attempt : 0 <= base_backoff_ns p -> 0 <= max_backoff_ns p < 2 ^ 53 ->
  0 <= capped_backoff p attempt <= max_backoff_ns p.
Proof.
  intros Hb Hm. unfold capped_backoff, u64_sat_mul.
  pose proof (sat_range 0 u64_max
    (base_backoff_ns p * Z.shiftl 1 (Z.min (attempt - 1) 31)) ltac:(unfold_ok; lia)). lia.
Qed.

(** A quarter of an exactly converted integer is finite. *)
Lemma quarter_finite c : 0 < c < 2 ^ 53 ->
  exists m e, f64_mul (f64_of_Z c) (f64_div (f64_of_Z 2500) (f64_of_Z 10000)) = S754_finite false m e
              \/ f64_mul (f64_of_Z c) (f64_div (f64_of_Z 2500) (f64_of_Z 10000)) = S754_zero false.
Proof.
  intros Hc. change (f64_div (f64_of_Z 2500) (f64_of_Z 10000))
    with (S754_finite false 4503599627370496 (-54)).
  pose proof (f64_of_Z_valid c) as Hv. unfold f64_of_Z in *.
  rewrite (binary_normalize_exact 53 1024) in * by lia.
  apply (valid_finite_inv 53 1024) in Hv as [He _].
  set (m := Z.to_pos _) in *. set (e := Z.log2 c + 1 - 53) in *.
  assert (0 <= Z.log2 c < 53) as Hl.
  { split; [apply Z.log2_nonneg | apply Z.log2_lt_pow2; lia]. }
  unfold f64_mul, SFmul. cbn [xorb].
  assert (Z.log2 (Zpos (m * 4503599627370496)) = Z.log2 (Zpos m) + 52) as Hlog.
  { replace (Zpos (m * 4503599627370496)) with (Zpos m * 2 ^ 52) by lia.
    rewrite Z.log2_mul_pow2 by lia. lia. }
  pose proof (Z.log2_nonneg (Zpos m)).
  destruct (binary_round_aux_spec 53 1024 ltac:(lia) ltac:(lia) false
    (Zpos (m * 4503599627370496)) (e + -54) loc_Exact ltac:(lia)) as [_ Hfin].
  { rewrite Zdigits2_log2, Hlog by lia. unfold fexp, emin. lia. }
  assert (f_is_finite (binary_round_aux 53 1024 false (Zpos (m * 4503599627370496)) (e + -54) loc_Exact)
          = true) as Hf by (eapply f_within_finite, Hfin; lia).
  revert Hf. unfold binary_round_aux.
  destruct (shr_fexp _ _ _ _ _) as [r1 e1]. destruct (shr_fexp _ _ _ _ _) as [r2 e2].
  destruct (shr_m r2); [| destruct (e2 <=? _) |]; intros Hf; try done.
  - exists m, e. by right.
  - do 2 eexists. by left.
Qed.

Lemma backoff_exact_no_jitter p attempt : jitter_bps p = 2500 -> 1 <= attempt ->
  0 <= base_backoff_ns p -> 0 <= max_backoff_ns p < 2 ^ 53 ->
  backoff_for_attempt p attempt f_zero = capped_backoff p attempt.
Proof.
  intros Hj Ha Hb Hm. unfold backoff_for_attempt. destruct (Z.eqb_spec attempt 0); [lia |].
  pose proof (capped_bounds p attempt Hb Hm) as Hc. rewrite Hj.
  set (c := capped_backoff p attempt) in *. clearbody c.
  change (f_clamp (f64_of_Z (-1)) f64_one f_zero) with f_zero. cbn [f_is_finite f_zero].
  destruct (decide (c = 0)) as [-> | Hc0].
  - pose proof (f_to_int_min_le 0 u64_max f_zero (max_backoff_ns p) ltac:(lia)
      ltac:(unfold_ok; lia) eq_refl Hm). vm_compute (f64_mul _ _).
    destruct (decide (max_backoff_ns p = 0)) as [-> | Hm0]; [done |].
    destruct (f64_of_Z_shape (max_backoff_ns p) ltac:(lia)) as (m & e & ->). done.
  - assert (f64_add (f64_of_Z c) (f64_mul (f64_mul (f64_of_Z c)
              (f64_div (f64_of_Z 2500) (f64_of_Z 10000))) f_zero) = f64_of_Z c) as ->.
    { destruct (f64_of_Z_shape c ltac:(lia)) as (mc & ec & Ec).
      destruct (quarter_finite c ltac:(lia)) as (m & e & [-> | ->]); by rewrite Ec. }
    pose proof (f64_of_Z_shape c ltac:(lia)) as (mc & ec & Ec).
    assert (f_max (f64_of_Z c) f_zero = f64_of_Z c) as -> by (by rewrite Ec).
    destruct (f64_of_Z_shape (max_backoff_ns p) ltac:(lia)) as (mm & em & Em).
    unfold f_min. replace (f_is_nan (f64_of_Z c)) with false by (by rewrite Ec).
    replace (f_is_nan (f64_of_Z (max_backoff_ns p))) with false by (by rewrite Em).
    pose proof (f_as_u64_of_Z c ltac:(lia)) as Hcc.
    destruct (f_lt (f64_of_Z (max_backoff_ns p)) (f64_of_Z c)) eqn:Hlt; [| done].
    assert (max_backoff_ns p <= c) by (by apply f_lt_of_Z; [lia | lia |]).
    rewrite f_as_u64_of_Z by lia. lia.
Qed.
End Retry.

(** A retried call returns after at most [max(max_attempts, 1)] attempts, made one
    after the other on the world the previous one left: the outcome is that of the first
    attempt that succeeds or fails permanently, and [RetryExhausted] with the last error
    when none does; it sleeps once between consecutive attempts and never after the last,
    each time for at most the configured maximum. *)
Theorem retry_makes_bounded_attempts {W J A} `{!Retry.JitterSource J} (policy : RetryPolicy)
  (op : Z -> SE W ExecError.t A) (w : W) (j : J) :
  0 <= max_backoff_ns policy < 2 ^ 53 ->
  let '(r, w') := Retry.retry_with_backoff policy op (Retry.mk_world w j []) in
  Retry.retry_outcome op (Z.max (max_attempts policy) 1) w 0 r w'
  /\ Forall (fun d => d <= max_backoff_ns policy) (Retry.rw_sleeps w').
Proof.
  intros Hm. destruct (Retry.retry_with_backoff _ _ _) as [r w'] eqn:E. split.
  - pose proof (Retry.attempts_spec policy op (Z.max (max_attempts policy) 1) w 0
      (Z.to_nat (Z.max (max_attempts policy) 1)) 0 None (Retry.mk_world w j [])) as Hs.
    unfold Retry.retry_with_backoff in E. change (0 + 1) with 1 in Hs. rewrite E in Hs.
    apply Hs; try lia; [apply Retry.tried_none | done |]. simpl. lia.
  - replace w' with (snd (Retry.retry_with_backoff policy op (Retry.mk_world w j []))) by (by rewrite E).
    apply Retry.attempts_sleeps; [| constructor].
    intros a u Hu. by apply Retry.backoff_bound.
Qed.

(** Fails twice with a transient error, then succeeds; the world counts the calls. *)
Definition flaky (attempt : Z) : SE Z ExecError.t string :=
  fun calls => if attempt <=? 2
    then (Err (ExecError.Broker BrokerId.Dhan attempt (BrokerError.Transient "busy")), calls + 1)
    else (Ok "accepted", calls + 1).

Lemma retry_makes_bounded_attempts_witness :
  exists w', Retry.retry_with_backoff Retry.default flaky (Retry.mk_world 0 tt []) = (Ok "accepted", w')
  /\ Retry.rw_sleeps w' = [50000000; 100000000]
  /\ Forall (fun d => d <= 1000000000) (Retry.rw_sleeps w').
Proof.
  eexists. split; [vm_compute; reflexivity |]. split; [reflexivity |].
  assert (0 <= max_backoff_ns Retry.default < 2 ^ 53) as H by (simpl; lia).
  exact (proj2 (retry_makes_bounded_attempts (J := unit) Retry.default flaky 0 tt H)).
Defined.

(** A backoff never exceeds the configured maximum, whatever the jitter; with the
    default 25 % jitter setting and a neutral jitter it is exactly the doubled base,
    [min(base * 2 ^ (attempt - 1), max)] with the exponent saturated at 31, although it is
    computed in floating point. *)
Theorem backoff_bounded_and_exact (p : RetryPolicy) (attempt : Z) (u : f64) :
  f64_valid u -> 1 <= attempt -> u64_ok (base_backoff_ns p) -> 0 <= max_backoff_ns p < 2 ^ 53 ->
  Retry.backoff_for_attempt p attempt u <= max_backoff_ns p
  /\ (jitter_bps p = 2500 ->
      Retry.backoff_for_attempt p attempt f_zero
      = Z.min (base_backoff_ns p * 2 ^ Z.min (attempt - 1) 31) (max_backoff_ns p)).
Proof.
  intros Hu Ha Hb Hm. split; [by apply Retry.backoff_bound |]. intros Hj.
  rewrite Retry.backoff_exact_no_jitter by (unfold_ok; try done; lia).
  unfold Retry.capped_backoff, u64_sat_mul. rewrite Z.shiftl_mul_pow2, Z.mul_1_l by lia.
  pose proof (Z.pow_pos_nonneg 2 (Z.min (attempt - 1) 31) ltac:(lia) ltac:(lia)).
  unfold_ok. unfold sat. split_ifs; nia.
Qed.

Lemma backoff_bounded_and_exact_witness :
  Retry.backoff_for_attempt Retry.default 3 f_zero = 200000000.
Proof.
  destruct (backoff_bounded_and_exact Retry.default 3 f_zero) as [_ H];
    [reflexivity | lia | vm_compute; split; discriminate | simpl; lia |].
  by rewrite H.
Defined.
