(* ===== verification/Router.v ===== *)
(** crates/hedge-exec/src/router.rs: the sliding outcome window of each broker and the
    active/backup router with health-based failover.  A router is the sequential object:
    each call runs to completion before the next. *)

From S2P Require Import Prelude Ieee Core Schemas BrokerApi.

Inductive Outcome := Success | Failure.
#[global] Instance Outcome_eq_dec : EqDecision Outcome.
Proof. solve_decision. Defined.

Definition WINDOW_SIZE : nat := 64.

Module ActiveSlot.
Inductive t := Primary | Backup.
Definition as_u8 (s : t) : Z := match s with Primary => 0 | Backup => 1 end.
Definition from_u8 (b : Z) : t := match b with 1 => Backup | _ => Primary end.
Definition other (s : t) : t := match s with Primary => Backup | Backup => Primary end.
#[global] Instance eq_dec : EqDecision t.
Proof. solve_decision. Defined.
End ActiveSlot.

Record FailoverEvent := mk_FailoverEvent {
  fe_from : BrokerId.t;
  fe_to : BrokerId.t;
  fe_error_rate_bps : Z;
  fe_p99_latency_ms : Z;
  fe_ts_ns : Z;
}.

(** ** One broker's window *)

Module AdapterStats.
Record Sample := mk_Sample { tag : Z; latency_ms : Z }.

Record t := mk {
  capacity : nat;
  samples : list Sample;
  pos : nat;
  total_recorded : Z;
}.

Definition with_capacity (capacity : nat) : t := mk (Nat.max capacity 1) [] 0 0.

Definition sample (outcome : Outcome) (latency : Z) : Sample :=
  mk_Sample (match outcome with Success => 0 | Failure => 1 end) latency.

Definition record (st : t) (outcome : Outcome) (latency : Z) : t :=
  let s := sample outcome latency in
  let total := as_u64 (total_recorded st + 1) in
  if (length (samples st) <? capacity st)%nat
  then mk (capacity st) (samples st ++ [s]) (pos st) total
  else
    let i := (pos st mod capacity st)%nat in
    mk (capacity st) (<[i := s]> (samples st)) (i + 1) total.

Definition count_failures (l : list Sample) : Z :=
  Z.of_nat (length (filter (fun s => tag s = 1) l)).

Definition error_rate_bps (st : t) : Z :=
  let r := samples st in
  if (length r =? 0)%nat then 0
  else as_u32 (Z.quot (as_u64 (count_failures r * 10000)) (Z.of_nat (length r))).

(** The latencies a percentile counts: [u32::MAX] marks a failure. *)
Definition measured (l : list Sample) : list Z :=
  filter (fun ms => ms <> u32_max) (latency_ms <$> l).

Definition p99_index (n : nat) : nat :=
  Nat.min (Z.to_nat (f_ceil_nonneg (f64_mul (f64_of_Z (Z.of_nat n)) (f64_lit 99 100))) - 1) (n - 1).

(** [None] is the out-of-range panic of [latencies[idx]]. *)
Definition p99_latency_ms (st : t) : option Z :=
  let r := samples st in
  if (length r =? 0)%nat then Some 0
  else
    let latencies := measured r in
    if (length latencies =? 0)%nat then Some 0
    else merge_sort Z.le latencies !! p99_index (length latencies).

Definition window_len (st : t) : nat := length (samples st).
Definition reset (st : t) : t := mk (capacity st) [] 0 (total_recorded st).
End AdapterStats.

(** ** Thresholds and the router *)

Record FailoverThresholds := mk_FailoverThresholds {
  th_error_rate_bps : Z;
  th_p99_latency_ms : Z;
  th_min_samples : Z;
}.

(** [.round() as u32] of an [f32]; NaN gives 0 and the clamp bounds everything else. *)
Definition round_as_u32 (x : f32) : Z :=
  match x with S754_nan => 0 | _ => sat 0 u32_max (f_round_nonneg x) end.

Definition from_broker_config (failover_error_rate : f32) (failover_latency_ms : Z)
  : FailoverThresholds :=
  let bps := round_as_u32 (f32_mul (f_clamp f_zero f32_one failover_error_rate) (f32_of_Z 10000)) in
  mk_FailoverThresholds bps failover_latency_ms 8.

Module BrokerRouter.
Section router.
Context {W : Type}.

Record t := mk {
  primary_id : BrokerId.t;
  backup_id : BrokerId.t;
  primary : BrokerAdapter W;
  backup : BrokerAdapter W;
  active : Z;
  primary_stats : AdapterStats.t;
  backup_stats : AdapterStats.t;
  thresholds : FailoverThresholds;
}.

Definition new (p b : BrokerAdapter W) (th : FailoverThresholds) : t :=
  mk (ba_broker_id p) (ba_broker_id b) p b (ActiveSlot.as_u8 ActiveSlot.Primary)
    (AdapterStats.with_capacity WINDOW_SIZE) (AdapterStats.with_capacity WINDOW_SIZE) th.

Definition set_active (r : t) (a : Z) : t :=
  mk (primary_id r) (backup_id r) (primary r) (backup r) a (primary_stats r) (backup_stats r)
    (thresholds r).

Definition active_slot (r : t) : ActiveSlot.t := ActiveSlot.from_u8 (active r).
Definition active_adapter (r : t) : BrokerAdapter W :=
  match active_slot r with ActiveSlot.Primary => primary r | ActiveSlot.Backup => backup r end.
Definition slot_id (r : t) (s : ActiveSlot.t) : BrokerId.t :=
  match s with ActiveSlot.Primary => primary_id r | ActiveSlot.Backup => backup_id r end.
Definition active_id (r : t) : BrokerId.t := slot_id r (active_slot r).
Definition stats_of (r : t) (s : ActiveSlot.t) : AdapterStats.t :=
  match s with ActiveSlot.Primary => primary_stats r | ActiveSlot.Backup => backup_stats r end.
Definition set_stats (r : t) (s : ActiveSlot.t) (st : AdapterStats.t) : t :=
  match s with
  | ActiveSlot.Primary =>
      mk (primary_id r) (backup_id r) (primary r) (backup r) (active r) st (backup_stats r) (thresholds r)
  | ActiveSlot.Backup =>
      mk (primary_id r) (backup_id r) (primary r) (backup r) (active r) (primary_stats r) st (thresholds r)
  end.

Definition swap_to (r : t) (target : ActiveSlot.t) : t := set_active r (ActiveSlot.as_u8 target).
Definition force_primary (r : t) : t := swap_to r ActiveSlot.Primary.

Definition pick_for_intent (r : t) (hint : option BrokerId.t) : BrokerAdapter W * t :=
  match hint with
  | Some target =>
      if decide (target = primary_id r) then (primary r, swap_to r ActiveSlot.Primary)
      else if decide (target = backup_id r) then (backup r, swap_to r ActiveSlot.Backup)
      else (active_adapter r, r)
  | None => (active_adapter r, r)
  end.

(** [None] is the panic of [p99_latency_ms]. *)
Definition record_outcome (r : t) (outcome : Outcome) (latency ts_ns : Z)
  : option (option FailoverEvent * t) :=
  let slot := active_slot r in
  let stats := AdapterStats.record (stats_of r slot) outcome latency in
  let r := set_stats r slot stats in
  if as_u32 (Z.of_nat (AdapterStats.window_len stats)) <? th_min_samples (thresholds r)
  then Some (None, r)
  else
    let er := AdapterStats.error_rate_bps stats in
    p99 ← AdapterStats.p99_latency_ms stats;
    let breach := (er >=? th_error_rate_bps (thresholds r)) || (p99 >=? th_p99_latency_ms (thresholds r)) in
    if negb breach then Some (None, r)
    else if active r =? ActiveSlot.as_u8 slot
    then
      let to := ActiveSlot.other slot in
      let r := set_active r (ActiveSlot.as_u8 to) in
      let r := set_stats r to (AdapterStats.reset (stats_of r to)) in
      Some (Some (mk_FailoverEvent (slot_id r slot) (slot_id r to) er p99 ts_ns), r)
    else Some (None, r).
End router.
Arguments t : clear implicits.
End BrokerRouter.

(** ** The window holds the most recent outcomes *)

Module StatsSpec.
Import AdapterStats.

Definition recent (N : nat) (h : list Sample) : list Sample := RingWindow.last_n N h.
Definition rate (w : list Sample) : Z :=
  if (length w =? 0)%nat then 0 else count_failures w * 10000 / Z.of_nat (length w).
Definition slowest (w : list Sample) : Z := foldr Z.max 0 (measured w).

(** [h] is every outcome recorded since the last reset, oldest first. *)
Definition rep (st : t) (h : list Sample) : Prop :=
  (0 < capacity st)%nat /\ (length (samples st) <= capacity st)%nat
  /\ ((length (samples st) < capacity st)%nat -> pos st = 0%nat)
  /\ (let i := (pos st mod capacity st)%nat in
      drop i (samples st) ++ take i (samples st) = recent (capacity st) h).

Lemma rep_new n : rep (with_capacity n) [].
Proof.
  unfold rep, with_capacity. cbn [capacity samples pos]. split_and!; [lia | simpl; lia | done |].
  by rewrite drop_nil, take_nil.
Qed.

Lemma rep_reset st h : rep st h -> rep (reset st) [].
Proof.
  intros (HN & _). unfold rep, reset. cbn [capacity samples pos].
  split_and!; [lia | simpl; lia | done |]. by rewrite drop_nil, take_nil.
Qed.

Lemma rep_record st h o l : rep st h -> rep (record st o l) (h ++ [sample o l]).
Proof.
  intros (HN & Hle & H0 & Hw). unfold record.
  set (x := sample o l). unfold rep, recent in *.
  assert (RingWindow.last_n (capacity st) (h ++ [x])
          = RingWindow.spec_push (capacity st) (RingWindow.last_n (capacity st) h) x) as Hlast
    by (by rewrite RingWindow.spec_push_last_n).
  destruct (Nat.ltb_spec (length (samples st)) (capacity st)) as [Hlt | Hge];
    cbn [capacity samples pos]; rewrite Hlast, <- Hw; unfold RingWindow.spec_push, RingWindow.last_n.
  - rewrite H0 in * by done. rewrite Nat.Div0.mod_0_l, !drop_0, !take_0, !app_nil_r, !length_app. simpl.
    split_and!; try done; [lia |]. by replace (_ - _)%nat with 0%nat by lia.
  - set (i := (pos st mod capacity st)%nat) in *.
    assert (i < capacity st)%nat as Hi by (apply Nat.mod_upper_bound; lia).
    rewrite length_insert. split_and!; [done | done | lia |].
    assert (length (samples st) = capacity st) as HN' by lia.
    assert (drop (length ((drop i (samples st) ++ take i (samples st)) ++ [x]) - capacity st)
              ((drop i (samples st) ++ take i (samples st)) ++ [x])
            = drop (S i) (samples st) ++ take i (samples st) ++ [x]) as ->.
    { rewrite !length_app, length_drop, length_take. simpl.
      replace (_ - _)%nat with 1%nat by lia. rewrite <- (assoc_L (++)).
      rewrite drop_app_le by (rewrite length_drop; lia). rewrite drop_drop.
      by replace (i + 1)%nat with (S i) by lia. }
    rewrite insert_take_drop by lia.
    destruct (decide (i + 1 = capacity st)%nat) as [E | E].
    + rewrite E, Nat.Div0.mod_same, drop_0, take_0, app_nil_r.
      rewrite !(drop_ge (samples st)) by lia. done.
    + rewrite Nat.mod_small by lia.
      rewrite drop_app_ge, take_app_ge by (rewrite length_take; lia).
      rewrite length_take, Nat.min_l by lia. replace (i + 1 - i)%nat with 1%nat by lia. done.
Qed.

Lemma rep_perm st h : rep st h -> samples st ≡ₚ recent (capacity st) h.
Proof.
  intros (_ & _ & _ & <-). rewrite (comm (++)). by rewrite take_drop.
Qed.

Lemma rep_length st h : rep st h -> length (samples st) = length (recent (capacity st) h).
Proof. intros H. by rewrite (rep_perm _ _ H). Qed.

Lemma recent_length N h : (length (recent N h) <= N)%nat.
Proof. unfold recent. rewrite RingWindow.last_n_length. lia. Qed.

Lemma rate_spec st h : rep st h -> capacity st = WINDOW_SIZE ->
  error_rate_bps st = rate (recent WINDOW_SIZE h).
Proof.
  intros Hr Hc. unfold error_rate_bps, rate, count_failures.
  assert (length (recent WINDOW_SIZE h) <= 64)%nat as Hl by apply (recent_length WINDOW_SIZE h).
  rewrite <- Hc in *. pose proof (rep_perm _ _ Hr) as Hp.
  assert (length (filter (fun s => tag s = 1) (samples st))
          = length (filter (fun s => tag s = 1) (recent (capacity st) h))) as -> by (by rewrite Hp).
  rewrite (rep_length _ _ Hr). set (w := recent _ _) in *.
  pose proof (length_filter (fun s => tag s = 1) w) as Hf.
  destruct (Nat.eqb_spec (length w) 0); [done |].
  rewrite as_u64_id by (unfold_ok; lia).
  rewrite Z.quot_div_nonneg by lia. apply as_u32_id.
  set (k := Z.of_nat (length (filter _ w))). set (len := Z.of_nat (length w)).
  assert (0 <= k * 10000 / len <= 10000) as Hb.
  { split; [apply Z.div_pos; lia |]. apply Z.div_le_upper_bound; unfold k, len; lia. }
  unfold_ok. lia.
Qed.

(** In a window of at most 64 samples the nearest-rank 99th percentile is the maximum. *)
Lemma p99_index_last n : (1 <= n <= 64)%nat -> p99_index n = (n - 1)%nat.
Proof.
  intros Hn. assert (Forall (fun k => p99_index k = (k - 1)%nat) (seq 1 64)) as H.
  { apply (bool_decide_eq_true_1 _). vm_compute. reflexivity. }
  rewrite Forall_forall in H. apply H, elem_of_seq. lia.
Qed.

Lemma sorted_last (l : list Z) : StronglySorted Z.le l -> l <> [] ->
  exists m, l !! (length l - 1)%nat = Some m /\ m ∈ l /\ forall x, x ∈ l -> x <= m.
Proof.
  induction 1 as [| a l Hs IH Hf]; [done |]. intros _. destruct l as [| b l].
  - exists a. simpl. split_and!; [done | by left |]. intros x Hx%list_elem_of_singleton. lia.
  - destruct (IH ltac:(done)) as (m & Hm & Hin & Hmax). exists m. split_and!.
    + simpl in *. by replace (length l - 0)%nat with (length l) in Hm by lia.
    + by right.
    + intros x Hx%elem_of_cons. destruct Hx as [-> | Hx]; [| by apply Hmax].
      rewrite Forall_forall in Hf. by apply Hf.
Qed.

Lemma foldr_max_spec l m : m ∈ l -> (forall x, x ∈ l -> x <= m) -> 0 <= m -> foldr Z.max 0 l = m.
Proof.
  induction l as [| a l IH]; intros Hin Hmax Hm; [by apply elem_of_nil in Hin |]. simpl.
  assert (a <= m) by (apply Hmax; by left).
  assert (foldr Z.max 0 l <= m) as Hle.
  { clear IH Hin. assert (forall x, x ∈ l -> x <= m) as H' by (intros; apply Hmax; by right).
    clear Hmax. induction l as [| b l IHl]; [done |]. simpl.
    assert (b <= m) by (apply H'; by left).
    assert (foldr Z.max 0 l <= m) by (apply IHl; intros; apply H'; by right). lia. }
  apply elem_of_cons in Hin as [<- | Hin]; [lia |].
  rewrite IH; try done; [lia |]. intros. apply Hmax. by right.
Qed.

Lemma foldr_max_perm (l k : list Z) : l ≡ₚ k -> foldr Z.max 0 l = foldr Z.max 0 k.
Proof. induction 1; simpl; lia. Qed.

Definition latencies_ok (l : list Sample) : Prop := Forall (fun s => 0 <= latency_ms s) l.

Lemma p99_spec st h : rep st h -> capacity st = WINDOW_SIZE -> latencies_ok (samples st) ->
  p99_latency_ms st = Some (slowest (recent WINDOW_SIZE h)).
Proof.
  intros Hr Hc Hok. unfold p99_latency_ms, slowest.
  pose proof (rep_perm _ _ Hr) as Hp.
  assert (length (recent WINDOW_SIZE h) <= 64)%nat as Hl by apply (recent_length WINDOW_SIZE h).
  rewrite <- Hc in *.
  assert (measured (samples st) ≡ₚ measured (recent (capacity st) h)) as Hm
    by (unfold measured; by rewrite Hp).
  assert (length (measured (samples st)) <= 64)%nat as Hlen.
  { unfold measured. pose proof (length_filter (fun ms => ms <> u32_max) (latency_ms <$> samples st)) as Hf.
    rewrite length_fmap in Hf. rewrite Hp in Hf at 2. lia. }
  rewrite <- (foldr_max_perm _ _ Hm).
  destruct (Nat.eqb_spec (length (samples st)) 0) as [E0 |].
  { apply length_zero_iff_nil in E0. by rewrite E0. }
  destruct (Nat.eqb_spec (length (measured (samples st))) 0) as [E0 |].
  { apply length_zero_iff_nil in E0. by rewrite E0. }
  rewrite p99_index_last by lia.
  set (l := measured (samples st)) in *.
  pose proof (merge_sort_Permutation Z.le l) as Hsp.
  destruct (sorted_last (merge_sort Z.le l)) as (m & Hm' & Hin & Hmax).
  - apply StronglySorted_merge_sort; [intros ???; lia | intros ??; lia].
  - intros E. rewrite E in Hsp. by apply Permutation_nil_l in Hsp; rewrite <- Hsp in n0.
  - rewrite (Permutation_length Hsp) in Hm'. rewrite Hm'. f_equal. symmetry.
    rewrite <- (foldr_max_perm _ _ Hsp). apply foldr_max_spec; try done.
    rewrite Hsp in Hin. unfold l, measured in Hin. apply list_elem_of_filter in Hin as [_ Hin].
    apply list_elem_of_fmap in Hin as (s & -> & Hs). unfold latencies_ok in Hok.
    rewrite Forall_forall in Hok. by apply Hok.
Qed.

Lemma latencies_record st o l : latencies_ok (samples st) -> 0 <= l ->
  latencies_ok (samples (record st o l)).
Proof.
  intros Hs Hl. unfold record, latencies_ok in *. destruct (_ <? _)%nat; simpl.
  - apply Forall_app. split; [done | by constructor].
  - by apply Forall_insert.
Qed.
End StatsSpec.

(** ** The router refines two outcome histories *)

Module RouterSpec.
Import BrokerRouter StatsSpec.
Section spec.
Context {W : Type}.

Inductive op :=
| Record (o : Outcome) (latency ts : Z)
| Pick (hint : option BrokerId.t)
| ForcePrimary.

(** What a call returns: the failover event, or the broker picked. *)
Inductive ret := Recorded (ev : option FailoverEvent) | Picked (b : BrokerId.t) | Forced.

(** The concrete run; a picked adapter is observed through its slot's broker id. *)
Definition apply (r : t W) (o : op) : option (ret * t W) :=
  match o with
  | Record oc l ts => '(ev, r') ← record_outcome r oc l ts; Some (Recorded ev, r')
  | Pick hint => let '(a, r') := pick_for_intent r hint in Some (Picked (ba_broker_id a), r')
  | ForcePrimary => Some (Forced, force_primary r)
  end.

Fixpoint run (r : t W) (ops : list op) : option (list ret * t W) :=
  match ops with
  | [] => Some ([], r)
  | o :: ops =>
      '(x, r) ← apply r o;
      '(xs, r) ← run r ops;
      Some (x :: xs, r)
  end.

(** The abstract router: which slot is active, and every outcome each broker has had since
    it last became active by failover. *)
Record abs := mk_abs { a_slot : ActiveSlot.t; a_hist : ActiveSlot.t -> list AdapterStats.Sample }.

Definition upd (f : ActiveSlot.t -> list AdapterStats.Sample) (s : ActiveSlot.t) h :=
  fun s' => if decide (s' = s) then h else f s'.

Definition breaches (th : FailoverThresholds) (w : list AdapterStats.Sample) : bool :=
  (th_min_samples th <=? Z.of_nat (length w))
  && ((th_error_rate_bps th <=? rate w) || (th_p99_latency_ms th <=? slowest w)).

Definition abs_apply (p b : BrokerId.t) (th : FailoverThresholds) (a : abs) (o : op) : ret * abs :=
  let id s := match s with ActiveSlot.Primary => p | ActiveSlot.Backup => b end in
  match o with
  | Record oc l ts =>
      let s := a_slot a in
      let h := a_hist a s ++ [AdapterStats.sample oc l] in
      let w := recent WINDOW_SIZE h in
      let hist := upd (a_hist a) s h in
      if breaches th w
      then (Recorded (Some (mk_FailoverEvent (id s) (id (ActiveSlot.other s)) (rate w) (slowest w) ts)),
            mk_abs (ActiveSlot.other s) (upd hist (ActiveSlot.other s) []))
      else (Recorded None, mk_abs s hist)
  | Pick (Some target) =>
      if decide (target = p) then (Picked p, mk_abs ActiveSlot.Primary (a_hist a))
      else if decide (target = b) then (Picked b, mk_abs ActiveSlot.Backup (a_hist a))
      else (Picked (id (a_slot a)), a)
  | Pick None => (Picked (id (a_slot a)), a)
  | ForcePrimary => (Forced, mk_abs ActiveSlot.Primary (a_hist a))
  end.

Fixpoint abs_run p b th (a : abs) (ops : list op) : list ret * abs :=
  match ops with
  | [] => ([], a)
  | o :: ops =>
      let '(x, a) := abs_apply p b th a o in
      let '(xs, a) := abs_run p b th a ops in
      (x :: xs, a)
  end.

Definition op_ok (o : op) : Prop := match o with Record _ l _ => u32_ok l | _ => True end.

(** The simulation relation. *)
Definition sim (p b : BrokerId.t) (th : FailoverThresholds) (r : t W) (a : abs) : Prop :=
  active r = ActiveSlot.as_u8 (a_slot a) /\ thresholds r = th
  /\ primary_id r = p /\ backup_id r = b
  /\ ba_broker_id (primary r) = p /\ ba_broker_id (backup r) = b
  /\ forall s, rep (stats_of r s) (a_hist a s)
       /\ AdapterStats.capacity (stats_of r s) = WINDOW_SIZE
       /\ latencies_ok (AdapterStats.samples (stats_of r s)).

Lemma slot_roundtrip s : ActiveSlot.from_u8 (ActiveSlot.as_u8 s) = s.
Proof. by destruct s. Qed.

Lemma sim_new p b th : sim (ba_broker_id p) (ba_broker_id b) th (new p b th)
  (mk_abs ActiveSlot.Primary (fun _ => [])).
Proof.
  split_and!; try done. intros []; (split_and!; [apply rep_new | done | constructor]).
Qed.

Lemma record_capacity st o l : AdapterStats.capacity (AdapterStats.record st o l) = AdapterStats.capacity st.
Proof. unfold AdapterStats.record. by destruct (_ <? _)%nat. Qed.

Lemma sim_record p b th r a oc l ts : sim p b th r a -> u32_ok l ->
  exists r', record_outcome r oc l ts
             = Some (match fst (abs_apply p b th a (Record oc l ts)) with
                     | Recorded ev => ev | _ => None end, r')
  /\ sim p b th r' (snd (abs_apply p b th a (Record oc l ts))).
Proof.
  intros (Hact & Hth & Hp & Hb & Hpa & Hba & Hst) Hl.
  unfold record_outcome, active_slot. rewrite Hact, slot_roundtrip.
  destruct (Hst (a_slot a)) as (Hrep & Hcap & Hlat).
  set (s := a_slot a) in *. set (st := AdapterStats.record (stats_of r s) oc l).
  assert (rep st (a_hist a s ++ [AdapterStats.sample oc l])) as Hrep' by (by apply rep_record).
  assert (AdapterStats.capacity st = WINDOW_SIZE) as Hcap' by (unfold st; by rewrite record_capacity).
  assert (latencies_ok (AdapterStats.samples st)) as Hlat'
    by (apply latencies_record; [done | unfold_ok; lia]).
  pose proof (rate_spec st _ Hrep' Hcap') as Hrate.
  pose proof (p99_spec st _ Hrep' Hcap' Hlat') as Hp99.
  assert (AdapterStats.window_len st
          = length (recent WINDOW_SIZE (a_hist a s ++ [AdapterStats.sample oc l]))) as Hlen
    by (unfold AdapterStats.window_len; rewrite (rep_length _ _ Hrep'); by rewrite Hcap').
  simpl. fold s. set (h := a_hist a s ++ _) in *.
  pose proof (recent_length WINDOW_SIZE h) as Hw.
  clearbody st. set (w := recent WINDOW_SIZE h) in *.
  assert (thresholds (set_stats r s st) = th) as Hth' by (by destruct s).
  rewrite Hth', Hlen, as_u32_id by (unfold WINDOW_SIZE in Hw; unfold_ok; lia).
  rewrite Hrate, Hp99. cbn [mbind option_bind]. unfold breaches. rewrite !Z.geb_leb.
  assert (forall s', stats_of (set_stats r s st) s' = if decide (s' = s) then st else stats_of r s')
    as Hstats by (by intros []; destruct s).
  destruct (Z.ltb_spec (Z.of_nat (length w)) (th_min_samples th)) as [Hmin | Hmin].
  { replace (th_min_samples th <=? Z.of_nat (length w)) with false by lia. simpl.
    eexists. split; [done |]. split_and!; try (by destruct s).
    intros s'. rewrite Hstats. unfold upd. simpl. by destruct (decide (s' = s)). }
  replace (th_min_samples th <=? Z.of_nat (length w)) with true by lia. simpl.
  destruct ((th_error_rate_bps th <=? rate w) || (th_p99_latency_ms th <=? slowest w)); simpl.
  - replace (active (set_stats r s st) =? ActiveSlot.as_u8 s) with true
      by (destruct s; simpl in *; by rewrite Hact).
    eexists. split.
    + do 4 f_equal; destruct s; simpl; congruence.
    + split_and!; try (by destruct s).
      intros s'. destruct s, s'; simpl; try (by apply rep_reset || split_and!; try done);
        unfold upd; simpl.
      all: destruct (Hst ActiveSlot.Primary) as (? & ? & ?), (Hst ActiveSlot.Backup) as (? & ? & ?).
      all: split_and!; try done; try constructor; by eapply rep_reset.
  - eexists. split; [done |]. split_and!; try (by destruct s).
    intros s'. rewrite Hstats. unfold upd. simpl. by destruct (decide (s' = s)).
Qed.
Lemma sim_apply p b th r a o : sim p b th r a -> op_ok o ->
  exists r', apply r o = Some (fst (abs_apply p b th a o), r')
  /\ sim p b th r' (snd (abs_apply p b th a o)).
Proof.
  intros Hsim Hok. destruct o as [oc l ts | hint |]; unfold apply.
  - destruct (sim_record p b th r a oc l ts Hsim Hok) as (r' & -> & Hsim').
    exists r'. split; [| done]. simpl. by destruct (breaches th _).
  - destruct Hsim as (Hact & Hth & Hp & Hb & Hpa & Hba & Hst).
    assert (ba_broker_id (active_adapter r)
            = match a_slot a with ActiveSlot.Primary => p | ActiveSlot.Backup => b end) as Hid.
    { unfold active_adapter, active_slot. rewrite Hact, slot_roundtrip. by destruct (a_slot a). }
    destruct hint as [target |]; simpl.
    + rewrite Hp, Hb. destruct (decide (target = p)); [| destruct (decide (target = b))]; simpl.
      * exists (swap_to r ActiveSlot.Primary). split; [by rewrite Hpa |]. by split_and!.
      * exists (swap_to r ActiveSlot.Backup). split; [by rewrite Hba |]. by split_and!.
      * exists r. split; [by rewrite Hid |]. by split_and!.
    + exists r. split; [by rewrite Hid |]. by split_and!.
  - destruct Hsim as (Hact & Hth & Hp & Hb & Hpa & Hba & Hst).
    exists (swap_to r ActiveSlot.Primary). by split_and!.
Qed.

Lemma sim_run p b th ops : forall r a, sim p b th r a -> Forall op_ok ops ->
  exists r', run r ops = Some (fst (abs_run p b th a ops), r')
  /\ sim p b th r' (snd (abs_run p b th a ops)).
Proof.
  induction ops as [| o ops IH]; intros r a Hsim Hok; [by exists r |].
  apply Forall_cons in Hok as [Ho Hok].
  destruct (sim_apply p b th r a o Hsim Ho) as (r1 & H1 & Hsim1). simpl. rewrite H1. simpl.
  destruct (abs_apply p b th a o) as [x a1]. simpl in *.
  destruct (IH r1 a1 Hsim1 Hok) as (r2 & -> & Hsim2). simpl.
  destruct (abs_run p b th a1 ops) as [xs a2]. by exists r2.
Qed.
End spec.
End RouterSpec.

(** C8: through any sequence of recorded outcomes, routing hints and operator overrides the
    router behaves as the abstract one that keeps, per broker, the history of its outcomes:
    it fails over exactly when the last 64 outcomes of the active broker reach the minimum
    sample count and their failure rate or slowest measured latency reaches its threshold,
    reports those two numbers and the two brokers, makes the other broker active with an
    empty window, and otherwise changes no slot; it never panics. *)
Theorem router_refines_histories {W : Type} (p b : BrokerAdapter W) (th : FailoverThresholds)
  (ops : list RouterSpec.op) :
  Forall RouterSpec.op_ok ops ->
  let spec := RouterSpec.abs_run (ba_broker_id p) (ba_broker_id b) th
                (RouterSpec.mk_abs ActiveSlot.Primary (fun _ => [])) ops in
  exists r', RouterSpec.run (BrokerRouter.new p b th) ops = Some (fst spec, r')
  /\ BrokerRouter.active_slot r' = RouterSpec.a_slot (snd spec).
Proof.
  intros Hok spec. destruct (RouterSpec.sim_run _ _ th ops _ _ (RouterSpec.sim_new p b th) Hok)
    as (r' & Hrun & Hsim & _).
  exists r'. split; [exact Hrun |]. unfold BrokerRouter.active_slot. rewrite Hsim.
  apply RouterSpec.slot_roundtrip.
Qed.

Definition idle_adapter (b : BrokerId.t) : BrokerAdapter unit :=
  mk_BrokerAdapter b (fun _ => se_fail (BrokerError.NotReady "idle"))
    (fun _ => se_fail (BrokerError.NotReady "idle")) (fun _ => se_fail (BrokerError.NotReady "idle"))
    (fun _ => se_fail (BrokerError.NotReady "idle")) (fun w => (ReadyState.Disconnected "idle", w)).

Lemma router_refines_histories_witness :
  let ops := replicate 8 (RouterSpec.Record Failure u32_max 5) in
  exists r', RouterSpec.run (BrokerRouter.new (idle_adapter BrokerId.Zerodha) (idle_adapter BrokerId.Dhan)
                               (from_broker_config (f32_lit 20 100) 250)) ops
             = Some (replicate 7 (RouterSpec.Recorded None)
                     ++ [RouterSpec.Recorded (Some (mk_FailoverEvent BrokerId.Zerodha BrokerId.Dhan 10000 0 5))],
                     r')
  /\ BrokerRouter.active_slot r' = ActiveSlot.Backup.
Proof.
  intros ops.
  destruct (router_refines_histories (idle_adapter BrokerId.Zerodha) (idle_adapter BrokerId.Dhan)
    (from_broker_config (f32_lit 20 100) 250) ops) as (r' & Hr & Ha).
  { apply Forall_replicate. vm_compute. split; discriminate. }
  exists r'. rewrite Hr, Ha. split; [| reflexivity]. f_equal.
Defined.
