(* ===== verification/ExecEngine.v ===== *)
(** crates/hedge-exec/src/engine.rs: the execution engine.

    One call is a computation over a world that holds the engine, the brokers' remote
    state, the latency records emitted and the jitter source; a clock reading is an
    argument.  The keyed MAC is the parameter of Approval.v. *)

From S2P Require Import Prelude Ieee Bytes Core Schemas BrokerApi Approval Lifecycle Retry Router.

Module ExecEngine.

Definition EXEC_ROUTE_BUDGET_NS : Z := 5000000.

Inductive ReplayMode := Off | On.

Inductive EngineEvent :=
| LifecycleEv (ev : Lifecycle.LifecycleEvent)
| FailoverEv (ev : FailoverEvent)
| ErrorEv (tag correlation_id_hex message : string)
| FillEv (correlation_id : CorrelationId.t) (symbol side filled_qty avg_fill_paise ts_ns : Z).

Definition cid_to_hex (cid : CorrelationId.t) : string := to_hex (be_bytes 16 (CorrelationId.as_u128 cid)).

Definition translate_intent (intent : OrderIntent) (sized_quantity : Z) : result BrokerOrder string :=
  let side := match oi_side intent with 0 => Some Side.Buy | 1 => Some Side.Sell | _ => None end in
  match side with
  | None => Err "unknown side discriminant"
  | Some side =>
    match OrderType.from_u8 (oi_order_type intent) with
    | None => Err "unknown order_type discriminant"
    | Some order_type =>
      match Exchange.from_i8 (oi_exchange intent) with
      | None => Err "unknown exchange discriminant"
      | Some exchange =>
          Ok {| bo_correlation_id := from_be (oi_correlation_id intent);
                bo_symbol_raw := oi_symbol intent;
                bo_side := side;
                bo_quantity := Qty.new sized_quantity;
                bo_order_type := order_type;
                bo_limit_paise := oi_limit_paise intent;
                bo_exchange := exchange |}
      end
    end
  end.

Section engine.
Context (hmac : list Z -> list Z -> list Z) {W J : Type} `{!Retry.JitterSource J}.

Record t := mk {
  router : BrokerRouter.t W;
  verifier : Approval.ApprovalVerifier;
  trackers : gmap Z Lifecycle.Tracker;
  consumed_tokens : gset (list Z);
  retry_policy : RetryPolicy;
  replay_mode : ReplayMode;
}.

Definition new (r : BrokerRouter.t W) (v : Approval.ApprovalVerifier) (p : RetryPolicy)
  (m : ReplayMode) : t := mk r v ∅ ∅ p m.

Definition set_router (e : t) (r : BrokerRouter.t W) : t :=
  mk r (verifier e) (trackers e) (consumed_tokens e) (retry_policy e) (replay_mode e).
Definition set_trackers (e : t) (m : gmap Z Lifecycle.Tracker) : t :=
  mk (router e) (verifier e) m (consumed_tokens e) (retry_policy e) (replay_mode e).
Definition set_consumed (e : t) (c : gset (list Z)) : t :=
  mk (router e) (verifier e) (trackers e) c (retry_policy e) (replay_mode e).

(** What the [LatencyEmitter] receives. *)
Inductive Emission := EmitRecord (stage : Stage.t) (r : LatencyRecord)
                    | EmitBreach (stage : Stage.t) (r : LatencyRecord).

Record world := mk_world {
  w_engine : t;
  w_brokers : W;
  w_emitted : list Emission;
  w_jitter : J;
  w_sleeps : list Z;
}.

Definition set_engine (w : world) (e : t) : world :=
  mk_world e (w_brokers w) (w_emitted w) (w_jitter w) (w_sleeps w).
Definition emit (w : world) (l : list Emission) : world :=
  mk_world (w_engine w) (w_brokers w) (w_emitted w ++ l) (w_jitter w) (w_sleeps w).

Abbreviation M := (SE world ExecError.t).

(** The readings of [now_ns()] in one [submit]: the start, the one taken after the broker
    answered, and the one of whichever [emit_latency] runs. *)
Record SubmitClock := mk_SubmitClock { sc_start : Z; sc_submit : Z; sc_exit : Z }.

Definition emit_latency (cid : CorrelationId.t) (ck : SubmitClock) (breach_hint : bool) : M unit :=
  se_modify (fun w =>
    let elapsed := u64_sat_sub (sc_exit ck) (sc_start ck) in
    let actual_breach := breach_hint || (elapsed >? EXEC_ROUTE_BUDGET_NS) in
    let record := mk_LatencyRecord (be_bytes 16 (CorrelationId.as_u128 cid))
                    (Stage.as_u8 Stage.ExecutionRouting) elapsed EXEC_ROUTE_BUDGET_NS actual_breach in
    emit w (EmitRecord Stage.ExecutionRouting record
            :: if actual_breach then [EmitBreach Stage.ExecutionRouting record] else [])).

(** One FSM operation on the tracker of [cid]. *)
Definition on_tracker {A} (cid : CorrelationId.t) (missing : ExecError.t)
  (op : SE Lifecycle.Tracker ExecError.t A) : M A :=
  fun w =>
    let e := w_engine w in
    match trackers e !! CorrelationId.as_u128 cid with
    | None => (Err missing, w)
    | Some tr =>
        let '(r, tr') := op tr in
        (r, set_engine w (set_trackers e (<[CorrelationId.as_u128 cid := tr']> (trackers e))))
    end.

(** [router.record_outcome]; a panic there (impossible for a router built by [new], see
    Router.v) would unwind, which no branch of the source handles. *)
Definition record_outcome (o : Outcome) (latency ts_ns : Z) : M (list EngineEvent) :=
  fun w =>
    let e := w_engine w in
    match BrokerRouter.record_outcome (router e) o latency ts_ns with
    | Some (ev, r) =>
        (Ok (match ev with Some ev => [FailoverEv ev] | None => [] end),
         set_engine w (set_router e r))
    | None => (Err (ExecError.Internal "panic"), w)
    end.

Definition handle_submit_ok (cid : CorrelationId.t) (ack : SubmitAck) (ts_ns : Z)
  : M (list EngineEvent) :=
  (lifecycle <-? on_tracker cid (ExecError.Internal "tracker disappeared")
                   (Lifecycle.submit (Some (ack_broker_order_id ack)) ts_ns) ;
   failover <-? record_outcome Success 0 ts_ns ;
   se_ret (LifecycleEv lifecycle :: failover))%se.

(** The [if let Some(entry) = ..] block: force the tracker into [Rejected]. *)
Definition force_rejected (cid : CorrelationId.t) (ts_ns : Z) : M (list EngineEvent) :=
  fun w =>
    let e := w_engine w in
    match trackers e !! CorrelationId.as_u128 cid with
    | None => (Ok [], w)
    | Some tr =>
        let '(ev1, tr) :=
          if decide (Lifecycle.state tr = OrderLifecycleState.New)
          then match Lifecycle.submit None ts_ns tr with
               | (Ok submitted, tr) => ([LifecycleEv submitted], tr)
               | (Err _, tr) => ([], tr)
               end
          else ([], tr) in
        let '(ev2, tr) :=
          match Lifecycle.reject ts_ns tr with
          | (Ok rejected, tr) => ([LifecycleEv rejected], tr)
          | (Err _, tr) => ([], tr)
          end in
        (Ok (ev1 ++ ev2),
         set_engine w (set_trackers e (<[CorrelationId.as_u128 cid := tr]> (trackers e))))
    end.

Definition handle_submit_err (cid : CorrelationId.t) (err : ExecError.t) (ts_ns : Z)
  : M (list EngineEvent) :=
  (fsm <-? force_rejected cid ts_ns ;
   failover <-? (if ExecError.counts_toward_failover err
                 then record_outcome Failure u32_max ts_ns else se_ret []) ;
   se_ret (ErrorEv (ExecError.tag err) (cid_to_hex cid) (ExecError.to_string err)
           :: fsm ++ failover))%se.

(** [adapter.submit(&intent).await] with its error tagged by broker and attempt. *)
Definition broker_submit (adapter : BrokerAdapter W) (b : BrokerId.t) (intent : BrokerOrder)
  (attempt : Z) : SE W ExecError.t SubmitAck :=
  fun w => let '(r, w') := ba_submit adapter intent w in
           (map_err (ExecError.from_broker b attempt) r, w').

(** Step 6: the retry loop, over the brokers' world, the jitter and the sleeper. *)
Definition submit_with_retry (adapter : BrokerAdapter W) (b : BrokerId.t) (intent : BrokerOrder)
  : world -> result SubmitAck ExecError.t * world :=
  fun w =>
    let '(r, rw) := Retry.retry_with_backoff (retry_policy (w_engine w))
                      (broker_submit adapter b intent)
                      (Retry.mk_world (w_brokers w) (w_jitter w) (w_sleeps w)) in
    (r, mk_world (w_engine w) (Retry.rw_world rw) (w_emitted w) (Retry.rw_jitter rw)
          (Retry.rw_sleeps rw)).

(** Step 2: the token is inserted in the consumed set, or found there. *)
Definition consume_token (token : Approval.ApprovalToken) : world -> bool * world :=
  fun w =>
    let e := w_engine w in
    if decide (Approval.as_bytes token ∈ consumed_tokens e) then (false, w)
    else (true, set_engine w (set_consumed e ({[Approval.as_bytes token]} ∪ consumed_tokens e))).

(** Step 4: [entry(..).or_insert_with(..)] keeps a tracker that is there. *)
Definition install_tracker (cid : CorrelationId.t) (tracker : Lifecycle.Tracker) (w : world) : world :=
  let e := w_engine w in
  match trackers e !! CorrelationId.as_u128 cid with
  | Some _ => w
  | None => set_engine w (set_trackers e (<[CorrelationId.as_u128 cid := tracker]> (trackers e)))
  end.

(** Step 7: the outcome is folded into the FSM and the router.  The events of the error
    branch stay in the local vector that [return Err(err)] drops. *)
Definition finish_submit (cid : CorrelationId.t) (ck : SubmitClock)
  (submit_result : result SubmitAck ExecError.t) : M (list EngineEvent) :=
  match submit_result with
  | Ok ack =>
      (events <-? handle_submit_ok cid ack (sc_submit ck) ;
       emit_latency cid ck false ;?
       se_ret events)%se
  | Err err =>
      (_ <-? handle_submit_err cid err (sc_submit ck) ;
       emit_latency cid ck true ;?
       se_fail err)%se
  end.

(** Steps 3 to 7. *)
Definition route (intent : OrderIntent) (sized_quantity : Z) (cid : CorrelationId.t)
  (ck : SubmitClock) : M (list EngineEvent) :=
  fun w =>
    let '(adapter, r) := BrokerRouter.pick_for_intent (router (w_engine w)) None in
    let w := set_engine w (set_router (w_engine w) r) in
    let broker_id := ba_broker_id adapter in
    let w := install_tracker cid (Lifecycle.new cid broker_id sized_quantity) w in
    match translate_intent intent sized_quantity with
    | Err reason => (Err (ExecError.Internal ("intent translation failed: " +:+ reason)), w)
    | Ok broker_intent =>
        let '(submit_result, w) := submit_with_retry adapter broker_id broker_intent w in
        finish_submit cid ck submit_result w
    end.

Definition submit (token : Approval.ApprovalToken) (intent : OrderIntent)
  (sized_quantity ts_ns sequence : Z) (ck : SubmitClock) : M (list EngineEvent) :=
  let cid := from_be (oi_correlation_id intent) in
  fun w =>
    if negb (Approval.verify hmac (verifier (w_engine w)) token intent sized_quantity ts_ns sequence)
    then (emit_latency cid ck false ;?
          se_fail (ExecError.InvalidApprovalToken (cid_to_hex cid)))%se w
    else
      let '(fresh, w) := consume_token token w in
      if negb fresh
      then (emit_latency cid ck false ;?
            se_fail (ExecError.DuplicateToken (cid_to_hex cid)))%se w
      else route intent sized_quantity cid ck w.

(** [on_fill]: cumulative broker numbers in, the per-fill delta out. *)
Definition on_fill (cid : CorrelationId.t) (symbol side cum_filled_qty cum_avg_fill_paise ts_ns : Z)
  : M (list EngineEvent) :=
  fun w =>
    let e := w_engine w in
    match trackers e !! CorrelationId.as_u128 cid with
    | None => (Err (ExecError.Internal ("no tracker for correlation_id " +:+ cid_to_hex cid)), w)
    | Some tr =>
        let prior_cum_qty := Lifecycle.filled_qty tr in
        let prior_cum_avg_paise := Lifecycle.avg_fill_paise tr in
        match Lifecycle.partial_fill cum_filled_qty cum_avg_fill_paise ts_ns tr with
        | (Err err, _) => (Err err, w)
        | (Ok lifecycle, tr') =>
            let w := set_engine w (set_trackers e (<[CorrelationId.as_u128 cid := tr']> (trackers e))) in
            let delta_qty := u64_sat_sub cum_filled_qty prior_cum_qty in
            if delta_qty =? 0 then (Ok [LifecycleEv lifecycle], w)
            else
              let cum_notional := cum_avg_fill_paise * cum_filled_qty in
              let prior_notional := prior_cum_avg_paise * prior_cum_qty in
              let delta_notional := as_i128 (cum_notional - prior_notional) in
              let fill_px_paise := as_i64 (Z.quot delta_notional delta_qty) in
              (Ok [LifecycleEv lifecycle;
                   FillEv cid symbol side delta_qty fill_px_paise ts_ns], w)
        end
    end.

Definition cancel (cid : CorrelationId.t) (now_ns : Z) : M EngineEvent :=
  fun w =>
    let e := w_engine w in
    match trackers e !! CorrelationId.as_u128 cid with
    | None => (Err (ExecError.Internal ("no tracker for correlation_id " +:+ cid_to_hex cid)), w)
    | Some tr =>
        let broker := Lifecycle.broker tr in
        let broker_order_id := unwrap_or EmptyString (Lifecycle.broker_order_id tr) in
        let adapter := BrokerRouter.active_adapter (router e) in
        match ba_cancel adapter broker_order_id (w_brokers w) with
        | (Err err, b) =>
            (Err (ExecError.from_broker broker 1 err),
             mk_world e b (w_emitted w) (w_jitter w) (w_sleeps w))
        | (Ok _, b) =>
            let w := mk_world e b (w_emitted w) (w_jitter w) (w_sleeps w) in
            match Lifecycle.cancel now_ns tr with
            | (Err err, _) => (Err err, w)
            | (Ok ev, tr') =>
                (Ok (LifecycleEv ev),
                 set_engine w (set_trackers e (<[CorrelationId.as_u128 cid := tr']> (trackers e))))
            end
        end
    end.

Definition state_of (e : t) (cid : CorrelationId.t) : option OrderLifecycleState.t :=
  Lifecycle.state <$> trackers e !! CorrelationId.as_u128 cid.
Definition tracked_orders (e : t) : nat := size (trackers e).
(** ** Lemmas *)

(** What no step after the token check touches. *)
Definition same_tokens (w w' : world) : Prop :=
  consumed_tokens (w_engine w') = consumed_tokens (w_engine w)
  /\ verifier (w_engine w') = verifier (w_engine w).

Lemma on_tracker_frame {A} cid m (op : SE Lifecycle.Tracker ExecError.t A) w :
  let w' := snd (on_tracker cid m op w) in
  same_tokens w w' /\ w_brokers w' = w_brokers w /\ router (w_engine w') = router (w_engine w).
Proof.
  unfold on_tracker. destruct (trackers _ !! _) as [tr |]; [| done]. by destruct (op tr).
Qed.

Lemma record_outcome_frame o l ts w :
  let w' := snd (record_outcome o l ts w) in same_tokens w w' /\ w_brokers w' = w_brokers w.
Proof. unfold record_outcome. by destruct (BrokerRouter.record_outcome _ _ _ _) as [[ev r] |]. Qed.

Lemma force_rejected_ok cid ts w : exists evs, fst (force_rejected cid ts w) = Ok evs.
Proof.
  unfold force_rejected. destruct (trackers _ !! _) as [tr |]; [| by eexists].
  destruct (decide _); [destruct (Lifecycle.submit None ts tr) as [[? | ?] ?] |];
    destruct (Lifecycle.reject ts _) as [[? | ?] ?]; by eexists.
Qed.

Lemma force_rejected_frame cid ts w :
  let w' := snd (force_rejected cid ts w) in
  same_tokens w w' /\ w_brokers w' = w_brokers w /\ router (w_engine w') = router (w_engine w).
Proof.
  unfold force_rejected. destruct (trackers _ !! _) as [tr |]; [| done].
  destruct (decide _); [destruct (Lifecycle.submit None ts tr) as [[? | ?] ?] |];
    by destruct (Lifecycle.reject ts _) as [[? | ?] ?].
Qed.

Lemma same_tokens_trans w1 w2 w3 : same_tokens w1 w2 -> same_tokens w2 w3 -> same_tokens w1 w3.
Proof. unfold same_tokens. intuition congruence. Qed.

Lemma finish_ok_frame cid ack ck w :
  let w' := snd (finish_submit cid ck (Ok ack) w) in same_tokens w w' /\ w_brokers w' = w_brokers w.
Proof.
  unfold finish_submit, handle_submit_ok, se_bind.
  destruct (on_tracker_frame cid (ExecError.Internal "tracker disappeared")
    (Lifecycle.submit (Some (ack_broker_order_id ack)) (sc_submit ck)) w) as (H1 & H2 & _).
  destruct (on_tracker _ _ _ w) as [[lc | err] w1]; [| done].
  destruct (record_outcome_frame Success 0 (sc_submit ck) w1) as [H3 H4].
  destruct (record_outcome _ _ _ w1) as [[fo | err] w2]; simpl in *;
    (split; [by eapply same_tokens_trans | congruence]).
Qed.

Lemma finish_err_spec cid err ck w :
  let '(r, w') := finish_submit cid ck (Err err) w in
  same_tokens w w' /\ w_brokers w' = w_brokers w
  /\ (ExecError.counts_toward_failover err = false ->
      r = Err err /\ router (w_engine w') = router (w_engine w)
      /\ trackers (w_engine w') = trackers (w_engine (snd (force_rejected cid (sc_submit ck) w)))).
Proof.
  unfold finish_submit, handle_submit_err, se_bind.
  destruct (force_rejected_ok cid (sc_submit ck) w) as [evs Hevs].
  destruct (force_rejected_frame cid (sc_submit ck) w) as (H1 & H2 & H3).
  destruct (force_rejected cid (sc_submit ck) w) as [r1 w1]. simpl in *. subst r1.
  destruct (ExecError.counts_toward_failover err).
  - destruct (record_outcome_frame Failure u32_max (sc_submit ck) w1) as [H4 H5].
    destruct (record_outcome _ _ _ w1) as [[fo | e] w2]; simpl in *;
      (split_and!; [by eapply same_tokens_trans | congruence | done]).
  - simpl. by split_and!.
Qed.

Lemma route_frame intent q cid ck w : same_tokens w (snd (route intent q cid ck w)).
Proof.
  unfold route. destruct (BrokerRouter.pick_for_intent _ _) as [adapter r].
  set (w1 := install_tracker _ _ _).
  assert (same_tokens w w1) as H1.
  { unfold w1, install_tracker. by destruct (trackers _ !! _). }
  clearbody w1. destruct (translate_intent intent q) as [bi | reason]; [| done].
  unfold submit_with_retry. destruct (Retry.retry_with_backoff _ _ _) as [res rw].
  set (w2 := mk_world _ _ _ _ _). assert (same_tokens w w2) as H2 by done. clearbody w2.
  eapply same_tokens_trans; [exact H2 |]. destruct res as [ack | err].
  - apply finish_ok_frame.
  - pose proof (finish_err_spec cid err ck w2) as Hfin. destruct (finish_submit _ _ _ w2). apply Hfin.
Qed.

(** The submissions that pass both token checks. *)
Definition admitted (w : world) (token : Approval.ApprovalToken) (intent : OrderIntent) (q ts seq : Z)
  : bool :=
  Approval.verify hmac (verifier (w_engine w)) token intent q ts seq
  && negb (bool_decide (Approval.as_bytes token ∈ consumed_tokens (w_engine w))).

Lemma submit_spec token intent q ts seq ck w :
  let '(r, w') := submit token intent q ts seq ck w in
  if admitted w token intent q ts seq
  then consumed_tokens (w_engine w') = {[Approval.as_bytes token]} ∪ consumed_tokens (w_engine w)
       /\ verifier (w_engine w') = verifier (w_engine w)
       /\ (r, w') = route intent q (from_be (oi_correlation_id intent)) ck (snd (consume_token token w))
  else w_engine w' = w_engine w /\ w_brokers w' = w_brokers w
       /\ exists h, r = Err (ExecError.InvalidApprovalToken h) \/ r = Err (ExecError.DuplicateToken h).
Proof.
  unfold submit, admitted, consume_token.
  destruct (Approval.verify hmac _ token intent q ts seq); simpl; [| by eauto 10].
  case_decide as Hin.
  - rewrite bool_decide_eq_true_2 by done. simpl. by eauto 10.
  - rewrite bool_decide_eq_false_2 by done. simpl.
    set (w1 := set_engine w _).
    pose proof (route_frame intent q (from_be (oi_correlation_id intent)) ck w1) as [H1 H2].
    destruct (route intent q _ ck w1) as [r w'] eqn:E. simpl in H1, H2. by rewrite H1, H2.
Qed.

(** *** Histories of calls *)

Inductive call :=
| Submit (token : Approval.ApprovalToken) (intent : OrderIntent) (q ts seq : Z) (ck : SubmitClock)
| OnFill (cid : CorrelationId.t) (symbol side cum_qty cum_avg ts : Z)
| Cancel (cid : CorrelationId.t) (now_ns : Z).

Definition do_call (c : call) (w : world) : world :=
  match c with
  | Submit token intent q ts seq ck => snd (submit token intent q ts seq ck w)
  | OnFill cid symbol side q a ts => snd (on_fill cid symbol side q a ts w)
  | Cancel cid now => snd (cancel cid now w)
  end.

(** The tokens of the submissions a history lets through to a broker, in order. *)
Fixpoint routed (w : world) (cs : list call) : list (list Z) :=
  match cs with
  | [] => []
  | c :: cs =>
      match c with
      | Submit token intent q ts seq _ =>
          if admitted w token intent q ts seq then [Approval.as_bytes token] else []
      | _ => []
      end ++ routed (do_call c w) cs
  end.

Lemma on_fill_frame cid symbol side q a ts w :
  let w' := snd (on_fill cid symbol side q a ts w) in same_tokens w w' /\ w_brokers w' = w_brokers w.
Proof.
  unfold on_fill. destruct (trackers _ !! _) as [tr |]; [| done].
  destruct (Lifecycle.partial_fill q a ts tr) as [[lc | err] tr']; [| done].
  by destruct (_ =? 0).
Qed.

Lemma cancel_frame cid now w : same_tokens w (snd (cancel cid now w)).
Proof.
  unfold cancel. destruct (trackers _ !! _) as [tr |]; [| done].
  destruct (ba_cancel _ _ _) as [[ok | err] b]; [| done].
  by destruct (Lifecycle.cancel now tr) as [[ev | err] tr'].
Qed.

Lemma routed_fresh cs : forall w, NoDup (routed w cs)
  /\ Forall (fun tk => tk ∉ consumed_tokens (w_engine w)) (routed w cs).
Proof.
  induction cs as [| c cs IH]; intros w; [split; constructor |]. simpl.
  destruct (IH (do_call c w)) as [Hnd Hf].
  destruct c as [token intent q ts seq ck | cid symbol side q a ts | cid now]; simpl in *.
  - pose proof (submit_spec token intent q ts seq ck w) as Hs.
    destruct (submit token intent q ts seq ck w) as [r w']. simpl in *.
    destruct (admitted w token intent q ts seq) eqn:Ha; simpl.
    + destruct Hs as (Hc & _ & _). rewrite Hc in Hf. unfold admitted in Ha.
      apply andb_prop in Ha as [_ Ha]. apply negb_true_iff, bool_decide_eq_false in Ha.
      rewrite Forall_forall in Hf. split.
      * constructor; [| done]. intros Hin. apply (Hf _ Hin), elem_of_union_l. by apply elem_of_singleton.
      * constructor; [done |]. apply Forall_forall. intros tk Hin Hold. apply (Hf _ Hin). by apply elem_of_union_r.
    + destruct Hs as (He & _ & _). rewrite He in Hf. by split.
  - destruct (on_fill_frame cid symbol side q a ts w) as [[-> _] _] in Hf. by split.
  - destruct (cancel_frame cid now w) as [-> _] in Hf. by split.
Qed.
(** *** Accounting of one order's fills *)

(** The broker's reports of one order: cumulative quantities with their report times, and
    the cumulative average as a function of the cumulative quantity. *)
Fixpoint fill_all (avg : Z -> Z) (cid : CorrelationId.t) (symbol side : Z) (reports : list (Z * Z))
  (w : world) : list EngineEvent * world :=
  match reports with
  | [] => ([], w)
  | (cum, ts) :: reports =>
      let '(r, w) := on_fill cid symbol side cum (avg cum) ts w in
      let '(evs, w) := fill_all avg cid symbol side reports w in
      (match r with Ok l => l ++ evs | Err _ => evs end, w)
  end.

Definition fills (evs : list EngineEvent) : list (Z * Z) :=
  omap (fun ev => match ev with FillEv _ _ _ q px _ => Some (q, px) | _ => None end) evs.
Definition total_qty (l : list (Z * Z)) : Z := list_sum l.*1.
Definition total_notional (l : list (Z * Z)) : Z := list_sum ((fun f => f.1 * f.2) <$> l).

Lemma on_fill_step avg cid symbol side cum ts w tr :
  trackers (w_engine w) !! CorrelationId.as_u128 cid = Some tr ->
  0 <= Lifecycle.filled_qty tr <= Lifecycle.requested_qty tr ->
  Lifecycle.requested_qty tr < 2 ^ 31 -> (forall x, Z.abs (avg x) < 2 ^ 31) ->
  Lifecycle.avg_fill_paise tr * Lifecycle.filled_qty tr
    = avg (Lifecycle.filled_qty tr) * Lifecycle.filled_qty tr ->
  let '(r, w') := on_fill cid symbol side cum (avg cum) ts w in
  exists tr', trackers (w_engine w') !! CorrelationId.as_u128 cid = Some tr'
  /\ Lifecycle.requested_qty tr' = Lifecycle.requested_qty tr
  /\ Lifecycle.avg_fill_paise tr' * Lifecycle.filled_qty tr'
      = avg (Lifecycle.filled_qty tr') * Lifecycle.filled_qty tr'
  /\ 0 <= Lifecycle.filled_qty tr' <= Lifecycle.requested_qty tr'
  /\ (let l := fills (match r with Ok l => l | Err _ => [] end) in
      total_qty l = Lifecycle.filled_qty tr' - Lifecycle.filled_qty tr
      /\ Z.abs (total_notional l
                - (Lifecycle.avg_fill_paise tr' * Lifecycle.filled_qty tr'
                   - Lifecycle.avg_fill_paise tr * Lifecycle.filled_qty tr))
         <= total_qty l - Z.of_nat (length l)).
Proof.
  intros Htr Hq Hreq Havg Hinv. unfold on_fill. rewrite Htr.
  pose proof (Lifecycle.partial_fill_cases cum (avg cum) ts tr) as Hc.
  destruct (Lifecycle.partial_fill cum (avg cum) ts tr) as [[lc | err] tr'].
  2: { subst tr'. exists tr. split_and!; try done; unfold total_notional, total_qty; simpl; lia. }
  destruct Hc as (Hcum & st & ->). set (tr' := Lifecycle.set_state _ _).
  unfold u64_sat_sub. rewrite sat_id by (unfold_ok; lia).
  destruct (Z.eqb_spec (cum - Lifecycle.filled_qty tr) 0) as [Hz | Hnz].
  - exists tr'. simpl. rewrite lookup_insert_eq. assert (cum = Lifecycle.filled_qty tr) as -> by lia.
    split_and!; try done; try lia; unfold total_notional, total_qty; simpl; lia.
  - exists tr'. simpl. rewrite lookup_insert_eq. split_and!; try done; try lia;
      unfold total_notional, total_qty; simpl; [lia |].
    set (F := Lifecycle.filled_qty tr) in *. rewrite Hinv.
    set (d := avg cum * cum - avg F * F).
    pose proof (Havg cum). pose proof (Havg F).
    assert (Z.abs d < 2 ^ 63) as Hd by (unfold d; nia).
    rewrite as_i128_id by (unfold_ok; lia).
    pose proof (Z.quot_rem' d (cum - F)) as Hqr.
    pose proof (Z.rem_bound_abs d (cum - F) ltac:(lia)) as Hrem.
    assert (Z.abs (Z.quot d (cum - F)) <= Z.abs d) as Hquot.
    { rewrite <- Z.quot_abs by lia. rewrite Z.quot_div_nonneg by lia.
      apply Z.div_le_upper_bound; nia. }
    rewrite as_i64_id by (unfold_ok; lia). lia.
Qed.
Lemma fills_app l1 l2 : fills (l1 ++ l2) = fills l1 ++ fills l2.
Proof. apply omap_app. Qed.
Lemma total_qty_app l1 l2 : total_qty (l1 ++ l2) = total_qty l1 + total_qty l2.
Proof. unfold total_qty. by rewrite fmap_app, list_sum_app. Qed.
Lemma total_notional_app l1 l2 : total_notional (l1 ++ l2) = total_notional l1 + total_notional l2.
Proof. unfold total_notional. by rewrite fmap_app, list_sum_app. Qed.

Lemma fill_all_spec avg cid symbol side reports : forall w tr,
  trackers (w_engine w) !! CorrelationId.as_u128 cid = Some tr ->
  0 <= Lifecycle.filled_qty tr <= Lifecycle.requested_qty tr ->
  Lifecycle.requested_qty tr < 2 ^ 31 -> (forall x, Z.abs (avg x) < 2 ^ 31) ->
  Lifecycle.avg_fill_paise tr * Lifecycle.filled_qty tr
    = avg (Lifecycle.filled_qty tr) * Lifecycle.filled_qty tr ->
  let '(evs, w') := fill_all avg cid symbol side reports w in
  exists tr', trackers (w_engine w') !! CorrelationId.as_u128 cid = Some tr'
  /\ Lifecycle.requested_qty tr' = Lifecycle.requested_qty tr
  /\ 0 <= Lifecycle.filled_qty tr' <= Lifecycle.requested_qty tr'
  /\ total_qty (fills evs) = Lifecycle.filled_qty tr' - Lifecycle.filled_qty tr
  /\ Z.abs (total_notional (fills evs)
            - (Lifecycle.avg_fill_paise tr' * Lifecycle.filled_qty tr'
               - Lifecycle.avg_fill_paise tr * Lifecycle.filled_qty tr))
     <= total_qty (fills evs) - Z.of_nat (length (fills evs)).
Proof.
  induction reports as [| [cum ts] reports IH]; intros w tr Htr Hq Hreq Havg Hinv.
  { simpl. exists tr. split_and!; try done; unfold total_qty, total_notional; simpl; lia. }
  simpl. pose proof (on_fill_step avg cid symbol side cum ts w tr Htr Hq Hreq Havg Hinv) as H1.
  destruct (on_fill cid symbol side cum (avg cum) ts w) as [r w1].
  destruct H1 as (tr1 & Htr1 & Hreq1 & Hinv1 & Hq1 & Ht1 & Hn1).
  pose proof (IH w1 tr1 Htr1 Hq1 ltac:(lia) Havg Hinv1) as H2.
  destruct (fill_all avg cid symbol side reports w1) as [evs w2].
  destruct H2 as (tr2 & Htr2 & Hreq2 & Hq2 & Ht2 & Hn2).
  exists tr2. split_and!; [done | congruence | lia | lia | |].
  - destruct r as [l | err]; [rewrite fills_app, total_qty_app | simpl in Ht1]; unfold total_qty in *; simpl in *; lia.
  - destruct r as [l | err].
    + rewrite fills_app, total_qty_app, total_notional_app, length_app. lia.
    + unfold total_qty, total_notional in *. simpl in *. lia.
Qed.
End engine.
Arguments t : clear implicits.
Arguments world : clear implicits.
End ExecEngine.

(** ** Properties *)

Section properties.
Context (hmac : list Z -> list Z -> list Z) {W J : Type} `{!Retry.JitterSource J}.
Import ExecEngine.

(** C4: approval tokens are single-use: through any history of submissions, fill reports
    and cancellations no token reaches the brokers twice, and none that was consumed
    before; a submission whose token does not verify or is already consumed fails without
    changing the engine or contacting a broker. *)
Theorem token_routed_at_most_once (w : world W J) (cs : list call) :
  NoDup (routed hmac w cs)
  /\ Forall (fun tk => tk ∉ consumed_tokens (w_engine w)) (routed hmac w cs)
  /\ forall token intent q ts seq ck, admitted hmac w token intent q ts seq = false ->
      let '(r, w') := submit hmac token intent q ts seq ck w in
      w_engine w' = w_engine w /\ w_brokers w' = w_brokers w
      /\ exists h, r = Err (ExecError.InvalidApprovalToken h) \/ r = Err (ExecError.DuplicateToken h).
Proof.
  destruct (routed_fresh hmac cs w) as [H1 H2]. split; [done | split; [done |]].
  intros token intent q ts seq ck Ha.
  pose proof (submit_spec hmac token intent q ts seq ck w) as Hs.
  destruct (submit hmac token intent q ts seq ck w) as [r w']. by rewrite Ha in Hs.
Qed.

(** C5: the per-fill events derived from an order's cumulative reports account for the
    order: whatever reports arrive, late, repeated, regressing or beyond the requested
    quantity, the emitted quantities add up to the tracker's filled quantity, which stays
    within the request, and the emitted notional differs from the cumulative one by less
    than one paisa per share (the truncation of each fill's price). *)
Theorem fill_events_account_for_order (avg : Z -> Z) (cid : CorrelationId.t) (symbol side : Z)
  (reports : list (Z * Z)) (w : world W J) (tr : Lifecycle.Tracker) :
  trackers (w_engine w) !! cid = Some tr -> Lifecycle.filled_qty tr = 0 ->
  0 <= Lifecycle.requested_qty tr < 2 ^ 31 -> (forall x, Z.abs (avg x) < 2 ^ 31) ->
  let '(evs, w') := fill_all avg cid symbol side reports w in
  exists tr', trackers (w_engine w') !! cid = Some tr'
  /\ total_qty (fills evs) = Lifecycle.filled_qty tr'
  /\ 0 <= Lifecycle.filled_qty tr' <= Lifecycle.requested_qty tr
  /\ Z.abs (total_notional (fills evs) - Lifecycle.avg_fill_paise tr' * Lifecycle.filled_qty tr')
     <= Lifecycle.filled_qty tr' - Z.of_nat (length (fills evs)).
Proof.
  intros Htr H0 Hreq Havg.
  pose proof (fill_all_spec avg cid symbol side reports w tr Htr) as Hall. rewrite H0 in Hall.
  specialize (Hall ltac:(lia) ltac:(lia) Havg ltac:(lia)).
  destruct (fill_all avg cid symbol side reports w) as [evs w'].
  destruct Hall as (tr' & Htr' & Hr' & Hq' & Ht & Hn). exists tr'.
  rewrite Hr' in Hq'. split_and!; try done; lia.
Qed.

(** A submission that gives up after retryable (transient or network) errors leaves
    the router exactly as it was: such failures never enter the failover window, so no
    number of them makes the engine switch brokers. *)
Theorem exhausted_retries_never_reach_router (w w' : world W J) token intent q ts seq ck n msg :
  submit hmac token intent q ts seq ck w = (Err (ExecError.RetryExhausted n msg), w') ->
  router (w_engine w') = router (w_engine w).
Proof.
  intros Hs. pose proof (submit_spec hmac token intent q ts seq ck w) as Hsp. rewrite Hs in Hsp.
  destruct (admitted hmac w token intent q ts seq); [| by destruct Hsp as [-> _]].
  destruct Hsp as (_ & _ & Hsp).
  assert (router (w_engine (snd (consume_token token w))) = router (w_engine w)) as Hc.
  { unfold consume_token. by case_decide. }
  rewrite <- Hc. revert Hsp. generalize (snd (consume_token token w)). clear. intros w0.
  unfold route. simpl.
  set (w1 := install_tracker _ _ _).
  assert (router (w_engine w1) = router (w_engine w0)) as H1.
  { unfold w1, install_tracker. destruct w0 as [[] ? ? ? ?]. simpl. by destruct (_ !! _). }
  clearbody w1. destruct (translate_intent intent q) as [bi | reason]; [| by intros [=]].
  unfold submit_with_retry. destruct (Retry.retry_with_backoff _ _ _) as [res rw].
  set (w2 := mk_world _ _ _ _ _). assert (router (w_engine w2) = router (w_engine w1)) as H2 by done.
  rewrite <- H1, <- H2. clearbody w2. destruct res as [ack | err].
  - (* a success never ends in RetryExhausted *)
    unfold finish_submit, handle_submit_ok, se_bind, on_tracker.
    destruct (trackers _ !! _) as [tr |]; [| by intros [=]].
    unfold Lifecycle.submit, Lifecycle.transition_no_fill.
    destruct (Lifecycle.is_legal_transition _ _); simpl; [| by intros [=]].
    unfold record_outcome. by destruct (BrokerRouter.record_outcome _ _ _ _) as [[ev r] |]; intros [=].
  - pose proof (finish_err_spec (from_be (oi_correlation_id intent)) err ck w2) as Hf.
    unfold finish_submit, handle_submit_err, se_bind in *.
    destruct (force_rejected_ok (from_be (oi_correlation_id intent)) (sc_submit ck) w2) as [evs Hevs].
    destruct (force_rejected _ _ w2) as [r1 w3]. simpl in Hevs. subst r1.
    destruct (ExecError.counts_toward_failover err) eqn:Hcount.
    + unfold record_outcome. destruct (BrokerRouter.record_outcome _ _ _ _) as [[ev r] |];
        intros [= Herr _]; by subst err.
    + simpl in *. intros [= _ ->]. by apply Hf.
Qed.

(** A second approval for a correlation id that already has an order: the broker is
    asked to place it and accepts it, but the engine keeps the first order's tracker, and
    the call ends in an error that neither records the new broker order id nor emits a
    latency record. *)
Theorem second_order_for_cid_is_untracked (w : world W J) token intent q ts seq ck tr bo ack brokers' :
  let cid := from_be (oi_correlation_id intent) in
  let adapter := BrokerRouter.active_adapter (router (w_engine w)) in
  admitted hmac w token intent q ts seq = true ->
  trackers (w_engine w) !! cid = Some tr -> Lifecycle.state tr <> OrderLifecycleState.New ->
  translate_intent intent q = Ok bo ->
  ba_submit adapter bo (w_brokers w) = (Ok ack, brokers') ->
  let '(r, w') := submit hmac token intent q ts seq ck w in
  r = Err (ExecError.InvalidFsmTransition (Lifecycle.state tr) OrderLifecycleState.Submitted)
  /\ w_brokers w' = brokers' /\ trackers (w_engine w') = trackers (w_engine w)
  /\ w_emitted w' = w_emitted w.
Proof.
  intros cid adapter Ha Htr Hst Hbo Hack. subst adapter.
  pose proof (submit_spec hmac token intent q ts seq ck w) as Hs. rewrite Ha in Hs.
  destruct (submit hmac token intent q ts seq ck w) as [r w']. destruct Hs as (_ & _ & Hs).
  unfold consume_token in Hs. unfold admitted in Ha. apply andb_prop in Ha as [_ Ha].
  apply negb_true_iff, bool_decide_eq_false in Ha. rewrite decide_False in Hs by done.
  simpl in Hs. revert Hs. unfold route. simpl. unfold install_tracker. simpl. fold cid.
  unfold CorrelationId.as_u128. rewrite Htr, Hbo. unfold submit_with_retry.
  rewrite (Retry.retry_first_ok _ _ _ ack brokers') by (simpl; unfold broker_submit; by rewrite Hack).
  unfold finish_submit, handle_submit_ok, se_bind, on_tracker. simpl.
  unfold CorrelationId.as_u128. rewrite Htr.
  unfold Lifecycle.submit, Lifecycle.transition_no_fill.
  assert (Lifecycle.is_legal_transition (Lifecycle.state tr) OrderLifecycleState.Submitted = false)
    as -> by (by destruct (Lifecycle.state tr)).
  simpl. intros [= -> ->]. simpl. by rewrite insert_id.
Qed.
End properties.

(** *** A sample engine: brokers whose remote state counts the orders they were sent *)

Module ExecSample.
Import ExecEngine.
Definition hmac (k m : list Z) : list Z := k ++ m.
Definition adapter (b : BrokerId.t) (answer : result SubmitAck BrokerError.t) : BrokerAdapter Z :=
  mk_BrokerAdapter b (fun _ n => (answer, n + 1))
    (fun _ => se_ret tt) (fun _ => se_ret tt) (fun _ => se_fail (BrokerError.UnknownOrderId "x"))
    (fun w => (ReadyState.Ready, w)).
Definition engine (answer : result SubmitAck BrokerError.t) : t Z :=
  new (BrokerRouter.new (adapter BrokerId.Zerodha answer) (adapter BrokerId.Dhan answer)
         (from_broker_config (f32_lit 20 100) 250))
    (Approval.mk_verifier [1; 2]) Retry.default Off.
Definition start (answer : result SubmitAck BrokerError.t) : world Z unit :=
  mk_world (engine answer) 0 [] tt [].
Definition accepted : result SubmitAck BrokerError.t := Ok (mk_SubmitAck "B1" None).
Definition busy : result SubmitAck BrokerError.t := Err (BrokerError.Transient "busy").
Definition token (seq : Z) : Approval.ApprovalToken :=
  Approval.sign hmac (Approval.mk_signer [1; 2]) sample_intent 10 99 seq.
Definition clock : SubmitClock := mk_SubmitClock 100 200 300.
Definition order (seq : Z) : call := Submit (token seq) sample_intent 10 99 seq clock.
Definition cid : CorrelationId.t := from_be (oi_correlation_id sample_intent).
(** After one accepted order. *)
Definition placed : world Z unit := do_call hmac (order 1) (start accepted).
End ExecSample.

Lemma token_routed_at_most_once_witness :
  let '(r, w') := ExecEngine.submit ExecSample.hmac (ExecSample.token 1) sample_intent 10 99 1
                    ExecSample.clock ExecSample.placed in
  ExecEngine.w_brokers w' = 1.
Proof.
  destruct (token_routed_at_most_once ExecSample.hmac ExecSample.placed
    [ExecSample.order 1; ExecSample.order 2]) as (_ & _ & H).
  specialize (H (ExecSample.token 1) sample_intent 10 99 1 ExecSample.clock ltac:(vm_compute; reflexivity)).
  destruct (ExecEngine.submit _ _ _ _ _ _ _ _) as [r w']. destruct H as (_ & -> & _).
  vm_compute. reflexivity.
Defined.

Lemma fill_events_account_for_order_witness :
  let avg := fun q => if q =? 4 then 9950 else 10000 in
  let '(evs, w') := ExecEngine.fill_all avg ExecSample.cid 42 0 [(4, 1); (4, 2); (3, 3); (10, 4); (12, 5)]
                      ExecSample.placed in
  exists tr', ExecEngine.trackers (ExecEngine.w_engine w') !! ExecSample.cid = Some tr'
  /\ ExecEngine.total_qty (ExecEngine.fills evs) = Lifecycle.filled_qty tr'.
Proof.
  intros avg.
  pose proof (fill_events_account_for_order avg ExecSample.cid 42 0
    [(4, 1); (4, 2); (3, 3); (10, 4); (12, 5)] ExecSample.placed
    (Lifecycle.mk_Tracker ExecSample.cid BrokerId.Zerodha OrderLifecycleState.Submitted 10 0 0 (Some "B1"))
    ltac:(vm_compute; reflexivity) eq_refl ltac:(simpl; lia)
    ltac:(intros x; unfold avg; destruct (x =? 4); lia)) as H.
  destruct (ExecEngine.fill_all _ _ _ _ _ _) as [evs w'].
  destruct H as (tr' & H1 & H2 & _). by exists tr'.
Defined.

Lemma exhausted_retries_never_reach_router_witness :
  exists w', ExecEngine.submit ExecSample.hmac (ExecSample.token 1) sample_intent 10 99 1
      ExecSample.clock (ExecSample.start ExecSample.busy)
    = (Err (ExecError.RetryExhausted 3 "broker Zerodha (attempt 3): broker transient error: busy"), w')
  /\ ExecEngine.w_brokers w' = 3
  /\ BrokerRouter.active_id (ExecEngine.router (ExecEngine.w_engine w')) = BrokerId.Zerodha.
Proof.
  eexists. split; [vm_compute; reflexivity |]. split; [reflexivity |].
  erewrite (exhausted_retries_never_reach_router ExecSample.hmac (ExecSample.start ExecSample.busy)
    _ (ExecSample.token 1) sample_intent 10 99 1 ExecSample.clock); [reflexivity |].
  vm_compute. reflexivity.
Defined.

Lemma second_order_for_cid_is_untracked_witness :
  let '(r, w') := ExecEngine.submit ExecSample.hmac (ExecSample.token 2) sample_intent 10 99 2
                    ExecSample.clock ExecSample.placed in
  r = Err (ExecError.InvalidFsmTransition OrderLifecycleState.Submitted OrderLifecycleState.Submitted)
  /\ ExecEngine.w_brokers w' = 2.
Proof.
  pose proof (second_order_for_cid_is_untracked ExecSample.hmac ExecSample.placed
    (ExecSample.token 2) sample_intent 10 99 2 ExecSample.clock
    (Lifecycle.mk_Tracker ExecSample.cid BrokerId.Zerodha OrderLifecycleState.Submitted 10 0 0 (Some "B1"))
    (mk_BrokerOrder ExecSample.cid 42 Side.Sell 10 OrderType.Market (-5) Exchange.Nse)
    (mk_SubmitAck "B1" None) 2
    ltac:(vm_compute; reflexivity) ltac:(vm_compute; reflexivity) ltac:(discriminate)
    ltac:(vm_compute; reflexivity) ltac:(vm_compute; reflexivity)) as H.
  destruct (ExecEngine.submit _ _ _ _ _ _ _ _) as [r w']. destruct H as (-> & -> & _). by split.
Defined.
