(* ===== verification/LiveRoute.v ===== *)
(** crates/hedge-exec/src/main.rs: how the deployed binary turns an approval event into
    orders, with the symbol table of crates/hedge-bus/src/symbol_table.rs.

    The event is the record [serde_json] decodes, each field optional.  The world is the
    brokers' remote state, the messages published on the bus, in order, and the number of
    clock readings made: the [k]-th reading is [now k]. *)

From S2P Require Import Prelude Bytes Core Schemas BrokerApi.

Module SymbolTable.
Definition symbol_id_for (sym : string) : Z :=
  if decide (sym = "RELIANCE") then 1
  else if decide (sym = "INFY") then 2
  else if decide (sym = "SBIN") then 3
  else if decide (sym = "HDFCBANK") then 4
  else if decide (sym = "ICICIBANK") then 5
  else if decide (sym = "NSE_INDEX|Nifty 50") then 6
  else if decide (sym = "NSE_INDEX|Nifty Bank") then 7
  else if decide (sym = "NSE_INDEX|Nifty Next 50") then 8
  else if decide (sym = "NSE_INDEX|Nifty Fin Service") then 9
  else if decide (sym = "NSE_INDEX|Nifty 100") then 10
  else 0.

Definition symbol_for_id (id : Z) : option string :=
  match id with
  | 1 => Some "RELIANCE" | 2 => Some "INFY" | 3 => Some "SBIN" | 4 => Some "HDFCBANK"
  | 5 => Some "ICICIBANK" | 6 => Some "NSE_INDEX|Nifty 50" | 7 => Some "NSE_INDEX|Nifty Bank"
  | 8 => Some "NSE_INDEX|Nifty Next 50" | 9 => Some "NSE_INDEX|Nifty Fin Service"
  | 10 => Some "NSE_INDEX|Nifty 100" | _ => None
  end.
End SymbolTable.

Module LiveRoute.

Definition DEFAULT_MAX_NOTIONAL_INR : Z := 50000.

(** The mode the binary starts in, from the environment variable HEDGE_EXEC_LIVE. *)
Definition initial_live (env : option string) : bool :=
  match env with
  | Some v => bool_decide (v = "on") || bool_decide (v = "1") || bool_decide (v = "true")
  | None => false
  end.

Record ApprovalEvent := mk_ApprovalEvent {
  ae_correlation_id : option string;
  ae_sized_quantity : option Z;
  ae_symbol : option string;
  ae_entry_price_paise : option Z;
  ae_side : option string;
}.

(** What is published: the builders [order_event], [fill_event], [reject_event] and the
    failover notice. *)
Inductive Payload :=
| OrderEvent (correlation_id broker_order_id symbol state : string) (filled_qty ts_ns : Z) (paper : bool)
| FillEvent (correlation_id broker_order_id symbol : string) (filled_qty ts_ns : Z) (paper : bool)
| RejectEvent (correlation_id symbol reason : string) (ts_ns : Z)
| FailoverNotice (from to reason : string) (ts_ns : Z).

(** [parse_cid]: up to 16 bytes of the string as a big-endian integer. *)
Definition byte_of (a : Ascii.ascii) : Z := Z.of_N (Ascii.N_of_ascii a).
Definition parse_cid (s : string) : Z :=
  foldl (fun acc b => Z.lor (as_u128 (Z.shiftl acc 8)) b) 0 (take 16 (byte_of <$> String.list_ascii_of_string s)).

Definition parse_side (s : string) : Side.t :=
  if bool_decide (s = "sell") || bool_decide (s = "Sell") || bool_decide (s = "SELL")
  then Side.Sell else Side.Buy.

(** [{:08x}] of a 32-bit value. *)
Definition hex08 (z : Z) : string := Bytes.to_hex (Bytes.be_bytes 4 z).

Section route.
Context {W : Type} (now : nat -> Z).

Record world := mk_world { lw_brokers : W; lw_published : list (string * Payload); lw_reads : nat }.

Definition publish (subject : string) (payload : Z -> Payload) (w : world) : world :=
  mk_world (lw_brokers w) (lw_published w ++ [(subject, payload (now (lw_reads w)))]) (S (lw_reads w)).

Record Brokers := mk_Brokers { primary : BrokerAdapter W; backup : BrokerAdapter W }.

(** [route_paper]; the pause between the two messages changes nothing here. *)
Definition route_paper (correlation_id symbol : string) (qty : Z) (w : world) : world :=
  let now_ns := now (lw_reads w) in
  let w := mk_world (lw_brokers w) (lw_published w) (S (lw_reads w)) in
  let broker_order_id := "PAPER-" +:+ hex08 (Z.land (as_u64 now_ns) 0xFFFFFFFF) in
  let w := publish "exec.order.submitted"
             (fun ts => OrderEvent correlation_id broker_order_id symbol "Submitted" 0 ts true) w in
  publish ("exec.fill." +:+ symbol) (fun ts => FillEvent correlation_id broker_order_id symbol qty ts true) w.

(** [poll_fill]: [n] polls are left of the ten. *)
Fixpoint poll_loop (n : nat) (broker : BrokerAdapter W) (correlation_id symbol broker_order_id : string)
  (w : world) : world :=
  match n with
  | O => w
  | S n =>
      let '(r, b) := ba_status broker broker_order_id (lw_brokers w) in
      let w := mk_world b (lw_published w) (lw_reads w) in
      match r with
      | Ok st =>
          match os_state st with
          | OrderLifecycleState.Filled =>
              publish ("exec.fill." +:+ symbol)
                (fun ts => FillEvent correlation_id broker_order_id symbol (Qty.raw (os_filled_qty st)) ts false) w
          | OrderLifecycleState.Rejected | OrderLifecycleState.Cancelled =>
              publish "exec.order.rejected"
                (fun ts => RejectEvent correlation_id symbol "broker reported rejected/cancelled" ts) w
          | _ => poll_loop n broker correlation_id symbol broker_order_id w
          end
      | Err _ => poll_loop n broker correlation_id symbol broker_order_id w
      end
  end.
Definition poll_fill := poll_loop 10.

Definition submitted (broker : BrokerAdapter W) (correlation_id symbol : string) (ack : SubmitAck)
  (w : world) : world :=
  let w := publish "exec.order.submitted"
             (fun ts => OrderEvent correlation_id (ack_broker_order_id ack) symbol "Submitted" 0 ts false) w in
  poll_fill broker correlation_id symbol (ack_broker_order_id ack) w.

Definition rejected (correlation_id symbol reason : string) (w : world) : world :=
  publish "exec.order.rejected" (fun ts => RejectEvent correlation_id symbol reason ts) w.

Definition blocked_by_cap (price_paise qty max_notional_inr : Z) : bool :=
  let notional_inr := Z.quot (Z.max price_paise 0 * qty) 100 in
  (price_paise >? 0) && (notional_inr >? max_notional_inr).

Definition fails_over (e : BrokerError.t) : bool :=
  BrokerError.is_retryable e || match e with BrokerError.Http _ _ => true | _ => false end.

Definition live_intent (correlation_id : string) (symbol_id : Z) (side : Side.t) (qty : Z) : BrokerOrder :=
  {| bo_correlation_id := parse_cid correlation_id;
     bo_symbol_raw := symbol_id;
     bo_side := side;
     bo_quantity := Qty.new qty;
     bo_order_type := OrderType.Market;
     bo_limit_paise := 0;
     bo_exchange := Exchange.Nse |}.

Definition route_live (brokers : Brokers) (correlation_id symbol : string) (side : Side.t)
  (qty price_paise max_notional_inr : Z) (w : world) : world :=
  if blocked_by_cap price_paise qty max_notional_inr
  then rejected correlation_id symbol "notional_cap_exceeded" w
  else
    let symbol_id := SymbolTable.symbol_id_for symbol in
    if symbol_id =? 0 then rejected correlation_id symbol "unknown_symbol" w
    else
      let intent := live_intent correlation_id symbol_id side qty in
      let '(r, b) := ba_submit (primary brokers) intent (lw_brokers w) in
      let w := mk_world b (lw_published w) (lw_reads w) in
      match r with
      | Ok ack => submitted (primary brokers) correlation_id symbol ack w
      | Err e =>
          if fails_over e then
            let w := publish "exec.broker.failover"
                       (fun ts => FailoverNotice "upstox" "angel_one" (BrokerError.to_string e) ts) w in
            let '(r, b) := ba_submit (backup brokers) intent (lw_brokers w) in
            let w := mk_world b (lw_published w) (lw_reads w) in
            match r with
            | Ok ack => submitted (backup brokers) correlation_id symbol ack w
            | Err e2 =>
                rejected correlation_id symbol ("both brokers failed: " +:+ BrokerError.to_string e2) w
            end
          else rejected correlation_id symbol (BrokerError.to_string e) w
      end.

Definition handle_approval (brokers : Brokers) (data : ApprovalEvent) (live : bool)
  (max_notional_inr : Z) (w : world) : world :=
  let correlation_id := unwrap_or EmptyString (ae_correlation_id data) in
  if decide (correlation_id = EmptyString) then w
  else
    let qty := unwrap_or 0 (ae_sized_quantity data) in
    if qty =? 0 then w
    else
      let symbol := unwrap_or "UNKNOWN" (ae_symbol data) in
      let price_paise := unwrap_or 0 (ae_entry_price_paise data) in
      let side := parse_side (unwrap_or "buy" (ae_side data)) in
      if live
      then route_live brokers correlation_id symbol side qty price_paise max_notional_inr w
      else route_paper correlation_id symbol qty w.
End route.
Arguments Brokers : clear implicits.
Arguments world : clear implicits.
End LiveRoute.

(** The notional cap and the paper mode of the live path.  A paper approval contacts
    no broker; a live one whose price is present and whose notional exceeds the cap
    contacts none either and publishes exactly one rejection; but an approval without a
    price is handled in the same way under every cap, so no cap limits its quantity. *)
Theorem notional_cap_guards_priced_orders_only {W : Type} (now : nat -> Z)
  (brokers : LiveRoute.Brokers W) (data : LiveRoute.ApprovalEvent) (w : LiveRoute.world W) :
  (forall cap, LiveRoute.lw_brokers (LiveRoute.handle_approval now brokers data false cap w)
               = LiveRoute.lw_brokers w)
  /\ (forall cap price qty cid, LiveRoute.ae_entry_price_paise data = Some price -> 0 < price ->
      LiveRoute.ae_sized_quantity data = Some qty -> 0 < qty ->
      LiveRoute.ae_correlation_id data = Some cid -> cid <> EmptyString ->
      cap < price * qty / 100 ->
      LiveRoute.handle_approval now brokers data true cap w
      = LiveRoute.rejected now cid (unwrap_or "UNKNOWN" (LiveRoute.ae_symbol data))
          "notional_cap_exceeded" w)
  /\ (LiveRoute.ae_entry_price_paise data = None ->
      forall cap cap', LiveRoute.handle_approval now brokers data true cap w
                       = LiveRoute.handle_approval now brokers data true cap' w).
Proof.
  split_and!.
  - intros cap. unfold LiveRoute.handle_approval. case_decide; [done |]. by destruct (_ =? 0).
  - intros cap price qty cid Hp Hpos Hq Hqpos Hc Hne Hcap. unfold LiveRoute.handle_approval.
    rewrite Hc, Hq, Hp. simpl. rewrite decide_False by done.
    destruct (Z.eqb_spec qty 0); [lia |]. unfold LiveRoute.route_live, LiveRoute.blocked_by_cap.
    rewrite Z.max_l, Z.quot_div_nonneg by nia. rewrite !Z.gtb_ltb.
    replace (0 <? price) with true by lia. replace (cap <? price * qty / 100) with true by lia. done.
  - intros Hp cap cap'. unfold LiveRoute.handle_approval. rewrite Hp. simpl. done.
Qed.

Module LiveSample.
(** Accepts every order and reports it filled; the remote state counts the orders. *)
Definition adapter (b : BrokerId.t) : BrokerAdapter Z :=
  mk_BrokerAdapter b (fun _ n => (Ok (mk_SubmitAck "U1" None), n + 1))
    (fun _ => se_ret tt) (fun _ => se_ret tt)
    (fun id => se_ret (mk_OrderStatus id OrderLifecycleState.Filled 100000 0 None))
    (fun w => (ReadyState.Ready, w)).
Definition brokers : LiveRoute.Brokers Z :=
  LiveRoute.mk_Brokers (adapter BrokerId.Upstox) (adapter BrokerId.AngelOne).
Definition start : LiveRoute.world Z := LiveRoute.mk_world 0 [] 0.
(** 100000 shares with no price. *)
Definition unpriced : LiveRoute.ApprovalEvent :=
  LiveRoute.mk_ApprovalEvent (Some "c1") (Some 100000) (Some "RELIANCE") None None.
Definition priced : LiveRoute.ApprovalEvent :=
  LiveRoute.mk_ApprovalEvent (Some "c1") (Some 100000) (Some "RELIANCE") (Some 250000) None.
End LiveSample.

Lemma notional_cap_guards_priced_orders_only_witness :
  let now := Z.of_nat in
  let go d cap := LiveRoute.handle_approval now LiveSample.brokers d true cap LiveSample.start in
  LiveRoute.lw_brokers (go LiveSample.priced 50000) = 0
  /\ go LiveSample.unpriced 0 = go LiveSample.unpriced 50000
  /\ LiveRoute.lw_brokers (go LiveSample.unpriced 0) = 1.
Proof.
  intros now go.
  destruct (notional_cap_guards_priced_orders_only now LiveSample.brokers LiveSample.priced LiveSample.start)
    as (_ & H1 & _).
  destruct (notional_cap_guards_priced_orders_only now LiveSample.brokers LiveSample.unpriced LiveSample.start)
    as (_ & _ & H2).
  split_and!; [| exact (H2 eq_refl 0 50000) | vm_compute; reflexivity].
  unfold go. rewrite (H1 50000 250000 100000 "c1"); try reflexivity; discriminate.
Defined.
