(* ===== verification/RiskService.v ===== *)
(** The risk service around the engine (crates/hedge-risk/src/main.rs and persistence.rs): the
    handler of an emitted signal, the decision it publishes, and the saved soft state. With it,
    the path from a signal to the brokers: the service's approvals are what the handler of
    LiveRoute.v receives. *)

From S2P Require Import Prelude Ieee Bytes Core Schemas BrokerApi KillSwitch RiskTables Approval Config Decision RiskEngine LiveRoute.

Module RiskService.

(** A [sig.emitted] document: the fields the handler reads, each of the type it asks for. *)
Record SignalEvent := mk_SignalEvent {
  ev_correlation_id : option string;
  ev_symbol : option string;
  ev_side : option string;
  ev_base_probability : option f64;
  ev_confidence : option f64;
  ev_ts_ns : option Z;
  ev_entry_price_paise : option Z;
}.

Definition side_of (side_str : string) : Z :=
  if bool_decide (side_str ∈ ["buy"; "Buy"; "BUY"]) then 0
  else if bool_decide (side_str ∈ ["sell"; "Sell"; "SELL"]) then 1 else 0.

(** The first 16 bytes of the text, zeros behind them. *)
Definition cid_bytes_of (cid_str : string) : list Z :=
  let bytes := take 16 (LiveRoute.byte_of <$> String.list_ascii_of_string cid_str) in
  bytes ++ replicate (16 - length bytes) 0.

Definition build_signal_v1 (v : SignalEvent) : option Signal :=
  symbol_str ← ev_symbol v;
  let symbol_id := SymbolTable.symbol_id_for symbol_str in
  if symbol_id =? 0 then None
  else
    let half := f64_lit 1 2 in
    Some {| sig_correlation_id := cid_bytes_of (unwrap_or EmptyString (ev_correlation_id v));
            sig_strategy := 0;
            sig_symbol := symbol_id;
            sig_side := side_of (unwrap_or "buy" (ev_side v));
            sig_base_probability := f64_to_f32 (unwrap_or half (ev_base_probability v));
            sig_confidence := f64_to_f32 (unwrap_or half (ev_confidence v));
            sig_risk_profile := {| stop_loss_paise := 0; take_profit_paise := 0;
                                   max_size_qty := 100; time_horizon_seconds := 60 |};
            sig_ts_ns := unwrap_or 0 (ev_ts_ns v) |}.

(** The data of a published decision; a rejection names no side and no symbol. *)
Record DecisionPayload := mk_DecisionPayload {
  dp_correlation_id : string;
  dp_approved : bool;
  dp_rationale_code : Z;
  dp_rationale : string;
  dp_sized_quantity : Z;
  dp_side : option string;
  dp_symbol : option string;
  dp_ts_ns : Z;
}.

Definition side_str (side : Z) : string := if side =? 1 then "sell" else "buy".

Definition build_decision_payload (correlation_id : string) (decision : RiskDecision)
  (signal : Signal) (now_ns : Z) : string * DecisionPayload :=
  let symbol_str := unwrap_or "UNKNOWN" (SymbolTable.symbol_for_id (sig_symbol signal)) in
  match decision with
  | Approved _ sized_quantity _ =>
      ("risk.decision.approved",
       mk_DecisionPayload correlation_id true 0 "approved" sized_quantity
         (Some (side_str (sig_side signal))) (Some symbol_str) now_ns)
  | Rejected reason _ =>
      ("risk.decision.rejected",
       mk_DecisionPayload correlation_id false (RejectionReason.as_u8 reason)
         (RejectionReason.as_str reason) 0 None None now_ns)
  end.

Section service.
Context (hmac : list Z -> list Z -> list Z) {V : Type} {view : WarmCacheView V}.

(** One message: [None] for one that is not JSON. What is published, if anything, and the
    engine afterwards; the outer [None] is a panic of the engine. *)
Definition handle_signal (e : RiskEngine.t (V := V)) (v : option SignalEvent) (ck : RiskEngine.Clock)
  (now_ns : Z) : option (option (string * DecisionPayload) * RiskEngine.t (V := V)) :=
  match v with
  | None => Some (None, e)
  | Some v =>
    match build_signal_v1 v with
    | None => Some (None, e)
    | Some signal =>
      let entry_price_paise := unwrap_or 0 (ev_entry_price_paise v) in
      '(decision, e) ← RiskEngine.evaluate hmac e signal entry_price_paise ck;
      let corr_hex := unwrap_or EmptyString (ev_correlation_id v) in
      Some (Some (build_decision_payload corr_hex decision signal now_ns), e)
    end
  end.
End service.
End RiskService.

(** ** Saved soft state (persistence.rs) *)

Module RiskPersistence.

Record PersistedCooldown := mk_PersistedCooldown { pc_symbol : Z; pc_expiry_ns : Z; pc_reason : Z }.
Record RiskStateSnapshot := mk_RiskStateSnapshot {
  cooldowns : list PersistedCooldown;
  daily_pnl_paise : Z;
}.
Definition default_snapshot : RiskStateSnapshot := mk_RiskStateSnapshot [] 0.

Definition KEY_COOLDOWNS : string := "hedge:risk:cooldowns".
Definition KEY_DAILY_PNL : string := "hedge:risk:daily_pnl_paise".
Definition STATE_TTL_SECS : Z := 18 * 60 * 60.

(** What is used of the key-value server, and of the JSON form of the cooldown list. *)
Class Server := {
  Store : Type;
  set_text : string -> string -> Z -> Store -> result unit string * Store;
  set_int : string -> Z -> Z -> Store -> result unit string * Store;
  get_text : string -> Store -> result (option string) string;
  get_int : string -> Store -> result (option Z) string;
  encode : list PersistedCooldown -> result string string;
  decode : string -> result (list PersistedCooldown) string;
}.

Section persistence.
Context `{Server}.

(** The two keys are written independently; a failure is logged. *)
Definition save (snapshot : RiskStateSnapshot) (s : Store) : Store :=
  match encode (cooldowns snapshot) with
  | Err _ => s
  | Ok json =>
    let s := (set_text KEY_COOLDOWNS json STATE_TTL_SECS s).2 in
    (set_int KEY_DAILY_PNL (daily_pnl_paise snapshot) STATE_TTL_SECS s).2
  end.

Definition load (s : Store) : RiskStateSnapshot :=
  mk_RiskStateSnapshot
    (match get_text KEY_COOLDOWNS s with
     | Ok (Some json) => match decode json with Ok l => l | Err _ => [] end
     | _ => []
     end)
    (match get_int KEY_DAILY_PNL s with Ok (Some v) => v | _ => 0 end).

(** The periodic save of the binary. *)
Definition save_tick (s : Store) : Store := save default_snapshot s.

(** A server that keeps what is written, and a list that is decoded as it was encoded. *)
Record faithful : Prop := {
  text_kept k v ttl s : get_text k (set_text k v ttl s).2 = Ok (Some v);
  text_kept_int k k' v ttl s : k <> k' -> get_text k (set_int k' v ttl s).2 = get_text k s;
  int_kept k v ttl s : get_int k (set_int k v ttl s).2 = Ok (Some v);
  codec_kept l : exists json, encode l = Ok json /\ decode json = Ok l;
}.

Lemma load_save snap s : faithful -> load (save snap s) = snap.
Proof.
  intros F. destruct (codec_kept F (cooldowns snap)) as (json & He & Hd).
  unfold load, save. rewrite He, (int_kept F), (text_kept_int F), (text_kept F), Hd by done.
  by destruct snap.
Qed.

(** What a restart finds is empty whatever the session did: the binary saves the default. *)
Lemma restart_finds_nothing n s : faithful -> load (Nat.iter (S n) save_tick s) = default_snapshot.
Proof. intros F. apply (load_save default_snapshot _ F). Qed.
End persistence.
End RiskPersistence.
