(* ===== verification/Pipeline.v ===== *)
(** From a signal to the brokers: the risk service (RiskService.v) and the live execution handler
    (LiveRoute.v) put together over the bus, and what their composition guarantees. *)

From S2P Require Import Prelude Ieee Bytes Core Schemas BrokerApi KillSwitch RiskTables Approval Config Decision RiskEngine LiveRoute RiskService.

Module Pipeline.
Import RiskService.

(** The fields the execution handler reads from a published decision. There is no price. *)
Definition approval_of (p : DecisionPayload) : LiveRoute.ApprovalEvent :=
  LiveRoute.mk_ApprovalEvent (Some (dp_correlation_id p)) (Some (dp_sized_quantity p)) (dp_symbol p)
    None (dp_side p).

(** One emitted signal with the readings of the clocks, and the trading mode when its decision
    arrives. *)
Record message := mk_message {
  m_event : option SignalEvent;
  m_clock : RiskEngine.Clock;
  m_now_ns : Z;
  m_live : bool;
}.

Section pipeline.
Context (hmac : list Z -> list Z -> list Z) {V : Type} {view : WarmCacheView V}.
Context {W : Type} (now : nat -> Z) (brokers : LiveRoute.Brokers W) (max_notional_inr : Z).

Abbreviation engine := (RiskEngine.t (V := V)).
Abbreviation world := (LiveRoute.world W).

(** The execution service subscribes to approvals only. *)
Definition deliver (live : bool) (published : option (string * DecisionPayload)) (w : world) : world :=
  match published with
  | Some (subject, p) =>
    if decide (subject = "risk.decision.approved")
    then LiveRoute.handle_approval now brokers (approval_of p) live max_notional_inr w
    else w
  | None => w
  end.

Definition step (e : engine) (w : world) (m : message) : option (engine * world) :=
  '(published, e) ← handle_signal hmac e (m_event m) (m_clock m) (m_now_ns m);
  Some (e, deliver (m_live m) published w).

Fixpoint run (e : engine) (w : world) (ms : list message) : option (engine * world) :=
  match ms with
  | [] => Some (e, w)
  | m :: ms => '(e, w) ← step e w m; run e w ms
  end.

(** ** Specification: the engine's approvals, routed one after the other *)

(** Status polls of one broker. *)
Definition polls (b : BrokerAdapter W) (id : string) : W -> W -> Prop :=
  rtc (fun s s' => s' = (ba_status b id s).2).

(** One order: the primary is asked once; the backup once, if the primary's error asks for it. *)
Inductive routed (order : BrokerOrder) : W -> W -> Prop :=
| routed_primary s ack s1 s2 : ba_submit (LiveRoute.primary brokers) order s = (Ok ack, s1) ->
    polls (LiveRoute.primary brokers) (ack_broker_order_id ack) s1 s2 -> routed order s s2
| routed_refused s err s1 : ba_submit (LiveRoute.primary brokers) order s = (Err err, s1) ->
    LiveRoute.fails_over err = false -> routed order s s1
| routed_backup s err s1 ack s2 s3 : ba_submit (LiveRoute.primary brokers) order s = (Err err, s1) ->
    LiveRoute.fails_over err = true -> ba_submit (LiveRoute.backup brokers) order s1 = (Ok ack, s2) ->
    polls (LiveRoute.backup brokers) (ack_broker_order_id ack) s2 s3 -> routed order s s3
| routed_failed s err s1 err2 s2 : ba_submit (LiveRoute.primary brokers) order s = (Err err, s1) ->
    LiveRoute.fails_over err = true -> ba_submit (LiveRoute.backup brokers) order s1 = (Err err2, s2) ->
    routed order s s2.

Inductive routed_all : list BrokerOrder -> W -> W -> Prop :=
| routed_nil s : routed_all [] s s
| routed_cons o os s1 s2 s3 : routed o s1 s2 -> routed_all os s2 s3 -> routed_all (o :: os) s1 s3.

(** The order an approval stands for: a market order of the sized quantity. *)
Definition order_of (v : SignalEvent) (signal : Signal) (q : Z) : BrokerOrder :=
  LiveRoute.live_intent (unwrap_or EmptyString (ev_correlation_id v)) (sig_symbol signal)
    (if sig_side signal =? 1 then Side.Sell else Side.Buy) q.

(** The engine alone, on one message: the order it approves while trading is live. An approval
    without a correlation identifier is ignored by the execution service. *)
Definition approve (e : engine) (m : message) : option (list BrokerOrder * engine) :=
  match m_event m ≫= (fun v => pair v <$> build_signal_v1 v) with
  | None => Some ([], e)
  | Some (v, signal) =>
    '(decision, e) ← RiskEngine.evaluate hmac e signal (unwrap_or 0 (ev_entry_price_paise v)) (m_clock m);
    Some (match decision with
          | Approved _ q _ =>
              if m_live m && negb (bool_decide (unwrap_or EmptyString (ev_correlation_id v) = EmptyString))
              then [order_of v signal q] else []
          | Rejected _ _ => []
          end, e)
  end.

Fixpoint approved_orders (e : engine) (ms : list message) : option (list BrokerOrder * engine) :=
  match ms with
  | [] => Some ([], e)
  | m :: ms =>
    '(os, e) ← approve e m;
    '(os', e) ← approved_orders e ms;
    Some (os ++ os', e)
  end.

(** ** Lemmas *)

Lemma poll_polls n b cid sym id (w : world) :
  polls b id (LiveRoute.lw_brokers w) (LiveRoute.lw_brokers (LiveRoute.poll_loop now n b cid sym id w)).
Proof.
  revert w. induction n as [| n IH]; intros w; [apply rtc_refl |]. cbn [LiveRoute.poll_loop].
  destruct (ba_status b id (LiveRoute.lw_brokers w)) as [r s'] eqn:E.
  assert (s' = (ba_status b id (LiveRoute.lw_brokers w)).2) as Hs by (by rewrite E).
  eapply rtc_l; [exact Hs |]. destruct r as [st |]; [destruct (os_state st) |];
    try apply (IH (LiveRoute.mk_world s' _ _)); apply rtc_refl.
Qed.

Lemma route_live_routed cid sym side q (w : world) : SymbolTable.symbol_id_for sym <> 0 ->
  routed (LiveRoute.live_intent cid (SymbolTable.symbol_id_for sym) side q) (LiveRoute.lw_brokers w)
    (LiveRoute.lw_brokers (LiveRoute.route_live now brokers cid sym side q 0 max_notional_inr w)).
Proof.
  intros Hsym. unfold LiveRoute.route_live. change (LiveRoute.blocked_by_cap 0 q max_notional_inr) with false.
  cbv iota beta. rewrite (proj2 (Z.eqb_neq _ _) Hsym).
  set (order := LiveRoute.live_intent _ _ _ _).
  destruct (ba_submit (LiveRoute.primary brokers) order (LiveRoute.lw_brokers w)) as [[ack | err] s1] eqn:E1.
  - eapply routed_primary; [exact E1 |]. apply (poll_polls 10 _ _ _ _ (LiveRoute.mk_world s1 _ _)).
  - destruct (LiveRoute.fails_over err) eqn:Ef; [| by eapply routed_refused].
    cbn [LiveRoute.lw_brokers LiveRoute.publish].
    destruct (ba_submit (LiveRoute.backup brokers) order s1) as [[ack | err2] s2] eqn:E2.
    + eapply routed_backup; [done .. |]. apply (poll_polls 10 _ _ _ _ (LiveRoute.mk_world s2 _ _)).
    + by eapply routed_failed.
Qed.

(** The symbol a decision names is the symbol of the signal. *)
Lemma symbol_round_trip sym : SymbolTable.symbol_id_for sym <> 0 ->
  SymbolTable.symbol_for_id (SymbolTable.symbol_id_for sym) = Some sym.
Proof. unfold SymbolTable.symbol_id_for. intros H. repeat case_decide; subst; done. Qed.

Lemma build_signal_symbol v signal : build_signal_v1 v = Some signal ->
  exists sym, ev_symbol v = Some sym /\ sig_symbol signal = SymbolTable.symbol_id_for sym
    /\ SymbolTable.symbol_id_for sym <> 0 /\ (sig_side signal = 0 \/ sig_side signal = 1)
    /\ max_size_qty (sig_risk_profile signal) = 100.
Proof.
  unfold build_signal_v1. destruct (ev_symbol v) as [sym |]; [| done]. simpl.
  destruct (Z.eqb_spec (SymbolTable.symbol_id_for sym) 0) as [| Hne]; [done |]. intros [= <-].
  exists sym. split_and!; try done. simpl. unfold side_of. repeat case_bool_decide; auto.
Qed.

Lemma parse_side_word side : side = 0 \/ side = 1 ->
  LiveRoute.parse_side (side_str side) = if side =? 1 then Side.Sell else Side.Buy.
Proof. by intros [-> | ->]. Qed.

(** Nothing is delivered unless the decision is an approval. *)
Lemma deliver_rejection live p (w : world) : deliver live (Some ("risk.decision.rejected", p)) w = w.
Proof. done. Qed.

Lemma deliver_approval corr tok q r v signal t (w : world) : build_signal_v1 v = Some signal -> q <> 0 ->
  corr = unwrap_or EmptyString (ev_correlation_id v) ->
  forall live,
  routed_all (if live && negb (bool_decide (corr = EmptyString)) then [order_of v signal q] else [])
    (LiveRoute.lw_brokers w)
    (LiveRoute.lw_brokers (deliver live (Some (build_decision_payload corr (Approved tok q r) signal t)) w)).
Proof.
  intros Hb Hq -> live. destruct (build_signal_symbol v signal Hb) as (sym & Hev & Hsym & Hne & Hside & _).
  unfold deliver, build_decision_payload. rewrite decide_True by done.
  unfold LiveRoute.handle_approval, approval_of. cbn -[LiveRoute.route_live LiveRoute.route_paper side_str].
  destruct (decide (unwrap_or EmptyString (ev_correlation_id v) = EmptyString)) as [He | He].
  { rewrite bool_decide_true, andb_false_r by done. constructor. }
  rewrite (proj2 (Z.eqb_neq q 0) Hq), bool_decide_false by done. destruct live; [| constructor].
  cbn [andb negb]. rewrite Hsym, symbol_round_trip by done. cbn [unwrap_or].
  rewrite parse_side_word by done. econstructor; [| constructor].
  unfold order_of. rewrite Hsym. by apply route_live_routed.
Qed.

Lemma approved_quantity e v signal ck tok q r e' : build_signal_v1 v = Some signal ->
  risk_ok (RiskEngine.risk_cfg e) -> unwrap_or 0 (ev_entry_price_paise v) <= i64_max ->
  RiskEngine.evaluate hmac e signal (unwrap_or 0 (ev_entry_price_paise v)) ck = Some (Approved tok q r, e') ->
  1 <= q <= 100 /\ (unwrap_or 0 (ev_entry_price_paise v) <= 0 -> q = 1)
  /\ KillSwitchState.is_active (RiskEngine.kill_switch e) = false
  /\ RiskEngine.is_within_session (RiskEngine.session_cfg e) ck = Some true.
Proof.
  intros Hb Hr Hp He. destruct (build_signal_symbol v signal Hb) as (_ & _ & _ & _ & _ & Hmax).
  apply RiskEngine.approved_inv in He as (Hs & Hg & _ & Hq & _).
  unfold RiskEngine.gate_table in Hg. rewrite !Forall_cons in Hg. cbn [fst] in Hg.
  destruct Hg as (G1 & _ & _ & _ & _ & _ & _ & _ & _ & _ & _ & _ & G13 & _).
  unfold RiskEngine.in_session_of in Hs. rewrite G1 in Hs.
  set (ad := RiskEngine.adaptive_risk_paise e signal _) in *.
  pose proof (RiskEngine.adaptive_bounds e signal (from_be (sig_correlation_id signal)) (proj2 (proj2 (proj2 (proj2 (proj2 Hr)))))) as Had.
  fold ad in Had. bool_to_prop.
  assert (RiskEngine.base_risk_paise e <= i64_max) as Hbase.
  { destruct Hr as (_ & _ & _ & _ & _ & Hb'). unfold RiskEngine.base_risk_paise. unfold_ok. lia. }
  destruct (RiskEngine.size_quantity_bounds e signal (unwrap_or 0 (ev_entry_price_paise v)) ad) as [H1 H2];
    [lia | done | rewrite Hmax; unfold_ok; lia |].
  rewrite <- Hq in H1, H2. unfold RiskEngine.prospective_qty in H1. rewrite Hmax in H1.
  split_and!; try done; lia.
Qed.

Lemma engine_after_keeps (e : engine) ck refusal :
  RiskEngine.risk_cfg (RiskEngine.engine_after e ck refusal) = RiskEngine.risk_cfg e
  /\ (KillSwitchState.is_active (RiskEngine.kill_switch e) = true ->
      KillSwitchState.is_active (RiskEngine.kill_switch (RiskEngine.engine_after e ck refusal)) = true).
Proof.
  unfold RiskEngine.engine_after. destruct refusal as [[i r] |]; [| done].
  destruct (i <? 3)%nat; [done |]. destruct (i =? 3)%nat; [| done].
  split; [done |]. intros _. apply KillSwitchState.activate_latches.
Qed.

Lemma evaluate_keeps_config e signal price ck d e' :
  RiskEngine.evaluate hmac e signal price ck = Some (d, e') ->
  RiskEngine.risk_cfg e' = RiskEngine.risk_cfg e
  /\ (KillSwitchState.is_active (RiskEngine.kill_switch e) = true ->
      KillSwitchState.is_active (RiskEngine.kill_switch e') = true).
Proof.
  intros He. destruct (RiskEngine.evaluate_in_session _ _ _ _ _ _ _ He) as [ins Hins].
  destruct (RiskEngine.evaluate_spec hmac e signal price ck ins Hins) as (d' & Hd & _).
  rewrite He in Hd. injection Hd as _ ->. apply engine_after_keeps.
Qed.

Lemma step_approves e (w : world) m : match approve e m with
  | Some (os, e') => exists w', step e w m = Some (e', w')
      /\ (risk_ok (RiskEngine.risk_cfg e) ->
          (forall v, m_event m = Some v -> unwrap_or 0 (ev_entry_price_paise v) <= i64_max) ->
          routed_all os (LiveRoute.lw_brokers w) (LiveRoute.lw_brokers w'))
  | None => step e w m = None
  end.
Proof.
  unfold approve, step, handle_signal. destruct (m_event m) as [v |]; [| eexists; split; [done | constructor]].
  cbn [mbind option_bind]. destruct (build_signal_v1 v) as [signal |] eqn:Hb;
    [| eexists; split; [done | constructor]].
  cbn [fmap option_fmap option_map].
  destruct (RiskEngine.evaluate hmac e signal _ (m_clock m)) as [[d e'] |] eqn:He; [| done].
  eexists. split; [done |]. intros Hr Hp. specialize (Hp v eq_refl).
  destruct d as [tok q r | reason r]; [| constructor].
  destruct (approved_quantity e v signal _ tok q r e' Hb Hr Hp He) as (Hq & _).
  by apply deliver_approval; [| lia |].
Qed.

Lemma approve_orders e m os e' : approve e m = Some (os, e') -> risk_ok (RiskEngine.risk_cfg e) ->
  (forall v, m_event m = Some v -> unwrap_or 0 (ev_entry_price_paise v) <= i64_max) ->
  Forall (fun o => 1 <= Qty.raw (bo_quantity o) <= 100 /\ bo_order_type o = OrderType.Market) os
  /\ (match m_event m with Some v => unwrap_or 0 (ev_entry_price_paise v) | None => 0 end <= 0 ->
      Forall (fun o => Qty.raw (bo_quantity o) = 1) os)
  /\ (KillSwitchState.is_active (RiskEngine.kill_switch e) = true ->
      os = [] /\ KillSwitchState.is_active (RiskEngine.kill_switch e') = true)
  /\ RiskEngine.risk_cfg e' = RiskEngine.risk_cfg e.
Proof.
  unfold approve. intros Ha Hr Hp. destruct (m_event m) as [v |]; [| by injection Ha as <- <-].
  specialize (Hp v eq_refl). cbn [mbind option_bind] in Ha.
  destruct (build_signal_v1 v) as [signal |] eqn:Hb; [| by injection Ha as <- <-].
  cbn [fmap option_fmap option_map] in Ha.
  destruct (RiskEngine.evaluate hmac e signal _ (m_clock m)) as [[d e1] |] eqn:He; [| done].
  injection Ha as <- <-. destruct (evaluate_keeps_config _ _ _ _ _ _ He) as [Hcfg Hkill].
  destruct d as [tok q r | reason r]; [| split_and!; auto; done].
  destruct (approved_quantity e v signal _ tok q r e1 Hb Hr Hp He) as (Hq & H1 & Hoff & _).
  destruct (m_live m && _); split_and!; try done; try (by rewrite Hoff).
  - by constructor.
  - intros Hz. constructor; [by apply H1 | done].
Qed.

Lemma routed_app os1 os2 s1 s2 s3 : routed_all os1 s1 s2 -> routed_all os2 s2 s3 -> routed_all (os1 ++ os2) s1 s3.
Proof. induction 1; intros H2; [done |]. econstructor; [done | by apply IHrouted_all]. Qed.

(** What every message's price satisfies. *)
Definition prices (P : Z -> Prop) (ms : list message) : Prop :=
  Forall (fun m => match m_event m with
                   | Some v => P (unwrap_or 0 (ev_entry_price_paise v))
                   | None => True end) ms.

Lemma run_routes ms e (w : world) : risk_ok (RiskEngine.risk_cfg e) -> prices (fun p => p <= i64_max) ms ->
  match approved_orders e ms with
  | Some (os, e') => exists w', run e w ms = Some (e', w')
      /\ routed_all os (LiveRoute.lw_brokers w) (LiveRoute.lw_brokers w')
  | None => run e w ms = None
  end.
Proof.
  revert e w. induction ms as [| m ms IH]; intros e w Hr Hp; [eexists; split; [done | constructor] |].
  apply Forall_cons in Hp as [Hm Hp]. cbn [run approved_orders].
  assert (forall v, m_event m = Some v -> unwrap_or 0 (ev_entry_price_paise v) <= i64_max) as Hm'.
  { intros v Hv. by rewrite Hv in Hm. }
  pose proof (step_approves e w m) as Hstep. destruct (approve e m) as [[os e1] |] eqn:Ha; [| by rewrite Hstep].
  destruct Hstep as (w1 & -> & Hroute). cbn [mbind option_bind].
  destruct (approve_orders e m os e1 Ha Hr Hm') as (_ & _ & _ & Hcfg).
  assert (risk_ok (RiskEngine.risk_cfg e1)) as Hr1 by (by rewrite Hcfg).
  specialize (IH e1 w1 Hr1 Hp).
  destruct (approved_orders e1 ms) as [[os' e2] |]; [| done].
  destruct IH as (w2 & -> & H2). exists w2. split; [done |]. eapply routed_app; [by apply Hroute | done].
Qed.

Lemma approved_orders_shape ms e os e' : approved_orders e ms = Some (os, e') ->
  risk_ok (RiskEngine.risk_cfg e) -> prices (fun p => p <= i64_max) ms ->
  Forall (fun o => 1 <= Qty.raw (bo_quantity o) <= 100 /\ bo_order_type o = OrderType.Market) os
  /\ (prices (fun p => p <= 0) ms -> Forall (fun o => Qty.raw (bo_quantity o) = 1) os)
  /\ (KillSwitchState.is_active (RiskEngine.kill_switch e) = true -> os = []).
Proof.
  revert e os. induction ms as [| m ms IH]; intros e os Ha Hr Hp; [by injection Ha as <- <- |].
  apply Forall_cons in Hp as [Hm Hp]. cbn [approved_orders] in Ha.
  destruct (approve e m) as [[os1 e1] |] eqn:H1; [| done]. cbn [mbind option_bind] in Ha.
  destruct (approved_orders e1 ms) as [[os2 e2] |] eqn:H2; [| done]. injection Ha as <- <-.
  assert (forall v, m_event m = Some v -> unwrap_or 0 (ev_entry_price_paise v) <= i64_max) as Hm'.
  { intros v Hv. by rewrite Hv in Hm. }
  destruct (approve_orders e m os1 e1 H1 Hr Hm') as (A1 & A2 & A3 & Hcfg).
  assert (risk_ok (RiskEngine.risk_cfg e1)) as Hr1 by (by rewrite Hcfg).
  destruct (IH e1 os2 H2 Hr1 Hp) as (B1 & B2 & B3). split_and!.
  - by apply Forall_app.
  - intros Hz. apply Forall_cons in Hz as [Hz Hzs]. apply Forall_app. split; [| by apply B2].
    apply A2. destruct (m_event m); [done | lia].
  - intros Hk. destruct (A3 Hk) as [-> Hk1]. by apply B3.
Qed.
End pipeline.

(** A session of three signals, each priced or not, and one message that is not JSON. *)
Module Sample.
Definition signal (cid : string) (price : option Z) : SignalEvent :=
  mk_SignalEvent (Some cid) (Some "RELIANCE") (Some "sell") (Some (f64_lit 7 10)) (Some f64_one)
    (Some 1000) price.
Definition session : list message :=
  [mk_message (Some (signal "correlation-0001" (Some 500))) RiskEngine.Sample.clock 7 true;
   mk_message None RiskEngine.Sample.clock 8 true;
   mk_message (Some (signal "correlation-0002" None)) RiskEngine.Sample.clock 9 true;
   mk_message (Some (signal EmptyString None)) RiskEngine.Sample.clock 10 true].
Definition summary (orders : list BrokerOrder) : list (Z * Side.t) :=
  (fun o => (Qty.raw (bo_quantity o), bo_side o)) <$> orders.
End Sample.
End Pipeline.

(** C3: Every order the brokers receive is one the risk engine approved, and every approval
    reaches them. The risk service and the live execution handler, joined by the bus, run over any
    sequence of signal messages (malformed ones included) as the engine alone does: either both
    panic, or the engine ends in the same state and the brokers in a state that is reached by
    routing exactly the engine's approved orders in their order, each asked of the primary once, of
    the backup at most once and only after an error that calls for it, followed by status polls only.
    Each order is a market order of 1 to 100 shares, exactly one share when the signals carry no
    price; none is sent while the kill switch is engaged. The mode is live only where the message
    says so, and an approval without correlation identifier is not executed. *)
Theorem brokers_receive_exactly_the_approvals (hmac : list Z -> list Z -> list Z) {V : Type}
  {view : WarmCacheView V} {W : Type} (now : nat -> Z) (brokers : LiveRoute.Brokers W) (cap : Z)
  (e : RiskEngine.t (V := V)) (w : LiveRoute.world W) (ms : list Pipeline.message) :
  risk_ok (RiskEngine.risk_cfg e) -> Pipeline.prices (fun p => p <= i64_max) ms ->
  match Pipeline.run hmac now brokers cap e w ms with
  | None => Pipeline.approved_orders hmac e ms = None
  | Some (e', w') => exists orders, Pipeline.approved_orders hmac e ms = Some (orders, e')
    /\ Pipeline.routed_all brokers orders (LiveRoute.lw_brokers w) (LiveRoute.lw_brokers w')
    /\ Forall (fun o => 1 <= Qty.raw (bo_quantity o) <= 100 /\ bo_order_type o = OrderType.Market) orders
    /\ (Pipeline.prices (fun p => p <= 0) ms -> Forall (fun o => Qty.raw (bo_quantity o) = 1) orders)
    /\ (KillSwitchState.is_active (RiskEngine.kill_switch e) = true -> orders = [])
  end.
Proof.
  intros Hr Hp. pose proof (Pipeline.run_routes hmac now brokers cap ms e w Hr Hp) as H.
  destruct (Pipeline.approved_orders hmac e ms) as [[os e'] |] eqn:Ha; [| by rewrite H].
  destruct H as (w' & -> & Hrouted).
  destruct (Pipeline.approved_orders_shape hmac ms e os e' Ha Hr Hp) as (H1 & H2 & H3).
  by exists os.
Qed.

Lemma brokers_receive_exactly_the_approvals_witness :
  match Pipeline.run RiskEngine.Sample.hmac Z.of_nat LiveSample.brokers 50000 RiskEngine.Sample.engine
          LiveSample.start Pipeline.Sample.session with
  | None => False
  | Some (_, w') => exists orders,
      Pipeline.Sample.summary orders = [(20, Side.Sell); (1, Side.Sell)]
      /\ Pipeline.routed_all LiveSample.brokers orders 0 2 /\ LiveRoute.lw_brokers w' = 2
  end.
Proof.
  assert (risk_ok (RiskEngine.risk_cfg RiskEngine.Sample.engine)) as Hr.
  { vm_compute. repeat split; discriminate. }
  assert (Pipeline.prices (fun p => p <= i64_max) Pipeline.Sample.session) as Hp.
  { repeat constructor; vm_compute; discriminate. }
  pose proof (brokers_receive_exactly_the_approvals RiskEngine.Sample.hmac Z.of_nat LiveSample.brokers 50000
    RiskEngine.Sample.engine LiveSample.start Pipeline.Sample.session Hr Hp) as H.
  assert ((fun r => LiveRoute.lw_brokers r.2) <$> Pipeline.run RiskEngine.Sample.hmac Z.of_nat
    LiveSample.brokers 50000 RiskEngine.Sample.engine LiveSample.start Pipeline.Sample.session = Some 2) as Hw
    by (vm_compute; reflexivity).
  assert (option_map (fun r : list BrokerOrder * _ => Pipeline.Sample.summary r.1)
    (Pipeline.approved_orders RiskEngine.Sample.hmac RiskEngine.Sample.engine Pipeline.Sample.session)
    = Some [(20, Side.Sell); (1, Side.Sell)]) as Ho by (vm_compute; reflexivity).
  destruct (Pipeline.run _ _ _ _ _ _ _) as [[e' w'] |]; [| discriminate Hw].
  destruct H as (orders & Ha & Hrouted & _). rewrite Ha in Ho. injection Hw as Hw. injection Ho as Ho.
  exists orders. rewrite Hw in Hrouted. by split_and!.
Defined.
