(* ===== verification/Wire.v ===== *)
(** The fixed-layout binary messages of the hot path and every reader of them:
    ticks (engine.rs and upstox_feed.rs of hedge-market-data; the binaries of
    hedge-features, hedge-position, hedge-orderflow, hedge-signals, hedge-replay and the
    decoder of hedge-ui-gateway), feature snapshots (engine.rs of hedge-features, the
    binary of hedge-signals) and signals (engine.rs of hedge-signals, hedge-ui-gateway). *)

From S2P Require Import Prelude Ieee Bytes Core Schemas LiveRoute.

(** ** Ticks *)

Module TickWire.

Definition TICK_WIRE_SIZE : nat := 16 + 4 + 1 + 8 * 8.

(** [tick_to_raw_bytes] (engine.rs of hedge-market-data). *)
Definition tick_to_raw_bytes (t : Tick) : list Z :=
  tk_correlation_id t ++ le_bytes 4 (tk_symbol t) ++ [as_u8 (tk_exchange t)]
  ++ le_bytes 8 (ltp_paise t) ++ le_bytes 8 (bid_paise t) ++ le_bytes 8 (ask_paise t)
  ++ le_bytes 8 (ltq t) ++ le_bytes 8 (total_buy_qty t) ++ le_bytes 8 (total_sell_qty t)
  ++ le_bytes 8 (ts_exchange_ns t) ++ le_bytes 8 (ts_recv_ns t).

(** [encode_tick_v1] (upstox_feed.rs): only for a symbol of the table. *)
Definition encode_tick_v1 (symbol : string) (ltp bid ask ts_ns : Z) : option (list Z) :=
  let symbol_id := SymbolTable.symbol_id_for symbol in
  if symbol_id =? 0 then None
  else Some (replicate 16 0 ++ le_bytes 4 symbol_id ++ [as_u8 0]
    ++ le_bytes 8 ltp ++ le_bytes 8 bid ++ le_bytes 8 ask
    ++ le_bytes 8 0 ++ le_bytes 8 0 ++ le_bytes 8 0
    ++ le_bytes 8 (as_u64 ts_ns) ++ le_bytes 8 (as_u64 ts_ns)).

(** [decode_tick] (the binary of hedge-features). *)
Definition decode_tick (bytes : list Z) : option Tick :=
  if decide (length bytes = TICK_WIRE_SIZE) then
    let '(correlation_id, r) := next 16 bytes in
    let '(symbol, r) := next 4 r in
    let '(exchange, r) := next 1 r in
    let '(ltp, r) := next 8 r in
    let '(bid, r) := next 8 r in
    let '(ask, r) := next 8 r in
    let '(ltq, r) := next 8 r in
    let '(buy, r) := next 8 r in
    let '(sell, r) := next 8 r in
    let '(ts_exchange, r) := next 8 r in
    let '(ts_recv, r) := next 8 r in
    Some (mk_Tick correlation_id (from_le symbol) (i8_of_byte (from_le exchange))
      (i64_from_le ltp) (i64_from_le bid) (i64_from_le ask) (from_le ltq) (from_le buy)
      (from_le sell) (from_le ts_exchange) (from_le ts_recv))
  else None.

(** The symbol and price [handle_tick] of the binary of hedge-position reads. *)
Definition position_fields (bytes : list Z) : option (Z * Z) :=
  if decide (length bytes < 29)%nat then None
  else
    let symbol_id := from_le (slice 16 4 bytes) in
    if symbol_id =? 0 then None else Some (symbol_id, i64_from_le (slice 21 8 bytes)).

(** What [run_play] (hedge-replay) reads of a recorded tick: symbol, last price, bid, ask
    and time. *)
Definition replay_fields (payload : list Z) : option (Z * Z * Z * Z * Z) :=
  if decide (length payload = 85%nat) then
    Some (from_le (slice 16 4 payload), i64_from_le (slice 21 8 payload),
      i64_from_le (slice 29 8 payload), i64_from_le (slice 37 8 payload),
      as_i64 (from_le (slice 77 8 payload)))
  else None.

(** What export_csv.rs (hedge-signals) reads: symbol, price, last quantity, exchange time. *)
Definition csv_fields (payload : list Z) : option (Z * Z * Z * Z) :=
  if decide (length payload = 85%nat) then
    Some (from_le (slice 16 4 payload), i64_from_le (slice 21 8 payload),
      from_le (slice 45 8 payload), from_le (slice 69 8 payload))
  else None.

(** The tick loop of the binary of hedge-orderflow: [None] is its [continue]. *)
Definition orderflow_decode (bytes : list Z) : option Tick :=
  if decide (length bytes = 77%nat) then
    let ts_recv := from_le (slice 69 8 bytes) in
    Some (mk_Tick (replicate 16 0) (from_le (slice 16 4 bytes)) (i8_of_byte (from_le (slice 20 1 bytes)))
      (i64_from_le (slice 21 8 bytes)) (i64_from_le (slice 29 8 bytes)) (i64_from_le (slice 37 8 bytes))
      (from_le (slice 45 8 bytes)) (from_le (slice 53 8 bytes)) (from_le (slice 61 8 bytes))
      ts_recv ts_recv)
  else None.

(** [decode_payload_shim] (hedge-ui-gateway) on a tick subject: the last price, bid, ask and
    time of the JSON it builds, or [None] when it falls back to base64. *)
Definition shim_tick (subject : string) (bytes : list Z) : option (Z * Z * Z * Z) :=
  if String.prefix "md.tick." subject && bool_decide (length bytes = 77%nat) then
    Some (i64_from_le (slice 21 8 bytes), i64_from_le (slice 29 8 bytes),
      i64_from_le (slice 37 8 bytes), from_le (slice 69 8 bytes))
  else None.

(** The ranges of the field types. *)
Definition tick_ok (t : Tick) : Prop :=
  length (tk_correlation_id t) = 16%nat /\ u32_ok (tk_symbol t) /\ i8_ok (tk_exchange t)
  /\ i64_ok (ltp_paise t) /\ i64_ok (bid_paise t) /\ i64_ok (ask_paise t)
  /\ u64_ok (ltq t) /\ u64_ok (total_buy_qty t) /\ u64_ok (total_sell_qty t)
  /\ u64_ok (ts_exchange_ns t) /\ u64_ok (ts_recv_ns t).

End TickWire.

(** ** Feature snapshots *)

Module FeatureWire.

Definition FEATURE_WIRE_SIZE : nat := 141.
Definition f32_le (x : f32) : list Z := le_bytes 4 (f32_to_bits x).
Definition f32_from_le (l : list Z) : f32 := f32_of_bits (from_le l).

(** [encode] (engine.rs of hedge-features). *)
Definition encode (s : FeatureSnapshot) : list Z :=
  fs_correlation_id s ++ le_bytes 4 (fs_symbol s) ++ le_bytes 8 (price s) ++ le_bytes 8 (vwap s)
  ++ le_bytes 8 (atr s) ++ le_bytes 8 (ema_fast s) ++ le_bytes 8 (ema_slow s)
  ++ le_bytes 8 (ema_trend s) ++ f32_le (ema_slope s) ++ f32_le (realized_vol s)
  ++ f32_le (momentum s) ++ f32_le (rsi s) ++ f32_le (adx s) ++ le_bytes 8 (donchian_upper s)
  ++ le_bytes 8 (donchian_lower s) ++ le_bytes 8 (rolling_delta s)
  ++ f32_le (liquidity_imbalance s) ++ f32_le (orderflow_strength s) ++ [candle_structure s]
  ++ f32_le (breakout_pressure s) ++ f32_le (compression_zone s) ++ f32_le (liquidity_sweep s)
  ++ le_bytes 8 (fs_ts_ns s).

(** [decode_feature_snapshot] (the binary of hedge-signals). *)
Definition decode_feature_snapshot (bytes : list Z) : option FeatureSnapshot :=
  if decide (length bytes = 141%nat) then
    let '(correlation_id, r) := next 16 bytes in
    let '(symbol, r) := next 4 r in
    let '(price, r) := next 8 r in
    let '(vwap, r) := next 8 r in
    let '(atr, r) := next 8 r in
    let '(ema_fast, r) := next 8 r in
    let '(ema_slow, r) := next 8 r in
    let '(ema_trend, r) := next 8 r in
    let '(ema_slope, r) := next 4 r in
    let '(realized_vol, r) := next 4 r in
    let '(momentum, r) := next 4 r in
    let '(rsi, r) := next 4 r in
    let '(adx, r) := next 4 r in
    let '(donchian_upper, r) := next 8 r in
    let '(donchian_lower, r) := next 8 r in
    let '(rolling_delta, r) := next 8 r in
    let '(liquidity_imbalance, r) := next 4 r in
    let '(orderflow_strength, r) := next 4 r in
    let '(candle_structure, r) := next 1 r in
    let '(breakout_pressure, r) := next 4 r in
    let '(compression_zone, r) := next 4 r in
    let '(liquidity_sweep, r) := next 4 r in
    let '(ts_ns, r) := next 8 r in
    Some (mk_FeatureSnapshot correlation_id (from_le symbol) (i64_from_le price)
      (i64_from_le vwap) (i64_from_le atr) (i64_from_le ema_fast) (i64_from_le ema_slow)
      (i64_from_le ema_trend) (f32_from_le ema_slope) (f32_from_le realized_vol)
      (f32_from_le momentum) (f32_from_le rsi) (f32_from_le adx) (i64_from_le donchian_upper)
      (i64_from_le donchian_lower) (i64_from_le rolling_delta) (f32_from_le liquidity_imbalance)
      (f32_from_le orderflow_strength) (from_le candle_structure) (f32_from_le breakout_pressure)
      (f32_from_le compression_zone) (f32_from_le liquidity_sweep) (from_le ts_ns))
  else None.

Definition snapshot_ok (s : FeatureSnapshot) : Prop :=
  length (fs_correlation_id s) = 16%nat /\ u32_ok (fs_symbol s)
  /\ Forall i64_ok [price s; vwap s; atr s; ema_fast s; ema_slow s; ema_trend s;
       donchian_upper s; donchian_lower s; rolling_delta s]
  /\ Forall f32_valid [ema_slope s; realized_vol s; momentum s; rsi s; adx s;
       liquidity_imbalance s; orderflow_strength s; breakout_pressure s; compression_zone s;
       liquidity_sweep s]
  /\ u8_ok (candle_structure s) /\ u64_ok (fs_ts_ns s).

End FeatureWire.

(** ** Signals *)

Module SignalWire.

Definition SIGNAL_WIRE_SIZE : nat := 16 + 1 + 4 + 1 + 4 + 4 + 8 + 8 + 8 + 4 + 8.

(** [encode_signal] (engine.rs of hedge-signals). *)
Definition encode_signal (s : Signal) : list Z :=
  sig_correlation_id s ++ [sig_strategy s] ++ le_bytes 4 (sig_symbol s) ++ [sig_side s]
  ++ FeatureWire.f32_le (sig_base_probability s) ++ FeatureWire.f32_le (sig_confidence s)
  ++ le_bytes 8 (stop_loss_paise (sig_risk_profile s))
  ++ le_bytes 8 (take_profit_paise (sig_risk_profile s))
  ++ le_bytes 8 (max_size_qty (sig_risk_profile s))
  ++ le_bytes 4 (time_horizon_seconds (sig_risk_profile s)) ++ le_bytes 8 (sig_ts_ns s).

(** [decode_payload_shim] (hedge-ui-gateway) on the signal subject: strategy, symbol, side,
    confidence and time of the JSON it builds. *)
Definition shim_signal (subject : string) (bytes : list Z) : option (Z * Z * Z * f32 * Z) :=
  if String.prefix "sig.emitted" subject && bool_decide (length bytes = 66%nat) then
    Some (from_le (slice 16 1 bytes), from_le (slice 17 4 bytes), from_le (slice 21 1 bytes),
      FeatureWire.f32_from_le (slice 26 4 bytes), from_le (slice 58 8 bytes))
  else None.

Definition signal_ok (s : Signal) : Prop :=
  length (sig_correlation_id s) = 16%nat /\ u8_ok (sig_strategy s) /\ u32_ok (sig_symbol s)
  /\ u8_ok (sig_side s) /\ f32_valid (sig_base_probability s) /\ f32_valid (sig_confidence s)
  /\ u64_ok (sig_ts_ns s).

End SignalWire.

(** ** Round trips *)

Lemma next_all n a : length a = n -> next n a = (a, []).
Proof. intros <-. unfold next. by rewrite take_ge, drop_ge. Qed.

Lemma slice_all n a : length a = n -> slice 0 n a = a.
Proof. intros <-. unfold slice. by rewrite drop_0, take_ge. Qed.

(** Picks the field at a fixed offset out of a concatenation; [H] is the length of its
    first piece. *)
Ltac at_offset H :=
  repeat (rewrite slice_app_r by (rewrite ?le_bytes_length, ?H; cbn [length]; lia);
          rewrite ?le_bytes_length, ?H; cbn [length Nat.sub]);
  (rewrite slice_app_l by (by rewrite ?le_bytes_length)) || (rewrite slice_all by (apply le_bytes_length)).

Lemma from_le_byte b : from_le [b] = b.
Proof. unfold from_le, from_be. simpl. lia. Qed.

Lemma f32_le_roundtrip x : f32_valid x -> FeatureWire.f32_from_le (FeatureWire.f32_le x) = x.
Proof.
  intros Hx. unfold FeatureWire.f32_from_le, FeatureWire.f32_le.
  rewrite u32_le by (by apply f32_to_bits_range). by apply f32_of_to_bits.
Qed.

Lemma tick_length t : TickWire.tick_ok t ->
  length (TickWire.tick_to_raw_bytes t) = TickWire.TICK_WIRE_SIZE.
Proof.
  intros (Hc & _). unfold TickWire.tick_to_raw_bytes. repeat rewrite length_app.
  rewrite !le_bytes_length, Hc. reflexivity.
Qed.

Lemma tick_decode t : TickWire.tick_ok t ->
  TickWire.decode_tick (TickWire.tick_to_raw_bytes t) = Some t.
Proof.
  intros Hok. unfold TickWire.decode_tick. rewrite decide_True by (by apply tick_length).
  destruct Hok as (Hc & Hs & He & Hl & Hb & Ha & Hq & Htb & Hts & Hx & Hr).
  unfold TickWire.tick_to_raw_bytes.
  rewrite next_app by done. cbv beta iota.
  repeat (rewrite next_app by (by rewrite ?le_bytes_length); cbv beta iota).
  rewrite next_all by apply le_bytes_length. cbv beta iota.
  rewrite from_le_byte, i8_byte, u32_le, !u64_le, !i64_le by done. by destruct t.
Qed.

Lemma feature_length s : FeatureWire.snapshot_ok s ->
  length (FeatureWire.encode s) = FeatureWire.FEATURE_WIRE_SIZE.
Proof.
  intros (Hc & _). unfold FeatureWire.encode, FeatureWire.f32_le. repeat rewrite length_app.
  rewrite !le_bytes_length, Hc. reflexivity.
Qed.

Lemma feature_decode s : FeatureWire.snapshot_ok s ->
  FeatureWire.decode_feature_snapshot (FeatureWire.encode s) = Some s.
Proof.
  intros Hok. unfold FeatureWire.decode_feature_snapshot. rewrite decide_True by (by apply feature_length).
  destruct Hok as (Hc & Hs & Hi & Hf & Hcs & Ht). unfold FeatureWire.encode.
  repeat (apply Forall_cons in Hi as [? Hi]). repeat (apply Forall_cons in Hf as [? Hf]).
  rewrite next_app by done. cbv beta iota.
  repeat (rewrite next_app by (by rewrite ?le_bytes_length); cbv beta iota).
  rewrite next_all by apply le_bytes_length. cbv beta iota.
  rewrite from_le_byte, u32_le, u64_le, !i64_le, !f32_le_roundtrip by done. by destruct s.
Qed.

Lemma signal_length s : SignalWire.signal_ok s ->
  length (SignalWire.encode_signal s) = SignalWire.SIGNAL_WIRE_SIZE.
Proof.
  intros (Hc & _). unfold SignalWire.encode_signal, FeatureWire.f32_le. repeat rewrite length_app.
  rewrite !le_bytes_length, Hc. reflexivity.
Qed.

Lemma tick_slices t : TickWire.tick_ok t ->
  let b := TickWire.tick_to_raw_bytes t in
  slice 16 4 b = le_bytes 4 (tk_symbol t) /\ slice 21 8 b = le_bytes 8 (ltp_paise t)
  /\ slice 29 8 b = le_bytes 8 (bid_paise t) /\ slice 37 8 b = le_bytes 8 (ask_paise t)
  /\ slice 45 8 b = le_bytes 8 (ltq t) /\ slice 69 8 b = le_bytes 8 (ts_exchange_ns t)
  /\ slice 77 8 b = le_bytes 8 (ts_recv_ns t).
Proof.
  intros (Hc & _). cbv zeta. unfold TickWire.tick_to_raw_bytes. split_and!; by at_offset Hc.
Qed.

Lemma signal_slices s : SignalWire.signal_ok s ->
  let b := SignalWire.encode_signal s in
  slice 16 1 b = [sig_strategy s] /\ slice 17 4 b = le_bytes 4 (sig_symbol s)
  /\ slice 21 1 b = [sig_side s] /\ slice 26 4 b = FeatureWire.f32_le (sig_confidence s)
  /\ slice 58 8 b = le_bytes 8 (sig_ts_ns s).
Proof.
  intros (Hc & _). cbv zeta. unfold SignalWire.encode_signal, FeatureWire.f32_le.
  split_and!; by at_offset Hc.
Qed.

(** What the replay command and the exporter read of a tick. *)
Lemma replay_reads t : TickWire.tick_ok t ->
  TickWire.replay_fields (TickWire.tick_to_raw_bytes t)
  = Some (tk_symbol t, ltp_paise t, bid_paise t, ask_paise t, as_i64 (ts_recv_ns t)).
Proof.
  intros Ht. pose proof (tick_length t Ht) as Hl. destruct (tick_slices t Ht) as (S1 & S2 & S3 & S4 & S5 & S6 & S7).
  unfold TickWire.replay_fields. rewrite decide_True by (by rewrite Hl).
  destruct Ht as (Hc & Hsym & He & ? & ? & ? & ? & ? & ? & ? & ?).
  rewrite S1, S2, S3, S4, S7, u32_le, !i64_le, u64_le by done. done.
Qed.

Lemma csv_reads t : TickWire.tick_ok t ->
  TickWire.csv_fields (TickWire.tick_to_raw_bytes t) = Some (tk_symbol t, ltp_paise t, ltq t, ts_exchange_ns t).
Proof.
  intros Ht. pose proof (tick_length t Ht) as Hl. destruct (tick_slices t Ht) as (S1 & S2 & S3 & S4 & S5 & S6 & S7).
  unfold TickWire.csv_fields. rewrite decide_True by (by rewrite Hl).
  destruct Ht as (Hc & Hsym & He & ? & ? & ? & ? & ? & ? & ? & ?).
  rewrite S1, S2, S5, S6, u32_le, !i64_le, !u64_le by done. done.
Qed.

(** C35: every reader of a hot-path message that accepts it recovers what its writer was
    given: the feature engine the whole tick, the replay player, the exporter and the
    position engine their fields of it, the signal engine the whole feature snapshot (its
    floats bit for bit), the gateway its fields of a signal. *)
Theorem hot_path_messages_roundtrip (t : Tick) (s : FeatureSnapshot) (g : Signal) :
  TickWire.tick_ok t -> FeatureWire.snapshot_ok s -> SignalWire.signal_ok g ->
  let b := TickWire.tick_to_raw_bytes t in
  TickWire.decode_tick b = Some t
  /\ TickWire.replay_fields b =
     Some (tk_symbol t, ltp_paise t, bid_paise t, ask_paise t, as_i64 (ts_recv_ns t))
  /\ TickWire.csv_fields b = Some (tk_symbol t, ltp_paise t, ltq t, ts_exchange_ns t)
  /\ TickWire.position_fields b = (if tk_symbol t =? 0 then None else Some (tk_symbol t, ltp_paise t))
  /\ FeatureWire.decode_feature_snapshot (FeatureWire.encode s) = Some s
  /\ SignalWire.shim_signal "sig.emitted" (SignalWire.encode_signal g) =
     Some (sig_strategy g, sig_symbol g, sig_side g, sig_confidence g, sig_ts_ns g).
Proof.
  intros Ht Hs Hg. cbv zeta. pose proof (tick_length t Ht) as Hl.
  destruct (tick_slices t Ht) as (S1 & S2 & S3 & S4 & S5 & S6 & S7).
  destruct (signal_slices g Hg) as (G1 & G2 & G3 & G4 & G5). pose proof (signal_length g Hg) as Hgl.
  split_and!; [by apply tick_decode | by apply replay_reads | by apply csv_reads | | by apply feature_decode |].
  - unfold TickWire.position_fields.
    rewrite decide_False by (rewrite Hl; unfold TickWire.TICK_WIRE_SIZE; lia).
    destruct Ht as (Hc & Hsym & He & ? & ? & ? & ? & ? & ? & ? & ?).
    rewrite S1, S2, u32_le, i64_le by done. done.
  - unfold SignalWire.shim_signal. rewrite bool_decide_eq_true_2 by (by rewrite Hgl). simpl.
    destruct Hg as (Hc & ? & ? & ? & ? & ? & ?).
    rewrite G1, G2, G3, G4, G5, !from_le_byte, u32_le, u64_le, f32_le_roundtrip by done. done.
Qed.

(** Two readers expect 77 bytes, as if a tick had one timestamp: the order-flow service
    skips every tick, and the gateway shows it undecoded. *)
Lemma two_readers_reject_every_tick t subject : TickWire.tick_ok t ->
  TickWire.orderflow_decode (TickWire.tick_to_raw_bytes t) = None
  /\ TickWire.shim_tick subject (TickWire.tick_to_raw_bytes t) = None.
Proof.
  intros Ht. pose proof (tick_length t Ht) as Hl.
  unfold TickWire.orderflow_decode, TickWire.shim_tick.
  rewrite decide_False, bool_decide_eq_false_2 by (by rewrite Hl).
  split; [done |]. by rewrite andb_false_r.
Qed.

(** The feed's own encoder writes what the engines read, with both times equal. *)
Lemma encode_tick_v1_spec symbol ltp bid ask ts_ns : SymbolTable.symbol_id_for symbol <> 0 ->
  TickWire.encode_tick_v1 symbol ltp bid ask ts_ns =
  Some (TickWire.tick_to_raw_bytes (mk_Tick (replicate 16 0) (SymbolTable.symbol_id_for symbol) 0
    ltp bid ask 0 0 0 (as_u64 ts_ns) (as_u64 ts_ns))).
Proof.
  intros H. unfold TickWire.encode_tick_v1. by destruct (Z.eqb_spec (SymbolTable.symbol_id_for symbol) 0).
Qed.

Module WireSample.
Definition tick : Tick := mk_Tick (replicate 16 170) 7 0 10050 (-10000) 10100 5 100 80 123 456.
Definition snapshot : FeatureSnapshot :=
  mk_FeatureSnapshot (replicate 16 170) 7 10000 10000 50 10005 9995 9900 (f32_lit 1 2)
    (f32_lit 1 1000) (f32_lit 1 100) (f32_of_Z 60) (f32_of_Z 30) 10100 9900 (-5) (f32_lit 2 10)
    (f32_lit 3 10) 1 (f32_lit 7 10) (f32_lit 6 10) f_zero 12345.
Definition signal : Signal :=
  mk_Signal (replicate 16 1) 2 7 0 (f32_lit 6 10) (f32_lit 7 10) (mk_RiskProfile 100 200 10 60) 99.
End WireSample.

Lemma hot_path_messages_roundtrip_witness :
  TickWire.decode_tick (TickWire.tick_to_raw_bytes WireSample.tick) = Some WireSample.tick
  /\ FeatureWire.decode_feature_snapshot (FeatureWire.encode WireSample.snapshot) = Some WireSample.snapshot.
Proof.
  destruct (hot_path_messages_roundtrip WireSample.tick WireSample.snapshot WireSample.signal)
    as (H1 & _ & _ & _ & H2 & _).
  - unfold TickWire.tick_ok. unfold_ok. split_and!; vm_compute; (reflexivity || discriminate).
  - unfold FeatureWire.snapshot_ok. split_and!; try (repeat constructor); vm_compute;
      (reflexivity || discriminate).
  - unfold SignalWire.signal_ok. unfold_ok. split_and!; vm_compute; (reflexivity || discriminate).
  - by split.
Defined.
