(* ===== verification/Breadth.v ===== *)
(** Market breadth (breadth.rs of hedge-market-data): the advance/decline ratio of every
    sector and the pooled volatility of returns, published in batches. *)

From S2P Require Import Prelude Ieee IeeeRatio Core Schemas.
From Stdlib Require Import Floats.SpecFloat.

Module Breadth.

Definition VOLATILITY_WINDOW : nat := 60.
Definition DEFAULT_BATCH_TICKS : Z := 100.
(** Durations are nanoseconds. *)
Definition DEFAULT_BATCH_INTERVAL : Z := 250 * 1000000.

Record SectorBreadth := mk_SectorBreadth { sectors : gmap string f32; sb_ts_ns : Z }.
Record VolatilityBreadth := mk_VolatilityBreadth {
  stdev : f32;
  sample_count : Z;
  vb_ts_ns : Z;
}.
Record BreadthSnapshot := mk_BreadthSnapshot {
  sector : option SectorBreadth;
  volatility : option VolatilityBreadth;
}.

Record SymbolState := mk_SymbolState {
  last_ltp_paise : Z;
  prev_close_paise : Z;
  returns : RingWindow.t f32;
  prev_ltp_paise : option Z;
}.

Definition SymbolState_new (prev_close_paise : Z) : SymbolState :=
  mk_SymbolState 0 prev_close_paise (RingWindow.fresh VOLATILITY_WINDOW f_zero) None.

Record BreadthAggregator := mk_BreadthAggregator {
  sector_of : gmap Z string;
  state : gmap Z SymbolState;
  prev_close : gmap Z Z;
  ticks_since_publish : Z;
  last_publish : Z;
  batch_ticks : Z;
  batch_interval : Z;
}.

(** [now] is the reading of the monotonic clock. *)
Definition with_batch_thresholds (sectors : gmap Z string) (prev_close : gmap Z Z)
  (batch_ticks batch_interval now : Z) : BreadthAggregator :=
  mk_BreadthAggregator sectors ∅ prev_close 0 now batch_ticks batch_interval.
Definition new (sectors : gmap Z string) (prev_close : gmap Z Z) (now : Z) : BreadthAggregator :=
  with_batch_thresholds sectors prev_close DEFAULT_BATCH_TICKS DEFAULT_BATCH_INTERVAL now.

Definition tracked_symbols (a : BreadthAggregator) : nat := size (state a).
Definition ticks_in_batch (a : BreadthAggregator) : Z := ticks_since_publish a.

Definition symbol_state (a : BreadthAggregator) (sym : Z) : SymbolState :=
  unwrap_or (SymbolState_new (unwrap_or 0 (prev_close a !! sym))) (state a !! sym).

(** The mutations of a symbol's state by a tick. *)
Definition observe (s : SymbolState) (ltp : Z) : SymbolState :=
  let returns' :=
    match prev_ltp_paise s with
    | Some prev =>
      if prev =? 0 then returns s
      else
        let pct := f64_div (f64_sub (f64_of_Z ltp) (f64_of_Z prev)) (f64_of_Z prev) in
        RingWindow.push (returns s) (f64_to_f32 pct)
    | None => returns s
    end in
  mk_SymbolState ltp (prev_close_paise s) returns' (Some ltp).

(** [should_publish] with [elapsed] nanoseconds since the last publication. *)
Definition should_publish (a : BreadthAggregator) (elapsed : Z) : bool :=
  (batch_ticks a <=? ticks_since_publish a) || (batch_interval a <=? elapsed).

Section iteration.

(** The order in which the [HashMap] of states is iterated. *)
Context (order : gmap Z SymbolState -> list (Z * SymbolState)).

(** One pass of the counting loop: (advancers, decliners, total) of a sector. *)
Definition count_symbol (sector_of : gmap Z string)
  (counts : gmap string (Z * Z * Z)) (e : Z * SymbolState) : gmap string (Z * Z * Z) :=
  let '(sym, st) := e in
  match sector_of !! sym with
  | None => counts
  | Some name =>
    let prev := prev_close_paise st in
    if prev =? 0 then counts
    else
      let '(adv, dec, total) := unwrap_or (0, 0, 0) (counts !! name) in
      let total := as_u32 (total + 1) in
      <[name :=
        match last_ltp_paise st ?= prev with
        | Gt => (as_u32 (adv + 1), dec, total)
        | Lt => (adv, as_u32 (dec + 1), total)
        | Eq => (adv, dec, total)
        end]> counts
  end.

Definition breadth_value (c : Z * Z * Z) : f32 :=
  let '(adv, dec, total) := c in
  if total =? 0 then f_zero
  else f32_div (f32_sub (f32_of_Z adv) (f32_of_Z dec)) (f32_of_Z total).

Definition compute_sector (a : BreadthAggregator) (now_ns : Z) : SectorBreadth :=
  mk_SectorBreadth
    (breadth_value <$> foldl (count_symbol (sector_of a)) ∅ (order (state a))) now_ns.

(** The pooled samples, in the order the two loops visit them. *)
Definition samples (a : BreadthAggregator) : list f64 :=
  f32_to_f64 <$> concat ((fun e => RingWindow.iter (returns e.2)) <$> order (state a)).

Definition accumulate (acc : f64 * f64 * Z) (x : f64) : f64 * f64 * Z :=
  let '(sum, sum_sq, n) := acc in (f64_add sum x, f64_add sum_sq (f64_mul x x), as_u64 (n + 1)).

Definition compute_volatility (a : BreadthAggregator) (now_ns : Z) : VolatilityBreadth :=
  let '(sum, sum_sq, n) := foldl accumulate (f_zero, f_zero, 0) (samples a) in
  let stdev :=
    if 2 <=? n then
      let mean := f64_div sum (f64_of_Z n) in
      let variance := f64_sub (f64_div sum_sq (f64_of_Z n)) (f64_mul mean mean) in
      f64_to_f32 (f64_sqrt (f_max variance f_zero))
    else f_zero in
  mk_VolatilityBreadth stdev (Z.min n u32_max) now_ns.

Definition snapshot (a : BreadthAggregator) (now_ns : Z) : BreadthSnapshot :=
  mk_BreadthSnapshot (Some (compute_sector a now_ns)) (Some (compute_volatility a now_ns)).

(** The clock readings of a call: the monotonic clock when the batch is checked and when
    it is closed, and the wall clock. *)
Record Clock := mk_Clock { checked_at : Z; closed_at : Z; wall_ns : Z }.

Definition on_tick (a : BreadthAggregator) (tick : Tick) (c : Clock)
  : BreadthSnapshot * BreadthAggregator :=
  let sym := SymbolId.new (tk_symbol tick) in
  let a1 := mk_BreadthAggregator (sector_of a)
              (<[sym := observe (symbol_state a sym) (ltp_paise tick)]> (state a))
              (prev_close a) (sat 0 u32_max (ticks_since_publish a + 1))
              (last_publish a) (batch_ticks a) (batch_interval a) in
  if should_publish a1 (Z.max 0 (checked_at c - last_publish a1)) then
    (snapshot a1 (wall_ns c),
     mk_BreadthAggregator (sector_of a1) (state a1) (prev_close a1) 0 (closed_at c)
       (batch_ticks a1) (batch_interval a1))
  else (mk_BreadthSnapshot None None, a1).

(** A run of ticks: the snapshots, in order, and the aggregator left. *)
Fixpoint on_ticks (a : BreadthAggregator) (ts : list (Tick * Clock))
  : list BreadthSnapshot * BreadthAggregator :=
  match ts with
  | [] => ([], a)
  | (t, c) :: ts =>
    let '(s, a) := on_tick a t c in
    let '(ss, a) := on_ticks a ts in
    (s :: ss, a)
  end.
End iteration.
End Breadth.

(** ** Specification: breadth of a history of ticks *)

Module BreadthSpec.
Import Breadth.

Section spec.
Context (sector_of : gmap Z string) (prev_close : gmap Z Z).

Definition close (sym : Z) : Z := unwrap_or 0 (prev_close !! sym).

(** The latest price of every symbol that ticked. *)
Definition latest (ts : list Tick) : gmap Z Z :=
  foldl (fun m t => <[tk_symbol t := ltp_paise t]> m) ∅ ts.

(** The symbols of a sector that have a previous close, with their latest prices. *)
Definition is_member (name : string) (e : Z * Z) : bool :=
  bool_decide (sector_of !! e.1 = Some name) && negb (close e.1 =? 0).
Definition members (ts : list Tick) (name : string) : list (Z * Z) :=
  List.filter (is_member name) (map_to_list (latest ts)).

Definition total (ts : list Tick) (name : string) : Z := Z.of_nat (length (members ts name)).
Definition advancers (ts : list Tick) (name : string) : Z :=
  Z.of_nat (length (List.filter (fun e => close e.1 <? e.2) (members ts name))).
Definition decliners (ts : list Tick) (name : string) : Z :=
  Z.of_nat (length (List.filter (fun e => e.2 <? close e.1) (members ts name))).

(** The prices of one symbol, and the returns between consecutive ones. *)
Definition prices (ts : list Tick) (sym : Z) : list Z :=
  ltp_paise <$> List.filter (fun t => tk_symbol t =? sym) ts.
Definition ret (prev ltp : Z) : list f32 :=
  if prev =? 0 then []
  else [f64_to_f32 (f64_div (f64_sub (f64_of_Z ltp) (f64_of_Z prev)) (f64_of_Z prev))].
Fixpoint rets (ps : list Z) : list f32 :=
  match ps with p :: (q :: _) as ps' => ret p q ++ rets ps' | _ => [] end.
End spec.

(** *** The state of a symbol follows its prices *)

Lemma rets_snoc ps p q : rets (ps ++ [p; q]) = rets (ps ++ [p]) ++ ret p q.
Proof.
  induction ps as [| a [| b ps] IH]; [simpl; by rewrite app_nil_r | |].
  - change (rets ([a] ++ [p; q])) with (ret a p ++ ret p q ++ []). change (rets ([a] ++ [p])) with (ret a p ++ []).
    by rewrite !app_nil_r.
  - change (rets ((a :: b :: ps) ++ [p; q])) with (ret a b ++ rets ((b :: ps) ++ [p; q])).
    change (rets ((a :: b :: ps) ++ [p])) with (ret a b ++ rets ((b :: ps) ++ [p])).
    by rewrite IH, (assoc_L (++)).
Qed.

Definition follows (close : Z) (st : SymbolState) (ps : list Z) : Prop :=
  last_ltp_paise st = unwrap_or 0 (last ps) /\ prev_close_paise st = close
  /\ prev_ltp_paise st = last ps
  /\ RingWindow.tracks VOLATILITY_WINDOW (returns st) (rets ps).

Lemma follows_new c : follows c (SymbolState_new c) [].
Proof.
  split_and!; try done. apply RingWindow.tracks_fresh. unfold VOLATILITY_WINDOW. lia.
Qed.

Lemma follows_observe c st ps ltp : follows c st ps -> follows c (observe st ltp) (ps ++ [ltp]).
Proof.
  intros (Hl & Hc & Hp & Ht). unfold follows, observe. cbn. rewrite last_snoc.
  split_and!; try done. rewrite Hp. destruct ps as [| p ps _] using rev_ind; [done |].
  rewrite last_snoc, <- (assoc_L (++)). change ([p] ++ [ltp]) with [p; ltp]. rewrite rets_snoc. unfold ret.
  destruct (p =? 0); [by rewrite app_nil_r |]. by apply RingWindow.tracks_push.
Qed.

(** The aggregator after the history [ts]. *)
Definition reflects (secs : gmap Z string) (pc : gmap Z Z) (a : BreadthAggregator) (ts : list Tick)
  : Prop :=
  sector_of a = secs /\ prev_close a = pc
  /\ forall sym, match state a !! sym with
     | Some st => follows (close pc sym) st (prices ts sym) /\ prices ts sym <> []
     | None => prices ts sym = []
     end.

Lemma prices_snoc ts t sym :
  prices (ts ++ [t]) sym = prices ts sym ++ (if tk_symbol t =? sym then [ltp_paise t] else []).
Proof.
  unfold prices. rewrite List.filter_app, fmap_app. simpl. by destruct (tk_symbol t =? sym).
Qed.

Lemma latest_prices ts sym : latest ts !! sym = last (prices ts sym).
Proof.
  induction ts as [| t ts IH] using rev_ind; [done |].
  unfold latest. rewrite foldl_snoc, prices_snoc. fold (latest ts).
  destruct (Z.eqb_spec (tk_symbol t) sym) as [<- | Hne].
  - by rewrite lookup_insert_eq, last_snoc.
  - cbv iota. by rewrite lookup_insert_ne, app_nil_r by done.
Qed.

Section aggregator.
Context (order : gmap Z SymbolState -> list (Z * SymbolState)).
Context (order_perm : forall m, order m ≡ₚ map_to_list m).

Lemma on_tick_reflects secs pc a ts t c : reflects secs pc a ts ->
  reflects secs pc (on_tick order a t c).2 (ts ++ [t]).
Proof.
  intros (Hs & Hp & Hst).
  assert (forall k, match <[tk_symbol t := observe (symbol_state a (tk_symbol t)) (ltp_paise t)]> (state a) !! k with
    | Some st => follows (close pc k) st (prices (ts ++ [t]) k) /\ prices (ts ++ [t]) k <> []
    | None => prices (ts ++ [t]) k = [] end) as Hk.
  { intros k. rewrite prices_snoc. destruct (Z.eqb_spec (tk_symbol t) k) as [<- | Hne].
    - rewrite lookup_insert_eq. split; [| intros E; by apply app_eq_nil in E as [_ ?]].
      apply follows_observe. unfold symbol_state. specialize (Hst (tk_symbol t)).
      destruct (state a !! tk_symbol t); [apply Hst |]. rewrite Hst, Hp. apply follows_new.
    - rewrite lookup_insert_ne by done. cbv iota. rewrite app_nil_r. apply Hst. }
  unfold on_tick, SymbolId.new. by destruct (should_publish _ _).
Qed.

Lemma on_ticks_reflects secs pc ts : forall a past, reflects secs pc a past ->
  reflects secs pc (on_ticks order a ts).2 (past ++ ts.*1).
Proof.
  induction ts as [| [t c] ts IH]; intros a past Ha; [simpl; by rewrite app_nil_r |].
  simpl. pose proof (on_tick_reflects secs pc a past t c Ha) as H1.
  destruct (on_tick order a t c) as [s a1]. specialize (IH a1 _ H1).
  destruct (on_ticks order a1 ts) as [ss a2]. by rewrite <- (assoc_L (++)) in IH.
Qed.

Lemma new_reflects secs pc now : reflects secs pc (new secs pc now) [].
Proof. split_and!; try done. Qed.

(** *** The counting loop *)

Definition in_sector (secs : gmap Z string) (name : string) (e : Z * SymbolState) : bool :=
  bool_decide (secs !! e.1 = Some name) && negb (prev_close_paise e.2 =? 0).
Definition tally (secs : gmap Z string) (name : string) (l : list (Z * SymbolState)) : Z * Z * Z :=
  let m := List.filter (in_sector secs name) l in
  (Z.of_nat (length (List.filter (fun e => prev_close_paise e.2 <? last_ltp_paise e.2) m)),
   Z.of_nat (length (List.filter (fun e => last_ltp_paise e.2 <? prev_close_paise e.2) m)),
   Z.of_nat (length m)).

Lemma tally_snoc secs name l e : tally secs name (l ++ [e]) =
  let '(adv, dec, tot) := tally secs name l in
  if in_sector secs name e then
    (adv + Z.b2z (prev_close_paise e.2 <? last_ltp_paise e.2),
     dec + Z.b2z (last_ltp_paise e.2 <? prev_close_paise e.2), tot + 1)
  else (adv, dec, tot).
Proof.
  unfold tally. rewrite List.filter_app. cbn [List.filter].
  destruct (in_sector secs name e); [| by rewrite app_nil_r].
  rewrite !List.filter_app, !length_app, !Nat2Z.inj_add. cbn [List.filter length].
  destruct (prev_close_paise e.2 <? last_ltp_paise e.2), (last_ltp_paise e.2 <? prev_close_paise e.2);
    repeat f_equal; simpl; lia.
Qed.

Lemma filter_length_bool {A} (p : A -> bool) l : (length (List.filter p l) <= length l)%nat.
Proof. induction l as [| x l IH]; simpl; [lia |]. destruct (p x); simpl; lia. Qed.

(** Advancers and decliners are disjoint parts of the total. *)
Lemma tally_bounds secs name l : let '(adv, dec, tot) := tally secs name l in
  0 <= adv /\ 0 <= dec /\ adv + dec <= tot <= Z.of_nat (length l).
Proof.
  induction l as [| e l IH] using rev_ind; [done |]. rewrite tally_snoc, length_app. simpl length.
  destruct (tally secs name l) as [[adv dec] tot]. destruct (in_sector secs name e); [| lia].
  destruct (Z.ltb_spec (prev_close_paise e.2) (last_ltp_paise e.2)),
    (Z.ltb_spec (last_ltp_paise e.2) (prev_close_paise e.2)); simpl; lia.
Qed.

Lemma as_u32_small z : 0 <= z <= u32_max -> as_u32 z = z.
Proof. intros H. unfold as_u32, wrap_u. apply Z.mod_small. unfold_ok. simpl. lia. Qed.

Lemma count_loop secs name l : Z.of_nat (length l) <= u32_max ->
  foldl (count_symbol secs) ∅ l !! name =
  (let c := tally secs name l in if c.2 =? 0 then None else Some c).
Proof.
  induction l as [| [sym st] l IH] using rev_ind; [done |]. rewrite length_app. intros Hl. simpl in Hl.
  specialize (IH ltac:(lia)). rewrite foldl_snoc, tally_snoc.
  pose proof (tally_bounds secs name l) as Hb. cbv zeta in IH |- *.
  destruct (tally secs name l) as [[adv dec] tot] eqn:Et. cbn [snd] in IH.
  set (cs := foldl (count_symbol secs) ∅ l) in *. clearbody cs.
  unfold count_symbol, in_sector. cbn [fst snd].
  destruct (secs !! sym) as [nm |]; [| done].
  destruct (prev_close_paise st =? 0); [by rewrite andb_false_r |]. rewrite andb_true_r.
  destruct (decide (nm = name)) as [-> | Hne].
  2: { rewrite bool_decide_false by congruence.
       destruct (unwrap_or (0, 0, 0) (cs !! nm)) as [[a' d'] t'].
       cbv beta iota zeta.
       by rewrite lookup_insert_ne. }
  rewrite bool_decide_true by done. cbn [snd].
  assert (unwrap_or (0, 0, 0) (cs !! name) = (adv, dec, tot)) as ->.
  { rewrite IH. destruct (Z.eqb_spec tot 0); [| done]. cbn [unwrap_or]. repeat f_equal; lia. }
  cbv beta iota zeta. rewrite lookup_insert_eq. cbn [snd]. rewrite (proj2 (Z.eqb_neq (tot + 1) 0)) by lia. f_equal.
  rewrite !as_u32_small by lia.
  destruct (Z.compare_spec (last_ltp_paise st) (prev_close_paise st)) as [E | E | E].
  - rewrite (proj2 (Z.ltb_ge (prev_close_paise st) _)), (proj2 (Z.ltb_ge (last_ltp_paise st) _)) by lia.
    by rewrite !Z.add_0_r.
  - rewrite (proj2 (Z.ltb_ge (prev_close_paise st) _)), (proj2 (Z.ltb_lt (last_ltp_paise st) _)) by lia.
    by rewrite Z.add_0_r.
  - rewrite (proj2 (Z.ltb_lt (prev_close_paise st) _)), (proj2 (Z.ltb_ge (last_ltp_paise st) _)) by lia.
    by rewrite Z.add_0_r.
Qed.

(** *** The state and the history agree *)

#[global] Instance filter_perm {A} (p : A -> bool) : Proper ((≡ₚ) ==> (≡ₚ)) (List.filter p).
Proof.
  intros l l'. induction 1 as [| x l l' _ IH | x y l | l l' l'' _ IH1 _ IH2]; simpl; [done | | |].
  - destruct (p x); [by constructor | done].
  - destruct (p x), (p y); try done. constructor.
  - by etrans.
Qed.

Lemma filter_fmap_ext {A B} (f : A -> B) (p : B -> bool) (q : A -> bool) l :
  (forall x, x ∈ l -> p (f x) = q x) -> List.filter p (f <$> l) = f <$> List.filter q l.
Proof.
  induction l as [| x l IH]; intros H; [done |]. rewrite fmap_cons. cbn [List.filter].
  rewrite (H x) by apply list_elem_of_here. rewrite IH by (intros; apply H; by apply list_elem_of_further).
  by destruct (q x).
Qed.

Lemma filter_subset {A} (p : A -> bool) l x : x ∈ List.filter p l -> x ∈ l.
Proof. rewrite !list_elem_of_In. intros H. by apply List.filter_In in H as [? _]. Qed.

Lemma reflects_latest secs pc a ts : reflects secs pc a ts ->
  latest ts = last_ltp_paise <$> state a.
Proof.
  intros (_ & _ & Hst). apply map_eq. intros sym. rewrite latest_prices, lookup_fmap.
  specialize (Hst sym). destruct (state a !! sym) as [st |]; [| by rewrite Hst].
  destruct Hst as [(Hl & _) Hne]. destruct (prices ts sym) as [| p ps _] using rev_ind; [done |].
  rewrite last_snoc in *. simpl. by rewrite Hl.
Qed.

Lemma reflects_tally secs pc a ts name : reflects secs pc a ts ->
  tally secs name (order (state a)) =
  (advancers secs pc ts name, decliners secs pc ts name, total secs pc ts name).
Proof.
  intros Hr. pose proof (reflects_latest _ _ _ _ Hr) as Hlat. destruct Hr as (_ & _ & Hst).
  set (f := prod_map id last_ltp_paise : Z * SymbolState -> Z * Z).
  assert (members secs pc ts name ≡ₚ f <$> List.filter (in_sector secs name) (order (state a))) as Hm.
  { unfold members. rewrite Hlat.
    rewrite (filter_perm _ _ (f <$> order (state a))).
    2: { rewrite order_perm. by rewrite map_to_list_fmap. }
    rewrite (filter_fmap_ext f _ (in_sector secs name)); [done |].
    intros [sym st] Hin. rewrite order_perm in Hin. apply elem_of_map_to_list in Hin.
    specialize (Hst sym). rewrite Hin in Hst. destruct Hst as [(_ & Hc & _) _].
    unfold is_member, in_sector. simpl. by rewrite Hc. }
  assert (forall p q, (forall sym st, state a !! sym = Some st -> p (sym, last_ltp_paise st) = q (sym, st)) ->
    length (List.filter p (members secs pc ts name))
    = length (List.filter q (List.filter (in_sector secs name) (order (state a))))) as Hlen.
  { intros p q Hpq. rewrite (filter_perm p _ _ Hm), (filter_fmap_ext f p q), length_fmap; [done |].
    intros [sym st] Hin%filter_subset. rewrite order_perm in Hin. apply elem_of_map_to_list in Hin.
    by apply Hpq. }
  assert (length (members secs pc ts name) = length (List.filter (in_sector secs name) (order (state a)))) as Hall.
  { by rewrite Hm, length_fmap. }
  unfold tally, advancers, decliners, total. rewrite Hall.
  repeat f_equal; symmetry; apply Hlen; intros sym st Hin; specialize (Hst sym); rewrite Hin in Hst;
    destruct Hst as [(_ & Hc & _) _]; cbn [fst snd]; by rewrite Hc.
Qed.

Lemma reflects_size secs pc a ts : reflects secs pc a ts ->
  length (order (state a)) = size (latest ts).
Proof.
  intros Hr. rewrite (reflects_latest _ _ _ _ Hr), map_size_fmap, order_perm. apply length_map_to_list.
Qed.

Lemma breadth_value_exact adv dec tot : 0 <= adv -> 0 <= dec -> adv + dec <= tot -> 0 < tot < 2 ^ 24 ->
  breadth_value (adv, dec, tot) = f32_div (f32_of_Z (adv - dec)) (f32_of_Z tot).
Proof.
  intros. unfold breadth_value. rewrite (proj2 (Z.eqb_neq tot 0)) by lia.
  by rewrite f32_sub_of_Z by lia.
Qed.
End aggregator.
End BreadthSpec.

(** *** Batches and volatility *)

Module BreadthBatch.
Import Breadth.

Definition published (s : BreadthSnapshot) : bool := is_some (sector s) && is_some (volatility s).

(** What every snapshot satisfies: both parts or none; a volatility that is a number and not
    negative, and zero on fewer than two samples. *)
Definition sound_volatility (v : VolatilityBreadth) : Prop :=
  f_is_nan (stdev v) = false /\ f_unsigned (stdev v)
  /\ 0 <= sample_count v <= u32_max /\ (sample_count v < 2 -> stdev v = f_zero).
Definition sound_snapshot (s : BreadthSnapshot) : Prop :=
  is_some (sector s) = is_some (volatility s)
  /\ forall v, volatility s = Some v -> sound_volatility v.

Lemma f_max_zero x : f_is_nan (f_max x f_zero) = false /\ f_unsigned (f_max x f_zero).
Proof. by destruct x as [[] | [] | | [] m e]. Qed.

Lemma sqrtrem_nonneg z : 0 <= (Z.sqrtrem z).1.
Proof. destruct z as [| p | p]; simpl; [lia | | lia]. destruct (Pos.sqrtrem p) as [? []]; simpl; lia. Qed.

Lemma f64_sqrt_sound x : f_is_nan x = false -> f_unsigned x ->
  f_is_nan (f64_sqrt x) = false /\ f_unsigned (f64_sqrt x).
Proof.
  intros Hn Hu. destruct x as [s | s | | s m e]; try done; simpl in Hu; subst; [done |].
  unfold f64_sqrt, SFsqrt. destruct (SFsqrt_core_binary _ _ _ _) as [[q e'] l] eqn:E.
  split; [| apply binary_round_aux_unsigned]. apply binary_round_aux_not_nan.
  revert E. unfold SFsqrt_core_binary. set (m' := match _ with Z0 => _ | _ => _ end).
  pose proof (sqrtrem_nonneg m') as Hq. destruct (Z.sqrtrem m') as [q0 r0]. by intros [= <- _ _].
Qed.

Lemma f64_to_f32_unsigned x : f_unsigned x -> f_unsigned (f64_to_f32 x).
Proof.
  intros Hu. destruct x as [s | s | | s m e]; try done. simpl in Hu. subst. simpl.
  unfold binary_round. destruct (shl_align _ _ _). apply binary_round_aux_unsigned.
Qed.

Section batch.
Context (order : gmap Z SymbolState -> list (Z * SymbolState)).

Lemma accumulate_count xs : forall acc, u64_ok acc.2 -> u64_ok (foldl accumulate acc xs).2.
Proof.
  induction xs as [| x xs IH]; intros [[sum sum_sq] n] H; [done |]. apply IH.
  pose proof (Z.mod_pos_bound (n + 1) (2 ^ 64) ltac:(lia)).
  cbn [accumulate snd]. unfold as_u64, wrap_u. unfold_ok. lia.
Qed.

Lemma compute_volatility_sound a now : sound_volatility (compute_volatility order a now).
Proof.
  unfold compute_volatility.
  pose proof (accumulate_count (samples order a) (f_zero, f_zero, 0) ltac:(done)) as Hn.
  destruct (foldl accumulate _ _) as [[sum sum_sq] n]. unfold sound_volatility.
  cbn [stdev sample_count snd] in *. unfold_ok.
  destruct (Z.leb_spec 2 n) as [H2 | H2].
  - destruct (f_max_zero (f64_sub (f64_div sum_sq (f64_of_Z n))
      (f64_mul (f64_div sum (f64_of_Z n)) (f64_div sum (f64_of_Z n))))) as [N1 U1].
    destruct (f64_sqrt_sound _ N1 U1) as [N2 U2].
    split_and!; [by apply f64_to_f32_not_nan | by apply f64_to_f32_unsigned | lia | lia | lia].
  - split_and!; try done; lia.
Qed.

Lemma on_tick_sound a t c : sound_snapshot (on_tick order a t c).1.
Proof.
  unfold on_tick. destruct (should_publish _ _); [| done]. split; [done |].
  intros v [= <-]. apply compute_volatility_sound.
Qed.

(** A tick that publishes nothing is counted, below the batch size. *)
Lemma on_tick_counts a t c : 0 <= ticks_since_publish a -> 0 < batch_ticks a <= u32_max ->
  let '(s, a') := on_tick order a t c in
  batch_ticks a' = batch_ticks a
  /\ 0 <= ticks_since_publish a' < batch_ticks a'
  /\ (published s = false -> ticks_since_publish a' = ticks_since_publish a + 1).
Proof.
  intros H0 Hb. unfold on_tick, should_publish. cbn [batch_ticks ticks_since_publish last_publish].
  unfold sat. destruct (Z.leb_spec (batch_ticks a) (if ticks_since_publish a + 1 <? 0 then 0 else
    if u32_max <? ticks_since_publish a + 1 then u32_max else ticks_since_publish a + 1)) as [Hle | Hlt];
    cbn [orb].
  - cbn. split_and!; try done; lia.
  - destruct (_ <=? _); cbn; [split_and!; try done; lia |].
    revert Hlt. split_ifs; intros; lia.
Qed.

Lemma on_ticks_unpublished ts : forall a, 0 <= ticks_since_publish a -> 0 < batch_ticks a <= u32_max ->
  let '(ss, a') := on_ticks order a ts in
  batch_ticks a' = batch_ticks a /\ 0 <= ticks_since_publish a'
  /\ length ss = length ts
  /\ Forall sound_snapshot ss
  /\ (ts <> [] -> Forall (fun s => published s = false) ss ->
      ticks_since_publish a + Z.of_nat (length ts) < batch_ticks a).
Proof.
  induction ts as [| [t c] ts IH]; intros a H0 Hb; [cbn; split_and!; try done; constructor |].
  simpl. pose proof (on_tick_counts a t c H0 Hb) as H1. pose proof (on_tick_sound a t c) as Hsnd.
  destruct (on_tick order a t c) as [s a1]. destruct H1 as (Hb1 & Ht1 & Hp1).
  specialize (IH a1 ltac:(lia) ltac:(lia)). destruct (on_ticks order a1 ts) as [ss a2].
  destruct IH as (Hb2 & Ht2 & Hlen & Hall & Hun). split_and!; [lia | lia | simpl; lia | by constructor |].
  intros _ [Hs Hss]%Forall_cons. specialize (Hp1 Hs).
  destruct ts as [| tc ts]; [simpl; lia |]. specialize (Hun ltac:(done) Hss). simpl in *. lia.
Qed.

Lemma on_ticks_app ts1 : forall a ts2,
  on_ticks order a (ts1 ++ ts2) =
  let '(s1, a1) := on_ticks order a ts1 in
  let '(s2, a2) := on_ticks order a1 ts2 in (s1 ++ s2, a2).
Proof.
  induction ts1 as [| [t c] ts1 IH]; intros a ts2; simpl.
  - by destruct (on_ticks order a ts2).
  - destruct (on_tick order a t c) as [s a1]. rewrite IH.
    destruct (on_ticks order a1 ts1) as [s1 a2]. by destruct (on_ticks order a2 ts2).
Qed.
End batch.
End BreadthBatch.

(** Whatever the order in which the table of symbols is iterated, the published breadth
    of a sector is, for the history of ticks, the correctly rounded quotient of its
    advancers minus its decliners by its total, counted over the symbols that ticked, are
    mapped to it and have a previous close; it lies between -1 and 1, and a sector without
    such a symbol is absent. *)
Theorem sector_breadth_is_exact (order : gmap Z Breadth.SymbolState -> list (Z * Breadth.SymbolState))
  (secs : gmap Z string) (pc : gmap Z Z) (t0 : Z) (ts : list (Tick * Breadth.Clock)) (now : Z)
  (name : string) :
  (forall m, order m ≡ₚ map_to_list m) ->
  Z.of_nat (size (BreadthSpec.latest ts.*1)) < 2 ^ 24 ->
  let a := (Breadth.on_ticks order (Breadth.new secs pc t0) ts).2 in
  let adv := BreadthSpec.advancers secs pc ts.*1 name in
  let dec := BreadthSpec.decliners secs pc ts.*1 name in
  let tot := BreadthSpec.total secs pc ts.*1 name in
  Breadth.sectors (Breadth.compute_sector order a now) !! name =
    (if tot =? 0 then None else Some (f32_div (f32_of_Z (adv - dec)) (f32_of_Z tot)))
  /\ forall v, Breadth.sectors (Breadth.compute_sector order a now) !! name = Some v ->
     f_le (f_opp f32_one) v = true /\ f_le v f32_one = true.
Proof.
  intros Ho Hsz. cbv zeta.
  pose proof (BreadthSpec.on_ticks_reflects order secs pc ts _ [] (BreadthSpec.new_reflects secs pc t0)) as Hr.
  set (a := (Breadth.on_ticks order _ ts).2) in *. clearbody a. simpl in Hr.
  pose proof (BreadthSpec.reflects_tally order Ho secs pc a _ name Hr) as Ht.
  pose proof (BreadthSpec.reflects_size order Ho secs pc a _ Hr) as Hl.
  pose proof (BreadthSpec.tally_bounds secs name (order (Breadth.state a))) as Hb. rewrite Ht in Hb.
  assert (Breadth.sectors (Breadth.compute_sector order a now) !! name =
    (if BreadthSpec.total secs pc ts.*1 name =? 0 then None
     else Some (Breadth.breadth_value (BreadthSpec.tally secs name (order (Breadth.state a)))))) as E.
  { unfold Breadth.compute_sector. cbn [Breadth.sectors].
    rewrite lookup_fmap, (proj1 Hr), BreadthSpec.count_loop by (unfold_ok; lia).
    cbv zeta. rewrite Ht. cbn [snd]. by destruct (_ =? 0). }
  rewrite E, Ht. destruct (Z.eqb_spec (BreadthSpec.total secs pc ts.*1 name) 0) as [Hz | Hz]; [done |].
  rewrite BreadthSpec.breadth_value_exact by lia. split; [done |].
  intros v [= <-]. apply f32_ratio_unit; lia.
Qed.

Module BreadthSample.
Import Breadth.
Definition tick (sym ltp : Z) : Tick := mk_Tick (replicate 16 0) sym 0 ltp ltp ltp 1 1 1 0 0.
Definition clock : Clock := mk_Clock 5 6 7.
Definition secs : gmap Z string := {[ 1 := "IT"; 2 := "IT"; 3 := "IT"; 4 := "Auto" ]}.
Definition pc : gmap Z Z := {[ 1 := 100; 2 := 100; 3 := 100 ]}.
Definition run : list (Tick * Clock) :=
  (fun p => (tick p.1 p.2, clock)) <$> [(1, 110); (2, 90); (3, 90); (2, 120); (4, 50); (9, 10)].
End BreadthSample.

Lemma sector_breadth_is_exact_witness :
  Breadth.sectors (Breadth.compute_sector map_to_list
    (Breadth.on_ticks map_to_list (Breadth.new BreadthSample.secs BreadthSample.pc 5)
       BreadthSample.run).2 7) !! "IT"
  = Some (f32_div (f32_of_Z 1) (f32_of_Z 3)).
Proof.
  refine (proj1 (sector_breadth_is_exact map_to_list BreadthSample.secs BreadthSample.pc 5
                   BreadthSample.run 7 "IT" _ _)); [done | vm_compute; reflexivity].
Defined.

(** Any hundred consecutive ticks publish the breadth at least once, both parts of it
    together; and every volatility published is a number, is not negative, and is zero when
    fewer than two returns are pooled. *)
Theorem breadth_published_every_batch (order : gmap Z Breadth.SymbolState -> list (Z * Breadth.SymbolState))
  (secs : gmap Z string) (pc : gmap Z Z) (t0 : Z) (ts : list (Tick * Breadth.Clock)) :
  let snaps := (Breadth.on_ticks order (Breadth.new secs pc t0) ts).1 in
  length snaps = length ts
  /\ Forall BreadthBatch.sound_snapshot snaps
  /\ forall i, (i + Z.to_nat Breadth.DEFAULT_BATCH_TICKS <= length ts)%nat ->
     exists s, s ∈ take (Z.to_nat Breadth.DEFAULT_BATCH_TICKS) (drop i snaps)
               /\ BreadthBatch.published s = true.
Proof.
  cbv zeta. set (a := Breadth.new secs pc t0).
  pose proof (BreadthBatch.on_ticks_unpublished order ts a ltac:(done) ltac:(done)) as Hall.
  split_and!.
  - destruct (Breadth.on_ticks order a ts). tauto.
  - destruct (Breadth.on_ticks order a ts). tauto.
  - intros i Hi. clear Hall. set (n := Z.to_nat Breadth.DEFAULT_BATCH_TICKS) in *.
    rewrite <- (take_drop i ts), <- (take_drop n (drop i ts)), BreadthBatch.on_ticks_app.
    pose proof (BreadthBatch.on_ticks_unpublished order (take i ts) a ltac:(done) ltac:(done)) as H1.
    destruct (Breadth.on_ticks order a (take i ts)) as [s1 a1]. destruct H1 as (Hb1 & Ht1 & Hl1 & _).
    rewrite BreadthBatch.on_ticks_app.
    pose proof (BreadthBatch.on_ticks_unpublished order (take n (drop i ts)) a1 Ht1 ltac:(by rewrite Hb1)) as H2.
    destruct (Breadth.on_ticks order a1 (take n (drop i ts))) as [s2 a2].
    destruct H2 as (_ & _ & Hl2 & _ & Hun).
    destruct (Breadth.on_ticks order a2 (drop n (drop i ts))) as [s3 a3]. cbn [fst].
    assert (length s1 = i) by (rewrite Hl1, length_take; lia).
    assert (length (take n (drop i ts)) = n) as Hn by (rewrite length_take, length_drop; lia).
    rewrite drop_app_length', take_app_length' by (rewrite ?Hl2; done).
    destruct (decide (Exists (fun s => BreadthBatch.published s = true) s2)) as [[s Hs]%Exists_exists | Hno]; [by eauto |].
    exfalso. apply not_Exists_Forall in Hno; [| intros ?; apply _].
    assert (ticks_lt : Breadth.ticks_since_publish a1 + Z.of_nat n < Breadth.batch_ticks a1).
    { rewrite <- Hn. apply Hun.
      - intros E. rewrite E in Hn. done.
      - eapply Forall_impl; [exact Hno |]. intros s Hs. by apply not_true_is_false. }
    rewrite Hb1 in ticks_lt. unfold n in ticks_lt. cbn in ticks_lt. lia.
Qed.

Lemma breadth_published_every_batch_witness :
  exists s, s ∈ take 100 (drop 5 (Breadth.on_ticks map_to_list (Breadth.new ∅ ∅ 5)
    (replicate 110 (BreadthSample.tick 1 100, BreadthSample.clock))).1)
  /\ BreadthBatch.published s = true.
Proof.
  apply (proj2 (proj2 (breadth_published_every_batch map_to_list ∅ ∅ 5
    (replicate 110 (BreadthSample.tick 1 100, BreadthSample.clock)))) 5%nat).
  vm_compute. lia.
Defined.
