(* ===== verification/MarketData.v ===== *)
(** The market-data service (hedge-market-data): symbol interning, also under concurrency
    (interner.rs), parsing and normalisation (protocol.rs, error.rs, normalizer.rs), the
    per-symbol channels (distributor.rs), the WebSocket adapter with its reconnection
    schedule (adapter.rs) and the ingestion loop (engine.rs). *)

From S2P Require Import Prelude Ieee Bytes Core Schemas LiveRoute Wire Breadth.

(** ** Symbol interner (interner.rs) *)

Module SymbolInterner.

Record t := mk { map : gmap string Z; next : Z }.

(** Identifiers start at 1: 0 is the sentinel. *)
Definition new : t := mk ∅ 1.
Definition get (s : t) (sym : string) : option Z := map s !! sym.
Definition len (s : t) : nat := size (map s).
Definition is_empty (s : t) : bool := (len s =? 0)%nat.

(** [next.fetch_add(1)]. *)
Definition fetch_add (s : t) : Z * t := (next s, mk (map s) (as_u32 (next s + 1))).
(** [map.entry(sym).or_insert(candidate)]. *)
Definition or_insert (s : t) (sym : string) (candidate : Z) : Z * t :=
  match map s !! sym with
  | Some id => (id, s)
  | None => (candidate, mk (<[sym := candidate]> (map s)) (next s))
  end.

(** One call that is not interleaved with another. *)
Definition intern (s : t) (sym : string) : Z * t :=
  match map s !! sym with
  | Some existing => (existing, s)
  | None => let '(candidate, s) := fetch_add s in or_insert s sym candidate
  end.
End SymbolInterner.

(** Concurrent [intern] calls, one program counter each; a step is one atomic access of the
    shared map or of the counter. *)
Module InternerConc.
Import SymbolInterner.

Inductive pc : Type :=
| Start (sym : string)
| Missed (sym : string)
| Candidate (sym : string) (id : Z)
| Done (sym : string) (id : Z).

Definition sys : Type := t * list pc.

Inductive step : sys -> sys -> Prop :=
| step_hit s ts i sym id :
    ts !! i = Some (Start sym) -> map s !! sym = Some id ->
    step (s, ts) (s, <[i := Done sym id]> ts)
| step_miss s ts i sym :
    ts !! i = Some (Start sym) -> map s !! sym = None ->
    step (s, ts) (s, <[i := Missed sym]> ts)
| step_alloc s ts i sym :
    ts !! i = Some (Missed sym) ->
    step (s, ts) ((fetch_add s).2, <[i := Candidate sym (fetch_add s).1]> ts)
| step_insert s ts i sym c :
    ts !! i = Some (Candidate sym c) ->
    step (s, ts) ((or_insert s sym c).2, <[i := Done sym (or_insert s sym c).1]> ts).

Definition symbol (p : pc) : string :=
  match p with Start s | Missed s | Candidate s _ | Done s _ => s end.
Definition candidate (p : pc) : option Z := match p with Candidate _ c => Some c | _ => None end.
Definition unallocated (p : pc) : bool := match p with Start _ | Missed _ => true | _ => false end.
Definition is_done (p : pc) : bool := match p with Done _ _ => true | _ => false end.
Definition pending (ts : list pc) : nat := length (List.filter unallocated ts).

(** The identifiers in the map and those about to be inserted are below [next], positive
    and pairwise distinct; a finished call returned what the map holds; the counter has
    counted the calls that allocated. *)
Record inv (n : nat) (syms : list string) (s : t) (ts : list pc) : Prop := mk_inv {
  inv_symbols : symbol <$> ts = syms;
  inv_count : 1 <= next s /\ next s + Z.of_nat (pending ts) <= Z.of_nat n + 1;
  inv_range : forall sym id, map s !! sym = Some id -> 1 <= id < next s;
  inv_inj : forall s1 s2 id, map s !! s1 = Some id -> map s !! s2 = Some id -> s1 = s2;
  inv_cand : forall i sym c, ts !! i = Some (Candidate sym c) ->
    1 <= c < next s /\ (forall s', map s !! s' <> Some c);
  inv_cands : forall i j s1 s2 c, ts !! i = Some (Candidate s1 c) -> ts !! j = Some (Candidate s2 c) ->
    i = j;
  inv_done : forall i sym id, ts !! i = Some (Done sym id) -> map s !! sym = Some id;
  inv_known : forall sym id, map s !! sym = Some id -> sym ∈ syms;
}.

Lemma pending_le ts : (pending ts <= length ts)%nat.
Proof. apply BreadthSpec.filter_length_bool. Qed.

Lemma pending_insert (ts : list pc) (i : nat) p q : ts !! i = Some p ->
  (pending (<[i := q]> ts) + (if unallocated p then 1 else 0)
   = pending ts + (if unallocated q then 1 else 0))%nat.
Proof.
  unfold pending. revert i. induction ts as [| x ts IH]; intros [| i] Hi; simplify_eq/=.
  - destruct (unallocated p), (unallocated q); simpl; lia.
  - specialize (IH i Hi). destruct (unallocated x); simpl; lia.
Qed.

Lemma symbols_insert (ts : list pc) i p q : ts !! i = Some p -> symbol q = symbol p ->
  symbol <$> <[i := q]> ts = symbol <$> ts.
Proof.
  intros Hi E. rewrite list_fmap_insert, E. apply list_insert_id. by rewrite list_lookup_fmap, Hi.
Qed.

Lemma lookup_insert_cases (ts : list pc) i j q p : <[i := q]> ts !! j = Some p ->
  (i = j /\ p = q) \/ (i <> j /\ ts !! j = Some p).
Proof. intros [(-> & <- & _) | ?]%list_lookup_insert_Some; auto. Qed.

Lemma interner_inv_new syms : inv (length syms) syms new (Start <$> syms).
Proof.
  assert (forall i p, (Start <$> syms) !! i = Some p -> exists s, p = Start s) as H.
  { intros i p [s [-> _]]%list_lookup_fmap_Some. eauto. }
  constructor; try (intros ? ? ? ? ? Hi; apply H in Hi as [? ?]; discriminate);
    try (intros ? ? ? Hi; apply H in Hi as [? ?]; discriminate); try done.
  - clear H. induction syms as [| s syms IH]; [done |]. by rewrite fmap_cons, fmap_cons, IH.
  - pose proof (pending_le (Start <$> syms)) as Hp. rewrite length_fmap in Hp.
    unfold new. cbn [next]. lia.
Qed.

Lemma interner_inv_step n syms s ts s' ts' : inv n syms s ts -> Z.of_nat n < u32_max ->
  step (s, ts) (s', ts') -> inv n syms s' ts'.
Proof.
  intros [Hsym Hcnt Hrng Hinj Hcand Hcands Hdone Hknown] Hn Hs.
  assert (forall i p, ts !! i = Some p -> symbol p ∈ syms) as Hmem.
  { intros i p Hi. rewrite <- Hsym. apply list_elem_of_fmap. exists p. split; [done |].
    by eapply list_elem_of_lookup_2. }
  inversion Hs as [s0 ts0 i sym id Hi Hm | s0 ts0 i sym Hi Hm | s0 ts0 i sym Hi | s0 ts0 i sym c Hi];
    subst; clear Hs.
  - pose proof (pending_insert ts i _ (Done sym id) Hi) as Hp. simpl in Hp.
    constructor; try done; try (by rewrite (symbols_insert _ _ _ _ Hi)); [lia | | |].
    + intros j s1 c [[_ ?] | [_ Hj]]%lookup_insert_cases; [done | eauto].
    + intros j k s1 s2 c [[_ ?] | [_ Hj]]%lookup_insert_cases [[_ ?] | [_ Hk]]%lookup_insert_cases; eauto; done.
    + intros j s1 c [[_ [= -> ->]] | [_ Hj]]%lookup_insert_cases; eauto.
  - pose proof (pending_insert ts i _ (Missed sym) Hi) as Hp. simpl in Hp.
    constructor; try done; try (by rewrite (symbols_insert _ _ _ _ Hi)); [lia | | |].
    + intros j s1 c [[_ ?] | [_ Hj]]%lookup_insert_cases; [done | eauto].
    + intros j k s1 s2 c [[_ ?] | [_ Hj]]%lookup_insert_cases [[_ ?] | [_ Hk]]%lookup_insert_cases; eauto; done.
    + intros j s1 c [[_ ?] | [_ Hj]]%lookup_insert_cases; [done | eauto].
  - pose proof (pending_insert ts i _ (Candidate sym (next s)) Hi) as Hp. simpl in Hp.
    assert (as_u32 (next s + 1) = next s + 1) as Hw.
    { apply BreadthSpec.as_u32_small. unfold_ok. lia. }
    unfold fetch_add. cbn [fst snd].
    constructor; cbn [map next]; rewrite ?Hw; try done; try (by rewrite (symbols_insert _ _ _ _ Hi)); [lia | | | |].
    + intros s1 id H1. pose proof (Hrng _ _ H1). lia.
    + intros j s1 c [[_ [= -> ->]] | [_ Hj]]%lookup_insert_cases.
      * split; [lia |]. intros s2 H2. pose proof (Hrng _ _ H2). lia.
      * destruct (Hcand _ _ _ Hj). split; [lia | done].
    + intros j k s1 s2 c [[-> [= -> ->]] | [_ Hj]]%lookup_insert_cases [[-> [= ->]] | [_ Hk]]%lookup_insert_cases;
        [done | | | eauto].
      * pose proof (Hcand _ _ _ Hk). lia.
      * pose proof (Hcand _ _ _ Hj). lia.
    + intros j s1 c [[_ ?] | [_ Hj]]%lookup_insert_cases; [done | eauto].
  - pose proof (pending_insert ts i _ (Done sym (or_insert s sym c).1) Hi) as Hp. simpl in Hp.
    destruct (Hcand _ _ _ Hi) as [Hc Hfresh]. unfold or_insert in *.
    destruct (map s !! sym) as [id |] eqn:Hm; cbn [fst snd] in *.
    + constructor; try done; try (by rewrite (symbols_insert _ _ _ _ Hi)); [lia | | |].
      * intros j s1 c' [[_ ?] | [_ Hj]]%lookup_insert_cases; [done | eauto].
      * intros j k s1 s2 c' [[_ ?] | [_ Hj]]%lookup_insert_cases [[_ ?] | [_ Hk]]%lookup_insert_cases; eauto; done.
      * intros j s1 c' [[_ [= -> ->]] | [_ Hj]]%lookup_insert_cases; eauto.
    + constructor; cbn [map next]; try (by rewrite (symbols_insert _ _ _ _ Hi)); [lia | | | | | |].
      * intros s1 id [[<- <-] | [_ H1]]%lookup_insert_Some; [lia | eauto].
      * intros s1 s2 id [[<- <-] | [N1 H1]]%lookup_insert_Some [[<- E2] | [N2 H2]]%lookup_insert_Some;
          [done | by destruct (Hfresh s2) | subst; by destruct (Hfresh s1) | eauto].
      * intros j s1 c' [[_ ?] | [Hne Hj]]%lookup_insert_cases; [done |].
        destruct (Hcand _ _ _ Hj) as [Hc' Hf']. split; [done |].
        intros s2 [[<- <-] | [_ H2]]%lookup_insert_Some; [| by destruct (Hf' s2)].
        apply Hne. by eapply Hcands.
      * intros j k s1 s2 c' [[_ ?] | [_ Hj]]%lookup_insert_cases [[_ ?] | [_ Hk]]%lookup_insert_cases; eauto; done.
      * intros j s1 c' [[_ [= -> ->]] | [Hne Hj]]%lookup_insert_cases; [by rewrite lookup_insert_eq |].
        pose proof (Hdone _ _ _ Hj) as Hd. rewrite lookup_insert_ne; [done |]. intros ->. by rewrite Hm in Hd.
      * intros s1 id [[<- _] | [_ H1]]%lookup_insert_Some; [by apply (Hmem i _ Hi) | eauto].
Qed.

Lemma interner_inv_reachable syms s ts : Z.of_nat (length syms) < u32_max ->
  rtc step (new, Start <$> syms) (s, ts) -> inv (length syms) syms s ts.
Proof.
  intros Hn. enough (forall x, rtc step (new, Start <$> syms) x -> inv (length syms) syms x.1 x.2) as H.
  { intros Hr. exact (H _ Hr). }
  apply (rtc_ind_r (fun x => inv (length syms) syms x.1 x.2)); [apply interner_inv_new |].
  intros [s1 ts1] [s2 ts2] _ Hs IH. by eapply interner_inv_step.
Qed.

(** An identifier that was given is never changed. *)
Lemma step_grows x y : step x y -> map x.1 ⊆ map y.1.
Proof.
  inversion 1 as [| | | s ts i sym c Hi]; subst; cbn [fst]; try done.
  unfold or_insert. destruct (map s !! sym) eqn:E; [done |]. by apply insert_subseteq.
Qed.

Lemma steps_grow x y : rtc step x y -> map x.1 ⊆ map y.1.
Proof. induction 1 as [| x y z Hs _ IH]; [done |]. etrans; [by apply step_grows | done]. Qed.

(** A call that is alone takes the steps of [intern]. *)
Lemma intern_runs s sym :
  rtc step (s, [Start sym]) ((intern s sym).2, [Done sym (intern s sym).1]).
Proof.
  unfold intern. destruct (map s !! sym) as [id |] eqn:E.
  - eapply rtc_l; [by apply (step_hit s [Start sym] 0 sym id) | apply rtc_refl].
  - eapply rtc_l; [by apply (step_miss s [Start sym] 0 sym) |].
    eapply rtc_l; [by apply (step_alloc s [Missed sym] 0 sym) |].
    eapply rtc_l; [by apply (step_insert (fetch_add s).2 [Candidate sym (fetch_add s).1] 0 sym (fetch_add s).1) |].
    apply rtc_refl.
Qed.

(** What a call leaves, in a state where the identifiers given are below the counter. *)
Definition well_formed (s : t) : Prop :=
  1 <= next s /\ (forall sym id, map s !! sym = Some id -> 1 <= id < next s)
  /\ (forall s1 s2 id, map s !! s1 = Some id -> map s !! s2 = Some id -> s1 = s2).

Lemma intern_get s sym : get (intern s sym).2 sym = Some (intern s sym).1.
Proof.
  unfold intern, get. destruct (map s !! sym) as [id |] eqn:E; [done |].
  unfold fetch_add, or_insert. cbn [map]. rewrite E. cbn. by rewrite lookup_insert_eq.
Qed.

Lemma intern_range s sym : well_formed s -> next s <= u32_max -> 1 <= (intern s sym).1 <= u32_max.
Proof.
  intros (H1 & Hr & _) Hn. unfold intern. destruct (map s !! sym) as [id |] eqn:E.
  - pose proof (Hr _ _ E). simpl. lia.
  - unfold fetch_add, or_insert. cbn [map]. rewrite E. simpl. lia.
Qed.

Lemma intern_well_formed s sym : well_formed s -> next s < u32_max ->
  well_formed (intern s sym).2 /\ next s <= next (intern s sym).2 <= next s + 1.
Proof.
  intros (H1 & Hr & Hi) Hn. unfold intern. destruct (map s !! sym) as [id |] eqn:E.
  - cbn [snd]. split; [done | lia].
  - unfold fetch_add, or_insert. cbn [map]. rewrite E. cbn [snd next].
    rewrite BreadthSpec.as_u32_small by (unfold_ok; lia). split; [| lia].
    split_and!; cbn [map next]; [lia | |].
    + intros s1 id [[<- <-] | [_ H]]%lookup_insert_Some; [lia |]. pose proof (Hr _ _ H). lia.
    + intros s1 s2 id [[<- <-] | [_ E1]]%lookup_insert_Some [[<- E2] | [_ E2]]%lookup_insert_Some;
        [done | pose proof (Hr _ _ E2); lia | pose proof (Hr _ _ E1); lia | eauto].
Qed.
End InternerConc.

(** However any number of concurrent [intern] calls interleave (fewer than [2 ^ 32 - 1]
    of them), two symbols never share an identifier, a call that has returned gave the
    identifier the map holds then and ever after, identifiers are never the sentinel 0 and
    at most the number of calls; once all calls have returned exactly the symbols asked for
    have one. *)
Theorem interned_ids_unique_and_stable (syms : list string) s ts s' ts' :
  Z.of_nat (length syms) < u32_max ->
  rtc InternerConc.step (SymbolInterner.new, InternerConc.Start <$> syms) (s, ts) ->
  rtc InternerConc.step (s, ts) (s', ts') ->
  SymbolInterner.map s ⊆ SymbolInterner.map s'
  /\ (forall s1 s2 id, SymbolInterner.get s' s1 = Some id -> SymbolInterner.get s' s2 = Some id -> s1 = s2)
  /\ (forall i sym id, ts !! i = Some (InternerConc.Done sym id) ->
       SymbolInterner.get s' sym = Some id /\ 1 <= id <= Z.of_nat (length syms))
  /\ (Forall (fun p => InternerConc.is_done p = true) ts ->
       forall sym, sym ∈ syms <-> is_some (SymbolInterner.get s sym) = true).
Proof.
  intros Hn Hr1 Hr2. pose proof (InternerConc.interner_inv_reachable _ _ _ Hn Hr1) as Hi.
  pose proof (InternerConc.interner_inv_reachable _ _ _ Hn (transitivity Hr1 Hr2)) as Hi'.
  pose proof (InternerConc.steps_grow _ _ Hr2) as Hg. cbn [fst] in Hg.
  split_and!; [done | apply Hi' | |].
  - intros i sym id Hl. pose proof (InternerConc.inv_done _ _ _ _ Hi _ _ _ Hl) as Hd.
    split; [by eapply lookup_weaken |]. pose proof (InternerConc.inv_range _ _ _ _ Hi _ _ Hd).
    pose proof (InternerConc.inv_count _ _ _ _ Hi). lia.
  - intros Hall sym. unfold SymbolInterner.get. split.
    + rewrite <- (InternerConc.inv_symbols _ _ _ _ Hi). intros [p [-> Hp]]%list_elem_of_fmap.
      rewrite Forall_forall in Hall. pose proof (Hall _ Hp) as Hdone.
      apply list_elem_of_lookup in Hp as [i Hp]. destruct p as [| | | sym id]; try done.
      pose proof (InternerConc.inv_done _ _ _ _ Hi _ _ _ Hp) as Hd. simpl. by rewrite Hd.
    + destruct (SymbolInterner.map s !! sym) as [id |] eqn:E; [| done]. intros _.
      by apply (InternerConc.inv_known _ _ _ _ Hi _ id).
Qed.

(** Two calls race on one symbol and a third asks for another: both racers allocate, the
    second of them wastes its candidate, and both return the identifier inserted first. *)
Module InternerSample.
Import SymbolInterner InternerConc.
Definition final : t := mk (<["B" := 3]> (<["A" := 2]> ∅)) 4.
Lemma race : rtc step (new, Start <$> ["A"; "A"; "B"]) (final, [Done "A" 2; Done "A" 2; Done "B" 3]).
Proof.
  eapply rtc_l; [by apply (step_miss new _ 0 "A") |].
  eapply rtc_l; [by apply (step_miss new _ 1 "A") |].
  eapply rtc_l; [by apply (step_alloc new _ 0 "A") |].
  eapply rtc_l; [by apply (step_alloc (mk ∅ 2) _ 1 "A") |].
  eapply rtc_l; [by apply (step_insert (mk ∅ 3) _ 1 "A" 2) |].
  eapply rtc_l; [by apply (step_insert (mk (<["A" := 2]> ∅) 3) _ 0 "A" 1) |].
  eapply rtc_l; [by apply (step_miss (mk (<["A" := 2]> ∅) 3) _ 2 "B") |].
  eapply rtc_l; [by apply (step_alloc (mk (<["A" := 2]> ∅) 3) _ 2 "B") |].
  eapply rtc_l; [by apply (step_insert (mk (<["A" := 2]> ∅) 4) _ 2 "B" 3) |].
  apply rtc_refl.
Qed.
End InternerSample.

Lemma interned_ids_unique_and_stable_witness :
  SymbolInterner.get InternerSample.final "A" = Some 2.
Proof.
  refine (proj1 (proj1 (proj2 (proj2 (interned_ids_unique_and_stable ["A"; "A"; "B"] _ _ _ _ _
    InternerSample.race (rtc_refl _ _)))) 0%nat "A" 2 _)); done.
Defined.

(** The identifier a symbol gets depends on the order of arrival: it is not the one the
    fixed table of hedge-bus gives, by which the other services know the symbol. *)
Example interned_ids_disagree_with_symbol_table :
  (SymbolInterner.intern SymbolInterner.new "INFY").1 = 1
  /\ SymbolTable.symbol_id_for "INFY" = 2 /\ SymbolTable.symbol_for_id 1 = Some "RELIANCE".
Proof. split_and!; reflexivity. Qed.
