(* ===== verification/Ingest.v ===== *)
(** Ingestion of ticks (hedge-market-data): parsing and normalisation (protocol.rs, error.rs,
    normalizer.rs), the per-symbol channels (distributor.rs), the WebSocket adapter with its
    reconnection schedule (adapter.rs) and the loop that drives them (engine.rs). *)

From S2P Require Import Prelude Ieee Bytes Core Schemas Wire Breadth MarketData.

(** ** Errors and parsing *)

Module Protocol.

Inductive MarketDataError : Type :=
| WebSocket (source_name message : string)
| Parse (protocol_name message : string)
| Bus (message : string)
| ReconnectBudgetExhausted (source_name : string) (attempts : Z)
| Config (message : string).

Record RawTick := mk_RawTick {
  symbol : string;
  raw_ltp_paise : Z;
  raw_bid_paise : Z;
  raw_ask_paise : Z;
  raw_ltq : Z;
  raw_total_buy_qty : Z;
  raw_total_sell_qty : Z;
  ts_exchange_ms : Z;
}.

(** The canonical JSON form, field by field. *)
Record CanonicalJsonTick := mk_CanonicalJsonTick {
  j_symbol : string;
  j_ltp : Z;
  j_bid : Z;
  j_ask : Z;
  j_ltq : Z;
  j_total_buy_qty : Z;
  j_total_sell_qty : Z;
  j_ts_exchange_ms : Z;
}.

Definition of_canonical (j : CanonicalJsonTick) : RawTick :=
  mk_RawTick (j_symbol j) (j_ltp j) (j_bid j) (j_ask j) (j_ltq j) (j_total_buy_qty j)
    (j_total_sell_qty j) (j_ts_exchange_ms j).

(** [from_slice] is the JSON decoder. *)
Definition parse_canonical_json (from_slice : list Z -> result CanonicalJsonTick string)
  (protocol_name : string) (raw : list Z) : result RawTick MarketDataError :=
  match map_err (Parse protocol_name) (from_slice raw) with
  | Ok j => Ok (of_canonical j)
  | Err e => Err e
  end.

(** The trait, and its three implementations. *)
Class MarketDataProtocol := {
  parse : list Z -> result RawTick MarketDataError;
  name : string;
}.
Definition placeholder (from_slice : list Z -> result CanonicalJsonTick string) (n : string)
  : MarketDataProtocol := {| parse := parse_canonical_json from_slice n; name := n |}.
Definition NseProtocolPlaceholder from_slice := placeholder from_slice "NseProtocolPlaceholder".
Definition BseProtocolPlaceholder from_slice := placeholder from_slice "BseProtocolPlaceholder".
Definition OptionsChainProtocolPlaceholder from_slice :=
  placeholder from_slice "OptionsChainProtocolPlaceholder".

(** The ranges of the Rust field types. *)
Definition raw_ok (r : RawTick) : Prop :=
  i64_ok (raw_ltp_paise r) /\ i64_ok (raw_bid_paise r) /\ i64_ok (raw_ask_paise r)
  /\ u64_ok (raw_ltq r) /\ u64_ok (raw_total_buy_qty r) /\ u64_ok (raw_total_sell_qty r)
  /\ u64_ok (ts_exchange_ms r).
End Protocol.

(** ** Normalisation *)

Module Normalizer.
Import Protocol.

Inductive Exchange : Type := Nse | Bse.
Definition as_byte (e : Exchange) : Z := match e with Nse => 0 | Bse => 1 end.

(** [correlation_id] is a 128-bit integer, [now] the wall clock. *)
Definition normalize_with_correlation (raw : RawTick) (exchange : Exchange)
  (correlation_id now : Z) (s : SymbolInterner.t) : Tick * SymbolInterner.t :=
  let '(symbol_id, s) := SymbolInterner.intern s (symbol raw) in
  (mk_Tick (be_bytes 16 correlation_id) symbol_id (as_byte exchange)
     (raw_ltp_paise raw) (raw_bid_paise raw) (raw_ask_paise raw)
     (raw_ltq raw) (raw_total_buy_qty raw) (raw_total_sell_qty raw)
     (u64_sat_mul (ts_exchange_ms raw) 1000000) now, s).

(** [cid] is the identifier freshly minted. *)
Definition normalize (raw : RawTick) (exchange : Exchange) (cid now : Z) (s : SymbolInterner.t)
  : Tick * SymbolInterner.t := normalize_with_correlation raw exchange cid now s.

(** A normalised tick has fields of the wire format's types, so the encoding loses none of them. *)
Lemma normalize_ok raw ex cid now s : raw_ok raw -> u64_ok now ->
  InternerConc.well_formed s -> SymbolInterner.next s <= u32_max ->
  TickWire.tick_ok (normalize_with_correlation raw ex cid now s).1.
Proof.
  intros (H1 & H2 & H3 & H4 & H5 & H6 & H7) Hn Hw Hs.
  pose proof (InternerConc.intern_range s (symbol raw) Hw Hs) as Hid.
  unfold normalize_with_correlation. destruct (SymbolInterner.intern s (symbol raw)) as [id s'].
  unfold TickWire.tick_ok. cbn in *.
  repeat split; try done; try apply be_bytes_length; try apply be_bytes_ok; unfold_ok; sat_lia;
    destruct ex; simpl; lia.
Qed.
End Normalizer.

(** ** Per-symbol channels *)

(** The broadcast channel of the runtime: made empty with a capacity, subscribed to, and sent
    on, which reports whether anyone is listening. *)
Class BroadcastChannel := {
  Sender : Type;
  Receiver : Type;
  channel : nat -> Sender;
  chan_subscribe : Sender -> Receiver * Sender;
  chan_send : Tick -> Sender -> bool * Sender;
}.

Module Distributor.
Section distributor.
Context `{BroadcastChannel}.

Definition CHANNEL_CAPACITY : nat := 1024.

Record t := mk { channels : gmap Z Sender; capacity : nat }.
Definition with_capacity (capacity : nat) : t := mk ∅ capacity.
Definition new : t := with_capacity CHANNEL_CAPACITY.
Definition channel_count (d : t) : nat := size (channels d).

Definition ensure_channel (d : t) (sym : Z) : t :=
  match channels d !! sym with
  | Some _ => d
  | None => mk (<[sym := channel (capacity d)]> (channels d)) (capacity d)
  end.

Definition subscribe (d : t) (sym : Z) : Receiver * t :=
  let d := ensure_channel d sym in
  let '(r, sender) := chan_subscribe (unwrap_or (channel (capacity d)) (channels d !! sym)) in
  (r, mk (<[sym := sender]> (channels d)) (capacity d)).

(** Nobody listens to a symbol without a channel. *)
Definition broadcast (d : t) (tick : Tick) : bool * t :=
  match channels d !! tk_symbol tick with
  | Some sender =>
    let '(delivered, sender) := chan_send tick sender in
    (delivered, mk (<[tk_symbol tick := sender]> (channels d)) (capacity d))
  | None => (false, d)
  end.

(** A broadcast touches the channel of the tick's symbol only, and makes none. *)
Lemma broadcast_other d tick sym : sym <> tk_symbol tick ->
  channels (broadcast d tick).2 !! sym = channels d !! sym.
Proof.
  intros Hne. unfold broadcast. destruct (channels d !! tk_symbol tick); [| done].
  destruct (chan_send _ _). cbn. by rewrite lookup_insert_ne.
Qed.

Lemma broadcast_domain d tick : dom (channels (broadcast d tick).2) = dom (channels d).
Proof.
  unfold broadcast. destruct (channels d !! tk_symbol tick) eqn:E; [| done].
  destruct (chan_send _ _). cbn. rewrite dom_insert_lookup_L; [done |]. by rewrite E.
Qed.

(** Subscribing makes the channel of the symbol at most once. *)
Lemma subscribe_domain d sym : dom (channels (subscribe d sym).2) = dom (channels d) ∪ {[ sym ]}.
Proof.
  unfold subscribe. destruct (chan_subscribe _) as [r s]. cbn. rewrite dom_insert_L.
  unfold ensure_channel. destruct (channels d !! sym) eqn:E; cbn; [apply (union_comm_L) |].
  rewrite dom_insert_L, (assoc_L (∪)), (union_idemp_L {[sym]}). apply union_comm_L.
Qed.
End distributor.
End Distributor.

(** ** WebSocket adapter (adapter.rs) *)

Module WsAdapter.
Import Protocol.

Definition RECONNECT_BACKOFF_MS : list Z := [100; 200; 400; 800; 1600; 3200; 6400; 12800; 25600].
Definition RECONNECT_CAP_MS : Z := 30000.
Definition reconnect_delay_for (attempt : Z) : Z :=
  unwrap_or RECONNECT_CAP_MS (RECONNECT_BACKOFF_MS !! Z.to_nat attempt).

Inductive ConnectionStatus : Type := Disconnected | Reconnected.
Record ConnectionEvent := mk_ConnectionEvent {
  ce_source : string;
  status : ConnectionStatus;
  reason : option string;
  attempt : Z;
  at_ : string;
}.

Definition build_disconnected_event (source : string) (attempt : Z) (reason at_ : string)
  : ConnectionEvent := mk_ConnectionEvent source Disconnected (Some reason) attempt at_.
Definition build_reconnected_event (source : string) (attempt : Z) (at_ : string)
  : ConnectionEvent := mk_ConnectionEvent source Reconnected None attempt at_.

(** What arrives on a socket; a closing frame carries its code and its reason, rendered. *)
Inductive Message : Type :=
| Text (t : list Z)
| Binary (b : list Z)
| Ping (payload : list Z)
| Pong (payload : list Z)
| Frame (payload : list Z)
| Close (frame : option (string * string)).

(** A stream is what is still to arrive, transport errors included; then it ends. *)
Definition stream : Type := list (result Message string).

Record LiveWsAdapter := mk_LiveWsAdapter {
  source : string;
  url : string;
  socket : option stream;
  attempts : Z;
}.

Definition from_stream (source url : string) (s : stream) : LiveWsAdapter :=
  mk_LiveWsAdapter source url (Some s) 0.
(** [connect] with the outcome of dialling. *)
Definition connect (source url : string) (dial : result stream string)
  : result LiveWsAdapter MarketDataError :=
  match dial with
  | Ok s => Ok (from_stream source url s)
  | Err e => Err (WebSocket source e)
  end.

Inductive Effect : Type :=
| WebsocketDrop (source : string)
| PublishConnection (e : ConnectionEvent)
| Sleep (ms : Z)
| Dial (url : string)
| SendPong (payload : list Z).

Section protocol.
Context `{P : MarketDataProtocol}.

(** The receive loop: control frames are answered or skipped until a payload, a close, an
    error or the end; what is left of the stream, and the pongs sent. *)
Fixpoint read (source : string) (s : stream)
  : result RawTick MarketDataError * stream * list Effect :=
  match s with
  | [] => (Err (WebSocket source "stream ended"), [], [])
  | Ok (Text t) :: s => (parse t, s, [])
  | Ok (Binary b) :: s => (parse b, s, [])
  | Ok (Ping payload) :: s =>
    let '(r, s, out) := read source s in (r, s, SendPong payload :: out)
  | Ok (Pong _) :: s => read source s
  | Ok (Frame _) :: s => read source s
  | Ok (Close frame) :: s =>
    let msg := match frame with
               | Some (code, reason) => "close: " +:+ code +:+ " " +:+ reason
               | None => "close: no reason"
               end in
    (Err (WebSocket source msg), s, [])
  | Err e :: s => (Err (WebSocket source e), s, [])
  end.

Definition next_message (a : LiveWsAdapter) : result RawTick MarketDataError * LiveWsAdapter * list Effect :=
  match socket a with
  | None => (Err (WebSocket (source a) "stream is None"), a, [])
  | Some s =>
    let '(r, s, out) := read (source a) s in
    (r, mk_LiveWsAdapter (source a) (url a) (Some s) (attempts a), out)
  end.

(** [dial] is the outcome of connecting; the two texts are the times of the events. *)
Definition reconnect (dial : result stream string) (at_down at_up : string) (a : LiveWsAdapter)
  : result unit MarketDataError * LiveWsAdapter * list Effect :=
  let disconnected := mk_ConnectionEvent (source a) Disconnected (Some "transport drop") (attempts a) at_down in
  let out := [WebsocketDrop (source a); PublishConnection disconnected;
              Sleep (reconnect_delay_for (attempts a)); Dial (url a)] in
  let attempt_for_event := attempts a in
  let attempts' := sat 0 u32_max (attempts a + 1) in
  match dial with
  | Err e =>
    (Err (WebSocket (source a) e), mk_LiveWsAdapter (source a) (url a) None attempts', out)
  | Ok s =>
    let reconnected := mk_ConnectionEvent (source a) Reconnected None attempt_for_event at_up in
    (Ok tt, mk_LiveWsAdapter (source a) (url a) (Some s) 0, out ++ [PublishConnection reconnected])
  end.
End protocol.

Lemma reconnect_delay_bounds k : 100 <= reconnect_delay_for k <= RECONNECT_CAP_MS.
Proof.
  unfold reconnect_delay_for, RECONNECT_CAP_MS.
  destruct (RECONNECT_BACKOFF_MS !! Z.to_nat k) as [ms |] eqn:E; [| simpl; lia].
  assert (Forall (fun ms => 100 <= ms <= 30000) RECONNECT_BACKOFF_MS) as H by (repeat constructor; lia).
  rewrite Forall_lookup in H. exact (H _ _ E).
Qed.

(** Doubling from 100 ms, the cap from the tenth attempt on. *)
Lemma reconnect_delay_exact k : (k < 9)%nat -> reconnect_delay_for (Z.of_nat k) = 100 * 2 ^ Z.of_nat k.
Proof. intros H. do 9 (destruct k as [| k]; [reflexivity |]). lia. Qed.

Lemma reconnect_delay_cap k : (9 <= k)%nat -> reconnect_delay_for (Z.of_nat k) = RECONNECT_CAP_MS.
Proof.
  intros H. unfold reconnect_delay_for. rewrite Nat2Z.id, lookup_ge_None_2; [done | exact H].
Qed.
End WsAdapter.

(** ** Engine (engine.rs) *)

Module MarketDataEngine.
Import Protocol WsAdapter.

Definition TICK_INGEST_BUDGET_NS : Z := 2000000.

Section engine.
Context `{P : MarketDataProtocol} `{C : BroadcastChannel}.
Context (order : gmap Z Breadth.SymbolState -> list (Z * Breadth.SymbolState)).

(** What the loop emits. *)
Inductive Output : Type :=
| Adapter (e : Effect)
| PublishTick (subject : string) (payload : list Z)
| PublishSector (b : Breadth.SectorBreadth)
| PublishVolatility (b : Breadth.VolatilityBreadth)
| ObserveIngest (elapsed_ns : Z)
| EmitRecord (r : LatencyRecord)
| BreachMetric
| EmitBreach (r : LatencyRecord).

(** The engine and what it shares with its tasks. *)
Record t := mk {
  interner : SymbolInterner.t;
  distributor : Distributor.t;
  breadth : Breadth.BreadthAggregator;
}.

(** [subjects::md_tick]. *)
Definition md_tick (sym : Z) : string := "md.tick." +:+ pretty sym.

(** [ingest_tick]; [published] is what the bus answers. *)
Definition ingest_tick (published : result unit string) (tick : Tick) (c : Breadth.Clock) (e : t)
  : result Breadth.BreadthSnapshot MarketDataError * t * list Output :=
  let out := [PublishTick (md_tick (SymbolId.new (tk_symbol tick))) (TickWire.tick_to_raw_bytes tick)] in
  match published with
  | Err m => (Err (Bus m), e, out)
  | Ok _ =>
    let '(_, d) := Distributor.broadcast (distributor e) tick in
    let '(snap, b) := Breadth.on_tick order (breadth e) tick c in
    (Ok snap, mk (interner e) d b, out)
  end.

Definition emit_tick_ingest_latency (cid elapsed_ns : Z) : list Output :=
  let breach := TICK_INGEST_BUDGET_NS <? elapsed_ns in
  let record := mk_LatencyRecord (be_bytes 16 cid) (Stage.as_u8 Stage.TickIngest) elapsed_ns
                  TICK_INGEST_BUDGET_NS breach in
  [ObserveIngest elapsed_ns; EmitRecord record]
  ++ (if breach then [BreachMetric; EmitBreach record] else []).

(** The byproducts of a tick are published; a failure to do so is only logged. *)
Definition publish_byproducts (snap : Breadth.BreadthSnapshot) : list Output :=
  match Breadth.sector snap with Some s => [PublishSector s] | None => [] end
  ++ match Breadth.volatility snap with Some v => [PublishVolatility v] | None => [] end.

(** What the environment answers during one turn of the loop. *)
Record Turn := mk_Turn {
  dial : result stream string;
  at_down : string;
  at_up : string;
  cid : Z;
  started_ns : Z;
  recv_ns : Z;
  finished_ns : Z;
  published : result unit string;
  clock : Breadth.Clock;
}.

Record World := mk_World { adapter : LiveWsAdapter; engine : t; log : list Output }.

(** One turn of [run_adapter_loop]. *)
Definition turn (exchange : Normalizer.Exchange) (w : World) (env : Turn) : World :=
  let '(msg, a, pongs) := next_message (adapter w) in
  let out := log w ++ (Adapter <$> pongs) in
  match msg with
  | Ok raw =>
    let '(tick, s) := Normalizer.normalize_with_correlation raw exchange (cid env) (recv_ns env)
                        (interner (engine w)) in
    let e := mk s (distributor (engine w)) (breadth (engine w)) in
    let '(r, e, out_ingest) := ingest_tick (published env) tick (clock env) e in
    let out_by := match r with Ok snap => publish_byproducts snap | Err _ => [] end in
    let elapsed_ns := u64_sat_sub (finished_ns env) (started_ns env) in
    mk_World a e (out ++ out_ingest ++ out_by ++ emit_tick_ingest_latency (cid env) elapsed_ns)
  | Err _ =>
    let '(_, a, effects) := reconnect (dial env) (at_down env) (at_up env) a in
    mk_World a (engine w) (out ++ (Adapter <$> effects))
  end.

Definition run (exchange : Normalizer.Exchange) (w : World) (envs : list Turn) : World :=
  foldl (turn exchange) w envs.
End engine.
End MarketDataEngine.

(** ** Specification *)

Module IngestSpec.
Import Protocol WsAdapter MarketDataEngine.

(** The effects of the reconnections of an outage, attempt after attempt. *)
Definition attempt_effects (src url : string) (k : Z) (at_ : string) : list Effect :=
  [WebsocketDrop src; PublishConnection (build_disconnected_event src k "transport drop" at_);
   Sleep (reconnect_delay_for k); Dial url].
Fixpoint outage (src url : string) (k : Z) (envs : list Turn) : list Effect :=
  match envs with
  | [] => []
  | env :: envs => attempt_effects src url k (at_down env) ++ outage src url (k + 1) envs
  end.

Definition sleeps (l : list Effect) : list Z :=
  omap (fun e => match e with Sleep ms => Some ms | _ => None end) l.

(** Nothing more will arrive. *)
Definition down (a : LiveWsAdapter) : Prop := socket a = None \/ socket a = Some [].
Definition dial_fails (env : Turn) : Prop := exists e, dial env = Err e.

Definition records (l : list Output) : list LatencyRecord :=
  omap (fun o => match o with EmitRecord r => Some r | _ => None end) l.
Definition breaches (l : list Output) : list LatencyRecord :=
  omap (fun o => match o with EmitBreach r => Some r | _ => None end) l.

Section spec.
Context `{P : MarketDataProtocol} `{C : BroadcastChannel}.
Context (order : gmap Z Breadth.SymbolState -> list (Z * Breadth.SymbolState)).

Lemma down_message a : down a -> exists e, next_message a = (Err e, a, []).
Proof. destruct a as [src u s k]. intros [E | E]; cbn in E; subst; cbn; eauto. Qed.

Lemma turn_down ex w env : down (adapter w) ->
  turn order ex w env =
  let '(_, a, effects) := reconnect (dial env) (at_down env) (at_up env) (adapter w) in
  mk_World a (engine w) (log w ++ (Adapter <$> effects)).
Proof.
  intros Hd. unfold turn. destruct (down_message _ Hd) as [e ->].
  destruct (reconnect _ _ _ _) as [[? ?] ?]. by rewrite fmap_nil, app_nil_r.
Qed.

(** [k] failed attempts after an adapter went down with [n] attempts counted. *)
Lemma outage_run ex fails : forall w, down (adapter w) -> Forall dial_fails fails ->
  0 <= attempts (adapter w) -> attempts (adapter w) + Z.of_nat (length fails) <= u32_max ->
  let w' := run order ex w fails in
  down (adapter w') /\ source (adapter w') = source (adapter w) /\ url (adapter w') = url (adapter w)
  /\ attempts (adapter w') = attempts (adapter w) + Z.of_nat (length fails)
  /\ engine w' = engine w
  /\ log w' = log w ++ (Adapter <$> outage (source (adapter w)) (url (adapter w)) (attempts (adapter w)) fails).
Proof.
  induction fails as [| env fails IH]; intros w Hd Hf H0 Hmax.
  - cbn. rewrite app_nil_r. split_and!; try done. lia.
  - apply Forall_cons in Hf as [[e He] Hf]. cbv zeta. unfold run. cbn [foldl].
    fold (run order ex (turn order ex w env) fails).
    rewrite turn_down by done. unfold reconnect. rewrite He. cbn [length] in Hmax.
    assert (sat 0 u32_max (attempts (adapter w) + 1) = attempts (adapter w) + 1) as Hs.
    { unfold sat. split_ifs; lia. }
    rewrite Hs. set (w1 := mk_World _ _ _).
    destruct (IH w1) as (H1 & H2 & H3 & H4 & H5 & H6); [by left | done | cbn; lia | cbn; lia |].
    cbn in H2, H3, H4, H5, H6. rewrite H2, H3, H4, H5, H6. split_and!; try done.
    + cbn [length]. lia.
    + cbn [outage]. by rewrite fmap_app, (assoc_L (++)).
Qed.

Lemma outage_snoc src u envs env : forall k,
  outage src u k (envs ++ [env]) =
  outage src u k envs ++ attempt_effects src u (k + Z.of_nat (length envs)) (at_down env).
Proof.
  induction envs as [| env' envs IH]; intros k; [by rewrite Z.add_0_r |].
  cbn [app outage length]. rewrite IH, (assoc_L (++)).
  by replace (k + 1 + Z.of_nat (length envs)) with (k + Z.of_nat (S (length envs))) by lia.
Qed.

Lemma outage_sleeps src u envs : forall k,
  sleeps (outage src u (Z.of_nat k) envs) =
  (fun i => reconnect_delay_for (Z.of_nat i)) <$> seq k (length envs).
Proof.
  induction envs as [| env envs IH]; intros k; [done |]. cbn [outage length seq].
  unfold sleeps. rewrite omap_app. cbn. f_equal.
  replace (Z.of_nat k + 1) with (Z.of_nat (S k)) by lia. apply IH.
Qed.
End spec.
End IngestSpec.

(** When a feed goes down and the first [k] dials fail before one succeeds, the loop
    comes back with the new stream after exactly [k + 1] turns, with its attempt counter
    reset and the engine untouched; every turn counts a drop, announces the disconnection
    with its attempt number and waits the scheduled delay before dialling, which doubles
    from 100 ms to 25.6 s and is 30 s from then on; the reconnection is announced once. *)
Theorem feed_outage_recovers_on_schedule `{P : Protocol.MarketDataProtocol} `{C : BroadcastChannel} order
  (ex : Normalizer.Exchange) (w : MarketDataEngine.World) (fails : list MarketDataEngine.Turn)
  (ok : MarketDataEngine.Turn) (s : WsAdapter.stream) :
  IngestSpec.down (MarketDataEngine.adapter w) -> WsAdapter.attempts (MarketDataEngine.adapter w) = 0 ->
  Forall IngestSpec.dial_fails fails -> MarketDataEngine.dial ok = Ok s ->
  Z.of_nat (length fails) <= u32_max ->
  let src := WsAdapter.source (MarketDataEngine.adapter w) in
  let u := WsAdapter.url (MarketDataEngine.adapter w) in
  let k := length fails in
  let effects := IngestSpec.outage src u 0 (fails ++ [ok])
                 ++ [WsAdapter.PublishConnection
                       (WsAdapter.build_reconnected_event src (Z.of_nat k) (MarketDataEngine.at_up ok))] in
  MarketDataEngine.run order ex w (fails ++ [ok]) =
    MarketDataEngine.mk_World (WsAdapter.from_stream src u s) (MarketDataEngine.engine w)
      (MarketDataEngine.log w ++ (MarketDataEngine.Adapter <$> effects))
  /\ IngestSpec.sleeps effects =
     (fun i => if decide (i < 9)%nat then 100 * 2 ^ Z.of_nat i else 30000) <$> seq 0 (S k).
Proof.
  intros Hd H0 Hf Hok Hk. cbv zeta.
  split.
  - destruct (IngestSpec.outage_run order ex fails w Hd Hf ltac:(lia) ltac:(lia)) as (H1 & H2 & H3 & H4 & H5 & H6).
    unfold MarketDataEngine.run. rewrite foldl_snoc. fold (MarketDataEngine.run order ex w fails).
    rewrite IngestSpec.turn_down by done. unfold WsAdapter.reconnect. rewrite Hok, H2, H3, H4, H5, H6, H0.
    by rewrite IngestSpec.outage_snoc, Z.add_0_l, !fmap_app, <- !(assoc_L (++)).
  - unfold IngestSpec.sleeps. rewrite omap_app. fold (IngestSpec.sleeps). cbn [omap list_omap].
    rewrite app_nil_r, (IngestSpec.outage_sleeps _ _ _ 0), length_app, Nat.add_1_r.
    apply list_fmap_ext. intros i x _. case_decide.
    + by apply WsAdapter.reconnect_delay_exact.
    + apply WsAdapter.reconnect_delay_cap. lia.
Qed.

(** A concrete feed: every byte string is parsed but the empty one; channels are logs. *)
Module IngestSample.
Import Protocol WsAdapter MarketDataEngine.
#[global] Instance protocol : MarketDataProtocol :=
  NseProtocolPlaceholder (fun raw => match raw with
    | [] => Err "expected object"
    | b :: _ => Ok (mk_CanonicalJsonTick "INFY" b b b 1 2 3 4)
    end).
#[global] Instance channels : BroadcastChannel :=
  {| Sender := nat * list Tick; Receiver := unit; channel := fun _ => (0%nat, []);
     chan_subscribe := fun s => (tt, (S s.1, s.2));
     chan_send := fun t s => ((0 <? s.1)%nat, (s.1, s.2 ++ [t])) |}.
Definition clk : Breadth.Clock := Breadth.mk_Clock 5 6 7.
Definition env (d : result stream string) : Turn := mk_Turn d "t0" "t1" 9 100 110 2000101 (Ok tt) clk.
Definition world (s : stream) : World :=
  mk_World (from_stream "nse_l1" "wss://example" s)
    (mk SymbolInterner.new (Distributor.subscribe Distributor.new 1).2 (Breadth.new ∅ ∅ 0)) [].
End IngestSample.

Import IngestSample.

Lemma feed_outage_recovers_on_schedule_witness :
  WsAdapter.attempts (MarketDataEngine.adapter (MarketDataEngine.run map_to_list Normalizer.Nse (world [])
    ([env (Err "refused"); env (Err "refused")] ++ [env (Ok [Ok (WsAdapter.Text [42])])]))) = 0.
Proof.
  rewrite (proj1 (feed_outage_recovers_on_schedule map_to_list Normalizer.Nse (world [])
    [env (Err "refused"); env (Err "refused")] (env (Ok [Ok (WsAdapter.Text [42])])) [Ok (WsAdapter.Text [42])]
    ltac:(by right) eq_refl ltac:(repeat constructor; by eexists) eq_refl ltac:(vm_compute; discriminate))).
  reflexivity.
Defined.

(** C30: every message that decodes is accounted for: its symbol is resolved by the shared interner to an
    identifier that is never 0; the tick has the prices, the last quantity, the buy and sell totals and
    the exchange time of the message, the identifier and the reception time of the turn; what is
    published under [md.tick.<id>] is its 85-byte encoding, which loses nothing; one latency record
    carries the tick's correlation identifier, and a breach is reported exactly when the turn took more
    than two milliseconds; the local channels and the breadth see the tick exactly when the bus accepted
    it.  The decoder that recovers the tick is the feature service's, which listens on [md.tick.bin.>];
    the two services that decode binary ticks of this subject, order-flow and the gateway, expect 77
    bytes and reject every one. *)
Theorem ingested_tick_is_accounted `{P : Protocol.MarketDataProtocol} `{C : BroadcastChannel} order
  (ex : Normalizer.Exchange) (w : MarketDataEngine.World) (env : MarketDataEngine.Turn)
  (raw : Protocol.RawTick) (a : WsAdapter.LiveWsAdapter) pongs :
  WsAdapter.next_message (MarketDataEngine.adapter w) = (Ok raw, a, pongs) ->
  Protocol.raw_ok raw -> u64_ok (MarketDataEngine.recv_ns env) ->
  InternerConc.well_formed (MarketDataEngine.interner (MarketDataEngine.engine w)) ->
  SymbolInterner.next (MarketDataEngine.interner (MarketDataEngine.engine w)) <= u32_max ->
  let w' := MarketDataEngine.turn order ex w env in
  let e := MarketDataEngine.engine w in
  let e' := MarketDataEngine.engine w' in
  let elapsed := u64_sat_sub (MarketDataEngine.finished_ns env) (MarketDataEngine.started_ns env) in
  exists tick bytes outs,
    MarketDataEngine.log w' = MarketDataEngine.log w ++ (MarketDataEngine.Adapter <$> pongs)
      ++ MarketDataEngine.PublishTick (MarketDataEngine.md_tick (tk_symbol tick)) bytes :: outs
    /\ (bytes = TickWire.tick_to_raw_bytes tick /\ TickWire.decode_tick bytes = Some tick
        /\ TickWire.orderflow_decode bytes = None
        /\ TickWire.shim_tick (MarketDataEngine.md_tick (tk_symbol tick)) bytes = None)
    /\ SymbolInterner.get (MarketDataEngine.interner e') (Protocol.symbol raw) = Some (tk_symbol tick)
    /\ tk_symbol tick <> 0
    /\ tick = mk_Tick (be_bytes 16 (MarketDataEngine.cid env)) (tk_symbol tick) (Normalizer.as_byte ex)
         (Protocol.raw_ltp_paise raw) (Protocol.raw_bid_paise raw) (Protocol.raw_ask_paise raw)
         (Protocol.raw_ltq raw) (Protocol.raw_total_buy_qty raw) (Protocol.raw_total_sell_qty raw)
         (u64_sat_mul (Protocol.ts_exchange_ms raw) 1000000) (MarketDataEngine.recv_ns env)
    /\ (exists r, IngestSpec.records outs = [r] /\ lr_correlation_id r = tk_correlation_id tick
        /\ lr_nanos r = elapsed
        /\ IngestSpec.breaches outs = if 2000000 <? elapsed then [r] else [])
    /\ (MarketDataEngine.distributor e', MarketDataEngine.breadth e') =
       (if is_ok (MarketDataEngine.published env) then
          ((Distributor.broadcast (MarketDataEngine.distributor e) tick).2,
           (Breadth.on_tick order (MarketDataEngine.breadth e) tick (MarketDataEngine.clock env)).2)
        else (MarketDataEngine.distributor e, MarketDataEngine.breadth e)).
Proof.
  intros Hm Hraw Hrecv Hwf Hnext. cbv zeta. unfold MarketDataEngine.turn. rewrite Hm.
  pose proof (Normalizer.normalize_ok raw ex (MarketDataEngine.cid env) _ _ Hraw Hrecv Hwf Hnext) as Hok.
  pose proof (InternerConc.intern_range _ (Protocol.symbol raw) Hwf Hnext) as Hid.
  pose proof (InternerConc.intern_get (MarketDataEngine.interner (MarketDataEngine.engine w)) (Protocol.symbol raw)) as Hget.
  unfold Normalizer.normalize_with_correlation in *.
  destruct (SymbolInterner.intern _ _) as [id s'] eqn:Ei. cbn [fst snd] in Hok, Hid, Hget.
  set (tick := mk_Tick _ _ _ _ _ _ _ _ _ _ _) in *.
  set (lat := MarketDataEngine.emit_tick_ingest_latency _ _).
  assert (forall by_, IngestSpec.records (MarketDataEngine.publish_byproducts by_ ++ lat) = IngestSpec.records lat
    /\ IngestSpec.breaches (MarketDataEngine.publish_byproducts by_ ++ lat) = IngestSpec.breaches lat) as Hby.
  { intros [[] []]; done. }
  assert (exists r, IngestSpec.records lat = [r] /\ lr_correlation_id r = tk_correlation_id tick
    /\ lr_nanos r = u64_sat_sub (MarketDataEngine.finished_ns env) (MarketDataEngine.started_ns env)
    /\ IngestSpec.breaches lat = if 2000000 <? u64_sat_sub (MarketDataEngine.finished_ns env)
         (MarketDataEngine.started_ns env) then [r] else []) as Hlat.
  { unfold lat, MarketDataEngine.emit_tick_ingest_latency, MarketDataEngine.TICK_INGEST_BUDGET_NS.
    destruct (2000000 <? _); eexists; done. }
  clearbody lat. unfold MarketDataEngine.ingest_tick. cbn [MarketDataEngine.distributor MarketDataEngine.breadth].
  assert (tk_symbol tick = id /\ tick = mk_Tick (be_bytes 16 (MarketDataEngine.cid env)) (tk_symbol tick)
    (Normalizer.as_byte ex) (Protocol.raw_ltp_paise raw) (Protocol.raw_bid_paise raw) (Protocol.raw_ask_paise raw)
    (Protocol.raw_ltq raw) (Protocol.raw_total_buy_qty raw) (Protocol.raw_total_sell_qty raw)
    (u64_sat_mul (Protocol.ts_exchange_ms raw) 1000000) (MarketDataEngine.recv_ns env))
    as [Hsym Hfields] by done.
  clearbody tick. rewrite <- Hsym in Hget, Hid.
  pose proof (conj (eq_refl (TickWire.tick_to_raw_bytes tick)) (conj (tick_decode tick Hok)
    (two_readers_reject_every_tick tick (MarketDataEngine.md_tick (tk_symbol tick)) Hok))) as Hdec.
  destruct (MarketDataEngine.published env) as [u | m].
  - destruct (Distributor.broadcast _ tick) as [del d] eqn:Ed. destruct (Breadth.on_tick _ _ _ _) as [snap b] eqn:Eb.
    cbn in Ed, Eb. destruct (Hby snap) as [Hby1 Hby2].
    exists tick, (TickWire.tick_to_raw_bytes tick), (MarketDataEngine.publish_byproducts snap ++ lat).
    rewrite Hby1, Hby2. cbn. rewrite Ed, Eb, <- !(assoc_L (++)).
    refine (conj eq_refl (conj Hdec (conj Hget (conj _ (conj Hfields (conj Hlat eq_refl)))))). lia.
  - exists tick, (TickWire.tick_to_raw_bytes tick), lat. cbn. rewrite <- !(assoc_L (++)).
    refine (conj eq_refl (conj Hdec (conj Hget (conj _ (conj Hfields (conj Hlat eq_refl)))))). lia.
Qed.

Lemma ingested_tick_is_accounted_witness :
  exists tick bytes outs,
    MarketDataEngine.log (MarketDataEngine.turn map_to_list Normalizer.Nse (world [Ok (WsAdapter.Text [42])]) (env (Ok [])))
    = [] ++ [] ++ MarketDataEngine.PublishTick (MarketDataEngine.md_tick (tk_symbol tick)) bytes :: outs
    /\ TickWire.decode_tick bytes = Some tick /\ (total_buy_qty tick, total_sell_qty tick) = (2, 3)
    /\ length (IngestSpec.breaches outs) = 1%nat.
Proof.
  destruct (ingested_tick_is_accounted map_to_list Normalizer.Nse (world [Ok (WsAdapter.Text [42])]) (env (Ok []))
    (Protocol.mk_RawTick "INFY" 42 42 42 1 2 3 4) (WsAdapter.from_stream "nse_l1" "wss://example" []) [])
    as (tick & bytes & outs & H1 & (_ & H2 & _) & _ & _ & Ht & (r & _ & _ & _ & H3) & _).
  - reflexivity.
  - repeat split; vm_compute; discriminate.
  - split; vm_compute; discriminate.
  - split_and!; [vm_compute; discriminate | done | done].
  - vm_compute. discriminate.
  - exists tick, bytes, outs. rewrite H3. split_and!; [exact H1 | exact H2 | rewrite Ht; reflexivity | reflexivity].
Defined.

(** A message that does not decode is handled as a dropped connection: the socket, with the
    messages still in it, is replaced, after a delay. *)
Lemma malformed_message_drops_connection :
  let w := MarketDataEngine.run map_to_list Normalizer.Nse
             (world [Ok (WsAdapter.Text []); Ok (WsAdapter.Text [42])]) [env (Ok [])] in
  WsAdapter.socket (MarketDataEngine.adapter w) = Some []
  /\ MarketDataEngine.log w = MarketDataEngine.Adapter <$>
       (IngestSpec.attempt_effects "nse_l1" "wss://example" 0 "t0"
        ++ [WsAdapter.PublishConnection (WsAdapter.build_reconnected_event "nse_l1" 0 "t1")]).
Proof. split; reflexivity. Qed.

(** A feed that stays unreachable is counted as dropped again at every attempt, though its
    connection was lost once. *)
Lemma failed_dials_count_as_drops :
  length (List.filter (fun o => match o with MarketDataEngine.Adapter (WsAdapter.WebsocketDrop _) => true | _ => false end)
    (MarketDataEngine.log (MarketDataEngine.run map_to_list Normalizer.Nse (world [])
       (replicate 5 (env (Err "refused")))))) = 5%nat.
Proof. reflexivity. Qed.
