(* ===== verification/UiJoin.v ===== *)
(** The signal-and-rank join of the user-interface gateway (signals_join.rs of
    hedge-ui-gateway): pending halves by correlation identifier, with the filter of shadowed
    sources, expiry and a capacity. *)

From S2P Require Import Prelude Ieee.

(** The JSON documents of the gateway, as the operations it uses on them. *)
Class Json := {
  Value : Type;
  jget : Value -> string -> option Value;
  as_str : Value -> option string;
  as_bool : Value -> option bool;
  as_i64 : Value -> option Z;
  as_f64 : Value -> option f64;
  jnull : Value;
  jstring : string -> Value;
  jnumber : Z -> Value;
  jarray : list Value -> Value;
  jobject : list (string * Value) -> Value;
  jset : Value -> string -> Value -> Value;
}.

(** ** Shadow filter *)

Module AiShadowFilter.
Definition t := gset string.
Definition from_iter (l : list string) : t := list_to_set l.
Definition is_shadowed (f : t) (component : string) : bool := bool_decide (component ∈ f).
Definition replace (f : t) (l : list string) : t := list_to_set l.
Definition shadow (f : t) (component : string) : t := {[ component ]} ∪ f.
Definition unshadow (f : t) (component : string) : t := f ∖ {[ component ]}.
Definition snapshot (f : t) : list string := merge_sort String.le (elements f).
End AiShadowFilter.

(** ** Joiner *)

Module SignalsJoiner.
Section joiner.
Context `{J : Json}.

Inductive JoinOutcome : Type :=
| Joined (payload : Value)
| Pending (all_ranks_shadowed : bool)
| SignalOnly (payload : Value).

Record PendingJoin := mk_PendingJoin {
  signal : option Value;
  ranks : list Value;
  shadowed_sources : list string;
  inserted_at : Z;
}.

Record JoinerInner := mk_Inner { map : gmap string PendingJoin; order : list string }.
Record t := mk { inner : JoinerInner; ttl : Z; capacity : nat; shadow : AiShadowFilter.t }.

Definition new (ttl : Z) (capacity : nat) (shadow : AiShadowFilter.t) : t :=
  mk (mk_Inner ∅ []) ttl capacity shadow.
Definition pending_len (j : t) : nat := size (map (inner j)).

(** The first occurrence only. *)
Fixpoint order_remove (order : list string) (k : string) : list string :=
  match order with
  | [] => []
  | x :: order => if decide (x = k) then order else x :: order_remove order k
  end.

Definition merge_payload (correlation_id_hex : string) (signal : Value) (ranks : list Value)
  (shadowed_sources : list string) : Value :=
  let out := jobject [("signal", signal); ("ranks", jarray ranks)] in
  let out := if decide (correlation_id_hex = EmptyString) then out
             else jset out "correlation_id" (jstring correlation_id_hex) in
  match shadowed_sources with
  | [] => out
  | _ => jset out "shadowed_sources" (jarray (jstring <$> shadowed_sources))
  end.

Definition decide_join (entry : PendingJoin) : JoinOutcome :=
  let all_shadowed :=
    negb (bool_decide (shadowed_sources entry = [])) && match ranks entry with [] => true | _ => false end in
  match signal entry, ranks entry with
  | Some signal, _ :: _ => Joined (merge_payload EmptyString signal (ranks entry) (shadowed_sources entry))
  | _, _ => Pending all_shadowed
  end.

Definition remove (k : string) (i : JoinerInner) : JoinerInner :=
  mk_Inner (delete k (map i)) (order_remove (order i) k).

(** [now.saturating_duration_since(at) > ttl]. *)
Definition expired (ttl now at_ : Z) : bool := ttl <? Z.max 0 (now - at_).

(** The order in which the [HashMap] is iterated. *)
Context (iter : gmap string PendingJoin -> list (string * PendingJoin)).

Definition is_stale (ttl now : Z) (v : PendingJoin) : bool :=
  expired ttl now (inserted_at v)
  && negb (is_some (signal v)) && match ranks v with [] => true | _ => false end.

Definition prune_expired (ttl now : Z) (i : JoinerInner) : JoinerInner :=
  let stale := (List.filter (fun e => is_stale ttl now e.2) (iter (map i))).*1 in
  foldl (fun i k => remove k i) i stale.

(** The loop pops the oldest until the map fits. *)
Fixpoint evict (capacity : nat) (m : gmap string PendingJoin) (order : list string) : JoinerInner :=
  if (size m <=? capacity)%nat then mk_Inner m order
  else match order with
       | oldest :: order => evict capacity (delete oldest m) order
       | [] => mk_Inner m []
       end.
Definition enforce_capacity (capacity : nat) (i : JoinerInner) : JoinerInner :=
  evict capacity (map i) (order i).

(** The entry of a key, inserted when it is missing. *)
Definition ensure (k : string) (now : Z) (i : JoinerInner) : JoinerInner :=
  match map i !! k with
  | Some _ => i
  | None => mk_Inner (<[k := mk_PendingJoin None [] [] now]> (map i)) (order i ++ [k])
  end.

(** What both feeds do around the change [f] of the entry: the clock is read for pruning and
    for the insertion. The entry exists when it is looked up (expect). *)
Definition feed (k : string) (now_prune now_insert : Z) (f : PendingJoin -> PendingJoin) (j : t)
  : JoinOutcome * t :=
  let i := ensure k now_insert (prune_expired (ttl j) now_prune (inner j)) in
  match map i !! k with
  | None => (Pending false, j)
  | Some entry =>
    let entry := f entry in
    let i := mk_Inner (<[k := entry]> (map i)) (order i) in
    let outcome := decide_join entry in
    let i := match outcome with Joined _ | SignalOnly _ => remove k i | Pending _ => i end in
    (outcome, mk (enforce_capacity (capacity j) i) (ttl j) (capacity j) (shadow j))
  end.

Definition feed_signal (correlation_id_hex : string) (sig : Value) (now_prune now_insert : Z) (j : t)
  : JoinOutcome * t :=
  feed correlation_id_hex now_prune now_insert
    (fun e => mk_PendingJoin (Some sig) (ranks e) (shadowed_sources e) (inserted_at e)) j.

Definition source_of (rank : Value) : string :=
  unwrap_or EmptyString (match jget rank "source" with Some v => as_str v | None => None end).
Definition drops_rank (f : AiShadowFilter.t) (rank : Value) : bool :=
  negb (bool_decide (source_of rank = EmptyString)) && AiShadowFilter.is_shadowed f (source_of rank).

Definition feed_rank (correlation_id_hex : string) (rank : Value) (now_prune now_insert : Z) (j : t)
  : JoinOutcome * t :=
  feed correlation_id_hex now_prune now_insert
    (fun e => if drops_rank (shadow j) rank
              then mk_PendingJoin (signal e) (ranks e) (shadowed_sources e ++ [source_of rank]) (inserted_at e)
              else mk_PendingJoin (signal e) (ranks e ++ [rank]) (shadowed_sources e) (inserted_at e)) j.

Definition flush_step (acc : list Value * JoinerInner) (k : string) : list Value * JoinerInner :=
  let '(out, i) := acc in
  match map i !! k with
  | None => (out, i)
  | Some entry =>
    let i := remove k i in
    match signal entry with
    | Some sig => (out ++ [merge_payload k sig (ranks entry) (shadowed_sources entry)], i)
    | None => (out, i)
    end
  end.

Definition flush_expired (now : Z) (j : t) : list Value * t :=
  let keys := (List.filter (fun e => expired (ttl j) now (inserted_at e.2)) (iter (map (inner j)))).*1 in
  let '(out, i) := foldl flush_step ([], inner j) keys in
  (out, mk i (ttl j) (capacity j) (shadow j)).

(** The operations of other tasks on the filter. *)
Definition with_shadow (f : AiShadowFilter.t -> AiShadowFilter.t) (j : t) : t :=
  mk (inner j) (ttl j) (capacity j) (f (shadow j)).
End joiner.
End SignalsJoiner.

(** ** Specification: what was fed *)

Module JoinSpec.
Import SignalsJoiner.
Section spec.
Context `{J : Json}.

Inductive op : Type :=
| FeedSignal (k : string) (sig : Value) (now_prune now_insert : Z)
| FeedRank (k : string) (rank : Value) (now_prune now_insert : Z)
| Flush (now : Z)
| Shadow (c : string)
| Unshadow (c : string)
| Replace (l : list string).

Definition filter_after (f : AiShadowFilter.t) (o : op) : AiShadowFilter.t :=
  match o with
  | Shadow c => AiShadowFilter.shadow f c
  | Unshadow c => AiShadowFilter.unshadow f c
  | Replace l => AiShadowFilter.replace f l
  | _ => f
  end.

(** The signals fed for a key, and the ranks fed for it whose source was not shadowed then. *)
Definition signals_of (ops : list op) (k : string) : list Value :=
  omap (fun o => match o with FeedSignal k' s _ _ => if decide (k' = k) then Some s else None | _ => None end) ops.
Fixpoint clean (f : AiShadowFilter.t) (ops : list op) (k : string) : list Value :=
  match ops with
  | [] => []
  | o :: ops =>
    match o with
    | FeedRank k' r _ _ => if decide (k' = k) then if drops_rank f r then [] else [r] else []
    | _ => []
    end ++ clean (filter_after f o) ops k
  end.

(** The payloads of a key: a signal fed for it with some of its clean ranks, in order. *)
Definition justified (f : AiShadowFilter.t) (ops : list op) (v : Value) : Prop :=
  exists k k' s rs srcs, v = merge_payload k' s rs srcs
    /\ s ∈ signals_of ops k /\ rs `sublist_of` clean f ops k.

Context (iter : gmap string PendingJoin -> list (string * PendingJoin)).

Definition payloads (o : JoinOutcome) : list Value :=
  match o with Joined v | SignalOnly v => [v] | Pending _ => [] end.

Definition step (j : t) (o : op) : list Value * t :=
  match o with
  | FeedSignal k s np ni => let '(r, j) := feed_signal iter k s np ni j in (payloads r, j)
  | FeedRank k r np ni => let '(r, j) := feed_rank iter k r np ni j in (payloads r, j)
  | Flush now => flush_expired iter now j
  | Shadow c => ([], with_shadow (fun f => AiShadowFilter.shadow f c) j)
  | Unshadow c => ([], with_shadow (fun f => AiShadowFilter.unshadow f c) j)
  | Replace l => ([], with_shadow (fun f => AiShadowFilter.replace f l) j)
  end.

Fixpoint run (j : t) (ops : list op) : list Value * t :=
  match ops with
  | [] => ([], j)
  | o :: ops => let '(out, j) := step j o in let '(outs, j) := run j ops in (out ++ outs, j)
  end.

Definition filter_run (f : AiShadowFilter.t) (ops : list op) : AiShadowFilter.t := foldl filter_after f ops.

Lemma clean_app f a b k : clean f (a ++ b) k = clean f a k ++ clean (filter_run f a) b k.
Proof.
  revert f. induction a as [| o a IH]; intros f; [done |]. cbn [app clean]. rewrite IH.
  by rewrite (assoc_L (++)).
Qed.

Lemma signals_app a b k : signals_of (a ++ b) k = signals_of a k ++ signals_of b k.
Proof. apply omap_app. Qed.

(** *** The buffer is a queue of distinct keys *)

Definition keyed (i : JoinerInner) : Prop :=
  NoDup (order i) /\ forall k, k ∈ order i <-> is_Some (map i !! k).

Lemma order_remove_spec o k : NoDup o ->
  NoDup (order_remove o k) /\ forall x, x ∈ order_remove o k <-> x ∈ o /\ x <> k.
Proof.
  induction 1 as [| x o Hx Ho [IH1 IH2]]; simpl.
  - split; [constructor |]. intros x. split; [by intros ?%elem_of_nil |]. by intros [?%elem_of_nil _].
  - destruct (decide (x = k)) as [-> | Hne].
    + split; [done |]. intros y. rewrite elem_of_cons. split; [intros Hy; split; [by right | congruence] |].
      by intros [[-> | ?] ?].
    + split.
      * constructor; [| done]. rewrite IH2. by intros [? _].
      * intros y. rewrite !elem_of_cons, IH2. split; [intros [-> | [? ?]]; auto |]. intros [[-> | ?] ?]; auto.
Qed.

Lemma remove_keyed k i : keyed i -> keyed (remove k i).
Proof.
  intros [Hn Hk]. destruct (order_remove_spec (order i) k Hn) as [Hn' Hk']. split; [done |].
  intros x. unfold remove. cbn. rewrite Hk', Hk. destruct (decide (x = k)) as [-> | Hne].
  - rewrite lookup_delete_eq. split; [by intros [_ ?] | by intros [? ?]].
  - rewrite lookup_delete_ne by done. tauto.
Qed.

Lemma remove_sub k i : map (remove k i) ⊆ map i.
Proof. apply delete_subseteq. Qed.

Lemma removes_spec ks : forall i, keyed i ->
  keyed (foldl (fun i k => remove k i) i ks) /\ map (foldl (fun i k => remove k i) i ks) ⊆ map i.
Proof.
  induction ks as [| k ks IH]; intros i Hi; [done |]. cbn.
  destruct (IH (remove k i) (remove_keyed k i Hi)) as [H1 H2]. split; [done |].
  etrans; [exact H2 | apply remove_sub].
Qed.

Lemma ensure_keyed k now i : keyed i -> keyed (ensure k now i).
Proof.
  intros [Hn Hk]. unfold ensure. destruct (map i !! k) as [e |] eqn:E; [done |].
  split; cbn.
  - apply NoDup_app. split; [done |]. split; [| apply NoDup_singleton].
    intros x Hx ->%list_elem_of_singleton. apply Hk in Hx as [? Hx]. congruence.
  - intros x. rewrite elem_of_app, list_elem_of_singleton, Hk. destruct (decide (x = k)) as [-> | Hne].
    + rewrite lookup_insert_eq. split; [eauto | auto].
    + rewrite lookup_insert_ne by done. split; [by intros [? | ?] | auto].
Qed.

Lemma insert_keyed k e e' i : keyed i -> map i !! k = Some e' -> keyed (mk_Inner (<[k := e]> (map i)) (order i)).
Proof.
  intros [Hn Hk] He. split; [done |]. cbn. intros x. rewrite Hk.
  destruct (decide (x = k)) as [-> | Hne]; [rewrite lookup_insert_eq, He; split; eauto |].
  by rewrite lookup_insert_ne.
Qed.

Lemma join_evict_spec cap o : forall m, keyed (mk_Inner m o) ->
  keyed (evict cap m o) /\ map (evict cap m o) ⊆ m /\ (size (map (evict cap m o)) <= cap)%nat.
Proof.
  induction o as [| k o IH]; intros m Hk; cbn [evict]; destruct (Nat.leb_spec (size m) cap) as [Hle | Hgt];
    try (split_and!; done).
  - exfalso. destruct Hk as [_ Hk]. cbn in Hk. assert (m = ∅) as ->; [| rewrite map_size_empty in Hgt; lia].
    apply map_empty. intros x. apply eq_None_not_Some. rewrite <- Hk. by intros ?%elem_of_nil.
  - destruct (IH (delete k m)) as (H1 & H2 & H3).
    + pose proof (remove_keyed k _ Hk) as H. unfold remove in H. cbn in H. by rewrite decide_True in H.
    + split_and!; [done | | done]. etrans; [exact H2 | apply delete_subseteq].
Qed.

(** *** Every entry, and every payload, comes from what was fed *)

Definition entry_ok (f : AiShadowFilter.t) (past : list op) (k : string) (e : PendingJoin) : Prop :=
  (forall s, signal e = Some s -> s ∈ signals_of past k) /\ ranks e `sublist_of` clean f past k.

Record inv (f : AiShadowFilter.t) (past : list op) (j : t) : Prop := mk_inv {
  inv_keyed : keyed (inner j);
  inv_size : (size (map (inner j)) <= capacity j)%nat;
  inv_shadow : shadow j = filter_run f past;
  inv_entries : forall k e, map (inner j) !! k = Some e -> entry_ok f past k e;
}.

Lemma entry_ok_more f past o k e : entry_ok f past k e -> entry_ok f (past ++ [o]) k e.
Proof.
  intros [H1 H2]. split.
  - intros s Hs. rewrite signals_app, elem_of_app. left. by apply H1.
  - rewrite clean_app. by apply sublist_inserts_r.
Qed.

Lemma entries_sub f past (m m' : gmap string PendingJoin) : m' ⊆ m ->
  (forall k e, m !! k = Some e -> entry_ok f past k e) -> forall k e, m' !! k = Some e -> entry_ok f past k e.
Proof. intros Hs H k e He. apply H. by eapply lookup_weaken. Qed.

(** A feed whose change of the entry is justified by the operation just made. *)
Lemma feed_inv f past o k np ni g j : inv f past j -> filter_after (filter_run f past) o = filter_run f past ->
  (forall e, entry_ok f past k e -> entry_ok f (past ++ [o]) k (g e)) ->
  let '(r, j') := feed iter k np ni g j in
  inv f (past ++ [o]) j' /\ Forall (justified f (past ++ [o])) (payloads r).
Proof.
  intros [Hk Hsz Hsh He] Ho Hg. unfold feed.
  destruct (removes_spec (List.filter (fun e => is_stale (ttl j) np e.2) (iter (map (inner j)))).*1 (inner j) Hk)
    as [Hk1 Hs1]. fold (prune_expired iter (ttl j) np (inner j)) in Hk1, Hs1.
  set (i1 := prune_expired iter (ttl j) np (inner j)) in *. clearbody i1.
  pose proof (entries_sub f past _ _ Hs1 He) as He1.
  assert (entry_ok f past k (mk_PendingJoin None [] [] ni)) as Hnew.
  { split; [done |]. apply sublist_nil_l. }
  assert (keyed (ensure k ni i1) /\ exists e, map (ensure k ni i1) !! k = Some e /\ entry_ok f past k e
    /\ forall k' e', k' <> k -> map (ensure k ni i1) !! k' = Some e' -> entry_ok f past k' e') as (Hk2 & e & E2 & He2 & Hne2).
  { split; [by apply ensure_keyed |]. unfold ensure. destruct (map i1 !! k) as [e |] eqn:E.
    - exists e. split_and!; [done | by apply He1 | intros; by apply He1].
    - eexists. split_and!; [apply lookup_insert_eq | done |]. intros k' e' Hne. cbn.
      rewrite lookup_insert_ne by done. apply He1. }
  rewrite E2. set (i2 := ensure k ni i1) in *. clearbody i2. specialize (Hg e He2).
  set (i3 := mk_Inner (<[k := g e]> (map i2)) (order i2)).
  assert (keyed i3) as Hk3 by (by eapply insert_keyed).
  assert (forall k' e', map i3 !! k' = Some e' -> entry_ok f (past ++ [o]) k' e') as He3.
  { intros k' e'. cbn. destruct (decide (k' = k)) as [-> | Hne].
    - rewrite lookup_insert_eq. by intros [= <-].
    - rewrite lookup_insert_ne by done. intros H. apply entry_ok_more. by eapply Hne2. }
  set (i4 := match decide_join (g e) with Joined _ | SignalOnly _ => remove k i3 | Pending _ => i3 end).
  assert (keyed i4 /\ map i4 ⊆ map i3) as [Hk4 Hs4].
  { unfold i4. destruct (decide_join (g e)); try done;
      (split; [by apply remove_keyed | apply remove_sub]). }
  unfold enforce_capacity. destruct i4 as [m4 o4]. cbn [map order] in *.
  destruct (join_evict_spec (capacity j) o4 m4 Hk4) as (Hk5 & Hs5 & Hsz5). split.
  - constructor; cbn; [done | done | |].
    + unfold filter_run in *. by rewrite foldl_snoc, Hsh, Ho.
    + eapply entries_sub; [| exact He3]. by etrans.
  - unfold decide_join. destruct (signal (g e)) as [s |] eqn:Es; [| by constructor].
    destruct (ranks (g e)) as [| r0 rs] eqn:Er; [by constructor |]. constructor; [| constructor].
    destruct Hg as [Hg1 Hg2]. exists k, EmptyString, s, (r0 :: rs), (shadowed_sources (g e)).
    rewrite Er in Hg2. split_and!; [done | by apply Hg1 | done].
Qed.

Lemma join_flush_inv f past ks : forall out i, keyed i ->
  (forall k e, map i !! k = Some e -> entry_ok f past k e) -> Forall (justified f past) out ->
  let '(out', i') := foldl flush_step (out, i) ks in
  keyed i' /\ map i' ⊆ map i /\ Forall (justified f past) out'.
Proof.
  induction ks as [| k ks IH]; intros out i Hk He Hout; [done |]. cbn [foldl flush_step].
  destruct (map i !! k) as [e |] eqn:E; [| by apply IH].
  assert (forall out', Forall (justified f past) out' ->
    let '(o, i') := foldl flush_step (out', remove k i) ks in
    keyed i' /\ map i' ⊆ map i /\ Forall (justified f past) o) as H.
  { intros out' Ho. specialize (IH out' (remove k i) (remove_keyed k i Hk)
      (entries_sub f past _ _ (remove_sub k i) He) Ho).
    destruct (foldl flush_step (out', remove k i) ks) as [o i']. destruct IH as (H1 & H2 & H3).
    split_and!; [done | | done]. etrans; [exact H2 | apply remove_sub]. }
  destruct (signal e) as [s |] eqn:Es; [| by apply H]. apply H. apply Forall_app. split; [done |].
  constructor; [| constructor]. destruct (He k e E) as [H1 H2].
  exists k, k, s, (ranks e), (shadowed_sources e). split_and!; [done | by apply H1 | done].
Qed.

Lemma clean_one f o k : clean f [o] k =
  match o with
  | FeedRank k' r _ _ => if decide (k' = k) then if drops_rank f r then [] else [r] else []
  | _ => []
  end.
Proof. cbn. by rewrite app_nil_r. Qed.

Lemma step_inv f past o j : inv f past j ->
  let '(out, j') := step j o in inv f (past ++ [o]) j' /\ Forall (justified f (past ++ [o])) out.
Proof.
  intros Hi. pose proof (inv_shadow _ _ _ Hi) as Hsh.
  assert (forall g, inv f past j -> filter_after (filter_run f past) o = g (filter_run f past) ->
    inv f (past ++ [o]) (with_shadow g j)) as Hfilter.
  { intros g [H1 H2 H3 H4] Hg. constructor; cbn; [done | done | |].
    - unfold filter_run in *. by rewrite foldl_snoc, H3, Hg.
    - intros k e He. apply entry_ok_more. by apply H4. }
  destruct o as [k sg np ni | k rk np ni | now | c | c | l]; cbn [step];
    try (split; [by apply Hfilter | constructor]).
  - unfold feed_signal.
    pose proof (feed_inv f past (FeedSignal k sg np ni) k np ni
      (fun e => mk_PendingJoin (Some sg) (ranks e) (shadowed_sources e) (inserted_at e)) j Hi eq_refl) as H.
    destruct (feed _ _ _ _ _ _) as [r j']. apply H. intros e He.
    destruct (entry_ok_more f past (FeedSignal k sg np ni) k e He) as [_ H2]. split; [| exact H2].
    intros s [= <-]. rewrite signals_app, elem_of_app. right. cbn. rewrite decide_True by done.
    apply list_elem_of_here.
  - unfold feed_rank. rewrite Hsh.
    pose proof (feed_inv f past (FeedRank k rk np ni) k np ni
      (fun e => if drops_rank (filter_run f past) rk
                then mk_PendingJoin (signal e) (ranks e) (shadowed_sources e ++ [source_of rk]) (inserted_at e)
                else mk_PendingJoin (signal e) (ranks e ++ [rk]) (shadowed_sources e) (inserted_at e)) j Hi eq_refl) as H.
    destruct (feed _ _ _ _ _ _) as [r j']. apply H. intros e He.
    destruct (entry_ok_more f past (FeedRank k rk np ni) k e He) as [H1 H2].
    destruct (drops_rank (filter_run f past) rk) eqn:Hd; [done |]. split; [done |]. cbn.
    rewrite clean_app, clean_one, decide_True, Hd by done. destruct He as [_ He].
    by apply sublist_app.
  - unfold flush_expired.
    pose proof (join_flush_inv f (past ++ [Flush now])
      (List.filter (fun e => expired (ttl j) now (inserted_at e.2)) (iter (map (inner j)))).*1 [] (inner j)
      (inv_keyed _ _ _ Hi) (fun k e He => entry_ok_more f past _ k e (inv_entries _ _ _ Hi k e He))
      ltac:(constructor)) as H.
    destruct (foldl flush_step _ _) as [out i']. destruct H as (H1 & H2 & H3). split; [| done].
    constructor; cbn; [done | | |].
    + etrans; [by apply map_subseteq_size | apply Hi].
    + unfold filter_run in *. by rewrite foldl_snoc, Hsh.
    + eapply entries_sub; [exact H2 |]. intros k e He. apply entry_ok_more. by apply (inv_entries _ _ _ Hi).
Qed.

Lemma step_capacity j o : capacity (step j o).2 = capacity j.
Proof.
  assert (forall k np ni g, capacity (feed iter k np ni g j).2 = capacity j) as H.
  { intros. unfold feed. by destruct (_ !! k). }
  destruct o as [k sg np ni | k rk np ni | now | c | c | l]; cbn [step]; try done.
  - unfold feed_signal. specialize (H k np ni
      (fun e => mk_PendingJoin (Some sg) (ranks e) (shadowed_sources e) (inserted_at e))).
    by destruct (feed _ _ _ _ _ _).
  - unfold feed_rank. match goal with |- context [feed iter k np ni ?g j] => specialize (H k np ni g) end.
    by destruct (feed _ _ _ _ _ _).
  - unfold flush_expired. by destruct (foldl _ _ _).
Qed.

Lemma justified_more f past ops v : justified f past v -> justified f (past ++ ops) v.
Proof.
  intros (k & k' & s & rs & srcs & H1 & H2 & H3). exists k, k', s, rs, srcs. split_and!; [done | |].
  - rewrite signals_app, elem_of_app. by left.
  - rewrite clean_app. by apply sublist_inserts_r.
Qed.

Lemma join_run_inv f ops : forall past j, inv f past j ->
  let '(outs, j') := run j ops in inv f (past ++ ops) j' /\ Forall (justified f (past ++ ops)) outs.
Proof.
  induction ops as [| o ops IH]; intros past j Hi; [rewrite app_nil_r; by split |]. cbn [run].
  pose proof (step_inv f past o j Hi) as H. destruct (step j o) as [out j1]. destruct H as [Hi1 Ho].
  specialize (IH _ _ Hi1). destruct (run j1 ops) as [outs j2]. rewrite <- (assoc_L (++)) in IH.
  destruct IH as [H1 H2]. split; [exact H1 |]. apply Forall_app. split; [| exact H2].
  eapply Forall_impl; [exact Ho |]. intros v Hv.
  apply (justified_more f _ ops) in Hv. by rewrite <- (assoc_L (++)) in Hv.
Qed.

Lemma join_new_inv f ttl cap : inv f [] (new ttl cap f).
Proof.
  constructor; cbn; try done.
  - split; [constructor |]. intros k. cbn. rewrite elem_of_nil. split; [done |].
    intros [e H]. by rewrite (lookup_empty (M := gmap string)) in H.
  - rewrite map_size_empty. lia.
Qed.

(** A signal that waited longer than the lifetime is surfaced by the flush, with the ranks
    and the shadowed sources it has. *)
Lemma flush_surfaces_waiting_signals j now k e s :
  (forall m, iter m ≡ₚ map_to_list m) ->
  map (inner j) !! k = Some e -> signal e = Some s -> expired (ttl j) now (inserted_at e) = true ->
  merge_payload k s (ranks e) (shadowed_sources e) ∈ (flush_expired iter now j).1.
Proof.
  intros Hiter Hk Hs Hx. unfold flush_expired.
  set (ks := (List.filter _ (iter (map (inner j)))).*1).
  assert (k ∈ ks) as Hin.
  { apply list_elem_of_fmap. exists (k, e). split; [done |]. apply list_elem_of_In, List.filter_In.
    split; [| done]. apply list_elem_of_In. rewrite Hiter. by apply elem_of_map_to_list. }
  clearbody ks. generalize (inner j), Hk. clear Hk Hx. intros i Hk.
  assert (forall ks out i v, v ∈ out -> v ∈ (foldl flush_step (out, i) ks).1) as Hkeep.
  { clear. intros ks. induction ks as [| k ks IH]; intros out i v Hv; [done |]. cbn [foldl flush_step].
    destruct (map i !! k) as [e |]; [| by apply IH]. destruct (signal e); apply IH; [| done].
    apply elem_of_app. by left. }
  assert (forall out i, map i !! k = Some e -> k ∈ ks ->
    merge_payload k s (ranks e) (shadowed_sources e) ∈ (foldl flush_step (out, i) ks).1) as H.
  2: { specialize (H [] i Hk Hin). by destruct (foldl flush_step ([], i) ks). }
  clear Hin Hk i. induction ks as [| k' ks IH]; intros out i Hk Hin; [by apply elem_of_nil in Hin |].
  cbn [foldl flush_step]. destruct (decide (k' = k)) as [-> | Hne].
  - rewrite Hk, Hs. apply Hkeep, elem_of_app. right. apply list_elem_of_here.
  - apply elem_of_cons in Hin as [-> | Hin]; [done |].
    destruct (map i !! k') as [e' |]; [| by apply IH].
    assert (map (remove k' i) !! k = Some e) as Hk' by (cbn; by rewrite lookup_delete_ne).
    destruct (signal e'); by apply IH.
Qed.

(** The documentation has a third outcome, for pruned signals; nothing ever produces it. *)
Lemma signal_only_never_returned k np ni g j v : (feed iter k np ni g j).1 <> SignalOnly v.
Proof.
  unfold feed. destruct (_ !! k) as [e |]; [| done]. cbn. unfold decide_join.
  by destruct (signal (g e)), (ranks (g e)).
Qed.
End spec.
End JoinSpec.

(** Whatever signals, ranks, flushes and changes of the shadow filter arrive, and in
    whatever order the table is iterated, a payload surfaced carries a signal that was fed
    for its key and, in order, only ranks fed for that key whose source was not shadowed
    when they arrived; and the buffer never exceeds its capacity, its queue listing each
    pending key exactly once. *)
Theorem shadowed_ranks_never_surface `{J : Json} iter (ttl : Z) (cap : nat) (f : AiShadowFilter.t)
  (ops : list JoinSpec.op) :
  let '(payloads, j) := JoinSpec.run iter (SignalsJoiner.new ttl cap f) ops in
  Forall (JoinSpec.justified f ops) payloads
  /\ (SignalsJoiner.pending_len j <= cap)%nat
  /\ NoDup (SignalsJoiner.order (SignalsJoiner.inner j))
  /\ (forall k, k ∈ SignalsJoiner.order (SignalsJoiner.inner j)
            <-> is_Some (SignalsJoiner.map (SignalsJoiner.inner j) !! k)).
Proof.
  pose proof (JoinSpec.join_run_inv iter f ops [] _ (JoinSpec.join_new_inv f ttl cap)) as H.
  assert (SignalsJoiner.capacity (JoinSpec.run iter (SignalsJoiner.new ttl cap f) ops).2 = cap) as Hcap.
  { clear H. generalize (SignalsJoiner.new ttl cap f), (eq_refl : SignalsJoiner.capacity (SignalsJoiner.new ttl cap f) = cap).
    induction ops as [| o ops IH]; intros j Hj; [done |]. cbn [JoinSpec.run].
    pose proof (JoinSpec.step_capacity iter j o) as Hs. destruct (JoinSpec.step iter j o) as [out j1].
    specialize (IH j1). destruct (JoinSpec.run iter j1 ops) as [outs j2]. cbn in *. apply IH. congruence. }
  destruct (JoinSpec.run _ _ _) as [outs j]. cbn in Hcap. destruct H as [[H1 H2 H3 H4] H5].
  split_and!; [exact H5 | unfold SignalsJoiner.pending_len; by rewrite <- Hcap | apply H1 | apply H1].
Qed.
