(* ===== verification/UiGateway.v ===== *)
(** The user-interface gateway (hedge-ui-gateway): channels and messages (protocol.rs,
    channels.rs), subscriptions (subscriptions.rs), the alert buffer (alerts.rs), the
    high-volatility mode (volatility.rs), trader intents (intents.rs), the dispatcher of a
    connection (dispatcher.rs) and its session loop (gateway.rs). *)

From S2P Require Import Prelude Ieee UiJoin.
From Stdlib Require Import Ascii.

(** ** Protocol *)

Module Channel.
Inductive t : Type :=
| Market | Orderflow | Signals | Risk | Exec | News | Psych | Alerts | Replay | Latency | Control.

Definition ALL : list t :=
  [Market; Orderflow; Signals; Risk; Exec; News; Psych; Alerts; Replay; Latency; Control].
#[global] Instance eq_dec : EqDecision t.
Proof. solve_decision. Defined.
Definition as_u8 (c : t) : Z :=
  match c with
  | Market => 0 | Orderflow => 1 | Signals => 2 | Risk => 3 | Exec => 4 | News => 5 | Psych => 6
  | Alerts => 7 | Replay => 8 | Latency => 9 | Control => 10
  end.
Definition as_str (c : t) : string :=
  match c with
  | Market => "market" | Orderflow => "orderflow" | Signals => "signals" | Risk => "risk"
  | Exec => "exec" | News => "news" | Psych => "psych" | Alerts => "alerts"
  | Replay => "replay" | Latency => "latency" | Control => "control"
  end.
Definition parse (name : string) : option t :=
  if decide (name = "market") then Some Market
  else if decide (name = "orderflow") then Some Orderflow
  else if decide (name = "signals") then Some Signals
  else if decide (name = "risk") then Some Risk
  else if decide (name = "exec") then Some Exec
  else if decide (name = "news") then Some News
  else if decide (name = "psych") then Some Psych
  else if decide (name = "alerts") then Some Alerts
  else if decide (name = "replay") then Some Replay
  else if decide (name = "latency") then Some Latency
  else if decide (name = "control") then Some Control
  else None.

Lemma parse_as_str c : parse (as_str c) = Some c.
Proof. by destruct c. Qed.
End Channel.

Module IntentKind.
Inductive t : Type := Killswitch | StrategyToggle | Priority | Order | TradingMode.
Definition nats_subject (k : t) : string :=
  match k with
  | Killswitch => "trader.intent.killswitch"
  | StrategyToggle => "trader.intent.strategy_toggle"
  | Priority => "trader.intent.priority"
  | Order => "trader.intent.order"
  | TradingMode => "trader.intent.trading_mode"
  end.
End IntentKind.

Module ErrorCode.
Inductive t : Type := BadFrame | UnknownChannel | IntentOnNonControl | InvalidIntent | Internal.
End ErrorCode.

Section messages.
Context `{J : Json}.
Inductive ClientMsg : Type :=
| Subscribe (request_id : option string) (channel : Channel.t) (topics : list string)
| Unsubscribe (request_id : option string) (channel : Channel.t)
| Intent (request_id : option string) (kind : IntentKind.t) (payload : Value)
| Ping (request_id : option string).
Inductive ServerMsg : Type :=
| Event (channel : Channel.t) (subject : option string) (ts_ns : option Z) (payload : Value)
| Ack (request_id : option string) (channel : Channel.t)
| Error (code : ErrorCode.t) (message : string) (request_id : option string)
| Mode (high_volatility : bool)
| Pong (request_id : option string).
End messages.

(** ** Channels of subjects *)

Module Channels.
Import Channel.

(** [subject.split('.')]: never empty. *)
Fixpoint split_dots (acc : string) (s : string) : list string :=
  match s with
  | EmptyString => [acc]
  | String c s => if decide (c = "."%char) then acc :: split_dots EmptyString s
                  else split_dots (acc +:+ String c EmptyString) s
  end.
Definition segments (subject : string) : list string := split_dots EmptyString subject.

Definition nats_patterns (c : t) : list string :=
  match c with
  | Market => ["md.tick.>"; "md.book.>"; "md.oi.>"; "md.connection.>"; "md.breadth.sector"; "md.breadth.volatility"]
  | Orderflow => ["of.event.>"; "of.heatmap.>"]
  | Signals => ["sig.emitted"; "ai.rank.>"]
  | Risk => ["risk.decision.approved"; "risk.decision.rejected"; "risk.killswitch.activated";
             "risk.target.reached"; "risk.cooldown.>"; "pos.update.>"; "pos.risk_state"]
  | Exec => ["exec.order.>"; "exec.fill.>"; "exec.broker.failover"; "exec.trade.closed"]
  | News => ["ai.news.impact.>"]
  | Psych => ["ai.psych.stability"; "ai.psych.intervention"]
  | Alerts => []
  | Replay => ["ops.action.replay"]
  | Latency => ["obs.latency.>"; "obs.budget.breach.>"]
  | Control => []
  end.

(** [ChannelMatch]: at most two channels. *)
Record ChannelMatch := mk_Match { first : option t; second : option t }.
Definition none : ChannelMatch := mk_Match None None.
Definition one (c : t) : ChannelMatch := mk_Match (Some c) None.
Definition two (a b : t) : ChannelMatch := mk_Match (Some a) (Some b).
Definition iter (m : ChannelMatch) : list t :=
  match first m with Some c => [c] | None => [] end ++ match second m with Some c => [c] | None => [] end.
Definition is_empty (m : ChannelMatch) : bool := negb (is_some (first m)).
Definition contains (m : ChannelMatch) (c : t) : bool :=
  bool_decide (first m = Some c) || bool_decide (second m = Some c).

Definition third_is (parts : list string) (name : string) : bool :=
  match parts with _ :: _ :: x :: _ => bool_decide (x = name) | _ => false end.

Definition classify_subject (subject : string) : ChannelMatch :=
  if decide (subject = "md.breadth.sector" \/ subject = "md.breadth.volatility") then one Market
  else
    let parts := segments subject in
    match parts with
    | [] => none
    | head :: rest =>
      if decide (head = "md") then one Market
      else if decide (head = "of") then one Orderflow
      else if decide (head = "sig") then one Signals
      else if decide (head = "ai") then
        match rest with
        | x :: _ =>
          if decide (x = "rank") then one Signals
          else if decide (x = "news") then if third_is parts "impact" then one News else none
          else if decide (x = "psych") then one Psych
          else none
        | [] => none
        end
      else if decide (head = "risk") then one Risk
      else if decide (head = "pos") then one Risk
      else if decide (head = "exec") then one Exec
      else if decide (head = "obs") then
        match rest with
        | x :: _ =>
          if decide (x = "latency") then one Latency
          else if decide (x = "budget") then if third_is parts "breach" then one Latency else none
          else none
        | [] => none
        end
      else if decide (head = "ops") then
        match rest with
        | x :: _ => if decide (x = "action") then if third_is parts "replay" then one Replay else none else none
        | [] => none
        end
      else none
    end.
End Channels.

(** ** Subscriptions of a connection *)

Module Subscriptions.
(** Keyed by the channel's discriminant. *)
Abbreviation t := (gmap Z (gset string)) (only parsing).
Definition new : t := ∅.
Definition subscribe (s : t) (channel : Channel.t) (topics : list string) : t :=
  <[Channel.as_u8 channel := list_to_set topics]> s.
Definition unsubscribe (s : t) (channel : Channel.t) : t := delete (Channel.as_u8 channel) s.
Definition is_subscribed (s : t) (channel : Channel.t) : bool := is_some (s !! Channel.as_u8 channel).
Definition accepts (s : t) (channel : Channel.t) (topic : string) : bool :=
  match s !! Channel.as_u8 channel with
  | None => false
  | Some set => bool_decide (set = ∅) || bool_decide (topic ∈ set)
  end.
(** Sorted by channel, the topics of each sorted. *)
Definition snapshot (s : t) : list (Z * list string) :=
  (fun e => (e.1, merge_sort String.le (elements e.2))) <$> btree_iter s.
End Subscriptions.

(** ** Alerts *)

Module Severity.
Inductive t : Type := Info | Warning | Error | Critical.
Definition rank (s : t) : Z := match s with Info => 0 | Warning => 1 | Error => 2 | Critical => 3 end.
End Severity.

Module Alerts.
Section alerts.
Context `{J : Json}.

Definition starts_with (p s : string) : bool := String.prefix p s.

Definition severity_for_subject (subject : string) : option Severity.t :=
  if decide (subject = "risk.killswitch.activated") then Some Severity.Critical
  else if decide (subject = "risk.target.reached") then Some Severity.Info
  else if decide (subject = "exec.broker.failover" \/ subject = "ai.ollama.degraded") then Some Severity.Warning
  else if starts_with "obs.budget.breach." subject then Some Severity.Warning
  else if starts_with "obs.error." subject then Some Severity.Error
  else if decide (subject = "ai.gov.action" \/ subject = "ai.psych.intervention") then Some Severity.Warning
  else if starts_with "md.connection." subject then Some Severity.Warning
  else None.

Record UiAlert := mk_UiAlert { severity : Severity.t; source : string; ts_ns : Z; payload : Value }.

Record t := mk { items : list UiAlert; capacity : nat }.
Definition new (cap : nat) : t := mk [] cap.
Definition push (b : t) (alert : UiAlert) : t :=
  mk ((if (capacity b <=? length (items b))%nat then tail (items b) else items b) ++ [alert]) (capacity b).
Definition len (b : t) : nat := length (items b).
Definition is_empty (b : t) : bool := (len b =? 0)%nat.

(** The sort key: descending severity, then descending time. The sort is stable. *)
Definition before (a b : UiAlert) : Prop :=
  Severity.rank (severity b) < Severity.rank (severity a)
  \/ (Severity.rank (severity b) = Severity.rank (severity a) /\ ts_ns b <= ts_ns a).
#[global] Instance before_dec a b : Decision (before a b).
Proof. unfold before. apply _. Defined.
Definition ordered (b : t) : list UiAlert := sort_by before (items b).
Definition drain_ordered (b : t) : list UiAlert * t := (ordered b, mk [] (capacity b)).
End alerts.
End Alerts.

(** ** High-volatility mode *)

Module Volatility.
Section volatility.
Context `{J : Json}.

(** Durations in milliseconds. *)
Record RefreshCadence := mk_Cadence { normal : Z; critical_high_vol : Z; secondary_high_vol : Z }.
Definition DEFAULT : RefreshCadence := mk_Cadence 33 16 100.
Definition for_channel (c : RefreshCadence) (channel : Channel.t) (high_vol : bool) : Z :=
  if high_vol then
    match channel with
    | Channel.Risk | Channel.Exec | Channel.Latency | Channel.Alerts | Channel.Market | Channel.Orderflow =>
      critical_high_vol c
    | _ => secondary_high_vol c
    end
  else normal c.

Record t := mk { threshold : f32; in_high_vol : bool }.
Definition new (threshold : f32) : t := mk threshold false.
Definition is_high_vol (v : t) : bool := in_high_vol v.

Definition set (v : t) (next : bool) : option bool * t :=
  ((if Bool.eqb (in_high_vol v) next then None else Some next), mk (threshold v) next).

Definition observe (v : t) (payload : Value) : option bool * t :=
  match (match jget payload "value" with Some x => as_f64 x | None => None end) with
  | None => (None, v)
  | Some raw =>
    let x := if f_is_nan raw then f_zero else f_max raw f_zero in
    set v (f_gt (f64_to_f32 x) (threshold v))
  end.
End volatility.
End Volatility.

(** ** Trader intents *)

Module Intents.
Section intents.
Context `{J : Json}.

Inductive IntentError : Type :=
| InvalidPayload (kind : IntentKind.t) (reason : string)
| PublishFailed (subject message : string).

Definition field_bool (payload : Value) (name : string) : option bool :=
  match jget payload name with Some v => as_bool v | None => None end.
Definition field_str (payload : Value) (name : string) : option string :=
  match jget payload name with Some v => as_str v | None => None end.
Definition field_i64 (payload : Value) (name : string) : option Z :=
  match jget payload name with Some v => as_i64 v | None => None end.

Definition validate_intent (kind : IntentKind.t) (payload : Value) : result unit IntentError :=
  let invalid reason := Err (InvalidPayload kind reason) in
  match kind with
  | IntentKind.Killswitch =>
    match field_bool payload "active" with
    | None => invalid "missing boolean field `active`"
    | Some _ => Ok tt
    end
  | IntentKind.StrategyToggle =>
    match field_str payload "strategy_id" with
    | None => invalid "missing string field `strategy_id`"
    | Some _ =>
      match field_bool payload "enabled" with
      | None => invalid "missing boolean field `enabled`"
      | Some _ => Ok tt
      end
    end
  | IntentKind.Priority =>
    match field_str payload "symbol" with
    | None => invalid "missing string field `symbol`"
    | Some _ =>
      match field_str payload "tier" with
      | None => invalid "missing string field `tier`"
      | Some tier =>
        if decide (tier = "P1" \/ tier = "P2" \/ tier = "P3" \/ tier = "P4") then Ok tt
        else invalid "`tier` must be one of P1/P2/P3/P4"
      end
    end
  | IntentKind.Order =>
    match field_str payload "symbol" with
    | None => invalid "missing string field `symbol`"
    | Some _ =>
      match field_str payload "side" with
      | None => invalid "missing string field `side`"
      | Some side =>
        if decide (side = "buy" \/ side = "sell") then
          match field_i64 payload "quantity" with
          | None => invalid "missing integer field `quantity`"
          | Some qty => if qty <=? 0 then invalid "`quantity` must be positive" else Ok tt
          end
        else invalid "`side` must be `buy` or `sell`"
      end
    end
  | IntentKind.TradingMode =>
    match field_bool payload "live" with
    | None => invalid "missing boolean field `live`"
    | Some _ => Ok tt
    end
  end.

(** The publisher: what the bus answers for a subject and its bytes. [to_vec] is the JSON
    encoder. *)
Context (publish : string -> list Z -> result unit string) (to_vec : Value -> result (list Z) string).

(** The result, and the publication attempted. *)
Definition publish_intent (kind : IntentKind.t) (payload : Value)
  : result unit IntentError * list (string * list Z) :=
  match validate_intent kind payload with
  | Err e => (Err e, [])
  | Ok _ =>
    match to_vec payload with
    | Err e => (Err (InvalidPayload kind ("payload not JSON-serialisable: " +:+ e)), [])
    | Ok bytes =>
      let subject := IntentKind.nats_subject kind in
      (map_err (PublishFailed subject) (publish subject bytes), [(subject, bytes)])
    end
  end.
End intents.
End Intents.

(** ** Dispatcher and session *)

Module Dispatcher.
Section dispatcher.
Context `{J : Json}.
Context (publish : string -> list Z -> result unit string) (to_vec : Value -> result (list Z) string).
Context (to_value : list Alerts.UiAlert -> Value).
Context (iter : gmap string SignalsJoiner.PendingJoin -> list (string * SignalsJoiner.PendingJoin)).

Record NatsEvent := mk_NatsEvent {
  subject : string;
  topic_suffix : string;
  ev_payload : Value;
  ev_ts_ns : Z;
}.

(** What every connection shares. *)
Record DispatcherState := mk_State {
  signals : SignalsJoiner.t;
  alerts : Alerts.t;
  volatility : Volatility.t;
}.

Definition handle_intent (subs : Subscriptions.t) (request_id : option string) (kind : IntentKind.t)
  (payload : Value) : list ServerMsg * list (string * list Z) :=
  if negb (Subscriptions.is_subscribed subs Channel.Control) then
    ([Error ErrorCode.IntentOnNonControl "client must subscribe to /control before publishing intents" request_id], [])
  else
    let '(r, sent) := Intents.publish_intent publish to_vec kind payload in
    (match r with
     | Ok _ => [Ack request_id Channel.Control]
     | Err (Intents.InvalidPayload _ reason) => [Error ErrorCode.InvalidIntent reason request_id]
     | Err (Intents.PublishFailed _ message) =>
       [Error ErrorCode.Internal ("nats publish failed: " +:+ message) request_id]
     end, sent).

Definition handle_client (subs : Subscriptions.t) (msg : ClientMsg)
  : list ServerMsg * Subscriptions.t * list (string * list Z) :=
  match msg with
  | Subscribe request_id channel topics =>
    ([Ack request_id channel], Subscriptions.subscribe subs channel topics, [])
  | Unsubscribe request_id channel => ([Ack request_id channel], Subscriptions.unsubscribe subs channel, [])
  | Intent request_id kind payload =>
    let '(replies, sent) := handle_intent subs request_id kind payload in (replies, subs, sent)
  | Ping request_id => ([Pong request_id], subs, [])
  end.

Definition wrap_outcome (o : SignalsJoiner.JoinOutcome) : option (list Value) :=
  match o with
  | SignalsJoiner.Joined payload | SignalsJoiner.SignalOnly payload => Some [payload]
  | SignalsJoiner.Pending _ => None
  end.

(** [clk]: the readings of the clock by the joiner. *)
Definition feed_signals_join (ev : NatsEvent) (clk : Z * Z) (j : SignalsJoiner.t)
  : option (list Value) * SignalsJoiner.t :=
  if decide (subject ev = "sig.emitted") then
    let cid := unwrap_or EmptyString (Intents.field_str (ev_payload ev) "correlation_id") in
    let '(o, j) := SignalsJoiner.feed_signal iter cid (ev_payload ev) clk.1 clk.2 j in (wrap_outcome o, j)
  else if Alerts.starts_with "ai.rank." (subject ev) then
    let '(o, j) := SignalsJoiner.feed_rank iter (topic_suffix ev) (ev_payload ev) clk.1 clk.2 j in
    (wrap_outcome o, j)
  else (None, j).

Definition with_signals (st : DispatcherState) (j : SignalsJoiner.t) : DispatcherState :=
  mk_State j (alerts st) (volatility st).

(** One channel of an event. *)
Definition route (subs : Subscriptions.t) (ev : NatsEvent) (clk : Z * Z)
  (acc : list ServerMsg * DispatcherState) (ch : Channel.t) : list ServerMsg * DispatcherState :=
  let '(out, st) := acc in
  if negb (Subscriptions.is_subscribed subs ch) then (out, st)
  else if decide (ch = Channel.Signals) then
    let '(payloads, j) := feed_signals_join ev clk (signals st) in
    (out ++ ((fun p => Event Channel.Signals (Some (subject ev)) (Some (as_u64 (ev_ts_ns ev))) p)
               <$> unwrap_or [] payloads), with_signals st j)
  else if negb (Subscriptions.accepts subs ch (topic_suffix ev)) then (out, st)
  else (out ++ [Event ch (Some (subject ev)) (Some (as_u64 (ev_ts_ns ev))) (ev_payload ev)], st).

Definition handle_nats_event (subs : Subscriptions.t) (ev : NatsEvent) (clk : Z * Z) (st : DispatcherState)
  : list ServerMsg * DispatcherState :=
  let '(out, st) :=
    if decide (subject ev = "md.breadth.volatility") then
      let '(flipped, v) := Volatility.observe (volatility st) (ev_payload ev) in
      (match flipped with
       | Some b => if Subscriptions.is_subscribed subs Channel.Market then [Mode b] else []
       | None => []
       end, mk_State (signals st) (alerts st) v)
    else ([], st) in
  foldl (route subs ev clk) (out, st) (Channels.iter (Channels.classify_subject (subject ev))).

Definition ingest_for_alerts (subs : Subscriptions.t) (ev : NatsEvent) (st : DispatcherState)
  : list ServerMsg * DispatcherState :=
  match Alerts.severity_for_subject (subject ev) with
  | None => ([], st)
  | Some severity =>
    let alert := Alerts.mk_UiAlert severity (subject ev) (ev_ts_ns ev) (ev_payload ev) in
    let st := mk_State (signals st) (Alerts.push (alerts st) alert) (volatility st) in
    (if Subscriptions.is_subscribed subs Channel.Alerts then
       [Event Channel.Alerts (Some "alerts") None (to_value (Alerts.ordered (alerts st)))]
     else [], st)
  end.

Definition drain_signal_flushes (subs : Subscriptions.t) (now : Z) (st : DispatcherState)
  : list ServerMsg * DispatcherState :=
  if negb (Subscriptions.is_subscribed subs Channel.Signals) then ([], st)
  else
    let '(flushed, j) := SignalsJoiner.flush_expired iter now (signals st) in
    ((fun p => Event Channel.Signals (Some "sig.emitted") None p) <$> flushed, with_signals st j).

(** *** The session of a connection *)

(** What its loop selects: a frame of the client, an event of the bus or a flush. *)
Inductive Input : Type :=
| Text (text : string)
| BinaryFrame
| PingFrame (payload : list Z)
| CloseFrame
| OtherFrame
| RecvError
| StreamEnd
| Bus (ev : NatsEvent) (clk : Z * Z)
| Lagged (skipped : Z)
| BusClosed
| FlushTick (now : Z).

Inductive Output : Type :=
| Sent (m : ServerMsg)
| SentPong (payload : list Z)
| Published (subject : string) (bytes : list Z).

Record Session := mk_Session { subs : Subscriptions.t; shared : DispatcherState }.
Inductive Flow : Type := Continue | Break | Fail.

Context (from_str : string -> result ClientMsg string).

(** One turn; every frame is taken by the socket. *)
Definition session_step (s : Session) (i : Input) : list Output * Session * Flow :=
  match i with
  | Text text =>
    match from_str text with
    | Ok msg =>
      let '(replies, sb, sent) := handle_client (subs s) msg in
      (((fun p => Published p.1 p.2) <$> sent) ++ (Sent <$> replies), mk_Session sb (shared s), Continue)
    | Err e => ([Sent (Error ErrorCode.BadFrame ("malformed client message: " +:+ e) None)], s, Continue)
    end
  | BinaryFrame => ([Sent (Error ErrorCode.BadFrame "binary frames are not supported" None)], s, Continue)
  | PingFrame p => ([SentPong p], s, Continue)
  | CloseFrame => ([], s, Break)
  | OtherFrame => ([], s, Continue)
  | RecvError => ([], s, Fail)
  | StreamEnd => ([], s, Break)
  | Bus ev clk =>
    let '(replies, st) := handle_nats_event (subs s) ev clk (shared s) in
    let '(alerts, st) := ingest_for_alerts (subs s) ev st in
    (Sent <$> (replies ++ alerts), mk_Session (subs s) st, Continue)
  | Lagged _ => ([], s, Continue)
  | BusClosed => ([], s, Break)
  | FlushTick now =>
    let '(replies, st) := drain_signal_flushes (subs s) now (shared s) in
    (Sent <$> replies, mk_Session (subs s) st, Continue)
  end.

(** The outputs of every turn taken, in order. *)
Fixpoint run_session (s : Session) (inputs : list Input) : list (list Output) * Session * Flow :=
  match inputs with
  | [] => ([], s, Continue)
  | i :: inputs =>
    let '(out, s, flow) := session_step s i in
    match flow with
    | Continue => let '(outs, s, flow) := run_session s inputs in (out :: outs, s, flow)
    | _ => ([out], s, flow)
    end
  end.

Definition new_session (st : DispatcherState) : Session := mk_Session Subscriptions.new st.
End dispatcher.
End Dispatcher.
