(* ===== verification/UiFacts.v ===== *)
(** What the user-interface gateway guarantees: the authority of intents and the accounting
    of replies, the alert list, and what sharing one state between connections costs. *)

From S2P Require Import Prelude Ieee Core UiJoin UiGateway.

(** ** Replies and intents *)

Module SessionFacts.
Import Dispatcher.
Section facts.
Context `{J : Json}.
Context (publish : string -> list Z -> result unit string) (to_vec : Value -> result (list Z) string).
Context (to_value : list Alerts.UiAlert -> Value).
Context (iter : gmap string SignalsJoiner.PendingJoin -> list (string * SignalsJoiner.PendingJoin)).
Context (from_str : string -> result ClientMsg string).

(** Specification: is the control channel open after these inputs? *)
Definition control_after (b : bool) (i : Input) : bool :=
  match i with
  | Text text =>
    match from_str text with
    | Ok (Subscribe _ Channel.Control _) => true
    | Ok (Unsubscribe _ Channel.Control) => false
    | _ => b
    end
  | _ => b
  end.
Definition control_open (inputs : list Input) : bool := foldl control_after false inputs.

Definition request_of (m : ClientMsg) : option string :=
  match m with Subscribe r _ _ | Unsubscribe r _ | Intent r _ _ | Ping r => r end.
Definition reply_request (m : ServerMsg) : option string :=
  match m with Ack r _ | Error _ _ r | Pong r => r | _ => None end.

(** A publication on behalf of the trader is a valid intent sent while the channel is open. *)
Definition authorised (opened : bool) (i : Input) (o : Output) : Prop :=
  match o with
  | Published subj bytes =>
    exists text rid kind payload,
      i = Text text /\ from_str text = Ok (Intent rid kind payload) /\ opened = true
      /\ Intents.validate_intent kind payload = Ok tt
      /\ subj = IntentKind.nats_subject kind /\ to_vec payload = Ok bytes
  | _ => True
  end.

(** Every frame of the client that is a message gets one reply, which names its request. *)
Definition answered (i : Input) (out : list Output) : Prop :=
  match i with
  | Text text =>
    exists m, omap (fun o => match o with Sent m => Some m | _ => None end) out = [m]
      /\ match from_str text with
         | Ok msg => reply_request m = request_of msg
         | Err _ => exists e, m = Error ErrorCode.BadFrame e None
         end
  | _ => True
  end.

Lemma channel_key_inj c c' : Channel.as_u8 c = Channel.as_u8 c' -> c = c'.
Proof. by destruct c, c'. Qed.

Lemma subscribed_subscribe s c topics c' :
  Subscriptions.is_subscribed (Subscriptions.subscribe s c topics) c'
  = if decide (c = c') then true else Subscriptions.is_subscribed s c'.
Proof.
  unfold Subscriptions.is_subscribed, Subscriptions.subscribe. destruct (decide (c = c')) as [-> | Hne].
  - by rewrite lookup_insert_eq.
  - rewrite lookup_insert_ne; [done |]. by intros ?%channel_key_inj.
Qed.

Lemma subscribed_unsubscribe s c c' :
  Subscriptions.is_subscribed (Subscriptions.unsubscribe s c) c'
  = if decide (c = c') then false else Subscriptions.is_subscribed s c'.
Proof.
  unfold Subscriptions.is_subscribed, Subscriptions.unsubscribe. destruct (decide (c = c')) as [-> | Hne].
  - by rewrite lookup_delete_eq.
  - rewrite lookup_delete_ne; [done |]. by intros ?%channel_key_inj.
Qed.

Lemma intent_replies sb rid kind payload :
  let '(replies, sent) := handle_intent publish to_vec sb rid kind payload in
  (exists m, replies = [m] /\ reply_request m = rid)
  /\ forall p, p ∈ sent ->
     Subscriptions.is_subscribed sb Channel.Control = true
     /\ Intents.validate_intent kind payload = Ok tt
     /\ p.1 = IntentKind.nats_subject kind /\ to_vec payload = Ok p.2.
Proof.
  unfold handle_intent, Intents.publish_intent.
  destruct (Subscriptions.is_subscribed sb Channel.Control) eqn:Es; cbn [negb].
  2: { split; [eexists; split; reflexivity |]. by intros p ?%elem_of_nil. }
  destruct (Intents.validate_intent kind payload) as [[] | e] eqn:Ev.
  - destruct (to_vec payload) as [bytes | e] eqn:Et.
    + split; [destruct (publish _ _); eexists; split; reflexivity |].
      intros p ->%list_elem_of_singleton. done.
    + split; [eexists; split; reflexivity |]. by intros p ?%elem_of_nil.
  - split; [destruct e; eexists; split; reflexivity |]. by intros p ?%elem_of_nil.
Qed.

Lemma sent_only (l : list (string * list Z)) (ms : list ServerMsg) :
  omap (fun o => match o with Sent m => Some m | _ => None end)
    (((fun p => Published p.1 p.2) <$> l) ++ (Sent <$> ms)) = ms.
Proof.
  rewrite omap_app. replace (omap _ ((fun p => Published p.1 p.2) <$> l)) with (@nil ServerMsg).
  - induction ms as [| m ms IH]; [done |]. cbn in *. by rewrite IH.
  - by induction l.
Qed.

Lemma sents_authorised opened i ms : Forall (authorised opened i) (Sent <$> ms).
Proof. induction ms; by constructor. Qed.

Lemma step_authorised s i opened :
  Subscriptions.is_subscribed (subs s) Channel.Control = opened ->
  let '(out, s', _) := session_step publish to_vec to_value iter from_str s i in
  Forall (authorised opened i) out /\ answered i out
  /\ Subscriptions.is_subscribed (subs s') Channel.Control = control_after opened i.
Proof.
  intros Ho. destruct i as [text | | p | | | | | ev clk | n | | now]; cbn [session_step control_after];
    try (split_and!; [by repeat constructor | done | done]).
  - destruct (from_str text) as [msg | e] eqn:Ef.
    2: { split_and!; [by repeat constructor | | done]. unfold answered. rewrite Ef. eexists.
         split; [reflexivity | eauto]. }
    destruct msg as [rid ch topics | rid ch | rid kind payload | rid]; cbn [handle_client].
    + split_and!; [by repeat constructor | unfold answered; rewrite Ef; eexists; split; reflexivity |].
      cbn [subs]. rewrite subscribed_subscribe, Ho. by destruct ch.
    + split_and!; [by repeat constructor | unfold answered; rewrite Ef; eexists; split; reflexivity |].
      cbn [subs]. rewrite subscribed_unsubscribe, Ho. by destruct ch.
    + pose proof (intent_replies (subs s) rid kind payload) as H.
      destruct (handle_intent _ _ _ _ _ _) as [replies sent]. destruct H as [(m & -> & Hm) Hs].
      split_and!; [| | done].
      * apply Forall_app. split; [| apply sents_authorised]. apply Forall_forall.
        intros o (p & -> & Hp)%list_elem_of_fmap. destruct (Hs p Hp) as (H1 & H2 & H3 & H4).
        exists text, rid, kind, payload. split_and!; try done. congruence.
      * unfold answered. rewrite Ef, sent_only. by exists m.
    + split_and!; [by repeat constructor | unfold answered; rewrite Ef; eexists; split; reflexivity | done].
  - destruct (handle_nats_event _ _ _ _ _) as [replies st1]. destruct (ingest_for_alerts _ _ _ _) as [al st2].
    split_and!; [apply sents_authorised | done | done].
  - destruct (drain_signal_flushes _ _ _ _) as [replies st1]. split_and!; [apply sents_authorised | done | done].
Qed.

Lemma run_authorised inputs : forall s opened,
  Subscriptions.is_subscribed (subs s) Channel.Control = opened ->
  forall n i out, inputs !! n = Some i ->
    (run_session publish to_vec to_value iter from_str s inputs).1.1 !! n = Some out ->
    Forall (authorised (foldl control_after opened (take n inputs)) i) out /\ answered i out.
Proof.
  induction inputs as [| i0 inputs IH]; intros s opened Ho n i out Hi Hout; [done |].
  cbn [run_session] in Hout. pose proof (step_authorised s i0 opened Ho) as Hs.
  destruct (session_step _ _ _ _ _ s i0) as [[out0 s1] flow]. destruct Hs as (H1 & H2 & H3).
  destruct n as [| n].
  - cbn in Hi. simplify_eq. assert (out = out0) as ->; [| done].
    destruct flow; [destruct (run_session _ _ _ _ _ s1 inputs) as [[? ?] ?] | |]; cbn in Hout; congruence.
  - cbn in Hi. cbn [take foldl]. destruct flow; cbn in Hout; try done.
    specialize (IH s1 _ H3 n i out Hi). destruct (run_session _ _ _ _ _ s1 inputs) as [[outs s2] fl].
    by apply IH.
Qed.
End facts.
End SessionFacts.

(** C26: through any session of a connection, whatever the bus, the client and the socket
    do: a trader intent is published only for a frame that is a valid intent, on the subject
    of its kind and with the encoding of its payload, while the control channel is
    subscribed (subscribed earlier and not unsubscribed since); and every text frame gets
    exactly one reply, which carries its request identifier, or is refused as malformed. *)
Theorem intents_need_an_open_control_channel `{J : Json} publish to_vec to_value iter from_str
  (st : Dispatcher.DispatcherState) (inputs : list Dispatcher.Input) (n : nat) i out :
  inputs !! n = Some i ->
  (Dispatcher.run_session publish to_vec to_value iter from_str (Dispatcher.new_session st) inputs).1.1 !! n
    = Some out ->
  Forall (SessionFacts.authorised to_vec from_str (SessionFacts.control_open from_str (take n inputs)) i) out
  /\ SessionFacts.answered from_str i out.
Proof. by apply SessionFacts.run_authorised. Qed.

(** ** Alerts *)

Module AlertFacts.
Import Alerts.
Section facts.
Context `{J : Json}.

#[global] Instance before_total : Total before.
Proof. intros a b. unfold before. lia. Qed.
#[global] Instance before_trans : Transitive before.
Proof. intros a b c. unfold before. lia. Qed.

(** Critical alerts come first, whatever the order of arrival. *)
Lemma push_items b a : (0 < capacity b)%nat -> (length (items b) <= capacity b)%nat ->
  items (push b a) = RingWindow.spec_push (capacity b) (items b) a.
Proof.
  intros Hc Hl. unfold push, RingWindow.spec_push, RingWindow.last_n. cbn. rewrite length_app. cbn.
  destruct (Nat.leb_spec (capacity b) (length (items b))).
  - replace (length (items b) + 1 - capacity b)%nat with 1%nat by lia.
    destruct (items b) as [| x l]; [cbn in *; lia |]. done.
  - by replace (length (items b) + 1 - capacity b)%nat with 0%nat by lia.
Qed.

Lemma pushes_items cap l : (0 < cap)%nat ->
  items (foldl push (new cap) l) = RingWindow.last_n cap l
  /\ capacity (foldl push (new cap) l) = cap.
Proof.
  intros Hc. induction l as [| a l IH] using rev_ind; [done |]. rewrite foldl_snoc.
  destruct IH as [Hi Hcap]. split; [| done].
  assert (length (items (foldl push (new cap) l)) <= cap)%nat by (rewrite Hi, RingWindow.last_n_length; lia).
  rewrite push_items by lia. rewrite Hcap, Hi. by apply RingWindow.spec_push_last_n.
Qed.
End facts.
End AlertFacts.

(** An alert buffer of positive capacity that received any alerts shows the most recent
    ones that fit, all of them and nothing else, the more severe always above the less
    severe and within a severity the more recent first. *)
Theorem alerts_most_severe_first `{J : Json} (cap : nat) (l : list Alerts.UiAlert) :
  (0 < cap)%nat ->
  let shown := Alerts.ordered (foldl Alerts.push (Alerts.new cap) l) in
  shown ≡ₚ RingWindow.last_n cap l /\ StronglySorted Alerts.before shown.
Proof.
  intros Hc. cbv zeta. unfold Alerts.ordered. rewrite (proj1 (AlertFacts.pushes_items cap l Hc)).
  split; [apply sort_by_perm | apply sort_by_sorted; apply _].
Qed.

(** ** Concrete documents and sessions *)

Module UiSample.
Import Dispatcher.

(** Arrays and objects as chains that end in [JEnd]. *)
Inductive jv : Type :=
| JNull | JBool (b : bool) | JNum (z : Z) | JStr (s : string)
| JEnd | JElem (x rest : jv) | JField (k : string) (x rest : jv).
Definition JArr (l : list jv) : jv := foldr JElem JEnd l.
Definition JObj (l : list (string * jv)) : jv := foldr (fun e => JField e.1 e.2) JEnd l.

Fixpoint field (v : jv) (k : string) : option jv :=
  match v with JField k' x rest => if decide (k' = k) then Some x else field rest k | _ => None end.
Fixpoint set_field (v : jv) (k : string) (x : jv) : jv :=
  match v with
  | JField k' y rest => if decide (k' = k) then JField k x rest else JField k' y (set_field rest k x)
  | _ => JField k x JEnd
  end.

#[export] Instance json : Json :=
  {| Value := jv;
     jget := field;
     as_str := fun v => match v with JStr s => Some s | _ => None end;
     as_bool := fun v => match v with JBool b => Some b | _ => None end;
     as_i64 := fun v => match v with JNum z => Some z | _ => None end;
     as_f64 := fun v => match v with JNum z => Some (f64_of_Z z) | _ => None end;
     jnull := JNull; jstring := JStr; jnumber := JNum; jarray := JArr; jobject := JObj;
     jset := set_field |}.

Definition publish (_ : string) (_ : list Z) : result unit string := Ok tt.
Definition to_vec (_ : Value) : result (list Z) string := Ok [123; 125].
Definition to_value (l : list Alerts.UiAlert) : Value := JNum (Z.of_nat (length l)).
Definition from_str (s : string) : result ClientMsg string :=
  if decide (s = "control") then Ok (Subscribe (Some "1") Channel.Control [])
  else if decide (s = "signals") then Ok (Subscribe None Channel.Signals [])
  else if decide (s = "kill") then Ok (Intent (Some "2") IntentKind.Killswitch (JObj [("active", JBool true)]))
  else Err "expected value".
Definition state : DispatcherState :=
  mk_State (SignalsJoiner.new 2000 4096 {[ "old_model" ]}) (Alerts.new 256) (Volatility.new (f32_lit 5 100)).
Definition run := run_session publish to_vec to_value map_to_list from_str (new_session state).
Definition sample_alerts : list Alerts.UiAlert :=
  [Alerts.mk_UiAlert Severity.Warning "md.connection.nse" 1 JNull;
   Alerts.mk_UiAlert Severity.Critical "risk.killswitch.activated" 2 JNull;
   Alerts.mk_UiAlert Severity.Info "risk.target.reached" 3 JNull].
End UiSample.

Import UiSample Dispatcher.

Lemma intents_need_an_open_control_channel_witness :
  SessionFacts.answered from_str (Text "kill")
    [Published "trader.intent.killswitch" [123; 125]; Sent (Ack (Some "2") Channel.Control)].
Proof.
  refine (proj2 (intents_need_an_open_control_channel publish to_vec to_value map_to_list from_str state
    [Text "control"; Text "kill"] 1%nat (Text "kill") _ _ _)); reflexivity.
Defined.

(** Before the subscription the same frame publishes nothing. *)
Example intent_before_control : (run [Text "kill"; Text "control"]).1.1
  = [[Sent (Error ErrorCode.IntentOnNonControl
             "client must subscribe to /control before publishing intents" (Some "2"))];
     [Sent (Ack (Some "1") Channel.Control)]].
Proof. reflexivity. Qed.

Lemma alerts_most_severe_first_witness :
  StronglySorted Alerts.before (Alerts.ordered (foldl Alerts.push (Alerts.new 2) sample_alerts)).
Proof. apply (proj2 (alerts_most_severe_first 2 sample_alerts ltac:(lia))). Defined.

(** ** One state shared by every connection

    Each connection feeds every event of the bus to the shared state. *)

Definition rank_event : NatsEvent := mk_NatsEvent "ai.rank.ab" "ab" (JObj [("source", JStr "model")]) 1.
Definition signal_event : NatsEvent := mk_NatsEvent "sig.emitted" "emitted" (JObj [("correlation_id", JStr "ab")]) 2.

(** Two connections subscribed to the signals receive the same two events: the rank is joined
    twice into the row of the first connection, and the second one gets no row. *)
Lemma second_connection_gets_no_join :
  let s0 := Subscriptions.subscribe Subscriptions.new Channel.Signals [] in
  let st1 := (handle_nats_event map_to_list s0 rank_event (0, 0) state).2 in
  let st2 := (handle_nats_event map_to_list s0 rank_event (0, 0) st1).2 in
  let '(first, st3) := handle_nats_event map_to_list s0 signal_event (1, 1) st2 in
  let '(second, _) := handle_nats_event map_to_list s0 signal_event (1, 1) st3 in
  let rank := JObj [("source", JStr "model")] in
  first = [Event Channel.Signals (Some "sig.emitted") (Some 2)
             (JObj [("signal", JObj [("correlation_id", JStr "ab")]); ("ranks", JArr [rank; rank])])]
  /\ second = [].
Proof. vm_compute. split; reflexivity. Qed.

(** Each of them also adds the alert to the shared list. *)
Lemma alert_listed_once_per_connection :
  let ev := mk_NatsEvent "risk.killswitch.activated" "activated" JNull 1 in
  let st := (ingest_for_alerts to_value Subscriptions.new ev state).2 in
  Alerts.len (alerts (ingest_for_alerts to_value Subscriptions.new ev st).2) = 2%nat.
Proof. reflexivity. Qed.

(** A flip of the mode is told to the connection that observes it first. *)
Lemma mode_told_to_one_connection :
  let s0 := Subscriptions.subscribe Subscriptions.new Channel.Market ["none"] in
  let ev := mk_NatsEvent "md.breadth.volatility" "volatility" (JObj [("value", JNum 1)]) 1 in
  let '(first, st) := handle_nats_event map_to_list s0 ev (0, 0) state in
  let '(second, _) := handle_nats_event map_to_list s0 ev (0, 0) st in
  first = [Mode true] /\ second = [].
Proof. vm_compute. split; reflexivity. Qed.

(** The breadth published by the market-data service has the fields [stdev], [sample_count]
    and [ts_ns]: the mode never changes on it. *)
Lemma published_breadth_never_flips_mode v stdev n ts :
  Volatility.observe v (JObj [("stdev", stdev); ("sample_count", n); ("ts_ns", ts)]) = (None, v).
Proof. reflexivity. Qed.

(** The subscriptions of the service, by the bus's matching: a last token [>] matches one or
    more tokens, every other token itself. *)
Fixpoint matches (pattern subject : list string) : bool :=
  match pattern, subject with
  | [], [] => true
  | [p], _ :: rest => if decide (p = ">") then true
                      else match subject with [s] => bool_decide (p = s) | _ => false end
  | p :: pattern, s :: subject => bool_decide (p = s) && matches pattern subject
  | _, _ => false
  end.
Definition subscribed_to (subject : string) : bool :=
  existsb (fun p => matches (Channels.segments p) (Channels.segments subject))
    (concat (Channels.nats_patterns <$> Channel.ALL)).

(** Three of the nine sources of alerts are never subscribed to. *)
Lemma alert_sources_not_subscribed :
  Forall (fun s => is_some (Alerts.severity_for_subject s) = true /\ subscribed_to s = false)
    ["obs.error.exec"; "ai.gov.action"; "ai.ollama.degraded"]
  /\ subscribed_to "md.connection.nse_l1" = true.
Proof. vm_compute. split; [repeat constructor | reflexivity]. Qed.
