(* ===== verification/Signals.v ===== *)
(** The signal engine of crates/hedge-signals: context.rs, gating.rs, the strategies
    (strategies/*.rs), and the evaluation and configuration of engine.rs and bin/main.rs.
    The trait Strategy is a record of its three methods; the options cache and the local
    time of a timestamp are parameters. *)

From S2P Require Import Prelude Ieee Core Schemas Features LiveRoute.

(** ** What a strategy sees (context.rs) *)

(** The map of toggles, by wire byte. *)
Abbreviation StrategyToggles := (gmap Z bool).

Module Toggles.
Definition insert (m : StrategyToggles) (id : StrategyId.t) (b : bool) : StrategyToggles :=
  <[StrategyId.as_u8 id := b]> m.
Definition all_enabled : StrategyToggles :=
  foldl (fun m id => insert m id true) ∅
    [StrategyId.OpeningRangeBreakout; StrategyId.VwapPullback; StrategyId.MomentumBreakout;
     StrategyId.LiquiditySweepReversal; StrategyId.OptionsOiExpansionBreakout;
     StrategyId.VolatilityCompressionBreakout].
Definition with_disabled (m : StrategyToggles) (id : StrategyId.t) : StrategyToggles := insert m id false.
Definition is_enabled (m : StrategyToggles) (id : StrategyId.t) : bool := unwrap_or true (m !! StrategyId.as_u8 id).
End Toggles.

Record NewsGates := mk_NewsGates { blocked_sectors : list Z; blocked_symbols : list Z }.
Definition no_news : NewsGates := mk_NewsGates [] [].
Definition is_symbol_blocked (n : NewsGates) (sym : Z) : bool := existsb (Z.eqb sym) (blocked_symbols n).
Definition is_sector_blocked (n : NewsGates) (sector : Z) : bool := existsb (Z.eqb sector) (blocked_sectors n).

Record PreviousDayMemory := mk_PreviousDayMemory {
  pd_symbol : Z; pd_open_paise : Z; pd_high_paise : Z; pd_low_paise : Z; pd_close_paise : Z; pd_vwap_paise : Z;
}.

Record StrategyContext := mk_StrategyContext {
  regime : Regime.t;
  trader_config : StrategyToggles;
  war_mode : bool;
  war_mode_min_confidence : f32;
  previous_day : option PreviousDayMemory;
  news_gates : NewsGates;
}.

(** ** Helpers (strategies/util.rs) *)

Module Util.
Definition DEFAULT_MAX_SIZE_QTY : Z := 100.
Definition DEFAULT_TIME_HORIZON_SECONDS : Z := 300.
Definition STOP_LOSS_ATR_MULT : f64 := f64_lit 15 10.
Definition TAKE_PROFIT_ATR_MULT : f64 := f64_lit 25 10.
Definition F32_EPSILON : f32 := f32_lit 1 8388608.

Definition clamp01 (v : f32) : f32 :=
  if f_is_nan v || f_lt v f_zero then f_zero else if f_gt v f32_one then f32_one else v.

Definition risk_profile_for (entry_paise : Z) (side : Side.t) (atr_paise : Z) : RiskProfile :=
  let stop_dist := f_round_as_i64 (f64_mul (f64_of_Z atr_paise) STOP_LOSS_ATR_MULT) in
  let tp_dist := f_round_as_i64 (f64_mul (f64_of_Z atr_paise) TAKE_PROFIT_ATR_MULT) in
  let '(stop_loss, take_profit) :=
    match side with
    | Side.Buy => (i64_sat_sub entry_paise stop_dist, i64_sat_add entry_paise tp_dist)
    | Side.Sell => (i64_sat_add entry_paise stop_dist, i64_sat_sub entry_paise tp_dist)
    end in
  mk_RiskProfile stop_loss take_profit DEFAULT_MAX_SIZE_QTY DEFAULT_TIME_HORIZON_SECONDS.

Definition build_signal (correlation_id : list Z) (strategy_id : StrategyId.t) (symbol : Z) (side : Side.t)
    (base_probability confidence : f32) (risk_profile : RiskProfile) (ts_ns : Z) : Signal :=
  mk_Signal correlation_id (StrategyId.as_u8 strategy_id) symbol (Side.as_u8 side)
    (clamp01 base_probability) (clamp01 confidence) risk_profile ts_ns.

Definition meets_war_mode_floor (confidence : f32) (ctx : StrategyContext) : bool :=
  if negb (war_mode ctx) then true
  else f_ge (f32_add confidence F32_EPSILON) (war_mode_min_confidence ctx).

(** The literals of the strategies. *)
Definition half : f32 := f32_lit 1 2.
Definition quarter : f32 := f32_lit 1 4.
Definition mix (a : f32) (x : f32) (b : f32) (y : f32) : f32 := f32_add (f32_mul a x) (f32_mul b y).
End Util.
Import Util.

(** ** The strategies *)

Record Strategy := mk_Strategy {
  id : StrategyId.t;
  evaluate : FeatureSnapshot -> StrategyContext -> option Signal;
  enabled_in : Regime.t -> bool;
}.

(** The call every strategy ends with. *)
Definition signal_of (sid : StrategyId.t) (snap : FeatureSnapshot) (side : Side.t)
    (base_probability confidence : f32) (rp : RiskProfile) : option Signal :=
  Some (build_signal (fs_correlation_id snap) sid (fs_symbol snap) side base_probability confidence rp
          (fs_ts_ns snap)).

(** [matches!(regime, Sideways | LiquidityCrisis | LowParticipation)], negated. *)
Definition breakout_regimes (r : Regime.t) : bool :=
  match r with
  | Regime.Sideways | Regime.LiquidityCrisis | Regime.LowParticipation => false
  | _ => true
  end.

(** True when a slope or strength does not point to [side]. *)
Definition against (side : Side.t) (x : f32) : bool :=
  match side with Side.Buy => f_le x f_zero | Side.Sell => f_ge x f_zero end.

Module OpeningRangeBreakout.
Definition ORB_BREAKOUT_PRESSURE_MIN : f32 := half.
Definition ORB_EMA_SLOPE_MIN : f32 := f32_lit 1 10.

Definition evaluate (snap : FeatureSnapshot) (ctx : StrategyContext) : option Signal :=
  let pressure := breakout_pressure snap in
  if f_lt (f_abs pressure) ORB_BREAKOUT_PRESSURE_MIN then None
  else
    let side := if f_gt pressure f_zero then Side.Buy else Side.Sell in
    let slope := ema_slope snap in
    if f_lt (f_abs slope) ORB_EMA_SLOPE_MIN || against side slope then None
    else
      let reference_level :=
        (fun p => match side with Side.Buy => pd_high_paise p | Side.Sell => pd_low_paise p end)
        <$> previous_day ctx in
      let short_of_level :=
        match reference_level with
        | Some level =>
          (0 <? level) && (match side with Side.Buy => vwap snap <? level | Side.Sell => level <? vwap snap end)
        | None => false
        end in
      if short_of_level then None
      else
        signal_of StrategyId.OpeningRangeBreakout snap side
          (clamp01 (f32_add half (f32_mul half (f_min (f_abs pressure) f32_one))))
          (clamp01 (f_abs pressure)) (risk_profile_for (vwap snap) side (atr snap)).
End OpeningRangeBreakout.

Module VwapPullback.
Definition VWAP_PULLBACK_BAND_ATR_RATIO : f64 := f64_lit 1 2.

Definition evaluate (snap : FeatureSnapshot) (ctx : StrategyContext) : option Signal :=
  if atr snap <=? 0 then None
  else
    let band := f_as_i64 (f64_mul (f64_of_Z (atr snap)) VWAP_PULLBACK_BAND_ATR_RATIO) in
    if band <=? 0 then None
    else
      let mark := ema_fast snap in
      let dist := i64_abs (i64_sub mark (vwap snap)) in
      if band <? dist then None
      else
        let trend_long := ema_slow snap <? ema_fast snap in
        let trend_short := ema_fast snap <? ema_slow snap in
        if negb trend_long && negb trend_short then None
        else
          let side := if trend_long then Side.Buy else Side.Sell in
          if (match side with Side.Buy => mark <? vwap snap | Side.Sell => vwap snap <? mark end) then None
          else
            let normalized_dist := f64_to_f32 (f64_div (f64_of_Z dist) (f64_of_Z band)) in
            let ema_gap := f64_of_Z (i64_abs (i64_sub (ema_fast snap) (ema_slow snap))) in
            let normalized_gap := f64_to_f32
              (f_min (f64_div ema_gap (f_max (f64_of_Z (atr snap)) f64_one)) f64_one) in
            signal_of StrategyId.VwapPullback snap side
              (clamp01 (f32_add half (f32_mul quarter normalized_gap)))
              (clamp01 (mix half (f32_sub f32_one normalized_dist) half normalized_gap))
              (risk_profile_for mark side (atr snap)).
End VwapPullback.

Module MomentumBreakout.
Definition MOMENTUM_MIN : f32 := f32_lit 5 1000.
Definition BREAKOUT_PRESSURE_MIN : f32 := half.

Definition side_of (snap : FeatureSnapshot) : option Side.t :=
  if f_gt (momentum snap) f_zero && f_gt (breakout_pressure snap) f_zero && f_gt (ema_slope snap) f_zero
  then Some Side.Buy
  else if f_lt (momentum snap) f_zero && f_lt (breakout_pressure snap) f_zero && f_lt (ema_slope snap) f_zero
  then Some Side.Sell else None.

Definition evaluate (snap : FeatureSnapshot) (ctx : StrategyContext) : option Signal :=
  if f_lt (f_abs (momentum snap)) MOMENTUM_MIN then None
  else if f_lt (f_abs (breakout_pressure snap)) BREAKOUT_PRESSURE_MIN then None
  else
    side ← side_of snap;
    if (match side with
        | Side.Buy => ema_fast snap <=? ema_slow snap
        | Side.Sell => ema_slow snap <=? ema_fast snap
        end) then None
    else
      let pressure := f_min (f_abs (breakout_pressure snap)) f32_one in
      let mom_norm := f_min (f32_div (f_abs (momentum snap)) (f32_lit 5 100)) f32_one in
      let entry := if 0 <? ema_fast snap then ema_fast snap else vwap snap in
      signal_of StrategyId.MomentumBreakout snap side
        (clamp01 (f32_add (f32_add half (f32_mul quarter pressure)) (f32_mul quarter mom_norm)))
        (clamp01 (mix half pressure half mom_norm)) (risk_profile_for entry side (atr snap)).
End MomentumBreakout.

Module LiquiditySweepReversal.
Definition SWEEP_MIN : f32 := half.
Definition ORDERFLOW_STRENGTH_MIN : f32 := f32_lit 2 10.

Definition evaluate (snap : FeatureSnapshot) (ctx : StrategyContext) : option Signal :=
  if f_lt (f_abs (liquidity_sweep snap)) SWEEP_MIN then None
  else
    let side := if f_gt (liquidity_sweep snap) f_zero then Side.Sell else Side.Buy in
    if against side (ema_slope snap) then None
    else
      let strength := orderflow_strength snap in
      if f_lt (f_abs strength) ORDERFLOW_STRENGTH_MIN || against side strength then None
      else
        let sweep_mag := f_min (f_abs (liquidity_sweep snap)) f32_one in
        let of_mag := f_min (f_abs strength) f32_one in
        let entry := if 0 <? vwap snap then vwap snap else ema_fast snap in
        signal_of StrategyId.LiquiditySweepReversal snap side
          (clamp01 (f32_add (f32_add half (f32_mul quarter sweep_mag)) (f32_mul quarter of_mag)))
          (clamp01 (mix half sweep_mag half of_mag)) (risk_profile_for entry side (atr snap)).
Definition enabled_in (r : Regime.t) : bool :=
  match r with Regime.Trending | Regime.LiquidityCrisis => false | _ => true end.
End LiquiditySweepReversal.

Module OptionsOiExpansionBreakout.
Definition OI_BREAKOUT_PRESSURE_MIN : f32 := f32_lit 4 10.
(** [OiCache::fresh_expansion]. *)
Definition OiCache : Type := Z -> Side.t -> option bool.

Definition evaluate (cache : option OiCache) (snap : FeatureSnapshot) (ctx : StrategyContext) : option Signal :=
  fresh_expansion ← cache;
  let pressure := breakout_pressure snap in
  if f_lt (f_abs pressure) OI_BREAKOUT_PRESSURE_MIN then None
  else
    let side := if f_gt pressure f_zero then Side.Buy else Side.Sell in
    fresh ← fresh_expansion (fs_symbol snap) side;
    if negb fresh then None
    else
      let entry := if 0 <? vwap snap then vwap snap else ema_fast snap in
      signal_of StrategyId.OptionsOiExpansionBreakout snap side
        (clamp01 (f32_add half (f32_mul half (f_min (f_abs pressure) f32_one))))
        (clamp01 (f_abs pressure)) (risk_profile_for entry side (atr snap)).
End OptionsOiExpansionBreakout.

Module VolatilityCompressionBreakout.
Definition COMPRESSION_MIN : f32 := half.
Definition BREAKOUT_PRESSURE_MIN : f32 := half.

Definition evaluate (snap : FeatureSnapshot) (ctx : StrategyContext) : option Signal :=
  if f_le (compression_zone snap) COMPRESSION_MIN then None
  else if f_le (f_abs (breakout_pressure snap)) BREAKOUT_PRESSURE_MIN then None
  else
    let side := if f_gt (breakout_pressure snap) f_zero then Side.Buy else Side.Sell in
    let comp := f_max (f_min (compression_zone snap) f32_one) f_zero in
    let pres := f_min (f_abs (breakout_pressure snap)) f32_one in
    let entry := if 0 <? vwap snap then vwap snap else ema_fast snap in
    signal_of StrategyId.VolatilityCompressionBreakout snap side
      (clamp01 (f32_add (f32_add half (f32_mul quarter comp)) (f32_mul quarter pres)))
      (clamp01 (mix half comp half pres)) (risk_profile_for entry side (atr snap)).
Definition enabled_in (r : Regime.t) : bool :=
  match r with Regime.Trending | Regime.Panic => false | _ => true end.
End VolatilityCompressionBreakout.

(** [str::contains]. *)
Definition contains (needle hay : string) : bool := is_some (String.index 0 needle hay).

(** The stop and the target that two strategies compute themselves, [k] times as far. *)
Definition distances (k : f64) (atr_paise : Z) : Z * Z :=
  let atr_f := if 0 <? atr_paise then f64_of_Z atr_paise else f64_of_Z 50 in
  let stop_distance := f64_mul (f64_lit 15 10) atr_f in
  (f_round_as_i64 stop_distance, f_round_as_i64 (f64_mul stop_distance k)).
Definition override (rp : RiskProfile) (side : Side.t) (price : Z) (d : Z * Z) : RiskProfile :=
  let '(stop, target) := d in
  match side with
  | Side.Buy => mk_RiskProfile (as_i64 (price - stop)) (as_i64 (price + target))
                  (max_size_qty rp) (time_horizon_seconds rp)
  | Side.Sell => mk_RiskProfile (as_i64 (price + stop)) (as_i64 (price - target))
                   (max_size_qty rp) (time_horizon_seconds rp)
  end.

Module CompositeAlphaBreakout.
Definition evaluate (snap : FeatureSnapshot) (ctx : StrategyContext) : option Signal :=
  let sym_name := unwrap_or EmptyString (SymbolTable.symbol_for_id (fs_symbol snap)) in
  if negb (contains "Nifty" sym_name) then None
  else
    let p := price snap in
    let trend_long := (ema_fast snap <? p) && (ema_trend snap <? ema_slow snap) in
    let trend_short := (p <? ema_fast snap) && (ema_slow snap <? ema_trend snap) in
    if atr snap <? 100 then None
    else
      let donchian_breakout := donchian_upper snap <=? p in
      let donchian_breakdown := p <=? donchian_lower snap in
      if negb donchian_breakout && negb donchian_breakdown then None
      else
        let side := if donchian_breakout then Side.Buy else Side.Sell in
        if (match side with Side.Buy => negb trend_long | Side.Sell => negb trend_short end) then None
        else
          signal_of StrategyId.CompositeAlphaBreakout snap side
            (clamp01 (f32_add (f32_lit 75 100) (f32_mul (f32_lit 1 10) (f_abs (momentum snap)))))
            (clamp01 (f32_add (f32_lit 8 10) (f32_mul (f32_lit 2 10) (f_abs (orderflow_strength snap)))))
            (override (risk_profile_for p side (atr snap)) side p (distances (f64_of_Z 3) (atr snap))).
Definition enabled_in (r : Regime.t) : bool :=
  match r with Regime.Trending | Regime.HighVolatility => true | _ => false end.
End CompositeAlphaBreakout.

Module PrecisionBreakoutPro.
Section precision.
(** The local hour and minute of a timestamp in seconds. *)
Context (local_time : Z -> Z * Z).

Definition evaluate (snap : FeatureSnapshot) (ctx : StrategyContext) : option Signal :=
  let '(hour, minute) := local_time (fs_ts_ns snap / 1000000000) in
  let time_valid := ((hour =? 9) && (30 <=? minute)) || ((9 <? hour) && (hour <? 14))
                    || ((hour =? 14) && (minute <=? 45)) in
  if negb time_valid then None
  else
    let p := price snap in
    let is_long := donchian_upper snap <=? p in
    let is_short := p <=? donchian_lower snap in
    let signal side :=
      signal_of StrategyId.CompositeAlphaBreakout snap side (f32_lit 8 10) f32_one
        (override (risk_profile_for p side (atr snap)) side p (distances (f64_lit 25 10) (atr snap))) in
    if is_long then signal Side.Buy else if is_short then signal Side.Sell else None.
End precision.
End PrecisionBreakoutPro.

(** ** The gates (gating.rs) *)

Module GateReason.
Inductive t := TraderToggle | RegimeBlocked | NewsBlocked | WarModeConfidenceTooLow.
Definition as_str (r : t) : string :=
  match r with
  | TraderToggle => "trader_toggle" | RegimeBlocked => "regime_blocked" | NewsBlocked => "news_blocked"
  | WarModeConfidenceTooLow => "war_mode_confidence_too_low"
  end.
End GateReason.

Inductive GateOutcome := Allowed | Blocked (r : GateReason.t).
Definition is_allowed (o : GateOutcome) : bool := match o with Allowed => true | Blocked _ => false end.

Definition check_trader_toggle (sid : StrategyId.t) (ctx : StrategyContext) : GateOutcome :=
  if Toggles.is_enabled (trader_config ctx) sid then Allowed else Blocked GateReason.TraderToggle.
Definition check_regime (s : Strategy) (ctx : StrategyContext) : GateOutcome :=
  if enabled_in s (regime ctx) then Allowed else Blocked GateReason.RegimeBlocked.
Definition check_news (symbol : Z) (sector : option Z) (ctx : StrategyContext) : GateOutcome :=
  if is_symbol_blocked (news_gates ctx) symbol then Blocked GateReason.NewsBlocked
  else
    match sector with
    | Some sec => if is_sector_blocked (news_gates ctx) sec then Blocked GateReason.NewsBlocked else Allowed
    | None => Allowed
    end.
Definition check_gates (s : Strategy) (ctx : StrategyContext) (symbol : Z) (sector : option Z) : GateOutcome :=
  match check_trader_toggle (id s) ctx with
  | Blocked r => Blocked r
  | Allowed =>
    match check_regime s ctx with
    | Blocked r => Blocked r
    | Allowed => match check_news symbol sector ctx with Blocked r => Blocked r | Allowed => Allowed end
    end
  end.
Definition check_war_mode (sig : Signal) (ctx : StrategyContext) : GateOutcome :=
  if negb (war_mode ctx) then Allowed
  else if f_lt (f32_add (sig_confidence sig) F32_EPSILON) (war_mode_min_confidence ctx)
  then Blocked GateReason.WarModeConfidenceTooLow else Allowed.

(** ** The engine (engine.rs) *)

Record SignalEngineConfig := mk_SignalEngineConfig {
  cfg_regime : Regime.t;
  cfg_toggles : StrategyToggles;
  cfg_war_mode : bool;
  cfg_war_mode_min_confidence : f32;
  cfg_news_gates : NewsGates;
}.
Definition default_config : SignalEngineConfig :=
  mk_SignalEngineConfig Regime.Trending Toggles.all_enabled false (f32_lit 7 10) no_news.

Definition context_of (cfg : SignalEngineConfig) (prev : option PreviousDayMemory) : StrategyContext :=
  mk_StrategyContext (cfg_regime cfg) (cfg_toggles cfg) (cfg_war_mode cfg)
    (cfg_war_mode_min_confidence cfg) prev (cfg_news_gates cfg).

Definition evaluate_strategies (strategies : list Strategy) (snap : FeatureSnapshot)
    (cfg : SignalEngineConfig) (prev : option PreviousDayMemory) : list Signal :=
  let symbol := fs_symbol snap in
  let ctx := context_of cfg prev in
  foldl (fun out s =>
    if negb (is_allowed (check_gates s ctx symbol None)) then out
    else
      match evaluate s snap ctx with
      | None => out
      | Some sig => if negb (is_allowed (check_war_mode sig ctx)) then out else out ++ [sig]
      end) [] strategies.

(** The seven strategies of [new_default], in order; the options cache is not wired. *)
Definition default_strategies : list Strategy :=
  [mk_Strategy StrategyId.OpeningRangeBreakout OpeningRangeBreakout.evaluate breakout_regimes;
   mk_Strategy StrategyId.VwapPullback VwapPullback.evaluate breakout_regimes;
   mk_Strategy StrategyId.MomentumBreakout MomentumBreakout.evaluate breakout_regimes;
   mk_Strategy StrategyId.LiquiditySweepReversal LiquiditySweepReversal.evaluate
     LiquiditySweepReversal.enabled_in;
   mk_Strategy StrategyId.OptionsOiExpansionBreakout (OptionsOiExpansionBreakout.evaluate None)
     breakout_regimes;
   mk_Strategy StrategyId.VolatilityCompressionBreakout VolatilityCompressionBreakout.evaluate
     VolatilityCompressionBreakout.enabled_in;
   mk_Strategy StrategyId.CompositeAlphaBreakout CompositeAlphaBreakout.evaluate
     CompositeAlphaBreakout.enabled_in].

Module SignalEngine.
Record t := mk {
  strategies : list Strategy;
  config : SignalEngineConfig;
  previous_days : gmap Z PreviousDayMemory;
}.
Definition new_with (ss : list Strategy) : t := mk ss default_config ∅.
Definition new_default : t := new_with default_strategies.
Definition update_config (e : t) (f : SignalEngineConfig -> SignalEngineConfig) : t :=
  mk (strategies e) (f (config e)) (previous_days e).
Definition upsert_previous_day (e : t) (prev : PreviousDayMemory) : t :=
  mk (strategies e) (config e) (<[pd_symbol prev := prev]> (previous_days e)).
Definition evaluate (e : t) (snap : FeatureSnapshot) : list Signal :=
  evaluate_strategies (strategies e) snap (config e) (previous_days e !! fs_symbol snap).

(** What becomes of a signal that is published: the bus comes first, then the stream, when there is
    one; either may fail. *)
Inductive Delivery := Delivered | BusFailed | StreamFailed.

(** [ingest_feature_snapshot]: publishing stops at the first failure, and what reached the bus before
    it stays published. *)
Fixpoint publish_all (publish : Signal -> Delivery) (sigs : list Signal) : list Signal * bool :=
  match sigs with
  | [] => ([], true)
  | s :: sigs =>
    match publish s with
    | Delivered => let '(out, ok) := publish_all publish sigs in (s :: out, ok)
    | BusFailed => ([], false)
    | StreamFailed => ([s], false)
    end
  end.
Definition ingest_feature_snapshot (publish : Signal -> Delivery) (e : t) (snap : FeatureSnapshot) :
    list Signal * option Z :=
  let signals := evaluate e snap in
  let '(out, ok) := publish_all publish signals in
  (out, if ok then Some (Z.of_nat (length signals)) else None).

(** The two subscriptions of bin/main.rs; the phase of the payload is only logged. *)
Record WarModePayload := mk_WarModePayload { wm_phase : string; wm_min_confidence : f32; wm_scan_multiplier : f32 }.
Definition on_warmode_start (e : t) (p : WarModePayload) : t :=
  update_config e (fun c => mk_SignalEngineConfig (cfg_regime c) (cfg_toggles c) true
                              (wm_min_confidence p) (cfg_news_gates c)).
Definition on_warmode_end (e : t) (p : WarModePayload) : t :=
  update_config e (fun c => mk_SignalEngineConfig (cfg_regime c) (cfg_toggles c) false
                              (cfg_war_mode_min_confidence c) (cfg_news_gates c)).
End SignalEngine.
