(* ===== verification/SignalFacts.v ===== *)
(** What the strategies and the gates of Signals.v guarantee. *)

From S2P Require Import Prelude Ieee Core Schemas Features Signals.
Import Util.

(** ** Scores *)

Definition unit_score (x : f32) : Prop :=
  f_is_nan x = false /\ f_le f_zero x = true /\ f_le x f32_one = true.

Lemma clamp01_unit v : unit_score (clamp01 v).
Proof.
  unfold clamp01. destruct (f_is_nan v) eqn:Hn; [by split_and! |]. cbn [orb].
  destruct (f_lt v f_zero) eqn:H1; [by split_and! |].
  destruct (f_gt v f32_one) eqn:H2; [by split_and! |].
  split_and!; [done | by apply f_lt_false_le | by apply f_lt_false_le].
Qed.

(** ** Brackets: the stop on the losing side of an entry price, the target on the winning one *)

Definition brackets (side : Side.t) (entry : Z) (rp : RiskProfile) : Prop :=
  match side with
  | Side.Buy => stop_loss_paise rp <= entry <= take_profit_paise rp
  | Side.Sell => take_profit_paise rp <= entry <= stop_loss_paise rp
  end.

Lemma atr_distance_nonneg k atr : f_unsigned k -> 0 <= atr ->
  0 <= f_round_as_i64 (f64_mul (f64_of_Z atr) k) <= i64_max.
Proof. intros Hk Ha. by apply f_round_nonneg_result, f64_mul_unsigned; [apply f64_of_Z_unsigned |]. Qed.

Lemma risk_profile_brackets entry side atr : i64_ok entry -> 0 <= atr ->
  brackets side entry (risk_profile_for entry side atr).
Proof.
  intros He Ha. unfold risk_profile_for.
  pose proof (atr_distance_nonneg STOP_LOSS_ATR_MULT atr ltac:(done) Ha) as H1.
  pose proof (atr_distance_nonneg TAKE_PROFIT_ATR_MULT atr ltac:(done) Ha) as H2.
  set (d1 := f_round_as_i64 (f64_mul (f64_of_Z atr) STOP_LOSS_ATR_MULT)) in *.
  set (d2 := f_round_as_i64 (f64_mul (f64_of_Z atr) TAKE_PROFIT_ATR_MULT)) in *. clearbody d1 d2.
  unfold_ok. destruct side; cbn; unfold i64_sat_sub, i64_sat_add; split; sat_lia.
Qed.

Lemma distances_bounds k atr : f_unsigned k -> f64_valid k -> f_below 1 k -> 0 <= atr < 2 ^ 50 ->
  0 <= (distances k atr).1 <= 2 ^ 57 /\ 0 <= (distances k atr).2 <= 2 ^ 57.
Proof.
  intros Hk Vk Bk Ha. unfold distances.
  set (a := if 0 <? atr then f64_of_Z atr else f64_of_Z 50).
  assert (f_unsigned a /\ f64_valid a /\ f_below 50 a) as (Ua & Va & Ba).
  { unfold a. destruct (Z.ltb_spec 0 atr); [| split_and!; [done | done | vm_compute; discriminate]].
    split_and!; [apply f64_of_Z_unsigned; lia | apply f64_of_Z_valid |].
    assert (Z.log2 (Z.abs atr) < 50) by (apply Z.log2_lt_pow2; lia).
    eapply (f_within_below 53 1024); [apply binary_normalize_within; lia | lia | lia]. }
  clearbody a. cbn [fst snd].
  assert (f_unsigned (f64_mul (f64_lit 15 10) a)) as U1 by (by apply f64_mul_unsigned).
  assert (f64_valid (f64_mul (f64_lit 15 10) a)) as V1 by (by apply f64_mul_valid).
  assert (f_below 52 (f64_mul (f64_lit 15 10) a)) as B1.
  { by apply (SFmul_below 53 1024 ltac:(lia) ltac:(lia) 0 50). }
  set (s := f64_mul (f64_lit 15 10) a) in *. clearbody s.
  assert (f_below 55 (f64_mul s k)) as B2 by (by apply (SFmul_below 53 1024 ltac:(lia) ltac:(lia) 52 1)).
  pose proof (f_round_bounds 52 s U1 B1 ltac:(lia)) as [? ?].
  pose proof (f_round_bounds 55 (f64_mul s k) ltac:(by apply f64_mul_unsigned) B2 ltac:(lia)) as [? ?].
  assert (2 ^ (52 + 1) <= 2 ^ 57 /\ 2 ^ (55 + 1) <= 2 ^ 57) as [? ?] by (split; apply Z.pow_le_mono_r; lia).
  lia.
Qed.

Lemma override_brackets rp side p d : 0 <= p < 2 ^ 62 -> 0 <= d.1 <= 2 ^ 57 -> 0 <= d.2 <= 2 ^ 57 ->
  brackets side p (override rp side p d).
Proof.
  intros Hp. destruct d as [stop target]. cbn [fst snd]. intros H1 H2. unfold override.
  destruct side; cbn; rewrite !as_i64_id by (unfold_ok; lia); lia.
Qed.

(** ** Signals *)

(** Prices below 2^62 paise, ranges below 2^50. *)
Definition snapshot_ok (snap : FeatureSnapshot) : Prop :=
  0 <= price snap < 2 ^ 62 /\ i64_ok (vwap snap) /\ i64_ok (ema_fast snap) /\ 0 <= atr snap < 2 ^ 50.

Definition well_formed (snap : FeatureSnapshot) (sig : Signal) : Prop :=
  sig_correlation_id sig = fs_correlation_id snap
  /\ sig_symbol sig = fs_symbol snap /\ sig_ts_ns sig = fs_ts_ns snap
  /\ is_some (StrategyId.from_u8 (sig_strategy sig)) = true
  /\ unit_score (sig_base_probability sig) /\ unit_score (sig_confidence sig)
  /\ exists side entry, sig_side sig = Side.as_u8 side
     /\ entry ∈ [price snap; vwap snap; ema_fast snap]
     /\ brackets side entry (sig_risk_profile sig).

Lemma signal_of_well_formed sid snap side bp conf rp entry sig :
  signal_of sid snap side bp conf rp = Some sig ->
  entry ∈ [price snap; vwap snap; ema_fast snap] -> brackets side entry rp -> well_formed snap sig.
Proof.
  intros [= <-] He Hb. split_and!; try done; try apply clamp01_unit; [by destruct sid |].
  by exists side, entry.
Qed.

Lemma profile_well_formed sid snap side bp conf entry sig : snapshot_ok snap ->
  entry = vwap snap \/ entry = ema_fast snap ->
  signal_of sid snap side bp conf (risk_profile_for entry side (atr snap)) = Some sig ->
  well_formed snap sig.
Proof.
  intros (_ & Hv & He & Ha) Hentry Hs. eapply (signal_of_well_formed _ _ _ _ _ _ entry); [exact Hs | |].
  - rewrite !elem_of_cons. tauto.
  - apply risk_profile_brackets; [by destruct Hentry as [-> | ->] | lia].
Qed.

Lemma override_well_formed sid snap side bp conf rp k sig : snapshot_ok snap ->
  f_unsigned k -> f64_valid k -> f_below 1 k ->
  signal_of sid snap side bp conf (override rp side (price snap) (distances k (atr snap))) = Some sig ->
  well_formed snap sig.
Proof.
  intros (Hp & _ & _ & Ha) Hk Vk Bk Hs.
  eapply (signal_of_well_formed _ _ _ _ _ _ (price snap)); [exact Hs | apply list_elem_of_here |].
  apply override_brackets; [done | |]; by apply distances_bounds.
Qed.

Lemma entry_choice (b : bool) (x y : Z) : (if b then x else y) = x \/ (if b then x else y) = y.
Proof. destruct b; auto. Qed.

(** Walk down the guards of a strategy to its signal. *)
Ltac walk :=
  repeat match goal with
  | |- (if ?b then None else _) = Some _ -> _ => destruct b; [discriminate |]
  | |- mbind _ ?o = Some _ -> _ => let E := fresh in destruct o as [? |] eqn:E; [cbn [mbind option_bind] | discriminate]
  end.

(** The strategies whose signals the lemmas above cover, whatever the regime allows. *)
Definition sound (ev : FeatureSnapshot -> StrategyContext -> option Signal) : Prop :=
  forall snap ctx sig, snapshot_ok snap -> ev snap ctx = Some sig -> well_formed snap sig.

Lemma orb_sound : sound OpeningRangeBreakout.evaluate.
Proof.
  intros snap ctx sig Hok. unfold OpeningRangeBreakout.evaluate. cbv zeta. walk.
  apply profile_well_formed; auto.
Qed.
Lemma vwap_pullback_sound : sound VwapPullback.evaluate.
Proof.
  intros snap ctx sig Hok. unfold VwapPullback.evaluate. cbv zeta. walk.
  apply profile_well_formed; auto.
Qed.
Lemma momentum_sound : sound MomentumBreakout.evaluate.
Proof.
  intros snap ctx sig Hok. unfold MomentumBreakout.evaluate. cbv zeta. walk.
  apply profile_well_formed; [done |]. destruct (entry_choice (0 <? ema_fast snap) (ema_fast snap) (vwap snap)); auto.
Qed.
Lemma sweep_sound : sound LiquiditySweepReversal.evaluate.
Proof.
  intros snap ctx sig Hok. unfold LiquiditySweepReversal.evaluate. cbv zeta. walk.
  apply profile_well_formed; [done | apply entry_choice].
Qed.
Lemma options_sound cache : sound (OptionsOiExpansionBreakout.evaluate cache).
Proof.
  intros snap ctx sig Hok. unfold OptionsOiExpansionBreakout.evaluate. walk. cbv zeta. walk.
  apply profile_well_formed; [done | apply entry_choice].
Qed.
Lemma compression_sound : sound VolatilityCompressionBreakout.evaluate.
Proof.
  intros snap ctx sig Hok. unfold VolatilityCompressionBreakout.evaluate. cbv zeta. walk.
  apply profile_well_formed; [done | apply entry_choice].
Qed.
Lemma composite_sound : sound CompositeAlphaBreakout.evaluate.
Proof.
  intros snap ctx sig Hok. unfold CompositeAlphaBreakout.evaluate. cbv zeta. walk.
  by apply override_well_formed.
Qed.
Lemma precision_sound local_time : sound (PrecisionBreakoutPro.evaluate local_time).
Proof.
  intros snap ctx sig Hok. unfold PrecisionBreakoutPro.evaluate.
  destruct (local_time _) as [hour minute]. cbv zeta. walk.
  destruct (_ <=? _); [| walk].
  - by apply override_well_formed.
  - destruct (_ <=? _); [| discriminate]. by apply override_well_formed.
Qed.

#[export] Hint Resolve orb_sound vwap_pullback_sound momentum_sound sweep_sound options_sound
  compression_sound composite_sound precision_sound : hedge.

Lemma default_sound : Forall (fun s => sound (evaluate s)) default_strategies.
Proof.
  unfold default_strategies. rewrite !Forall_cons, Forall_nil. cbn [evaluate]. split_and!; auto with hedge.
Qed.

(** ** The gates *)

(** What has to hold for a strategy to be asked. *)
Definition admitted (cfg : SignalEngineConfig) (symbol : Z) (s : Strategy) : Prop :=
  Toggles.is_enabled (cfg_toggles cfg) (id s) = true
  /\ enabled_in s (cfg_regime cfg) = true
  /\ is_symbol_blocked (cfg_news_gates cfg) symbol = false.

(** What has to hold for its signal to be kept. *)
Definition above_floor (cfg : SignalEngineConfig) (sig : Signal) : bool :=
  negb (f_lt (f32_add (sig_confidence sig) F32_EPSILON) (cfg_war_mode_min_confidence cfg)).

Lemma check_gates_spec cfg prev s symbol :
  is_allowed (check_gates s (context_of cfg prev) symbol None) = true <-> admitted cfg symbol s.
Proof.
  unfold check_gates, check_trader_toggle, check_regime, check_news, admitted. cbn [context_of trader_config regime news_gates].
  destruct (Toggles.is_enabled _ _); [| split; [done | by intros (? & _)]].
  destruct (enabled_in _ _); [| split; [done | by intros (_ & ? & _)]].
  destruct (is_symbol_blocked _ _); split; try done. by intros (_ & _ & ?).
Qed.

Definition kept (cfg : SignalEngineConfig) (snap : FeatureSnapshot) (prev : option PreviousDayMemory)
    (s : Strategy) : option Signal :=
  if is_allowed (check_gates s (context_of cfg prev) (fs_symbol snap) None) then
    sig ← evaluate s snap (context_of cfg prev);
    if is_allowed (check_war_mode sig (context_of cfg prev)) then Some sig else None
  else None.

Lemma evaluate_strategies_omap ss snap cfg prev :
  evaluate_strategies ss snap cfg prev = omap (kept cfg snap prev) ss.
Proof.
  unfold evaluate_strategies. cbv zeta.
  match goal with |- foldl ?f _ _ = _ =>
    enough (forall out, foldl f out ss = out ++ omap (kept cfg snap prev) ss) as H by apply (H []) end.
  induction ss as [| s ss IH]; intros out; cbn [foldl]; [by rewrite app_nil_r |]. rewrite IH. csimpl.
  unfold kept at 2. destruct (is_allowed (check_gates _ _ _ _)); cbn [negb]; [| done].
  destruct (evaluate s snap _) as [sig |]; [| done]. cbn [mbind option_bind].
  destruct (is_allowed (check_war_mode _ _)); cbn [negb]; [| done]. by rewrite <- (assoc_L (++)).
Qed.

Lemma check_war_mode_spec cfg prev sig :
  is_allowed (check_war_mode sig (context_of cfg prev)) = negb (cfg_war_mode cfg) || above_floor cfg sig.
Proof.
  unfold check_war_mode, above_floor. cbn [context_of war_mode war_mode_min_confidence].
  destruct (cfg_war_mode cfg); cbn [negb orb]; [| done]. by destruct (f_lt _ _).
Qed.

(** A strategy that does not look at the war mode. *)
Definition blind (s : Strategy) : Prop :=
  forall snap r t w c w' c' p n,
    evaluate s snap (mk_StrategyContext r t w c p n) = evaluate s snap (mk_StrategyContext r t w' c' p n).

Lemma default_blind : Forall blind default_strategies.
Proof. repeat constructor; by intros snap r t w c w' c' p n. Qed.

Definition peace (cfg : SignalEngineConfig) : SignalEngineConfig :=
  mk_SignalEngineConfig (cfg_regime cfg) (cfg_toggles cfg) false (cfg_war_mode_min_confidence cfg)
    (cfg_news_gates cfg).

Lemma war_mode_kept s snap cfg prev : blind s -> cfg_war_mode cfg = true ->
  kept cfg snap prev s
  = sig ← kept (peace cfg) snap prev s; if above_floor cfg sig then Some sig else None.
Proof.
  intros Hb Hw. unfold kept.
  assert (check_gates s (context_of cfg prev) (fs_symbol snap) None
    = check_gates s (context_of (peace cfg) prev) (fs_symbol snap) None) as -> by reflexivity.
  destruct (is_allowed (check_gates _ _ _ _)); [| done].
  rewrite (Hb snap (cfg_regime cfg) (cfg_toggles cfg) (cfg_war_mode cfg) (cfg_war_mode_min_confidence cfg)
    false (cfg_war_mode_min_confidence cfg) prev (cfg_news_gates cfg) : evaluate s snap (context_of cfg prev)
      = evaluate s snap (context_of (peace cfg) prev)).
  destruct (evaluate s snap _) as [sig |]; [| done]. cbn [mbind option_bind].
  rewrite !check_war_mode_spec, Hw. cbn. by destruct (above_floor cfg sig).
Qed.

(** C32: every signal the default strategies emit carries the identity, symbol and time of its
    snapshot, a known strategy byte, scores that are numbers in [0, 1] whatever the
    indicators are (NaN included), and a stop and a target on the right sides of an entry
    price of the snapshot. *)
Theorem signals_are_well_formed (snap : FeatureSnapshot) (cfg : SignalEngineConfig)
    (prev : option PreviousDayMemory) (sig : Signal) :
  snapshot_ok snap -> sig ∈ evaluate_strategies default_strategies snap cfg prev -> well_formed snap sig.
Proof.
  intros Hok. rewrite evaluate_strategies_omap, list_elem_of_omap. intros (s & Hs & Hk).
  pose proof (proj1 (Forall_forall _ _) default_sound s Hs) as Hsound. revert Hk. unfold kept.
  destruct (is_allowed _); [| done]. destruct (evaluate s snap _) as [sig' |] eqn:E; [| done].
  cbn [mbind option_bind]. destruct (is_allowed _); [| done]. intros [= ->]. by eapply Hsound.
Qed.

(** A rising index over its channel, with a NaN momentum. *)
Module SignalSample.
Definition snap : FeatureSnapshot :=
  mk_FeatureSnapshot [1] 6 2500000 2490000 1000 2495000 2490000 2480000 f_zero f_zero S754_nan f_zero f_zero
    2500000 2400000 0 f_zero (f32_lit 9 10) 0 f_zero f_zero f_zero 77.
Definition signal : Signal :=
  mk_Signal [1] 6 6 0 f_zero (f32_add (f32_lit 8 10) (f32_mul (f32_lit 2 10) (f32_lit 9 10)))
    (mk_RiskProfile 2498500 2504500 100 300) 77.
End SignalSample.

Lemma signals_are_well_formed_witness :
  SignalSample.signal ∈ evaluate_strategies default_strategies SignalSample.snap default_config None
  /\ well_formed SignalSample.snap SignalSample.signal.
Proof.
  assert (evaluate_strategies default_strategies SignalSample.snap default_config None
    = [SignalSample.signal]) as E by (vm_compute; reflexivity).
  assert (SignalSample.signal ∈ evaluate_strategies default_strategies SignalSample.snap default_config None)
    as Hin by (rewrite E; apply list_elem_of_here).
  split; [exact Hin |].
  apply (signals_are_well_formed SignalSample.snap default_config None SignalSample.signal); [| exact Hin].
  unfold snapshot_ok. unfold_ok. cbn. lia.
Defined.

(** C11: a signal is emitted if and only if one of the strategies produces it, that strategy is
    switched on by the trader and enabled in the regime, its symbol is not blocked by the
    news, and in war mode its confidence reaches the floor; and for the default strategies war
    mode changes nothing but that last condition. *)
Theorem signal_gates_are_exact (snap : FeatureSnapshot) (cfg : SignalEngineConfig)
    (prev : option PreviousDayMemory) :
  (forall ss sig, sig ∈ evaluate_strategies ss snap cfg prev <->
    exists s, s ∈ ss /\ admitted cfg (fs_symbol snap) s
      /\ evaluate s snap (context_of cfg prev) = Some sig
      /\ (cfg_war_mode cfg = true -> above_floor cfg sig = true))
  /\ (cfg_war_mode cfg = true ->
      evaluate_strategies default_strategies snap cfg prev
      = filter (fun sig => above_floor cfg sig = true)
          (evaluate_strategies default_strategies snap (peace cfg) prev)).
Proof.
  split.
  - intros ss sig. rewrite evaluate_strategies_omap, list_elem_of_omap.
    split; intros (s & Hs & Hk); exists s; (split; [done |]); revert Hk; unfold kept.
    + rewrite <- (check_gates_spec cfg prev). destruct (is_allowed (check_gates _ _ _ _)); [| done].
      destruct (evaluate s snap _) as [sig' |] eqn:E; [| done]. cbn [mbind option_bind].
      rewrite check_war_mode_spec. destruct (cfg_war_mode cfg); cbn [negb orb].
      * destruct (above_floor cfg sig') eqn:F; [| done]. by intros [= ->].
      * by intros [= ->].
    + intros (Ha & E & Hw). apply (check_gates_spec cfg prev) in Ha. rewrite Ha, E. cbn [mbind option_bind].
      rewrite check_war_mode_spec. destruct (cfg_war_mode cfg); cbn [negb orb]; [| done].
      by rewrite Hw.
  - intros Hw. rewrite !evaluate_strategies_omap.
    pose proof default_blind as Hb. induction Hb as [| s ss Hs Hss IH]; [done |]. csimpl.
    rewrite (war_mode_kept s snap cfg prev Hs Hw).
    destruct (kept (peace cfg) snap prev s) as [sig |]; cbn [mbind option_bind]; [| done].
    rewrite filter_cons. destruct (above_floor cfg sig); [| by rewrite decide_False].
    rewrite decide_True by done. by rewrite IH.
Qed.

Lemma signal_gates_are_exact_witness :
  let cfg := mk_SignalEngineConfig Regime.Trending Toggles.all_enabled true (f32_lit 99 100) no_news in
  evaluate_strategies default_strategies SignalSample.snap (peace cfg) None = [SignalSample.signal]
  /\ evaluate_strategies default_strategies SignalSample.snap cfg None = [].
Proof.
  assert (evaluate_strategies default_strategies SignalSample.snap (peace (mk_SignalEngineConfig Regime.Trending
    Toggles.all_enabled true (f32_lit 99 100) no_news)) None = [SignalSample.signal]) as E
    by (vm_compute; reflexivity).
  split; [exact E |].
  rewrite (proj2 (signal_gates_are_exact SignalSample.snap (mk_SignalEngineConfig Regime.Trending
    Toggles.all_enabled true (f32_lit 99 100) no_news) None) eq_refl), E. vm_compute. reflexivity.
Defined.

(** Without a cache the options strategy never signals. *)
Lemma options_strategy_is_silent snap ctx : OptionsOiExpansionBreakout.evaluate None snap ctx = None.
Proof. reflexivity. Qed.

(** A toggle for a strategy missing from the map counts as on; the composite strategy is not
    among those [all_enabled] lists. *)
Lemma composite_on_by_default :
  Toggles.all_enabled !! StrategyId.as_u8 StrategyId.CompositeAlphaBreakout = None
  /\ Toggles.is_enabled Toggles.all_enabled StrategyId.CompositeAlphaBreakout = true.
Proof. split; vm_compute; reflexivity. Qed.
