(* ===== verification/Backtest.v ===== *)
(** The trade simulation of crates/hedge-signals/src/bin/backtest_harness.rs: one simulated
    position per symbol, its stop, target and trailing rules, the fees, and the circuit
    breaker.  The local day, hour and minute of a tick are arguments; environment variables
    are the fields of [Options]. *)

From S2P Require Import Prelude Ieee Core Schemas Features LiveRoute Signals.

Module Backtest.

(** The comment on [side] says 1 for a buy and 2 for a sell. *)
Record SimPos := mk_SimPos {
  side : Z;
  entry_price : Z;
  qty_f64 : f64;
  initial_sl : Z;
  current_sl : Z;
  target : Z;
  breakeven_set : bool;
}.

Record SymbolStats := mk_SymbolStats {
  st_signals : Z; wins : Z; losses : Z; gross_pnl : f64; net_pnl : f64; peak_pnl : f64; max_dd : f64;
}.
Definition default_stats : SymbolStats := mk_SymbolStats 0 0 0 f_zero f_zero f_zero f_zero.

Record Options := mk_Options { slippage_paise : f64; no_circuit_breaker : bool; disable_symbols : list string }.

Record t := mk {
  states : gmap Z FeatureState;
  pos_map : gmap Z SimPos;
  stats_map : gmap Z SymbolStats;
  current_day : Z;
  daily_losses : Z;
  total_signals : Z;
  win_count : Z;
  loss_count : Z;
  realized_pnl_paise : f64;
  peak_pnl_paise : f64;
  max_drawdown_paise : f64;
  processed_ticks : Z;
}.
Definition new : t := mk ∅ ∅ ∅ 0 0 0 0 0 f_zero f_zero f_zero 0.

Definition side_multiplier (p : SimPos) : f64 := if side p =? 1 then f64_one else f_opp f64_one.

(** Stages 1, 2 and 6. *)
Definition exit_reason (p : SimPos) (ltp hour minute : Z) : option string :=
  if ((side p =? 1) && (ltp <=? current_sl p)) || ((side p =? 2) && (current_sl p <=? ltp))
  then Some "STOP_LOSS"
  else if ((side p =? 1) && (target p <=? ltp)) || ((side p =? 2) && (ltp <=? target p))
  then Some "TARGET"
  else if (hour =? 15) && (15 <=? minute) then Some "TIME_EXIT" else None.

Definition set_sl (p : SimPos) (sl : Z) (be : bool) : SimPos :=
  mk_SimPos (side p) (entry_price p) (qty_f64 p) (initial_sl p) sl (target p) be.
Definition tighten (p : SimPos) (new_sl : Z) : Z :=
  if side p =? 1 then Z.max (current_sl p) new_sl else Z.min (current_sl p) new_sl.

(** Stages 3 to 5. *)
Definition trail (p : SimPos) (ltp atr : Z) : SimPos :=
  let initial_risk_paise := f64_of_Z (i64_abs (i64_sub (entry_price p) (initial_sl p))) in
  let current_unrealized_paise := f64_mul (f64_of_Z (i64_sub ltp (entry_price p))) (side_multiplier p) in
  let unrealized_rr := if f_gt initial_risk_paise f_zero
                       then f64_div current_unrealized_paise initial_risk_paise else f_zero in
  let p := if f_ge unrealized_rr f64_one && negb (breakeven_set p) then set_sl p (entry_price p) true else p in
  let p :=
    if f_ge unrealized_rr (f64_lit 15 10) then
      let lock_paise := f_round_as_i64 (f64_mul (f64_lit 1 2) initial_risk_paise) in
      let new_sl := if side p =? 1 then as_i64 (entry_price p + lock_paise)
                    else as_i64 (entry_price p - lock_paise) in
      set_sl p (tighten p new_sl) (breakeven_set p)
    else p in
  if f_ge unrealized_rr (f64_of_Z 2) then
    let atr_trail := as_i64 (atr * 2) in
    let new_sl := if side p =? 1 then as_i64 (ltp - atr_trail) else as_i64 (ltp + atr_trail) in
    set_sl p (tighten p new_sl) (breakeven_set p)
  else p.

Definition drawdown (pnl peak dd : f64) : f64 * f64 :=
  if f_gt pnl peak then (pnl, dd)
  else let d := f64_sub peak pnl in (peak, if f_gt d dd then d else dd).

Definition stats_of (b : t) (sym : Z) : SymbolStats := unwrap_or default_stats (stats_map b !! sym).

(** The bookkeeping of a closed trade. *)
Definition close_position (o : Options) (b : t) (sym : Z) (p : SimPos) (ltp : Z) : t :=
  let pnl := f64_mul (f64_mul (f64_of_Z (i64_sub ltp (entry_price p))) (side_multiplier p)) (qty_f64 p) in
  let total_slippage_loss := f64_mul (f64_mul (slippage_paise o) (f64_of_Z 2)) (qty_f64 p) in
  let pnl_after_fees := f64_sub (f64_sub pnl (f64_of_Z 6000)) total_slippage_loss in
  let realized := f64_add (realized_pnl_paise b) pnl_after_fees in
  let '(peak, dd) := drawdown realized (peak_pnl_paise b) (max_drawdown_paise b) in
  let won := f_gt pnl_after_fees f_zero in
  let s := stats_of b sym in
  let net := f64_add (net_pnl s) pnl_after_fees in
  let '(s_peak, s_dd) := drawdown net (peak_pnl s) (max_dd s) in
  let s := mk_SymbolStats (st_signals s) (if won then wins s + 1 else wins s)
             (if won then losses s else losses s + 1) (f64_add (gross_pnl s) pnl) net s_peak s_dd in
  mk (states b) (delete sym (pos_map b)) (<[sym := s]> (stats_map b)) (current_day b)
    (if won then daily_losses b else daily_losses b + 1) (total_signals b)
    (if won then win_count b + 1 else win_count b) (if won then loss_count b else loss_count b + 1)
    realized peak dd (processed_ticks b).

Definition manage_position (o : Options) (b : t) (sym ltp atr hour minute : Z) : t :=
  match pos_map b !! sym with
  | None => b
  | Some p =>
    match exit_reason p ltp hour minute with
    | Some _ => close_position o b sym p ltp
    | None =>
      mk (states b) (<[sym := trail p ltp atr]> (pos_map b)) (stats_map b) (current_day b) (daily_losses b)
        (total_signals b) (win_count b) (loss_count b) (realized_pnl_paise b) (peak_pnl_paise b)
        (max_drawdown_paise b) (processed_ticks b)
    end
  end.

Definition open_position (o : Options) (sym ltp : Z) (b : t) (sig : Signal) : t :=
  let sym_name := unwrap_or EmptyString (SymbolTable.symbol_for_id sym) in
  if negb (contains "Nifty" sym_name) then b
  else if existsb (fun s => contains s sym_name) (disable_symbols o) then b
  else
    match pos_map b !! sym with
    | Some _ => b
    | None =>
      let s := stats_of b sym in
      let s := mk_SymbolStats (st_signals s + 1) (wins s) (losses s) (gross_pnl s) (net_pnl s) (peak_pnl s) (max_dd s) in
      let q := f64_div (f64_of_Z 1000000) (f64_div (f64_of_Z ltp) (f64_of_Z 100)) in
      let rp := sig_risk_profile sig in
      mk (states b)
        (<[sym := mk_SimPos (sig_side sig) ltp q (stop_loss_paise rp) (stop_loss_paise rp)
                    (take_profit_paise rp) false]> (pos_map b))
        (<[sym := s]> (stats_map b)) (current_day b) (daily_losses b) (total_signals b + 1)
        (win_count b) (loss_count b) (realized_pnl_paise b) (peak_pnl_paise b) (max_drawdown_paise b)
        (processed_ticks b)
    end.

Definition new_day (b : t) (day : Z) : t :=
  if day =? current_day b then b
  else mk (states b) (pos_map b) (stats_map b) day 0 (total_signals b) (win_count b) (loss_count b)
         (realized_pnl_paise b) (peak_pnl_paise b) (max_drawdown_paise b) (processed_ticks b).

Definition strategies : list Strategy :=
  [mk_Strategy StrategyId.CompositeAlphaBreakout CompositeAlphaBreakout.evaluate
     CompositeAlphaBreakout.enabled_in].

(** One recorded tick, at local [(day, hour, minute)]. *)
Definition on_tick (ln : f64 -> f64) (o : Options) (b : t) (tick : Tick) (day hour minute : Z) : t :=
  let sym := tk_symbol tick in
  let '(snap, s) := process_tick_into_state ln (state_of (states b) sym) tick in
  let b := mk (<[sym := s]> (states b)) (pos_map b) (stats_map b) (current_day b) (daily_losses b)
             (total_signals b) (win_count b) (loss_count b) (realized_pnl_paise b) (peak_pnl_paise b)
             (max_drawdown_paise b) (processed_ticks b) in
  let b := new_day b day in
  let b := manage_position o b sym (ltp_paise tick) (atr snap) hour minute in
  let b :=
    if no_circuit_breaker o || (daily_losses b <? 3)
    then foldl (open_position o sym (ltp_paise tick)) b (evaluate_strategies strategies snap default_config None)
    else b in
  mk (states b) (pos_map b) (stats_map b) (current_day b) (daily_losses b) (total_signals b) (win_count b)
    (loss_count b) (realized_pnl_paise b) (peak_pnl_paise b) (max_drawdown_paise b) (processed_ticks b + 1).

(** *** Facts *)

(** The side is the wire byte of the signal, 0 or 1, not 1 or 2: a buy is never stopped out
    nor taken at its target, and a sell is managed as a buy. *)
Lemma buys_only_exit_on_time p ltp hour minute : side p = Side.as_u8 Side.Buy ->
  exit_reason p ltp hour minute = None \/ exit_reason p ltp hour minute = Some "TIME_EXIT".
Proof.
  intros E. unfold exit_reason. rewrite E. cbn [Side.as_u8 Z.eqb andb orb].
  destruct (_ && _); [by right | by left].
Qed.

Lemma sells_are_managed_as_buys p : side p = Side.as_u8 Side.Sell -> side_multiplier p = f64_one.
Proof. intros E. unfold side_multiplier. by rewrite E. Qed.

(** For the sides the code means, the stop only ever moves towards the price, after a first
    move to the entry price. *)
Lemma tighten_long p new_sl : side p = 1 -> current_sl p <= tighten p new_sl.
Proof. intros E. unfold tighten. rewrite E. cbn. lia. Qed.

Lemma trail_never_loosens p ltp atr : side p = 1 -> current_sl p <= entry_price p ->
  current_sl p <= current_sl (trail p ltp atr).
Proof.
  intros E He. unfold trail. cbv zeta.
  set (rr := if f_gt _ f_zero then _ else _).
  set (p1 := if f_ge rr f64_one && _ then _ else p).
  assert (side p1 = 1 /\ current_sl p <= current_sl p1) as [E1 H1].
  { unfold p1. destruct (_ && _); [by cbn | by split]. }
  clearbody p1. set (p2 := if f_ge rr (f64_lit 15 10) then _ else p1).
  assert (side p2 = 1 /\ current_sl p1 <= current_sl p2) as [E2 H2].
  { unfold p2. destruct (f_ge _ _); [| by split]. split; [done |]. by apply tighten_long. }
  clearbody p2. destruct (f_ge _ _); [| lia]. etransitivity; [exact H1 |]. etransitivity; [exact H2 |].
  by apply tighten_long.
Qed.
End Backtest.
