(* ===== verification/Position.v ===== *)
(** crates/hedge-position: the profit-and-loss arithmetic of one fill (pnl.rs), a
    position (position.rs), the account aggregate (risk_state.rs) and the engine that
    keeps them (engine.rs).

    [i128] intermediates are plain integers where they cannot overflow: they hold sums and
    products of at most three [i64]/[u64] factors, or sums over at most [2 ^ 32] symbols. *)

From S2P Require Import Prelude Core Schemas.

(** ** One fill (pnl.rs) *)

Module Pnl.

Record FillOutcome := mk_FillOutcome {
  new_quantity : Z;
  new_avg_entry_px : Px.t;
  delta_realized_paise : Z;
}.

Definition signed_fill (side : Side.t) (fill_qty : Z) : Z :=
  match side with Side.Buy => fill_qty | Side.Sell => - fill_qty end.

Definition is_buy (s : Side.t) : bool := match s with Side.Buy => true | Side.Sell => false end.

Definition apply_fill_inner (old_qty : Z) (old_avg : Px.t) (side : Side.t) (fill_qty : Z)
  (fill_px : Px.t) : FillOutcome :=
  if fill_qty =? 0 then mk_FillOutcome old_qty old_avg 0
  else
    let new_qty_signed := old_qty + signed_fill side fill_qty in
    if old_qty =? 0 then mk_FillOutcome (as_i64 new_qty_signed) fill_px 0
    else
      let same_direction :=
        ((old_qty >? 0) && is_buy side) || ((old_qty <? 0) && negb (is_buy side)) in
      let abs_old := Z.abs old_qty in
      if same_direction then
        let denom := abs_old + fill_qty in
        let num := abs_old * Px.to_paise old_avg + fill_qty * Px.to_paise fill_px in
        let new_avg := Z.quot num denom in
        mk_FillOutcome (as_i64 new_qty_signed) (Px.from_paise (as_i64 new_avg)) 0
      else
        let close_qty := Z.min abs_old fill_qty in
        let realized :=
          if old_qty >? 0 then (Px.to_paise fill_px - Px.to_paise old_avg) * close_qty
          else (Px.to_paise old_avg - Px.to_paise fill_px) * close_qty in
        let residual := fill_qty - close_qty in
        let new_qty := as_i64 new_qty_signed in
        if residual =? 0 then
          let new_avg := if new_qty =? 0 then Px.ZERO else old_avg in
          mk_FillOutcome new_qty new_avg (as_i64 realized)
        else mk_FillOutcome new_qty fill_px (as_i64 realized).

Definition unrealized_pnl_paise (qty : Z) (avg_entry_px mark_px : Px.t) : Z :=
  if (qty =? 0) || (mark_px =? Px.ZERO) then 0
  else as_i64 ((Px.to_paise mark_px - Px.to_paise avg_entry_px) * qty).

(** Whether a fill adds to an open position in its own direction. *)
Definition scales (old_qty : Z) (side : Side.t) (fill_qty : Z) : bool :=
  negb (fill_qty =? 0) && (((old_qty >? 0) && is_buy side) || ((old_qty <? 0) && negb (is_buy side))).

(** A quotient truncated toward zero. *)
Lemma quot_near num denom : 0 < denom -> Z.abs (Z.quot num denom * denom - num) <= denom - 1.
Proof.
  intros Hd. pose proof (Z.quot_rem' num denom). pose proof (Z.rem_bound_abs num denom ltac:(lia)). lia.
Qed.

Lemma quot_abs_le num denom b : 0 < denom -> Z.abs num <= b * denom -> Z.abs (Z.quot num denom) <= b.
Proof.
  intros Hd Hn. pose proof (Z.quot_abs num denom ltac:(lia)) as Ha. rewrite (Z.abs_eq denom) in Ha by lia.
  rewrite <- Ha, Z.quot_div_nonneg by lia. apply Z.div_le_upper_bound; lia.
Qed.

(** One fill conserves cash: the cost basis moves by the cash paid plus the profit
    realised, exactly except for the truncation of a volume-weighted average. *)
Lemma apply_fill_conserves qty avg side f px B :
  0 <= f -> Z.abs qty + f < 2 ^ 31 -> 0 <= B < 2 ^ 31 -> Z.abs avg <= B -> Z.abs px <= B ->
  (qty = 0 -> avg = 0) ->
  let o := apply_fill_inner qty avg side f px in
  new_quantity o = qty + signed_fill side f
  /\ Z.abs (new_avg_entry_px o) <= B
  /\ (new_quantity o = 0 -> new_avg_entry_px o = 0)
  /\ Z.abs (delta_realized_paise o) <= 2 * B * f
  /\ Z.abs (new_quantity o * new_avg_entry_px o
            - (qty * avg + signed_fill side f * px + delta_realized_paise o))
     <= (if scales qty side f then Z.abs (new_quantity o) - 1 else 0).
Proof.
  intros Hf Hq HB Ha Hp H0 o. subst o. unfold apply_fill_inner, scales, Px.to_paise, Px.from_paise, Px.ZERO.
  set (s := signed_fill side f).
  assert (Z.abs s = f) as Hs by (unfold s; destruct side; simpl; lia).
  destruct (Z.eqb_spec f 0) as [-> | Hf0]; simpl.
  { assert (s = 0) as -> by lia. split_and!; try done; try lia. }
  rewrite !Z.gtb_ltb.
  assert (as_i64 (qty + s) = qty + s) as Hw by (apply as_i64_id; unfold_ok; lia).
  destruct (Z.eqb_spec qty 0) as [-> | Hq0]; simpl.
  { rewrite H0 by done. rewrite Hw. split_and!; try lia. }
  set (same := ((0 <? qty) && is_buy side || (qty <? 0) && negb (is_buy side))%bool).
  destruct same eqn:Esame; simpl; rewrite Hw.
  - assert (Z.abs (qty + s) = Z.abs qty + f /\ exists sg, (sg = 1 \/ sg = -1) /\ qty = sg * Z.abs qty /\ s = sg * f)
      as [Habs (sg & Hsg & Hqs & Hss)].
    { unfold same, s in *. destruct side; simpl in *.
      - assert (0 < qty) by (destruct (Z.ltb_spec 0 qty); [done |]; by rewrite andb_false_r in Esame).
        split; [lia |]. exists 1. lia.
      - assert (qty < 0) by (rewrite andb_false_r in Esame; simpl in Esame; lia).
        split; [lia |]. exists (-1). lia. }
    set (aq := Z.abs qty) in *. set (num := aq * avg + f * px).
    assert (Z.abs (Z.quot num (aq + f)) <= B) as Hav.
    { apply quot_abs_le; [lia |]. unfold num. nia. }
    rewrite as_i64_id by (unfold_ok; lia).
    pose proof (quot_near num (aq + f) ltac:(lia)) as Hn.
    split_and!; try lia.
  - assert ((0 < qty /\ s = - f) \/ (qty < 0 /\ s = f)) as Hdir.
    { unfold same, s in *. destruct side; simpl in *; lia. }
    set (close := Z.min (Z.abs qty) f). assert (0 <= close <= f) as Hclose by lia.
    set (realized := if 0 <? qty then (px - avg) * close else (avg - px) * close).
    assert (Z.abs realized <= 2 * B * f) as Hr.
    { unfold realized. destruct (0 <? qty); rewrite Z.abs_mul, (Z.abs_eq close) by lia; nia. }
    rewrite (as_i64_id realized) by (unfold_ok; nia).
    destruct (Z.eqb_spec (f - close) 0) as [Hres | Hres]; simpl.
    + destruct (Z.eqb_spec (qty + s) 0) as [Hz | Hz]; split_and!; try lia;
        unfold realized; destruct Hdir as [[Hd ->] | [Hd ->]];
        [replace (0 <? qty) with true by lia | replace (0 <? qty) with false by lia
        | replace (0 <? qty) with true by lia | replace (0 <? qty) with false by lia];
        replace close with f by lia; try lia.
    + split_and!; try lia. unfold realized. destruct Hdir as [[Hd ->] | [Hd ->]];
        [replace (0 <? qty) with true by lia; replace close with qty by lia
        | replace (0 <? qty) with false by lia; replace close with (- qty) by lia]; lia.
Qed.
End Pnl.

(** ** A position (position.rs) *)

Record StrategyAllocation := mk_StrategyAllocation {
  sa_strategy_id : Z;
  sa_quantity : Z;
  sa_allocated_capital_inr : Z;
}.

Module Position.

Record t := mk {
  symbol : SymbolId.t;
  quantity : Z;
  avg_entry_px : Px.t;
  realized_pnl_paise : Z;
  unrealized_paise : Z;
  last_mark_px : Px.t;
  strategy_allocations : list StrategyAllocation;
}.

Definition flat (s : SymbolId.t) : t := mk s 0 Px.ZERO 0 0 Px.ZERO [].
Definition is_flat (p : t) : bool := quantity p =? 0.

Definition exposure_paise (p : t) : Z :=
  if quantity p =? 0 then 0
  else
    let prod := Z.abs (quantity p) * Px.to_paise (avg_entry_px p) in
    if prod >? i64_max then i64_max else as_i64 prod.

Definition total_pnl_paise (p : t) : Z := i64_sat_add (realized_pnl_paise p) (unrealized_paise p).

Definition apply_fill (p : t) (side : Side.t) (fill_qty : Z) (fill_px : Px.t) : Z * t :=
  let outcome := Pnl.apply_fill_inner (quantity p) (avg_entry_px p) side fill_qty fill_px in
  let q := Pnl.new_quantity outcome in
  let a := Pnl.new_avg_entry_px outcome in
  (Pnl.delta_realized_paise outcome,
   mk (symbol p) q a
     (i64_sat_add (realized_pnl_paise p) (Pnl.delta_realized_paise outcome))
     (Pnl.unrealized_pnl_paise q a (last_mark_px p))
     (last_mark_px p) (strategy_allocations p)).

Definition apply_mark (p : t) (mark_px : Px.t) : Z * t :=
  let u := Pnl.unrealized_pnl_paise (quantity p) (avg_entry_px p) mark_px in
  (u, mk (symbol p) (quantity p) (avg_entry_px p) (realized_pnl_paise p) u mark_px
        (strategy_allocations p)).

(** The assignments the engine makes on a flat position. *)
Definition store_flat_mark (p : t) (mark_px : Px.t) : t :=
  mk (symbol p) (quantity p) (avg_entry_px p) (realized_pnl_paise p) 0 mark_px (strategy_allocations p).

Definition set_strategy_allocations (p : t) (allocs : list StrategyAllocation) : t :=
  mk (symbol p) (quantity p) (avg_entry_px p) (realized_pnl_paise p) (unrealized_paise p)
    (last_mark_px p) allocs.

(** *** Sequences of fills and marks *)

Inductive op := Fill (side : Side.t) (qty : Z) (px : Px.t) | Mark (px : Px.t).
Definition run_op (p : t) (o : op) : t :=
  match o with Fill s q px => snd (apply_fill p s q px) | Mark px => snd (apply_mark p px) end.
Definition run (p : t) (ops : list op) : t := foldl run_op p ops.

(** The signed quantity and the cash a sequence of fills moves. *)
Definition bought (o : op) : Z := match o with Fill s q _ => Pnl.signed_fill s q | Mark _ => 0 end.
Definition paid (o : op) : Z := match o with Fill s q px => Pnl.signed_fill s q * px | Mark _ => 0 end.
Definition traded (o : op) : Z := match o with Fill _ q _ => q | Mark _ => 0 end.
Definition op_ok (B : Z) (o : op) : Prop :=
  match o with Fill _ q px => 0 <= q /\ Z.abs px <= B | Mark px => Z.abs px <= B end.

(** What truncating averages can lose: one paisa short per share held, at each fill that
    adds to an open position. *)
Fixpoint truncation (p : t) (ops : list op) : Z :=
  match ops with
  | [] => 0
  | o :: ops =>
      (match o with
       | Fill s q _ => if Pnl.scales (quantity p) s q then Z.abs (quantity (run_op p o)) - 1 else 0
       | Mark _ => 0
       end) + truncation (run_op p o) ops
  end.

Definition ok (B F : Z) (p : t) : Prop :=
  Z.abs (quantity p) <= F /\ Z.abs (avg_entry_px p) <= B /\ (quantity p = 0 -> avg_entry_px p = 0)
  /\ Z.abs (realized_pnl_paise p) <= 2 * B * F
  /\ unrealized_paise p = Pnl.unrealized_pnl_paise (quantity p) (avg_entry_px p) (last_mark_px p).

Lemma run_conserves B ops : forall p F, 0 <= B < 2 ^ 31 -> 0 <= F -> ok B F p ->
  Forall (op_ok B) ops -> F + list_sum (traded <$> ops) < 2 ^ 31 ->
  let p' := run p ops in
  ok B (F + list_sum (traded <$> ops)) p'
  /\ quantity p' = quantity p + list_sum (bought <$> ops)
  /\ Z.abs ((realized_pnl_paise p' - quantity p' * avg_entry_px p')
            - (realized_pnl_paise p - quantity p * avg_entry_px p - list_sum (paid <$> ops)))
     <= truncation p ops.
Proof.
  induction ops as [| o ops IH]; intros p F HB HF Hok Hops Hsum.
  { simpl. rewrite !Z.add_0_r. split_and!; try done; lia. }
  apply Forall_cons in Hops as [Ho Hops].
  assert (0 <= list_sum (traded <$> ops)) as Hpos.
  { clear -Hops. induction Hops as [| o ops Ho Hops IH]; [done |].
    apply Z.add_nonneg_nonneg; [destruct o; simpl in *; lia | exact IH]. }
  change (list_sum (traded <$> o :: ops)) with (traded o + list_sum (traded <$> ops)) in *.
  change (list_sum (bought <$> o :: ops)) with (bought o + list_sum (bought <$> ops)).
  change (list_sum (paid <$> o :: ops)) with (paid o + list_sum (paid <$> ops)).
  assert (0 <= traded o) as Hto by (destruct o; simpl in *; lia).
  assert (ok B (F + traded o) (run_op p o)
          /\ quantity (run_op p o) = quantity p + bought o
          /\ Z.abs ((realized_pnl_paise (run_op p o) - quantity (run_op p o) * avg_entry_px (run_op p o))
                    - (realized_pnl_paise p - quantity p * avg_entry_px p - paid o))
             <= match o with
                | Fill s q _ => if Pnl.scales (quantity p) s q then Z.abs (quantity (run_op p o)) - 1 else 0
                | Mark _ => 0 end) as (Hok1 & Hq1 & Hc1).
  { destruct Hok as (Hq & Ha & H0 & Hr & Hu). destruct o as [s q px | px].
    - destruct Ho as [Hqpos Hpx]. simpl in Hsum, Hto |- *. unfold apply_fill.
      destruct (Pnl.apply_fill_conserves (quantity p) (avg_entry_px p) s q px B)
        as (E1 & E2 & E3 & E4 & E5); try done; try lia.
      assert (Z.abs (Pnl.signed_fill s q) = q) as Habs by (destruct s; simpl; lia).
      assert (2 * B * (F + q) = 2 * B * F + 2 * B * q) as Hdist by ring.
      assert (2 * B * (F + q) <= 2 * (2 ^ 31 - 1) * (2 ^ 31 - 1)) as Hbig
        by (apply Z.mul_le_mono_nonneg; lia).
      unfold ok. cbn [quantity avg_entry_px realized_pnl_paise unrealized_paise last_mark_px snd run_op
        apply_fill bought paid traded].
      unfold i64_sat_add. rewrite sat_id by (unfold_ok; lia).
      split_and!; try done; lia.
    - unfold ok. simpl. rewrite !Z.add_0_r. split_and!; try done; lia. }
  change (run p (o :: ops)) with (run (run_op p o) ops).
  change (truncation p (o :: ops)) with
    ((match o with
      | Fill s q _ => if Pnl.scales (quantity p) s q then Z.abs (quantity (run_op p o)) - 1 else 0
      | Mark _ => 0 end) + truncation (run_op p o) ops).
  destruct (IH (run_op p o) (F + traded o) HB ltac:(lia) Hok1 Hops ltac:(lia)) as (Hok2 & Hq2 & Hc2).
  rewrite Z.add_assoc. split_and!; [done | lia | lia].
Qed.
End Position.



(** ** The account aggregate (risk_state.rs) *)

Record TraderRiskState := mk_TraderRiskState {
  aggregate_exposure_paise : Z;
  drawdown_paise : Z;
  available_margin_paise : Z;
  peak_equity_paise : Z;
}.
#[global] Instance TraderRiskState_eq_dec : EqDecision TraderRiskState.
Proof. solve_decision. Defined.

Module Aggregate.
Definition fresh (base_capital_paise : Z) : TraderRiskState :=
  mk_TraderRiskState 0 0 base_capital_paise base_capital_paise.

Definition aggregate_exposure_inr (s : TraderRiskState) : Z := Z.quot (aggregate_exposure_paise s) 100.
Definition drawdown_inr (s : TraderRiskState) : Z := Z.quot (drawdown_paise s) 100.
Definition available_margin_inr (s : TraderRiskState) : Z := Z.quot (available_margin_paise s) 100.
Definition peak_equity_inr (s : TraderRiskState) : Z := Z.quot (peak_equity_paise s) 100.

Definition clamp_to_i64 (v : Z) : Z :=
  if v >? i64_max then i64_max else if v <? i64_min then i64_min else v.

Definition aggregate_state (positions : list Position.t) (base_capital_paise previous_peak_equity_paise : Z)
  : TraderRiskState :=
  let '(aggregate_exposure, realized, unrealized) :=
    foldl (fun '(x, r, u) p => (x + Position.exposure_paise p, r + Position.realized_pnl_paise p,
                                u + Position.unrealized_paise p)) (0, 0, 0) positions in
  let total_pnl := realized + unrealized in
  let equity := base_capital_paise + total_pnl in
  let new_peak := Z.max equity previous_peak_equity_paise in
  let drawdown := Z.max (new_peak - equity) 0 in
  let available_margin := base_capital_paise + realized - aggregate_exposure in
  mk_TraderRiskState (clamp_to_i64 aggregate_exposure) (clamp_to_i64 drawdown)
    (clamp_to_i64 available_margin) (clamp_to_i64 new_peak).

(** The equity a list of positions is worth. *)
Definition equity (base : Z) (ps : list Position.t) : Z :=
  base + (list_sum (Position.realized_pnl_paise <$> ps) + list_sum (Position.unrealized_paise <$> ps)).
Definition margin (base : Z) (ps : list Position.t) : Z :=
  base + list_sum (Position.realized_pnl_paise <$> ps) - list_sum (Position.exposure_paise <$> ps).

Lemma fold_sums ps : forall x r u,
  foldl (fun '(x, r, u) p => (x + Position.exposure_paise p, r + Position.realized_pnl_paise p,
                              u + Position.unrealized_paise p)) (x, r, u) ps
  = (x + list_sum (Position.exposure_paise <$> ps), r + list_sum (Position.realized_pnl_paise <$> ps),
     u + list_sum (Position.unrealized_paise <$> ps)).
Proof.
  induction ps as [| p ps IH]; intros x r u; simpl; [by rewrite !Z.add_0_r |].
  rewrite IH. unfold list_sum. simpl. by rewrite !Z.add_assoc.
Qed.

Lemma aggregate_spec ps base peak :
  aggregate_state ps base peak =
  mk_TraderRiskState (clamp_to_i64 (list_sum (Position.exposure_paise <$> ps)))
    (clamp_to_i64 (Z.max (equity base ps) peak - equity base ps))
    (clamp_to_i64 (margin base ps)) (clamp_to_i64 (Z.max (equity base ps) peak)).
Proof.
  unfold aggregate_state. rewrite fold_sums, !Z.add_0_l. fold (equity base ps) (margin base ps).
  f_equal. f_equal. lia.
Qed.

Lemma clamp_id v : i64_ok v -> clamp_to_i64 v = v.
Proof. unfold clamp_to_i64. unfold_ok. intros. rewrite Z.gtb_ltb. split_ifs; lia. Qed.
End Aggregate.

(** ** The engine (engine.rs) *)

Module PositionEngine.
Import Aggregate.

Definition DEFAULT_POS_UPDATE_THROTTLE_NS : Z := 100000000.

Record PositionSnapshot := mk_PositionSnapshot {
  ps_symbol : SymbolId.t;
  ps_quantity : Z;
  ps_avg_entry_px : Px.t;
  ps_realized_pnl_paise : Z;
  ps_unrealized_pnl_paise : Z;
  ps_last_mark_px : Px.t;
  ps_strategy_allocations : list StrategyAllocation;
}.

Definition from_position (p : Position.t) : PositionSnapshot :=
  mk_PositionSnapshot (Position.symbol p) (Position.quantity p) (Position.avg_entry_px p)
    (Position.realized_pnl_paise p) (Position.unrealized_paise p) (Position.last_mark_px p)
    (Position.strategy_allocations p).

Inductive PositionEvent :=
| PositionUpdate (symbol : SymbolId.t) (snapshot : PositionSnapshot)
| RiskStateEv (s : TraderRiskState).

Record t := mk {
  positions : gmap Z Position.t;
  aggregate : TraderRiskState;
  last_emit_ns : gmap Z Z;
  last_published_aggregate : option TraderRiskState;
  base_capital_paise : Z;
  pos_update_throttle_ns : Z;
}.

Definition with_throttle (base throttle : Z) : t := mk ∅ (fresh base) ∅ None base throttle.
Definition new (base : Z) : t := with_throttle base DEFAULT_POS_UPDATE_THROTTLE_NS.

Definition set_position (e : t) (s : SymbolId.t) (p : Position.t) : t :=
  mk (<[s := p]> (positions e)) (aggregate e) (last_emit_ns e) (last_published_aggregate e)
    (base_capital_paise e) (pos_update_throttle_ns e).
Definition set_aggregate (e : t) (a : TraderRiskState) : t :=
  mk (positions e) a (last_emit_ns e) (last_published_aggregate e) (base_capital_paise e)
    (pos_update_throttle_ns e).
Definition set_last_emit (e : t) (s : SymbolId.t) (now : Z) : t :=
  mk (positions e) (aggregate e) (<[s := now]> (last_emit_ns e)) (last_published_aggregate e)
    (base_capital_paise e) (pos_update_throttle_ns e).
Definition set_published (e : t) (a : TraderRiskState) : t :=
  mk (positions e) (aggregate e) (last_emit_ns e) (Some a) (base_capital_paise e)
    (pos_update_throttle_ns e).

(** [DashMap] iterates in an unspecified order; the aggregate is a sum. *)
Definition position_list (e : t) : list Position.t := snd <$> map_to_list (positions e).

Definition recompute_aggregate (e : t) : TraderRiskState * t :=
  let prev_peak := peak_equity_paise (aggregate e) in
  let new_state := aggregate_state (position_list e) (base_capital_paise e) prev_peak in
  (new_state, set_aggregate e new_state).

Definition get_or_flat (e : t) (s : SymbolId.t) : Position.t :=
  match positions e !! s with Some p => p | None => Position.flat s end.

Definition on_fill (e : t) (symbol : SymbolId.t) (side : Side.t) (fill_qty : Z) (fill_px : Px.t)
  (now_ns : Z) : list PositionEvent * t :=
  let p := snd (Position.apply_fill (get_or_flat e symbol) side fill_qty fill_px) in
  let snapshot := from_position p in
  let e := set_position e symbol p in
  let '(new_state, e) := recompute_aggregate e in
  let e := set_published (set_last_emit e symbol now_ns) new_state in
  ([PositionUpdate symbol snapshot; RiskStateEv new_state], e).

Definition on_tick (e : t) (symbol : SymbolId.t) (mark_px : Px.t) (now_ns : Z)
  : list PositionEvent * t :=
  match positions e !! symbol with
  | None => ([], e)
  | Some p =>
      if Position.quantity p =? 0
      then ([], set_position e symbol (Position.store_flat_mark p mark_px))
      else
        let p := snd (Position.apply_mark p mark_px) in
        let snapshot := from_position p in
        let e := set_position e symbol p in
        let last_emit := unwrap_or 0 (last_emit_ns e !! symbol) in
        let elapsed := u64_sat_sub now_ns last_emit in
        let '(events, e) :=
          if elapsed >=? pos_update_throttle_ns e
          then ([PositionUpdate symbol snapshot], set_last_emit e symbol now_ns)
          else ([], e) in
        let '(new_state, e) := recompute_aggregate e in
        let should_emit_aggregate :=
          match last_published_aggregate e with
          | Some prev => bool_decide (prev <> new_state)
          | None => true
          end in
        if should_emit_aggregate
        then (events ++ [RiskStateEv new_state], set_published e new_state)
        else (events, e)
  end.

Definition snapshot_risk_state (e : t) : TraderRiskState := aggregate e.
Definition position_of (e : t) (s : SymbolId.t) : option Position.t := positions e !! s.
Definition tracked_symbols (e : t) : nat := size (positions e).
Definition set_strategy_allocations (e : t) (s : SymbolId.t) (allocs : list StrategyAllocation) : t :=
  set_position e s (Position.set_strategy_allocations (get_or_flat e s) allocs).

(** *** Histories *)

Inductive op :=
| Fill (s : SymbolId.t) (side : Side.t) (qty : Z) (px : Px.t) (now : Z)
| Tick (s : SymbolId.t) (px : Px.t) (now : Z)
| Allocate (s : SymbolId.t) (allocs : list StrategyAllocation).

Definition run_op (e : t) (o : op) : list PositionEvent * t :=
  match o with
  | Fill s side q px now => on_fill e s side q px now
  | Tick s px now => on_tick e s px now
  | Allocate s l => ([], set_strategy_allocations e s l)
  end.
Definition op_time (o : op) : Z := match o with Fill _ _ _ _ now | Tick _ _ now => now | Allocate _ _ => 0 end.
Definition is_tick (o : op) : bool := match o with Tick _ _ _ => true | _ => false end.

(** The events of a history, each with the call that emitted it. *)
Fixpoint run (e : t) (ops : list op) : list (op * PositionEvent) * t :=
  match ops with
  | [] => ([], e)
  | o :: ops =>
      let '(evs, e) := run_op e o in
      let '(log, e) := run e ops in
      ((pair o <$> evs) ++ log, e)
  end.

(** Whether a call recomputes the aggregate. *)
Definition recomputes (e : t) (o : op) : bool :=
  match o with
  | Fill _ _ _ _ _ => true
  | Tick s _ _ => match positions e !! s with
                  | Some p => negb (Position.quantity p =? 0) | None => false end
  | Allocate _ _ => false
  end.

Definition equity_of (e : t) : Z := equity (base_capital_paise e) (position_list e).

(** The equity after each call that recomputes the aggregate. *)
Fixpoint equities (e : t) (ops : list op) : list Z :=
  match ops with
  | [] => []
  | o :: ops =>
      let e' := snd (run_op e o) in
      (if recomputes e o then [equity_of e'] else []) ++ equities e' ops
  end.

Lemma recompute_spec e : recompute_aggregate e =
  (aggregate (snd (recompute_aggregate e)), snd (recompute_aggregate e)).
Proof. reflexivity. Qed.

(** What one call does to the aggregate. *)
Lemma run_op_aggregate e o :
  base_capital_paise (snd (run_op e o)) = base_capital_paise e
  /\ aggregate (snd (run_op e o)) =
     if recomputes e o
     then aggregate_state (position_list (snd (run_op e o))) (base_capital_paise e)
            (peak_equity_paise (aggregate e))
     else aggregate e.
Proof.
  destruct o as [s side q px now | s px now | s l]; simpl; [done | | done].
  unfold on_tick. destruct (positions e !! s) as [p |]; [| done].
  destruct (Position.quantity p =? 0); [done |]. simpl.
  destruct (_ >=? _); simpl; destruct (last_published_aggregate e) as [a |]; simpl; try done;
    by destruct (bool_decide _).
Qed.

Lemma run_aggregate ops : forall e, i64_ok (peak_equity_paise (aggregate e)) ->
  Forall i64_ok (equities e ops) ->
  let e' := snd (run e ops) in
  base_capital_paise e' = base_capital_paise e
  /\ peak_equity_paise (aggregate e')
     = foldl Z.max (peak_equity_paise (aggregate e)) (equities e ops)
  /\ (equities e ops = [] -> aggregate e' = aggregate e)
  /\ (forall q, last (equities e ops) = Some q ->
      drawdown_paise (aggregate e') = Z.min i64_max (peak_equity_paise (aggregate e') - q)).
Proof.
  induction ops as [| o ops IH]; intros e Hp Hq; [simpl; by split_and! |].
  simpl in Hq |- *. destruct (run_op_aggregate e o) as [Hb Ha].
  destruct (run_op e o) as [evs e1]. simpl in *.
  destruct (recomputes e o); simpl in *.
  - apply Forall_cons in Hq as [Hq1 Hq]. rewrite aggregate_spec in Ha.
    unfold equity_of in Hq1. rewrite Hb in Hq1.
    set (eq := equity (base_capital_paise e) (position_list e1)) in *.
    assert (peak_equity_paise (aggregate e1) = Z.max (peak_equity_paise (aggregate e)) eq) as Hpk.
    { rewrite Ha. simpl. rewrite clamp_id by (unfold_ok; lia). lia. }
    assert (drawdown_paise (aggregate e1) = Z.min i64_max (peak_equity_paise (aggregate e1) - eq)) as Hdd.
    { rewrite Hpk, Ha. simpl. unfold clamp_to_i64. rewrite Z.gtb_ltb. unfold_ok. split_ifs; lia. }
    destruct (IH e1 ltac:(rewrite Hpk; unfold_ok; lia) Hq) as (H1 & H2 & H3 & H4).
    destruct (run e1 ops) as [log e2]. simpl in *.
    unfold equity_of. rewrite Hb. fold eq.
    split_and!; [congruence | by rewrite H2, Hpk | done |].
    intros q Hlast. destruct (equities e1 ops) as [| x l] eqn:El.
    + simpl in Hlast. injection Hlast as <-. rewrite H3 by done. done.
    + apply H4. exact Hlast.
  - rewrite <- Ha in Hp. destruct (IH e1 Hp Hq) as (H1 & H2 & H3 & H4).
    destruct (run e1 ops) as [log e2]. simpl in *. rewrite <- Ha.
    split_and!; [congruence | done | done | done].
Qed.

(** The emission times of one symbol, and which came from ticks. *)
Definition update_times (s : SymbolId.t) (log : list (op * PositionEvent)) : list (bool * Z) :=
  omap (fun '(o, ev) => match ev with
                        | PositionUpdate s' _ => if decide (s' = s) then Some (is_tick o, op_time o) else None
                        | RiskStateEv _ => None end) log.
Definition published (log : list (op * PositionEvent)) : list (bool * TraderRiskState) :=
  omap (fun '(o, ev) => match ev with
                        | RiskStateEv a => Some (is_tick o, a) | PositionUpdate _ _ => None end) log.

(** Every emission caused by a tick comes at least [throttle] after the previous one. *)
Fixpoint spaced (throttle prev : Z) (l : list (bool * Z)) : Prop :=
  match l with
  | [] => True
  | (tick, now) :: l => (tick = true -> throttle <= u64_sat_sub now prev) /\ spaced throttle now l
  end.
(** Every aggregate published by a tick differs from the one published before it. *)
Fixpoint changing (prev : option TraderRiskState) (l : list (bool * TraderRiskState)) : Prop :=
  match l with
  | [] => True
  | (tick, a) :: l => (tick = true -> prev <> Some a) /\ changing (Some a) l
  end.

Lemma run_emissions s ops : forall e,
  let log := fst (run e ops) in
  spaced (pos_update_throttle_ns e) (unwrap_or 0 (last_emit_ns e !! s)) (update_times s log)
  /\ changing (last_published_aggregate e) (published log).
Proof.
  induction ops as [| o ops IH]; intros e; [done |]. simpl.
  destruct o as [s' side q px now | s' px now | s' l]; simpl.
  - set (e1 := set_published _ _). destruct (IH e1) as [H1 H2].
    destruct (run e1 ops) as [log e2]. simpl in *. split; [| by split].
    unfold update_times in *. simpl. case_decide as Hs; simpl.
    + subst s'. split; [done |]. by rewrite lookup_insert_eq in H1.
    + by rewrite lookup_insert_ne in H1 by done.
  - unfold on_tick. destruct (positions e !! s') as [p |].
    2: { destruct (IH e) as [H1 H2]. by destruct (run e ops). }
    destruct (Position.quantity p =? 0).
    { set (e1 := set_position _ _ _). destruct (IH e1) as [H1 H2]. by destruct (run e1 ops). }
    simpl. rewrite Z.geb_leb.
    destruct (Z.leb_spec (pos_update_throttle_ns e) (u64_sat_sub now (unwrap_or 0 (last_emit_ns e !! s'))))
      as [Hthr | Hthr]; simpl.
    + set (pub := match last_published_aggregate e with Some prev => _ | None => true end).
      assert (pub = true -> last_published_aggregate e <> Some
        (aggregate_state (position_list (set_last_emit (set_position e s' (Position.apply_mark p px).2) s' now))
           (base_capital_paise e) (peak_equity_paise (aggregate e)))) as Hpub.
      { unfold pub. destruct (last_published_aggregate e); [| done].
        intros Hd%bool_decide_eq_true_1 [= ->]. by apply Hd. }
      destruct pub; [set (e1 := set_published _ _) | set (e1 := set_aggregate _ _)];
        destruct (IH e1) as [H1 H2]; destruct (run e1 ops) as [log e2]; simpl in *.
      * split; [| split; [by intros _; apply Hpub | done]].
        unfold update_times in *. simpl. case_decide as Hs; simpl.
        -- subst s'. split; [done |]. by rewrite lookup_insert_eq in H1.
        -- by rewrite lookup_insert_ne in H1 by done.
      * split; [| done]. unfold update_times in *. simpl. case_decide as Hs; simpl.
        -- subst s'. split; [done |]. by rewrite lookup_insert_eq in H1.
        -- by rewrite lookup_insert_ne in H1 by done.
    + set (pub := match last_published_aggregate e with Some prev => _ | None => true end).
      assert (pub = true -> last_published_aggregate e <> Some
        (aggregate_state (position_list (set_position e s' (Position.apply_mark p px).2))
           (base_capital_paise e) (peak_equity_paise (aggregate e)))) as Hpub.
      { unfold pub. destruct (last_published_aggregate e); [| done].
        intros Hd%bool_decide_eq_true_1 [= ->]. by apply Hd. }
      destruct pub; [set (e1 := set_published _ _) | set (e1 := set_aggregate _ _)];
        destruct (IH e1) as [H1 H2]; destruct (run e1 ops) as [log e2]; simpl in *; [| by split].
      split; [done | split; [by intros _; apply Hpub | done]].
  - set (e1 := set_strategy_allocations e s' l). destruct (IH e1) as [H1 H2]. by destruct (run e1 ops).
Qed.
End PositionEngine.

(** Through any history of fills, ticks and allocation updates on a fresh engine the
    account's peak equity is the maximum of the base capital and of the equities (base
    capital plus all realised and unrealised profit) after each recompute, and the drawdown
    is the distance from it to the latest equity, never negative; as long as the equities
    fit in 64 bits nothing is clamped. *)
Theorem account_drawdown_tracks_equity (base throttle : Z) (ops : list PositionEngine.op) :
  i64_ok base ->
  Forall i64_ok (PositionEngine.equities (PositionEngine.with_throttle base throttle) ops) ->
  let e := snd (PositionEngine.run (PositionEngine.with_throttle base throttle) ops) in
  let es := PositionEngine.equities (PositionEngine.with_throttle base throttle) ops in
  let peak := foldl Z.max base es in
  peak_equity_paise (PositionEngine.snapshot_risk_state e) = peak
  /\ (forall q, last es = Some q ->
      drawdown_paise (PositionEngine.snapshot_risk_state e) = Z.min i64_max (peak - q) /\ 0 <= peak - q).
Proof.
  intros Hb Hq e es peak.
  destruct (PositionEngine.run_aggregate ops (PositionEngine.with_throttle base throttle) Hb Hq)
    as (_ & H2 & _ & H4).
  split; [exact H2 |]. intros q Hlast. specialize (H4 q Hlast).
  unfold PositionEngine.snapshot_risk_state. fold e in H2, H4. rewrite H4, H2.
  split; [done |]. fold es in Hlast |- *. unfold peak. simpl.
  apply last_Some in Hlast as [l ->]. rewrite foldl_app. simpl. lia.
Qed.

Lemma account_drawdown_tracks_equity_witness :
  let ops := [PositionEngine.Fill 1 Side.Buy 10 100 5; PositionEngine.Tick 1 130 6;
              PositionEngine.Tick 1 90 7] in
  let e := snd (PositionEngine.run (PositionEngine.with_throttle 5000 100) ops) in
  peak_equity_paise (PositionEngine.snapshot_risk_state e) = 5300
  /\ drawdown_paise (PositionEngine.snapshot_risk_state e) = 400.
Proof.
  intros ops e.
  destruct (account_drawdown_tracks_equity 5000 100 ops) as [H1 H2];
    [unfold_ok; lia | repeat constructor; vm_compute; discriminate |].
  split; [exact H1 | exact (proj1 (H2 4900 eq_refl))].
Defined.

(** In any history, a position update caused by a tick is emitted only when the
    throttle interval has elapsed since the symbol's previous update, fills always emit
    one, and an aggregate published by a tick differs from the previously published one. *)
Theorem emissions_throttled_and_changing (s : SymbolId.t) (base throttle : Z)
  (ops : list PositionEngine.op) :
  let log := fst (PositionEngine.run (PositionEngine.with_throttle base throttle) ops) in
  PositionEngine.spaced throttle 0 (PositionEngine.update_times s log)
  /\ PositionEngine.changing None (PositionEngine.published log)
  /\ forall e s' side q px now, length (fst (PositionEngine.on_fill e s' side q px now)) = 2%nat.
Proof.
  intros log.
  destruct (PositionEngine.run_emissions s ops (PositionEngine.with_throttle base throttle)) as [H1 H2].
  by split_and!.
Qed.
