(* ===== verification/SimBook.v ===== *)
(** crates/hedge-broker-simulated/src/orderbook.rs: the price-level book of the simulated
    broker and its volume-weighted average.  Each side is a [BTreeMap] from key to
    quantity, the key of a bid being its negated price, so ascending keys are best-first
    on both sides. *)

From S2P Require Import Prelude.

Record BookLevel := mk_BookLevel { price_paise : Z; qty : Z }.
#[global] Instance BookLevel_eq_dec : EqDecision BookLevel.
Proof. solve_decision. Defined.

Module OrderBook.

Record t := mk { bids : gmap Z Z; asks : gmap Z Z }.
Definition new : t := mk ∅ ∅.

(** [-price] of an [i64]. *)
Definition neg_key (price : Z) : Z := as_i64 (- price).

Definition add_level (side : gmap Z Z) (key q : Z) : gmap Z Z :=
  <[key := u64_sat_add (unwrap_or 0 (side !! key)) q]> side.

Definition add_bid (b : t) (price q : Z) : t :=
  if q =? 0 then b else mk (add_level (bids b) (neg_key price) q) (asks b).
Definition add_ask (b : t) (price q : Z) : t :=
  if q =? 0 then b else mk (bids b) (add_level (asks b) price q).

Definition from_levels (bs asks : list BookLevel) : t :=
  let b := foldl (fun b l => add_bid b (price_paise l) (qty l)) new bs in
  foldl (fun b l => add_ask b (price_paise l) (qty l)) b asks.

Definition best_bid (b : t) : option BookLevel :=
  (fun kv => mk_BookLevel (as_i64 (- kv.1)) kv.2) <$> list.head (btree_iter (bids b)).
Definition best_ask (b : t) : option BookLevel :=
  (fun kv => mk_BookLevel kv.1 kv.2) <$> list.head (btree_iter (asks b)).

Definition total (side : gmap Z Z) : Z := foldl u64_sat_add 0 (btree_values side).
Definition total_bid_qty (b : t) : Z := total (bids b).
Definition total_ask_qty (b : t) : Z := total (asks b).

(** The loop both [consume_*] run over the keys collected before it: [price_of] gives a
    level's price from its key, [beyond] is the limit test that breaks it. *)
Fixpoint consume (price_of : Z -> Z) (beyond : Z -> bool) (keys : list Z) (side : gmap Z Z)
  (remaining : Z) : list BookLevel * gmap Z Z :=
  match keys with
  | [] => ([], side)
  | key :: keys =>
      if remaining =? 0 then ([], side)
      else if beyond (price_of key) then ([], side)
      else
        let avail := unwrap_or 0 (side !! key) in
        if avail =? 0 then consume price_of beyond keys side remaining
        else
          let take := Z.min avail remaining in
          let new_avail := avail - take in
          let side := if new_avail =? 0 then delete key side else <[key := new_avail]> side in
          let '(fills, side) := consume price_of beyond keys side (remaining - take) in
          (mk_BookLevel (price_of key) take :: fills, side)
  end.

Definition consume_asks (b : t) (requested_qty : Z) (limit_paise : option Z) : list BookLevel * t :=
  let beyond price := match limit_paise with Some limit => price >? limit | None => false end in
  let '(fills, side) := consume (fun p => p) beyond (btree_keys (asks b)) (asks b) requested_qty in
  (fills, mk (bids b) side).

Definition consume_bids (b : t) (requested_qty : Z) (limit_paise : option Z) : list BookLevel * t :=
  let beyond price := match limit_paise with Some limit => price <? limit | None => false end in
  let '(fills, side) :=
    consume (fun k => as_i64 (- k)) beyond (btree_keys (bids b)) (bids b) requested_qty in
  (fills, mk side (asks b)).

Definition clear (b : t) : t := mk ∅ ∅.

(** ** Specification *)

(** The quantity available to an order: the levels its limit reaches. *)
Definition reachable (price_of : Z -> Z) (beyond : Z -> bool) (side : gmap Z Z) (keys : list Z) : Z :=
  list_sum ((fun k => if beyond (price_of k) then 0 else unwrap_or 0 (side !! k)) <$> keys).

(** The quantity a list of fills takes at one price. *)
Definition filled_at (fills : list BookLevel) (price : Z) : Z :=
  list_sum (qty <$> filter (fun f => price_paise f = price) fills).
Definition total_filled (fills : list BookLevel) : Z := list_sum (qty <$> fills).

Definition side_ok (side : gmap Z Z) : Prop := map_Forall (fun _ q => 0 < q <= u64_max) side.

Definition as_levels (price_of : Z -> Z) (kf : list (Z * Z)) : list BookLevel :=
  (fun f => mk_BookLevel (price_of f.1) f.2) <$> kf.

(** ** The loop *)

Lemma reachable_nonneg price_of beyond side keys : side_ok side ->
  0 <= reachable price_of beyond side keys.
Proof.
  intros Hok. apply list_sum_nonneg, Forall_fmap, Forall_forall. intros k _. simpl.
  destruct (beyond _); [done |]. destruct (side !! k) as [q |] eqn:E; simpl; [| done].
  apply (Hok k q) in E. lia.
Qed.

Lemma reachable_cons price_of beyond side k ks :
  reachable price_of beyond side (k :: ks)
  = (if beyond (price_of k) then 0 else unwrap_or 0 (side !! k)) + reachable price_of beyond side ks.
Proof. reflexivity. Qed.

Lemma consume_spec price_of beyond keys : forall side remaining,
  StronglySorted Z.lt keys ->
  (forall k k', k' <= k -> k ∈ keys -> k' ∈ keys -> beyond (price_of k) = false ->
     beyond (price_of k') = false) ->
  side_ok side -> 0 <= remaining ->
  exists kf side', consume price_of beyond keys side remaining = (as_levels price_of kf, side')
  /\ side_ok side'
  /\ (forall k, k ∉ keys -> side' !! k = side !! k)
  /\ Forall (fun f => f.1 ∈ keys /\ beyond (price_of f.1) = false /\ 0 < f.2) kf
  /\ StronglySorted Z.lt kf.*1
  /\ (forall k q, (k, q) ∈ kf -> unwrap_or 0 (side !! k) = unwrap_or 0 (side' !! k) + q)
  /\ (forall k, k ∉ kf.*1 -> side' !! k = side !! k)
  /\ (forall f k, f ∈ kf -> k ∈ keys -> k < f.1 -> side' !! k = None)
  /\ list_sum kf.*2 = Z.min remaining (reachable price_of beyond side keys).
Proof.
  induction keys as [| key keys IH]; intros side remaining Hs Hb Hok Hr.
  { exists [], side. simpl. split_and!; try done; try constructor; [set_solver.. |].
    unfold reachable, list_sum. simpl. lia. }
  apply StronglySorted_inv in Hs as [Hs Hlt]. rewrite Forall_forall in Hlt.
  assert (key ∉ keys) as Hnk by (intros Hin; specialize (Hlt _ Hin); lia).
  assert (0 <= unwrap_or 0 (side !! key)) as Hav.
  { destruct (side !! key) as [q |] eqn:E; simpl; [| lia]. apply (Hok key q) in E. lia. }
  assert (forall sd, side_ok sd -> 0 <= reachable price_of beyond sd keys) as Hpos
    by (intros; by apply reachable_nonneg).
  simpl. destruct (Z.eqb_spec remaining 0) as [-> | Hr0].
  { exists [], side. split_and!; try done; try constructor; [set_solver.. |].
    rewrite reachable_cons. specialize (Hpos side Hok). simpl (list_sum _). destruct (beyond _); lia. }
  destruct (beyond (price_of key)) eqn:Hbk.
  { exists [], side. split_and!; try done; try constructor; [set_solver.. |].
    assert (reachable price_of beyond side (key :: keys) = 0) as ->; [| simpl; lia].
    unfold reachable. assert (Forall (fun k => beyond (price_of k) = true) (key :: keys)) as Hall.
    { constructor; [done |]. apply Forall_forall. intros k Hin.
      destruct (beyond (price_of k)) eqn:E; [done |].
      rewrite (Hb k key) in Hbk; try done; [specialize (Hlt _ Hin); lia | by right | by left]. }
    clear -Hall. induction Hall as [| k ks Hk _ IH]; [done |]. simpl. rewrite Hk. done. }
  assert (forall k k', k' <= k -> k ∈ keys -> k' ∈ keys -> beyond (price_of k) = false ->
            beyond (price_of k') = false) as Hb' by (intros; eapply Hb; eauto; by right).
  destruct (Z.eqb_spec (unwrap_or 0 (side !! key)) 0) as [Ha0 | Ha0].
  - destruct (IH side remaining Hs Hb' Hok Hr) as (kf & side' & -> & H1 & H2 & H3 & H4 & H5 & H6 & H7 & H8).
    exists kf, side'. split_and!; try done.
    + intros k [_ Hk]%not_elem_of_cons. by apply H2.
    + eapply Forall_impl; [exact H3 |]. intros f (? & ? & ?). split_and!; try done. by right.
    + intros f k Hf [-> | Hk]%elem_of_cons Hlt'; [| by eapply H7].
      rewrite H2 by done. destruct (side !! key) as [q |] eqn:E; [| done].
      simpl in Ha0. apply (Hok key q) in E. lia.
    + rewrite H8, reachable_cons, Hbk, Ha0. done.
  - set (a := unwrap_or 0 (side !! key)) in *. set (tk := Z.min a remaining).
    set (side1 := if a - tk =? 0 then delete key side else <[key := a - tk]> side).
    assert (exists q, side !! key = Some q /\ a = q /\ 0 < q <= u64_max) as (q & Eq & Eqa & Hq).
    { unfold a in *. destruct (side !! key) as [q |] eqn:E; [| done]. exists q.
      split_and!; try done; by apply (Hok key q) in E as [? ?]. }
    assert (side_ok side1) as Hok1.
    { unfold side1. destruct (Z.eqb_spec (a - tk) 0).
      - intros k v Hk. apply lookup_delete_Some in Hk as [_ Hk]. by apply (Hok k v).
      - apply map_Forall_insert_2; [lia | done]. }
    assert (forall k, k <> key -> side1 !! k = side !! k) as Hne.
    { intros k Hk. unfold side1. destruct (_ =? 0); [by rewrite lookup_delete_ne | by rewrite lookup_insert_ne]. }
    assert (unwrap_or 0 (side1 !! key) = a - tk) as Hkey.
    { unfold side1. destruct (Z.eqb_spec (a - tk) 0) as [-> |];
        [by rewrite lookup_delete_eq | by rewrite lookup_insert_eq]. }
    destruct (IH side1 (remaining - tk) Hs Hb' Hok1 ltac:(lia))
      as (kf & side' & -> & H1 & H2 & H3 & H4 & H5 & H6 & H7 & H8).
    assert (key ∉ kf.*1) as Hnkf.
    { intros Hin. apply list_elem_of_fmap in Hin as (f & -> & Hf).
      rewrite Forall_forall in H3. by destruct (H3 f Hf) as (? & _). }
    exists ((key, tk) :: kf), side'. split_and!; try done.
    + intros k [Hk1 Hk2]%not_elem_of_cons. rewrite H2 by done. by apply Hne.
    + constructor; [split_and!; [by left | done | simpl; lia] |].
      eapply Forall_impl; [exact H3 |]. intros f (? & ? & ?). split_and!; try done. by right.
    + simpl. constructor; [done |]. apply Forall_forall. intros k Hin.
      apply list_elem_of_fmap in Hin as (f & -> & Hf).
      rewrite Forall_forall in H3. destruct (H3 f Hf) as (Hin & _). by apply Hlt.
    + intros k v [Hkv | Hkv]%elem_of_cons.
      * injection Hkv as -> ->. rewrite H2 by done. rewrite Hkey. fold a. lia.
      * rewrite <- (H5 k v Hkv). rewrite Hne; [done |]. intros ->. apply Hnkf.
        apply list_elem_of_fmap. by exists (key, v).
    + intros k Hk. rewrite fmap_cons in Hk. apply not_elem_of_cons in Hk as [Hk1 Hk2].
      rewrite H6 by done. by apply Hne.
    + intros f k Hf Hk Hlt'. apply elem_of_cons in Hf as [-> | Hf].
      * simpl in Hlt'. apply elem_of_cons in Hk as [-> | Hk]; [lia |]. specialize (Hlt _ Hk). lia.
      * apply elem_of_cons in Hk as [-> | Hk]; [| by eapply H7].
        rewrite H2 by done.
        assert (a - tk = 0) as Hz.
        { destruct (decide (remaining - tk = 0)) as [Er | Er]; [| lia].
          exfalso. rewrite Er in H8. pose proof (Hpos side1 Hok1).
          assert (0 < list_sum kf.*2); [| lia].
          apply (list_sum_pos _ f.2); [| by apply list_elem_of_fmap_2].
          apply Forall_fmap. eapply Forall_impl; [exact H3 |]. by intros g (_ & _ & ?). }
        unfold side1. rewrite Hz. simpl. by rewrite lookup_delete_eq.
    + change (list_sum ((key, tk) :: kf).*2) with (tk + list_sum kf.*2).
      rewrite H8, reachable_cons, Hbk. fold a.
      assert (reachable price_of beyond side1 keys = reachable price_of beyond side keys) as ->.
      { unfold reachable. f_equal. apply list_fmap_ext. intros i k Hk. rewrite Hne; [done |].
        intros ->. apply Hnk. by eapply list_elem_of_lookup_2. }
      specialize (Hpos side Hok). lia.
Qed.

Lemma consume_ext f g beyond keys : (forall k, k ∈ keys -> f k = g k) ->
  forall side r, consume f beyond keys side r = consume g beyond keys side r.
Proof.
  induction keys as [| k keys IH]; intros Hfg side r; [done |]. simpl.
  assert (forall k, k ∈ keys -> f k = g k) as Hfg' by (intros; apply Hfg; by right).
  rewrite (Hfg k) by (by left). destruct (r =? 0); [done |]. destruct (beyond _); [done |].
  destruct (_ =? 0); [by apply IH |]. by rewrite IH.
Qed.

(** Prices from keys: the key itself for an ask, its opposite for a bid. *)
Definition flip (neg : bool) (k : Z) : Z := if neg then - k else k.
Lemma flip_flip neg k : flip neg (flip neg k) = k.
Proof. destruct neg; simpl; lia. Qed.

Lemma filled_at_spec neg kf p : StronglySorted Z.lt kf.*1 ->
  (forall q, (flip neg p, q) ∈ kf -> filled_at (as_levels (flip neg) kf) p = q)
  /\ (flip neg p ∉ kf.*1 -> filled_at (as_levels (flip neg) kf) p = 0).
Proof.
  induction kf as [| [k v] kf IH]; simpl; intros Hs.
  { split; [| done]. intros q Hin. by apply elem_of_nil in Hin. }
  apply StronglySorted_inv in Hs as [Hs Hlt]. destruct (IH Hs) as [H1 H2].
  unfold filled_at, as_levels in *. simpl. rewrite filter_cons. simpl. case_decide as Hp.
  - assert (flip neg p = k) as Hk by (rewrite <- Hp; apply flip_flip).
    assert (flip neg p ∉ kf.*1) as Hn.
    { intros Hin. rewrite Forall_forall in Hlt. specialize (Hlt _ Hin). lia. }
    split; [| intros Hc; exfalso; apply Hc; rewrite Hk; by left].
    intros q [[= _ ->] | Hin]%elem_of_cons.
    + rewrite fmap_cons, list_sum_cons, (H2 Hn). simpl. lia.
    + exfalso. apply Hn. apply list_elem_of_fmap. by exists (flip neg p, q).
  - assert (flip neg p <> k) as Hne by (intros <-; by rewrite flip_flip in Hp). split.
    + intros q [[= Hk _] | Hin]%elem_of_cons; [done | by apply H1].
    + intros Hn. apply H2. by apply not_elem_of_cons in Hn as [_ ?].
Qed.

(** What matching an order against one side promises. *)
Definition matched (neg : bool) (beyond : Z -> bool) (side side' : gmap Z Z) (requested : Z)
  (fills : list BookLevel) : Prop :=
  total_filled fills = Z.min requested (reachable (flip neg) beyond side (btree_keys side))
  /\ Forall (fun f => 0 < qty f /\ beyond (price_paise f) = false) fills
  /\ StronglySorted Z.lt ((fun f => flip neg (price_paise f)) <$> fills)
  /\ (forall p, unwrap_or 0 (side !! flip neg p) = unwrap_or 0 (side' !! flip neg p) + filled_at fills p)
  /\ (forall f k, f ∈ fills -> is_Some (side !! k) -> k < flip neg (price_paise f) -> side' !! k = None)
  /\ Forall (fun f => is_Some (side !! flip neg (price_paise f))) fills
  /\ side_ok side'.

Lemma consume_matched neg beyond side requested fills side' :
  (forall k k', k' <= k -> beyond (flip neg k) = false -> beyond (flip neg k') = false) ->
  side_ok side -> 0 <= requested ->
  consume (flip neg) beyond (btree_keys side) side requested = (fills, side') ->
  matched neg beyond side side' requested fills.
Proof.
  intros Hb Hok Hr Hc.
  destruct (consume_spec (flip neg) beyond (btree_keys side) side requested)
    as (kf & s' & Hc' & H1 & H2 & H3 & H4 & H5 & H6 & H7 & H8);
    [apply btree_keys_strict | intros k k' Hle _ _; by apply Hb | done | done |].
  rewrite Hc in Hc'. injection Hc' as -> ->. unfold matched.
  assert (total_filled (as_levels (flip neg) kf) = list_sum kf.*2) as ->.
  { unfold total_filled, as_levels. by rewrite <- list_fmap_compose. }
  assert ((fun f => flip neg (price_paise f)) <$> as_levels (flip neg) kf = kf.*1) as ->.
  { unfold as_levels. rewrite <- list_fmap_compose. apply list_fmap_ext. intros i [k v] _. simpl.
    apply flip_flip. }
  split_and!; try done.
  - unfold as_levels. apply Forall_fmap. eapply Forall_impl; [exact H3 |]. by intros f (_ & ? & ?).
  - intros p. destruct (filled_at_spec neg kf p H4) as [Hin Hout].
    destruct (decide (flip neg p ∈ kf.*1)) as [Hk | Hk].
    + apply list_elem_of_fmap in Hk as ([k q] & Ek & Hf). simpl in Ek. subst k.
      rewrite (Hin q Hf). by apply H5.
    + rewrite (Hout Hk), (H6 _ Hk). lia.
  - intros f k Hf Hk Hlt. apply list_elem_of_fmap in Hf as ([k0 q] & -> & Hf). simpl in Hlt.
    rewrite flip_flip in Hlt. apply (H7 (k0, q) k Hf); [| done]. by apply elem_of_btree_keys.
  - unfold as_levels. apply Forall_fmap. eapply Forall_impl; [exact H3 |]. intros f (Hin & _).
    simpl. rewrite flip_flip. by apply elem_of_btree_keys.
Qed.
End OrderBook.

(** A book as the operations keep it: positive quantities, [i64] prices, and no bid at the
    one price whose negation overflows. *)
Definition keys_within (lo hi : Z) (side : gmap Z Z) : Prop :=
  forall k, is_Some (side !! k) -> lo <= k <= hi.
Definition book_ok (b : OrderBook.t) : Prop :=
  OrderBook.side_ok (OrderBook.asks b) /\ OrderBook.side_ok (OrderBook.bids b)
  /\ keys_within i64_min i64_max (OrderBook.asks b)
  /\ keys_within (- i64_max) i64_max (OrderBook.bids b).

(** Both directions of matching, as the consuming functions call it. *)
Lemma consume_asks_matched b requested limit fills b' : book_ok b -> 0 <= requested ->
  OrderBook.consume_asks b requested limit = (fills, b') ->
  OrderBook.matched false (fun price => match limit with Some l => price >? l | None => false end)
    (OrderBook.asks b) (OrderBook.asks b') requested fills
  /\ OrderBook.bids b' = OrderBook.bids b.
Proof.
  intros (Ha & Hb & Hka & Hkb) Hr. unfold OrderBook.consume_asks.
  destruct (OrderBook.consume _ _ _ _ _) as [fl side'] eqn:E. intros [= <- <-]. split; [| done].
  apply OrderBook.consume_matched; try done. intros k k' Hle. simpl.
  destruct limit as [l |]; [| done]. rewrite !Z.gtb_ltb. lia.
Qed.

Lemma consume_bids_matched b requested limit fills b' : book_ok b -> 0 <= requested ->
  OrderBook.consume_bids b requested limit = (fills, b') ->
  OrderBook.matched true (fun price => match limit with Some l => price <? l | None => false end)
    (OrderBook.bids b) (OrderBook.bids b') requested fills
  /\ OrderBook.asks b' = OrderBook.asks b.
Proof.
  intros (Ha & Hb & Hka & Hkb) Hr. unfold OrderBook.consume_bids.
  rewrite (OrderBook.consume_ext _ (OrderBook.flip true)).
  2: { intros k Hin%elem_of_btree_keys. specialize (Hkb k Hin). simpl. apply as_i64_id. unfold_ok. lia. }
  destruct (OrderBook.consume _ _ _ _ _) as [fl side'] eqn:E. intros [= <- <-]. split; [| done].
  apply OrderBook.consume_matched; try done. intros k k' Hle. simpl.
  destruct limit as [l |]; [| done]. lia.
Qed.

(** C22: matching against the book is best-price-first, within the limit, conserves
    quantity and is maximal: an order receives exactly the smaller of what it asks for and
    what its limit reaches; every fill is positive and within the limit, prices go strictly
    from best to worst, a level is touched only when every better one is exhausted, each
    level loses exactly what was filled at its price, and the other side is untouched. *)
Theorem matching_is_price_priority_and_maximal (b : OrderBook.t) (requested : Z) (limit : option Z) :
  book_ok b -> 0 <= requested ->
  let beyond_ask price := match limit with Some l => price >? l | None => false end in
  let beyond_bid price := match limit with Some l => price <? l | None => false end in
  (let '(fills, b') := OrderBook.consume_asks b requested limit in
   OrderBook.matched false beyond_ask (OrderBook.asks b) (OrderBook.asks b') requested fills
   /\ OrderBook.bids b' = OrderBook.bids b)
  /\ (let '(fills, b') := OrderBook.consume_bids b requested limit in
      OrderBook.matched true beyond_bid (OrderBook.bids b) (OrderBook.bids b') requested fills
      /\ OrderBook.asks b' = OrderBook.asks b).
Proof.
  intros Hok Hr beyond_ask beyond_bid. split.
  - destruct (OrderBook.consume_asks b requested limit) as [fills b'] eqn:E.
    by apply consume_asks_matched.
  - destruct (OrderBook.consume_bids b requested limit) as [fills b'] eqn:E.
    by apply consume_bids_matched.
Qed.

Definition sample_book : OrderBook.t :=
  OrderBook.from_levels [mk_BookLevel 99 5; mk_BookLevel 98 7] [mk_BookLevel 102 4; mk_BookLevel 101 3].

Lemma sample_book_ok : book_ok sample_book.
Proof.
  unfold book_ok, keys_within. split_and!; try (apply (bool_decide_unpack _); vm_compute; exact I).
  all: intros k [q Hq]; apply elem_of_map_to_list in Hq; vm_compute in Hq.
  all: repeat (apply elem_of_cons in Hq as [[= -> ->] | Hq]; [unfold_ok; lia |]).
  all: by apply elem_of_nil in Hq.
Qed.

Lemma matching_is_price_priority_and_maximal_witness :
  OrderBook.total_filled (fst (OrderBook.consume_asks sample_book 10 (Some 101))) = 3
  /\ fst (OrderBook.consume_bids sample_book 6 None) = [mk_BookLevel 99 5; mk_BookLevel 98 1].
Proof.
  destruct (matching_is_price_priority_and_maximal sample_book 10 (Some 101) sample_book_ok ltac:(lia))
    as [H _].
  destruct (OrderBook.consume_asks sample_book 10 (Some 101)) as [fills b'] eqn:E.
  destruct H as [(H & _) _]. simpl fst. rewrite H. split; vm_compute; reflexivity.
Defined.
