(* ===== verification/SimBroker.v ===== *)
(** crates/hedge-broker-simulated: the order records (lifecycle.rs) and the simulated
    broker (lib.rs), as an implementation of the [BrokerAdapter] interface.

    The world of an adapter call is the broker's state, the metrics published and the
    number of clock readings made; the [k]-th reading is [now k]. *)

From S2P Require Import Prelude Core Schemas BrokerApi SimBook.

(** [vwap_paise] *)
Definition clamp_i64 (v : Z) : Z := if v >? i64_max then i64_max else if v <? i64_min then i64_min else v.

Definition vwap_paise (fills : list BookLevel) : Z * Z :=
  let '(total_qty, total_notional) :=
    foldl (fun '(q, n) f => (u128_sat_add q (qty f), i128_sat_add n (i128_sat_mul (price_paise f) (qty f))))
      (0, 0) fills in
  if total_qty =? 0 then (0, 0)
  else (if total_qty >? u64_max then u64_max else total_qty,
        clamp_i64 (Z.quot total_notional (as_i128 total_qty))).

(** ** Order records (lifecycle.rs) *)

Record OrderRecord := mk_OrderRecord {
  or_broker_order_id : string;
  or_correlation_id : CorrelationId.t;
  or_intent : BrokerOrder;
  or_filled_qty : Z;
  or_avg_fill_paise : Z;
  or_state : OrderLifecycleState.t;
  or_last_ts_ns : Z;
  or_fills : list BookLevel;
}.

Module SimOrder.
Import OrderLifecycleState.

Definition new (id : string) (intent : BrokerOrder) (ts_ns : Z) : OrderRecord :=
  mk_OrderRecord id (bo_correlation_id intent) intent 0 0 New ts_ns [].

Definition add_fill (acc : Z * Z) (f : BookLevel) : Z * Z :=
  let '(prior_notional, prior_qty) := acc in
  (i128_sat_add prior_notional (i128_sat_mul (price_paise f) (qty f)), i128_sat_add prior_qty (qty f)).

Definition apply_fills (r : OrderRecord) (fills : list BookLevel) (ts_ns : Z) : OrderRecord :=
  match fills with
  | [] =>
      mk_OrderRecord (or_broker_order_id r) (or_correlation_id r) (or_intent r) (or_filled_qty r)
        (or_avg_fill_paise r)
        (match or_state r with New => Submitted | s => s end) ts_ns (or_fills r)
  | _ =>
      let prior_qty := or_filled_qty r in
      let prior_notional := i128_sat_mul (or_avg_fill_paise r) prior_qty in
      let '(prior_notional, prior_qty) := foldl add_fill (prior_notional, prior_qty) fills in
      let new_qty := if prior_qty >? u64_max then u64_max else as_u64 prior_qty in
      let new_avg := if new_qty =? 0 then 0 else clamp_i64 (Z.quot prior_notional prior_qty) in
      let requested := Qty.raw (bo_quantity (or_intent r)) in
      let state := if new_qty >=? requested then Filled
                   else if new_qty =? 0 then Submitted else PartiallyFilled in
      mk_OrderRecord (or_broker_order_id r) (or_correlation_id r) (or_intent r) new_qty new_avg
        state ts_ns (or_fills r ++ fills)
  end.

Definition with_quantity (i : BrokerOrder) (q : Qty.t) : BrokerOrder :=
  mk_BrokerOrder (bo_correlation_id i) (bo_symbol_raw i) (bo_side i) q (bo_order_type i)
    (bo_limit_paise i) (bo_exchange i).
Definition with_limit (i : BrokerOrder) (l : Z) : BrokerOrder :=
  mk_BrokerOrder (bo_correlation_id i) (bo_symbol_raw i) (bo_side i) (bo_quantity i) (bo_order_type i)
    l (bo_exchange i).
Definition set_intent (r : OrderRecord) (i : BrokerOrder) (ts_ns : Z) : OrderRecord :=
  mk_OrderRecord (or_broker_order_id r) (or_correlation_id r) i (or_filled_qty r)
    (or_avg_fill_paise r) (or_state r) ts_ns (or_fills r).
Definition set_state (r : OrderRecord) (s : OrderLifecycleState.t) (ts_ns : Z) : OrderRecord :=
  mk_OrderRecord (or_broker_order_id r) (or_correlation_id r) (or_intent r) (or_filled_qty r)
    (or_avg_fill_paise r) s ts_ns (or_fills r).

Definition apply_modification (m : OrderModification) (ts_ns : Z) : SE OrderRecord BrokerError.t unit :=
  fun r =>
    if is_terminal (or_state r)
    then (Err (BrokerError.Rejected ("cannot modify terminal order in state " +:+ as_str (or_state r))), r)
    else
      let limited i := match om_new_limit_paise m with Some l => with_limit i l | None => i end in
      match om_new_quantity m with
      | Some q =>
          if Qty.raw q <? or_filled_qty r
          then (Err (BrokerError.Rejected ("new quantity " +:+ pretty (Qty.raw q)
                       +:+ " is below already-filled " +:+ pretty (or_filled_qty r))), r)
          else (Ok tt, set_intent r (limited (with_quantity (or_intent r) q)) ts_ns)
      | None => (Ok tt, set_intent r (limited (or_intent r)) ts_ns)
      end.

Definition apply_cancel (ts_ns : Z) : SE OrderRecord BrokerError.t unit :=
  fun r =>
    if is_terminal (or_state r)
    then (Err (BrokerError.Rejected ("cannot cancel terminal order in state " +:+ as_str (or_state r))), r)
    else (Ok tt, set_state r Cancelled ts_ns).

Definition to_status (r : OrderRecord) : OrderStatus :=
  mk_OrderStatus (or_broker_order_id r) (or_state r) (Qty.new (or_filled_qty r))
    (or_avg_fill_paise r) (Some (or_last_ts_ns r)).
End SimOrder.

(** ** The broker (lib.rs) *)

Definition SIM_BROKER_ID : BrokerId.t := BrokerId.Simulated.

Record SimulatedBrokerConfig := mk_SimConfig {
  artificial_latency_ns : Z;
  ready_at_construction : bool;
}.

Module SimBroker.

Definition default_config : SimulatedBrokerConfig := mk_SimConfig 0 true.

Record State := mk_State {
  books : gmap Z OrderBook.t;
  orders : gmap string OrderRecord;
  next_id : Z;
  ready : ReadyState.t;
}.

Definition new_state (r : ReadyState.t) : State := mk_State ∅ ∅ 0 r.
Definition new (cfg : SimulatedBrokerConfig) : State :=
  new_state (if ready_at_construction cfg then ReadyState.Ready
             else ReadyState.ConfigError "ready_at_construction = false").

Definition set_book (st : State) (symbol_raw : Z) (b : OrderBook.t) : State :=
  mk_State (<[symbol_raw := b]> (books st)) (orders st) (next_id st) (ready st).
Definition set_order (st : State) (id : string) (r : OrderRecord) : State :=
  mk_State (books st) (<[id := r]> (orders st)) (next_id st) (ready st).
Definition set_next_id (st : State) (n : Z) : State :=
  mk_State (books st) (orders st) n (ready st).
Definition force (st : State) (r : ReadyState.t) : State :=
  mk_State (books st) (orders st) (next_id st) r.
Definition force_config_error (st : State) (reason : string) : State := force st (ReadyState.ConfigError reason).
Definition force_disconnected (st : State) (reason : string) : State := force st (ReadyState.Disconnected reason).
Definition force_ready (st : State) : State := force st ReadyState.Ready.
Definition order_count (st : State) : nat := size (orders st).

Definition order_id (n : Z) : string := "SIM-" +:+ pretty n.

Definition do_submit (intent : BrokerOrder) (ts_ns : Z) : SE State BrokerError.t SubmitAck :=
  fun st =>
    if negb (ReadyState.is_ready (ready st))
    then (Err (BrokerError.NotReady (ReadyState.to_string (ready st))), st)
    else
      let st := set_next_id st (u64_sat_add (next_id st) 1) in
      let id := order_id (next_id st) in
      match books st !! bo_symbol_raw intent with
      | None =>
          (Err (BrokerError.Rejected ("no orderbook seeded for symbol " +:+ pretty (bo_symbol_raw intent))), st)
      | Some book =>
          let qty := Qty.raw (bo_quantity intent) in
          let limit := match bo_order_type intent with
                       | OrderType.Market => None | OrderType.Limit => Some (bo_limit_paise intent) end in
          let '(fills, book) := match bo_side intent with
                                | Side.Buy => OrderBook.consume_asks book qty limit
                                | Side.Sell => OrderBook.consume_bids book qty limit end in
          let st := set_book st (bo_symbol_raw intent) book in
          let record := SimOrder.apply_fills (SimOrder.new id intent ts_ns) fills ts_ns in
          (Ok (mk_SubmitAck id (Some ts_ns)), set_order st id record)
      end.

(** The shared shape of [do_modify] and [do_cancel]: look the record up and mutate it. *)
Definition on_order (id : string) (op : SE OrderRecord BrokerError.t unit) : SE State BrokerError.t unit :=
  fun st =>
    if negb (ReadyState.is_ready (ready st))
    then (Err (BrokerError.NotReady (ReadyState.to_string (ready st))), st)
    else
      match orders st !! id with
      | None => (Err (BrokerError.UnknownOrderId id), st)
      | Some r => let '(res, r) := op r in (res, set_order st id r)
      end.

Definition do_modify (m : OrderModification) (ts_ns : Z) : SE State BrokerError.t unit :=
  on_order (om_broker_order_id m) (SimOrder.apply_modification m ts_ns).
Definition do_cancel (id : string) (ts_ns : Z) : SE State BrokerError.t unit :=
  on_order id (SimOrder.apply_cancel ts_ns).

Definition do_status (id : string) : SE State BrokerError.t OrderStatus :=
  fun st =>
    match ready st with
    | ReadyState.ConfigError _ => (Err (BrokerError.NotReady (ReadyState.to_string (ready st))), st)
    | _ =>
      match orders st !! id with
      | Some r => (Ok (SimOrder.to_status r), st)
      | None => (Err (BrokerError.UnknownOrderId id), st)
      end
    end.

(** *** The adapter *)

Section adapter.
Context (cfg : SimulatedBrokerConfig) (now : nat -> Z).

Record world := mk_world {
  sw_state : State;
  sw_metrics : list BrokerMetric;
  sw_metrics_emitted : Z;
  sw_reads : nat;
}.

(** [record_metric]: two readings, the published metric and the counter. *)
Definition record_metric (op : BrokerOp.t) (cid : CorrelationId.t) (start_ns : Z) (error : bool)
  (w : world) : world :=
  let latency_ns := u64_sat_add (u64_sat_sub (now (sw_reads w)) start_ns) (artificial_latency_ns cfg) in
  let metric := mk_BrokerMetric SIM_BROKER_ID cid op latency_ns error None (now (S (sw_reads w))) in
  mk_world (sw_state w) (sw_metrics w ++ [metric]) (as_u64 (sw_metrics_emitted w + 1)) (S (S (sw_reads w))).

(** One call: a start reading, the operation on the state, its metric. *)
Definition call {A} (op : BrokerOp.t) (cid : State -> CorrelationId.t)
  (body : Z -> SE State BrokerError.t A) : SE world BrokerError.t A :=
  fun w =>
    let start := now (sw_reads w) in
    let '(res, st) := body start (sw_state w) in
    let w := mk_world st (sw_metrics w) (sw_metrics_emitted w) (S (sw_reads w)) in
    (res, record_metric op (cid st) start (negb (is_ok res)) w).

Definition cid_of (id : string) (st : State) : CorrelationId.t :=
  unwrap_or CorrelationId.NIL (or_correlation_id <$> orders st !! id).

Definition submit (intent : BrokerOrder) : SE world BrokerError.t SubmitAck :=
  call BrokerOp.Submit (fun _ => bo_correlation_id intent) (do_submit intent).
Definition modify (m : OrderModification) : SE world BrokerError.t unit :=
  call BrokerOp.Modify (cid_of (om_broker_order_id m)) (do_modify m).
Definition cancel (id : string) : SE world BrokerError.t unit :=
  call BrokerOp.Cancel (cid_of id) (do_cancel id).
Definition status (id : string) : SE world BrokerError.t OrderStatus :=
  call BrokerOp.Status (cid_of id) (fun _ => do_status id).
Definition is_ready (w : world) : ReadyState.t * world :=
  let start := now (sw_reads w) in
  let w := mk_world (sw_state w) (sw_metrics w) (sw_metrics_emitted w) (S (sw_reads w)) in
  let snapshot := ready (sw_state w) in
  (snapshot, record_metric BrokerOp.Ready CorrelationId.NIL start (negb (ReadyState.is_ready snapshot)) w).

Definition adapter : BrokerAdapter world :=
  mk_BrokerAdapter SIM_BROKER_ID submit modify cancel status is_ready.
Definition metric_subject : string := "broker.metric." +:+ broker_id_token SIM_BROKER_ID.
End adapter.
End SimBroker.

(** ** Lemmas *)

Definition notional (fills : list BookLevel) : Z := list_sum ((fun f => price_paise f * qty f) <$> fills).
Definition fill_ok (f : BookLevel) : Prop := 0 < qty f /\ i64_ok (price_paise f).

Lemma notional_cons f fills : notional (f :: fills) = price_paise f * qty f + notional fills.
Proof. reflexivity. Qed.
Lemma total_filled_cons f fills :
  OrderBook.total_filled (f :: fills) = qty f + OrderBook.total_filled fills.
Proof. reflexivity. Qed.

Lemma total_filled_nonneg fills : Forall fill_ok fills -> 0 <= OrderBook.total_filled fills.
Proof.
  intros H. apply list_sum_nonneg, Forall_fmap. eapply Forall_impl; [exact H |]. intros f [? _]. simpl. lia.
Qed.

Lemma notional_bounds fills : Forall fill_ok fills ->
  i64_min * OrderBook.total_filled fills <= notional fills <= i64_max * OrderBook.total_filled fills.
Proof.
  induction 1 as [| f fills [Hq Hp] _ IH]; [done |].
  rewrite notional_cons, total_filled_cons. unfold_ok. nia.
Qed.

(** No saturation while the total fits in 64 bits. *)
Lemma fold_fills fills : forall n q, Forall fill_ok fills -> 0 <= q ->
  i64_min * q <= n <= i64_max * q -> q + OrderBook.total_filled fills <= u64_max ->
  foldl SimOrder.add_fill (n, q) fills = (n + notional fills, q + OrderBook.total_filled fills).
Proof.
  induction fills as [| f fills IH]; intros n q Hf Hq Hn Hu; simpl.
  { unfold notional, OrderBook.total_filled. simpl. by rewrite !Z.add_0_r. }
  apply Forall_cons in Hf as [[Hfq Hfp] Hf].
  pose proof (total_filled_nonneg fills Hf). rewrite total_filled_cons in Hu.
  assert (i64_min * qty f <= price_paise f * qty f <= i64_max * qty f) as Hpq by (unfold_ok; nia).
  assert (i64_min * (q + qty f) <= n + price_paise f * qty f <= i64_max * (q + qty f)) as Hn' by lia.
  unfold i128_sat_add, i128_sat_mul.
  rewrite (sat_id _ _ (price_paise f * qty f)) by (unfold_ok; lia).
  rewrite !sat_id by (unfold_ok; lia).
  rewrite IH; try done; try lia. rewrite notional_cons, total_filled_cons. f_equal; lia.
Qed.

Lemma quot_between n q lo hi : 0 < q -> lo <= 0 <= hi -> lo * q <= n <= hi * q -> lo <= Z.quot n q <= hi.
Proof.
  intros Hq Hlh [Hlo Hhi]. destruct (Z.le_gt_cases 0 n).
  - rewrite Z.quot_div_nonneg by lia. split; [pose proof (Z.div_pos n q); lia |].
    apply Z.div_le_upper_bound; lia.
  - rewrite <- (Z.opp_involutive n), Z.quot_opp_l, Z.quot_div_nonneg by lia.
    pose proof (Z.div_pos (- n) q). enough (- n / q <= - lo) by lia.
    apply Z.div_le_upper_bound; lia.
Qed.

Lemma clamp_i64_id v : i64_ok v -> clamp_i64 v = v.
Proof. unfold clamp_i64. unfold_ok. intros. rewrite Z.gtb_ltb. split_ifs; lia. Qed.

(** *** Records *)

Definition state_fits (s : OrderLifecycleState.t) (filled requested : Z) : Prop :=
  match s with
  | OrderLifecycleState.Submitted => filled = 0
  | OrderLifecycleState.PartiallyFilled => 0 < filled
  | OrderLifecycleState.Filled => filled = requested
  | OrderLifecycleState.Cancelled => True
  | _ => False
  end.

Definition order_ok (id : string) (r : OrderRecord) : Prop :=
  or_broker_order_id r = id
  /\ or_filled_qty r = OrderBook.total_filled (or_fills r)
  /\ 0 <= or_filled_qty r <= bo_quantity (or_intent r) /\ u64_ok (bo_quantity (or_intent r))
  /\ or_avg_fill_paise r = Z.quot (notional (or_fills r)) (or_filled_qty r)
  /\ state_fits (or_state r) (or_filled_qty r) (bo_quantity (or_intent r)).

Lemma new_order_ok id intent ts fills : u64_ok (bo_quantity intent) -> Forall fill_ok fills ->
  OrderBook.total_filled fills <= bo_quantity intent ->
  order_ok id (SimOrder.apply_fills (SimOrder.new id intent ts) fills ts).
Proof.
  intros Hq Hf Hle. unfold SimOrder.apply_fills. destruct fills as [| f fills].
  { unfold order_ok. simpl. unfold_ok. split_and!; try done; lia. }
  pose proof Hf as [[Hfq _] Hf']%Forall_cons.
  pose proof (total_filled_nonneg fills Hf').
  cbn [SimOrder.new or_filled_qty or_avg_fill_paise or_intent or_broker_order_id or_correlation_id or_fills].
  change (i128_sat_mul 0 0) with 0. set (l := f :: fills) in *.
  assert (0 < OrderBook.total_filled l) as Hpos by (unfold l; rewrite total_filled_cons; lia).
  rewrite fold_fills by (try done; unfold_ok; lia). rewrite !Z.add_0_l.
  pose proof (notional_bounds l Hf) as Hnb.
  set (tot := OrderBook.total_filled l) in *. rewrite Z.gtb_ltb, Z.geb_leb. unfold Qty.raw, Qty.t in *.
  replace (u64_max <? tot) with false by (unfold_ok; lia).
  rewrite as_u64_id by (unfold_ok; lia).
  replace (tot =? 0) with false by lia.
  rewrite clamp_i64_id by (unfold i64_ok; apply quot_between; unfold_ok; lia).
  unfold order_ok. cbn [or_filled_qty or_avg_fill_paise or_intent or_broker_order_id or_fills or_state app].
  split_and!; try done; try lia.
  destruct (Z.leb_spec (bo_quantity intent) tot); simpl; lia.
Qed.

Lemma modify_order_ok id m ts r : order_ok id r ->
  (forall q, om_new_quantity m = Some q -> u64_ok q) ->
  order_ok id (snd (SimOrder.apply_modification m ts r)).
Proof.
  intros Hok Hm. pose proof Hok as (H1 & H2 & H3 & H4 & H5 & H6). unfold SimOrder.apply_modification.
  destruct (OrderLifecycleState.is_terminal (or_state r)) eqn:Et; [done |].
  destruct (om_new_quantity m) as [q |].
  - specialize (Hm q eq_refl). unfold Qty.raw. destruct (Z.ltb_spec q (or_filled_qty r)); [done |].
    unfold order_ok. destruct (om_new_limit_paise m); simpl; split_and!; try done; try lia;
      by destruct (or_state r).
  - unfold order_ok. destruct (om_new_limit_paise m); simpl; split_and!; try done; lia.
Qed.

Lemma cancel_order_ok id ts r : order_ok id r -> order_ok id (snd (SimOrder.apply_cancel ts r)).
Proof.
  intros Hok. pose proof Hok as (H1 & H2 & H3 & H4 & H5 & H6). unfold SimOrder.apply_cancel.
  destruct (OrderLifecycleState.is_terminal (or_state r)); [done |].
  unfold order_ok. simpl. split_and!; done || lia.
Qed.

(** *** States *)

Definition state_ok (st : SimBroker.State) : Prop :=
  (forall id r, SimBroker.orders st !! id = Some r -> order_ok id r
     /\ exists n, id = SimBroker.order_id n /\ 0 < n <= SimBroker.next_id st)
  /\ (forall s b, SimBroker.books st !! s = Some b -> book_ok b)
  /\ 0 <= SimBroker.next_id st.

Lemma matched_fills_ok neg beyond side side' requested fills lo hi :
  OrderBook.matched neg beyond side side' requested fills -> keys_within lo hi side ->
  (forall k, lo <= k <= hi -> i64_ok (OrderBook.flip neg k)) ->
  0 <= requested -> OrderBook.side_ok side ->
  Forall fill_ok fills /\ OrderBook.total_filled fills <= requested /\ keys_within lo hi side'.
Proof.
  intros (Ht & Hf & _ & Hc & _ & Hin & Hok') Hk Hi Hr Hok. split_and!.
  - rewrite Forall_forall in Hf, Hin |- *. intros f Hx. split; [by apply Hf |].
    specialize (Hi _ (Hk _ (Hin f Hx))). by rewrite OrderBook.flip_flip in Hi.
  - rewrite Ht. lia.
  - intros k [q Hq]. apply Hk. specialize (Hc (OrderBook.flip neg k)). rewrite OrderBook.flip_flip in Hc.
    pose proof (Hok' k q Hq) as Hqpos. simpl in Hqpos. rewrite Hq in Hc. simpl in Hc.
    destruct (side !! k) as [v |] eqn:E; [by eexists |]. simpl in Hc.
    assert (0 <= OrderBook.filled_at fills (OrderBook.flip neg k)); [| lia].
    unfold OrderBook.filled_at. apply list_sum_nonneg, Forall_fmap, Forall_forall. intros f Hx.
    apply list_elem_of_filter in Hx as [_ Hx]. rewrite Forall_forall in Hf. specialize (Hf f Hx). simpl. lia.
Qed.

Lemma submit_match_ok book intent fills book' limit : book_ok book -> u64_ok (bo_quantity intent) ->
  match bo_side intent with
  | Side.Buy => OrderBook.consume_asks book (bo_quantity intent) limit
  | Side.Sell => OrderBook.consume_bids book (bo_quantity intent) limit
  end = (fills, book') ->
  Forall fill_ok fills /\ OrderBook.total_filled fills <= bo_quantity intent /\ book_ok book'.
Proof.
  intros Hb Hq Hc. assert (0 <= bo_quantity intent) as Hq0 by (unfold_ok; lia).
  pose proof Hb as (Ha1 & Hb1 & Hk1 & Hk2). destruct (bo_side intent).
  - apply consume_asks_matched in Hc as [Hm Hbids]; try done.
    destruct (matched_fills_ok _ _ _ _ _ _ i64_min i64_max Hm Hk1) as (H1 & H2 & H3); try done.
    unfold book_ok. rewrite Hbids. destruct Hm as (_ & _ & _ & _ & _ & _ & Hok'). by split_and!.
  - apply consume_bids_matched in Hc as [Hm Hasks]; try done.
    destruct (matched_fills_ok _ _ _ _ _ _ (- i64_max) i64_max Hm Hk2) as (H1 & H2 & H3); try done.
    { intros k Hk. simpl. unfold_ok. lia. }
    unfold book_ok. rewrite Hasks. destruct Hm as (_ & _ & _ & _ & _ & _ & Hok'). by split_and!.
Qed.

(** *** Histories *)

Inductive sim_op :=
| OpSubmit (intent : BrokerOrder) (ts : Z)
| OpModify (m : OrderModification) (ts : Z)
| OpCancel (id : string) (ts : Z)
| OpSetBook (symbol : Z) (b : OrderBook.t)
| OpForce (r : ReadyState.t).

Definition sim_step (st : SimBroker.State) (o : sim_op) : SimBroker.State :=
  match o with
  | OpSubmit i ts => snd (SimBroker.do_submit i ts st)
  | OpModify m ts => snd (SimBroker.do_modify m ts st)
  | OpCancel id ts => snd (SimBroker.do_cancel id ts st)
  | OpSetBook s b => SimBroker.set_book st s b
  | OpForce r => SimBroker.force st r
  end.
Definition sim_run (st : SimBroker.State) (ops : list sim_op) : SimBroker.State := foldl sim_step st ops.

Definition sim_op_ok (o : sim_op) : Prop :=
  match o with
  | OpSubmit i _ => u64_ok (bo_quantity i)
  | OpModify m _ => forall q, om_new_quantity m = Some q -> u64_ok q
  | OpSetBook _ b => book_ok b
  | _ => True
  end.

Lemma order_id_inj a b : SimBroker.order_id a = SimBroker.order_id b -> a = b.
Proof. unfold SimBroker.order_id. intros E. apply (inj (String.append _)) in E. exact (inj pretty _ _ E). Qed.

(** What a step does to the records that are there. *)
Lemma sim_step_spec st o : state_ok st -> sim_op_ok o -> SimBroker.next_id st < u64_max ->
  state_ok (sim_step st o) /\ SimBroker.next_id (sim_step st o) <= SimBroker.next_id st + 1
  /\ forall id r, SimBroker.orders st !! id = Some r ->
     exists r', SimBroker.orders (sim_step st o) !! id = Some r'
     /\ or_correlation_id r' = or_correlation_id r /\ or_fills r' = or_fills r
     /\ (OrderLifecycleState.is_terminal (or_state r) = true -> r' = r).
Proof.
  intros (Ho & Hb & Hn) Hop Hmax.
  assert (forall id (op : SE OrderRecord BrokerError.t unit),
    (forall r, order_ok id r -> order_ok id (snd (op r))) ->
    (forall r, or_correlation_id (snd (op r)) = or_correlation_id r /\ or_fills (snd (op r)) = or_fills r
       /\ (OrderLifecycleState.is_terminal (or_state r) = true -> snd (op r) = r)) ->
    state_ok (snd (SimBroker.on_order id op st))
    /\ SimBroker.next_id (snd (SimBroker.on_order id op st)) <= SimBroker.next_id st + 1
    /\ forall id' r, SimBroker.orders st !! id' = Some r ->
       exists r', SimBroker.orders (snd (SimBroker.on_order id op st)) !! id' = Some r'
       /\ or_correlation_id r' = or_correlation_id r /\ or_fills r' = or_fills r
       /\ (OrderLifecycleState.is_terminal (or_state r) = true -> r' = r)) as Hon.
  { intros id op Hpres Hkeep. unfold SimBroker.on_order.
    destruct (negb _); [simpl; split_and!; [done | lia | eauto 10] |].
    destruct (SimBroker.orders st !! id) as [r |] eqn:E; [| simpl; split_and!; [done | lia | eauto 10]].
    specialize (Hpres r (proj1 (Ho id r E))). specialize (Hkeep r).
    destruct (op r) as [res r1]. simpl in *. split_and!; [| lia |].
    - split; [| done]. intros id' r' Hr'. simpl in Hr'. apply lookup_insert_Some in Hr' as [[<- <-] | [Hne Hr']].
      + split; [done |]. by destruct (Ho id r E).
      + by apply Ho.
    - intros id' r' Hr'. destruct (decide (id = id')) as [<- | Hne].
      + rewrite E in Hr'. injection Hr' as <-. exists r1. simpl. by rewrite lookup_insert_eq.
      + exists r'. simpl. by rewrite lookup_insert_ne. }
  destruct o as [intent ts | m ts | id ts | s b | r]; simpl.
  - unfold SimBroker.do_submit. destruct (negb _); [simpl; split_and!; [done | lia | eauto 10] |].
    simpl. unfold u64_sat_add. rewrite sat_id by lia.
    destruct (SimBroker.books st !! bo_symbol_raw intent) as [book |] eqn:Eb.
    2: { simpl. split_and!; [| lia | eauto 10]. split; [| split; [done | simpl; lia]].
         intros id r Hr. destruct (Ho id r Hr) as (? & n & ? & ?). split; [done |].
         exists n. simpl. split; [done | lia]. }
    set (limit := match bo_order_type intent with OrderType.Market => _ | OrderType.Limit => _ end).
    unfold Qty.raw. destruct (match bo_side intent with Side.Buy => _ | Side.Sell => _ end)
      as [fills book'] eqn:Ec.
    destruct (submit_match_ok _ _ _ _ _ (Hb _ _ Eb) Hop Ec) as (Hf & Hle & Hb').
    simpl. set (id := SimBroker.order_id _).
    assert (SimBroker.orders st !! id = None) as Hfresh.
    { destruct (SimBroker.orders st !! id) as [r |] eqn:E; [| done].
      destruct (Ho id r E) as (_ & n & Hid & Hle'). apply order_id_inj in Hid. lia. }
    split_and!; [| lia |].
    + split_and!; simpl; [| | lia].
      * intros id' r Hr. apply lookup_insert_Some in Hr as [[<- <-] | [Hne Hr]].
        -- split; [by apply new_order_ok |]. exists (SimBroker.next_id st + 1). split; [done | lia].
        -- destruct (Ho id' r Hr) as (? & n & ? & ?). split; [done |]. exists n. split; [done | lia].
      * intros s b Hs. apply lookup_insert_Some in Hs as [[<- <-] | [_ Hs]]; [done | by eapply Hb].
    + intros id' r Hr. exists r. rewrite lookup_insert_ne by congruence. done.
  - apply Hon; [intros r Hr; by apply modify_order_ok |]. intros r. unfold SimOrder.apply_modification.
    destruct (OrderLifecycleState.is_terminal (or_state r)); [done |].
    destruct (om_new_quantity m); [destruct (_ <? _) |]; by destruct (om_new_limit_paise m).
  - apply Hon; [intros r Hr; by apply cancel_order_ok |]. intros r. unfold SimOrder.apply_cancel.
    by destruct (OrderLifecycleState.is_terminal (or_state r)).
  - split_and!; [| lia | eauto 10]. split_and!; simpl; [done | | done].
    intros s' b' Hs. apply lookup_insert_Some in Hs as [[<- <-] | [_ Hs]]; [done | by eapply Hb].
  - split_and!; [done | lia | eauto 10].
Qed.

Lemma sim_run_spec ops : forall st, state_ok st -> Forall sim_op_ok ops ->
  SimBroker.next_id st + Z.of_nat (length ops) <= u64_max ->
  state_ok (sim_run st ops)
  /\ SimBroker.next_id (sim_run st ops) <= SimBroker.next_id st + Z.of_nat (length ops)
  /\ forall id r, SimBroker.orders st !! id = Some r ->
     exists r', SimBroker.orders (sim_run st ops) !! id = Some r'
     /\ or_correlation_id r' = or_correlation_id r /\ or_fills r' = or_fills r
     /\ (OrderLifecycleState.is_terminal (or_state r) = true -> r' = r).
Proof.
  induction ops as [| o ops IH]; intros st Hok Hops Hmax.
  { simpl. split_and!; [done | lia | eauto 10]. }
  apply Forall_cons in Hops as [Ho Hops]. simpl in Hmax.
  destruct (sim_step_spec st o Hok Ho ltac:(lia)) as (Hok1 & Hn1 & Hk1).
  destruct (IH (sim_step st o) Hok1 Hops ltac:(lia)) as (Hok2 & Hn2 & Hk2).
  simpl. split_and!; [done | simpl; lia |].
  intros id r Hr. destruct (Hk1 id r Hr) as (r1 & Hr1 & Hc1 & Hf1 & Ht1).
  destruct (Hk2 id r1 Hr1) as (r2 & Hr2 & Hc2 & Hf2 & Ht2).
  exists r2. split_and!; [done | congruence | congruence |].
  intros Ht. pose proof (Ht1 Ht). subst r1. by apply Ht2.
Qed.

Lemma new_state_ok r : state_ok (SimBroker.new_state r).
Proof. unfold state_ok. simpl. split_and!; done. Qed.

(** The simulated broker's ledger: after any history of submissions, modifications,
    cancellations, book replacements and readiness changes every order is stored under its
    own broker id, its filled quantity is the sum of its fills and never exceeds the
    requested one, its average is the truncated volume-weighted price of its fills and its
    state agrees with them; no later call replaces or forgets an order, changes its fills,
    or changes a terminal one at all. *)
Theorem simulated_ledger_consistent (ready : ReadyState.t) (ops more : list sim_op) :
  Forall sim_op_ok ops -> Forall sim_op_ok more ->
  Z.of_nat (length ops) + Z.of_nat (length more) <= u64_max ->
  let st := sim_run (SimBroker.new_state ready) ops in
  forall id r, SimBroker.orders st !! id = Some r ->
  order_ok id r
  /\ exists r', SimBroker.orders (sim_run st more) !! id = Some r'
     /\ or_correlation_id r' = or_correlation_id r /\ or_fills r' = or_fills r
     /\ (OrderLifecycleState.is_terminal (or_state r) = true -> r' = r).
Proof.
  intros Ho Hm Hmax st id r Hr.
  destruct (sim_run_spec ops (SimBroker.new_state ready) (new_state_ok ready) Ho ltac:(simpl; lia))
    as (Hok & Hn & _).
  fold st in Hok, Hn. split; [by apply Hok |].
  destruct (sim_run_spec more st Hok Hm ltac:(simpl in Hn; lia)) as (_ & _ & Hk). by apply Hk.
Qed.

Definition sim_buy : BrokerOrder :=
  mk_BrokerOrder 7 1 Side.Buy 5 OrderType.Limit 102 Exchange.Nse.

Lemma simulated_ledger_consistent_witness :
  let ops := [OpSetBook 1 sample_book; OpSubmit sim_buy 10] in
  exists r, SimBroker.orders (sim_run (SimBroker.new_state ReadyState.Ready) ops) !! "SIM-1" = Some r
  /\ or_state r = OrderLifecycleState.Filled
  /\ or_avg_fill_paise r = 101
  /\ exists r', SimBroker.orders (sim_run (sim_run (SimBroker.new_state ReadyState.Ready) ops)
                                   [OpCancel "SIM-1" 11]) !! "SIM-1" = Some r' /\ r' = r.
Proof.
  intros ops. eexists. split; [vm_compute; reflexivity |].
  split; [reflexivity | split; [reflexivity |]].
  destruct (simulated_ledger_consistent ReadyState.Ready ops [OpCancel "SIM-1" 11]) with
    (id := "SIM-1") (r := mk_OrderRecord "SIM-1" 7 sim_buy 5 101 OrderLifecycleState.Filled 10
                            [mk_BookLevel 101 3; mk_BookLevel 102 2])
    as (_ & r' & Hr' & _ & _ & Ht).
  - constructor; [exact sample_book_ok | constructor; [simpl; unfold_ok; lia | constructor]].
  - by repeat constructor.
  - vm_compute. discriminate.
  - vm_compute. reflexivity.
  - exists r'. split; [exact Hr' | exact (Ht eq_refl)].
Defined.

(** What the simulated broker promises as a [BrokerAdapter]: an accepted submission is
    immediately visible under its acknowledged id, with the order's own correlation id, a
    filled quantity within the request and a non-terminal-failure state; an order it does
    not accept leaves the recorded orders as they were; and each call publishes exactly one
    metric, whose error flag is the outcome's. *)
Theorem simulated_adapter_contract (cfg : SimulatedBrokerConfig) (now : nat -> Z)
  (w : SimBroker.world) (intent : BrokerOrder) :
  state_ok (SimBroker.sw_state w) -> SimBroker.next_id (SimBroker.sw_state w) < u64_max ->
  u64_ok (bo_quantity intent) ->
  let a := SimBroker.adapter cfg now in
  let '(res, w') := ba_submit a intent w in
  (exists m, SimBroker.sw_metrics w' = SimBroker.sw_metrics w ++ [m]
     /\ bm_error m = negb (is_ok res) /\ bm_op m = BrokerOp.Submit
     /\ bm_correlation_id m = bo_correlation_id intent)
  /\ match res with
     | Err _ => SimBroker.orders (SimBroker.sw_state w') = SimBroker.orders (SimBroker.sw_state w)
     | Ok ack =>
         exists os w'', ba_status a (ack_broker_order_id ack) w' = (Ok os, w'')
         /\ os_broker_order_id os = ack_broker_order_id ack
         /\ 0 <= os_filled_qty os <= bo_quantity intent
         /\ state_fits (os_state os) (os_filled_qty os) (bo_quantity intent)
         /\ os_state os <> OrderLifecycleState.Cancelled
     end.
Proof.
  intros Hst Hmax Hq a. subst a. simpl. unfold SimBroker.submit, SimBroker.call.
  set (start := now (SimBroker.sw_reads w)).
  destruct (SimBroker.do_submit intent start (SimBroker.sw_state w)) as [res st'] eqn:E. simpl.
  split; [by eexists |].
  destruct (sim_step_spec (SimBroker.sw_state w) (OpSubmit intent start) Hst Hq Hmax) as (Hok & _).
  simpl in Hok. rewrite E in Hok. simpl in Hok. revert E. unfold SimBroker.do_submit.
  destruct (negb (ReadyState.is_ready _)) eqn:Er; [by intros [= <- <-] |].
  simpl. destruct (SimBroker.books _ !! _) as [book |]; [| by intros [= <- <-]].
  destruct (match bo_side intent with Side.Buy => _ | Side.Sell => _ end) as [fills book'].
  intros [= <- <-]. simpl in Hok |- *.
  unfold SimBroker.status, SimBroker.call, SimBroker.do_status. simpl.
  assert (SimBroker.ready (SimBroker.sw_state w) = ReadyState.Ready) as ->.
  { destruct (SimBroker.ready (SimBroker.sw_state w)); [done | discriminate ..]. }
  rewrite lookup_insert_eq.
  set (id := SimBroker.order_id _) in *. set (r := SimOrder.apply_fills _ _ _) in *.
  do 2 eexists. split; [reflexivity |].
  destruct Hok as [Ho _]. destruct (Ho id r) as ((H1 & H2 & H3 & H4 & H5 & H6) & _);
    [simpl; by rewrite lookup_insert_eq |].
  assert (or_intent r = intent) as Hi.
  { unfold r, SimOrder.apply_fills. destruct fills; [done |]. by destruct (foldl _ _ _). }
  rewrite Hi in H3, H6. simpl. unfold Qty.new. split_and!; try done; try lia.
  unfold r, SimOrder.apply_fills. destruct fills; [done |]. destruct (foldl _ _ _). simpl.
  repeat match goal with |- context [if ?b then _ else _] => destruct b end; done.
Qed.

Lemma simulated_adapter_contract_witness :
  let w := SimBroker.mk_world (sim_run (SimBroker.new_state ReadyState.Ready) [OpSetBook 1 sample_book]) [] 0 0 in
  let '(res, w') := ba_submit (SimBroker.adapter SimBroker.default_config Z.of_nat) sim_buy w in
  is_ok res = true /\ length (SimBroker.sw_metrics w') = 1%nat.
Proof.
  intros w.
  assert (state_ok (SimBroker.sw_state w)) as Hst.
  { apply (sim_run_spec [OpSetBook 1 sample_book] (SimBroker.new_state ReadyState.Ready));
      [apply new_state_ok | constructor; [exact sample_book_ok | constructor] | vm_compute; discriminate]. }
  assert (SimBroker.next_id (SimBroker.sw_state w) < u64_max) as Hmax by (vm_compute; reflexivity).
  assert (u64_ok (bo_quantity sim_buy)) as Hq by (simpl; unfold_ok; lia).
  assert (is_ok (fst (ba_submit (SimBroker.adapter SimBroker.default_config Z.of_nat) sim_buy w)) = true)
    as Hres by (vm_compute; reflexivity).
  pose proof (simulated_adapter_contract SimBroker.default_config Z.of_nat w sim_buy Hst Hmax Hq) as H.
  cbv zeta in H. revert Hres H.
  generalize (ba_submit (SimBroker.adapter SimBroker.default_config Z.of_nat) sim_buy w).
  intros [res w'] Hres [(m & Hm & _) _]. by rewrite Hm.
Defined.
