(* ===== verification/VendorHttp.v ===== *)
(** What the five vendor adapters (hedge-broker-zerodha, -upstox, -dhan, -angelone and
    -shoonya) have in common, each in its own copy: the request and the classification of its
    outcome (client.rs), the cached readiness, the metric of every call and the refusal to
    send when misconfigured (lib.rs), and the rupee texts (translator.rs). The copies are
    instances of the definitions of this file. *)

From S2P Require Import Prelude Ieee Core Schemas BrokerApi Decimal.
From Stdlib Require Import Ascii.

(** ** Requests *)

Inductive Method : Type := Post | Put | Get | Delete.

(** The fields of a JSON body before it is encoded. *)
Inductive Field : Type := FStr (s : string) | FInt (z : Z) | FFloat (x : f64) | FBool (b : bool).

Inductive Body : Type :=
| NoBody
| FormBody (fields : list (string * string))
| JsonBody (fields : list (string * Field))
| TextBody (text : string).

Record Request := mk_Request {
  rq_method : Method;
  rq_url : string;
  rq_headers : list (string * string);
  rq_body : Body;
}.

(** [reqwest::Error], as far as it is read. *)
Record NetError := mk_NetError { is_timeout : bool; is_connect : bool; ne_text : string }.
Record Response := mk_Response { rs_status : Z; rs_text : result string NetError }.

(** What the adapters use of the crates around them: the HTTP client (its construction, the
    check of a header value, the answer to a request, given those sent before), the encoders of
    Shoonya's body, and the clock. *)
Class Transport := {
  build_client : result unit string;
  header_value : string -> result unit string;
  send : list Request -> Request -> result Response NetError;
  json_text : list (string * Field) -> result string string;
  form_urlencode : list (string * string) -> string;
  now : nat -> Z;
}.

(** ** State of an adapter *)

(** The cached readiness, and what the adapter has done to the world: the metrics published,
    the requests sent and the readings of the clock. *)
Record AdapterState := mk_AdapterState {
  ready_state : ReadyState.t;
  published : list BrokerMetric;
  requests : list Request;
  readings : nat;
}.
Definition set_ready (r : ReadyState.t) (w : AdapterState) : AdapterState :=
  mk_AdapterState r (published w) (requests w) (readings w).
Definition push_request (rq : Request) (w : AdapterState) : AdapterState :=
  mk_AdapterState (ready_state w) (published w) (requests w ++ [rq]) (readings w).

(** A call on the broker's side: an action on the state that may fail. *)
Abbreviation Action := (SE AdapterState BrokerError.t).

(** ** Errors *)

Definition map_network_err (e : NetError) : BrokerError.t :=
  if is_timeout e then BrokerError.Transient ("timeout: " +:+ ne_text e)
  else if is_connect e then BrokerError.Network ("connect: " +:+ ne_text e)
  else BrokerError.Network (ne_text e).

(** Strings are UTF-8: a character starts at every byte that is not a continuation byte. *)
Definition is_continuation (c : ascii) : bool :=
  let n := N_of_ascii c in ((128 <=? n) && (n <? 192))%N.
Fixpoint char_count (s : string) : nat :=
  match s with
  | EmptyString => 0
  | String c rest => if is_continuation c then char_count rest else S (char_count rest)
  end.
Fixpoint take_chars (n : nat) (s : string) : string :=
  match s with
  | EmptyString => EmptyString
  | String c rest =>
    if is_continuation c then String c (take_chars n rest)
    else match n with O => EmptyString | S n => String c (take_chars n rest) end
  end.
Definition ellipsis : string := "…".

(** Zerodha's copy counts characters. *)
Definition truncate (s : string) (max_chars : nat) : string :=
  if (char_count s <=? max_chars)%nat then s else take_chars max_chars s +:+ ellipsis.
(** The other copies count bytes before they cut characters. *)
Definition truncate_bytes (body : string) : string :=
  if (512 <? String.length body)%nat then take_chars 512 body +:+ ellipsis else body.

Definition classify_status (status : Z) (truncated : string) : BrokerError.t :=
  if (status =? 401) || (status =? 403) then BrokerError.Auth (pretty status +:+ ": " +:+ truncated)
  else if status =? 429 then BrokerError.Transient ("rate limited: " +:+ truncated)
  else if (500 <=? status) && (status <=? 599) then
    BrokerError.Transient (pretty status +:+ ": " +:+ truncated)
  else if (status =? 400) || (status =? 404) || (status =? 422) then
    BrokerError.Rejected (pretty status +:+ ": " +:+ truncated)
  else BrokerError.Http status truncated.

Definition is_success (status : Z) : bool := (200 <=? status) && (status <=? 299).

(** ** Prices *)

Definition paise_to_rupee_string (paise : Z) : string :=
  let abs := Z.abs paise in
  rupee_text (paise <? 0) (abs / 100) (abs mod 100).
Definition paise_to_rupee_f64 (paise : Z) : f64 := f64_div (f64_of_Z paise) (f64_of_Z 100).
(** [(price * 100.0).round() as i64]. *)
Definition rupees_to_paise (price : f64) : Z := f_round_as_i64 (f64_mul price (f64_of_Z 100)).

(** ** Calls *)

Section calls.
Context `{Transport}.

Definition read_clock (w : AdapterState) : Z * AdapterState :=
  (now (readings w), mk_AdapterState (ready_state w) (published w) (requests w) (S (readings w))).

(** One request and the text of its answer. [map_status] is the vendor's classification; a
    body that cannot be read is an error, or an empty text when [lenient] (the probes). *)
Definition http_call (map_status : Z -> string -> BrokerError.t) (lenient : bool)
  (headers : result (list (string * string)) BrokerError.t) (m : Method) (url : string)
  (body : Body) : Action string := fun w =>
  match headers with
  | Err e => (Err e, w)
  | Ok headers =>
    let rq := mk_Request m url headers body in
    let answer := send (requests w) rq in
    let w := push_request rq w in
    match answer with
    | Err e => (Err (map_network_err e), w)
    | Ok resp =>
      match rs_text resp with
      | Err e =>
        if lenient then
          (if is_success (rs_status resp) then Ok EmptyString
           else Err (map_status (rs_status resp) EmptyString), w)
        else (Err (map_network_err e), w)
      | Ok text =>
        (if is_success (rs_status resp) then Ok text else Err (map_status (rs_status resp) text), w)
      end
    end
  end.

(** A header with a computed value: the error of an unacceptable one is an [Auth]. *)
Definition checked_header (what value : string) : result string BrokerError.t :=
  match header_value value with
  | Ok _ => Ok value
  | Err e => Err (BrokerError.Auth (what +:+ e))
  end.

(** A decoder applied to the text of an answer. *)
Definition decoded {A} (what : string) (decode : string -> result A string) (body : string)
  : Action A :=
  se_lift (map_err (fun e => BrokerError.Internal ("decode " +:+ what +:+ ": " +:+ e +:+ " body=" +:+ body))
             (decode body)).

(** ** Bookkeeping *)

Definition unit_view {A} (r : result A BrokerError.t) : result unit BrokerError.t :=
  match r with Ok _ => Ok tt | Err e => Err e end.

Definition record_metric (broker_id : BrokerId.t) (op : BrokerOp.t) (cid : CorrelationId.t)
  (start_ns : Z) (res : result unit BrokerError.t) (w : AdapterState) : AdapterState :=
  let '(t, w) := read_clock w in
  let latency_ns := u64_sat_sub t start_ns in
  let '(error, http_status) :=
    match res with
    | Ok _ => (false, None)
    | Err (BrokerError.Http status _) => (true, Some status)
    | Err _ => (true, None)
    end in
  let '(ts, w) := read_clock w in
  mk_AdapterState (ready_state w)
    (published w ++ [mk_BrokerMetric broker_id cid op latency_ns error http_status ts])
    (requests w) (readings w).

Definition is_config_error (r : ReadyState.t) : bool :=
  match r with ReadyState.ConfigError _ => true | _ => false end.

Definition update_ready_from_result {A} (res : result A BrokerError.t) (w : AdapterState)
  : AdapterState :=
  match res with
  | Ok _ => set_ready ReadyState.Ready w
  | Err (BrokerError.Auth s) | Err (BrokerError.NotReady s) => set_ready (ReadyState.ConfigError s) w
  | Err (BrokerError.Network s) | Err (BrokerError.Transient s) =>
    if is_config_error (ready_state w) then w else set_ready (ReadyState.Disconnected s) w
  | Err _ => w
  end.

Definition fail_closed_if_misconfigured (w : AdapterState) : result unit BrokerError.t :=
  match ready_state w with
  | ReadyState.ConfigError reason => Err (BrokerError.NotReady reason)
  | _ => Ok tt
  end.

(** Every operation but the probe: refuse when misconfigured, else call, remember what the
    outcome says about readiness, publish the metric, and turn the answer. *)
Definition guarded {A B} (broker_id : BrokerId.t) (op : BrokerOp.t) (cid : CorrelationId.t)
  (call : Action A) (view : A -> result B BrokerError.t) : Action B := fun w =>
  let '(start, w) := read_clock w in
  match fail_closed_if_misconfigured w with
  | Err e => (Err e, record_metric broker_id op cid start (Err e) w)
  | Ok _ =>
    let '(res, w) := call w in
    let w := update_ready_from_result res w in
    let w := record_metric broker_id op cid start (unit_view res) w in
    (match res with Ok a => view a | Err e => Err e end, w)
  end.

(** The probe. *)
Definition probe (broker_id : BrokerId.t) (validate : result unit string) (ping : Action unit)
  (w : AdapterState) : ReadyState.t * AdapterState :=
  let '(start, w) := read_clock w in
  match validate with
  | Err reason =>
    let snap := ReadyState.ConfigError reason in
    (snap, record_metric broker_id BrokerOp.Ready CorrelationId.NIL start
             (Err (BrokerError.NotReady reason)) (set_ready snap w))
  | Ok _ =>
    let '(res, w) := ping w in
    let w := update_ready_from_result res w in
    let snap := ready_state w in
    (snap, record_metric broker_id BrokerOp.Ready CorrelationId.NIL start res w)
  end.

(** The readiness a new adapter starts from. *)
Definition initial_ready (validate : result unit string) : ReadyState.t :=
  match validate with
  | Ok _ => ReadyState.Disconnected "not yet probed"
  | Err reason => ReadyState.ConfigError reason
  end.

Definition initial_state (validate : result unit string) : AdapterState :=
  mk_AdapterState (initial_ready validate) [] [] 0.

(** Construction: the state of a new adapter, unless the HTTP client cannot be built. *)
Definition built (validate : result unit string) : result AdapterState BrokerError.t :=
  match build_client with
  | Ok _ => Ok (initial_state validate)
  | Err e => Err (BrokerError.Internal ("reqwest build: " +:+ e))
  end.
End calls.

(** A text that must not be empty, among the credentials. *)
Fixpoint validate_all (l : list (string * string)) : result unit string :=
  match l with
  | [] => Ok tt
  | (value, reason) :: l => if decide (value = EmptyString) then Err reason else validate_all l
  end.

(** The answer to a submission. *)
Definition ack (order_id : string) : result SubmitAck BrokerError.t := Ok (mk_SubmitAck order_id None).
(** A field that is left out when it is [None]. *)
Definition opt_field {A B} (name : string) (f : A -> B) (o : option A) : list (string * B) :=
  match o with Some a => [(name, f a)] | None => [] end.
