(* ===== verification/Vendors.v ===== *)
(** The five vendor adapters: credentials, order bodies, status words and calls of Zerodha
    (Kite), Upstox, Dhan, Angel One (SmartAPI) and Shoonya, each an implementation of the
    [BrokerAdapter] interface. The decoders of the vendors' JSON answers are parameters. *)

From S2P Require Import Prelude Ieee Bytes Core Schemas BrokerApi Decimal VendorHttp.
From Stdlib Require Import Ascii.

Local Open Scope se_scope.

(** The words for a side and an exchange that several vendors share. *)
Definition side_word (s : Side.t) : string := match s with Side.Buy => "BUY" | Side.Sell => "SELL" end.
Definition segment_word (e : Exchange.t) : string :=
  match e with Exchange.Nse => "NSE_EQ" | Exchange.Bse => "BSE_EQ" end.

(** ** Zerodha *)

Module Zerodha.
Record KiteCredentials := mk_KiteCredentials { api_key : string; access_token : string }.

Definition validate (c : KiteCredentials) : result unit string :=
  validate_all [(api_key c, "zerodha api_key is empty"); (access_token c, "zerodha access_token is empty")].
Definition auth_header (c : KiteCredentials) : string :=
  "token " +:+ api_key c +:+ ":" +:+ access_token c.
Definition KITE_API_BASE : string := "https://api.kite.trade".
Definition DEFAULT_VARIETY : string := "regular".

Record KitePlaceOrderForm := mk_KitePlaceOrderForm {
  exchange : string;
  tradingsymbol : string;
  transaction_type : string;
  quantity : string;
  order_type : string;
  price : string;
  product : string;
  validity : string;
}.

Definition intent_to_kite_form (intent : BrokerOrder) (tradingsymbol_resolver : Z -> string)
  : KitePlaceOrderForm :=
  let '(order_type, price) :=
    match bo_order_type intent with
    | OrderType.Market => ("MARKET", EmptyString)
    | OrderType.Limit => ("LIMIT", paise_to_rupee_string (bo_limit_paise intent))
    end in
  mk_KitePlaceOrderForm (Exchange.as_str (bo_exchange intent))
    (tradingsymbol_resolver (bo_symbol_raw intent)) (side_word (bo_side intent))
    (pretty (Qty.raw (bo_quantity intent))) order_type price "MIS" "DAY".

(** The derived encoding: the fields by name, in order. *)
Definition form_fields (f : KitePlaceOrderForm) : list (string * string) :=
  [("exchange", exchange f); ("tradingsymbol", tradingsymbol f);
   ("transaction_type", transaction_type f); ("quantity", quantity f);
   ("order_type", order_type f); ("price", price f); ("product", product f);
   ("validity", validity f)].

Record KiteModifyOrderForm := mk_KiteModifyOrderForm { m_quantity : option string; m_price : option string }.
Definition modification_to_kite_form (m : OrderModification) : KiteModifyOrderForm :=
  mk_KiteModifyOrderForm ((fun q => pretty (Qty.raw q)) <$> om_new_quantity m)
    (paise_to_rupee_string <$> om_new_limit_paise m).
Definition modify_fields (f : KiteModifyOrderForm) : list (string * string) :=
  opt_field "quantity" id (m_quantity f) ++ opt_field "price" id (m_price f).

Definition default_symbol_resolver (symbol_raw : Z) : string := "SYM-" +:+ pretty symbol_raw.

(** *** Answers *)

Record KiteEnvelope (A : Type) := mk_KiteEnvelope {
  e_status : string; e_message : option string; e_data : option A }.
Arguments mk_KiteEnvelope {A}.
Arguments e_status {A} _.
Arguments e_message {A} _.
Arguments e_data {A} _.

Definition data_ok {A} (e : KiteEnvelope A) : result A BrokerError.t :=
  if decide (e_status e = "success") then
    ok_or (BrokerError.Internal "kite envelope missing data on success") (e_data e)
  else Err (BrokerError.Rejected (unwrap_or (e_status e) (e_message e))).

Record KiteOrderHistory := mk_KiteOrderHistory {
  h_order_id : string; h_status : string; h_filled_quantity : Z; h_average_price : f64 }.

Definition kite_status_to_fsm (status : string) : OrderLifecycleState.t :=
  if decide (status = "COMPLETE") then OrderLifecycleState.Filled
  else if decide (status = "CANCELLED") then OrderLifecycleState.Cancelled
  else if decide (status = "REJECTED") then OrderLifecycleState.Rejected
  else OrderLifecycleState.Submitted.

Definition order_history_to_status (h : KiteOrderHistory) : OrderStatus :=
  mk_OrderStatus (h_order_id h) (kite_status_to_fsm (h_status h)) (Qty.new (h_filled_quantity h))
    (rupees_to_paise (h_average_price h)) None.

Definition map_status (status : Z) (body : string) : BrokerError.t :=
  classify_status status (truncate body 512).

(** [serde_json::from_str] at the two answer types. *)
Class Codec := {
  decode_place : string -> result (KiteEnvelope string) string;
  decode_history : string -> result (KiteEnvelope (list KiteOrderHistory)) string;
}.

(** *** The adapter *)

Record t := mk { creds : KiteCredentials; base_url : string; variety : string }.
Definition set_variety (v : string) (b : t) : t := mk (creds b) (base_url b) v.

Section client.
Context `{Transport} `{Codec}.

Definition with_base_url (c : KiteCredentials) (base : string) : result (t * AdapterState) BrokerError.t :=
  match built (validate c) with
  | Ok w => Ok (mk c base DEFAULT_VARIETY, w)
  | Err e => Err e
  end.
Definition new (c : KiteCredentials) : result (t * AdapterState) BrokerError.t :=
  with_base_url c KITE_API_BASE.

Definition default_headers (b : t) : result (list (string * string)) BrokerError.t :=
  match checked_header "invalid auth header: " (auth_header (creds b)) with
  | Ok v => Ok [("authorization", v); ("content-type", "application/x-www-form-urlencoded")]
  | Err e => Err e
  end.

Definition place_order (b : t) (form : KitePlaceOrderForm) : Action string :=
  let url := base_url b +:+ "/orders/" +:+ variety b in
  body <-? http_call map_status false (default_headers b) Post url (FormBody (form_fields form));
  parsed <-? decoded "place_order" decode_place body;
  se_lift (data_ok parsed).

Definition modify_order (b : t) (order_id : string) (form : KiteModifyOrderForm) : Action unit :=
  let url := base_url b +:+ "/orders/" +:+ variety b +:+ "/" +:+ order_id in
  http_call map_status false (default_headers b) Put url (FormBody (modify_fields form)) ;?
  se_ret tt.

Definition cancel_order (b : t) (order_id : string) : Action unit :=
  let url := base_url b +:+ "/orders/" +:+ variety b +:+ "/" +:+ order_id in
  http_call map_status false (default_headers b) Delete url NoBody ;?
  se_ret tt.

Definition order_status (b : t) (order_id : string) : Action KiteOrderHistory :=
  let url := base_url b +:+ "/orders/" +:+ order_id in
  body <-? http_call map_status false (default_headers b) Get url NoBody;
  parsed <-? decoded "order_status" decode_history body;
  entries <-? se_lift (data_ok parsed);
  se_lift (ok_or (BrokerError.UnknownOrderId order_id) (last entries)).

Definition ping_user_profile (b : t) : Action unit :=
  http_call map_status true (default_headers b) Get (base_url b +:+ "/user/profile") NoBody ;?
  se_ret tt.

Definition submit (b : t) (intent : BrokerOrder) : Action SubmitAck :=
  guarded BrokerId.Zerodha BrokerOp.Submit (bo_correlation_id intent)
    (place_order b (intent_to_kite_form intent default_symbol_resolver)) ack.
Definition modify (b : t) (m : OrderModification) : Action unit :=
  guarded BrokerId.Zerodha BrokerOp.Modify CorrelationId.NIL
    (modify_order b (om_broker_order_id m) (modification_to_kite_form m)) Ok.
Definition cancel (b : t) (broker_order_id : string) : Action unit :=
  guarded BrokerId.Zerodha BrokerOp.Cancel CorrelationId.NIL (cancel_order b broker_order_id) Ok.
Definition status (b : t) (broker_order_id : string) : Action OrderStatus :=
  guarded BrokerId.Zerodha BrokerOp.Status CorrelationId.NIL (order_status b broker_order_id)
    (fun h => Ok (order_history_to_status h)).
Definition ready (b : t) : AdapterState -> ReadyState.t * AdapterState :=
  probe BrokerId.Zerodha (validate (creds b)) (ping_user_profile b).

Definition adapter (b : t) : BrokerAdapter AdapterState :=
  mk_BrokerAdapter BrokerId.Zerodha (submit b) (modify b) (cancel b) (status b) (ready b).
End client.
Definition metric_subject : string := "broker.metric." +:+ broker_id_token BrokerId.Zerodha.
End Zerodha.

(** ** Upstox *)

(** [str::trim]: the encodings of the white space characters. *)
Definition bytes_text (l : list N) : string := foldr (fun b s => String (ascii_of_N b) s) EmptyString l.
Definition white_space : list string :=
  bytes_text <$>
  ([[9]; [10]; [11]; [12]; [13]; [32]; [194; 133]; [194; 160]; [225; 154; 128];
    [226; 128; 128]; [226; 128; 129]; [226; 128; 130]; [226; 128; 131]; [226; 128; 132];
    [226; 128; 133]; [226; 128; 134]; [226; 128; 135]; [226; 128; 136]; [226; 128; 137];
    [226; 128; 138]; [226; 128; 168]; [226; 128; 169]; [226; 128; 175]; [226; 129; 159];
    [227; 128; 128]])%N.

Fixpoint strip_prefix (p s : string) : option string :=
  match p, s with
  | EmptyString, _ => Some s
  | String a p, String b s => if Ascii.eqb a b then strip_prefix p s else None
  | _, _ => None
  end.
Fixpoint strip_any (ps : list string) (s : string) : option string :=
  match ps with
  | [] => None
  | p :: ps => match strip_prefix p s with Some r => Some r | None => strip_any ps s end
  end.
(** Every step removes a byte: the length is fuel enough. *)
Fixpoint strip_all (fuel : nat) (ps : list string) (s : string) : string :=
  match fuel with
  | O => s
  | S fuel => match strip_any ps s with Some r => strip_all fuel ps r | None => s end
  end.
Definition trim (s : string) : string :=
  let s := strip_all (String.length s) white_space s in
  String.rev (strip_all (String.length s) (String.rev <$> white_space) (String.rev s)).

Module Upstox.
Record UpstoxCredentials := mk_UpstoxCredentials { api_key : string; api_secret : string; access_token : string }.

Definition validate (c : UpstoxCredentials) : result unit string :=
  validate_all [(api_key c, "upstox api_key is empty"); (access_token c, "upstox access_token is empty")].
Definition UPSTOX_API_BASE : string := "https://api.upstox.com".

Record UpstoxPlaceOrderBody := mk_UpstoxPlaceOrderBody {
  quantity : Z;
  product : string;
  validity : string;
  price : f64;
  order_type : string;
  transaction_type : string;
  instrument_token : string;
  disclosed_quantity : Z;
  trigger_price : f64;
  is_amo : bool;
}.

Definition intent_to_upstox_body (intent : BrokerOrder)
  (instrument_token_resolver : Z -> Exchange.t -> string) : UpstoxPlaceOrderBody :=
  let '(order_type, price) :=
    match bo_order_type intent with
    | OrderType.Market => ("MARKET", f_zero)
    | OrderType.Limit => ("LIMIT", paise_to_rupee_f64 (bo_limit_paise intent))
    end in
  mk_UpstoxPlaceOrderBody (Qty.raw (bo_quantity intent)) "I" "DAY" price order_type
    (side_word (bo_side intent))
    (instrument_token_resolver (bo_symbol_raw intent) (bo_exchange intent)) 0 f_zero false.
Definition place_fields (b : UpstoxPlaceOrderBody) : list (string * Field) :=
  [("quantity", FInt (quantity b)); ("product", FStr (product b)); ("validity", FStr (validity b));
   ("price", FFloat (price b)); ("order_type", FStr (order_type b));
   ("transaction_type", FStr (transaction_type b)); ("instrument_token", FStr (instrument_token b));
   ("disclosed_quantity", FInt (disclosed_quantity b)); ("trigger_price", FFloat (trigger_price b));
   ("is_amo", FBool (is_amo b))].

Record UpstoxModifyOrderBody := mk_UpstoxModifyOrderBody {
  m_order_id : string;
  m_order_type : option string;
  m_quantity : option Z;
  m_price : option f64;
  m_validity : option string;
}.
Definition modification_to_upstox_body (m : OrderModification) : UpstoxModifyOrderBody :=
  mk_UpstoxModifyOrderBody (om_broker_order_id m) ((fun _ => "LIMIT") <$> om_new_limit_paise m)
    (Qty.raw <$> om_new_quantity m) (paise_to_rupee_f64 <$> om_new_limit_paise m) None.
Definition modify_fields (b : UpstoxModifyOrderBody) : list (string * Field) :=
  [("order_id", FStr (m_order_id b))] ++ opt_field "order_type" FStr (m_order_type b)
  ++ opt_field "quantity" FInt (m_quantity b) ++ opt_field "price" FFloat (m_price b)
  ++ opt_field "validity" FStr (m_validity b).

Definition default_instrument_token_resolver (symbol_raw : Z) (exchange : Exchange.t) : string :=
  segment_word exchange +:+ "|" +:+ pretty symbol_raw.

(** *** Answers *)

Record UpstoxOrderData := mk_UpstoxOrderData { d_order_id : option string }.
Record UpstoxPlaceOrderResponse := mk_UpstoxPlaceOrderResponse {
  p_status : option string; p_data : option UpstoxOrderData }.
Record UpstoxOrderDetail := mk_UpstoxOrderDetail {
  o_order_id : string; o_status : string; o_filled_quantity : Z; o_average_price : f64 }.
Record UpstoxOrderStatusResponse := mk_UpstoxOrderStatusResponse {
  s_status : option string; s_data : UpstoxOrderDetail }.

Definition upstox_status_to_fsm (status : string) : OrderLifecycleState.t :=
  let word := trim (to_ascii_lowercase status) in
  if bool_decide (word ∈ ["complete"; "filled"]) then OrderLifecycleState.Filled
  else if bool_decide (word ∈ ["cancelled"; "expired"]) then OrderLifecycleState.Cancelled
  else if decide (word = "rejected") then OrderLifecycleState.Rejected
  else if bool_decide (word ∈ ["partial filled"; "partially filled"; "partial"]) then
    OrderLifecycleState.PartiallyFilled
  else OrderLifecycleState.Submitted.

Definition order_status_response_to_status (r : UpstoxOrderStatusResponse) : OrderStatus :=
  let detail := s_data r in
  mk_OrderStatus (o_order_id detail) (upstox_status_to_fsm (o_status detail))
    (Qty.new (o_filled_quantity detail)) (rupees_to_paise (o_average_price detail)) None.

Definition map_status (status : Z) (body : string) : BrokerError.t :=
  classify_status status (truncate_bytes body).

Class Codec := {
  decode_place : string -> result UpstoxPlaceOrderResponse string;
  decode_status : string -> result UpstoxOrderStatusResponse string;
}.

Record t := mk { creds : UpstoxCredentials; base_url : string }.

Section client.
Context `{Transport} `{Codec}.

Definition with_base_url (c : UpstoxCredentials) (base : string) : result (t * AdapterState) BrokerError.t :=
  match built (validate c) with Ok w => Ok (mk c base, w) | Err e => Err e end.
Definition new (c : UpstoxCredentials) : result (t * AdapterState) BrokerError.t :=
  with_base_url c UPSTOX_API_BASE.

Definition default_headers (b : t) : result (list (string * string)) BrokerError.t :=
  match checked_header "invalid access token: " ("Bearer " +:+ access_token (creds b)) with
  | Ok v => Ok [("authorization", v); ("accept", "application/json"); ("content-type", "application/json")]
  | Err e => Err e
  end.

(** A missing order identifier is a rejection. *)
Definition place_order (b : t) (body : UpstoxPlaceOrderBody) : Action string :=
  let url := base_url b +:+ "/v2/order/place" in
  text <-? http_call map_status false (default_headers b) Post url (JsonBody (place_fields body));
  parsed <-? decoded "upstox place_order" decode_place text;
  se_lift (ok_or (BrokerError.Rejected ("upstox missing order_id: " +:+ text))
             (p_data parsed ≫= d_order_id)).

Definition modify_order (b : t) (body : UpstoxModifyOrderBody) : Action unit :=
  http_call map_status false (default_headers b) Put (base_url b +:+ "/v2/order/modify")
    (JsonBody (modify_fields body)) ;?
  se_ret tt.

Definition cancel_order (b : t) (order_id : string) : Action unit :=
  http_call map_status false (default_headers b) Delete
    (base_url b +:+ "/v2/order/cancel?order_id=" +:+ order_id) NoBody ;?
  se_ret tt.

Definition order_status (b : t) (order_id : string) : Action UpstoxOrderStatusResponse :=
  text <-? http_call map_status false (default_headers b) Get
             (base_url b +:+ "/v2/order/details?order_id=" +:+ order_id) NoBody;
  decoded "upstox status" decode_status text.

Definition ping_user_profile (b : t) : Action unit :=
  http_call map_status true (default_headers b) Get (base_url b +:+ "/v2/user/profile") NoBody ;?
  se_ret tt.

Definition submit (b : t) (intent : BrokerOrder) : Action SubmitAck :=
  guarded BrokerId.Upstox BrokerOp.Submit (bo_correlation_id intent)
    (place_order b (intent_to_upstox_body intent default_instrument_token_resolver)) ack.
Definition modify (b : t) (m : OrderModification) : Action unit :=
  guarded BrokerId.Upstox BrokerOp.Modify CorrelationId.NIL
    (modify_order b (modification_to_upstox_body m)) Ok.
Definition cancel (b : t) (broker_order_id : string) : Action unit :=
  guarded BrokerId.Upstox BrokerOp.Cancel CorrelationId.NIL (cancel_order b broker_order_id) Ok.
Definition status (b : t) (broker_order_id : string) : Action OrderStatus :=
  guarded BrokerId.Upstox BrokerOp.Status CorrelationId.NIL (order_status b broker_order_id)
    (fun r => Ok (order_status_response_to_status r)).
Definition ready (b : t) : AdapterState -> ReadyState.t * AdapterState :=
  probe BrokerId.Upstox (validate (creds b)) (ping_user_profile b).

Definition adapter (b : t) : BrokerAdapter AdapterState :=
  mk_BrokerAdapter BrokerId.Upstox (submit b) (modify b) (cancel b) (status b) (ready b).
End client.
Definition metric_subject : string := "broker.metric." +:+ broker_id_token BrokerId.Upstox.
End Upstox.

(** ** Dhan *)

Module Dhan.
Record DhanCredentials := mk_DhanCredentials { client_id : string; access_token : string }.

Definition validate (c : DhanCredentials) : result unit string :=
  validate_all [(client_id c, "dhan client_id is empty"); (access_token c, "dhan access_token is empty")].
Definition DHAN_API_BASE : string := "https://api.dhan.co".

Record DhanPlaceOrderBody := mk_DhanPlaceOrderBody {
  dhan_client_id : string;
  transaction_type : string;
  exchange_segment : string;
  product_type : string;
  order_type : string;
  validity : string;
  security_id : string;
  quantity : Z;
  price : f64;
}.

Definition intent_to_dhan_body (intent : BrokerOrder) (client : string)
  (security_id_resolver : Z -> string) : DhanPlaceOrderBody :=
  let '(order_type, price) :=
    match bo_order_type intent with
    | OrderType.Market => ("MARKET", f_zero)
    | OrderType.Limit => ("LIMIT", paise_to_rupee_f64 (bo_limit_paise intent))
    end in
  mk_DhanPlaceOrderBody client (side_word (bo_side intent)) (segment_word (bo_exchange intent))
    "INTRADAY" order_type "DAY" (security_id_resolver (bo_symbol_raw intent))
    (Qty.raw (bo_quantity intent)) price.
Definition place_fields (b : DhanPlaceOrderBody) : list (string * Field) :=
  [("dhanClientId", FStr (dhan_client_id b)); ("transactionType", FStr (transaction_type b));
   ("exchangeSegment", FStr (exchange_segment b)); ("productType", FStr (product_type b));
   ("orderType", FStr (order_type b)); ("validity", FStr (validity b));
   ("securityId", FStr (security_id b)); ("quantity", FInt (quantity b)); ("price", FFloat (price b))].

Record DhanModifyOrderBody := mk_DhanModifyOrderBody {
  m_order_id : string;
  m_order_type : option string;
  m_quantity : option Z;
  m_price : option f64;
}.
Definition modification_to_dhan_body (m : OrderModification) : DhanModifyOrderBody :=
  mk_DhanModifyOrderBody (om_broker_order_id m) ((fun _ => "LIMIT") <$> om_new_limit_paise m)
    (Qty.raw <$> om_new_quantity m) (paise_to_rupee_f64 <$> om_new_limit_paise m).
Definition modify_fields (b : DhanModifyOrderBody) : list (string * Field) :=
  [("orderId", FStr (m_order_id b))] ++ opt_field "orderType" FStr (m_order_type b)
  ++ opt_field "quantity" FInt (m_quantity b) ++ opt_field "price" FFloat (m_price b).

Definition default_security_id_resolver (symbol_raw : Z) : string := pretty symbol_raw.

(** *** Answers *)

Record DhanPlaceOrderResponse := mk_DhanPlaceOrderResponse {
  p_order_id : string; p_order_status : option string }.
Record DhanOrderStatusResponse := mk_DhanOrderStatusResponse {
  o_order_id : string; o_order_status : string; o_filled_qty : Z; o_avg_price : f64 }.

Definition dhan_status_to_fsm (status : string) : OrderLifecycleState.t :=
  if bool_decide (status ∈ ["TRADED"; "FILLED"]) then OrderLifecycleState.Filled
  else if bool_decide (status ∈ ["CANCELLED"; "EXPIRED"]) then OrderLifecycleState.Cancelled
  else if decide (status = "REJECTED") then OrderLifecycleState.Rejected
  else if bool_decide (status ∈ ["PARTIAL"; "PARTIALLY_TRADED"]) then OrderLifecycleState.PartiallyFilled
  else OrderLifecycleState.Submitted.

Definition order_status_response_to_status (r : DhanOrderStatusResponse) : OrderStatus :=
  mk_OrderStatus (o_order_id r) (dhan_status_to_fsm (o_order_status r)) (Qty.new (o_filled_qty r))
    (rupees_to_paise (o_avg_price r)) None.

Definition map_status (status : Z) (body : string) : BrokerError.t :=
  classify_status status (truncate_bytes body).

Class Codec := {
  decode_place : string -> result DhanPlaceOrderResponse string;
  decode_status : string -> result DhanOrderStatusResponse string;
}.

Record t := mk { creds : DhanCredentials; base_url : string }.

Section client.
Context `{Transport} `{Codec}.

Definition with_base_url (c : DhanCredentials) (base : string) : result (t * AdapterState) BrokerError.t :=
  match built (validate c) with Ok w => Ok (mk c base, w) | Err e => Err e end.
Definition new (c : DhanCredentials) : result (t * AdapterState) BrokerError.t :=
  with_base_url c DHAN_API_BASE.

Definition default_headers (b : t) : result (list (string * string)) BrokerError.t :=
  match checked_header "invalid access token: " (access_token (creds b)) with
  | Ok v => Ok [("access-token", v); ("content-type", "application/json")]
  | Err e => Err e
  end.

Definition place_order (b : t) (body : DhanPlaceOrderBody) : Action string :=
  text <-? http_call map_status false (default_headers b) Post (base_url b +:+ "/v2/orders")
             (JsonBody (place_fields body));
  parsed <-? decoded "dhan place_order" decode_place text;
  se_ret (p_order_id parsed).

Definition modify_order (b : t) (order_id : string) (body : DhanModifyOrderBody) : Action unit :=
  http_call map_status false (default_headers b) Put (base_url b +:+ "/v2/orders/" +:+ order_id)
    (JsonBody (modify_fields body)) ;?
  se_ret tt.

Definition cancel_order (b : t) (order_id : string) : Action unit :=
  http_call map_status false (default_headers b) Delete (base_url b +:+ "/v2/orders/" +:+ order_id) NoBody ;?
  se_ret tt.

Definition order_status (b : t) (order_id : string) : Action DhanOrderStatusResponse :=
  text <-? http_call map_status false (default_headers b) Get (base_url b +:+ "/v2/orders/" +:+ order_id) NoBody;
  decoded "dhan status" decode_status text.

Definition ping_orders (b : t) : Action unit :=
  http_call map_status true (default_headers b) Get (base_url b +:+ "/v2/orders") NoBody ;?
  se_ret tt.

Definition submit (b : t) (intent : BrokerOrder) : Action SubmitAck :=
  guarded BrokerId.Dhan BrokerOp.Submit (bo_correlation_id intent)
    (place_order b (intent_to_dhan_body intent (client_id (creds b)) default_security_id_resolver)) ack.
Definition modify (b : t) (m : OrderModification) : Action unit :=
  guarded BrokerId.Dhan BrokerOp.Modify CorrelationId.NIL
    (modify_order b (om_broker_order_id m) (modification_to_dhan_body m)) Ok.
Definition cancel (b : t) (broker_order_id : string) : Action unit :=
  guarded BrokerId.Dhan BrokerOp.Cancel CorrelationId.NIL (cancel_order b broker_order_id) Ok.
Definition status (b : t) (broker_order_id : string) : Action OrderStatus :=
  guarded BrokerId.Dhan BrokerOp.Status CorrelationId.NIL (order_status b broker_order_id)
    (fun r => Ok (order_status_response_to_status r)).
Definition ready (b : t) : AdapterState -> ReadyState.t * AdapterState :=
  probe BrokerId.Dhan (validate (creds b)) (ping_orders b).

Definition adapter (b : t) : BrokerAdapter AdapterState :=
  mk_BrokerAdapter BrokerId.Dhan (submit b) (modify b) (cancel b) (status b) (ready b).
End client.
Definition metric_subject : string := "broker.metric." +:+ broker_id_token BrokerId.Dhan.
End Dhan.

(** ** Angel One *)

Module AngelOne.
Record SmartApiCredentials := mk_SmartApiCredentials {
  api_key : string;
  jwt_token : string;
  client_code : string;
  local_ip : string;
  public_ip : string;
  mac_address : string;
}.

Definition new_credentials (api_key jwt_token client_code : string) : SmartApiCredentials :=
  mk_SmartApiCredentials api_key jwt_token client_code EmptyString EmptyString EmptyString.
Definition with_identification (local_ip public_ip mac_address : string) (c : SmartApiCredentials)
  : SmartApiCredentials :=
  mk_SmartApiCredentials (api_key c) (jwt_token c) (client_code c) local_ip public_ip mac_address.
Definition validate (c : SmartApiCredentials) : result unit string :=
  validate_all [(api_key c, "angelone api_key is empty"); (jwt_token c, "angelone jwt_token is empty");
                (client_code c, "angelone client_code is empty")].
Definition SMARTAPI_BASE : string := "https://apiconnect.angelbroking.com".

Record SmartApiPlaceOrderBody := mk_SmartApiPlaceOrderBody {
  transactiontype : string;
  variety : string;
  ordertype : string;
  producttype : string;
  duration : string;
  price : string;
  quantity : string;
  tradingsymbol : string;
  symboltoken : string;
  exchange : string;
}.

Definition intent_to_smartapi_body (intent : BrokerOrder)
  (symbol_token_resolver tradingsymbol_resolver : Z -> string) : SmartApiPlaceOrderBody :=
  let '(ordertype, price) :=
    match bo_order_type intent with
    | OrderType.Market => ("MARKET", "0")
    | OrderType.Limit => ("LIMIT", paise_to_rupee_string (bo_limit_paise intent))
    end in
  mk_SmartApiPlaceOrderBody (side_word (bo_side intent)) "NORMAL" ordertype "INTRADAY" "DAY" price
    (pretty (Qty.raw (bo_quantity intent))) (tradingsymbol_resolver (bo_symbol_raw intent))
    (symbol_token_resolver (bo_symbol_raw intent)) (Exchange.as_str (bo_exchange intent)).
Definition place_fields (b : SmartApiPlaceOrderBody) : list (string * Field) :=
  [("transactiontype", FStr (transactiontype b)); ("variety", FStr (variety b));
   ("ordertype", FStr (ordertype b)); ("producttype", FStr (producttype b));
   ("duration", FStr (duration b)); ("price", FStr (price b)); ("quantity", FStr (quantity b));
   ("tradingsymbol", FStr (tradingsymbol b)); ("symboltoken", FStr (symboltoken b));
   ("exchange", FStr (exchange b))].

Record SmartApiModifyOrderBody := mk_SmartApiModifyOrderBody {
  m_orderid : string;
  m_variety : string;
  m_price : option string;
  m_quantity : option string;
  m_ordertype : option string;
}.
Definition modification_to_smartapi_body (m : OrderModification) : SmartApiModifyOrderBody :=
  mk_SmartApiModifyOrderBody (om_broker_order_id m) "NORMAL"
    (paise_to_rupee_string <$> om_new_limit_paise m)
    ((fun q => pretty (Qty.raw q)) <$> om_new_quantity m)
    ((fun _ => "LIMIT") <$> om_new_limit_paise m).
Definition modify_fields (b : SmartApiModifyOrderBody) : list (string * Field) :=
  [("orderid", FStr (m_orderid b)); ("variety", FStr (m_variety b))]
  ++ opt_field "price" FStr (m_price b) ++ opt_field "quantity" FStr (m_quantity b)
  ++ opt_field "ordertype" FStr (m_ordertype b).

Definition default_symbol_token_resolver (symbol_raw : Z) : string := pretty symbol_raw.
Definition default_tradingsymbol_resolver (symbol_raw : Z) : string :=
  "SYM-" +:+ pretty symbol_raw +:+ "-EQ".

(** *** Answers *)

Record SmartApiEnvelope (A : Type) := mk_SmartApiEnvelope {
  e_status : bool; e_message : option string; e_errorcode : option string; e_data : option A }.
Arguments mk_SmartApiEnvelope {A}.
Arguments e_status {A} _.
Arguments e_message {A} _.
Arguments e_errorcode {A} _.
Arguments e_data {A} _.

Definition classify_smartapi_error (code msg : string) : BrokerError.t :=
  let combined := code +:+ " " +:+ msg in
  if bool_decide (code ∈ ["AB1007"; "AB1008"; "AB1011"]) then BrokerError.Transient combined
  else if is_some (strip_prefix "AB10" code) then BrokerError.Auth combined
  else if is_some (strip_prefix "AB9" code) then BrokerError.Transient combined
  else BrokerError.Rejected combined.

Definition into_data {A} (e : SmartApiEnvelope A) : result A BrokerError.t :=
  if e_status e then ok_or (BrokerError.Internal "smartapi envelope missing data") (e_data e)
  else
    let code := unwrap_or EmptyString (e_errorcode e) in
    let msg := unwrap_or code (e_message e) in
    Err (classify_smartapi_error code msg).

Record SmartApiOrderStatus := mk_SmartApiOrderStatus {
  o_order_id : string; o_status : string; o_filled_shares : Z; o_avg_price : f64 }.

Definition smartapi_status_to_fsm (status : string) : OrderLifecycleState.t :=
  let lc := to_ascii_lowercase status in
  if decide (lc = "complete") then OrderLifecycleState.Filled
  else if bool_decide (lc ∈ ["cancelled"; "canceled"]) then OrderLifecycleState.Cancelled
  else if decide (lc = "rejected") then OrderLifecycleState.Rejected
  else if bool_decide (lc ∈ ["partially filled"; "partial"]) then OrderLifecycleState.PartiallyFilled
  else OrderLifecycleState.Submitted.

Definition order_status_response_to_status (r : SmartApiOrderStatus) : OrderStatus :=
  mk_OrderStatus (o_order_id r) (smartapi_status_to_fsm (o_status r)) (Qty.new (o_filled_shares r))
    (rupees_to_paise (o_avg_price r)) None.

Definition map_status (status : Z) (body : string) : BrokerError.t :=
  classify_status status (truncate_bytes body).

(** The envelopes of a placement, of an answer whose data is not read, and of a status. *)
Class Codec := {
  decode_place : string -> result (SmartApiEnvelope string) string;
  decode_plain : string -> result (SmartApiEnvelope unit) string;
  decode_status : string -> result (SmartApiEnvelope SmartApiOrderStatus) string;
}.

Record t := mk { creds : SmartApiCredentials; base_url : string }.

Section client.
Context `{Transport} `{Codec}.

Definition with_base_url (c : SmartApiCredentials) (base : string)
  : result (t * AdapterState) BrokerError.t :=
  match built (validate c) with Ok w => Ok (mk c base, w) | Err e => Err e end.
Definition new (c : SmartApiCredentials) : result (t * AdapterState) BrokerError.t :=
  with_base_url c SMARTAPI_BASE.

(** An address that is not a header value is replaced. *)
Definition header_or (default value : string) : string :=
  match header_value value with Ok _ => value | Err _ => default end.

Definition default_headers (b : t) : result (list (string * string)) BrokerError.t :=
  match checked_header "invalid jwt: " ("Bearer " +:+ jwt_token (creds b)) with
  | Err e => Err e
  | Ok auth =>
    match checked_header "invalid api key: " (api_key (creds b)) with
    | Err e => Err e
    | Ok key =>
      Ok [("authorization", auth); ("content-type", "application/json"); ("accept", "application/json");
          ("x-privatekey", key); ("x-usertype", "USER"); ("x-sourceid", "WEB");
          ("x-clientlocalip", header_or "0.0.0.0" (local_ip (creds b)));
          ("x-clientpublicip", header_or "0.0.0.0" (public_ip (creds b)));
          ("x-macaddress", header_or "00:00:00:00:00:00" (mac_address (creds b)))]
    end
  end.

Definition place_order (b : t) (body : SmartApiPlaceOrderBody) : Action string :=
  text <-? http_call map_status false (default_headers b) Post
             (base_url b +:+ "/rest/secure/angelbroking/order/v1/placeOrder") (JsonBody (place_fields body));
  parsed <-? decoded "angel place_order" decode_place text;
  se_lift (into_data parsed).

Definition modify_order (b : t) (body : SmartApiModifyOrderBody) : Action unit :=
  text <-? http_call map_status false (default_headers b) Post
             (base_url b +:+ "/rest/secure/angelbroking/order/v1/modifyOrder") (JsonBody (modify_fields body));
  parsed <-? decoded "angel modify" decode_plain text;
  se_lift (into_data parsed).

Definition cancel_order (b : t) (order_id variety : string) : Action unit :=
  text <-? http_call map_status false (default_headers b) Post
             (base_url b +:+ "/rest/secure/angelbroking/order/v1/cancelOrder")
             (JsonBody [("variety", FStr variety); ("orderid", FStr order_id)]);
  parsed <-? decoded "angel cancel" decode_plain text;
  se_lift (into_data parsed).

Definition order_status (b : t) (order_id : string) : Action SmartApiOrderStatus :=
  text <-? http_call map_status false (default_headers b) Get
             (base_url b +:+ "/rest/secure/angelbroking/order/v1/details/" +:+ order_id) NoBody;
  parsed <-? decoded "angel status" decode_status text;
  se_lift (into_data parsed).

Definition ping_profile (b : t) : Action unit :=
  text <-? http_call map_status true (default_headers b) Get
             (base_url b +:+ "/rest/secure/angelbroking/user/v1/getProfile") NoBody;
  parsed <-? decoded "angel profile" decode_plain text;
  se_lift (into_data parsed).

Definition submit (b : t) (intent : BrokerOrder) : Action SubmitAck :=
  guarded BrokerId.AngelOne BrokerOp.Submit (bo_correlation_id intent)
    (place_order b (intent_to_smartapi_body intent default_symbol_token_resolver
                      default_tradingsymbol_resolver)) ack.
Definition modify (b : t) (m : OrderModification) : Action unit :=
  guarded BrokerId.AngelOne BrokerOp.Modify CorrelationId.NIL
    (modify_order b (modification_to_smartapi_body m)) Ok.
Definition cancel (b : t) (broker_order_id : string) : Action unit :=
  guarded BrokerId.AngelOne BrokerOp.Cancel CorrelationId.NIL
    (cancel_order b broker_order_id "NORMAL") Ok.
Definition status (b : t) (broker_order_id : string) : Action OrderStatus :=
  guarded BrokerId.AngelOne BrokerOp.Status CorrelationId.NIL (order_status b broker_order_id)
    (fun r => Ok (order_status_response_to_status r)).
Definition ready (b : t) : AdapterState -> ReadyState.t * AdapterState :=
  probe BrokerId.AngelOne (validate (creds b)) (ping_profile b).

Definition adapter (b : t) : BrokerAdapter AdapterState :=
  mk_BrokerAdapter BrokerId.AngelOne (submit b) (modify b) (cancel b) (status b) (ready b).
End client.
Definition metric_subject : string := "broker.metric." +:+ broker_id_token BrokerId.AngelOne.
End AngelOne.

(** ** Shoonya *)

Module Shoonya.
Record ShoonyaCredentials := mk_ShoonyaCredentials {
  user_id : string; account_id : string; session_token : string }.

Definition validate (c : ShoonyaCredentials) : result unit string :=
  validate_all [(user_id c, "shoonya user_id is empty"); (account_id c, "shoonya account_id is empty");
                (session_token c, "shoonya session_token is empty")].
Definition SHOONYA_API_BASE : string := "https://api.shoonya.com/NorenWClientTP".

Record ShoonyaPlaceOrderJData := mk_ShoonyaPlaceOrderJData {
  uid : string;
  actid : string;
  exch : string;
  tsym : string;
  qty : string;
  prc : string;
  prd : string;
  trantype : string;
  prctyp : string;
  ret : string;
}.

Definition intent_to_shoonya_jdata (intent : BrokerOrder) (user account : string)
  (tradingsymbol_resolver : Z -> string) : ShoonyaPlaceOrderJData :=
  let trantype := match bo_side intent with Side.Buy => "B" | Side.Sell => "S" end in
  let '(prctyp, prc) :=
    match bo_order_type intent with
    | OrderType.Market => ("MKT", "0")
    | OrderType.Limit => ("LMT", paise_to_rupee_string (bo_limit_paise intent))
    end in
  mk_ShoonyaPlaceOrderJData user account (Exchange.as_str (bo_exchange intent))
    (tradingsymbol_resolver (bo_symbol_raw intent)) (pretty (Qty.raw (bo_quantity intent)))
    prc "I" trantype prctyp "DAY".
Definition place_fields (j : ShoonyaPlaceOrderJData) : list (string * Field) :=
  [("uid", FStr (uid j)); ("actid", FStr (actid j)); ("exch", FStr (exch j)); ("tsym", FStr (tsym j));
   ("qty", FStr (qty j)); ("prc", FStr (prc j)); ("prd", FStr (prd j)); ("trantype", FStr (trantype j));
   ("prctyp", FStr (prctyp j)); ("ret", FStr (ret j))].

Record ShoonyaModifyOrderJData := mk_ShoonyaModifyOrderJData {
  m_uid : string;
  m_norenordno : string;
  m_qty : option string;
  m_prc : option string;
  m_prctyp : option string;
  m_tsym : string;
  m_exch : string;
}.
Definition modification_to_shoonya_jdata (m : OrderModification) (user tsym exch : string)
  : ShoonyaModifyOrderJData :=
  mk_ShoonyaModifyOrderJData user (om_broker_order_id m)
    ((fun q => pretty (Qty.raw q)) <$> om_new_quantity m)
    (paise_to_rupee_string <$> om_new_limit_paise m)
    ((fun _ => "LMT") <$> om_new_limit_paise m) tsym exch.
Definition modify_fields (j : ShoonyaModifyOrderJData) : list (string * Field) :=
  [("uid", FStr (m_uid j)); ("norenordno", FStr (m_norenordno j))]
  ++ opt_field "qty" FStr (m_qty j) ++ opt_field "prc" FStr (m_prc j)
  ++ opt_field "prctyp" FStr (m_prctyp j) ++ [("tsym", FStr (m_tsym j)); ("exch", FStr (m_exch j))].

Definition default_tradingsymbol_resolver (symbol_raw : Z) : string :=
  "SYM-" +:+ pretty symbol_raw +:+ "-EQ".

(** *** Answers *)

Record ShoonyaPlaceOrderResponse := mk_ShoonyaPlaceOrderResponse {
  p_stat : string; p_norenordno : option string; p_emsg : option string }.
Definition place_into_result (r : ShoonyaPlaceOrderResponse) : result string BrokerError.t :=
  if decide (p_stat r = "Ok") then
    ok_or (BrokerError.Internal "shoonya success without norenordno") (p_norenordno r)
  else Err (BrokerError.Rejected (unwrap_or (p_stat r) (p_emsg r))).

Record ShoonyaSimpleStatResponse := mk_ShoonyaSimpleStatResponse {
  r_stat : string; r_emsg : option string }.
Definition into_result (r : ShoonyaSimpleStatResponse) : result unit BrokerError.t :=
  if decide (r_stat r = "Ok") then Ok tt
  else Err (BrokerError.Rejected (unwrap_or (r_stat r) (r_emsg r))).

Record ShoonyaOrderStatusResponse := mk_ShoonyaOrderStatusResponse {
  o_stat : option string;
  o_norenordno : option string;
  o_status : option string;
  o_fillshares : option string;
  o_avgprc : option string;
}.

Definition shoonya_status_to_fsm (status : string) : OrderLifecycleState.t :=
  if decide (status = "COMPLETE") then OrderLifecycleState.Filled
  else if bool_decide (status ∈ ["CANCELED"; "CANCELLED"]) then OrderLifecycleState.Cancelled
  else if decide (status = "REJECTED") then OrderLifecycleState.Rejected
  else if bool_decide (status ∈ ["PARTIAL"; "PARTIALLY_TRADED"]) then OrderLifecycleState.PartiallyFilled
  else OrderLifecycleState.Submitted.

(** Quantities and prices are texts; one that does not parse is 0. *)
Definition order_status_response_to_status (r : ShoonyaOrderStatusResponse) (fallback_id : string)
  : result OrderStatus BrokerError.t :=
  Ok (mk_OrderStatus (unwrap_or fallback_id (o_norenordno r))
        (shoonya_status_to_fsm (unwrap_or EmptyString (o_status r)))
        (Qty.new (unwrap_or 0 (o_fillshares r ≫= from_str_radix 10 u64_max)))
        (unwrap_or 0 (rupees_to_paise <$> (o_avgprc r ≫= parse_f64))) None).

Definition map_status (status : Z) (body : string) : BrokerError.t :=
  classify_status status (truncate_bytes body).

Class Codec := {
  decode_place : string -> result ShoonyaPlaceOrderResponse string;
  decode_stat : string -> result ShoonyaSimpleStatResponse string;
  decode_history : string -> result (list ShoonyaOrderStatusResponse) string;
}.

Record t := mk { creds : ShoonyaCredentials; base_url : string }.

Section client.
Context `{Transport} `{Codec}.

Definition with_base_url (c : ShoonyaCredentials) (base : string)
  : result (t * AdapterState) BrokerError.t :=
  match built (validate c) with Ok w => Ok (mk c base, w) | Err e => Err e end.
Definition new (c : ShoonyaCredentials) : result (t * AdapterState) BrokerError.t :=
  with_base_url c SHOONYA_API_BASE.

Definition default_headers : list (string * string) :=
  [("content-type", "application/x-www-form-urlencoded")].

(** Every request is a form of the JSON data and the session token. *)
Definition body_for (b : t) (j_data : list (string * Field)) : result string BrokerError.t :=
  match json_text j_data with
  | Ok json => Ok (form_urlencode [("jData", json); ("jKey", session_token (creds b))])
  | Err e => Err (BrokerError.Internal ("encode jData: " +:+ e))
  end.

Definition post (b : t) (lenient : bool) (path : string) (j_data : list (string * Field)) : Action string :=
  body <-? se_lift (body_for b j_data);
  http_call map_status lenient (Ok default_headers) Post (base_url b +:+ path) (TextBody body).

Definition place_order (b : t) (j : ShoonyaPlaceOrderJData) : Action string :=
  text <-? post b false "/PlaceOrder" (place_fields j);
  parsed <-? decoded "shoonya place_order" decode_place text;
  se_lift (place_into_result parsed).

Definition modify_order (b : t) (j : ShoonyaModifyOrderJData) : Action unit :=
  text <-? post b false "/ModifyOrder" (modify_fields j);
  parsed <-? decoded "shoonya modify" decode_stat text;
  se_lift (into_result parsed).

Definition cancel_order (b : t) (norenordno : string) : Action unit :=
  text <-? post b false "/CancelOrder" [("uid", FStr (user_id (creds b))); ("norenordno", FStr norenordno)];
  parsed <-? decoded "shoonya cancel" decode_stat text;
  se_lift (into_result parsed).

(** A list of states, the last of which counts, or an object that carries an error. *)
Definition order_status (b : t) (norenordno : string) : Action ShoonyaOrderStatusResponse :=
  text <-? post b false "/SingleOrdHist" [("uid", FStr (user_id (creds b))); ("norenordno", FStr norenordno)];
  match decode_history text with
  | Ok arr => se_lift (ok_or (BrokerError.UnknownOrderId norenordno) (last arr))
  | Err _ =>
    err <-? decoded "shoonya status" decode_stat text;
    match into_result err with
    | Ok _ => se_fail (BrokerError.Internal ("shoonya order status returned ok with no entries: " +:+ text))
    | Err e => se_fail e
    end
  end.

Definition ping_user_details (b : t) : Action unit :=
  text <-? post b true "/UserDetails" [("uid", FStr (user_id (creds b)))];
  parsed <-? decoded "shoonya user details" decode_stat text;
  se_lift (into_result parsed).

Definition submit (b : t) (intent : BrokerOrder) : Action SubmitAck :=
  guarded BrokerId.Shoonya BrokerOp.Submit (bo_correlation_id intent)
    (place_order b (intent_to_shoonya_jdata intent (user_id (creds b)) (account_id (creds b))
                      default_tradingsymbol_resolver)) ack.
(** The symbol and the exchange of the order are placeholders. *)
Definition modify (b : t) (m : OrderModification) : Action unit :=
  guarded BrokerId.Shoonya BrokerOp.Modify CorrelationId.NIL
    (modify_order b (modification_to_shoonya_jdata m (user_id (creds b)) "UNKNOWN-EQ" "NSE")) Ok.
Definition cancel (b : t) (broker_order_id : string) : Action unit :=
  guarded BrokerId.Shoonya BrokerOp.Cancel CorrelationId.NIL (cancel_order b broker_order_id) Ok.
Definition status (b : t) (broker_order_id : string) : Action OrderStatus :=
  guarded BrokerId.Shoonya BrokerOp.Status CorrelationId.NIL (order_status b broker_order_id)
    (fun r => order_status_response_to_status r broker_order_id).
Definition ready (b : t) : AdapterState -> ReadyState.t * AdapterState :=
  probe BrokerId.Shoonya (validate (creds b)) (ping_user_details b).

Definition adapter (b : t) : BrokerAdapter AdapterState :=
  mk_BrokerAdapter BrokerId.Shoonya (submit b) (modify b) (cancel b) (status b) (ready b).
End client.
Definition metric_subject : string := "broker.metric." +:+ broker_id_token BrokerId.Shoonya.
End Shoonya.
