(* ===== verification/VendorFacts.v ===== *)
(** What the vendor adapters guarantee: they fail closed on bad credentials, account for every
    call, and carry prices without loss. *)

From S2P Require Import Prelude Ieee IeeeValue Core Schemas BrokerApi Decimal VendorHttp Vendors.

Local Open Scope se_scope.

(** ** Calls that send at most one request *)

Definition sent (l : list Request) (w : AdapterState) : AdapterState :=
  mk_AdapterState (ready_state w) (published w) (requests w ++ l) (readings w).

Lemma sent_nil w : sent [] w = w.
Proof. destruct w. unfold sent. simpl. by rewrite app_nil_r. Qed.

Section sends.
Context `{Transport}.

(** The call changes nothing but the requests sent: at least [lo] of them, at most one. *)
Definition sends {A} (lo : nat) (call : Action A) : Prop :=
  forall w, exists r l, call w = (r, sent l w) /\ (lo <= length l <= 1)%nat.
Definition sends_nothing {A} (call : Action A) : Prop := forall w, (call w).2 = w.

Lemma nothing_lift {A} (r : result A BrokerError.t) : sends_nothing (se_lift r).
Proof. done. Qed.
Lemma nothing_ret {A} (a : A) : sends_nothing (se_ret a : Action A).
Proof. done. Qed.
Lemma nothing_fail {A} (e : BrokerError.t) : sends_nothing (se_fail e : Action A).
Proof. done. Qed.
Lemma nothing_decoded {A} what (decode : string -> result A string) text :
  sends_nothing (decoded what decode text).
Proof. done. Qed.
Lemma nothing_bind {A B} (m : Action A) (k : A -> Action B) :
  sends_nothing m -> (forall a, sends_nothing (k a)) -> sends_nothing (se_bind m k).
Proof.
  intros Hm Hk w. unfold se_bind. specialize (Hm w). destruct (m w) as [[a | e] w'];
    simpl in *; subst; [apply Hk | done].
Qed.

Lemma sends_http ms lenient headers m url body lo : lo = 0%nat \/ (lo = 1%nat /\ is_ok headers = true) ->
  sends lo (http_call ms lenient headers m url body).
Proof.
  intros Hlo w. unfold http_call. destruct headers as [h | e].
  - assert (lo <= 1)%nat by (destruct Hlo as [-> | [-> _]]; lia).
    destruct (send _ _) as [resp | e]; [destruct (rs_text resp) as [text | e]; [| destruct lenient] |];
      eexists _, [_]; (split; [done | simpl; lia]).
  - exists (Err e), []. rewrite sent_nil. destruct Hlo as [-> | [_ ?]]; [split; [done | simpl; lia] | done].
Qed.

Lemma sends_then {A B} lo (m : Action A) (k : A -> Action B) :
  sends lo m -> (forall a, sends_nothing (k a)) -> sends lo (se_bind m k).
Proof.
  intros Hm Hk w. unfold se_bind. destruct (Hm w) as (r & l & -> & Hl). destruct r as [a | e].
  - exists (k a (sent l w)).1, l. split; [| done]. rewrite <- (Hk a (sent l w)) at 3.
    by destruct (k a (sent l w)).
  - by exists (Err e), l.
Qed.

(** A preparation that cannot fail when requests are counted. *)
Lemma sends_after {A B} lo (r : result A BrokerError.t) (k : A -> Action B) :
  lo = 0%nat \/ is_ok r = true -> (forall a, sends lo (k a)) -> sends lo (se_bind (se_lift r) k).
Proof.
  intros Hr Hk w. unfold se_bind, se_lift. destruct r as [a | e]; [apply Hk |].
  exists (Err e), []. rewrite sent_nil. destruct Hr as [-> | ?]; [split; [done | simpl; lia] | done].
Qed.
End sends.

Create HintDb vendor.
#[export] Hint Resolve nothing_lift nothing_ret nothing_fail nothing_decoded nothing_bind
  sends_then : vendor.

(** ** The five adapters as one family *)

Inductive Vendor : Type :=
| VZerodha (b : Zerodha.t)
| VUpstox (b : Upstox.t)
| VDhan (b : Dhan.t)
| VAngelOne (b : AngelOne.t)
| VShoonya (b : Shoonya.t).

Section family.
Context `{T : Transport} `{!Zerodha.Codec} `{!Upstox.Codec} `{!Dhan.Codec} `{!AngelOne.Codec}
  `{!Shoonya.Codec}.

Definition vendor_adapter (v : Vendor) : BrokerAdapter AdapterState :=
  match v with
  | VZerodha b => Zerodha.adapter b
  | VUpstox b => Upstox.adapter b
  | VDhan b => Dhan.adapter b
  | VAngelOne b => AngelOne.adapter b
  | VShoonya b => Shoonya.adapter b
  end.
Definition vendor_validate (v : Vendor) : result unit string :=
  match v with
  | VZerodha b => Zerodha.validate (Zerodha.creds b)
  | VUpstox b => Upstox.validate (Upstox.creds b)
  | VDhan b => Dhan.validate (Dhan.creds b)
  | VAngelOne b => AngelOne.validate (AngelOne.creds b)
  | VShoonya b => Shoonya.validate (Shoonya.creds b)
  end.

(** The credentials can be written in headers, and JSON data can be encoded. *)
Definition encodable : Prop :=
  (forall s, is_ok (header_value s) = true) /\ (forall l, is_ok (json_text l) = true).

Lemma encodable_header what s : encodable -> is_ok (checked_header what s) = true.
Proof. intros [Hh _]. unfold checked_header. specialize (Hh s). by destruct (header_value s). Qed.

Inductive Call : Type :=
| CSubmit (intent : BrokerOrder)
| CModify (m : OrderModification)
| CCancel (id : string)
| CStatus (id : string)
| CReady.
Definition call_op (c : Call) : BrokerOp.t :=
  match c with
  | CSubmit _ => BrokerOp.Submit | CModify _ => BrokerOp.Modify | CCancel _ => BrokerOp.Cancel
  | CStatus _ => BrokerOp.Status | CReady => BrokerOp.Ready
  end.

Inductive Outcome : Type :=
| Answered (r : result unit BrokerError.t)
| Probed (r : ReadyState.t).

Definition call_vendor (v : Vendor) (c : Call) (w : AdapterState) : Outcome * AdapterState :=
  let a := vendor_adapter v in
  match c with
  | CSubmit i => let '(r, w) := ba_submit a i w in (Answered (unit_view r), w)
  | CModify m => let '(r, w) := ba_modify a m w in (Answered (unit_view r), w)
  | CCancel id => let '(r, w) := ba_cancel a id w in (Answered (unit_view r), w)
  | CStatus id => let '(r, w) := ba_status a id w in (Answered (unit_view r), w)
  | CReady => let '(r, w) := ba_ready a w in (Probed r, w)
  end.

Fixpoint run_vendor (v : Vendor) (calls : list Call) (w : AdapterState) : list Outcome * AdapterState :=
  match calls with
  | [] => ([], w)
  | c :: calls =>
    let '(o, w) := call_vendor v c w in
    let '(os, w) := run_vendor v calls w in (o :: os, w)
  end.

(** *** Every operation is guarded, every probe validates first *)

(** How many requests a call that is let through sends at least. *)
Definition floor (lo : nat) : Prop := lo = 0%nat \/ (lo = 1%nat /\ encodable).

Lemma floor_headers what lo s (f : string -> list (string * string)) : floor lo ->
  lo = 0%nat \/ (lo = 1%nat /\ is_ok (match checked_header what s with
                                   | Ok v => Ok (f v) | Err e => Err e end) = true).
Proof.
  intros [-> | [-> He]]; [by left | right; split; [done |]].
  pose proof (encodable_header what s He). by destruct (checked_header what s).
Qed.

Lemma floor_angel b lo : floor lo -> lo = 0%nat \/ (lo = 1%nat /\ is_ok (AngelOne.default_headers b) = true).
Proof.
  intros [-> | [-> He]]; [by left | right; split; [done |]]. unfold AngelOne.default_headers.
  pose proof (encodable_header "invalid jwt: " ("Bearer " +:+ AngelOne.jwt_token (AngelOne.creds b)) He).
  pose proof (encodable_header "invalid api key: " (AngelOne.api_key (AngelOne.creds b)) He).
  by destruct (checked_header _ _), (checked_header _ _).
Qed.

Lemma sends_shoonya b lenient path j lo : floor lo -> sends lo (Shoonya.post b lenient path j).
Proof.
  intros Hlo. apply sends_after; [| intros; apply sends_http; destruct Hlo as [-> | [-> _]]; auto].
  destruct Hlo as [-> | [-> [_ Hj]]]; [by left | right]. unfold Shoonya.body_for.
  specialize (Hj j). by destruct (json_text j).
Qed.

Definition vendor_id (v : Vendor) : BrokerId.t := ba_broker_id (vendor_adapter v).

(** An operation that is not a probe is a guarded call that sends at most one request. *)
Definition guarded_step (v : Vendor) (c : Call) : Prop :=
  exists A B cid (call : Action A) (view : A -> result B BrokerError.t),
    (forall w, call_vendor v c w
       = (let '(r, w) := guarded (vendor_id v) (call_op c) cid call view w in (Answered (unit_view r), w)))
    /\ (forall lo, floor lo -> sends lo call).

Lemma every_operation_guarded v c : c <> CReady -> guarded_step v c.
Proof.
  intros Hc. destruct v as [b | b | b | b | b], c as [i | m | id | id |]; try done.
  all: eexists _, _, _, _, _; split; [intros w; reflexivity |]; intros lo Hlo.
  all: try (repeat (apply sends_then; [| by eauto with vendor]);
            apply sends_http; first [by apply floor_headers | by apply floor_angel]).
  all: try (apply sends_then; [by apply sends_shoonya | by eauto with vendor]).
  apply sends_then; [by apply sends_shoonya | intros text].
  destruct (Shoonya.decode_history text); [apply nothing_lift |].
  apply nothing_bind; [apply nothing_decoded | intros err].
  destruct (Shoonya.into_result err); [apply nothing_fail | apply nothing_fail].
Qed.

Lemma every_probe_validates v w : exists ping, (forall lo, floor lo -> sends lo ping)
  /\ call_vendor v CReady w
     = (let '(r, w) := probe (vendor_id v) (vendor_validate v) ping w in (Probed r, w)).
Proof.
  destruct v as [b | b | b | b | b]; eexists; (split; [| reflexivity]); intros lo Hlo.
  all: try (repeat (apply sends_then; [| by eauto with vendor]);
            apply sends_http; first [by apply floor_headers | by apply floor_angel]).
  apply sends_then; [by apply sends_shoonya | by eauto with vendor].
Qed.

(** *** One step *)

(** What a call adds to the world: one metric of its kind, and between [lo] and one requests. *)
Definition accounted (v : Vendor) (c : Call) (lo : nat) (w w' : AdapterState) : Prop :=
  (exists m, published w' = published w ++ [m] /\ bm_op m = call_op c /\ bm_broker_id m = vendor_id v)
  /\ (exists l, requests w' = requests w ++ l /\ (lo <= length l <= 1)%nat).

Lemma metric_recorded id op cid start r w : exists m,
  published (record_metric id op cid start r w) = published w ++ [m]
  /\ bm_op m = op /\ bm_broker_id m = id /\ bm_error m = negb (is_ok r)
  /\ requests (record_metric id op cid start r w) = requests w
  /\ ready_state (record_metric id op cid start r w) = ready_state w.
Proof.
  unfold record_metric. simpl. destruct r as [[] | []]; eexists; split_and!; done.
Qed.

Lemma update_ready_frame {A} (r : result A BrokerError.t) w :
  published (update_ready_from_result r w) = published w
  /\ requests (update_ready_from_result r w) = requests w.
Proof. destruct r as [a | []]; try done; simpl; by destruct (is_config_error _). Qed.

Lemma metric_accounted v c lo cid start r l w w1 :
  published w1 = published w -> requests w1 = requests w ++ l -> (lo <= length l <= 1)%nat ->
  accounted v c lo w (record_metric (vendor_id v) (call_op c) cid start r w1).
Proof.
  intros Hp Hr Hl. destruct (metric_recorded (vendor_id v) (call_op c) cid start r w1)
    as (m & Hpub & Hop & Hid & _ & Hrq & _).
  split; [exists m; by rewrite Hpub, Hp | exists l; by rewrite Hrq, Hr].
Qed.

Lemma call_accounted {A} v c lo cid start (res : result A BrokerError.t) r l w w1 :
  published w1 = published w -> requests w1 = requests w -> (lo <= length l <= 1)%nat ->
  accounted v c lo w (record_metric (vendor_id v) (call_op c) cid start r
                        (update_ready_from_result res (sent l w1))).
Proof.
  intros Hp Hr Hl. destruct (update_ready_frame res (sent l w1)) as [Hup Hur].
  by apply (metric_accounted v c lo cid start r l); rewrite ?Hup, ?Hur; simpl; rewrite ?Hr.
Qed.

(** The latch: a misconfigured adapter refuses, and stays as it is. *)
Definition refused (reason : string) (o : Outcome) : Prop :=
  o = Answered (Err (BrokerError.NotReady reason)) \/ o = Probed (ReadyState.ConfigError reason).

Lemma step_refuses v c w reason : ready_state w = ReadyState.ConfigError reason ->
  c <> CReady \/ vendor_validate v = Err reason ->
  let '(o, w') := call_vendor v c w in
  refused reason o /\ requests w' = requests w /\ ready_state w' = ReadyState.ConfigError reason.
Proof.
  intros Hw Hc. destruct (decide (call_op c = BrokerOp.Ready)) as [Hr | Hr].
  - destruct c; try done. destruct Hc as [? | Hv]; [done |].
    destruct (every_probe_validates v w) as (ping & _ & ->). unfold probe. simpl. rewrite Hv.
    edestruct (metric_recorded (vendor_id v)) as (m & _ & _ & _ & _ & Hrq & Hrs).
    rewrite Hrq, Hrs. split_and!; [by right | done | done].
  - assert (c <> CReady) as Hnr by (by intros ->).
    destruct (every_operation_guarded v c Hnr) as (A & B & cid & call & view & Heq & _).
    rewrite Heq. unfold guarded, fail_closed_if_misconfigured. simpl. rewrite Hw.
    edestruct (metric_recorded (vendor_id v)) as (m & _ & _ & _ & _ & Hrq & Hrs).
    rewrite Hrq, Hrs. split_and!; [by left | done | done].
Qed.

(** Whether a call gets past the guard. *)
Definition let_through (v : Vendor) (c : Call) (w : AdapterState) : bool :=
  match c with CReady => is_ok (vendor_validate v) | _ => negb (is_config_error (ready_state w)) end.

Lemma step_accounted v c w lo : floor lo ->
  accounted v c (if let_through v c w then lo else 0%nat) w (call_vendor v c w).2.
Proof.
  intros Hlo. destruct (decide (call_op c = BrokerOp.Ready)) as [Hr | Hr].
  - destruct c; try done. destruct (every_probe_validates v w) as (ping & Hping & ->).
    unfold probe, let_through. simpl. destruct (vendor_validate v) as [[] | reason]; simpl.
    + destruct (Hping lo Hlo (read_clock w).2) as (r & l & Hcall & Hl).
      simpl in Hcall. rewrite Hcall. by apply (call_accounted v CReady).
    + apply (metric_accounted v CReady 0 _ _ _ []); simpl; rewrite ?app_nil_r; done || lia.
  - assert (c <> CReady) as Hnr by (by intros ->).
    destruct (every_operation_guarded v c Hnr) as (A & B & cid & call & view & Heq & Hcalls).
    rewrite Heq. unfold guarded, fail_closed_if_misconfigured.
    assert (let_through v c w = negb (is_config_error (ready_state w))) as -> by (by destruct c).
    simpl. destruct (ready_state w) as [| reason | reason] eqn:Ew; simpl.
    2: { apply (metric_accounted v c 0 _ _ _ []); simpl; rewrite ?app_nil_r; done || lia. }
    all: destruct (Hcalls lo Hlo (read_clock w).2) as (r & l & Hcall & Hl).
    all: simpl in Hcall; rewrite Ew in Hcall; rewrite Hcall; by apply call_accounted.
Qed.
(** *** Histories *)

Lemma run_refuses v calls reason : forall w, ready_state w = ReadyState.ConfigError reason ->
  CReady ∉ calls \/ vendor_validate v = Err reason ->
  let '(outs, w') := run_vendor v calls w in
  Forall (refused reason) outs /\ requests w' = requests w
  /\ ready_state w' = ReadyState.ConfigError reason.
Proof.
  induction calls as [| c calls IH]; intros w Hw Hc; [done |].
  rewrite not_elem_of_cons in Hc. cbn [run_vendor].
  pose proof (step_refuses v c w reason Hw) as Hs.
  destruct (call_vendor v c w) as [o w1].
  destruct Hs as (Ho & Hrq & Hrs); [destruct Hc as [[? ?] | ?]; [left; congruence | by right] |].
  specialize (IH w1 Hrs). destruct (run_vendor v calls w1) as [os w2].
  destruct IH as (IHo & IHr & IHs); [tauto |].
  split; [by constructor | split; [congruence | done]].
Qed.

Lemma run_accounted v calls : forall w, let w' := (run_vendor v calls w).2 in
  (exists ms, published w' = published w ++ ms /\ bm_op <$> ms = call_op <$> calls
     /\ Forall (fun m => bm_broker_id m = vendor_id v) ms)
  /\ (exists l, requests w' = requests w ++ l /\ (length l <= length calls)%nat).
Proof.
  induction calls as [| c calls IH]; intros w; cbn [run_vendor].
  { split; exists []; rewrite app_nil_r; done. }
  pose proof (step_accounted v c w 0 ltac:(by left)) as [(m & Hpub & Hop & Hid) (l & Hrq & Hl)].
  destruct (call_vendor v c w) as [o w1]. simpl in Hpub, Hrq.
  specialize (IH w1). destruct (run_vendor v calls w1) as [os w2]. simpl in *.
  destruct IH as [(ms & Hms & Hops & Hids) (l' & Hl' & Hlen)].
  split; [exists (m :: ms) | exists (l ++ l')].
  - rewrite Hms, Hpub, <- app_assoc. split_and!; [done | by simpl; f_equal | by constructor].
  - rewrite Hl', Hrq, <- app_assoc, length_app. split; [done | lia].
Qed.

(** C23: The vendor adapters fail closed, whatever the network answers. Over any history of
    calls an adapter publishes exactly one metric per call, of the call's kind, and sends at most
    one request per call. From a state of bad configuration it refuses every operation with that
    reason, sends nothing and stays so until a probe finds acceptable credentials; when the
    credentials themselves are invalid probes refuse too. A call that is let through sends exactly
    one request, provided the headers and the body can be written. *)
Theorem vendor_adapters_fail_closed v calls w :
  let '(outs, w') := run_vendor v calls w in
  (exists ms, published w' = published w ++ ms /\ bm_op <$> ms = call_op <$> calls
     /\ Forall (fun m => bm_broker_id m = vendor_id v) ms)
  /\ (exists l, requests w' = requests w ++ l /\ (length l <= length calls)%nat)
  /\ (forall reason, ready_state w = ReadyState.ConfigError reason ->
        CReady ∉ calls \/ vendor_validate v = Err reason ->
        Forall (refused reason) outs /\ requests w' = requests w
        /\ ready_state w' = ReadyState.ConfigError reason)
  /\ (encodable -> forall c w1, let_through v c w1 = true ->
        exists rq, requests (call_vendor v c w1).2 = requests w1 ++ [rq]).
Proof.
  pose proof (run_accounted v calls w) as [Hp Hr].
  pose proof (run_refuses v calls) as Hrefuse.
  destruct (run_vendor v calls w) as [outs w'] eqn:E. split_and!; [done | done | |].
  - intros reason Hw Hc. specialize (Hrefuse reason w Hw Hc). by rewrite E in Hrefuse.
  - intros He c w1 Hlet. destruct (step_accounted v c w1 1 ltac:(by right)) as [_ (l & Hl & Hlen)].
    rewrite Hlet in Hlen. destruct l as [| rq [| ? ?]]; simpl in Hlen; try lia. by exists rq.
Qed.
End family.

(** ** Prices *)

Lemma rupee_f64_and_back p : Z.abs p < 2 ^ 49 -> rupees_to_paise (paise_to_rupee_f64 p) = p.
Proof. apply f64_hundredth_and_back. Qed.

Lemma rupee_string_and_back p : Z.abs p < 2 ^ 49 ->
  rupees_to_paise <$> parse_f64 (paise_to_rupee_string p) = Some p.
Proof.
  intros Hp. destruct (rupee_text_and_back p Hp) as (x & Hx & Hr).
  unfold paise_to_rupee_string. rewrite Hx. simpl. f_equal. exact Hr.
Qed.

(** The price of a limit order survives every vendor's encoding: what an adapter writes in
    its order body (binary64 rupees for Upstox and Dhan, decimal text for Zerodha, Angel One and
    Shoonya), quoted back by the vendor and converted as a fill price is, gives the same number
    of paise, up to 2^49. *)
Theorem vendor_prices_round_trip i p (Hp : Z.abs p < 2 ^ 49)
  (Hl : bo_order_type i = OrderType.Limit) (Hi : bo_limit_paise i = p) :
  (forall resolver r, Upstox.o_average_price (Upstox.s_data r)
       = Upstox.price (Upstox.intent_to_upstox_body i resolver) ->
     os_avg_fill_paise (Upstox.order_status_response_to_status r) = p)
  /\ (forall client resolver r, Dhan.o_avg_price r
       = Dhan.price (Dhan.intent_to_dhan_body i client resolver) ->
     os_avg_fill_paise (Dhan.order_status_response_to_status r) = p)
  /\ (forall resolver h, parse_f64 (Zerodha.price (Zerodha.intent_to_kite_form i resolver))
       = Some (Zerodha.h_average_price h) ->
     os_avg_fill_paise (Zerodha.order_history_to_status h) = p)
  /\ (forall r1 r2 r, parse_f64 (AngelOne.price (AngelOne.intent_to_smartapi_body i r1 r2))
       = Some (AngelOne.o_avg_price r) ->
     os_avg_fill_paise (AngelOne.order_status_response_to_status r) = p)
  /\ (forall user account resolver r id, Shoonya.o_avgprc r
       = Some (Shoonya.prc (Shoonya.intent_to_shoonya_jdata i user account resolver)) ->
     exists s, Shoonya.order_status_response_to_status r id = Ok s /\ os_avg_fill_paise s = p).
Proof.
  pose proof (rupee_f64_and_back p Hp) as Hf. pose proof (rupee_string_and_back p Hp) as Hs.
  unfold Upstox.intent_to_upstox_body, Dhan.intent_to_dhan_body, Zerodha.intent_to_kite_form,
    AngelOne.intent_to_smartapi_body, Shoonya.intent_to_shoonya_jdata.
  rewrite Hl, Hi. split_and!; simpl.
  - intros resolver r Hr. by rewrite Hr.
  - intros client resolver r Hr. by rewrite Hr.
  - intros resolver h Hr. rewrite Hr in Hs. simpl in Hs. congruence.
  - intros r1 r2 r Hr. rewrite Hr in Hs. simpl in Hs. congruence.
  - intros user account resolver r id Hr. eexists. split; [done |]. simpl. rewrite Hr. simpl.
    by rewrite Hs.
Qed.

(** ** Concrete runs *)

(** A broker that accepts everything, and one whose gateway answers 403. *)
Definition demo_transport (code : Z) : Transport := {|
  build_client := Ok tt;
  header_value := fun _ => Ok tt;
  send := fun _ _ => Ok (mk_Response code (Ok "body"));
  json_text := fun _ => Ok "json";
  form_urlencode := fun _ => "form";
  now := Z.of_nat;
|}.
#[local] Instance demo_kite : Zerodha.Codec :=
  Zerodha.Build_Codec (fun _ => Ok (Zerodha.mk_KiteEnvelope "success" None (Some "K1")))
    (fun _ => Ok (Zerodha.mk_KiteEnvelope "success" None (Some []))).
#[local] Instance demo_upstox : Upstox.Codec :=
  Upstox.Build_Codec (fun e => Err e) (fun e => Err e).
#[local] Instance demo_dhan : Dhan.Codec := Dhan.Build_Codec (fun e => Err e) (fun e => Err e).
#[local] Instance demo_angel : AngelOne.Codec :=
  AngelOne.Build_Codec (fun e => Err e) (fun e => Err e) (fun e => Err e).
#[local] Instance demo_shoonya : Shoonya.Codec :=
  Shoonya.Build_Codec (fun e => Err e) (fun e => Err e) (fun e => Err e).

Definition demo_order : BrokerOrder :=
  mk_BrokerOrder 7 5 Side.Buy 10 OrderType.Limit 10125 Exchange.Nse.
Definition demo_vendor (token : string) : Vendor :=
  VZerodha (Zerodha.mk (Zerodha.mk_KiteCredentials "key" token) "https://kite" "regular").

Lemma vendor_adapters_fail_closed_witness :
  let bad := demo_vendor EmptyString in
  let good := demo_vendor "token" in
  let calls := [CSubmit demo_order; CReady; CCancel "K1"] in
  let w0 v := initial_state (vendor_validate v) in
  requests (run_vendor (T := demo_transport 200) bad calls (w0 bad)).2 = []
  /\ (exists rq, requests (call_vendor (T := demo_transport 200) good (CSubmit demo_order) (w0 good)).2 = [rq]).
Proof.
  intros bad good calls w0. split.
  - pose proof (vendor_adapters_fail_closed (T := demo_transport 200) bad calls (w0 bad)) as H.
    destruct (run_vendor (T := demo_transport 200) bad calls (w0 bad)) as [outs w'].
    destruct H as (_ & _ & H & _). destruct (H "zerodha access_token is empty") as (_ & Hr & _);
      [vm_compute; reflexivity | right; vm_compute; reflexivity |].
    exact Hr.
  - pose proof (vendor_adapters_fail_closed (T := demo_transport 200) good calls (w0 good)) as H.
    destruct (run_vendor (T := demo_transport 200) good calls (w0 good)) as [outs w'].
    destruct H as (_ & _ & _ & H). apply (H ltac:(split; reflexivity) (CSubmit demo_order) (w0 good)).
    vm_compute; reflexivity.
Defined.

Lemma vendor_prices_round_trip_witness :
  os_avg_fill_paise (Upstox.order_status_response_to_status
    (Upstox.mk_UpstoxOrderStatusResponse None
       (Upstox.mk_UpstoxOrderDetail "U1" " Complete " 10
          (Upstox.price (Upstox.intent_to_upstox_body demo_order Upstox.default_instrument_token_resolver)))))
  = 10125
  /\ Zerodha.price (Zerodha.intent_to_kite_form demo_order Zerodha.default_symbol_resolver) = "101.25".
Proof.
  destruct (vendor_prices_round_trip demo_order 10125 ltac:(vm_compute; reflexivity)
              ltac:(reflexivity) ltac:(reflexivity)) as [H _].
  split; [apply (H Upstox.default_instrument_token_resolver); reflexivity | vm_compute; reflexivity].
Defined.

(** ** Where the adapters differ from their documentation *)

(** One refused submission (403) latches the adapter: the next operations never reach the
    vendor, whatever it would answer, until somebody probes. *)
Example one_auth_error_latches :
  let v := demo_vendor "token" in
  let '(outs, w) := run_vendor (T := demo_transport 403) v
                      [CSubmit demo_order; CStatus "K1"; CSubmit demo_order]
                      (initial_state (vendor_validate v)) in
  outs = [Answered (Err (BrokerError.Auth "403: body")); Answered (Err (BrokerError.NotReady "403: body"));
          Answered (Err (BrokerError.NotReady "403: body"))]
  /\ length (requests w) = 1%nat.
Proof. by vm_compute. Qed.

(** Four of the copies mark a body as cut although all of it is there: 300 characters of two
    bytes. *)
Example whole_body_marked_as_cut :
  let body := foldr String.app EmptyString (replicate 300 "é") in
  truncate_bytes body = body +:+ ellipsis /\ truncate body 512 = body.
Proof. by vm_compute. Qed.

(** Codes the comment calls authentication errors are rejections. *)
Example angel_auth_codes_are_rejections :
  AngelOne.classify_smartapi_error "AB2000" "m" = BrokerError.Rejected "AB2000 m".
Proof. by vm_compute. Qed.

(** Shoonya's modification names the same placeholder for every order. *)
Lemma shoonya_modify_names_placeholder m user :
  let j := Shoonya.modification_to_shoonya_jdata m user "UNKNOWN-EQ" "NSE" in
  last (Shoonya.modify_fields j) = Some ("exch", FStr "NSE")
  /\ ("tsym", FStr "UNKNOWN-EQ") ∈ Shoonya.modify_fields j.
Proof.
  cbv zeta. unfold Shoonya.modify_fields, opt_field.
  destruct m as [id [q |] [p |]]; (split; [done |]); simpl; rewrite !elem_of_cons; auto 10.
Qed.

(** A partial fill of Kite or SmartAPI's "open" order is Submitted. *)
Example kite_partial_fill_is_submitted :
  let s := Zerodha.order_history_to_status (Zerodha.mk_KiteOrderHistory "K1" "OPEN" 4 f_zero) in
  os_state s = OrderLifecycleState.Submitted /\ os_filled_qty s = 4.
Proof. by vm_compute. Qed.
