(* ===== verification/Session.v ===== *)
(** The session announcers: crates/hedge-session (controller.rs, event.rs,
    session_controller.rs, session_event.rs).

    Instants are nanoseconds since the Unix epoch, local wall-clock times
    nanoseconds since the local epoch, dates days since 1970-01-01, so dates
    have no upper bound here (chrono panics near the year 262142).  The time
    zone database and the calendar are third-party code: [of_local], [of_utc]
    and [ymd] are parameters.  The bus is too: [bus n] is the error of the
    [n]-th publication attempt, if it fails, and [clock n] the reading of
    [now_ns()] made for it. *)

From S2P Require Import Prelude Ieee Core Config.

Definition NS_PER_SEC : Z := 1000000000.
Definition NS_PER_DAY : Z := 86400 * NS_PER_SEC.
Definition IST_OFFSET_NS : Z := (5 * 3600 + 30 * 60) * NS_PER_SEC.

(** [chrono::LocalResult]. *)
Inductive LocalResult (A : Type) :=
| Single (dt : A)
| Ambiguous (early late : A)
| NoTime.
Arguments Single {A} dt.
Arguments Ambiguous {A} early late.
Arguments NoTime {A}.

Inductive Phase := Start | End_.
Definition phase_as_str (p : Phase) : string :=
  match p with Start => "start" | End_ => "end" end.
#[global] Instance Phase_eq_dec : EqDecision Phase.
Proof. solve_decision. Defined.

Inductive WindowState := Inactive | Active.
#[global] Instance WindowState_eq_dec : EqDecision WindowState.
Proof. solve_decision. Defined.

(** [DaySchedule], [SessionDaySchedule]. *)
Record DaySchedule := mk_DaySchedule { ist_date : Z; start_utc : Z; end_utc : Z }.

(** What a controller acts on: its bus, and what reached it. *)
Record BusWorld (E : Type) := mk_BusWorld { bw_attempts : nat; bw_published : list E }.
Arguments mk_BusWorld {E} bw_attempts bw_published.
Arguments bw_attempts {E} b.
Arguments bw_published {E} b.

(** The two controllers of the source are one state machine written twice: they differ in
    their configuration and in the event they build, [event phase session_id ts_ns]. *)
Module Controller.
Section controller.
Context (of_local : Z -> LocalResult Z) (of_utc : Z -> Z) (ymd : Z -> Z * Z * Z).
Context {BusError E : Type} (bus : nat -> option BusError) (clock : nat -> Z).
Context (start_ist end_ist : Z) (event : Phase -> Z -> Z -> E).

(** [date.and_time(time)]. *)
Definition and_time (date time : Z) : Z := date * NS_PER_DAY + time * NS_PER_SEC.

Definition ist_to_utc (date time : Z) : Z :=
  let local := and_time date time in
  match of_local local with
  | Single dt => dt
  | Ambiguous early _ => early
  | NoTime => local - IST_OFFSET_NS
  end.

Definition for_date (date : Z) : DaySchedule :=
  mk_DaySchedule date (ist_to_utc date start_ist) (ist_to_utc date end_ist).

(** [session_id]: the date as YYYYMMDD. *)
Definition session_id (day : DaySchedule) : Z :=
  let '(y, m, d) := ymd (ist_date day) in
  as_u64 (as_u64 y * 10000 + m * 100 + d).

Definition day_for (now : Z) : DaySchedule := for_date (of_utc now / NS_PER_DAY).

Definition in_window (now : Z) : bool :=
  let day := day_for now in (start_utc day <=? now) && (now <? end_utc day).

Definition next_deadline (now : Z) : Z :=
  let today := day_for now in
  if now <? start_utc today then start_utc today
  else if now <? end_utc today then end_utc today
  else start_utc (for_date (ist_date today + 1)).

Record world := mk_world { cw_state : WindowState; cw_bus : BusWorld E }.

Definition emit (phase : Phase) (sid : Z) : SE world BusError unit :=
  fun w =>
    let b := cw_bus w in
    let n := bw_attempts b in
    let ev := event phase sid (clock n) in
    match bus n with
    | None => (Ok tt, mk_world (cw_state w) (mk_BusWorld (S n) (bw_published b ++ [ev])))
    | Some err => (Err err, mk_world (cw_state w) (mk_BusWorld (S n) (bw_published b)))
    end.

Definition set_state (s : WindowState) : SE world BusError unit :=
  se_modify (fun w => mk_world s (cw_bus w)).

Definition reconcile_at (now : Z) : SE world BusError unit :=
  fun w =>
    let day := day_for now in
    (match cw_state w, in_window now with
     | Inactive, true => emit Start (session_id day) ;? set_state Active
     | Active, false => emit End_ (session_id day) ;? set_state Inactive
     | Active, true => se_ret tt
     | Inactive, false => se_ret tt
     end)%se w.

(** The loop of [tick_until]; [None] is a loop that [fuel] turns do not end. *)
Fixpoint tick_loop (fuel : nat) (to cursor : Z) (w : world) : option (result unit BusError * world) :=
  match fuel with
  | O => None
  | S fuel =>
      let next := next_deadline cursor in
      if next >=? to then Some (Ok tt, w)
      else match reconcile_at next w with
           | (Ok _, w) => tick_loop fuel to next w
           | (Err err, w) => Some (Err err, w)
           end
  end.

(** Two deadlines a day at most. *)
Definition tick_fuel (from to : Z) : nat :=
  S (Z.to_nat (2 * (of_utc to / NS_PER_DAY - of_utc from / NS_PER_DAY) + 2)).

Definition tick_until (from to : Z) (w : world) : option (result unit BusError * world) :=
  match reconcile_at from w with
  | (Ok _, w) => tick_loop (tick_fuel from to) to from w
  | (Err err, w) => Some (Err err, w)
  end.

(** One turn of [run]: the clock is read for the reconciliation and again for the deadline;
    the result is how long the turn sleeps. *)
Definition run_turn (reading : Z * Z) : SE world BusError Z :=
  (reconcile_at reading.1 ;?
   se_ret (Z.max 0 (next_deadline reading.2 - reading.2)))%se.

(** [run] over the readings of its turns: the first error ends it. *)
Fixpoint run (readings : list (Z * Z)) : SE world BusError unit :=
  match readings with
  | [] => se_ret tt
  | r :: rest => (run_turn r ;? run rest)%se
  end.

Definition new : world := mk_world Inactive (mk_BusWorld 0 []).

(** *** Specification: the window's boundaries *)

Definition boundary (ph : Phase) (d : Z) : Z :=
  and_time d (match ph with Start => start_ist | End_ => end_ist end) - IST_OFFSET_NS.

Definition day_of (u : Z) : Z := (u + IST_OFFSET_NS) / NS_PER_DAY.

(** A boundary of day [d] strictly between two instants. *)
Definition crossing (from to : Z) (x : Z * Phase * Z) : Prop :=
  let '(t, ph, d) := x in 0 <= d /\ t = boundary ph d /\ from < t < to.

Definition earlier (x y : Z * Phase * Z) : Prop := x.1.1 < y.1.1.

(** The events that announce them, from the [n]-th publication on. *)
Fixpoint announce (n : nat) (es : list (Z * Phase * Z)) : list E :=
  match es with
  | [] => []
  | (_, ph, d) :: es => event ph (session_id (for_date d)) (clock n) :: announce (S n) es
  end.

Definition state_at (u : Z) : WindowState := if in_window u then Active else Inactive.

(** Phases alternate, beginning with the one that leaves [s]; the state they lead to. *)
Fixpoint alternates (s : WindowState) (l : list Phase) : Prop :=
  match l with
  | [] => True
  | ph :: l =>
      match s, ph with
      | Inactive, Start => alternates Active l
      | Active, End_ => alternates Inactive l
      | _, _ => False
      end
  end.

Definition led_to (s : WindowState) (l : list Phase) : WindowState :=
  match last l with Some Start => Active | Some End_ => Inactive | None => s end.

(** The events of edges seen at wake-ups [(phase, instant)]. *)
Fixpoint announce_at (n : nat) (es : list (Phase * Z)) : list E :=
  match es with
  | [] => []
  | (ph, u) :: es => event ph (session_id (day_for u)) (clock n) :: announce_at (S n) es
  end.

(** *** Lemmas *)

Lemma led_to_cons s ph l :
  led_to s (ph :: l) = led_to (match ph with Start => Active | End_ => Inactive end) l.
Proof.
  unfold led_to. destruct l as [| ph' l]; [by destruct ph |]. rewrite last_cons_cons.
  destruct (last (ph' :: l)) eqn:El; [done |]. by apply last_None in El.
Qed.

Lemma run_readings_cons reading rest w :
  run (reading :: rest) w
  = match reconcile_at reading.1 w with
    | (Ok _, w') => run rest w'
    | (Err err, w') => (Err err, w')
    end.
Proof.
  cbn [run]. unfold run_turn, se_bind. destruct (reconcile_at _ w) as [[[] | err] w']; done.
Qed.

(** A reconciliation: nothing, or one attempt to announce the edge. *)
Lemma reconcile_spec u s n pub :
  let ph := match s with Inactive => Start | Active => End_ end in
  let ev := event ph (session_id (day_for u)) (clock n) in
  reconcile_at u (mk_world s (mk_BusWorld n pub))
  = if decide (state_at u = s) then (Ok tt, mk_world s (mk_BusWorld n pub))
    else match bus n with
         | None => (Ok tt, mk_world (state_at u) (mk_BusWorld (S n) (pub ++ [ev])))
         | Some err => (Err err, mk_world s (mk_BusWorld (S n) pub))
         end.
Proof.
  unfold reconcile_at, state_at. cbn [cw_state].
  destruct s, (in_window u); simpl; try done; unfold se_bind, emit, set_state; cbn;
    by destruct (bus n).
Qed.

Lemma run_spec readings : forall s n pub,
  exists r es, run readings (mk_world s (mk_BusWorld n pub))
    = (r, mk_world (led_to s es.*1)
         (mk_BusWorld (n + length es + (if is_ok r then 0 else 1)) (pub ++ announce_at n es)))
  /\ alternates s es.*1 /\ es.*2 `sublist_of` readings.*1
  /\ Forall (fun e => state_at e.2 = match e.1 with Start => Active | End_ => Inactive end) es
  /\ match r with
     | Ok _ => Some (led_to s es.*1) = (state_at <$> last readings.*1) \/ readings = []
     | Err err => bus (n + length es)%nat = Some err
     end.
Proof.
  induction readings as [| reading rest IH]; intros s n pub.
  { exists (Ok tt), []. cbn. rewrite app_nil_r, !Nat.add_0_r.
    split; [done |]. split; [done |]. split; [done |]. split; [by apply Forall_nil | by right]. }
  rewrite run_readings_cons, reconcile_spec. destruct (decide _) as [Es | Es].
  - destruct (IH s n pub) as (r & es & Hrun & Ha & Hs & Hf & Hr). exists r, es.
    rewrite Hrun. split_and!; try done.
    + cbn. by apply sublist_cons.
    + destruct r; [| done]. left. destruct Hr as [Hr | ->].
      * rewrite Hr, fmap_cons. destruct rest; [by destruct es | by rewrite fmap_cons, last_cons_cons].
      * cbn in *. apply sublist_nil_r in Hs. destruct es; [| done]. cbn. by rewrite Es.
  - destruct (bus n) as [err |] eqn:Eb.
    + exists (Err err), []. cbn. rewrite app_nil_r, Nat.add_0_r, Nat.add_1_r.
      split_and!; [done | done | apply sublist_nil_l | by apply Forall_nil | done].
    + set (ph := match s with Inactive => Start | Active => End_ end).
      assert (Hph : state_at reading.1 = match ph with Start => Active | End_ => Inactive end)
        by (unfold ph, state_at in *; destruct s, (in_window reading.1); done).
      destruct (IH (state_at reading.1) (S n)
                  (pub ++ [event ph (session_id (day_for reading.1)) (clock n)]))
        as (r & es & Hrun & Ha & Hs & Hf & Hr).
      exists r, ((ph, reading.1) :: es). fold ph. change (((ph, reading.1) :: es).*1) with (ph :: es.*1).
      rewrite Hrun, led_to_cons, <- Hph.
      cbn [announce_at length]. rewrite <- app_assoc, Nat.add_succ_r. split_and!.
      * done.
      * cbn [alternates fst]. revert Ha. rewrite Hph. unfold ph. by destruct s.
      * cbn. by apply sublist_skip.
      * by constructor.
      * destruct r; [| done]. left. destruct Hr as [Hr | ->].
        -- rewrite Hr, fmap_cons. destruct rest; [by destruct es | by rewrite fmap_cons, last_cons_cons].
        -- cbn in *. apply sublist_nil_r in Hs. by destruct es.
Qed.

Hypothesis of_utc_ist : forall u, 0 <= u + IST_OFFSET_NS -> of_utc u = u + IST_OFFSET_NS.
Hypothesis of_local_ist : forall l, 0 <= l -> of_local l = Single (l - IST_OFFSET_NS).
Hypothesis window_ok : 0 <= start_ist < end_ist /\ end_ist < 86400.

Lemma ist_to_utc_ist d time : 0 <= d -> 0 <= time -> ist_to_utc d time = and_time d time - IST_OFFSET_NS.
Proof.
  intros Hd Ht. unfold ist_to_utc. rewrite of_local_ist; [done |].
  unfold and_time, NS_PER_DAY, NS_PER_SEC. lia.
Qed.

Lemma for_date_spec d : 0 <= d -> for_date d = mk_DaySchedule d (boundary Start d) (boundary End_ d).
Proof. intros Hd. unfold for_date. by rewrite !ist_to_utc_ist by lia. Qed.

Lemma day_of_bounds u : day_of u * NS_PER_DAY <= u + IST_OFFSET_NS < (day_of u + 1) * NS_PER_DAY.
Proof.
  unfold day_of. assert (0 < NS_PER_DAY) as Hd by done.
  pose proof (Z.mod_pos_bound (u + IST_OFFSET_NS) _ Hd).
  pose proof (Z.div_mod (u + IST_OFFSET_NS) NS_PER_DAY). lia.
Qed.

Lemma boundary_bounds ph d :
  d * NS_PER_DAY <= boundary ph d + IST_OFFSET_NS < (d + 1) * NS_PER_DAY.
Proof.
  unfold boundary, and_time, NS_PER_DAY, NS_PER_SEC, IST_OFFSET_NS. destruct ph; lia.
Qed.

Lemma boundary_ordered d : boundary Start d < boundary End_ d.
Proof. unfold boundary, and_time, NS_PER_SEC. lia. Qed.

Lemma day_of_unique u d : d * NS_PER_DAY <= u + IST_OFFSET_NS < (d + 1) * NS_PER_DAY -> day_of u = d.
Proof. pose proof (day_of_bounds u). unfold NS_PER_DAY, NS_PER_SEC in *. lia. Qed.

Lemma day_of_boundary ph d : day_of (boundary ph d) = d.
Proof. apply day_of_unique, boundary_bounds. Qed.

Lemma day_of_nonneg u : 0 <= u + IST_OFFSET_NS -> 0 <= day_of u.
Proof. intros. unfold day_of. apply Z.div_pos; [lia | unfold NS_PER_DAY, NS_PER_SEC; lia]. Qed.

Lemma day_for_spec u : 0 <= u + IST_OFFSET_NS ->
  day_for u = mk_DaySchedule (day_of u) (boundary Start (day_of u)) (boundary End_ (day_of u)).
Proof.
  intros Hu. unfold day_for. rewrite of_utc_ist by done.
  by apply for_date_spec, day_of_nonneg.
Qed.

Lemma in_window_spec u : 0 <= u + IST_OFFSET_NS ->
  in_window u = true <-> boundary Start (day_of u) <= u < boundary End_ (day_of u).
Proof.
  intros Hu. unfold in_window. rewrite day_for_spec by done. simpl.
  rewrite andb_true_iff, Z.leb_le, Z.ltb_lt. done.
Qed.

Lemma state_at_boundary ph d : 0 <= d ->
  state_at (boundary ph d) = match ph with Start => Active | End_ => Inactive end.
Proof.
  intros Hd. pose proof (boundary_bounds ph d) as Hb. pose proof (boundary_ordered d).
  unfold state_at. destruct (in_window _) eqn:W.
  - apply in_window_spec in W; [| unfold NS_PER_DAY, NS_PER_SEC in *; lia].
    rewrite day_of_boundary in W. destruct ph; [done | lia].
  - destruct ph; [| done]. apply not_true_iff_false in W. contradict W.
    apply in_window_spec; [unfold NS_PER_DAY, NS_PER_SEC in *; lia |].
    rewrite day_of_boundary. lia.
Qed.

(** The next deadline is the first boundary after [u], the one that changes the state. *)
Lemma next_deadline_spec u : 0 <= u + IST_OFFSET_NS ->
  exists ph d, 0 <= d /\ next_deadline u = boundary ph d /\ u < boundary ph d
  /\ state_at u = match ph with Start => Inactive | End_ => Active end
  /\ (forall ph' d', u < boundary ph' d' -> boundary ph d <= boundary ph' d')
  /\ d = match ph with
         | Start => if u <? boundary Start (day_of u) then day_of u else day_of u + 1
         | End_ => day_of u end.
Proof.
  intros Hu. pose proof (day_of_bounds u) as Hb. pose proof (day_of_nonneg u Hu) as Hd.
  set (d := day_of u) in *.
  assert (Hfirst : forall c, (forall ph', u < boundary ph' d -> c <= boundary ph' d) ->
            c <= boundary Start (d + 1) -> forall ph' d', u < boundary ph' d' -> c <= boundary ph' d').
  { intros c H1 H2 ph' d' Hlt. pose proof (boundary_bounds ph' d').
    pose proof (boundary_ordered d').
    assert (d' = d \/ d' = d + 1 \/ d + 1 < d') as [-> | [-> | ?]]
      by (unfold NS_PER_DAY, NS_PER_SEC in *; lia).
    - auto.
    - destruct ph'; lia.
    - pose proof (boundary_bounds Start (d + 1)). unfold NS_PER_DAY, NS_PER_SEC in *. lia. }
  pose proof (boundary_ordered d). pose proof (boundary_bounds Start d).
  pose proof (boundary_bounds Start (d + 1)). pose proof (boundary_bounds End_ d).
  unfold next_deadline. rewrite day_for_spec by done. fold d. cbn [start_utc end_utc ist_date].
  rewrite for_date_spec by lia. cbn [start_utc].
  assert (Hs : state_at u = if (boundary Start d <=? u) && (u <? boundary End_ d)
                            then Active else Inactive).
  { unfold state_at, in_window. by rewrite day_for_spec by done. }
  destruct (u <? boundary Start d) eqn:E1; bool_to_prop.
  - exists Start, d. rewrite Hs, (proj2 (Z.leb_gt _ _)) by lia.
    repeat split; try done; try lia. apply Hfirst; [intros []; lia | unfold NS_PER_DAY, NS_PER_SEC in *; lia].
  - destruct (u <? boundary End_ d) eqn:E2; bool_to_prop.
    + exists End_, d. rewrite Hs, (proj2 (Z.leb_le _ _)) by lia.
      repeat split; try done; try lia. apply Hfirst; [intros []; lia | unfold NS_PER_DAY, NS_PER_SEC in *; lia].
    + exists Start, (d + 1). rewrite Hs, andb_comm.
      repeat split; try done; try (unfold NS_PER_DAY, NS_PER_SEC in *; lia).
      apply Hfirst; [intros []; lia | lia].
Qed.

(** How far through the days an instant is, in boundaries passed. *)
Definition rank (u : Z) : Z :=
  2 * day_of u + (if u <? boundary Start (day_of u) then 0
                  else if u <? boundary End_ (day_of u) then 1 else 2).

Lemma rank_boundary ph d : rank (boundary ph d) = 2 * d + match ph with Start => 1 | End_ => 2 end.
Proof.
  unfold rank. rewrite day_of_boundary. pose proof (boundary_ordered d).
  split_ifs; destruct ph; lia.
Qed.

Lemma rank_next u ph d : 0 <= u + IST_OFFSET_NS -> u < boundary ph d ->
  state_at u = match ph with Start => Inactive | End_ => Active end ->
  d = match ph with Start => if u <? boundary Start (day_of u) then day_of u else day_of u + 1
                  | End_ => day_of u end ->
  rank u + 1 <= rank (boundary ph d).
Proof.
  intros Hu Hlt Hs Hd. rewrite rank_boundary. pose proof (in_window_spec u Hu) as W.
  unfold state_at in Hs. unfold rank. destruct ph; subst d.
  - split_ifs; lia.
  - destruct (in_window u); [| discriminate]. destruct W as [W _]. specialize (W eq_refl).
    split_ifs; lia.
Qed.

Lemma rank_le u to : u < to -> rank u <= 2 * day_of to + 2.
Proof.
  intros H. unfold rank. pose proof (day_of_bounds u). pose proof (day_of_bounds to).
  assert (day_of u <= day_of to) by (unfold NS_PER_DAY, NS_PER_SEC in *; lia).
  split_ifs; lia.
Qed.

Lemma reconcile_boundary ph d st n pub : (forall k, bus k = None) -> 0 <= d ->
  st = match ph with Start => Inactive | End_ => Active end ->
  reconcile_at (boundary ph d) (mk_world st (mk_BusWorld n pub))
  = (Ok tt, mk_world (state_at (boundary ph d))
       (mk_BusWorld (S n) (pub ++ [event ph (session_id (for_date d)) (clock n)]))).
Proof.
  intros Hbus Hd ->. pose proof (boundary_bounds ph d).
  unfold reconcile_at, day_for. rewrite of_utc_ist by (unfold NS_PER_DAY, NS_PER_SEC in *; lia).
  change ((boundary ph d + IST_OFFSET_NS) / NS_PER_DAY) with (day_of (boundary ph d)).
  rewrite day_of_boundary, state_at_boundary by done.
  pose proof (state_at_boundary ph d Hd) as Hs. unfold state_at in Hs.
  destruct ph, (in_window _); try discriminate;
    unfold se_bind, emit, set_state; cbn; by rewrite Hbus.
Qed.

Lemma crossing_none u to : next_deadline u >= to -> 0 <= u + IST_OFFSET_NS ->
  forall x, ~ crossing u to x.
Proof.
  intros Hn Hu [[t ph] d] (_ & -> & H). destruct (next_deadline_spec u Hu)
    as (ph' & d' & _ & En & _ & _ & Hfirst & _). specialize (Hfirst ph d). lia.
Qed.

(** The loop announces exactly the boundaries ahead of the cursor, in order. *)
Lemma tick_loop_spec to : (forall k, bus k = None) -> forall fuel u n pub,
  0 <= u + IST_OFFSET_NS -> (1 <= fuel)%nat -> 2 * day_of to + 3 - rank u <= Z.of_nat fuel ->
  exists es last, tick_loop fuel to u (mk_world (state_at u) (mk_BusWorld n pub))
    = Some (Ok tt, mk_world (state_at last) (mk_BusWorld (n + length es) (pub ++ announce n es)))
  /\ StronglySorted earlier es /\ (forall x, x ∈ es <-> crossing u to x)
  /\ u <= last /\ (last = u \/ last < to) /\ to <= next_deadline last.
Proof.
  intros Hbus. induction fuel as [| fuel IH]; intros u n pub Hu H1 Hf; [lia |].
  destruct (next_deadline_spec u Hu) as (ph & d & Hd & En & Hlt & Hs & Hfirst & Hday).
  cbn [tick_loop]. destruct (next_deadline u >=? to) eqn:Eto; bool_to_prop.
  { exists [], u. cbn [announce length]. rewrite app_nil_r, Nat.add_0_r. split; [done |].
    split; [constructor |]. split; [| repeat split; [lia | by left | done]].
    intros x. split; [intros Hx; by apply elem_of_nil in Hx |].
    intros Hx. by apply (crossing_none u to) in Hx; [| lia |]. }
  rewrite En, (reconcile_boundary ph d) by done. rewrite En in Eto.
  pose proof (rank_next u ph d Hu Hlt Hs Hday). pose proof (rank_le (boundary ph d) to ltac:(lia)).
  destruct (IH (boundary ph d) (S n) (pub ++ [event ph (session_id (for_date d)) (clock n)]))
    as (es & last & Hrun & Hsort & Hin & Hle & Hlast & Hn); [lia .. |].
  exists ((boundary ph d, ph, d) :: es), last. rewrite Hrun. cbn [announce length].
  rewrite <- app_assoc, Nat.add_succ_r. split; [done |]. split; [| split; [| repeat split; [lia | lia | done]]].
  - constructor; [done |]. apply Forall_forall. intros [[t ph'] d'] Hx%Hin.
    unfold crossing in Hx. unfold earlier. simpl. lia.
  - intros [[t ph'] d']. rewrite elem_of_cons, Hin. unfold crossing. split.
    + intros [[= -> -> ->] | (? & -> & ?)]; repeat split; lia.
    + intros (Hd' & -> & Hr). pose proof (Hfirst ph' d' ltac:(lia)).
      destruct (decide (boundary ph' d' = boundary ph d)) as [Eb |]; [left | right; repeat split; lia].
      assert (d' = d) as -> by (rewrite <- (day_of_boundary ph' d'), Eb; apply day_of_boundary).
      pose proof (boundary_ordered d). destruct ph, ph'; try done; lia.
Qed.

(** Between two deadlines the window does not open or close. *)
Lemma state_between u to v : 0 <= u + IST_OFFSET_NS -> to <= next_deadline u -> u <= v < to ->
  state_at v = state_at u.
Proof.
  intros Hu Hn Hv. destruct (next_deadline_spec u Hu) as (ph & d & Hd & En & Hlt & Hs & Hfirst & Hday).
  pose proof (in_window_spec v ltac:(lia)) as Wv. pose proof (in_window_spec u Hu) as Wu.
  pose proof (day_of_bounds u). pose proof (day_of_bounds v).
  pose proof (boundary_bounds End_ (day_of u)). pose proof (boundary_bounds End_ (day_of v)).
  assert (day_of u <= day_of v) by (unfold NS_PER_DAY, NS_PER_SEC in *; lia).
  unfold state_at in *. destruct (in_window u), (in_window v); try done; exfalso; destruct ph; try done.
  - subst d. destruct Wu as [Wu _]. specialize (Wu eq_refl).
    assert (day_of v = day_of u) as Edv by (unfold NS_PER_DAY, NS_PER_SEC in *; lia).
    rewrite Edv in *. assert (false = true) by (apply Wv; lia). done.
  - destruct Wv as [Wv _]. specialize (Wv eq_refl).
    destruct (decide (u < boundary Start (day_of v))) as [Hl | Hl].
    + pose proof (Hfirst Start (day_of v) Hl). lia.
    + assert (day_of v = day_of u) as Edv.
      { pose proof (boundary_bounds Start (day_of v)). unfold NS_PER_DAY, NS_PER_SEC in *; lia. }
      rewrite Edv in *. assert (false = true) by (apply Wu; lia). done.
Qed.

(** The boundaries [tick_until] announces: a start at once when the window is open already. *)
Definition joined (from : Z) : list (Z * Phase * Z) :=
  if in_window from then [(from, Start, day_of from)] else [].

Lemma tick_until_spec from to : (forall k, bus k = None) -> 0 <= from + IST_OFFSET_NS -> from <= to ->
  exists es last, tick_until from to new
    = Some (Ok tt, mk_world (state_at last)
        (mk_BusWorld (length (joined from ++ es)) (announce 0 (joined from ++ es))))
  /\ StronglySorted earlier es /\ (forall x, x ∈ es <-> crossing from to x)
  /\ (from < to -> state_at last = state_at (to - 1)).
Proof.
  intros Hbus Hu Hle.
  assert (Hrec : reconcile_at from new = (Ok tt, mk_world (state_at from)
            (mk_BusWorld (length (joined from)) (announce 0 (joined from))))).
  { unfold new. rewrite reconcile_spec, Hbus. unfold joined, state_at. 
    destruct (in_window from); cbn; [| done].
    unfold day_for. by rewrite of_utc_ist. }
  unfold tick_until. rewrite Hrec.
  assert (Hfuel : 2 * day_of to + 3 - rank from <= Z.of_nat (tick_fuel from to)).
  { unfold tick_fuel. rewrite !of_utc_ist by lia. fold (day_of to) (day_of from).
    assert (2 * day_of from <= rank from) by (unfold rank; split_ifs; lia). lia. }
  destruct (tick_loop_spec to Hbus (tick_fuel from to) from (length (joined from))
              (announce 0 (joined from)) Hu) as (es & last & Hrun & Hsort & Hin & Hl & Hl' & Hn);
    [unfold tick_fuel; lia | done |].
  exists es, last. rewrite Hrun. split_and!; [| done | done |].
  - rewrite length_app. do 4 f_equal. unfold joined. by destruct (in_window from).
  - intros Hlt. symmetry. apply (state_between last to); [lia | done |]. destruct Hl'; lia.
Qed.
End controller.
End Controller.

(** ** The two controllers *)

Record WarModeConfig := mk_WarModeConfig {
  wm_start_ist : Z;
  wm_end_ist : Z;
  min_confidence : f32;
  scan_multiplier : f32;
}.

Record WarModeEvent := mk_WarModeEvent {
  wme_session_id : Z;
  wme_phase : Phase;
  wme_min_confidence : f32;
  wme_scan_multiplier : f32;
  wme_ts_ns : Z;
}.

Record SessionEvent := mk_SessionEvent { se_session_id : Z; se_phase : Phase; se_ts_ns : Z }.

(** [WarModeEvent::start], [WarModeEvent::end] as [emit] calls them. *)
Definition warmode_event (cfg : WarModeConfig) (ph : Phase) (sid ts_ns : Z) : WarModeEvent :=
  mk_WarModeEvent sid ph (min_confidence cfg) (scan_multiplier cfg) ts_ns.

Definition session_event (ph : Phase) (sid ts_ns : Z) : SessionEvent := mk_SessionEvent sid ph ts_ns.

Section controllers.
Context (of_local : Z -> LocalResult Z) (of_utc : Z -> Z) (ymd : Z -> Z * Z * Z).
Context {BusError : Type} (bus : nat -> option BusError) (clock : nat -> Z).

Definition warmode_reconcile_at (cfg : WarModeConfig) :=
  Controller.reconcile_at of_local of_utc ymd bus clock (wm_start_ist cfg) (wm_end_ist cfg)
    (warmode_event cfg).
Definition warmode_next_deadline (cfg : WarModeConfig) :=
  Controller.next_deadline of_local of_utc (wm_start_ist cfg) (wm_end_ist cfg).
Definition warmode_tick_until (cfg : WarModeConfig) :=
  Controller.tick_until of_local of_utc ymd bus clock (wm_start_ist cfg) (wm_end_ist cfg)
    (warmode_event cfg).
Definition warmode_run (cfg : WarModeConfig) :=
  Controller.run of_local of_utc ymd bus clock (wm_start_ist cfg) (wm_end_ist cfg)
    (warmode_event cfg).

Definition session_reconcile_at (cfg : SessionConfig) :=
  Controller.reconcile_at of_local of_utc ymd bus clock (start_ist cfg) (end_ist cfg) session_event.
Definition session_next_deadline (cfg : SessionConfig) :=
  Controller.next_deadline of_local of_utc (start_ist cfg) (end_ist cfg).
Definition session_tick_until (cfg : SessionConfig) :=
  Controller.tick_until of_local of_utc ymd bus clock (start_ist cfg) (end_ist cfg) session_event.
Definition session_run (cfg : SessionConfig) :=
  Controller.run of_local of_utc ymd bus clock (start_ist cfg) (end_ist cfg) session_event.
End controllers.

(** The days the calendar hypotheses speak of; chrono's own range ends near day 95000000. *)
Definition date_ok (d : Z) : Prop := 0 <= d < 90000000.

Definition default_war_mode : WarModeConfig :=
  mk_WarModeConfig Defaults.ist_0915 Defaults.ist_0945 (f32_lit 6 10) (f32_of_Z 2).

Section properties.
Context (of_local : Z -> LocalResult Z) (of_utc : Z -> Z) (ymd : Z -> Z * Z * Z).
Context {BusError E : Type} (bus : nat -> option BusError) (clock : nat -> Z).
Context (start end_ : Z) (event : Phase -> Z -> Z -> E).
Abbreviation session_id_of d :=
  (Controller.session_id ymd (Controller.for_date of_local start end_ d)).

(** What the time zone database and the calendar document: India is at +05:30, without
    daylight saving, at every instant since 1970; a date has a positive year, a month and a
    day of the month, which determine it. *)
Definition indian_time : Prop :=
  (forall u, 0 <= u + IST_OFFSET_NS -> of_utc u = u + IST_OFFSET_NS)
  /\ (forall l, 0 <= l -> of_local l = Single (l - IST_OFFSET_NS)).
Definition calendar : Prop :=
  (forall d, date_ok d ->
     let '(y, m, dd) := ymd d in 1970 <= y <= 300000 /\ 1 <= m <= 12 /\ 1 <= dd <= 31)
  /\ (forall d d', date_ok d -> date_ok d' -> ymd d = ymd d' -> d = d').

Lemma session_id_inj d d' : calendar -> date_ok d -> date_ok d' ->
  session_id_of d = session_id_of d' -> d = d'.
Proof.
  intros [Hr Hinj] Hd Hd' He. apply Hinj; [done | done |].
  pose proof (Hr d Hd) as H1. pose proof (Hr d' Hd') as H2.
  unfold Controller.session_id in He. cbn [Controller.for_date ist_date] in He.
  destruct (ymd d) as [[y m] dd], (ymd d') as [[y' m'] dd'].
  rewrite (as_u64_id y), (as_u64_id y'), !as_u64_id in He by (unfold u64_ok, u64_max; lia).
  assert (y = y') as -> by lia. assert (m = m') as -> by lia. assert (dd = dd') as -> by lia. done.
Qed.

(** C36: driven over a span of time with a bus that accepts everything, a controller
    returns, and announces exactly the openings and closings of its daily window inside the
    span, each once, in order, after a start at once when it joins inside the window; each
    carries the session id of its day, different days have different ids, and the state left
    is that of the window just before the end of the span. *)
Theorem window_boundaries_announced (from to : Z) :
  indian_time -> calendar -> 0 <= start < end_ /\ end_ < 86400 ->
  (forall k, bus k = None) -> 0 <= from + IST_OFFSET_NS -> from <= to ->
  exists es s,
    let all := Controller.joined of_local of_utc start end_ from ++ es in
    Controller.tick_until of_local of_utc ymd bus clock start end_ event from to Controller.new
    = Some (Ok tt, Controller.mk_world s
        (mk_BusWorld (length all)
           (Controller.announce of_local ymd clock start end_ event 0 all)))
    /\ StronglySorted Controller.earlier es
    /\ (forall t ph d, (t, ph, d) ∈ es <->
          0 <= d /\ t = Controller.boundary start end_ ph d /\ from < t < to)
    /\ (from < to -> s = Controller.state_at of_local of_utc start end_ (to - 1))
    /\ (forall d d', date_ok d -> date_ok d' -> session_id_of d = session_id_of d' -> d = d').
Proof.
  intros [Hu Hl] Hcal Hw Hbus Hf Hle.
  destruct (Controller.tick_until_spec of_local of_utc ymd bus clock start end_ event
              Hu Hl Hw from to Hbus Hf Hle) as (es & last & Hrun & Hs & Hin & Hst).
  exists es, (Controller.state_at of_local of_utc start end_ last).
  split_and!; [exact Hrun | done | | done |].
  - intros t ph d. apply (Hin (t, ph, d)).
  - intros d d' Hd Hd'. by apply session_id_inj.
Qed.

(** Whatever the instants at which [run] wakes up and whatever the bus answers: the
    phases it publishes alternate, starting with a start; each is published at a wake-up on
    the side of the window it announces, with the session id of the wake-up's own date, which
    after a sleep past midnight is not the date of the start it closes; the state says which
    phase came last and, while no publication failed, agrees with the window at the last
    wake-up; a failed publication changes no state and ends the loop. *)
Theorem run_is_edge_triggered (readings : list (Z * Z)) :
  exists es,
    let '(r, w) := Controller.run of_local of_utc ymd bus clock start end_ event readings
                     Controller.new in
    bw_published (Controller.cw_bus w)
    = Controller.announce_at of_local of_utc ymd clock start end_ event 0 es
    /\ Controller.cw_state w = Controller.led_to Inactive es.*1
    /\ Controller.alternates Inactive es.*1
    /\ es.*2 `sublist_of` readings.*1
    /\ Forall (fun e => Controller.state_at of_local of_utc start end_ e.2
                        = match e.1 with Start => Active | End_ => Inactive end) es
    /\ match r with
       | Ok _ => bw_attempts (Controller.cw_bus w) = length es
                 /\ (readings = [] \/
                     Some (Controller.cw_state w)
                     = (Controller.state_at of_local of_utc start end_ <$> last readings.*1))
       | Err err => bw_attempts (Controller.cw_bus w) = S (length es)
                    /\ bus (length es) = Some err
       end.
Proof.
  destruct (Controller.run_spec of_local of_utc ymd bus clock start end_ event readings
              Inactive 0 []) as (r & es & Hrun & Ha & Hs & Hf & Hr).
  exists es. unfold Controller.new. rewrite Hrun. cbn. split_and!; try done.
  destruct r; cbn; [| split; [lia | done]]. split; [lia |]. destruct Hr; [by right | by left].
Qed.
End properties.

(** A calendar of twelve months of 31 days, enough to instantiate the hypotheses. *)
Definition plain_calendar (d : Z) : Z * Z * Z :=
  (1970 + d / 372, d mod 372 / 31 + 1, d mod 372 mod 31 + 1).

Lemma plain_calendar_ok : calendar plain_calendar.
Proof.
  split; unfold plain_calendar, date_ok.
  - intros d Hd. pose proof (Z.mod_pos_bound d 372 eq_refl) as Hm.
    pose proof (Z.mod_pos_bound (d mod 372) 31 eq_refl).
    pose proof (Z.div_mod d 372 ltac:(lia)). pose proof (Z.div_mod (d mod 372) 31 ltac:(lia)). lia.
  - intros d d' _ _ [= H1 H2 H3].
    pose proof (Z.div_mod d 372 ltac:(lia)). pose proof (Z.div_mod (d mod 372) 31 ltac:(lia)).
    pose proof (Z.div_mod d' 372 ltac:(lia)). pose proof (Z.div_mod (d' mod 372) 31 ltac:(lia)). lia.
Qed.

(** Two days of the default war-mode window, joined inside the first. *)
Definition day_20000_noon : Z := 20000 * NS_PER_DAY + 34000 * NS_PER_SEC - IST_OFFSET_NS.

Definition two_days (bus : nat -> option string) :=
  session_tick_until (fun l => Single (l - IST_OFFSET_NS)) (fun u => u + IST_OFFSET_NS)
    plain_calendar bus (fun n => Z.of_nat n) Defaults.session
    day_20000_noon (day_20000_noon + 2 * NS_PER_DAY) Controller.new.

Lemma window_boundaries_announced_witness :
  (fun r => (fun e => (se_phase e, se_session_id e, se_ts_ns e)) <$> bw_published (Controller.cw_bus r.2))
    <$> two_days (fun _ => None)
  = Some [(Start, 20231006, 0); (End_, 20231006, 1); (Start, 20231007, 2); (End_, 20231007, 3);
          (Start, 20231008, 4)]
  /\ exists all s, two_days (fun _ => None)
     = Some (Ok tt, Controller.mk_world s
         (mk_BusWorld (length all)
            (Controller.announce (fun l => Single (l - IST_OFFSET_NS)) plain_calendar
               (fun n => Z.of_nat n) (start_ist Defaults.session) (end_ist Defaults.session)
               session_event 0 all))).
Proof.
  split; [by vm_compute |].
  destruct (window_boundaries_announced (fun l => Single (l - IST_OFFSET_NS))
    (fun u => u + IST_OFFSET_NS) plain_calendar (BusError := string) (fun _ => None) (fun n => Z.of_nat n)
    (start_ist Defaults.session) (end_ist Defaults.session) session_event
    day_20000_noon (day_20000_noon + 2 * NS_PER_DAY) (conj (fun _ _ => eq_refl) (fun _ _ => eq_refl))
    plain_calendar_ok)
    as (es & s & Hrun & _); [by vm_compute | done | by vm_compute | by vm_compute |].
  eexists _, _. exact Hrun.
Defined.
