(* ===== verification/Supervisor.v ===== *)
(** The self-healing supervisor: crates/hedge-supervisor (event.rs, policy.rs, state.rs,
    actuator.rs, detector.rs, supervisor.rs).

    A [Duration] is its number of nanoseconds.  The file system and the bus are
    third-party code: [io n] is the error of the [n]-th file operation and
    [bus n] that of the [n]-th publication, if it fails; [clock n] is the
    [n]-th reading of [now_ns()].  The JSON codec is a parameter too.  A
    [HashMap] is a [gmap]: nothing here depends on an iteration order. *)

From S2P Require Import Prelude Ieee Core Config.

(** ** Events and actions (event.rs) *)

Module FailureKind.
Inductive t :=
| WsDisconnected (source : string)
| BrokerErrorRateBreach (broker : BrokerId.t)
| RedisUnavailable
| ExternalApiLatencySpike (source : string)
| OllamaUnresponsive (model : string).
Definition tag (k : t) : string :=
  match k with
  | WsDisconnected _ => "ws_disconnected"
  | BrokerErrorRateBreach _ => "broker_error_rate_breach"
  | RedisUnavailable => "redis_unavailable"
  | ExternalApiLatencySpike _ => "external_api_latency_spike"
  | OllamaUnresponsive _ => "ollama_unresponsive"
  end.
#[global] Instance eq_dec : EqDecision t.
Proof. solve_decision. Defined.
End FailureKind.

Record FailureEvent := mk_FailureEvent { fe_kind : FailureKind.t; fe_ts_ns : Z }.

Module RecoveryActionKind.
Inductive t :=
| Reconnect (source : string) (backoff attempt : Z)
| BrokerFailover (from to : BrokerId.t)
| RedisReconnect
| ApplyMitigation (source mitigation : string)
| OllamaFallback (from to : string).

Definition target (k : t) : string :=
  match k with
  | Reconnect _ _ _ => "market_data"
  | BrokerFailover _ _ => "execution_engine"
  | RedisReconnect => "warmcache"
  | ApplyMitigation _ _ => "warm_ai"
  | OllamaFallback _ _ => "warm_ai"
  end.

Definition action (k : t) : string :=
  match k with
  | Reconnect _ _ _ => "reconnect"
  | BrokerFailover _ _ => "failover"
  | RedisReconnect => "reconnect"
  | ApplyMitigation _ _ => "warn"
  | OllamaFallback _ _ => "warn"
  end.

Definition reason (k : t) : string :=
  match k with
  | Reconnect source backoff attempt =>
      "ws disconnect source=" +:+ source +:+ " attempt=" +:+ pretty attempt
      +:+ " backoff_ms=" +:+ pretty (backoff / 1000000)
  | BrokerFailover from to =>
      "broker error/latency breach: failing over from " +:+ BrokerId.debug from
      +:+ " to " +:+ BrokerId.debug to
  | RedisReconnect => "redis unavailable; reconnecting and emitting degraded state"
  | ApplyMitigation source mitigation =>
      "external api latency spike on " +:+ source +:+ "; applying mitigation `"
      +:+ mitigation +:+ "`"
  | OllamaFallback from to =>
      "ollama model `" +:+ from +:+ "` unresponsive; falling back to `" +:+ to +:+ "`"
  end.
End RecoveryActionKind.

Record RecoveryAction := mk_RecoveryAction { ra_kind : RecoveryActionKind.t; ra_detected_ts_ns : Z }.

(** ** The policy (policy.rs) *)

Record BackoffParams := mk_BackoffParams { base : Z; max_delay : Z }.

Module Backoff.
Definition DEFAULT : BackoffParams := mk_BackoffParams (100 * 1000000) (30 * 1000000000).

Definition delay_for (p : BackoffParams) (attempt : Z) : Z :=
  let factor := if attempt <? 128 then as_u128 (Z.shiftl 1 attempt) else u128_max in
  let computed_ns := sat 0 u128_max (base p * factor) in
  let clamped_ns := Z.min computed_ns (max_delay p) in
  as_u64 (Z.min clamped_ns u64_max).
End Backoff.

Inductive OllamaRole := RolePrimary | RoleFast | RoleDeep | RoleLightweight.
#[global] Instance OllamaRole_eq_dec : EqDecision OllamaRole.
Proof. solve_decision. Defined.

Record OllamaModelConfig := mk_OllamaModelConfig { om_name : string; om_role : OllamaRole; om_quant : string }.

Module Policy.
Record t := mk {
  backoff : BackoffParams;
  primary_broker : BrokerId.t;
  backup_broker : BrokerId.t;
  mitigations : gmap string string;
  ollama_fallbacks : gmap string string;
  attempts : gmap string Z;
}.

Definition DEFAULT_MITIGATION : string := "warn".

Definition default_mitigation_table : gmap string string :=
  <["ollama" := "warn"]> (<["clock" := "use_local_monotonic"]>
    (<["regulator" := "skip_optional_compliance_calls"]>
      (<["news_provider" := "throttle_news_fetch"]> ∅))).

Definition pick (models : list OllamaModelConfig) (role : OllamaRole) : option string :=
  om_name <$> List.find (fun m => bool_decide (om_role m = role)) models.

Definition insert_pair (from to : option string) (table : gmap string string) : gmap string string :=
  match from, to with Some f, Some t => <[f := t]> table | _, _ => table end.

Definition build_ollama_fallback_table (models : list OllamaModelConfig) : gmap string string :=
  let primary := pick models RolePrimary in
  let fast := pick models RoleFast in
  let lightweight := pick models RoleLightweight in
  let deep := pick models RoleDeep in
  let table := ∅ in
  let table := insert_pair primary fast table in
  let table := insert_pair fast lightweight table in
  let table := insert_pair lightweight lightweight table in
  insert_pair deep primary table.

(** [from_config]: the broker and model sections of the configuration. *)
Definition from_config (brokers : BrokerConfig) (models : list OllamaModelConfig) : t :=
  mk Backoff.DEFAULT (Config.primary brokers) (Config.backup brokers)
    default_mitigation_table (build_ollama_fallback_table models) ∅.

Definition with_backoff (p : t) (b : BackoffParams) : t :=
  mk b (primary_broker p) (backup_broker p) (mitigations p) (ollama_fallbacks p) (attempts p).
Definition with_mitigation (p : t) (source mitigation : string) : t :=
  mk (backoff p) (primary_broker p) (backup_broker p) (<[source := mitigation]> (mitigations p))
    (ollama_fallbacks p) (attempts p).
Definition with_ollama_fallback (p : t) (from to : string) : t :=
  mk (backoff p) (primary_broker p) (backup_broker p) (mitigations p)
    (<[from := to]> (ollama_fallbacks p)) (attempts p).
Definition set_attempts (p : t) (m : gmap string Z) : t :=
  mk (backoff p) (primary_broker p) (backup_broker p) (mitigations p) (ollama_fallbacks p) m.

Definition reset_backoff (p : t) (source : string) : t := set_attempts p (delete source (attempts p)).

Definition failover_pair (p : t) (broker : BrokerId.t) : BrokerId.t * BrokerId.t :=
  if decide (broker = primary_broker p) then (primary_broker p, backup_broker p)
  else if decide (broker = backup_broker p) then (backup_broker p, primary_broker p)
  else (broker, backup_broker p).

Definition decide_event (p : t) (event : FailureEvent) : option RecoveryAction * t :=
  let act kind := Some (mk_RecoveryAction kind (fe_ts_ns event)) in
  match fe_kind event with
  | FailureKind.WsDisconnected source =>
      let n := unwrap_or 0 (attempts p !! source) in
      let p := set_attempts p (<[source := sat 0 u32_max (n + 1)]> (attempts p)) in
      (act (RecoveryActionKind.Reconnect source (Backoff.delay_for (backoff p) n) n), p)
  | FailureKind.BrokerErrorRateBreach broker =>
      let '(from, to) := failover_pair p broker in
      (act (RecoveryActionKind.BrokerFailover from to), p)
  | FailureKind.RedisUnavailable => (act RecoveryActionKind.RedisReconnect, p)
  | FailureKind.ExternalApiLatencySpike source =>
      let mitigation := unwrap_or DEFAULT_MITIGATION (mitigations p !! source) in
      (act (RecoveryActionKind.ApplyMitigation source mitigation), p)
  | FailureKind.OllamaUnresponsive model =>
      let to := unwrap_or model (ollama_fallbacks p !! model) in
      (act (RecoveryActionKind.OllamaFallback model to), p)
  end.
End Policy.

(** ** The persisted state (state.rs) *)

Definition STATE_VERSION : Z := 1.

Record BrokerFailoverRecord := mk_BrokerFailoverRecord { bf_from : BrokerId.t; bf_to : BrokerId.t; bf_ts_ns : Z }.

Module SupState.
Record t := mk {
  version : Z;
  ws_attempts : gmap string Z;
  active_broker : option BrokerId.t;
  last_failover : option BrokerFailoverRecord;
  active_ollama_model : option string;
  redis_degraded : bool;
  active_mitigations : gmap string string;
  updated_ts_ns : Z;
}.

Definition default : t := mk STATE_VERSION ∅ None None None false ∅ 0.

Definition set_ws_attempts (s : t) (m : gmap string Z) : t :=
  mk (version s) m (active_broker s) (last_failover s) (active_ollama_model s) (redis_degraded s)
    (active_mitigations s) (updated_ts_ns s).

Definition record_ws_attempt (s : t) (source : string) : t :=
  let n := sat 0 u32_max (unwrap_or 0 (ws_attempts s !! source) + 1) in
  set_ws_attempts s (<[source := n]> (ws_attempts s)).
Definition reset_ws_attempt (s : t) (source : string) : t :=
  set_ws_attempts s (delete source (ws_attempts s)).
Definition record_failover (s : t) (from to : BrokerId.t) (ts_ns : Z) : t :=
  mk (version s) (ws_attempts s) (Some to) (Some (mk_BrokerFailoverRecord from to ts_ns))
    (active_ollama_model s) (redis_degraded s) (active_mitigations s) (updated_ts_ns s).
Definition record_ollama_swap (s : t) (to : string) : t :=
  mk (version s) (ws_attempts s) (active_broker s) (last_failover s) (Some to) (redis_degraded s)
    (active_mitigations s) (updated_ts_ns s).
Definition set_redis_degraded (s : t) (degraded : bool) : t :=
  mk (version s) (ws_attempts s) (active_broker s) (last_failover s) (active_ollama_model s) degraded
    (active_mitigations s) (updated_ts_ns s).
Definition record_mitigation (s : t) (source mitigation : string) : t :=
  mk (version s) (ws_attempts s) (active_broker s) (last_failover s) (active_ollama_model s)
    (redis_degraded s) (<[source := mitigation]> (active_mitigations s)) (updated_ts_ns s).
Definition touch (s : t) (ts_ns : Z) : t :=
  mk (version s) (ws_attempts s) (active_broker s) (last_failover s) (active_ollama_model s)
    (redis_degraded s) (active_mitigations s) ts_ns.
End SupState.

Inductive IoError := NotFound | OtherIo (message : string).

Module StateError.
Inductive t := Io (source : IoError) | Json | VersionMismatch (found expected : Z).
End StateError.

(** ** The payloads (actuator.rs) *)

Record OpsActionPayload := mk_OpsActionPayload {
  oa_target : string;
  oa_action : string;
  oa_reason : string;
  oa_attempt : option Z;
  oa_ts_ns : Z;
}.
Record CacheRedisDegradedPayload := mk_CacheRedisDegraded { cr_state : string; cr_reason : string; cr_ts_ns : Z }.
Record AiOllamaDegradedPayload := mk_AiOllamaDegraded {
  ao_model : string; ao_fallback_model : string; ao_reason : string; ao_ts_ns : Z }.
Record ExecBrokerFailoverPayload := mk_ExecBrokerFailover {
  eb_from : BrokerId.t; eb_to : BrokerId.t; eb_origin : string; eb_ts_ns : Z }.

Inductive Payload :=
| OpsAction (p : OpsActionPayload)
| CacheRedisDegraded (p : CacheRedisDegradedPayload)
| AiOllamaDegraded (p : AiOllamaDegradedPayload)
| ExecBrokerFailover (p : ExecBrokerFailoverPayload).

Definition CACHE_REDIS_DEGRADED : string := "cache.redis.degraded".
Definition AI_OLLAMA_DEGRADED : string := "ai.ollama.degraded".
Definition EXEC_BROKER_FAILOVER : string := "exec.broker.failover".
Definition ops_action (target : string) : string := "ops.action." +:+ target.

Definition build_ops_action_payload (a : RecoveryAction) : OpsActionPayload :=
  let k := ra_kind a in
  mk_OpsActionPayload (RecoveryActionKind.target k) (RecoveryActionKind.action k)
    (RecoveryActionKind.reason k)
    (match k with RecoveryActionKind.Reconnect _ _ attempt => Some attempt | _ => None end)
    (ra_detected_ts_ns a).

(** ** The supervisor (supervisor.rs, with the store and the actuator it drives) *)

Module SupervisorError.
Inductive t (E : Type) := Bus (e : E) | State (e : StateError.t).
Arguments Bus {E} e.
Arguments State {E} e.
End SupervisorError.

Module Supervisor.
Section supervisor.
Context {B BusError : Type}.
Context (encode : SupState.t -> option B) (decode : B -> option SupState.t).
Context (io : nat -> option IoError) (bus : nat -> option BusError) (clock : nat -> Z).
Context (has_parent : bool).

Record world := mk_world {
  w_policy : Policy.t;
  w_state : SupState.t;
  w_disk : option B;
  w_tmp : option B;
  w_ios : nat;
  w_reads : nat;
  w_pubs : nat;
  w_published : list (string * Payload);
}.

Definition set_policy (w : world) (p : Policy.t) : world :=
  mk_world p (w_state w) (w_disk w) (w_tmp w) (w_ios w) (w_reads w) (w_pubs w) (w_published w).
Definition set_mem (w : world) (s : SupState.t) : world :=
  mk_world (w_policy w) s (w_disk w) (w_tmp w) (w_ios w) (w_reads w) (w_pubs w) (w_published w).

Definition now_ns {E} : SE world E Z :=
  fun w => (Ok (clock (w_reads w)),
            mk_world (w_policy w) (w_state w) (w_disk w) (w_tmp w) (w_ios w) (S (w_reads w))
              (w_pubs w) (w_published w)).

(** One file operation: its error, or [effect] on the file and its temporary sibling. *)
Definition fs_op (effect : option B -> option B -> option B * option B) : SE world StateError.t unit :=
  fun w =>
    match io (w_ios w) with
    | Some err =>
        (Err (StateError.Io err),
         mk_world (w_policy w) (w_state w) (w_disk w) (w_tmp w) (S (w_ios w)) (w_reads w)
           (w_pubs w) (w_published w))
    | None =>
        let '(disk, tmp) := effect (w_disk w) (w_tmp w) in
        (Ok tt, mk_world (w_policy w) (w_state w) disk tmp (S (w_ios w)) (w_reads w)
                  (w_pubs w) (w_published w))
    end.

Definition save_to_path (snapshot : SupState.t) : SE world StateError.t unit :=
  ((if has_parent then fs_op (fun disk tmp => (disk, tmp)) else se_ret tt) ;?
   bytes <-? se_lift (ok_or StateError.Json (encode snapshot)) ;
   fs_op (fun disk _ => (disk, Some bytes)) ;?
   fs_op (fun _ tmp => (tmp, None)))%se.

Definition save : SE world StateError.t unit := fun w => save_to_path (w_state w) w.

Definition update_and_save (f : SupState.t -> SupState.t) : SE world StateError.t unit :=
  (now <-? now_ns ;
   se_modify (fun w => set_mem w (SupState.touch (f (w_state w)) now)) ;?
   save)%se.

(** The store after [load_or_default], and what it returns. *)
Definition load_or_default : SE world StateError.t SupState.t :=
  fun w =>
    let w' := mk_world (w_policy w) (w_state w) (w_disk w) (w_tmp w) (S (w_ios w)) (w_reads w)
                (w_pubs w) (w_published w) in
    let missing := (Ok SupState.default, set_mem w' SupState.default) in
    match io (w_ios w), w_disk w with
    | Some NotFound, _ => missing
    | Some err, _ => (Err (StateError.Io err), w')
    | None, None => missing
    | None, Some bytes =>
        match decode bytes with
        | None => (Err StateError.Json, w')
        | Some state =>
            if negb (SupState.version state =? STATE_VERSION)
            then (Err (StateError.VersionMismatch (SupState.version state) STATE_VERSION), w')
            else (Ok state, set_mem w' state)
        end
    end.

(** *** The actuator *)

Definition publish (subject : string) (p : Payload) : SE world BusError unit :=
  fun w =>
    match bus (w_pubs w) with
    | Some err =>
        (Err err, mk_world (w_policy w) (w_state w) (w_disk w) (w_tmp w) (w_ios w) (w_reads w)
                    (S (w_pubs w)) (w_published w))
    | None =>
        (Ok tt, mk_world (w_policy w) (w_state w) (w_disk w) (w_tmp w) (w_ios w) (w_reads w)
                  (S (w_pubs w)) (w_published w ++ [(subject, p)]))
    end.

(** [if let Err(e) = .. { warn!(..) }]. *)
Definition ignore_error (m : SE world BusError unit) : SE world BusError unit :=
  fun w => (Ok tt, snd (m w)).

Definition emit_ops_action (a : RecoveryAction) : SE world BusError OpsActionPayload :=
  let payload := build_ops_action_payload a in
  (publish (ops_action (RecoveryActionKind.target (ra_kind a))) (OpsAction payload) ;?
   se_ret payload)%se.

Definition emit_cache_redis_degraded (ts_ns : Z) : SE world BusError unit :=
  publish CACHE_REDIS_DEGRADED
    (CacheRedisDegraded (mk_CacheRedisDegraded "degraded" "supervisor: cache reconnect requested" ts_ns)).

Definition emit_ai_ollama_degraded (from to : string) (ts_ns : Z) : SE world BusError unit :=
  publish AI_OLLAMA_DEGRADED (AiOllamaDegraded (mk_AiOllamaDegraded from to "unresponsive" ts_ns)).

Definition emit_exec_broker_failover (from to : BrokerId.t) (ts_ns : Z) : SE world BusError unit :=
  publish EXEC_BROKER_FAILOVER (ExecBrokerFailover (mk_ExecBrokerFailover from to "supervisor" ts_ns)).

Definition side_effect (k : RecoveryActionKind.t) (ts_now : Z) : SE world BusError unit :=
  match k with
  | RecoveryActionKind.RedisReconnect => ignore_error (emit_cache_redis_degraded ts_now)
  | RecoveryActionKind.BrokerFailover from to => ignore_error (emit_exec_broker_failover from to ts_now)
  | RecoveryActionKind.OllamaFallback from to => ignore_error (emit_ai_ollama_degraded from to ts_now)
  | RecoveryActionKind.Reconnect _ _ _ | RecoveryActionKind.ApplyMitigation _ _ => se_ret tt
  end.

Definition actuate (a : RecoveryAction) : SE world BusError OpsActionPayload :=
  (ts_now <-? now_ns ;
   side_effect (ra_kind a) ts_now ;?
   emit_ops_action a)%se.

(** *** The main loop *)

(** The update [persist_state_for] makes; a mismatched pair changes nothing. *)
Definition state_update (event : FailureEvent) (a : RecoveryAction) (s : SupState.t) : SupState.t :=
  match fe_kind event, ra_kind a with
  | FailureKind.WsDisconnected source, RecoveryActionKind.Reconnect _ _ _ =>
      SupState.record_ws_attempt s source
  | FailureKind.BrokerErrorRateBreach _, RecoveryActionKind.BrokerFailover from to =>
      SupState.record_failover s from to (fe_ts_ns event)
  | FailureKind.RedisUnavailable, RecoveryActionKind.RedisReconnect =>
      SupState.set_redis_degraded s true
  | FailureKind.ExternalApiLatencySpike source, RecoveryActionKind.ApplyMitigation _ mitigation =>
      SupState.record_mitigation s source mitigation
  | FailureKind.OllamaUnresponsive _, RecoveryActionKind.OllamaFallback _ to =>
      SupState.record_ollama_swap s to
  | _, _ => s
  end.

Definition persist_state_for (event : FailureEvent) (a : RecoveryAction) : SE world StateError.t unit :=
  update_and_save (state_update event a).

(** [map_err(..)?] *)
Definition lift_err {E F A} (f : E -> F) (m : SE world E A) : SE world F A :=
  fun w => let '(r, w') := m w in (map_err f r, w').

Definition decide_step (event : FailureEvent) : SE world (SupervisorError.t BusError) (option RecoveryAction) :=
  fun w => let '(a, p) := Policy.decide_event (w_policy w) event in (Ok a, set_policy w p).

Definition handle_one (event : FailureEvent)
  : SE world (SupervisorError.t BusError) (option OpsActionPayload) :=
  (decision <-? decide_step event ;
   match decision with
   | None => se_ret None
   | Some a =>
       lift_err SupervisorError.State (persist_state_for event a) ;?
       payload <-? lift_err SupervisorError.Bus (actuate a) ;
       se_ret (Some payload)
   end)%se.

(** [run] over the events its channel delivers: an error is logged and the next event taken. *)
Definition run (w : world) (events : list FailureEvent) : world :=
  foldl (fun w ev => snd (handle_one ev w)) w events.

(** [rehydrate_from_state]: every persisted attempt is replayed as a stub event. *)
Definition replay_one (p : Policy.t) (source : string) (count : Z) : Policy.t :=
  let stub := mk_FailureEvent (FailureKind.WsDisconnected source) 0 in
  Nat.iter (Z.to_nat count) (fun p => snd (Policy.decide_event p stub)) p.

Definition rehydrate_from_state : SE world StateError.t unit :=
  (snapshot <-? load_or_default ;
   se_modify (fun w =>
     set_policy w (foldl (fun p e => replay_one p e.1 e.2) (w_policy w)
                     (map_to_list (SupState.ws_attempts snapshot)))))%se.

(** A new process on the same configuration and disk; [bring_up_and_run] goes on when the
    rehydration fails. *)
Definition start (p : Policy.t) (w : world) : world :=
  let fresh := mk_world (Policy.set_attempts p ∅) SupState.default (w_disk w) (w_tmp w) (w_ios w)
                 (w_reads w) (w_pubs w) (w_published w) in
  snd (rehydrate_from_state fresh).
End supervisor.
Arguments world : clear implicits.
End Supervisor.

(** [reconnect_sleep_for]. *)
Definition reconnect_sleep_for (a : RecoveryAction) : option Z :=
  match ra_kind a with RecoveryActionKind.Reconnect _ backoff _ => Some backoff | _ => None end.

(** ** The detector (detector.rs)

    The mirrors of the wire payloads; an argument [None] is a payload that the
    codec does not decode. *)

Record MdConnectionEvent := mk_MdConnectionEvent { md_source : string; md_status : string; md_attempt : Z }.
Record CacheRedisEvent := mk_CacheRedisEvent { ce_state : string }.
Record BrokerMetricEvent := mk_BrokerMetricEvent {
  be_broker_id : BrokerId.t; be_error : bool; be_latency_ns : Z; be_ts_ns : Z }.
Record ObsLatencyEvent := mk_ObsLatencyEvent { ol_stage : string; ol_nanos : Z; ol_breach : bool }.
Record ObsErrorEvent := mk_ObsErrorEvent {
  oe_source : string; oe_severity : string; oe_code : string; oe_message : string }.
Record AiOllamaDegradedEvent := mk_AiOllamaDegradedEvent {
  ae_model : string; ae_fallback_model : string; ae_reason : string }.

Module Detector.
Definition failover_latency_ns (b : BrokerConfig) : Z := Config.failover_latency_ms b * 1000000.
Definition spike_threshold_ns (r : RiskConfig) : Z := Config.broker_latency_block_ms r * 1000000.

Definition classify_md_connection (now : Z) (ev : option MdConnectionEvent) : option FailureEvent :=
  match ev with
  | Some ev => if decide (md_status ev = "disconnected")
               then Some (mk_FailureEvent (FailureKind.WsDisconnected (md_source ev)) now) else None
  | None => None
  end.

Definition classify_cache_redis (now : Z) (ev : option CacheRedisEvent) : option FailureEvent :=
  match ev with
  | Some ev => if bool_decide (ce_state ev = "degraded") || bool_decide (ce_state ev = "unavailable")
               then Some (mk_FailureEvent FailureKind.RedisUnavailable now) else None
  | None => None
  end.

Definition classify_broker_metric (now threshold : Z) (ev : option BrokerMetricEvent) : option FailureEvent :=
  match ev with
  | Some ev => if be_error ev || (be_latency_ns ev >? threshold)
               then Some (mk_FailureEvent (FailureKind.BrokerErrorRateBreach (be_broker_id ev)) now)
               else None
  | None => None
  end.

Definition classify_obs_latency (now threshold : Z) (ev : option ObsLatencyEvent) : option FailureEvent :=
  match ev with
  | Some ev => if ol_breach ev || (ol_nanos ev >? threshold)
               then Some (mk_FailureEvent (FailureKind.ExternalApiLatencySpike (ol_stage ev)) now)
               else None
  | None => None
  end.

(** [to_ascii_lowercase] and [contains]. *)
Definition to_lower (a : Ascii.ascii) : Ascii.ascii :=
  let n := Ascii.nat_of_ascii a in
  if (65 <=? n)%nat && (n <=? 90)%nat then Ascii.ascii_of_nat (n + 32) else a.
Fixpoint to_ascii_lowercase (s : string) : string :=
  match s with EmptyString => EmptyString | String a s => String (to_lower a) (to_ascii_lowercase s) end.
Fixpoint contains (needle s : string) : bool :=
  String.prefix needle s || match s with EmptyString => false | String _ s => contains needle s end.

Definition classify_obs_error (now : Z) (ev : option ObsErrorEvent) : option FailureEvent :=
  match ev with
  | None => None
  | Some ev =>
      if bool_decide (oe_severity ev <> "error") && bool_decide (oe_severity ev <> "critical") then None
      else
        let lc := to_ascii_lowercase (oe_source ev) in
        if contains "redis" lc then Some (mk_FailureEvent FailureKind.RedisUnavailable now)
        else if contains "ollama" lc
        then Some (mk_FailureEvent (FailureKind.OllamaUnresponsive "unknown") now)
        else None
  end.

Definition classify_ai_ollama_degraded (now : Z) (ev : option AiOllamaDegradedEvent) : option FailureEvent :=
  match ev with
  | Some ev => Some (mk_FailureEvent (FailureKind.OllamaUnresponsive (ae_model ev)) now)
  | None => None
  end.

Definition SUB_MD_CONNECTION : string := "md.connection.>".
Definition SUB_CACHE_REDIS : string := "cache.redis.>".
Definition SUB_BROKER_METRIC : string := "broker.metric.>".
Definition SUB_OBS_LATENCY : string := "obs.latency.>".
Definition SUB_OBS_ERROR : string := "obs.error.>".
Definition SUB_AI_OLLAMA_DEGRADED : string := "ai.ollama.degraded".

(** The body of [run]'s loop: what one bus message [p] on [subject] makes of the six
    subscriptions.  Subject matching is the bus's; decoding is the codec's. *)
Record Codec (P : Type) := mk_Codec {
  as_md_connection : P -> option MdConnectionEvent;
  as_cache_redis : P -> option CacheRedisEvent;
  as_broker_metric : P -> option BrokerMetricEvent;
  as_obs_latency : P -> option ObsLatencyEvent;
  as_obs_error : P -> option ObsErrorEvent;
  as_ai_ollama : P -> option AiOllamaDegradedEvent;
}.
Arguments as_md_connection {P} c.
Arguments as_cache_redis {P} c.
Arguments as_broker_metric {P} c.
Arguments as_obs_latency {P} c.
Arguments as_obs_error {P} c.
Arguments as_ai_ollama {P} c.

Definition on_message {P} (subject_matches : string -> string -> bool) (codec : Codec P)
  (broker_th latency_th now : Z) (subject : string) (p : P) : list FailureEvent :=
  let on sub (ev : option FailureEvent) := if subject_matches sub subject then ev else None in
  omap id
    [on SUB_MD_CONNECTION (classify_md_connection now (as_md_connection codec p));
     on SUB_CACHE_REDIS (classify_cache_redis now (as_cache_redis codec p));
     on SUB_BROKER_METRIC (classify_broker_metric now broker_th (as_broker_metric codec p));
     on SUB_OBS_LATENCY (classify_obs_latency now latency_th (as_obs_latency codec p));
     on SUB_OBS_ERROR (classify_obs_error now (as_obs_error codec p));
     on SUB_AI_OLLAMA_DEGRADED (classify_ai_ollama_degraded now (as_ai_ollama codec p))].
End Detector.

(** ** Backoff across restarts *)

Module Restarts.
Section restarts.
Context {B BusError : Type}.
Context (encode : SupState.t -> option B) (decode : B -> option SupState.t).
Context (io : nat -> option IoError) (bus : nat -> option BusError) (clock : nat -> Z).
Context (has_parent : bool) (p : Policy.t).
Import Supervisor.
Abbreviation world := (Supervisor.world B).
Abbreviation handle := (Supervisor.handle_one encode io bus clock has_parent).

Inductive op := Handle (ev : FailureEvent) | Restart.

Definition step (w : world) (o : op) : world :=
  match o with
  | Handle ev => snd (handle ev w)
  | Restart => start decode io p w
  end.

(** From the first start, with no state file. *)
Definition run (ops : list op) : world :=
  foldl step (start decode io p (mk_world p SupState.default None None 0 0 0 [])) ops.

(** The disconnections of a feed seen so far, by any process. *)
Definition disconnects (source : string) (ops : list op) : Z :=
  Z.of_nat (length (List.filter (fun o => match o with
    | Handle ev => bool_decide (fe_kind ev = FailureKind.WsDisconnected source)
    | Restart => false end) ops)).

Hypothesis codec_ok : forall s, exists b, encode s = Some b /\ decode b = Some s.
Hypothesis io_ok : forall n, io n = None.

Definition counts_ok (m : gmap string Z) : Prop := map_Forall (fun _ c => 1 <= c <= u32_max) m.

Definition inv (ops : list op) (w : world) : Prop :=
  w_policy w = Policy.set_attempts p (SupState.ws_attempts (w_state w))
  /\ counts_ok (SupState.ws_attempts (w_state w))
  /\ SupState.version (w_state w) = STATE_VERSION
  /\ match w_disk w with
     | Some b => decode b = Some (w_state w)
     | None => w_state w = SupState.default
     end
  /\ forall source, unwrap_or 0 (SupState.ws_attempts (w_state w) !! source)
                    = Z.min u32_max (disconnects source ops).

Lemma replay_one_spec q source c :
  Policy.attempts q !! source = None -> 1 <= c <= u32_max ->
  replay_one q source c = Policy.set_attempts q (<[source := c]> (Policy.attempts q)).
Proof.
  intros Hq Hc. unfold replay_one.
  assert (forall n, (1 <= n)%nat -> Z.of_nat n <= u32_max ->
    Nat.iter n (fun r => snd (Policy.decide_event r (mk_FailureEvent (FailureKind.WsDisconnected source) 0))) q
    = Policy.set_attempts q (<[source := Z.of_nat n]> (Policy.attempts q))) as H.
  { intros n. induction n as [| n IH]; intros H1 H2; [lia |]. rewrite Nat.iter_succ.
    destruct (decide (n = 0%nat)) as [-> | Hn].
    - cbn. rewrite Hq. done.
    - rewrite IH by lia. cbn. rewrite lookup_insert_eq. cbn.
      rewrite insert_insert_eq, sat_id by lia. unfold Policy.set_attempts. cbn. do 2 f_equal. lia. }
  rewrite H by lia. by rewrite Z2Nat.id by lia.
Qed.

Lemma replay_all l : NoDup l.*1 -> Forall (fun e => 1 <= e.2 <= u32_max) l -> forall q,
  (forall s, s ∈ l.*1 -> Policy.attempts q !! s = None) ->
  foldl (fun q e => replay_one q e.1 e.2) q l
  = Policy.set_attempts q (list_to_map l ∪ Policy.attempts q).
Proof.
  induction l as [| [s c] l IH]; cbn [foldl fmap list_fmap]; intros Hnd Hf q Hq.
  { cbn. rewrite (left_id_L ∅ _). by destruct q. }
  apply NoDup_cons in Hnd as [Hs Hnd]. apply Forall_cons in Hf as [Hc Hf]. cbn in *.
  rewrite replay_one_spec; [| apply Hq; left | done]. rewrite IH; [| done | done |].
  - unfold Policy.set_attempts. cbn. f_equal. rewrite <- insert_union_l.
    symmetry. apply insert_union_r. by apply not_elem_of_list_to_map.
  - intros s' Hs'. cbn. rewrite lookup_insert_ne by (intros ->; done). apply Hq. by right.
Qed.

Lemma start_inv ops w : inv ops w -> inv ops (start decode io p w).
Proof.
  intros (Hp & Hc & Hv & Hd & Hn).
  assert (start decode io p w = mk_world (w_policy w) (w_state w) (w_disk w) (w_tmp w) (S (w_ios w))
            (w_reads w) (w_pubs w) (w_published w)) as ->; [| done].
  assert (Hall : foldl (fun q e => replay_one q e.1 e.2) (Policy.set_attempts p ∅)
                   (map_to_list (SupState.ws_attempts (w_state w))) = w_policy w).
  { rewrite replay_all.
    - rewrite Hp, list_to_map_to_list. unfold Policy.set_attempts. cbn. by rewrite (right_id_L ∅ _).
    - apply NoDup_fst_map_to_list.
    - apply Forall_forall. intros [s c] Hin%elem_of_map_to_list. by apply (Hc s c).
    - intros s _. cbn. apply lookup_empty. }
  unfold start, rehydrate_from_state, se_bind, load_or_default. cbn [w_ios w_disk].
  rewrite io_ok. destruct (w_disk w) as [b |]; cbn.
  - rewrite Hd, Hv. cbn. by rewrite Hall.
  - rewrite Hd in Hall |- *. cbn in Hall |- *. by rewrite Hall.
Qed.

(** The actuator touches neither the policy, nor the state, nor the file. *)
Definition same_core (w w' : world) : Prop :=
  w_policy w' = w_policy w /\ w_state w' = w_state w /\ w_disk w' = w_disk w.

Lemma publish_frame subject pl w : same_core w (snd (publish bus subject pl w)).
Proof. unfold publish. by destruct (bus (w_pubs w)). Qed.

Lemma actuate_frame a w : same_core w (snd (actuate bus clock a w)).
Proof.
  unfold actuate, se_bind, now_ns, emit_ops_action.
  set (w1 := mk_world _ _ _ _ _ _ _ _).
  assert (same_core w w1) as H1 by done. clearbody w1.
  assert (exists w2, side_effect bus (ra_kind a) (clock (w_reads w)) w1 = (Ok tt, w2)
                     /\ same_core w1 w2) as (w2 & -> & H2).
  { unfold side_effect, ignore_error, se_ret, emit_exec_broker_failover, emit_cache_redis_degraded,
      emit_ai_ollama_degraded.
    destruct (ra_kind a); eexists; split; try reflexivity; try done; apply publish_frame. }
  pose proof (publish_frame (ops_action (RecoveryActionKind.target (ra_kind a)))
                (OpsAction (build_ops_action_payload a)) w2) as H3.
  unfold same_core, se_bind in *. destruct (publish bus _ _ w2) as [[[] | e] w3]; cbn in *; intuition congruence.
Qed.

Lemma decide_is_some q ev : exists a, fst (Policy.decide_event q ev) = Some a.
Proof.
  unfold Policy.decide_event. destruct (fe_kind ev); try (eexists; reflexivity).
  destruct (Policy.failover_pair q broker). by eexists.
Qed.

Lemma handle_core ev w : exists a ts,
  fst (Policy.decide_event (w_policy w) ev) = Some a
  /\ let w' := snd (handle ev w) in
     w_policy w' = snd (Policy.decide_event (w_policy w) ev)
     /\ w_state w' = SupState.touch (state_update ev a (w_state w)) ts
     /\ exists b, w_disk w' = Some b /\ decode b = Some (w_state w').
Proof.
  destruct (decide_is_some (w_policy w) ev) as [a Ha]. exists a, (clock (w_reads w)). split; [done |].
  cbv zeta. set (q := snd (Policy.decide_event (w_policy w) ev)).
  set (s := SupState.touch (state_update ev a (w_state w)) (clock (w_reads w))).
  destruct (codec_ok s) as (b & He & Hd).
  assert (exists w1, persist_state_for encode io clock has_parent ev a (set_policy w q) = (Ok tt, w1)
    /\ w_policy w1 = q /\ w_state w1 = s /\ w_disk w1 = Some b) as (w1 & Hp & Hq & Hs & Hdisk).
  { unfold persist_state_for, update_and_save, se_bind, now_ns, se_modify, save, save_to_path, se_bind,
      se_lift, fs_op, se_ret. cbn. fold s. destruct has_parent; rewrite ?io_ok; cbn; fold s;
      rewrite He; cbn; rewrite !io_ok; cbn; eexists; split; reflexivity || done. }
  assert (snd (handle ev w) = snd (actuate bus clock a w1)) as ->.
  { unfold handle_one, decide_step, se_bind.
    replace (Policy.decide_event (w_policy w) ev) with (Some a, q)
      by (unfold q; rewrite <- Ha; by destruct (Policy.decide_event (w_policy w) ev)).
    unfold lift_err. rewrite Hp. cbn [map_err]. by destruct (actuate bus clock a w1) as [[pl | e] w2]. }
  destruct (actuate_frame a w1) as (F1 & F2 & F3). rewrite F1, F2, F3, Hs.
  split_and!; [done | done | by exists b].
Qed.

Lemma disconnects_app source ops o :
  disconnects source (ops ++ [o])
  = disconnects source ops
    + match o with
      | Handle ev => if decide (fe_kind ev = FailureKind.WsDisconnected source) then 1 else 0
      | Restart => 0 end.
Proof.
  unfold disconnects. rewrite List.filter_app, length_app, Nat2Z.inj_add. f_equal.
  destruct o as [ev |]; [| done]. cbn. by case_bool_decide; case_decide.
Qed.

Lemma handle_inv ops w ev : inv ops w -> inv (ops ++ [Handle ev]) (snd (handle ev w)).
Proof.
  intros (Hp & Hc & Hv & Hd & Hn). destruct (handle_core ev w) as (a & ts & Ha & Hq & Hs & b & Hb & Hdec).
  assert (Hw : SupState.ws_attempts (state_update ev a (w_state w))
    = match fe_kind ev with
      | FailureKind.WsDisconnected source =>
          <[source := sat 0 u32_max (unwrap_or 0 (SupState.ws_attempts (w_state w) !! source) + 1)]>
            (SupState.ws_attempts (w_state w))
      | _ => SupState.ws_attempts (w_state w) end).
  { unfold state_update. unfold Policy.decide_event in Ha.
    destruct (fe_kind ev) as [| broker | | |]; try destruct (Policy.failover_pair _ broker);
      injection Ha as <-; done. }
  unfold inv. rewrite Hq, Hs, Hb. cbn [SupState.touch SupState.ws_attempts SupState.version].
  rewrite Hw. split_and!.
  - rewrite Hp. unfold Policy.decide_event. destruct (fe_kind ev) as [| broker | | |]; try done.
    by destruct (Policy.failover_pair _ broker).
  - destruct (fe_kind ev); try done. apply map_Forall_insert_2; [| done].
    pose proof (Hn source). unfold disconnects in *. unfold u32_max in *. split; [| apply sat_range; lia].
    apply sat_ge; lia.
  - rewrite <- Hv. unfold state_update. destruct (fe_kind ev), (ra_kind a); done.
  - by rewrite <- Hs.
  - intros source. rewrite disconnects_app. pose proof (Hn source) as Hns.
    assert (0 <= disconnects source ops) by (unfold disconnects; lia).
    destruct (fe_kind ev) as [source' | | | |]; try (rewrite decide_False by done; rewrite Hns; f_equal; lia).
    destruct (decide (source' = source)) as [-> | Hne].
    + rewrite decide_True by done. rewrite lookup_insert_eq. cbn. rewrite Hns.
      unfold sat, u32_max. split_ifs; lia.
    + rewrite decide_False by congruence. rewrite lookup_insert_ne by done. rewrite Hns. f_equal. lia.
Qed.

Lemma run_inv ops : inv ops (run ops).
Proof.
  unfold run. induction ops as [| o ops IH] using rev_ind.
  - change (inv [] (start decode io p
      (mk_world (Policy.set_attempts p ∅) SupState.default None None 0 0 0 []))).
    apply start_inv. unfold inv. cbn. split_and!; try done.
  - rewrite foldl_app. cbn [foldl step]. destruct o as [ev |].
    + by apply handle_inv.
    + apply start_inv in IH. destruct IH as (H1 & H2 & H3 & H4 & H5).
      unfold inv. cbn [step]. split_and!; try done.
      intros source. rewrite disconnects_app, Z.add_0_r. apply H5.
Qed.
End restarts.
End Restarts.

(** [delay_for] is the capped exponential at every attempt number. *)
Lemma delay_for_spec (p : BackoffParams) n :
  0 <= base p -> 0 <= max_delay p <= u64_max -> 0 <= n ->
  Backoff.delay_for p n = Z.min (max_delay p) (base p * 2 ^ n).
Proof.
  intros Hb Hm Hn. unfold Backoff.delay_for.
  assert (0 < 2 ^ n) by (apply Z.pow_pos_nonneg; lia).
  assert (Hmin : Z.min (sat 0 u128_max (base p * (if n <? 128 then as_u128 (Z.shiftl 1 n) else u128_max)))
                   (max_delay p) = Z.min (max_delay p) (base p * 2 ^ n)).
  { destruct (n <? 128) eqn:E; bool_to_prop.
    - rewrite Z.shiftl_1_l. unfold as_u128. rewrite wrap_u_id.
      + unfold sat, u128_max, u64_max in *. split_ifs; lia.
      + split; [lia |]. apply Z.pow_lt_mono_r; lia.
    - assert (2 ^ 128 <= 2 ^ n) by (apply Z.pow_le_mono_r; lia).
      change (2 ^ 128) with 340282366920938463463374607431768211456 in *.
      destruct (decide (base p = 0)) as [-> |]; [unfold sat, u128_max, u64_max in *; split_ifs; lia |].
      assert (u128_max <= base p * 2 ^ n) by (unfold u128_max; nia).
      unfold sat, u128_max, u64_max in *. split_ifs; nia. }
  rewrite Hmin. assert (0 <= base p * 2 ^ n) by nia.
  rewrite Z.min_l by lia. apply as_u64_id. unfold u64_ok. lia.
Qed.

(** ** The supervisor's own announcements *)

Module Loop.
Section loop.
Context {B BusError : Type}.
Context (encode : SupState.t -> option B) (io : nat -> option IoError).
Context (bus : nat -> option BusError) (clock : nat -> Z) (has_parent : bool).
Context (subject_matches : string -> string -> bool) (codec : Detector.Codec Payload).
Context (broker_th latency_th : Z).

(** One event handled, with the bus delivering what the handling published back to the
    detector's subscriptions, behind the events already in the channel. *)
Definition loop_step (s : Supervisor.world B * list FailureEvent) : Supervisor.world B * list FailureEvent :=
  let '(w, q) := s in
  match q with
  | [] => (w, [])
  | ev :: q =>
      let w' := snd (Supervisor.handle_one encode io bus clock has_parent ev w) in
      let sent := drop (length (Supervisor.w_published w)) (Supervisor.w_published w') in
      (w', q ++ concat ((fun m => Detector.on_message subject_matches codec broker_th latency_th
                                    (clock (Supervisor.w_reads w')) m.1 m.2) <$> sent))
  end.

Hypothesis encodes : forall s, is_Some (encode s).
Hypothesis io_ok : forall n, io n = None.
Hypothesis bus_ok : forall n, bus n = None.
Hypothesis redis_subscribed : subject_matches Detector.SUB_CACHE_REDIS CACHE_REDIS_DEGRADED = true.
Hypothesis ollama_subscribed : subject_matches Detector.SUB_AI_OLLAMA_DEGRADED AI_OLLAMA_DEGRADED = true.
Hypothesis redis_codec : forall p, Detector.as_cache_redis codec (CacheRedisDegraded p)
  = Some (mk_CacheRedisEvent (cr_state p)).
Hypothesis ollama_codec : forall p, Detector.as_ai_ollama codec (AiOllamaDegraded p)
  = Some (mk_AiOllamaDegradedEvent (ao_model p) (ao_fallback_model p) (ao_reason p)).

(** The failures whose handling announces the same failure. *)
Definition echoes (ev : FailureEvent) : Prop :=
  match fe_kind ev with
  | FailureKind.RedisUnavailable | FailureKind.OllamaUnresponsive _ => True
  | _ => False
  end.

Lemma handle_publishes ev w : exists sent,
  Supervisor.w_published (snd (Supervisor.handle_one encode io bus clock has_parent ev w))
  = Supervisor.w_published w ++ sent /\ (1 <= length sent)%nat
  /\ match fe_kind ev with
     | FailureKind.RedisUnavailable => exists p, cr_state p = "degraded"
         /\ (CACHE_REDIS_DEGRADED, CacheRedisDegraded p) ∈ sent
     | FailureKind.OllamaUnresponsive _ => exists p, (AI_OLLAMA_DEGRADED, AiOllamaDegraded p) ∈ sent
     | _ => True
     end.
Proof.
  unfold Supervisor.handle_one, Supervisor.decide_step, Supervisor.lift_err,
    Supervisor.persist_state_for, Supervisor.update_and_save, Supervisor.save, Supervisor.save_to_path,
    Supervisor.actuate, Supervisor.side_effect, Supervisor.ignore_error, Supervisor.emit_ops_action,
    Supervisor.emit_cache_redis_degraded, Supervisor.emit_ai_ollama_degraded,
    Supervisor.emit_exec_broker_failover, Supervisor.fs_op, Supervisor.publish, Supervisor.now_ns,
    se_bind, se_lift, se_ret, se_modify, Policy.decide_event.
  destruct (fe_kind ev) as [source | broker | | source | model];
    try destruct (Policy.failover_pair _ broker) as [from to]; cbn;
    match goal with |- context [encode ?s] => destruct (encodes s) as [b Eb] end;
    destruct has_parent; rewrite ?io_ok; cbn; rewrite Eb; cbn; rewrite ?io_ok; cbn;
    rewrite ?bus_ok; cbn; rewrite ?bus_ok; cbn;
    (eexists; split; [rewrite <- ?app_assoc; reflexivity |]; split; [cbn; lia |]);
    try done; eexists; (split; [| left; reflexivity]; done) || (left; reflexivity).
Qed.

Lemma on_message_elem now subject m ev :
  ev ∈ Detector.on_message subject_matches codec broker_th latency_th now subject m <->
  Some ev ∈
    (let on sub (e : option FailureEvent) := if subject_matches sub subject then e else None in
     [on Detector.SUB_MD_CONNECTION (Detector.classify_md_connection now (Detector.as_md_connection codec m));
      on Detector.SUB_CACHE_REDIS (Detector.classify_cache_redis now (Detector.as_cache_redis codec m));
      on Detector.SUB_BROKER_METRIC (Detector.classify_broker_metric now broker_th (Detector.as_broker_metric codec m));
      on Detector.SUB_OBS_LATENCY (Detector.classify_obs_latency now latency_th (Detector.as_obs_latency codec m));
      on Detector.SUB_OBS_ERROR (Detector.classify_obs_error now (Detector.as_obs_error codec m));
      on Detector.SUB_AI_OLLAMA_DEGRADED (Detector.classify_ai_ollama_degraded now (Detector.as_ai_ollama codec m))]).
Proof.
  unfold Detector.on_message. cbv zeta. rewrite list_elem_of_omap. unfold id.
  split; [intros (x & Hx & ->); exact Hx | by eexists].
Qed.

Lemma loop_step_spec w q : Exists echoes q ->
  Exists echoes (snd (loop_step (w, q)))
  /\ (length (Supervisor.w_published w) + 1
      <= length (Supervisor.w_published (fst (loop_step (w, q)))))%nat.
Proof.
  intros Hq. destruct q as [| ev q]; [by apply Exists_nil in Hq |]. unfold loop_step.
  destruct (handle_publishes ev w) as (sent & Hs & Hl & Hin).
  set (w' := snd (Supervisor.handle_one _ _ _ _ _ ev w)) in *. cbn [fst snd].
  rewrite Hs, length_app, drop_app_length. split; [| lia].
  apply Exists_app. apply Exists_cons in Hq as [He | Hq]; [right | by left].
  unfold echoes in He. apply Exists_exists.
  set (now := clock (Supervisor.w_reads w')).
  destruct (fe_kind ev) as [source | broker | | source | model]; try done.
  - destruct Hin as (p & Hp & Hin). exists (mk_FailureEvent FailureKind.RedisUnavailable now). split; [| done].
    apply list_elem_of_In, in_concat. setoid_rewrite <- list_elem_of_In.
    eexists. split; [apply list_elem_of_fmap; eexists; split; [reflexivity | exact Hin] |].
    apply on_message_elem. cbn. rewrite redis_subscribed, redis_codec. cbn. rewrite Hp. cbn.
    right. left.
  - destruct Hin as (p & Hin). exists (mk_FailureEvent (FailureKind.OllamaUnresponsive (ao_model p)) now).
    split; [| done].
    apply list_elem_of_In, in_concat. setoid_rewrite <- list_elem_of_In.
    eexists. split; [apply list_elem_of_fmap; eexists; split; [reflexivity | exact Hin] |].
    apply on_message_elem. cbn. rewrite ollama_subscribed, ollama_codec. cbn.
    do 5 right. left.
Qed.

Lemma loop_iter n w q : Exists echoes q ->
  let s := Nat.iter n loop_step (w, q) in
  Exists echoes (snd s)
  /\ (length (Supervisor.w_published w) + n <= length (Supervisor.w_published (fst s)))%nat.
Proof.
  intros Hq. induction n as [| n [IH1 IH2]]; [split; [done | cbn; lia] |].
  cbv zeta. rewrite Nat.iter_succ. destruct (Nat.iter n loop_step (w, q)) as [w' q'].
  destruct (loop_step_spec w' q' IH1) as [H1 H2]. cbn [fst snd] in *. split; [done | lia].
Qed.
End loop.
End Loop.

(** Reconnect backoff over any history of failure events and process restarts, with a
    working disk and whatever the bus does: the next disconnection of a feed gets as its
    attempt number the count of all its earlier disconnections, by any process, and as its
    backoff the capped exponential of that number; nothing in the history, in particular no
    successful reconnection, lowers it. *)
Theorem backoff_survives_restarts {B BusError : Type} (encode : SupState.t -> option B)
  (decode : B -> option SupState.t) (io : nat -> option IoError) (bus : nat -> option BusError)
  (clock : nat -> Z) (has_parent : bool) (p : Policy.t) (ops : list Restarts.op) (source : string) (ts : Z) :
  (forall s, exists b, encode s = Some b /\ decode b = Some s) ->
  (forall n, io n = None) ->
  0 <= base (Policy.backoff p) -> 0 <= max_delay (Policy.backoff p) <= u64_max ->
  let n := Z.min u32_max (Restarts.disconnects source ops) in
  fst (Policy.decide_event
         (Supervisor.w_policy (Restarts.run encode decode io bus clock has_parent p ops))
         (mk_FailureEvent (FailureKind.WsDisconnected source) ts))
  = Some (mk_RecoveryAction
      (RecoveryActionKind.Reconnect source
         (Z.min (max_delay (Policy.backoff p)) (base (Policy.backoff p) * 2 ^ n)) n) ts).
Proof.
  intros Hcodec Hio Hb Hm n.
  destruct (Restarts.run_inv encode decode io bus clock has_parent p Hcodec Hio ops)
    as (Hp & _ & _ & _ & Hn).
  rewrite Hp. cbn. rewrite Hn. fold n. rewrite delay_for_spec; [done | done | done |].
  unfold n, Restarts.disconnects, u32_max. lia.
Qed.

(** The supervisor listens to the subjects it announces on.  With a bus that delivers
    the supervisor's messages to its own subscriptions, once the channel holds a Redis or a
    model failure it never drains: after any number of handled events another one waits, and
    at least one message has been published for each. *)
Theorem announcements_feed_the_detector {B BusError : Type} (encode : SupState.t -> option B)
  (io : nat -> option IoError) (bus : nat -> option BusError) (clock : nat -> Z) (has_parent : bool)
  (subject_matches : string -> string -> bool) (codec : Detector.Codec Payload)
  (broker_th latency_th : Z) (w : Supervisor.world B) (ev : FailureEvent) (q : list FailureEvent) (n : nat) :
  (forall s, is_Some (encode s)) -> (forall k, io k = None) -> (forall k, bus k = None) ->
  subject_matches Detector.SUB_CACHE_REDIS CACHE_REDIS_DEGRADED = true ->
  subject_matches Detector.SUB_AI_OLLAMA_DEGRADED AI_OLLAMA_DEGRADED = true ->
  (forall p, Detector.as_cache_redis codec (CacheRedisDegraded p) = Some (mk_CacheRedisEvent (cr_state p))) ->
  (forall p, Detector.as_ai_ollama codec (AiOllamaDegraded p)
     = Some (mk_AiOllamaDegradedEvent (ao_model p) (ao_fallback_model p) (ao_reason p))) ->
  ev ∈ q ->
  (fe_kind ev = FailureKind.RedisUnavailable \/ exists model, fe_kind ev = FailureKind.OllamaUnresponsive model) ->
  let s := Nat.iter n (Loop.loop_step encode io bus clock has_parent subject_matches codec
                         broker_th latency_th) (w, q) in
  snd s <> []
  /\ (length (Supervisor.w_published w) + n <= length (Supervisor.w_published (fst s)))%nat.
Proof.
  intros He Hio Hbus Hr Ho Hrc Hoc Hin Hk s.
  destruct (Loop.loop_iter encode io bus clock has_parent subject_matches codec broker_th latency_th
              He Hio Hbus Hr Ho Hrc Hoc n w q) as [H1 H2].
  - apply Exists_exists. exists ev. split; [done |]. unfold Loop.echoes.
    by destruct Hk as [-> | [m ->]].
  - split; [| exact H2]. intros E. unfold s in E. rewrite E in H1. by apply Exists_nil in H1.
Qed.

Module SupervisorSample.
Definition policy : Policy.t := Policy.from_config Defaults.brokers [].
Definition drop_of (source : string) : Restarts.op :=
  Restarts.Handle (mk_FailureEvent (FailureKind.WsDisconnected source) 7).
Definition codec : Detector.Codec Payload :=
  Detector.mk_Codec Payload (fun _ => None)
    (fun m => match m with CacheRedisDegraded p => Some (mk_CacheRedisEvent (cr_state p)) | _ => None end)
    (fun _ => None) (fun _ => None) (fun _ => None)
    (fun m => match m with
              | AiOllamaDegraded p =>
                  Some (mk_AiOllamaDegradedEvent (ao_model p) (ao_fallback_model p) (ao_reason p))
              | _ => None end).
Definition subject_matches (pattern subject : string) : bool :=
  bool_decide (pattern = subject)
  || (bool_decide (pattern = "cache.redis.>") && String.prefix "cache.redis." subject).
Definition world : Supervisor.world SupState.t :=
  Supervisor.mk_world policy SupState.default None None 0 0 0 [].
End SupervisorSample.

Import SupervisorSample.

Lemma backoff_survives_restarts_witness :
  fst (Policy.decide_event
         (Supervisor.w_policy
            (Restarts.run Some Some (fun _ => None) (fun n => Some n) (fun n => Z.of_nat n) true policy
               [drop_of "nse"; drop_of "bse"; Restarts.Restart; drop_of "nse"]))
         (mk_FailureEvent (FailureKind.WsDisconnected "nse") 9))
  = Some (mk_RecoveryAction (RecoveryActionKind.Reconnect "nse" (400 * 1000000) 2) 9).
Proof.
  rewrite (backoff_survives_restarts Some Some (fun _ => None) (fun n => Some n) (fun n => Z.of_nat n)
             true policy [drop_of "nse"; drop_of "bse"; Restarts.Restart; drop_of "nse"] "nse" 9
             (fun s => ex_intro _ s (conj eq_refl eq_refl)) (fun _ => eq_refl));
    [by vm_compute | by vm_compute | by vm_compute].
Defined.

Lemma announcements_feed_the_detector_witness :
  let s := Nat.iter 20 (Loop.loop_step Some (fun _ => None) (BusError := string) (fun _ => None)
             (fun n => Z.of_nat n) true subject_matches codec 250 250)
             (world, [mk_FailureEvent FailureKind.RedisUnavailable 3]) in
  snd s <> [] /\ (0 + 20 <= length (Supervisor.w_published (fst s)))%nat.
Proof.
  apply (announcements_feed_the_detector Some (fun _ => None) (fun _ => None) (fun n => Z.of_nat n)
           true subject_matches codec 250 250 world (mk_FailureEvent FailureKind.RedisUnavailable 3));
    [by eexists | done | done | by vm_compute | by vm_compute | done | done | left | by left].
Defined.
