(* ===== verification/VendorFeed.v ===== *)
(** The polling feed of the exchange vendor (bin/upstox_feed.rs of hedge-market-data): the start-up
    probe, the three polling loops, the extraction of the vendor's JSON answers and everything the
    process publishes. *)

From S2P Require Import Prelude Ieee Bytes Core Schemas LiveRoute Wire UiJoin VendorHttp Vendors.
From Stdlib Require Import Ascii.

(** What else is read of JSON documents. The entries of an object come in the order of the map. *)
Class JsonRead `{J : Json} := {
  as_u64 : Value -> option Z;
  as_array : Value -> option (list Value);
  as_object : Value -> option (list (string * Value));
}.

(** ** Texts *)

Fixpoint split (c : ascii) (s : string) : list string :=
  match s with
  | EmptyString => [EmptyString]
  | String a rest =>
    if Ascii.eqb a c then EmptyString :: split c rest
    else match split c rest with
         | x :: xs => String a x :: xs
         | [] => [String a EmptyString]
         end
  end.
Fixpoint split_once (c : ascii) (s : string) : option (string * string) :=
  match s with
  | EmptyString => None
  | String a rest =>
    if Ascii.eqb a c then Some (EmptyString, rest)
    else '(x, y) ← split_once c rest; Some (String a x, y)
  end.
Fixpoint replace_char (c : ascii) (d : string) (s : string) : string :=
  match s with
  | EmptyString => EmptyString
  | String a rest => (if Ascii.eqb a c then d else String a EmptyString) +:+ replace_char c d rest
  end.
Definition join (sep : string) (l : list string) : string :=
  match l with [] => EmptyString | x :: l => foldl (fun acc y => acc +:+ sep +:+ y) x l end.
(** [split_whitespace], concatenated: every white space character goes. *)
Fixpoint without_white_space (fuel : nat) (s : string) : string :=
  match fuel with
  | O => s
  | S fuel =>
    match s with
    | EmptyString => EmptyString
    | String a rest =>
      match strip_any white_space s with
      | Some r => without_white_space fuel r
      | None => String a (without_white_space fuel rest)
      end
    end
  end.

(** The integer cast; [as_i64] is the reading of a JSON number. *)
Abbreviation wrap_i64 := Prelude.as_i64.

Module UpstoxFeed.

(** ** Configuration *)

Definition DEFAULT_INSTRUMENTS : string :=
  "NSE_EQ|INE002A01018,NSE_EQ|INE009A01021,NSE_EQ|INE062A01020,NSE_EQ|INE040A01034,NSE_EQ|INE090A01021".
Definition LTP_URL : string := "https://api.upstox.com/v2/market-quote/ltp".
Definition QUOTE_URL : string := "https://api.upstox.com/v2/market-quote/quotes".
Definition OPTION_CHAIN_URL : string := "https://api.upstox.com/v2/option/chain".
Definition OPTION_CONTRACT_URL : string := "https://api.upstox.com/v2/option/contract".
Definition DEFAULT_OI_UNDERLYINGS : string := "NSE_INDEX|Nifty 50,NSE_INDEX|Nifty Bank".
Definition SOURCE : string := "upstox".

(** A comma-separated list of the environment. *)
Definition listed (raw : string) : list string :=
  List.filter (fun s => negb (bool_decide (s = EmptyString))) (trim <$> split "," raw).

(** ** What is published *)

Record OpenInterestStrike := mk_Strike {
  strike_paise : Z; call_oi : Z; put_oi : Z; call_chg_oi : Z; put_chg_oi : Z }.

(** A connection event has two shapes in one document: the flat one, which the supervisor reads,
    and the one of the user interface. *)
Record ConnectionPayload := mk_ConnectionPayload {
  cn_source : string; cn_status : string; cn_reason : option string; cn_attempt : Z; cn_at : string;
  cn_cockpit_status : string; cn_ts_ns : Z }.

Inductive Payload : Type :=
| Tick (symbol : string) (ltp_paise bid_paise ask_paise ts_recv_ns : Z)
| BinaryTick (bytes : list Z)
| Book (symbol : string) (bid_paise bid_qty ask_paise ask_qty ts_ns : Z)
| Oi (symbol expiry : string) (strikes : list OpenInterestStrike) (ts_ns : Z)
| Connection (c : ConnectionPayload).

Record FeedRequest := mk_FeedRequest { fr_url : string; fr_token : string; fr_query : list (string * string) }.

Inductive Event : Type :=
| Asked (rq : FeedRequest)
| Published (subject : string) (p : Payload)
| Slept (ns : Z).

(** Everything done so far, and the number of clock readings. *)
Record world := mk_world { trace : list Event; clock_readings : nat }.
Definition emit (es : list Event) (w : world) : world := mk_world (trace w ++ es) (clock_readings w).
Definition tick_clock (w : world) : world := mk_world (trace w) (S (clock_readings w)).

Section feed.
Context `{J : Json} {R : JsonRead}.

(** An HTTP answer: its status, its text (empty when it cannot be read) and its JSON. *)
Record FeedResponse := mk_FeedResponse { fs_status : Z; fs_text : string; fs_json : result Value string }.

(** The vendor's answers, given everything done before; the text of a status; the monotonic clock,
    the wall clock, its RFC 3339 text and the date at each reading; the iteration order of a map. *)
Context (respond : list Event -> FeedRequest -> result FeedResponse string) (status_text : Z -> string)
  (instant wall : nat -> Z) (rfc3339 today_ymd : nat -> string)
  (iter : gmap string Value -> list (string * Value)).
Context (token : string).

(** ** Requests *)

Definition http_get (url : string) (query : list (string * string)) (w : world)
  : result FeedResponse string * world :=
  let rq := mk_FeedRequest url token query in
  (respond (trace w) rq, emit [Asked rq] w).

Definition get_json (what url : string) (query : list (string * string)) (w : world)
  : result Value string * world :=
  let '(r, w) := http_get url query w in
  (match r with
   | Err e => Err (what +:+ " http: " +:+ e)
   | Ok resp =>
     if negb (is_success (fs_status resp)) then
       Err (what +:+ " http " +:+ status_text (fs_status resp) +:+ ": " +:+ fs_text resp)
     else map_err (fun e => what +:+ " json: " +:+ e) (fs_json resp)
   end, w).

Definition probe_token (instruments : list string) (w : world) : result unit string * world :=
  let '(r, w) := http_get LTP_URL [("instrument_key", join "," instruments)] w in
  (match r with
   | Err e => Err ("HTTP probe failed (network): " +:+ e)
   | Ok resp =>
     if negb (is_success (fs_status resp)) then
       if fs_status resp =? 401 then
         Err ("Upstox returned 401 Unauthorized. Access token is expired or invalid. body=" +:+ fs_text resp)
       else Err ("Upstox probe returned HTTP " +:+ status_text (fs_status resp) +:+ ": " +:+ fs_text resp)
     else match fs_json resp with
          | Ok _ => Ok tt
          | Err e => Err ("probe response not JSON: " +:+ e)
          end
   end, w).

(** ** Extraction *)

(** [item.insert("_data_key", k)], where the item is an object. *)
Definition tag_key (k : string) (v : Value) : Value :=
  match as_object v with Some _ => jset v "_data_key" (jstring k) | None => v end.

Definition str_of (v : Value) (k : string) : option string := jget v k ≫= as_str.
Definition f64_of (v : Value) (k : string) : option f64 := jget v k ≫= as_f64.

Definition by_token (instruments : list string) (out : gmap string Value) (entry : string * Value)
  : gmap string Value :=
  let '(k, v) := entry in
  match str_of v "instrument_token" with
  | Some tok => if decide (tok ∈ instruments) then <[tok := tag_key k v]> out else out
  | None => out
  end.

Definition by_symbol (data : Value) (out : gmap string Value) (inst : string) : gmap string Value :=
  match out !! inst with
  | Some _ => out
  | None =>
    let colon_form := replace_char "|" ":" inst in
    match jget data colon_form with
    | Some v => <[inst := tag_key colon_form v]> out
    | None => out
    end
  end.

Definition extract_data_map (body : Value) (instruments : list string) : result (gmap string Value) string :=
  match jget body "data" with
  | Some data =>
    match as_object data with
    | Some entries => Ok (foldl (by_symbol data) (foldl (by_token instruments) ∅ entries) instruments)
    | None => Err "missing data object in upstox response"
    end
  | None => Err "missing data object in upstox response"
  end.

Definition extract_trading_symbol (item : Value) : string :=
  match str_of item "symbol" with
  | Some s => s
  | None =>
    match str_of item "trading_symbol" with
    | Some s => s
    | None =>
      match str_of item "_data_key" ≫= split_once ":" with
      | Some (_, sym) => sym
      | None => "UNKNOWN"
      end
    end
  end.

(** ** Publishers. A failed publication is logged and forgotten. *)

Definition read_wall (w : world) : Z * world := (wall (clock_readings w), tick_clock w).

Definition publish_connection (status : string) (reason : option string) (attempt : Z)
  (cockpit_status : string) (w : world) : world :=
  let '(ts_ns, w) := read_wall w in
  let at_ := rfc3339 (clock_readings w) in
  emit [Published ("md.connection." +:+ SOURCE)
          (Connection (mk_ConnectionPayload SOURCE status reason attempt at_ cockpit_status ts_ns))]
    (tick_clock w).
Definition publish_connected : world -> world := publish_connection "reconnected" None 0 "ok".
Definition publish_disconnected (reason : string) (attempt : Z) : world -> world :=
  publish_connection "disconnected" (Some reason) attempt (if attempt >? 5 then "down" else "degraded").

(** Rupees to paise. *)
Definition to_paise (rupees : f64) : Z := f_round_as_i64 (f64_mul rupees (f64_of_Z 100)).

Definition isin_subject (domain instrument_key : string) : string :=
  domain +:+ replace_char "|" "." instrument_key.

(** The price the vendor quotes; zero when there is none. *)
Definition quoted (item : Value) : f64 :=
  let price := match jget item "last_price" with Some v => Some v | None => jget item "ltp" end in
  unwrap_or f_zero (price ≫= as_f64).

Definition publish_tick (w : world) (entry : string * Value) : world :=
  let '(instrument_key, item) := entry in
  let symbol := extract_trading_symbol item in
  let ltp_paise := to_paise (quoted item) in
  let '(ts_ns, w) := read_wall w in
  let payload := Tick symbol ltp_paise ltp_paise ltp_paise ts_ns in
  emit ([Published ("md.tick." +:+ symbol) payload;
         Published (isin_subject "md.tick." instrument_key) payload]
        ++ match TickWire.encode_tick_v1 symbol ltp_paise ltp_paise ltp_paise ts_ns with
           | Some bin => [Published ("md.tick.bin." +:+ symbol) (BinaryTick bin)]
           | None => []
           end) w.

Definition best_level (levels : option (list Value)) : f64 * Z :=
  match levels ≫= head with
  | None => (f_zero, 0)
  | Some level => (unwrap_or f_zero (f64_of level "price"), unwrap_or 0 (jget level "quantity" ≫= as_u64))
  end.

Definition publish_book (w : world) (entry : string * Value) : world :=
  let '(instrument_key, item) := entry in
  let symbol := extract_trading_symbol item in
  let side k := (d ← jget item "depth"; jget d k) ≫= as_array in
  let '(bid_price, bid_qty) := best_level (side "buy") in
  let '(ask_price, ask_qty) := best_level (side "sell") in
  let '(ts_ns, w) := read_wall w in
  let payload := Book symbol (to_paise bid_price) bid_qty (to_paise ask_price) ask_qty ts_ns in
  emit [Published ("md.book." +:+ symbol) payload;
        Published (isin_subject "md.book." instrument_key) payload] w.

Definition oi_pair (side : option Value) : Z * Z :=
  match side ≫= (fun s => jget s "market_data") with
  | None => (0, 0)
  | Some md => (f_as_u64 (unwrap_or f_zero (f64_of md "oi")), f_as_u64 (unwrap_or f_zero (f64_of md "prev_oi")))
  end.

Definition strike_of (c : Value) : option OpenInterestStrike :=
  strike_rupees ← f64_of c "strike_price";
  let '(call, call_prev) := oi_pair (jget c "call_options") in
  let '(put, put_prev) := oi_pair (jget c "put_options") in
  Some (mk_Strike (to_paise strike_rupees) call put (wrap_i64 (wrap_i64 call - wrap_i64 call_prev))
          (wrap_i64 (wrap_i64 put - wrap_i64 put_prev))).

Fixpoint find_map {A B} (f : A -> option B) (l : list A) : option B :=
  match l with [] => None | x :: l => match f x with Some y => Some y | None => find_map f l end end.

Definition spot_of (chain : list Value) : Z :=
  unwrap_or 0 (to_paise <$> find_map (fun c => f64_of c "underlying_spot_price") chain).

Definition distance (spot : Z) (s : OpenInterestStrike) : Z :=
  wrap_i64 (Z.abs (wrap_i64 (strike_paise s - spot))).

(** The ladder: all the strikes in order, or the eleven nearest the spot price. *)
Definition ladder (spot : Z) (strikes : list OpenInterestStrike) : list OpenInterestStrike :=
  let strikes := sort_by (by_key strike_paise) strikes in
  if (0 <? spot) && (11 <? length strikes)%nat then
    sort_by (by_key strike_paise) (take 11 (sort_by (by_key (distance spot)) strikes))
  else strikes.

Definition underlying_display (instrument_key : string) : string :=
  match split_once "|" instrument_key with Some (_, name) => name | None => instrument_key end.
Definition subject_token (display : string) : string := without_white_space (String.length display) display.

Definition publish_oi (underlying expiry : string) (chain : list Value) (w : world) : world :=
  if decide (chain = []) then w
  else
    let display_symbol := underlying_display underlying in
    let trimmed := ladder (spot_of chain) (omap strike_of chain) in
    let '(ts_ns, w) := read_wall w in
    emit [Published ("md.oi." +:+ subject_token display_symbol) (Oi display_symbol expiry trimmed ts_ns)] w.

(** ** Fetchers *)

Definition fetch_map (what url : string) (instruments : list string) (w : world)
  : result (gmap string Value) string * world :=
  let '(r, w) := get_json what url [("instrument_key", join "," instruments)] w in
  (match r with Ok body => extract_data_map body instruments | Err e => Err e end, w).
Definition fetch_ltp := fetch_map "ltp" LTP_URL.
Definition fetch_quotes := fetch_map "quote" QUOTE_URL.

Definition data_array (what : string) (r : result Value string) : result (list Value) string :=
  match r with
  | Ok body => match jget body "data" ≫= as_array with
               | Some data => Ok data
               | None => Err (what +:+ ": missing data array")
               end
  | Err e => Err e
  end.

(** [Vec::dedup]. *)
Fixpoint dedup (l : list string) : list string :=
  match l with
  | [] => []
  | x :: l => match head l with
              | Some y => if decide (x = y) then dedup l else x :: dedup l
              | None => [x]
              end
  end.

(** The contracts that have not expired, in order, without repetitions. *)
Definition future_expiries (today : string) (data : list Value) : list string :=
  dedup (merge_sort String.le
    (List.filter (fun e => bool_decide (String.le today e)) (omap (fun c => str_of c "expiry") data))).

Definition discover_nearest_expiry (underlying today : string) (w : world) : result string string * world :=
  let '(r, w) := get_json "option contract" OPTION_CONTRACT_URL [("instrument_key", underlying)] w in
  (match data_array "option contract" r with
   | Err e => Err e
   | Ok data => ok_or "no future expiry found for underlying" (head (future_expiries today data))
   end, w).

Definition resolve_expiry (underlying : string) (cache : gmap string string) (w : world)
  : result string string * gmap string string * world :=
  let today := today_ymd (clock_readings w) in
  let w := tick_clock w in
  let discover :=
    let '(r, w) := discover_nearest_expiry underlying today w in
    match r with
    | Ok expiry => (Ok expiry, <[underlying := expiry]> cache, w)
    | Err e => (Err e, cache, w)
    end in
  match cache !! underlying with
  | Some cached => if decide (String.le today cached) then (Ok cached, cache, w) else discover
  | None => discover
  end.

Definition fetch_option_chain (underlying expiry : string) (w : world)
  : result (list Value) string * world :=
  let '(r, w) := get_json "option chain" OPTION_CHAIN_URL
                   [("instrument_key", underlying); ("expiry_date", expiry)] w in
  (data_array "option chain" r, w).

(** ** Loops: one round each *)

Record LoopState := mk_LoopState { next_tick : Z; consecutive_errors : Z; loop_world : world }.

(** Wait for the round, and set the time of the next. *)
Definition pace (interval : Z) (next : Z) (w : world) : Z * world :=
  let now := instant (clock_readings w) in
  let w := tick_clock w in
  let w := if now <? next then emit [Slept (next - now)] w else w in
  (instant (clock_readings w) + interval, tick_clock w).

Definition BACKOFF_NS : Z := 2 * 1000000000.
Definition is_power_of_two (n : Z) : bool := negb (n =? 0) && (Z.land n (n - 1) =? 0).
(** The failures that are told: the first, the second, the fourth, and so on. *)
Definition is_told (n : Z) : bool := (n =? 1) || is_power_of_two n.
Definition back_off (n : Z) (w : world) : world := if n >? 5 then emit [Slept BACKOFF_NS] w else w.

(** The fetch of a round. *)
Definition ltp_attempt (interval : Z) (instruments : list string) (st : LoopState)
  : result (gmap string Value) string * world :=
  fetch_ltp instruments (pace interval (next_tick st) (loop_world st)).2.

Definition ltp_step (interval : Z) (instruments : list string) (st : LoopState) : LoopState :=
  let '(next, _) := pace interval (next_tick st) (loop_world st) in
  let '(r, w) := ltp_attempt interval instruments st in
  match r with
  | Ok items =>
    let w := if consecutive_errors st >? 0 then publish_connected w else w in
    mk_LoopState next 0 (foldl publish_tick w (iter items))
  | Err e =>
    let n := sat 0 u32_max (consecutive_errors st + 1) in
    let w := if is_told n then publish_disconnected ("ltp: " +:+ e) n w else w in
    mk_LoopState next n (back_off n w)
  end.
Definition run_ltp_loop (interval : Z) (instruments : list string) (rounds : nat) (st : LoopState) : LoopState :=
  Nat.iter rounds (ltp_step interval instruments) st.

Definition book_step (interval : Z) (instruments : list string) (st : LoopState) : LoopState :=
  let '(next, w) := pace interval (next_tick st) (loop_world st) in
  let '(r, w) := fetch_quotes instruments w in
  match r with
  | Ok items => mk_LoopState next 0 (foldl publish_book w (iter items))
  | Err _ =>
    let n := sat 0 u32_max (consecutive_errors st + 1) in
    mk_LoopState next n (back_off n w)
  end.
Definition run_book_loop (interval : Z) (instruments : list string) (rounds : nat) (st : LoopState) : LoopState :=
  Nat.iter rounds (book_step interval instruments) st.

Record OiState := mk_OiState {
  oi_next_tick : Z; oi_errors : Z; expiry_cache : gmap string string; oi_world : world }.

(** One underlying: its expiry, its chain, its ladder. *)
Definition oi_one (st : OiState) (underlying : string) : OiState :=
  let '(r, cache, w) := resolve_expiry underlying (expiry_cache st) (oi_world st) in
  let n := sat 0 u32_max (oi_errors st + 1) in
  match r with
  | Err _ => mk_OiState (oi_next_tick st) n cache w
  | Ok expiry =>
    let '(r, w) := fetch_option_chain underlying expiry w in
    match r with
    | Ok chain => mk_OiState (oi_next_tick st) 0 cache (publish_oi underlying expiry chain w)
    | Err _ => mk_OiState (oi_next_tick st) n (delete underlying cache) w
    end
  end.

Definition oi_step (interval : Z) (underlyings : list string) (st : OiState) : OiState :=
  let '(next, w) := pace interval (oi_next_tick st) (oi_world st) in
  let st := foldl oi_one (mk_OiState next (oi_errors st) (expiry_cache st) w) underlyings in
  mk_OiState (oi_next_tick st) (oi_errors st) (expiry_cache st) (back_off (oi_errors st) (oi_world st)).
Definition run_oi_loop (interval : Z) (underlyings : list string) (rounds : nat) (st : OiState) : OiState :=
  Nat.iter rounds (oi_step interval underlyings) st.

(** ** Start-up: [None] when the process ends before the loops start *)

Definition start (instruments_raw : option string) (w : world) : option (list string) * world :=
  let instruments := listed (unwrap_or DEFAULT_INSTRUMENTS instruments_raw) in
  match instruments with
  | [] => (None, w)
  | first :: _ =>
    let '(r, w) := probe_token [first] w in
    match r with
    | Err e => (None, publish_disconnected e 0 w)
    | Ok _ => (Some instruments, publish_connected w)
    end
  end.
End feed.
End UpstoxFeed.
