(* ===== verification/VendorFeedFacts.v ===== *)
(** What the polling feed of the vendor guarantees (VendorFeed.v): how it announces an outage, what
    becomes of a quoted price, the strikes it shows, and the expiry and the entries it picks. *)

From S2P Require Import Prelude Ieee IeeeValue Bytes Core Schemas LiveRoute Wire UiJoin UiGateway UiFacts VendorHttp Vendors Supervisor.
From S2P Require Import VendorFeed.
From Stdlib Require Import Ascii.

Module FeedFacts.
Import UpstoxFeed.

(** *** Powers of two *)

Lemma land_pred_pow k : 0 <= k -> Z.land (2 ^ k) (2 ^ k - 1) = 0.
Proof.
  intros Hk. replace (2 ^ k - 1) with (Z.ones k) by (rewrite Z.ones_equiv; lia).
  rewrite Z.land_ones by done. apply Z.mod_same. pose proof (Z.pow_pos_nonneg 2 k). lia.
Qed.

Lemma is_told_iff n : 0 < n -> is_told n = true <-> n = 2 ^ Z.log2 n.
Proof.
  intros Hn. pose proof (Z.log2_spec n Hn) as [Hl Hu]. pose proof (Z.log2_nonneg n) as H0. split.
  - intros H. destruct (decide (n = 2 ^ Z.log2 n)) as [| Hne]; [done | exfalso].
    assert (Z.log2 (n - 1) = Z.log2 n) as He by (apply Z.log2_unique; lia).
    assert (Z.testbit (Z.land n (n - 1)) (Z.log2 n) = true) as Hb.
    { rewrite Z.land_spec, Z.bit_log2 by lia. rewrite <- He at 1. rewrite Z.bit_log2; [done |].
      destruct (decide (n = 1)) as [-> | ?]; [by cbn in Hne | lia]. }
    unfold is_told, is_power_of_two in H. apply orb_true_iff in H as [H | H].
    + apply Z.eqb_eq in H as ->. by cbn in Hne.
    + apply andb_true_iff in H as [_ H]. apply Z.eqb_eq in H. rewrite H in Hb. by rewrite Z.testbit_0_l in Hb.
  - intros He. unfold is_told, is_power_of_two. rewrite He, land_pred_pow by done. cbn.
    apply orb_true_iff. right. rewrite andb_true_r. apply negb_true_iff, Z.eqb_neq.
    pose proof (Z.pow_pos_nonneg 2 (Z.log2 n)). lia.
Qed.

(** The numbers told up to [n] are the powers of two up to [n]. *)
Fixpoint told_upto (n : nat) : list Z :=
  match n with
  | O => []
  | S k => told_upto k ++ (if is_told (Z.of_nat (S k)) then [Z.of_nat (S k)] else [])
  end.

Lemma told_upto_powers n : (0 < n)%nat ->
  told_upto n = Z.pow 2 <$> seqZ 0 (Z.log2 (Z.of_nat n) + 1).
Proof.
  induction n as [| n IH]; [lia |]. intros _. destruct n as [| n]; [reflexivity |].
  remember (S n) as m eqn:Hm. cbn [told_upto]. rewrite IH by lia. clear IH.
  pose proof (is_told_iff (Z.of_nat (S m)) ltac:(lia)) as Ht.
  pose proof (Z.log2_spec (Z.of_nat m) ltac:(lia)) as [Hl Hu].
  pose proof (Z.log2_nonneg (Z.of_nat m)) as H0.
  destruct (is_told (Z.of_nat (S m))) eqn:E.
  - pose proof (proj1 Ht eq_refl) as He.
    assert (Z.log2 (Z.of_nat (S m)) = Z.log2 (Z.of_nat m) + 1) as Hlog.
    { destruct (Z.log2_succ_or (Z.of_nat m)) as [H | H]; rewrite <- Nat2Z.inj_succ in H; [lia |].
      exfalso. rewrite H in He. lia. }
    rewrite Hlog, (seqZ_app 0 (Z.log2 (Z.of_nat m) + 1) 1) by lia. rewrite fmap_app. f_equal.
    rewrite Z.add_0_l, seqZ_cons by lia. cbn. f_equal. rewrite He at 1. by rewrite Hlog.
  - rewrite app_nil_r. do 2 f_equal. f_equal.
    destruct (Z.log2_succ_or (Z.of_nat m)) as [H | H]; rewrite <- Nat2Z.inj_succ in H; [| lia].
    assert (is_told (Z.of_nat (S m)) = true); [| congruence].
    rewrite E. apply Ht. pose proof (Z.log2_spec (Z.of_nat (S m)) ltac:(lia)) as [Hl' _].
    rewrite H in Hl' |- *. rewrite <- Z.add_1_r in Hu. 
    enough (2 ^ (Z.log2 (Z.of_nat m) + 1) <= Z.of_nat (S m)) by lia.
    by rewrite Z.add_1_r in *.
Qed.

(** *** What has been announced *)

Definition connections (tr : list Event) : list ConnectionPayload :=
  omap (fun e => match e with Published _ (Connection c) => Some c | _ => None end) tr.
Definition summary (c : ConnectionPayload) : string * Z * string :=
  (cn_status c, cn_attempt c, cn_cockpit_status c).
(** The flat shape, as the supervisor decodes it. *)
Definition supervisor_view (c : ConnectionPayload) : MdConnectionEvent :=
  mk_MdConnectionEvent (cn_source c) (cn_status c) (cn_attempt c).
Definition outage (n : Z) : string * Z * string :=
  ("disconnected", n, if n >? 5 then "down" else "degraded").

Lemma connections_app a b : connections (a ++ b) = connections a ++ connections b.
Proof. apply omap_app. Qed.

(** The detector reports each disconnection, and nothing for a reconnection. *)
Lemma lost_feeds now cs ns : summary <$> cs = outage <$> ns -> Forall (fun c => cn_source c = SOURCE) cs ->
  omap (fun c => Detector.classify_md_connection now (Some (supervisor_view c))) cs
  = replicate (length ns) (mk_FailureEvent (FailureKind.WsDisconnected SOURCE) now).
Proof.
  revert cs. induction ns as [| k ns IH]; intros cs Hc Hs; [by destruct cs |].
  destruct cs as [| c cs]; [done |]. apply Forall_cons in Hs as [Hsrc Hs].
  cbn in Hc. injection Hc as Hstatus _ _ Hc. cbn. rewrite Hstatus, Hsrc. cbn. f_equal. by apply IH.
Qed.

Lemma no_lost_feed now cs : summary <$> cs = [("reconnected", 0, "ok")] ->
  omap (fun c => Detector.classify_md_connection now (Some (supervisor_view c))) cs = [].
Proof.
  destruct cs as [| c [| ? ?]]; intros H; [done | | done].
  injection H as Hstatus _ _. cbn. by rewrite Hstatus.
Qed.

Section facts.
Context `{J : Json} {R : JsonRead}.
Context (respond : list Event -> FeedRequest -> result FeedResponse string) (status_text : Z -> string)
  (instant wall : nat -> Z) (rfc3339 : nat -> string)
  (iter : gmap string Value -> list (string * Value)) (token : string).
Abbreviation step := (ltp_step respond status_text instant wall rfc3339 iter token).
Abbreviation attempt := (ltp_attempt respond status_text instant token).
Abbreviation said w := (connections (trace w)).

Lemma pace_said interval next w : said (pace instant interval next w).2 = said w.
Proof.
  unfold pace. cbn. destruct (_ <? _); [| done]. cbn. by rewrite connections_app, app_nil_r.
Qed.

Lemma attempt_said interval instruments st : said (attempt interval instruments st).2 = said (loop_world st).
Proof.
  unfold ltp_attempt. rewrite <- (pace_said interval (next_tick st) (loop_world st)).
  destruct (pace _ _ _ _) as [next w]. unfold fetch_ltp, fetch_map, get_json, http_get. cbn.
  by rewrite connections_app, app_nil_r.
Qed.

Lemma publish_tick_said w e : said (publish_tick wall w e) = said w.
Proof.
  destruct e as [k v]. unfold publish_tick. cbn. rewrite connections_app.
  destruct (TickWire.encode_tick_v1 _ _ _ _ _); cbn; by rewrite app_nil_r.
Qed.

Lemma publish_ticks_said l w : said (foldl (publish_tick wall) w l) = said w.
Proof.
  revert w. induction l as [| e l IH]; intros w; [done |]. cbn [foldl]. rewrite IH. apply publish_tick_said.
Qed.

Lemma publish_connection_said status reason n cockpit w : exists c,
  said (publish_connection wall rfc3339 status reason n cockpit w) = said w ++ [c]
  /\ summary c = (status, n, cockpit) /\ cn_source c = SOURCE.
Proof. eexists. unfold publish_connection. cbn. rewrite connections_app. done. Qed.

Lemma back_off_said n w : said (back_off n w) = said w.
Proof. unfold back_off. destruct (_ >? _); [| done]. cbn. by rewrite connections_app, app_nil_r. Qed.

(** A failed round counts one more failure and tells it if it is to be told. *)
Lemma failed_step interval instruments st : is_ok (attempt interval instruments st).1 = false ->
  0 <= consecutive_errors st < u32_max ->
  let st' := step interval instruments st in
  let n := consecutive_errors st + 1 in
  consecutive_errors st' = n
  /\ exists cs, said (loop_world st') = said (loop_world st) ++ cs
     /\ summary <$> cs = (if is_told n then [outage n] else [])
     /\ Forall (fun c => cn_source c = SOURCE) cs.
Proof.
  intros Hf Hn. cbv zeta. unfold ltp_step. destruct (pace _ _ _ _) as [next w0].
  pose proof (attempt_said interval instruments st) as Hs.
  destruct (attempt interval instruments st) as [[items | e] w]; [done |]. cbn in Hs.
  rewrite sat_id by (unfold_ok; lia). split; [done |]. cbn [loop_world]. rewrite back_off_said.
  destruct (is_told _).
  - destruct (publish_connection_said "disconnected" (Some ("ltp: " +:+ e)) (consecutive_errors st + 1)
      (if consecutive_errors st + 1 >? 5 then "down" else "degraded") w) as (c & Hc & Hsum & Hsrc).
    exists [c]. unfold publish_disconnected. rewrite Hc, Hs. split_and!; [done | cbn; by rewrite Hsum | by constructor].
  - exists []. rewrite app_nil_r. by split_and!.
Qed.

Lemma good_step interval instruments st : is_ok (attempt interval instruments st).1 = true ->
  let st' := step interval instruments st in
  consecutive_errors st' = 0
  /\ exists cs, said (loop_world st') = said (loop_world st) ++ cs
     /\ summary <$> cs = (if consecutive_errors st >? 0 then [("reconnected", 0, "ok")] else [])
     /\ Forall (fun c => cn_source c = SOURCE) cs.
Proof.
  intros Hf. cbv zeta. unfold ltp_step. destruct (pace _ _ _ _) as [next w0].
  pose proof (attempt_said interval instruments st) as Hs.
  destruct (attempt interval instruments st) as [[items | e] w]; [| done]. cbn in Hs.
  split; [done |]. cbn [loop_world]. rewrite publish_ticks_said. destruct (_ >? _).
  - destruct (publish_connection_said "reconnected" None 0 "ok" w) as (c & Hc & Hsum & Hsrc).
    exists [c]. unfold publish_connected. rewrite Hc, Hs. split_and!; [done | cbn; by rewrite Hsum | by constructor].
  - exists []. rewrite app_nil_r. by split_and!.
Qed.

(** [n] failed rounds in a row. *)
Lemma failing_rounds interval instruments st n : consecutive_errors st = 0 -> Z.of_nat n <= u32_max ->
  (forall k, (k < n)%nat -> is_ok (attempt interval instruments (Nat.iter k (step interval instruments) st)).1 = false) ->
  let st' := Nat.iter n (step interval instruments) st in
  consecutive_errors st' = Z.of_nat n
  /\ exists cs, said (loop_world st') = said (loop_world st) ++ cs
     /\ summary <$> cs = outage <$> told_upto n
     /\ Forall (fun c => cn_source c = SOURCE) cs.
Proof.
  intros H0 Hn Hf. induction n as [| n IH].
  - split; [done |]. exists []. by rewrite app_nil_r.
  - destruct IH as (He & cs & Hs & Hc & Hsrc); [lia | intros; apply Hf; lia |].
    cbv zeta. rewrite Nat.iter_succ. set (st1 := Nat.iter n _ st) in *.
    destruct (failed_step interval instruments st1) as (He' & cs' & Hs' & Hc' & Hsrc');
      [apply Hf; lia | rewrite He; lia |].
    split; [rewrite He', He; lia |]. exists (cs ++ cs'). split_and!.
    + by rewrite Hs', Hs, app_assoc.
    + cbn [told_upto]. rewrite !fmap_app, Hc, Hc'. f_equal.
      replace (consecutive_errors st1 + 1) with (Z.of_nat (S n)) by (rewrite He; lia).
      generalize (is_told (Z.of_nat (S n))). intros []; reflexivity.
    + by apply Forall_app.
Qed.

(** *** Expiries *)

Lemma dedup_elem x l : x ∈ dedup l -> x ∈ l.
Proof.
  induction l as [| y l IH]; [done |]. cbn. destruct (head l) eqn:E.
  - destruct (decide _); [intros H; right; by apply IH |].
    intros [-> | H]%elem_of_cons; [by left | right; by apply IH].
  - intros H%list_elem_of_singleton. subst. by left.
Qed.

Lemma dedup_head x l : head (dedup l) = Some x -> head l = Some x.
Proof.
  revert x. induction l as [| y l IH]; intros x; [done |]. cbn. destruct (head l) as [z |] eqn:E; [| done].
  destruct (decide (y = z)) as [-> |]; [| done]. intros H. specialize (IH x H). congruence.
Qed.

(** The expiry chosen is listed, has not passed, and no listed one that has not passed is nearer. *)
Lemma nearest_expiry today data e : head (future_expiries today data) = Some e ->
  let listed := omap (fun c => str_of c "expiry") data in
  e ∈ listed /\ String.le today e /\ forall e', e' ∈ listed -> String.le today e' -> String.le e e'.
Proof.
  intros H. apply dedup_head in H. cbv zeta.
  set (listed := omap _ data) in *. set (ahead := List.filter _ listed) in *.
  assert (forall x, x ∈ ahead <-> x ∈ listed /\ String.le today x) as Hin.
  { intros x. unfold ahead. rewrite !list_elem_of_In, filter_In, bool_decide_eq_true. done. }
  pose proof (StronglySorted_merge_sort String.le ahead) as Hs.
  pose proof (merge_sort_Permutation String.le ahead) as Hp.
  destruct (merge_sort String.le ahead) as [| x l] eqn:E; [done |]. injection H as ->.
  assert (e ∈ ahead) as He by (rewrite <- Hp; left).
  apply Hin in He as [Hl Ht]. split_and!; [done | done |]. intros e' Hl' Ht'.
  assert (e' ∈ e :: l) as Hm by (rewrite Hp; by apply Hin).
  apply StronglySorted_inv in Hs as [_ Hf]. apply elem_of_cons in Hm as [-> | Hm]; [done |].
  rewrite Forall_forall in Hf. by apply Hf.
Qed.
End facts.

(** *** Extraction *)

Section extraction.
Context `{J : Json} {R : JsonRead}.

Definition named (i : string) (entry : string * Value) : bool :=
  bool_decide (str_of entry.2 "instrument_token" = Some i).

Lemma by_token_lookup instruments i entries out : i ∈ instruments ->
  foldl (by_token instruments) out entries !! i
  = match last (List.filter (named i) entries) with
    | Some (k, v) => Some (tag_key k v)
    | None => out !! i
    end.
Proof.
  intros Hi. induction entries as [| [k v] entries IH] using rev_ind; [done |].
  rewrite foldl_snoc, List.filter_app. cbn. unfold named at 2. cbn [snd].
  destruct (str_of v "instrument_token") as [tok |].
  - destruct (decide (tok = i)) as [-> | Hne].
    + rewrite decide_True, bool_decide_true, last_snoc, lookup_insert_eq by done. done.
    + rewrite bool_decide_false, app_nil_r by congruence. rewrite <- IH.
      destruct (decide (tok ∈ instruments)); [by rewrite lookup_insert_ne | done].
  - by rewrite bool_decide_false, app_nil_r.
Qed.

Lemma by_token_other instruments i entries out : i ∉ instruments ->
  foldl (by_token instruments) out entries !! i = out !! i.
Proof.
  intros Hi. induction entries as [| [k v] entries IH] using rev_ind; [done |].
  rewrite foldl_snoc, <- IH. cbn. destruct (str_of v "instrument_token") as [tok |]; [| done].
  destruct (decide (tok ∈ instruments)); [| done]. apply lookup_insert_ne. by intros ->.
Qed.

Lemma by_symbol_lookup data i l out : foldl (by_symbol data) out l !! i
  = match out !! i with
    | Some v => Some v
    | None => if decide (i ∈ l) then tag_key (replace_char "|" ":" i) <$> jget data (replace_char "|" ":" i)
              else None
    end.
Proof.
  revert out. induction l as [| x l IH]; intros out.
  { cbn [foldl]. rewrite decide_False by apply not_elem_of_nil. by destruct (out !! i). }
  cbn [foldl]. rewrite IH. unfold by_symbol. destruct (decide (x = i)) as [-> | Hne].
  - rewrite (decide_True (P := i ∈ i :: l)) by left. destruct (out !! i) as [v |] eqn:E; [by rewrite E |].
    destruct (jget data _) as [v |] eqn:G; [by rewrite lookup_insert_eq |]. rewrite E. by destruct (decide _).
  - assert (i ∈ x :: l <-> i ∈ l) as Hiff.
    { rewrite elem_of_cons. split; [intros [-> | ?]; done | by right]. }
    rewrite (decide_ext _ _ _ _ Hiff).
    destruct (out !! x); [done |]. destruct (jget data (replace_char "|" ":" x)); [| done].
    by rewrite lookup_insert_ne.
Qed.

(** The extraction keeps the instruments asked for and nothing else: for each the last entry that
    names its token, and failing that the one under its symbol form. *)
Lemma extract_data_map_spec body instruments data entries : jget body "data" = Some data ->
  as_object data = Some entries -> exists out, extract_data_map body instruments = Ok out
  /\ forall i, out !! i =
     if decide (i ∈ instruments) then
       match last (List.filter (named i) entries) with
       | Some (k, v) => Some (tag_key k v)
       | None => tag_key (replace_char "|" ":" i) <$> jget data (replace_char "|" ":" i)
       end
     else None.
Proof.
  intros Hb Ho. eexists. unfold extract_data_map. rewrite Hb, Ho. split; [done |]. intros i.
  rewrite by_symbol_lookup. destruct (decide (i ∈ instruments)) as [Hi | Hi].
  - rewrite by_token_lookup by done. destruct (last _) as [[k v] |]; [done |]. by rewrite lookup_empty.
  - by rewrite by_token_other, lookup_empty.
Qed.
End extraction.

(** *** Ticks *)

Lemma position_reads t : TickWire.tick_ok t -> tk_symbol t <> 0 ->
  TickWire.position_fields (TickWire.tick_to_raw_bytes t) = Some (tk_symbol t, ltp_paise t).
Proof.
  intros Hok Hs. unfold TickWire.position_fields.
  rewrite decide_False by (rewrite tick_length by done; unfold TickWire.TICK_WIRE_SIZE; lia).
  destruct (tick_slices t Hok) as (-> & -> & _). destruct Hok as (_ & Hsym & _ & Hltp & _).
  rewrite u32_le, i64_le by done. by destruct (Z.eqb_spec (tk_symbol t) 0).
Qed.

(** *** The open-interest ladder *)

Lemma ladder_perm spot strikes : exists rest, strikes ≡ₚ ladder spot strikes ++ rest
  /\ (rest = [] \/ (0 < spot /\ length (ladder spot strikes) = 11%nat))
  /\ forall x y, x ∈ ladder spot strikes -> y ∈ rest -> distance spot x <= distance spot y.
Proof.
  unfold ladder. set (all := sort_by (by_key strike_paise) strikes).
  destruct ((0 <? spot) && _) eqn:E.
  - apply andb_true_iff in E as [Es El]. apply Nat.ltb_lt in El.
    set (dist := sort_by (by_key (distance spot)) all). exists (drop 11 dist). split_and!.
    + rewrite sort_by_perm, take_drop. unfold dist, all. by rewrite !sort_by_perm.
    + right. split; [lia |]. rewrite (Permutation_length (sort_by_perm _ _)), length_take.
      unfold dist. rewrite (Permutation_length (sort_by_perm _ _)). lia.
    + intros x y Hx Hy. rewrite sort_by_perm in Hx.
      apply (StronglySorted_take_drop (by_key (distance spot)) 11 dist); [| done | done].
      apply sort_by_sorted; apply _.
  - exists []. split_and!; [| by left | by intros ? ? ? ?%elem_of_nil].
    rewrite app_nil_r. unfold all. by rewrite sort_by_perm.
Qed.

Lemma ladder_length spot strikes :
  length (ladder spot strikes) = if 0 <? spot then Nat.min 11 (length strikes) else length strikes.
Proof.
  assert (forall R' (l : list OpenInterestStrike) `{forall x y, Decision (R' x y)}, length (sort_by R' l) = length l)
    as Hl by (intros; apply Permutation_length, sort_by_perm).
  unfold ladder. destruct (0 <? spot); cbn [andb]; [| apply Hl].
  rewrite !Hl. destruct (Nat.ltb_spec 11 (length strikes)); rewrite Hl, ?length_take, ?Hl; lia.
Qed.

Lemma ladder_sorted spot strikes : StronglySorted (by_key strike_paise) (ladder spot strikes).
Proof. unfold ladder. destruct (_ && _); apply sort_by_sorted; apply _. Qed.

Lemma distance_exact spot s : Z.abs (strike_paise s) < 2 ^ 62 -> Z.abs spot < 2 ^ 62 ->
  distance spot s = Z.abs (strike_paise s - spot).
Proof. intros. unfold distance. rewrite (as_i64_id (strike_paise s - spot)), as_i64_id; unfold_ok; lia. Qed.
End FeedFacts.

(** C24: An outage of the vendor is announced on a logarithmic schedule and its end once. From a healthy
    state, when the price requests of [n] rounds fail and the next succeeds, the feed says
    disconnected at the failures 1, 2, 4, 8 and so on up to [n] and at no other, degraded up to the
    fifth and down from then on, says reconnected exactly once, and counts no failure any more; and
    the supervisor's detector reports one lost feed per announcement, of this source. *)
Theorem feed_outage_is_announced `{J : Json} {R : JsonRead}
  (respond : list UpstoxFeed.Event -> UpstoxFeed.FeedRequest -> result UpstoxFeed.FeedResponse string)
  (status_text : Z -> string) (instant wall : nat -> Z) (rfc3339 : nat -> string)
  (iter : gmap string Value -> list (string * Value)) (token : string)
  (interval : Z) (instruments : list string) (st : UpstoxFeed.LoopState) (n : nat) :
  let attempt := UpstoxFeed.ltp_attempt respond status_text instant token interval instruments in
  let run k := UpstoxFeed.run_ltp_loop respond status_text instant wall rfc3339 iter token interval instruments k st in
  UpstoxFeed.consecutive_errors st = 0 -> (0 < n)%nat -> Z.of_nat n <= u32_max ->
  (forall k, (k < n)%nat -> is_ok (attempt (run k)).1 = false) ->
  is_ok (attempt (run n)).1 = true ->
  let powers := Z.pow 2 <$> seqZ 0 (Z.log2 (Z.of_nat n) + 1) in
  exists cs,
    FeedFacts.connections (UpstoxFeed.trace (UpstoxFeed.loop_world (run (S n))))
      = FeedFacts.connections (UpstoxFeed.trace (UpstoxFeed.loop_world st)) ++ cs
    /\ FeedFacts.summary <$> cs = (FeedFacts.outage <$> powers) ++ [("reconnected", 0, "ok")]
    /\ UpstoxFeed.consecutive_errors (run (S n)) = 0
    /\ forall now, omap (fun c => Detector.classify_md_connection now (Some (FeedFacts.supervisor_view c))) cs
         = replicate (length powers) (mk_FailureEvent (FailureKind.WsDisconnected UpstoxFeed.SOURCE) now).
Proof.
  intros attempt run H0 Hn Hmax Hf Hok powers.
  destruct (FeedFacts.failing_rounds respond status_text instant wall rfc3339 iter token interval instruments
    st n H0 Hmax Hf) as (He & cs & Hs & Hc & Hsrc).
  destruct (FeedFacts.good_step respond status_text instant wall rfc3339 iter token interval instruments
    (run n) Hok) as (Hz & cs' & Hs' & Hc' & Hsrc').
  rewrite FeedFacts.told_upto_powers in Hc by done. fold powers in Hc.
  change (UpstoxFeed.consecutive_errors (run n) = Z.of_nat n) in He. rewrite He in Hc'. rewrite (proj2 (Z.gtb_lt _ _)) in Hc' by lia.
  assert (run (S n) = UpstoxFeed.ltp_step respond status_text instant wall rfc3339 iter token interval
    instruments (run n)) as -> by apply Nat.iter_succ.
  exists (cs ++ cs'). split_and!; [| by rewrite fmap_app, Hc, Hc' | done |].
  - rewrite Hs', app_assoc. f_equal. exact Hs.
  - intros now. rewrite omap_app. rewrite (FeedFacts.lost_feeds now cs powers), (FeedFacts.no_lost_feed now cs')
      by done. apply app_nil_r.
Qed.

(** C20: A price of whole paise survives the whole way: when the vendor quotes [z] hundredths of a rupee
    as the nearest binary64, the feed publishes the tick with [z] paise under the trading symbol and
    the instrument key, and for a symbol of the table the binary message, which the feature engine
    decodes to the same price at the same time and the position engine reads as the same symbol and
    price. *)
Theorem quoted_price_reaches_the_engines `{J : Json} (wall : nat -> Z) (w : UpstoxFeed.world)
  (key : string) (item : Value) (z : Z) :
  let symbol := UpstoxFeed.extract_trading_symbol item in
  let id := SymbolTable.symbol_id_for symbol in
  let ts := wall (UpstoxFeed.clock_readings w) in
  UpstoxFeed.quoted item = f64_div (f64_of_Z z) (f64_of_Z 100) -> Z.abs z < 2 ^ 49 ->
  0 <= ts <= i64_max -> id <> 0 ->
  exists bytes,
    UpstoxFeed.trace (UpstoxFeed.publish_tick wall w (key, item)) = UpstoxFeed.trace w ++
      [UpstoxFeed.Published ("md.tick." +:+ symbol) (UpstoxFeed.Tick symbol z z z ts);
       UpstoxFeed.Published (UpstoxFeed.isin_subject "md.tick." key) (UpstoxFeed.Tick symbol z z z ts);
       UpstoxFeed.Published ("md.tick.bin." +:+ symbol) (UpstoxFeed.BinaryTick bytes)]
    /\ TickWire.decode_tick bytes = Some (mk_Tick (replicate 16 0) id 0 z z z 0 0 0 ts ts)
    /\ TickWire.position_fields bytes = Some (id, z).
Proof.
  intros symbol id ts Hq Hz Hts Hid.
  pose proof (encode_tick_v1_spec symbol z z z ts Hid) as He.
  rewrite (as_u64_id ts) in He by (unfold_ok; lia). fold id in He.
  set (t := mk_Tick _ _ _ _ _ _ _ _ _ _ _) in He.
  assert (TickWire.tick_ok t) as Hok.
  { unfold TickWire.tick_ok, t. cbn.
    assert (u32_ok id) by (unfold id, SymbolTable.symbol_id_for; unfold_ok; repeat case_decide; lia).
    split_and!; try done; unfold_ok; lia. }
  exists (TickWire.tick_to_raw_bytes t). split_and!.
  - unfold UpstoxFeed.publish_tick. cbn [UpstoxFeed.read_wall].
    unfold UpstoxFeed.to_paise. rewrite Hq, f64_hundredth_and_back by done. fold symbol. fold ts.
    rewrite He. reflexivity.
  - by apply tick_decode.
  - by apply FeedFacts.position_reads.
Qed.

(** The open-interest ladder is the strikes nearest the market. It is in strike order and made of
    the vendor's strikes, each with its own interest, none twice; all of them when they are at most
    eleven or the spot price is unknown, else eleven, and then no strike left out is nearer the spot
    than one that is shown. *)
Theorem ladder_keeps_the_nearest (spot : Z) (strikes : list UpstoxFeed.OpenInterestStrike) :
  Z.abs spot < 2 ^ 62 -> Forall (fun s => Z.abs (UpstoxFeed.strike_paise s) < 2 ^ 62) strikes ->
  let shown := UpstoxFeed.ladder spot strikes in
  StronglySorted (by_key UpstoxFeed.strike_paise) shown
  /\ length shown = (if 0 <? spot then Nat.min 11 (length strikes) else length strikes)
  /\ exists hidden, strikes ≡ₚ shown ++ hidden
     /\ forall x y, x ∈ shown -> y ∈ hidden ->
        Z.abs (UpstoxFeed.strike_paise x - spot) <= Z.abs (UpstoxFeed.strike_paise y - spot).
Proof.
  intros Hs Hf shown. split; [apply FeedFacts.ladder_sorted |].
  split; [apply FeedFacts.ladder_length |].
  destruct (FeedFacts.ladder_perm spot strikes) as (hidden & Hp & _ & Hd). exists hidden. split; [done |].
  intros x y Hx Hy. specialize (Hd x y Hx Hy). fold shown in Hp. rewrite Hp, Forall_app, !Forall_forall in Hf.
  destruct Hf as [Hfx Hfy]. rewrite !FeedFacts.distance_exact in Hd by auto. done.
Qed.

(** ** Concrete documents *)

Module FeedSample.
Import UiSample.

Definition u64_of (v : jv) : option Z :=
  match v with JNum z => if 0 <=? z then Some z else None | _ => None end.
Fixpoint elems (v : jv) : list jv := match v with JElem x rest => x :: elems rest | _ => [] end.
Definition array_of (v : jv) : option (list jv) :=
  match v with JElem _ _ | JEnd => Some (elems v) | _ => None end.
Fixpoint fields (v : jv) : list (string * jv) :=
  match v with JField k x rest => (k, x) :: fields rest | _ => [] end.
Definition object_of (v : jv) : option (list (string * jv)) :=
  match v with JField _ _ _ | JEnd => Some (fields v) | _ => None end.
#[global] Instance json_read : @JsonRead json :=
  {| as_u64 := u64_of; as_array := array_of; as_object := object_of |}.

Definition item (price : Z) : Value :=
  JObj [("instrument_token", JStr "NSE_EQ|INE002A01018"); ("last_price", JNum price)].
Definition answer : Value := JObj [("data", JObj [("NSE_EQ:RELIANCE", item 2500)])].
(** The first eight requests fail. *)
Definition respond (done : list UpstoxFeed.Event) (_ : UpstoxFeed.FeedRequest)
  : result UpstoxFeed.FeedResponse string :=
  if (8 <=? length (List.filter (fun e => match e with UpstoxFeed.Asked _ => true | _ => false end) done))%nat
  then Ok (UpstoxFeed.mk_FeedResponse 200 EmptyString (Ok answer)) else Err "timeout".
Definition start : UpstoxFeed.LoopState := UpstoxFeed.mk_LoopState 0 0 (UpstoxFeed.mk_world [] 0).
Definition run : nat -> UpstoxFeed.LoopState :=
  fun k => UpstoxFeed.run_ltp_loop respond pretty Z.of_nat Z.of_nat (fun _ => "now") map_to_list "token" 500
    ["NSE_EQ|INE002A01018"] k start.
Definition strikes : list UpstoxFeed.OpenInterestStrike :=
  (fun k => UpstoxFeed.mk_Strike (100 * k) k k 0 0) <$> reverse (seqZ 1 20).
End FeedSample.

(** Eight failures and a success: told at 1, 2, 4 and 8. *)
Lemma feed_outage_is_announced_witness :
  FeedFacts.summary <$> FeedFacts.connections (UpstoxFeed.trace (UpstoxFeed.loop_world (FeedSample.run 9)))
  = [("disconnected", 1, "degraded"); ("disconnected", 2, "degraded"); ("disconnected", 4, "degraded");
     ("disconnected", 8, "down"); ("reconnected", 0, "ok")].
Proof.
  destruct (feed_outage_is_announced FeedSample.respond pretty Z.of_nat Z.of_nat (fun _ => "now") map_to_list
    "token" 500 ["NSE_EQ|INE002A01018"] FeedSample.start 8) as (cs & Hs & Hc & _).
  - reflexivity.
  - lia.
  - unfold u32_max. lia.
  - intros k Hk. do 8 (destruct k as [| k]; [vm_compute; reflexivity |]). lia.
  - vm_compute. reflexivity.
  - change (UpstoxFeed.run_ltp_loop FeedSample.respond pretty Z.of_nat Z.of_nat (fun _ => "now") map_to_list
      "token" 500 ["NSE_EQ|INE002A01018"] 9 FeedSample.start) with (FeedSample.run 9) in Hs.
    rewrite Hs. cbn [FeedSample.start UpstoxFeed.loop_world UpstoxFeed.trace FeedFacts.connections omap list_omap app].
    rewrite Hc. vm_compute. reflexivity.
Defined.

Lemma quoted_price_reaches_the_engines_witness :
  exists bytes,
  TickWire.position_fields bytes = Some (SymbolTable.symbol_id_for "RELIANCE", 250000).
Proof.
  destruct (quoted_price_reaches_the_engines Z.of_nat (UpstoxFeed.mk_world [] 7) "NSE_EQ|INE002A01018"
    (UpstoxFeed.tag_key "NSE_EQ:RELIANCE" (FeedSample.item 2500)) 250000) as (bytes & _ & _ & H);
    [vm_compute; reflexivity | lia | cbn; unfold i64_max; lia | discriminate |].
  exists bytes. exact H.
Defined.

(** Twenty strikes around a spot of 1000: the ladder is 500 to 1500. *)
Lemma ladder_keeps_the_nearest_witness :
  StronglySorted (by_key UpstoxFeed.strike_paise) (UpstoxFeed.ladder 1000 FeedSample.strikes)
  /\ UpstoxFeed.strike_paise <$> UpstoxFeed.ladder 1000 FeedSample.strikes = Z.mul 100 <$> seqZ 5 11.
Proof.
  split; [| vm_compute; reflexivity].
  refine (proj1 (ladder_keeps_the_nearest 1000 FeedSample.strikes _ _)); [lia |].
  repeat constructor.
Defined.
