(* ===== verification/Bus.v ===== *)
(** The message bus (hedge-bus): the subject names and their domains (subject.rs), the codecs
    (codec.rs), the errors (error.rs), the typed publisher and subscriber (nats.rs) and the stream
    producer and consumer (redis_stream.rs) over the servers, which are parameters. *)

From S2P Require Import Prelude Core.
From Stdlib Require Import Ascii.

(** ** Subjects *)

Module SubjectDomain.
Inductive t : Type :=
| MarketData | Orderflow | Features | Signals | Risk | Exec | Positions | Ai | Memory
| TraderIntent | Ops | Observability.

#[global] Instance t_eq_dec : EqDecision t.
Proof. solve_decision. Defined.

Definition prefix (d : t) : string :=
  match d with
  | MarketData => "md" | Orderflow => "of" | Features => "feat" | Signals => "sig" | Risk => "risk"
  | Exec => "exec" | Positions => "pos" | Ai => "ai" | Memory => "mem" | TraderIntent => "trader"
  | Ops => "ops" | Observability => "obs"
  end.

(** [subject.split('.').next()]: what stands before the first dot. *)
Fixpoint first_segment (s : string) : string :=
  match s with
  | EmptyString => EmptyString
  | String c rest => if Ascii.eqb c "." then EmptyString else String c (first_segment rest)
  end.

Definition of_head (head : string) : option t :=
  if decide (head = "md") then Some MarketData
  else if decide (head = "of") then Some Orderflow
  else if decide (head = "feat") then Some Features
  else if decide (head = "sig") then Some Signals
  else if decide (head = "risk") then Some Risk
  else if decide (head = "exec") then Some Exec
  else if decide (head = "pos") then Some Positions
  else if decide (head = "ai") then Some Ai
  else if decide (head = "mem") then Some Memory
  else if decide (head = "trader") then Some TraderIntent
  else if decide (head = "ops") then Some Ops
  else if decide (head = "obs") then Some Observability
  else None.
Definition classify (subject : string) : option t := of_head (first_segment subject).
End SubjectDomain.

Module Subjects.
Definition MD_TICK := "md.tick".
Definition MD_BOOK := "md.book".
Definition MD_OI := "md.oi".
Definition MD_BREADTH_SECTOR := "md.breadth.sector".
Definition MD_BREADTH_VOL := "md.breadth.volatility".
Definition MD_CONNECTION := "md.connection".
Definition OF_EVENT := "of.event".
Definition OF_HEATMAP := "of.heatmap".
Definition FEAT_UPDATE := "feat.update".
Definition SIG_EMITTED := "sig.emitted".
Definition RISK_DECISION_APPROVED := "risk.decision.approved".
Definition RISK_DECISION_REJECTED := "risk.decision.rejected".
Definition RISK_KILLSWITCH_ACTIVATED := "risk.killswitch.activated".
Definition RISK_TARGET_REACHED := "risk.target.reached".
Definition RISK_COOLDOWN := "risk.cooldown".
Definition EXEC_ORDER := "exec.order".
Definition EXEC_FILL := "exec.fill".
Definition EXEC_BROKER_FAILOVER := "exec.broker.failover".
Definition EXEC_TRADE_CLOSED := "exec.trade.closed".
Definition POS_UPDATE := "pos.update".
Definition POS_RISK_STATE := "pos.risk_state".
Definition AI_RANK := "ai.rank".
Definition AI_NEWS_IMPACT := "ai.news.impact".
Definition AI_REGIME_CHANGED := "ai.regime.changed".
Definition AI_PSYCH_STABILITY := "ai.psych.stability".
Definition AI_PSYCH_INTERVENTION := "ai.psych.intervention".
Definition AI_PRIORITY_CHANGED := "ai.priority.changed".
Definition AI_JOURNAL_ENTRY := "ai.journal.entry".
Definition AI_GOV_ACTION := "ai.gov.action".
Definition AI_OLLAMA_DEGRADED := "ai.ollama.degraded".
Definition MEM_PREV_DAY := "mem.prev_day".
Definition TRADER_INTENT_KILLSWITCH := "trader.intent.killswitch".
Definition TRADER_INTENT_STRATEGY_TOGGLE := "trader.intent.strategy_toggle".
Definition TRADER_INTENT_PRIORITY := "trader.intent.priority".
Definition TRADER_INTENT_ORDER := "trader.intent.order".
Definition TRADER_INTENT_TRADING_MODE := "trader.intent.trading_mode".
Definition OPS_SESSION_START := "ops.session.start".
Definition OPS_SESSION_END := "ops.session.end".
Definition OPS_WARMODE_START := "ops.warmode.start".
Definition OPS_WARMODE_END := "ops.warmode.end".
Definition OPS_ACTION := "ops.action".
Definition OBS_LATENCY := "obs.latency".
Definition OBS_BUDGET_BREACH := "obs.budget.breach".
Definition OBS_ERROR := "obs.error".

(** [format!("{}.{}", base, segment)], with a symbol and with a text. *)
Definition dotted (base segment : string) : string := base +:+ "." +:+ segment.
Definition for_symbol (base : string) (sym : Z) : string := dotted base (pretty sym).

Definition md_tick := for_symbol MD_TICK.
Definition md_book := for_symbol MD_BOOK.
Definition md_oi := for_symbol MD_OI.
Definition md_connection := dotted MD_CONNECTION.
Definition of_event := for_symbol OF_EVENT.
Definition of_heatmap := for_symbol OF_HEATMAP.
Definition feat_update := for_symbol FEAT_UPDATE.
Definition risk_cooldown := for_symbol RISK_COOLDOWN.
Definition exec_order := dotted EXEC_ORDER.
Definition exec_fill := for_symbol EXEC_FILL.
Definition pos_update := for_symbol POS_UPDATE.
Definition ai_rank := dotted AI_RANK.
Definition ai_news_impact := for_symbol AI_NEWS_IMPACT.
Definition ai_priority_changed := for_symbol AI_PRIORITY_CHANGED.
Definition mem_prev_day := for_symbol MEM_PREV_DAY.
Definition ops_action := dotted OPS_ACTION.
Definition obs_latency := dotted OBS_LATENCY.
Definition obs_budget_breach := dotted OBS_BUDGET_BREACH.
Definition obs_error := dotted OBS_ERROR.

(** Every way to name a subject: the names without a parameter and the constructors. *)
Inductive topic : Type :=
| MdTick (sym : Z) | MdBook (sym : Z) | MdOi (sym : Z) | MdBreadthSector | MdBreadthVol
| MdConnection (source : string) | OfEvent (sym : Z) | OfHeatmap (sym : Z) | FeatUpdate (sym : Z)
| SigEmitted | RiskDecisionApproved | RiskDecisionRejected | RiskKillswitchActivated
| RiskTargetReached | RiskCooldown (sym : Z) | ExecOrder (state : string) | ExecFill (sym : Z)
| ExecBrokerFailover | ExecTradeClosed | PosUpdate (sym : Z) | PosRiskState
| AiRank (correlation_id_hex : string) | AiNewsImpact (sym : Z) | AiRegimeChanged | AiPsychStability
| AiPsychIntervention | AiPriorityChanged (sym : Z) | AiJournalEntry | AiGovAction | AiOllamaDegraded
| MemPrevDay (sym : Z) | TraderIntentKillswitch | TraderIntentStrategyToggle | TraderIntentPriority
| TraderIntentOrder | TraderIntentTradingMode | OpsSessionStart | OpsSessionEnd | OpsWarmodeStart
| OpsWarmodeEnd | OpsAction (target : string) | ObsLatency (stage : string)
| ObsBudgetBreach (stage : string) | ObsError (source : string).

Definition name_of (t : topic) : string :=
  match t with
  | MdTick s => md_tick s | MdBook s => md_book s | MdOi s => md_oi s
  | MdBreadthSector => MD_BREADTH_SECTOR | MdBreadthVol => MD_BREADTH_VOL
  | MdConnection s => md_connection s | OfEvent s => of_event s | OfHeatmap s => of_heatmap s
  | FeatUpdate s => feat_update s | SigEmitted => SIG_EMITTED
  | RiskDecisionApproved => RISK_DECISION_APPROVED | RiskDecisionRejected => RISK_DECISION_REJECTED
  | RiskKillswitchActivated => RISK_KILLSWITCH_ACTIVATED | RiskTargetReached => RISK_TARGET_REACHED
  | RiskCooldown s => risk_cooldown s | ExecOrder s => exec_order s | ExecFill s => exec_fill s
  | ExecBrokerFailover => EXEC_BROKER_FAILOVER | ExecTradeClosed => EXEC_TRADE_CLOSED
  | PosUpdate s => pos_update s | PosRiskState => POS_RISK_STATE | AiRank s => ai_rank s
  | AiNewsImpact s => ai_news_impact s | AiRegimeChanged => AI_REGIME_CHANGED
  | AiPsychStability => AI_PSYCH_STABILITY | AiPsychIntervention => AI_PSYCH_INTERVENTION
  | AiPriorityChanged s => ai_priority_changed s | AiJournalEntry => AI_JOURNAL_ENTRY
  | AiGovAction => AI_GOV_ACTION | AiOllamaDegraded => AI_OLLAMA_DEGRADED
  | MemPrevDay s => mem_prev_day s | TraderIntentKillswitch => TRADER_INTENT_KILLSWITCH
  | TraderIntentStrategyToggle => TRADER_INTENT_STRATEGY_TOGGLE
  | TraderIntentPriority => TRADER_INTENT_PRIORITY | TraderIntentOrder => TRADER_INTENT_ORDER
  | TraderIntentTradingMode => TRADER_INTENT_TRADING_MODE | OpsSessionStart => OPS_SESSION_START
  | OpsSessionEnd => OPS_SESSION_END | OpsWarmodeStart => OPS_WARMODE_START
  | OpsWarmodeEnd => OPS_WARMODE_END | OpsAction s => ops_action s | ObsLatency s => obs_latency s
  | ObsBudgetBreach s => obs_budget_breach s | ObsError s => obs_error s
  end.

(** The component that owns a subject. *)
Definition domain_of (t : topic) : SubjectDomain.t :=
  match t with
  | MdTick _ | MdBook _ | MdOi _ | MdBreadthSector | MdBreadthVol | MdConnection _ => SubjectDomain.MarketData
  | OfEvent _ | OfHeatmap _ => SubjectDomain.Orderflow
  | FeatUpdate _ => SubjectDomain.Features
  | SigEmitted => SubjectDomain.Signals
  | RiskDecisionApproved | RiskDecisionRejected | RiskKillswitchActivated | RiskTargetReached
  | RiskCooldown _ => SubjectDomain.Risk
  | ExecOrder _ | ExecFill _ | ExecBrokerFailover | ExecTradeClosed => SubjectDomain.Exec
  | PosUpdate _ | PosRiskState => SubjectDomain.Positions
  | AiRank _ | AiNewsImpact _ | AiRegimeChanged | AiPsychStability | AiPsychIntervention
  | AiPriorityChanged _ | AiJournalEntry | AiGovAction | AiOllamaDegraded => SubjectDomain.Ai
  | MemPrevDay _ => SubjectDomain.Memory
  | TraderIntentKillswitch | TraderIntentStrategyToggle | TraderIntentPriority | TraderIntentOrder
  | TraderIntentTradingMode => SubjectDomain.TraderIntent
  | OpsSessionStart | OpsSessionEnd | OpsWarmodeStart | OpsWarmodeEnd | OpsAction _ => SubjectDomain.Ops
  | ObsLatency _ | ObsBudgetBreach _ | ObsError _ => SubjectDomain.Observability
  end.

Lemma classify_name t : SubjectDomain.classify (name_of t) = Some (domain_of t).
Proof. by destruct t. Qed.

Lemma name_of_inj t1 t2 : name_of t1 = name_of t2 -> t1 = t2.
Proof.
  destruct t1, t2; intros H; cbn in H; try discriminate H; try reflexivity; f_equal.
  all: repeat (injection H as H); try exact H; by apply (inj pretty).
Qed.
End Subjects.

(** ** Errors and codecs *)

Inductive BusError (E : Type) : Type :=
| NatsConnect (message : string)
| NatsPublish (subject message : string)
| NatsSubscribe (subject message : string)
| Redis (stream : string) (source : E)
| Encode (message : string)
| Decode (message : string)
| MalformedEntry (id : string) (reason : string)
| SubscriptionClosed (subject : string).
Arguments NatsConnect {E} message.
Arguments NatsPublish {E} subject message.
Arguments NatsSubscribe {E} subject message.
Arguments Redis {E} stream source.
Arguments Encode {E} message.
Arguments Decode {E} message.
Arguments MalformedEntry {E} id reason.
Arguments SubscriptionClosed {E} subject.

(** [trait Codec<T>]; [E] is the error of the Redis client. *)
Class Codec (E T : Type) := {
  encode : T -> result (list Z) (BusError E);
  decode : list Z -> result T (BusError E);
}.
(** What a codec promises: it reads what it writes. *)
Class LawfulCodec {E T} (C : Codec E T) : Prop :=
  decode_encode v bytes : encode v = Ok bytes -> decode bytes = Ok v.

(** [JsonCodec], over the serializer of its payload. *)
Definition JsonCodec {E T} (to_vec : T -> result (list Z) string) (from_slice : list Z -> result T string)
  : Codec E T :=
  {| encode v := map_err Encode (to_vec v); decode bytes := map_err Decode (from_slice bytes) |}.

(** [FlatBuffersCodec] on [RawBytes]: the bytes as they are. *)
Definition FlatBuffersCodec (E : Type) : Codec E (list Z) :=
  {| encode v := Ok v; decode bytes := Ok bytes |}.

#[global] Instance flatbuffers_lawful E : LawfulCodec (FlatBuffersCodec E).
Proof. intros v bytes [= ->]. done. Qed.

Lemma json_lawful {E T} (to_vec : T -> result (list Z) string) from_slice :
  (forall v bytes, to_vec v = Ok bytes -> from_slice bytes = Ok v) ->
  LawfulCodec (JsonCodec (E := E) to_vec from_slice).
Proof.
  intros H v bytes. cbn. destruct (to_vec v) as [b |] eqn:Ev; [| done]. intros [= <-]. by rewrite (H v b).
Qed.

(** ** Publisher and subscriber (nats.rs) *)

(** The connection: the answer to a publication, and the next message of a subscription. *)
Class Nats (W : Type) := {
  nats_publish : string -> list Z -> W -> result unit string * W;
  nats_next : string -> W -> option (list Z) * W;
}.

Module NatsBus.
Section nats.
Context {E T W : Type} {C : Codec E T} `{Nats W}.

Definition publish_bytes (subject : string) (payload : list Z) : SE W (BusError E) unit := fun w =>
  let '(r, w) := nats_publish subject payload w in
  (map_err (NatsPublish subject) r, w).
Definition publish (subject : string) (value : T) : SE W (BusError E) unit := fun w =>
  match encode value with
  | Ok payload => publish_bytes subject payload w
  | Err e => (Err e, w)
  end.
Definition recv_bytes (subject : string) : SE W (BusError E) (list Z) := fun w =>
  let '(msg, w) := nats_next subject w in
  (ok_or (SubscriptionClosed subject) msg, w).
Definition recv (subject : string) : SE W (BusError E) T :=
  se_bind (recv_bytes subject) (fun bytes => se_lift (decode bytes)).
End nats.
End NatsBus.

(** ** Streams (redis_stream.rs) *)

(** The connection: the value of a field, and the four commands used. A read answers with
    the entries of each stream, in order; an entry has its fields by name. *)
Class Streams (E : Type) := {
  Conn : Type;
  RedisValue : Type;
  from_redis_value : RedisValue -> option (list Z);
  error_text : E -> string;
  xadd : string -> string -> list Z -> Conn -> result string E * Conn;
  xgroup_create_mkstream : string -> string -> Conn -> result unit E * Conn;
  xread_new : string -> string -> string -> Z -> Z -> Conn
    -> result (list (string * list (string * gmap string RedisValue))) E * Conn;
  xack : string -> string -> string -> Conn -> result Z E * Conn;
}.

Module RedisStream.
Definition STREAM_HOT_SIGNALS := "hedge.hot.signals".
Definition STREAM_HOT_APPROVALS := "hedge.hot.approvals".
Definition STREAM_HOT_FILLS := "hedge.hot.fills".
Definition STREAM_HOT_REPLAY_RECORD := "hedge.hot.replay_record".
Definition PAYLOAD_FIELD := "payload".

Record StreamEntry (T : Type) := mk_StreamEntry { se_id : string; se_payload : T }.
Arguments mk_StreamEntry {T} se_id se_payload.
Arguments se_id {T} s.
Arguments se_payload {T} s.

(** [str::contains]. *)
Fixpoint contains (p s : string) : bool :=
  String.prefix p s || match s with EmptyString => false | String _ rest => contains p rest end.

Section streams.
Context {E T : Type} `{Streams E} {C : Codec E T}.

Definition xadd_bytes (stream : string) (payload : list Z) : SE Conn (BusError E) string := fun c =>
  let '(r, c) := xadd stream PAYLOAD_FIELD payload c in
  (map_err (Redis stream) r, c).
Definition xadd_value (stream : string) (value : T) : SE Conn (BusError E) string := fun c =>
  match encode value with
  | Ok payload => xadd_bytes stream payload c
  | Err e => (Err e, c)
  end.

(** A group that exists is what is wanted. *)
Definition ensure_group (stream group : string) : SE Conn (BusError E) unit := fun c =>
  let '(r, c) := xgroup_create_mkstream stream group c in
  (match r with
   | Ok _ => Ok tt
   | Err e => if contains "BUSYGROUP" (error_text e) then Ok tt else Err (Redis stream e)
   end, c).

Definition read_entry (entry : string * gmap string RedisValue) : result (StreamEntry T) (BusError E) :=
  let '(id, fields) := entry in
  match fields !! PAYLOAD_FIELD with
  | None => Err (MalformedEntry id "missing `payload` field")
  | Some raw =>
    match from_redis_value raw with
    | None => Err (MalformedEntry id "non-binary `payload` field")
    | Some bytes =>
      match decode bytes with
      | Ok payload => Ok (mk_StreamEntry id payload)
      | Err e => Err e
      end
    end
  end.

Fixpoint read_entries (l : list (string * gmap string RedisValue))
  : result (list (StreamEntry T)) (BusError E) :=
  match l with
  | [] => Ok []
  | entry :: l =>
    match read_entry entry with
    | Err e => Err e
    | Ok x => match read_entries l with Ok xs => Ok (x :: xs) | Err e => Err e end
    end
  end.

Definition next_batch (stream group consumer : string) (block_ms max_count : Z)
  : SE Conn (BusError E) (list (StreamEntry T)) := fun c =>
  let '(r, c) := xread_new stream group consumer block_ms max_count c in
  (match r with
   | Err e => Err (Redis stream e)
   | Ok keys => read_entries (List.concat keys.*2)
   end, c).

Definition ack (stream group entry_id : string) : SE Conn (BusError E) unit := fun c =>
  let '(r, c) := xack stream group entry_id c in
  (match r with Ok _ => Ok tt | Err e => Err (Redis stream e) end, c).

(** ** Facts *)

Lemma read_entries_spec l : match read_entries l with
  | Ok xs => Forall2 (fun entry x => read_entry entry = Ok x) l xs
  | Err e => exists before bad after, l = before ++ bad :: after
      /\ Forall (fun entry => is_ok (read_entry entry) = true) before /\ read_entry bad = Err e
  end.
Proof.
  induction l as [| entry l IH]; [constructor |]. cbn. destruct (read_entry entry) as [x | e] eqn:He.
  - destruct (read_entries l) as [xs | e]; [by constructor |].
    destruct IH as (before & bad & after & -> & Hb & Hbad). exists (entry :: before), bad, after.
    split_and!; [done | constructor; [by rewrite He | done] | done].
  - exists [], entry, l. by split_and!.
Qed.

(** An entry written by a producer is read back. *)
Lemma read_written (L : LawfulCodec C) id fields raw bytes value : encode value = Ok bytes ->
  fields !! PAYLOAD_FIELD = Some raw -> from_redis_value raw = Some bytes ->
  read_entry (id, fields) = Ok (mk_StreamEntry id value).
Proof. intros He Hf Hr. unfold read_entry. by rewrite Hf, Hr, (decode_encode value bytes He). Qed.
End streams.
End RedisStream.

(** Subject names are unambiguous. Every name a constructor or a constant makes is classified to the
    component that owns it, whatever its parameter (dots included), and two ways to name a subject
    give the same text only when they are the same constructor with the same parameter: no message
    for one symbol, stage, state or source can arrive under the name of another. *)
Theorem subjects_never_collide (t1 t2 : Subjects.topic) :
  SubjectDomain.classify (Subjects.name_of t1) = Some (Subjects.domain_of t1)
  /\ (Subjects.name_of t1 = Subjects.name_of t2 <-> t1 = t2).
Proof.
  split; [apply Subjects.classify_name |]. split; [apply Subjects.name_of_inj | by intros ->].
Qed.

(** A batch is all or nothing, and one bad entry costs the entries around it. A batch of written
    entries is returned whole, in order, each with its identifier and its value; and when any entry
    cannot be read the call fails with the error of the first such entry, so the values before and
    after it, which the server counts as delivered, are lost to the caller. *)
Theorem batch_is_all_or_nothing {E T : Type} `{S : Streams E} (C : Codec E T) (L : LawfulCodec C)
  (stream group consumer : string) (block_ms max_count : Z) (c c' : Conn)
  (keys : list (string * list (string * gmap string RedisValue))) (values : list (string * T)) :
  xread_new stream group consumer block_ms max_count c = (Ok keys, c') ->
  let batch := RedisStream.next_batch (C := C) stream group consumer block_ms max_count c in
  let written entry (v : string * T) := entry.1 = v.1
    /\ exists raw bytes, entry.2 !! RedisStream.PAYLOAD_FIELD = Some raw
       /\ from_redis_value raw = Some bytes /\ encode v.2 = Ok bytes in
  (Forall2 written (List.concat keys.*2) values ->
     batch = (Ok ((fun v => RedisStream.mk_StreamEntry v.1 v.2) <$> values), c'))
  /\ (forall id fields, (id, fields) ∈ List.concat keys.*2 -> fields !! RedisStream.PAYLOAD_FIELD = None ->
      is_ok batch.1 = false).
Proof.
  intros Hr. cbv zeta. unfold RedisStream.next_batch. rewrite Hr.
  set (entries := List.concat keys.*2). split.
  - intros Hw. f_equal.
    assert (RedisStream.read_entries entries = Ok ((fun v => RedisStream.mk_StreamEntry v.1 v.2) <$> values))
      as ->; [| done].
    induction Hw as [| [id fields] [id' v] entries' values' (Hid & raw & bytes & Hf & Hb & He) Hw IH]; [done |].
    cbn in Hid, Hf, He. subst id'. cbn [RedisStream.read_entries].
    rewrite (RedisStream.read_written L id fields raw bytes v He Hf Hb), IH. done.
  - intros id fields Hin Hn. pose proof (RedisStream.read_entries_spec (C := C) entries) as Hs. cbn.
    destruct (RedisStream.read_entries entries) as [xs |]; [| done].
    apply list_elem_of_lookup in Hin as [i Hi]. destruct (Forall2_lookup_l _ _ _ _ _ Hs Hi) as (x & _ & Hx).
    unfold RedisStream.read_entry in Hx. by rewrite Hn in Hx.
Qed.

(** A server that answers every read with what it holds. *)
Module BusSample.
#[global] Instance streams : Streams string :=
  {| Conn := list (string * gmap string (list Z)); RedisValue := list Z; from_redis_value := Some;
     error_text := id;
     xadd := fun _ field payload c => (Ok "1-0", c ++ [("1-0", {[ field := payload ]})]);
     xgroup_create_mkstream := fun _ _ c => (Err "BUSYGROUP Consumer Group name already exists", c);
     xread_new := fun stream _ _ _ _ c => (Ok [(stream, c)], []);
     xack := fun _ _ _ c => (Ok 1, c) |}.
Definition raw := FlatBuffersCodec string.
Definition written : Conn :=
  ((RedisStream.xadd_value (C := raw) RedisStream.STREAM_HOT_FILLS [1; 2]) []).2.
End BusSample.

Lemma batch_is_all_or_nothing_witness :
  (RedisStream.next_batch (C := BusSample.raw) RedisStream.STREAM_HOT_FILLS "position" "p1" 100 10
     BusSample.written).1 = Ok [RedisStream.mk_StreamEntry "1-0" [1; 2]].
Proof.
  destruct (batch_is_all_or_nothing BusSample.raw _ RedisStream.STREAM_HOT_FILLS "position" "p1" 100 10
    BusSample.written [] [(RedisStream.STREAM_HOT_FILLS, BusSample.written)] [("1-0", [1; 2])] eq_refl)
    as [H _].
  rewrite H; [reflexivity |]. constructor; [| constructor].
  split; [reflexivity |]. exists [1; 2], [1; 2]. split_and!; reflexivity.
Defined.

Example existing_group_is_success :
  (RedisStream.ensure_group RedisStream.STREAM_HOT_FILLS "position" BusSample.written).1 = Ok tt.
Proof. reflexivity. Qed.
