(* ===== verification/Observability.v ===== *)
(** The observability library (hedge-obs): the bounded log buffer and the degraded flags
    (degraded.rs), the latency tracer with its recorder and its bus emitter (tracer.rs, with the
    bounded rings of hedge-core/src/ring.rs), and the text form of a correlation identifier
    (correlation.rs). *)

From S2P Require Import Prelude Bytes Core Schemas Bus Supervisor.
From Stdlib Require Import Ascii.

(** ** Degraded flags *)

Module DegradedState.
Record t := mk { loki_unavailable : bool; jaeger_overloaded : bool }.
Definition new : t := mk false false.
Definition set_loki_unavailable (value : bool) (s : t) : t := mk value (jaeger_overloaded s).
Definition set_jaeger_overloaded (value : bool) (s : t) : t := mk (loki_unavailable s) value.
End DegradedState.

(** ** Bounded log buffer *)

Module BoundedRingLogBuffer.
Section buffer.
Context {T : Type}.

Record t := mk { buf : list (option T); head : nat; len : nat; capacity : nat }.

(** [None] is the panic of a zero capacity. *)
Definition new (n : nat) : option t :=
  if (n =? 0)%nat then None else Some (mk (replicate n None) 0 0 n).
Definition is_empty (b : t) : bool := (len b =? 0)%nat.
Definition is_full (b : t) : bool := (len b =? capacity b)%nat.

(** The slot [i]; its content is taken out. *)
Definition slot (b : t) (i : nat) : option T := mjoin (buf b !! i).

Definition push (value : T) (b : t) : option T * t :=
  if (len b =? capacity b)%nat then
    (slot b (head b), mk (<[head b := Some value]> (buf b)) ((head b + 1) mod capacity b) (len b) (capacity b))
  else
    (None, mk (<[(head b + len b) mod capacity b := Some value]> (buf b)) (head b) (len b + 1) (capacity b))%nat.

Fixpoint drain_slots (i n : nat) (b : t) : list T * t :=
  match n with
  | O => ([], b)
  | S n =>
    let idx := ((head b + i) mod capacity b)%nat in
    let v := slot b idx in
    let '(out, b) := drain_slots (S i) n (mk (<[idx := None]> (buf b)) (head b) (len b) (capacity b)) in
    (option_list v ++ out, b)
  end.
Definition drain (b : t) : list T * t :=
  let '(out, b) := drain_slots 0 (len b) b in
  (out, mk (buf b) 0 0 (capacity b)).

(** ** Specification: a queue of at most [capacity] values *)

Definition contents (b : t) : list T :=
  omap (fun i => slot b ((head b + i) mod capacity b)) (seq 0 (len b)).

Inductive op := Push (value : T) | Drain.
Inductive answer := Displaced (old : option T) | Drained (values : list T).

Definition step (b : t) (o : op) : answer * t :=
  match o with
  | Push v => let '(d, b) := push v b in (Displaced d, b)
  | Drain => let '(l, b) := drain b in (Drained l, b)
  end.
Definition spec_step (cap : nat) (q : list T) (o : op) : answer * list T :=
  match o with
  | Push v => if (length q =? cap)%nat then (Displaced (list.head q), tail q ++ [v]) else (Displaced None, q ++ [v])
  | Drain => (Drained q, [])
  end.

Fixpoint run (b : t) (ops : list op) : list answer * t :=
  match ops with
  | [] => ([], b)
  | o :: ops => let '(a, b) := step b o in let '(l, b) := run b ops in (a :: l, b)
  end.
Fixpoint spec_run (cap : nat) (q : list T) (ops : list op) : list answer * list T :=
  match ops with
  | [] => ([], q)
  | o :: ops => let '(a, q) := spec_step cap q o in let '(l, q) := spec_run cap q ops in (a :: l, q)
  end.

(** The buffer that holds the queue [q]. *)
Record holds (b : t) (q : list T) : Prop := {
  holds_capacity : (0 < capacity b)%nat;
  holds_buf : length (buf b) = capacity b;
  holds_head : (head b < capacity b)%nat;
  holds_len : len b = length q;
  holds_bound : (length q <= capacity b)%nat;
  holds_slots i v : q !! i = Some v -> buf b !! ((head b + i) mod capacity b)%nat = Some (Some v);
}.

Lemma mod_apart a b c : (a < b)%nat -> (b < a + c)%nat -> (a mod c <> b mod c)%nat.
Proof.
  intros Hab Hbc He. assert (c <> 0)%nat as Hc by lia.
  pose proof (Nat.div_mod_eq a c) as Ha. pose proof (Nat.div_mod_eq b c) as Hb.
  destruct (Nat.le_gt_cases (b / c) (a / c)) as [H | H]; [nia |].
  assert (c * (a / c + 1) <= c * (b / c))%nat by (apply Nat.mul_le_mono_l; lia). lia.
Qed.

Lemma holds_new n b : new n = Some b -> holds b [] /\ capacity b = n.
Proof.
  unfold new. destruct (Nat.eqb_spec n 0); [done |]. intros [= <-]. split; [| done].
  split; cbn; rewrite ?length_replicate; try lia; done.
Qed.

Lemma push_holds b q v : holds b q ->
  let '(d, b') := push v b in
  let '(a, q') := spec_step (capacity b) q (Push v) in
  Displaced d = a /\ holds b' q' /\ capacity b' = capacity b.
Proof.
  intros [Hc Hb Hh Hl Hq Hs]. unfold push, spec_step. rewrite Hl.
  destruct (Nat.eqb_spec (length q) (capacity b)) as [Hfull | Hroom].
  - destruct q as [| x q]; [cbn in Hfull; lia |]. cbn in Hfull.
    assert (buf b !! head b = Some (Some x)) as Hx.
    { specialize (Hs 0%nat x eq_refl). rewrite Nat.add_0_r, Nat.mod_small in Hs by done. done. }
    split_and!; [unfold slot; by rewrite Hx | | done]. split; cbn.
    + done.
    + by rewrite length_insert.
    + apply Nat.mod_upper_bound. lia.
    + rewrite length_app. cbn. lia.
    + rewrite length_app. cbn. lia.
    + intros i w Hi. rewrite Nat.Div0.add_mod_idemp_l.
      destruct (decide (i = length q)) as [-> | Hne].
      * rewrite lookup_app_r, Nat.sub_diag in Hi by lia. injection Hi as ->.
        replace (head b + 1 + length q)%nat with (head b + 1 * capacity b)%nat by lia.
        rewrite Nat.Div0.mod_add, Nat.mod_small by done. apply list_lookup_insert_eq. lia.
      * assert (i < length q)%nat as Hlt.
        { apply lookup_lt_Some in Hi. rewrite length_app in Hi. cbn in Hi. lia. }
        rewrite lookup_app_l in Hi by done. rewrite list_lookup_insert_ne.
        -- replace (head b + 1 + i)%nat with (head b + S i)%nat by lia. by apply Hs.
        -- rewrite <- (Nat.mod_small (head b) (capacity b)) at 1 by done. apply mod_apart; lia.
  - split_and!; [done | | done]. split; cbn.
    + done.
    + by rewrite length_insert.
    + done.
    + rewrite length_app. cbn. lia.
    + rewrite length_app. cbn. lia.
    + intros i w Hi. destruct (decide (i = length q)) as [-> | Hne].
      * rewrite lookup_app_r, Nat.sub_diag in Hi by lia. injection Hi as ->.
        apply list_lookup_insert_eq. rewrite Hb. apply Nat.mod_upper_bound. lia.
      * assert (i < length q)%nat as Hlt.
        { apply lookup_lt_Some in Hi. rewrite length_app in Hi. cbn in Hi. lia. }
        rewrite lookup_app_l in Hi by done. rewrite list_lookup_insert_ne; [by apply Hs |].
        apply not_eq_sym, mod_apart; lia.
Qed.

(** Draining takes the slots out one by one; those still to come are untouched. *)
Lemma drain_slots_spec q : forall i b, (0 < capacity b)%nat -> (i + length q <= capacity b)%nat ->
  (forall j v, q !! j = Some v -> buf b !! ((head b + (i + j)) mod capacity b)%nat = Some (Some v)) ->
  exists b', drain_slots i (length q) b = (q, b')
    /\ length (buf b') = length (buf b) /\ capacity b' = capacity b.
Proof.
  induction q as [| x q IH]; intros i b Hc Hi Hs; [by exists b |].
  cbn [length drain_slots]. cbn [length] in Hi.
  pose proof (Hs 0%nat x eq_refl) as Hx. rewrite Nat.add_0_r in Hx.
  set (idx := ((head b + i) mod capacity b)%nat) in *.
  destruct (IH (S i) (mk (<[idx:=None]> (buf b)) (head b) (len b) (capacity b))) as (b' & Hd & Hl & Hcap);
    [done | cbn; lia | |].
  - intros j v Hj. cbn. rewrite list_lookup_insert_ne.
    + replace (S (i + j))%nat with (i + S j)%nat by lia. by apply Hs.
    + apply lookup_lt_Some in Hj. apply mod_apart; lia.
  - rewrite Hd. exists b'. split_and!; [| by rewrite Hl; cbn; rewrite length_insert | done].
    unfold slot. by rewrite Hx.
Qed.

Lemma drain_holds b q : holds b q ->
  let '(l, b') := drain b in l = q /\ holds b' [] /\ capacity b' = capacity b.
Proof.
  intros [Hc Hb Hh Hl Hq Hs]. unfold drain. rewrite Hl.
  destruct (drain_slots_spec q 0 b Hc Hq Hs) as (b' & Hd & Hlen & Hcap). rewrite Hd.
  split_and!; [done | | done]. split; cbn; try lia; done.
Qed.

Lemma holds_contents b q : holds b q -> contents b = q.
Proof.
  intros [Hc Hb Hh Hl Hq Hs]. unfold contents. rewrite Hl. clear Hl Hq.
  assert (forall k, (forall i v, q !! i = Some v -> buf b !! ((head b + (k + i)) mod capacity b)%nat = Some (Some v)) ->
    omap (fun i => slot b ((head b + i) mod capacity b)) (seq k (length q)) = q) as H; [| by apply (H 0%nat)].
  clear Hs. induction q as [| x q IH]; intros k Hs; [done |]. cbn.
  pose proof (Hs 0%nat x eq_refl) as Hx. rewrite Nat.add_0_r in Hx. unfold slot at 1. rewrite Hx. cbn. f_equal.
  apply IH. intros i v Hi. replace (S k + i)%nat with (k + S i)%nat by lia. by apply Hs.
Qed.

Lemma run_holds ops b q : holds b q ->
  let '(l, b') := run b ops in
  let '(l', q') := spec_run (capacity b) q ops in
  l = l' /\ holds b' q' /\ capacity b' = capacity b.
Proof.
  revert b q. induction ops as [| o ops IH]; intros b q Hh; [done |]. cbn [run spec_run].
  assert (exists a b1 q1, step b o = (a, b1) /\ spec_step (capacity b) q o = (a, q1)
    /\ holds b1 q1 /\ capacity b1 = capacity b) as (a & b1 & q1 & -> & -> & H1 & Hc).
  { destruct o as [v |]; cbn [step].
    - pose proof (push_holds b q v Hh) as H. destruct (push v b) as [d b1].
      destruct (spec_step (capacity b) q (Push v)) as [a q1]. destruct H as (<- & H1 & Hc). by do 3 eexists.
    - pose proof (drain_holds b q Hh) as H. destruct (drain b) as [l b1]. destruct H as (-> & H1 & Hc).
      by do 3 eexists. }
  specialize (IH b1 q1 H1). rewrite Hc in IH. destruct (run b1 ops) as [l b2].
  destruct (spec_run (capacity b) q1 ops) as [l' q2]. destruct IH as (-> & H2 & Hc2). done.
Qed.

Lemma spec_run_bound cap ops q : (0 < cap)%nat -> (length q <= cap)%nat -> (length (spec_run cap q ops).2 <= cap)%nat.
Proof.
  intros Hc. revert q. induction ops as [| o ops IH]; intros q Hq; [done |]. cbn [spec_run].
  destruct (spec_step cap q o) as [a q1] eqn:E. specialize (IH q1).
  destruct (spec_run cap q1 ops) as [l q2]. cbn in *. apply IH.
  destruct o as [v |]; cbn in E.
  - destruct (Nat.eqb_spec (length q) cap); injection E as _ <-; rewrite length_app; cbn.
    + destruct q; cbn [length tail] in *; lia.
    + lia.
  - injection E as _ <-. cbn. lia.
Qed.
End buffer.
Arguments t : clear implicits.
Arguments op : clear implicits.
Arguments answer : clear implicits.
End BoundedRingLogBuffer.

(** ** Correlation identifiers as text *)

Module CorrelationIdHex.
Definition FIELD_CORRELATION_ID : string := "correlation_id".
Definition EMPTY : string := "00000000000000000000000000000000".

(** The lowest [n] hexadecimal digits, zeros in front. *)
Fixpoint hex_digits (n : nat) (z : Z) : string :=
  match n with
  | O => EmptyString
  | S n => String (hex_digit (Z.shiftr z (4 * Z.of_nat n) mod 16)) (hex_digits n z)
  end.
(** [{:032x}]. *)
Definition fmt (cid : CorrelationId.t) : string := hex_digits 32 (CorrelationId.as_u128 cid).
End CorrelationIdHex.

(** ** The latency tracer *)

(** [trait LatencyEmitter]. *)
Class LatencyEmitter (W : Type) := {
  emit_record : Stage.t -> LatencyRecord -> W -> W;
  emit_breach : Stage.t -> LatencyRecord -> W -> W;
}.

Definition NoopEmitter (W : Type) : LatencyEmitter W :=
  {| emit_record _ _ w := w; emit_breach _ _ w := w |}.

(** Two bounded queues; what does not fit is dropped. [push] is the queue's. *)
Record Recorder (Q : Type) := mk_Recorder { records : Q; breaches : Q }.
Arguments mk_Recorder {Q} records breaches.
Arguments records {Q} r.
Arguments breaches {Q} r.
Definition RecorderEmitter {Q : Type} (push : Stage.t * LatencyRecord -> Q -> result unit unit * Q)
  : LatencyEmitter (Recorder Q) :=
  {| emit_record stage r w := mk_Recorder (push (stage, r) (records w)).2 (breaches w);
     emit_breach stage r w := mk_Recorder (records w) (push (stage, r) (breaches w)).2 |}.

Module LatencyRecordJson.
Record t := mk {
  correlation_id_hex : string; stage : string; nanos : Z; budget_nanos : Z; breach : bool }.
Definition from_fb (r : LatencyRecord) (s : Stage.t) : t :=
  mk (to_hex (lr_correlation_id r)) (Stage.as_str s) (lr_nanos r) (lr_budget_nanos r) (lr_breach r).
(** The fields the supervisor decodes. *)
Definition supervisor_view (j : t) : ObsLatencyEvent := mk_ObsLatencyEvent (stage j) (nanos j) (breach j).
End LatencyRecordJson.

(** The publications handed to the runtime, in order. *)
Definition NatsEmitter : LatencyEmitter (list (string * LatencyRecordJson.t)) :=
  {| emit_record s r w := w ++ [(Subjects.obs_latency (Stage.as_str s), LatencyRecordJson.from_fb r s)];
     emit_breach s r w := w ++ [(Subjects.obs_budget_breach (Stage.as_str s), LatencyRecordJson.from_fb r s)] |}.

Module LatencyTracer.
Inductive histogram := TickIngestNs | FeatureExtractNs | RiskCheckNs | ExecRouteNs.

Record t := mk {
  stage : Stage.t; correlation_id : CorrelationId.t; budget_ns : Z; started : Z; armed : bool }.

Section tracer.
Context {W : Type} `{LatencyEmitter W}.

(** The sink, the histogram samples and the breach counter of each stage. *)
Record world := mk_world { sink : W; samples : list (histogram * Z); breach_total : list Stage.t }.

Definition start (s : Stage.t) (cid : CorrelationId.t) (budget now : Z) : t := mk s cid budget now true.
Definition cancel (tr : t) : t :=
  mk (stage tr) (correlation_id tr) (budget_ns tr) (started tr) false.
(** Nanoseconds since the start, cut to 64 bits. *)
Definition elapsed_ns (tr : t) (now : Z) : Z :=
  let n := Z.max 0 (now - started tr) in if n >? u64_max then u64_max else n.

Definition histogram_of (s : Stage.t) : option histogram :=
  match s with
  | Stage.TickIngest => Some TickIngestNs
  | Stage.FeatureExtraction => Some FeatureExtractNs
  | Stage.AiScoringFetch => Some RiskCheckNs
  | Stage.RiskCheck => Some RiskCheckNs
  | Stage.ExecutionRouting => Some ExecRouteNs
  | Stage.BrokerSubmit => None
  end.
Definition observe_histogram (tr : t) (elapsed : Z) (w : world) : world :=
  mk_world (sink w)
    (samples w ++ match histogram_of (stage tr) with Some h => [(h, elapsed)] | None => [] end) (breach_total w).

Definition record_of (tr : t) (elapsed : Z) : LatencyRecord :=
  mk_LatencyRecord (be_bytes 16 (CorrelationId.as_u128 (correlation_id tr))) (Stage.as_u8 (stage tr)) elapsed
    (budget_ns tr) ((budget_ns tr >? 0) && (elapsed >? budget_ns tr)).

Definition drop (tr : t) (now : Z) (w : world) : world :=
  if negb (armed tr) then w
  else
    let elapsed := elapsed_ns tr now in
    let w := observe_histogram tr elapsed w in
    let record := record_of tr elapsed in
    let w := mk_world (emit_record (stage tr) record (sink w)) (samples w) (breach_total w) in
    if lr_breach record then
      mk_world (emit_breach (stage tr) record (sink w)) (samples w) (breach_total w ++ [stage tr])
    else w.

(** Traced sections, dropped one after the other, each at a reading of the clock. *)
Definition run (sections : list (t * Z)) (w : world) : world :=
  foldl (fun w s => drop s.1 s.2 w) w sections.
End tracer.
Arguments world : clear implicits.
End LatencyTracer.

(** ** Facts *)

Lemma hex_digits_bytes n z : CorrelationIdHex.hex_digits (2 * n) z = to_hex (be_bytes n z).
Proof.
  induction n as [| n IH]; [done |].
  replace (2 * S n)%nat with (S (S (2 * n))) by lia. cbn [CorrelationIdHex.hex_digits be_bytes to_hex].
  rewrite IH. clear IH.
  replace (4 * Z.of_nat (S (2 * n))) with (8 * Z.of_nat n + 4) by lia.
  replace (4 * Z.of_nat (2 * n)) with (8 * Z.of_nat n) by lia.
  rewrite <- Z.shiftr_shiftr by lia. set (x := Z.shiftr z (8 * Z.of_nat n)).
  rewrite Z.shiftr_div_pow2 by lia. change (2 ^ 4) with 16. f_equal; [| f_equal]; f_equal.
  - rewrite (Z.div_mod x 256) at 1 by lia. pose proof (Z.mod_pos_bound x 256 ltac:(lia)) as Hr.
    replace (256 * (x / 256) + x mod 256) with (x mod 256 + (x / 256 * 16) * 16) by lia.
    rewrite Z.div_add, Z.mod_add by lia. apply Z.mod_small.
    split; [apply Z.div_pos | apply Z.div_lt_upper_bound]; lia.
  - rewrite (Z.mod_mod_divide x 256 16) by (exists 16; lia). done.
Qed.

(** A log line's identifier and a published record's are the same text. *)
Lemma correlation_texts_agree s r cid : lr_correlation_id r = be_bytes 16 (CorrelationId.as_u128 cid) ->
  LatencyRecordJson.correlation_id_hex (LatencyRecordJson.from_fb r s) = CorrelationIdHex.fmt cid.
Proof. intros H. cbn. rewrite H. symmetry. apply (hex_digits_bytes 16). Qed.

Module TracerFacts.
Import LatencyTracer.

Definition live (s : t * Z) : bool := armed s.1.
Definition over_budget (s : t * Z) : bool :=
  (budget_ns s.1 >? 0) && (elapsed_ns s.1 s.2 >? budget_ns s.1).
Definition latency_of (s : t * Z) : string * LatencyRecordJson.t :=
  (Subjects.obs_latency (Stage.as_str (stage s.1)),
   LatencyRecordJson.from_fb (record_of s.1 (elapsed_ns s.1 s.2)) (stage s.1)).
Definition breach_of (s : t * Z) : string * LatencyRecordJson.t :=
  (Subjects.obs_budget_breach (Stage.as_str (stage s.1)),
   LatencyRecordJson.from_fb (record_of s.1 (elapsed_ns s.1 s.2)) (stage s.1)).
Definition told (s : t * Z) : list (string * LatencyRecordJson.t) :=
  if live s then latency_of s :: (if over_budget s then [breach_of s] else []) else [].

Lemma drop_published s w :
  sink (LatencyTracer.drop (H := NatsEmitter) s.1 s.2 w) = sink w ++ told s
  /\ breach_total (LatencyTracer.drop (H := NatsEmitter) s.1 s.2 w)
     = breach_total w ++ (if live s && over_budget s then [stage s.1] else [])
  /\ samples (LatencyTracer.drop (H := NatsEmitter) s.1 s.2 w) = samples w ++
     (if live s then match histogram_of (stage s.1) with Some h => [(h, elapsed_ns s.1 s.2)] | None => [] end else []).
Proof.
  unfold LatencyTracer.drop, told, live. destruct (armed s.1); cbn [negb andb]; [| by rewrite !app_nil_r].
  cbv zeta. change (lr_breach (record_of s.1 (elapsed_ns s.1 s.2))) with (over_budget s).
  destruct (over_budget s); cbn; rewrite ?app_nil_r, <- ?app_assoc; by split_and!.
Qed.

Lemma run_published l w :
  sink (run (H := NatsEmitter) l w) = sink w ++ concat (told <$> l)
  /\ breach_total (run (H := NatsEmitter) l w)
     = breach_total w ++ (stage ∘ fst <$> List.filter (fun s => live s && over_budget s) l).
Proof.
  revert w. induction l as [| s l IH]; intros w; [by rewrite !app_nil_r |]. cbn [run foldl].
  destruct (drop_published s w) as (Hs & Hb & _).
  destruct (IH (LatencyTracer.drop (H := NatsEmitter) s.1 s.2 w)) as [Hs' Hb'].
  unfold run in Hs', Hb'. rewrite Hs', Hb', Hs, Hb, <- !app_assoc. split; [done |]. f_equal.
  cbn [List.filter]. by destruct (live s && over_budget s).
Qed.
End TracerFacts.

(** The log buffer is a bounded queue that gives up its oldest line. Over any sequence of pushes and
    drains a buffer of positive capacity [n] answers as a plain queue does: a push that does not fit
    hands back the oldest line and no other, a drain returns every line held, oldest first, and
    leaves the buffer empty and usable, and never more than [n] lines are held. A zero capacity is
    refused when the buffer is made. *)
Theorem log_buffer_is_a_bounded_queue {T : Type} (n : nat) (ops : list (BoundedRingLogBuffer.op T)) :
  match BoundedRingLogBuffer.new n with
  | None => n = 0%nat
  | Some b =>
    let '(answers, b') := BoundedRingLogBuffer.run b ops in
    let '(expected, queue) := BoundedRingLogBuffer.spec_run n [] ops in
    answers = expected /\ BoundedRingLogBuffer.contents b' = queue /\ (length queue <= n)%nat
    /\ BoundedRingLogBuffer.is_full b' = (length queue =? n)%nat
  end.
Proof.
  destruct (BoundedRingLogBuffer.new n) as [b |] eqn:Hnew.
  - destruct (BoundedRingLogBuffer.holds_new n b Hnew) as [H0 Hc].
    pose proof (BoundedRingLogBuffer.run_holds ops b [] H0) as H. rewrite Hc in H.
    destruct (BoundedRingLogBuffer.run b ops) as [l b'].
    destruct (BoundedRingLogBuffer.spec_run n [] ops) as [l' q]. destruct H as (-> & Hq & Hcap).
    split_and!; [done | by apply BoundedRingLogBuffer.holds_contents | rewrite <- Hcap; apply Hq |].
    unfold BoundedRingLogBuffer.is_full. by rewrite (BoundedRingLogBuffer.holds_len _ _ Hq), Hcap.
  - unfold BoundedRingLogBuffer.new in Hnew. by destruct (Nat.eqb_spec n 0).
Qed.

(** Every traced section is told once, and an overrun twice. Whatever sections are traced, in
    whatever order they end, the bus receives for each section that was not cancelled its latency
    record and, exactly when it has a budget and took longer, the same record on the breach subject
    right after it; the breach counter counts those sections and no other; a cancelled section leaves
    no trace. The supervisor, whatever its threshold, reports an overrun as a latency spike of that
    stage, and a section within budget only when it exceeds the threshold. *)
Theorem traced_sections_are_told (sections : list (LatencyTracer.t * Z)) (now threshold : Z) :
  let w := LatencyTracer.run (H := NatsEmitter) sections (LatencyTracer.mk_world [] [] []) in
  let live := List.filter TracerFacts.live sections in
  LatencyTracer.sink w
    = concat ((fun s => TracerFacts.latency_of s :: (if TracerFacts.over_budget s then [TracerFacts.breach_of s] else []))
              <$> live)
  /\ LatencyTracer.breach_total w = LatencyTracer.stage ∘ fst <$> List.filter TracerFacts.over_budget live
  /\ Forall (fun s =>
       let spike := Some (mk_FailureEvent
         (FailureKind.ExternalApiLatencySpike (Stage.as_str (LatencyTracer.stage s.1))) now) in
       Detector.classify_obs_latency now threshold
         (Some (LatencyRecordJson.supervisor_view (TracerFacts.latency_of s).2))
       = if TracerFacts.over_budget s || (LatencyTracer.elapsed_ns s.1 s.2 >? threshold) then spike else None) live.
Proof.
  cbv zeta. destruct (TracerFacts.run_published sections (LatencyTracer.mk_world [] [] [])) as [Hs Hb].
  rewrite Hs, Hb. split_and!.
  - cbn. induction sections as [| s l IH]; [done |]. cbn [fmap list_fmap concat List.filter].
    unfold TracerFacts.told at 1. rewrite IH by (apply TracerFacts.run_published). by destruct (TracerFacts.live s).
  - cbn. f_equal. clear Hs Hb. induction sections as [| s l IH]; [done |]. cbn [List.filter].
    destruct (TracerFacts.live s); cbn; [| done]. destruct (TracerFacts.over_budget s); by rewrite IH.
  - apply Forall_true. intros s. done.
Qed.
