(* ===== verification/LogShipping.v ===== *)
(** Logs and traces under a degraded collector (hedge-obs): the log layer (logging.rs) and the shipper
    (loki_shipper.rs) as atomic steps over the flag, the channel and the backlog they share, with a ledger
    of what becomes of every line, and the sampler of traces (tracing_otel.rs).  An event of a run is a
    thread that logs, a call of the layer that goes on, or the shipper's next step with the collector's
    answer; no binary of the repository starts the shipper yet, and what runs is what [init] (lib.rs) and
    [run_loki_shipper] set up together. *)

From S2P Require Import Prelude Ieee Bytes Observability.

(** ** The log layer *)

Module Severity.
Inductive t := Low | High.
(** [tracing::Level], by decreasing verbosity. *)
Inductive level := Trace | Debug | Info | Warn | Error.
Definition from_level (l : level) : t := match l with Warn | Error => High | _ => Low end.
End Severity.

Record LogEnvelope := mk_LogEnvelope {
  le_timestamp_ns : Z; le_level : string; le_target : string; le_message : string; le_severity : Severity.t }.

Definition LOKI_BACKLOG_CAPACITY : nat := 256.
Record LokiLayerConfig := mk_LokiLayerConfig { drop_low_severity_on_unavailable : bool }.

Abbreviation Backlog := (BoundedRingLogBuffer.t LogEnvelope).

(** What happens to the lines of a run: the record against which its losses are counted. *)
Module Ledger.
Inductive entry :=
  | Logged (env : LogEnvelope)                  (* given to the layer *)
  | Dropped (env : LogEnvelope)                 (* let go by the policy *)
  | Buffered (env : LogEnvelope)                (* put in the backlog *)
  | Displaced (env : LogEnvelope)               (* pushed out of the full backlog *)
  | Drained (env : LogEnvelope)                 (* taken out of the backlog to be sent again *)
  | Pushed (again ok : bool) (env : LogEnvelope) (* sent: taken from the backlog or not, accepted or not *)
  | Abandoned (env : LogEnvelope)               (* drained, and left behind a refused line *)
  | Paused (ms : Z).

Definition logged : list entry -> list LogEnvelope :=
  omap (fun x => match x with Logged e => Some e | _ => None end).
Definition dropped : list entry -> list LogEnvelope :=
  omap (fun x => match x with Dropped e => Some e | _ => None end).
Definition buffered : list entry -> list LogEnvelope :=
  omap (fun x => match x with Buffered e => Some e | _ => None end).
Definition displaced : list entry -> list LogEnvelope :=
  omap (fun x => match x with Displaced e => Some e | _ => None end).
Definition drained : list entry -> list LogEnvelope :=
  omap (fun x => match x with Drained e => Some e | _ => None end).
(** What left the backlog, one way or the other. *)
Definition removed : list entry -> list LogEnvelope :=
  omap (fun x => match x with Displaced e | Drained e => Some e | _ => None end).
Definition accepted : list entry -> list LogEnvelope :=
  omap (fun x => match x with Pushed _ true e => Some e | _ => None end).
(** What became of the drained lines: each was sent once, or abandoned. *)
Definition settled : list entry -> list LogEnvelope :=
  omap (fun x => match x with Pushed true _ e | Abandoned e => Some e | _ => None end).
Definition refused_again : list entry -> list LogEnvelope :=
  omap (fun x => match x with Pushed true false e => Some e | _ => None end).
Definition abandoned : list entry -> list LogEnvelope :=
  omap (fun x => match x with Abandoned e => Some e | _ => None end).
(** The answers to the lines taken from the channel. *)
Definition attempts : list entry -> list bool :=
  omap (fun x => match x with Pushed false ok _ => Some ok | _ => None end).
Definition pauses : list entry -> list Z :=
  omap (fun x => match x with Paused ms => Some ms | _ => None end).
End Ledger.
Import Ledger.

Module LokiLayer.
(** The process-wide flag, the channel to the shipper (absent, or the lines in it and its room) and
    the backlog, which the shipper shares. *)
Record t := mk {
  unavailable : bool;
  channel : option (list LogEnvelope * nat);
  backlog : Backlog;
}.

Definition set_unavailable (b : bool) (l : t) : t := mk b (channel l) (backlog l).
Definition set_backlog (b : Backlog) (l : t) : t := mk (unavailable l) (channel l) b.
Definition set_channel (q : list LogEnvelope) (room : nat) (l : t) : t :=
  mk (unavailable l) (Some (q, room)) (backlog l).

(** The push, and the line it displaces. *)
Definition buffer (env : LogEnvelope) (l : t) : t * list entry :=
  let '(old, b) := BoundedRingLogBuffer.push env (backlog l) in
  (set_backlog b l, (Displaced <$> option_list old) ++ [Buffered env]).

(** The layer's handling of a line by itself, as the code has it. *)
Definition handle_envelope (config : LokiLayerConfig) (env : LogEnvelope) (l : t) : t :=
  if unavailable l then
    match le_severity env with
    | Severity.High => (buffer env l).1
    | Severity.Low => if negb (drop_low_severity_on_unavailable config) then (buffer env l).1 else l
    end
  else
    match channel l with
    | Some (q, room) =>
      if (length q <? room)%nat then set_channel (q ++ [env]) room l else (buffer env l).1
    | None => (buffer env l).1
    end.

(** The same in atomic steps, between which other threads run: the flag is read, the channel is tried,
    the backlog is locked. A call is at one of the three. *)
Inductive call := Reading (env : LogEnvelope) | Sending (env : LogEnvelope) | Buffering (env : LogEnvelope).
Definition line_of (c : call) : LogEnvelope :=
  match c with Reading e | Sending e | Buffering e => e end.

Definition call_step (config : LokiLayerConfig) (c : call) (l : t) : option call * t * list entry :=
  match c with
  | Reading env =>
    if unavailable l then
      match le_severity env with
      | Severity.High => (Some (Buffering env), l, [])
      | Severity.Low =>
        if negb (drop_low_severity_on_unavailable config) then (Some (Buffering env), l, [])
        else (None, l, [Dropped env])
      end
    else (Some (Sending env), l, [])
  | Sending env =>
    match channel l with
    | Some (q, room) =>
      if (length q <? room)%nat then (None, set_channel (q ++ [env]) room l, [])
      else (Some (Buffering env), l, [])
    | None => (Some (Buffering env), l, [])
    end
  | Buffering env => let '(l, es) := buffer env l in (None, l, es)
  end.

(** A call whose steps no one interrupts. *)
Fixpoint call_alone (config : LokiLayerConfig) (n : nat) (c : call) (l : t) : option call * t :=
  match n with
  | O => (Some c, l)
  | S n =>
    let '(c, l, _) := call_step config c l in
    match c with Some c => call_alone config n c l | None => (None, l) end
  end.

Lemma call_alone_is_handle_envelope config env l :
  call_alone config 3 (Reading env) l = (None, handle_envelope config env l).
Proof.
  destruct l as [u ch b]. unfold handle_envelope, buffer, call_alone, call_step. cbn -[Nat.ltb].
  destruct u; cbn -[Nat.ltb].
  - destruct (le_severity env), (drop_low_severity_on_unavailable config); cbn -[Nat.ltb]; try done;
      unfold buffer; cbn -[Nat.ltb]; by destruct (BoundedRingLogBuffer.push env b).
  - destruct ch as [[q room] |]; cbn -[Nat.ltb]; [destruct (length q <? room)%nat; cbn -[Nat.ltb]; [done |] |];
      unfold buffer; cbn; by destruct (BoundedRingLogBuffer.push env b).
Qed.
End LokiLayer.

(** ** The shipper, running beside the layer *)

Module LokiShipper.
Definition INITIAL_BACKOFF_MS : Z := 100.
Definition MAX_BACKOFF_MS : Z := 30000.

(** Where the shipper is: waiting on the channel; about to push a line; a push refused, about to set the
    flag; in the call of its own warning; asleep before the retry; a push accepted, about to test the
    flag; about to clear it; about to drain; with drained lines left to send; one of them refused, about
    to set the flag; about to put it back; about to reset the backoff. *)
Inductive point :=
  | Receiving
  | Pushing (env : LogEnvelope)
  | Refused (env : LogEnvelope)
  | Warning (env : LogEnvelope) (c : option LokiLayer.call)
  | Sleeping (env : LogEnvelope)
  | Accepted
  | Clearing
  | Draining
  | Resending (lines : list LogEnvelope)
  | RefusedAgain (env : LogEnvelope) (rest : list LogEnvelope)
  | Rebuffering (env : LogEnvelope) (rest : list LogEnvelope)
  | Resetting.

Record world := mk {
  shared : LokiLayer.t;
  calls : list LokiLayer.call;  (* of the threads that log, in progress *)
  pc : point;
  backoff : Z;
  ledger : list entry;
}.

Definition unavailable (w : world) : bool := LokiLayer.unavailable (shared w).
Definition backlog (w : world) : Backlog := LokiLayer.backlog (shared w).

(** The process after [init]: the flag is down, the channel has 1024 places. *)
Definition CHANNEL : nat := 1024.
Definition init : option world :=
  b ← BoundedRingLogBuffer.new LOKI_BACKLOG_CAPACITY;
  Some (mk (LokiLayer.mk false (Some ([], CHANNEL)) b) [] Receiving INITIAL_BACKOFF_MS []).

(** What runs next: a thread logs a line; the [i]-th of the calls in progress goes on; the shipper goes
    on, and if it pushes, with this answer of the collector. *)
Inductive event := Log (env : LogEnvelope) | Resume (i : nat) | Ship (ok : bool).

Section shipper.
(** The layer's policy; whether the log filter lets the shipper's warning through; the time and the text
    of that warning. *)
Context (config : LokiLayerConfig) (warn_enabled : bool) (render : list entry -> Z -> Z * string).

(** [tracing::warn!] on a refusal. *)
Definition warning (w : world) : LogEnvelope :=
  let '(now, message) := render (ledger w) (backoff w) in
  mk_LogEnvelope now "WARN" "hedge_obs::loki_shipper" message (Severity.from_level Severity.Warn).

Definition move (p : point) (l : LokiLayer.t) (es : list entry) (w : world) : world :=
  mk l (calls w) p (backoff w) (ledger w ++ es).

(** One step of [run_loki_shipper]. *)
Definition ship (ok : bool) (w : world) : world :=
  let l := shared w in
  match pc w with
  | Receiving =>
    match LokiLayer.channel l with
    | Some (env :: q, room) => move (Pushing env) (LokiLayer.set_channel q room l) [] w
    | _ => w
    end
  | Pushing env => move (if ok then Accepted else Refused env) l [Pushed false ok env] w
  | Refused env =>
    let l := LokiLayer.set_unavailable true l in
    if warn_enabled then
      move (Warning env (Some (LokiLayer.Reading (warning w)))) l [Logged (warning w)] w
    else move (Warning env None) l [] w
  | Warning env (Some c) =>
    let '(c, l, es) := LokiLayer.call_step config c l in move (Warning env c) l es w
  | Warning env None => move (Sleeping env) l [] w
  | Sleeping env =>
    mk l (calls w) (Pushing env) (Z.min (backoff w * 2) MAX_BACKOFF_MS) (ledger w ++ [Paused (backoff w)])
  | Accepted => move (if LokiLayer.unavailable l then Clearing else Resetting) l [] w
  | Clearing => move Draining (LokiLayer.set_unavailable false l) [] w
  | Draining =>
    let '(lines, b) := BoundedRingLogBuffer.drain (LokiLayer.backlog l) in
    move (Resending lines) (LokiLayer.set_backlog b l) (Drained <$> lines) w
  | Resending [] => move Resetting l [] w
  | Resending (env :: rest) =>
    move (if ok then Resending rest else RefusedAgain env rest) l [Pushed true ok env] w
  | RefusedAgain env rest => move (Rebuffering env rest) (LokiLayer.set_unavailable true l) [] w
  | Rebuffering env rest =>
    let '(l, es) := LokiLayer.buffer env l in move Resetting l (es ++ (Abandoned <$> rest)) w
  | Resetting => mk l (calls w) Receiving INITIAL_BACKOFF_MS (ledger w)
  end.

Definition step (w : world) (ev : event) : world :=
  match ev with
  | Log env =>
    mk (shared w) (calls w ++ [LokiLayer.Reading env]) (pc w) (backoff w) (ledger w ++ [Logged env])
  | Resume i =>
    match calls w !! i with
    | Some c =>
      let '(c, l, es) := LokiLayer.call_step config c (shared w) in
      mk l (take i (calls w) ++ option_list c ++ drop (S i) (calls w)) (pc w) (backoff w) (ledger w ++ es)
    | None => w
    end
  | Ship ok => ship ok w
  end.
Definition run (evs : list event) (w : world) : world := fold_left step evs w.
End shipper.

(** The steps of the shipper among the events, and a collector that accepts. *)
Definition is_ship (ev : event) : bool := match ev with Ship _ => true | _ => false end.
Definition ships (evs : list event) : nat := length (List.filter is_ship evs).
Definition up (ev : event) : Prop := match ev with Ship ok => ok = true | _ => True end.
End LokiShipper.

(** ** Facts *)

#[export] Instance LogEnvelope_eq : EqDecision LogEnvelope.
Proof. unfold EqDecision, Decision. repeat decide equality. Defined.

(** How often a line occurs: two lists with the same counts are permutations of each other. *)
Definition count (x : LogEnvelope) (l : list LogEnvelope) : nat := count_occ LogEnvelope_eq l x.
#[global] Arguments count : simpl never.
Lemma count_app x l k : count x (l ++ k) = (count x l + count x k)%nat.
Proof. apply count_occ_app. Qed.
Lemma count_cons x e l : count x (e :: l) = (count x [e] + count x l)%nat.
Proof. apply (count_app x [e] l). Qed.
Lemma count_nil x : count x [] = 0%nat.
Proof. done. Qed.
Lemma count_Permutation l k : (forall x, count x l = count x k) -> l ≡ₚ k.
Proof. intros H. apply (Permutation_count_occ LogEnvelope_eq). exact H. Qed.

Module LedgerFacts.
Lemma project_app {A} (f : entry -> option A) (l k : list entry) : omap f (l ++ k) = omap f l ++ omap f k.
Proof. apply omap_app. Qed.
Lemma project_all {A B} (f : entry -> option B) (g : A -> entry) (h : A -> B) (l : list A) :
  (forall x, f (g x) = Some (h x)) -> omap f (g <$> l) = h <$> l.
Proof. intros H. induction l as [| x l IH]; [done |]. cbn. by rewrite H, IH. Qed.
Lemma project_none {A B} (f : entry -> option B) (g : A -> entry) (l : list A) :
  (forall x, f (g x) = None) -> omap f (g <$> l) = [].
Proof. intros H. induction l as [| x l IH]; [done |]. cbn. by rewrite H, IH. Qed.
End LedgerFacts.

(** A projection of a ledger that steps have extended. *)
Ltac project :=
  unfold logged, dropped, buffered, displaced, drained, removed, accepted, settled, refused_again, abandoned,
    attempts, pauses in *;
  repeat match goal with
  | |- context [omap ?f (?g <$> ?l)] =>
    first [rewrite (LedgerFacts.project_none f g l) by done
          |rewrite (LedgerFacts.project_all f g id l), list_fmap_id by done]
  | |- context [omap ?f (?l ++ ?k)] => rewrite (LedgerFacts.project_app f l k)
  end; cbn [omap list_omap app]; rewrite ?app_nil_r.
Ltac tally :=
  project;
  repeat match goal with
  | |- context [count ?x (?e :: ?l)] =>
    lazymatch l with [] => fail | _ => rewrite (count_cons x e l) end
  end;
  rewrite ?count_app, ?count_nil in *.

Module ShipperFacts.
Import LokiShipper.

(** The queue a full backlog keeps of the lines put in it: the last 256. *)
Definition keep (q : list LogEnvelope) : list LogEnvelope := drop (length q - LOKI_BACKLOG_CAPACITY) q.

Lemma keep_keep q r : keep (keep q ++ r) = keep (q ++ r).
Proof.
  unfold keep. generalize LOKI_BACKLOG_CAPACITY. intros n. rewrite !length_app, length_drop.
  destruct (Nat.le_gt_cases (length q) n) as [H | H].
  - replace (length q - n)%nat with 0%nat by lia. rewrite drop_0. f_equal. lia.
  - rewrite <- drop_app_le by lia. rewrite drop_drop. f_equal. lia.
Qed.

(** The backlog of the layer [l] is sound and holds [q]. *)
Definition has (l : LokiLayer.t) (q : list LogEnvelope) : Prop :=
  BoundedRingLogBuffer.holds (LokiLayer.backlog l) q
  /\ BoundedRingLogBuffer.capacity (LokiLayer.backlog l) = LOKI_BACKLOG_CAPACITY.

Lemma has_keep l q : has l q -> keep q = q.
Proof.
  intros [H Hc]. pose proof (BoundedRingLogBuffer.holds_bound _ _ H) as Hb. rewrite Hc in Hb.
  unfold keep. replace (length q - LOKI_BACKLOG_CAPACITY)%nat with 0%nat by lia. apply drop_0.
Qed.

Lemma buffer_spec env l q : has l q ->
  exists b lost, LokiLayer.buffer env l = (LokiLayer.set_backlog b l, (Displaced <$> lost) ++ [Buffered env])
    /\ has (LokiLayer.set_backlog b l) (keep (q ++ [env])) /\ q ++ [env] = lost ++ keep (q ++ [env]).
Proof.
  intros [H Hc]. unfold LokiLayer.buffer, has.
  pose proof (BoundedRingLogBuffer.push_holds _ _ env H) as Hp.
  pose proof (BoundedRingLogBuffer.holds_bound _ _ H) as Hb.
  destruct (BoundedRingLogBuffer.push env (LokiLayer.backlog l)) as [old b]. cbn in Hp.
  rewrite Hc in *. exists b, (option_list old). split; [reflexivity |]. cbn [LokiLayer.backlog LokiLayer.set_backlog].
  assert (keep (q ++ [env]) = if (length q =? LOKI_BACKLOG_CAPACITY)%nat then tail q ++ [env] else q ++ [env]) as ->.
  { unfold keep. rewrite length_app. cbn [length]. generalize dependent LOKI_BACKLOG_CAPACITY. intros n Hc Hp Hb.
    destruct (Nat.eqb_spec (length q) n) as [<- | Hn].
    - replace (length q + 1 - length q)%nat with 1%nat by lia. destruct q; [| done]. cbn in Hc.
      destruct H as [H0 _ _ _ _ _]. lia.
    - replace (length q + 1 - n)%nat with 0%nat by lia. apply drop_0. }
  destruct (Nat.eqb_spec (length q) LOKI_BACKLOG_CAPACITY) as [Hl | Hl]; destruct Hp as ([= ->] & Hh & Hcb);
    (split; [done |]); [| done].
  destruct q; [discriminate Hl | done].
Qed.

(** What a step of a call of the layer does: the line it carries stays in the call, or goes to the
    channel, to the backlog or to the policy. *)
Record layer_effect (config : LokiLayerConfig) (l l' : LokiLayer.t) (q q' : list LogEnvelope)
    (es : list entry) (before after : list LogEnvelope) : Prop := {
  effect_has : has l' q';
  effect_flag : LokiLayer.unavailable l' = LokiLayer.unavailable l;
  effect_keep : q' = keep (q ++ buffered es);
  effect_fifo : q ++ buffered es = removed es ++ q';
  effect_quiet : logged es = [] /\ drained es = [] /\ accepted es = [] /\ settled es = []
                 /\ refused_again es = [] /\ abandoned es = [] /\ attempts es = [] /\ pauses es = [];
  effect_dropped : Forall (fun e => le_severity e = Severity.Low) (dropped es)
                   /\ (drop_low_severity_on_unavailable config = false -> dropped es = []);
  effect_channel : is_Some (LokiLayer.channel l) -> is_Some (LokiLayer.channel l');
  effect_count x :
    (count x before + count x (default [] (fst <$> LokiLayer.channel l)) + count x q
     = count x after + count x (default [] (fst <$> LokiLayer.channel l')) + count x q'
       + count x (dropped es) + count x (displaced es))%nat;
}.

Lemma buffer_effect config env l q : has l q ->
  let '(l', es) := LokiLayer.buffer env l in layer_effect config l l' q (keep (q ++ [env])) es [env] [].
Proof.
  intros H. destruct (buffer_spec env l q H) as (b & lost & -> & Hh & Hq).
  split; try done.
  - by project.
  - by project.
  - by project.
  - by project.
  - intros x. apply (f_equal (count x)) in Hq. tally. cbn [LokiLayer.channel LokiLayer.set_backlog]. lia.
Qed.

Lemma call_step_effect config c l q : has l q ->
  exists c' l' es q', LokiLayer.call_step config c l = (c', l', es)
    /\ layer_effect config l l' q q' es [LokiLayer.line_of c] (option_list (LokiLayer.line_of <$> c')).
Proof.
  intros H. pose proof (has_keep l q H) as Hk.
  assert (forall c', LokiLayer.line_of c' = LokiLayer.line_of c ->
    layer_effect config l l q q [] [LokiLayer.line_of c] (option_list (LokiLayer.line_of <$> Some c'))) as Hstay.
  { intros c' Hc. split; try done; cbn; rewrite ?Hc, ?app_nil_r; try done. intros x. tally. lia. }
  destruct c as [env | env | env]; cbn [LokiLayer.call_step LokiLayer.line_of].
  - destruct (LokiLayer.unavailable l) eqn:Hu; [destruct (le_severity env) eqn:Hs;
      [destruct (drop_low_severity_on_unavailable config) eqn:Hd |] |]; cbn [negb];
      eexists _, _, _, q; (split; [reflexivity |]); try by apply Hstay.
    split; try done; cbn; rewrite ?app_nil_r; try done; [by split; [apply Forall_singleton | intros ?; congruence] |]. intros x. tally. lia.
  - destruct (LokiLayer.channel l) as [[ch room] |] eqn:Hch; [destruct (length ch <? room)%nat |];
      eexists _, _, _, q; (split; [reflexivity |]); try by apply Hstay.
    split; try done; cbn; rewrite ?app_nil_r; try done. intros x. rewrite Hch. cbn. tally. lia.
  - pose proof (buffer_effect config env l q H) as Hb. destruct (LokiLayer.buffer env l) as [l' es].
    do 4 eexists. split; [reflexivity |]. exact Hb.
Qed.

(** *** Every line is accounted for *)

(** The lines the shipper has in hand, and those of them it drained and has still to send. *)
Definition in_hand (p : point) : list LogEnvelope :=
  match p with
  | Pushing e | Refused e | Sleeping e => [e]
  | Warning e c => e :: option_list (LokiLayer.line_of <$> c)
  | Resending lines => lines
  | RefusedAgain e rest | Rebuffering e rest => e :: rest
  | _ => []
  end.
Definition unsent (p : point) : list LogEnvelope :=
  match p with Resending lines => lines | RefusedAgain _ rest | Rebuffering _ rest => rest | _ => [] end.
(** The lines in the channel, in the calls of the layer, and in the shipper's hands. *)
Definition in_channel (w : world) : list LogEnvelope := default [] (fst <$> LokiLayer.channel (shared w)).
Definition in_calls (w : world) : list LogEnvelope := LokiLayer.line_of <$> calls w.

Record accounted (config : LokiLayerConfig) (w : world) (q : list LogEnvelope) : Prop := {
  inv_has : has (shared w) q;
  inv_channel : is_Some (LokiLayer.channel (shared w));
  inv_count x : count x (logged (ledger w)) =
    (count x (accepted (ledger w)) + count x (dropped (ledger w)) + count x (displaced (ledger w))
     + count x (abandoned (ledger w)) + count x q + count x (in_channel w) + count x (in_calls w)
     + count x (in_hand (pc w)))%nat;
  inv_fifo : buffered (ledger w) = removed (ledger w) ++ q;
  inv_drained : drained (ledger w) = settled (ledger w) ++ unsent (pc w);
  inv_dropped : Forall (fun e => le_severity e = Severity.Low) (dropped (ledger w))
                /\ (drop_low_severity_on_unavailable config = false -> dropped (ledger w) = []);
  inv_abandoned : refused_again (ledger w) = [] ->
    abandoned (ledger w) = [] /\ match pc w with RefusedAgain _ _ | Rebuffering _ _ => False | _ => True end;
}.

(** A step that leaves the layer alone: the lines move between the shipper's hands and the ledger. *)
Lemma accounted_move config w q p l es : accounted config w q ->
  LokiLayer.backlog l = LokiLayer.backlog (shared w) -> is_Some (LokiLayer.channel l) ->
  dropped es = [] -> buffered es = [] -> removed es = [] -> displaced es = [] -> abandoned es = [] ->
  drained es = [] ->
  (forall x, count x (logged es) + count x (in_hand (pc w)) + count x (in_channel w) =
    count x (accepted es) + count x (in_hand p) + count x (default [] (fst <$> LokiLayer.channel l)))%nat ->
  unsent (pc w) = settled es ++ unsent p ->
  (refused_again es = [] -> match p with RefusedAgain _ _ | Rebuffering _ _ =>
     match pc w with RefusedAgain _ _ | Rebuffering _ _ => True | _ => False end | _ => True end) ->
  accounted config (move p l es w) q.
Proof.
  intros [[Hh Hc] Hch Hn Hf Hd Hp Ha] Hb Hl Ed Eb Er Es Eab Edr Hx Hu Hr. unfold move.
  split; cbn [shared calls pc backoff ledger in_channel in_calls].
  - by split; rewrite Hb.
  - done.
  - intros x. specialize (Hn x). specialize (Hx x). unfold in_channel, in_calls in *.
    cbn [shared calls]. project. unfold logged, accepted, dropped, displaced, abandoned in *.
    rewrite Ed, Es, Eab, !count_app, count_nil. lia.
  - unfold buffered, removed in *. by rewrite !omap_app, Eb, Er, !app_nil_r.
  - unfold drained, settled in *. by rewrite !omap_app, Edr, app_nil_r, Hd, Hu, app_assoc.
  - unfold dropped in *. by rewrite omap_app, Ed, app_nil_r.
  - unfold refused_again, abandoned in *. rewrite !omap_app, Eab, app_nil_r. intros [H1 H2]%app_eq_nil.
    destruct (Ha H1) as [-> Hpc]. split; [done |]. specialize (Hr H2). by destruct p, (pc w).
Qed.

(** A step of a call of the layer, whoever makes it. *)
Lemma accounted_layer config w q l q' es before after w' : accounted config w q ->
  layer_effect config (shared w) l q q' es before after ->
  shared w' = l -> ledger w' = ledger w ++ es -> unsent (pc w') = unsent (pc w) ->
  (match pc w' with RefusedAgain _ _ | Rebuffering _ _ =>
     match pc w with RefusedAgain _ _ | Rebuffering _ _ => True | _ => False end | _ => True end) ->
  (forall x, count x (in_calls w') + count x (in_hand (pc w')) + count x before
    = count x (in_calls w) + count x (in_hand (pc w)) + count x after)%nat ->
  accounted config w' q'.
Proof.
  intros [Hh Hch Hn Hf Hd Hp Ha] [Eh Eu Ek Ef (El & Edr & Eac & Ese & Era & Eab & _ & _) Ed Ech Ec] <- El' Hu Hpc Hx.
  split; rewrite ?El', ?Hu.
  - done.
  - by apply Ech.
  - intros x. specialize (Hn x). specialize (Hx x). specialize (Ec x). unfold in_channel in *.
    unfold logged, accepted, dropped, displaced, abandoned in *.
    rewrite !omap_app, El, Eac, Eab, !app_nil_r, !count_app. lia.
  - unfold buffered, removed in *. rewrite !omap_app, Hf, <- !app_assoc. by f_equal.
  - unfold drained, settled in *. by rewrite !omap_app, Edr, Ese, !app_nil_r.
  - unfold dropped in *. rewrite omap_app. destruct Hp as [Hp1 Hp2], Ed as [Ed1 Ed2].
    split; [by apply Forall_app_2 |]. intros H. by rewrite Hp2, Ed2.
  - unfold refused_again, abandoned in *. rewrite !omap_app, Era, Eab, !app_nil_r. intros H.
    destruct (Ha H) as [-> Hpc']. split; [done |]. by destruct (pc w'), (pc w).
Qed.

Lemma accounted_log config w env q : accounted config w q ->
  accounted config (mk (shared w) (calls w ++ [LokiLayer.Reading env]) (pc w) (backoff w) (ledger w ++ [Logged env])) q.
Proof.
  intros [Hh Hch Hn Hf Hd Hp Ha]. split; cbn [shared calls pc backoff ledger]; try done.
  - intros x. specialize (Hn x). unfold in_calls, in_channel in *. cbn [shared calls]. rewrite fmap_app. tally.
    cbn [fmap list_fmap LokiLayer.line_of]. lia.
  - by project.
  - by project.
  - by project.
  - by project.
Qed.

(** A line logged by a thread, or the next step of a call in progress: the shipper stays where it is, and
    the backlog keeps what it can of its lines and of the new one. *)
Lemma background_step config warn_enabled render w ev q : accounted config w q -> is_ship ev = false ->
  let w' := step config warn_enabled render w ev in
  pc w' = pc w /\ backoff w' = backoff w /\ unavailable w' = unavailable w
  /\ exists es, ledger w' = ledger w ++ es
    /\ drained es = [] /\ accepted es = [] /\ refused_again es = [] /\ abandoned es = [] /\ pauses es = []
    /\ accounted config w' (keep (q ++ buffered es)).
Proof.
  intros Ha. pose proof (has_keep _ _ (inv_has _ _ _ Ha)) as Hk. destruct ev as [env | i | ok]; intros Hs; [| | done]; cbn [step].
  - split_and!; try done. exists [Logged env]. split_and!; try done. cbn. rewrite app_nil_r, Hk.
    by apply accounted_log.
  - destruct (calls w !! i) as [c |] eqn:Hi.
    + destruct (call_step_effect config c (shared w) q (inv_has _ _ _ Ha)) as (c' & l & es & q' & -> & He).
      pose proof He as [_ Eu Ek _ (_ & Edr & Eac & Ese & Era & Eab & Eat & Epa) _ _ _].
      split_and!; try done. exists es. split_and!; try done. rewrite <- Ek.
      eapply accounted_layer; [done | exact He | done | done | done | by destruct (pc w) |].
      intros x. unfold in_calls. cbn [calls pc].
      pose proof (f_equal (fun l => count x (LokiLayer.line_of <$> l)) (take_drop_middle _ _ _ Hi)) as Hm.
      cbn beta in Hm. rewrite <- Hm, !fmap_app, fmap_cons. clear Hm.
      replace (LokiLayer.line_of <$> option_list c') with (option_list (LokiLayer.line_of <$> c')) by by destruct c'.
      rewrite !count_app, (count_cons x (LokiLayer.line_of c) (_ <$> drop _ _)). lia.
    + split_and!; try done. exists []. rewrite app_nil_r. split_and!; try done. cbn. by rewrite app_nil_r, Hk.
Qed.

Lemma ship_accounted config warn_enabled render ok w q : accounted config w q ->
  exists q', accounted config (ship config warn_enabled render ok w) q'.
Proof.
  intros Ha. pose proof (inv_channel _ _ _ Ha) as Hch. unfold ship. destruct (pc w) as [| e | e | e [c |] | e | | | | [| e rest] | e rest | e rest |] eqn:Hpc.
  - destruct Hch as [[ch room] Hch]. rewrite Hch. destruct ch as [| e ch]; [by exists q |]. exists q.
    apply accounted_move; cbn; rewrite ?Hpc; try done. intros x. unfold in_channel. rewrite Hch. cbn. tally. lia.
  - exists q. apply accounted_move; rewrite ?Hpc; try done; destruct ok; try done.
    all: intros x; unfold in_channel; cbn; tally; lia.
  - exists q. destruct warn_enabled; apply accounted_move; cbn; rewrite ?Hpc; try done;
      intros x; unfold in_channel; cbn; tally; lia.
  - destruct (call_step_effect config c (shared w) q (inv_has _ _ _ Ha)) as (c' & l & es & q' & -> & He).
    exists q'. eapply accounted_layer; [done | exact He | done | done | |done |]; cbn; rewrite Hpc; [done |].
    intros x. unfold in_calls. cbn. tally. lia.
  - exists q. apply accounted_move; cbn; rewrite ?Hpc; try done.
  - exists q. pose proof (accounted_move config w q (Pushing e) (shared w) [Paused (backoff w)] Ha) as H.
    cbn in H. rewrite Hpc in H. destruct H as [Hh Hc Hn Hf Hd Hp Hab]; try done.
  - exists q. apply accounted_move; rewrite ?Hpc; try done; by destruct (LokiLayer.unavailable (shared w)).
  - exists q. apply accounted_move; cbn; rewrite ?Hpc; try done.
  - destruct Ha as [[Hh Hc] _ Hn Hf Hd Hp Hab]. rewrite Hpc in *.
    pose proof (BoundedRingLogBuffer.drain_holds _ _ Hh) as Hdr.
    destruct (BoundedRingLogBuffer.drain (LokiLayer.backlog (shared w))) as [lines b].
    destruct Hdr as (-> & Hb & Hcb). exists []. split; cbn [move shared calls pc backoff ledger].
    + split; [done | by rewrite <- Hc].
    + done.
    + intros x. specialize (Hn x). unfold in_channel, in_calls in *. cbn in Hn |- *. tally. lia.
    + project. by rewrite Hf.
    + project. rewrite Hd. cbn. by rewrite !app_nil_r.
    + by project.
    + by project.
  - exists q. apply accounted_move; cbn; rewrite ?Hpc; try done.
  - exists q. apply accounted_move; rewrite ?Hpc; try done; destruct ok; try done;
      intros x; unfold in_channel; cbn; tally; lia.
  - exists q. apply accounted_move; cbn; rewrite ?Hpc; try done.
  - pose proof (buffer_effect config e (shared w) q (inv_has _ _ _ Ha)) as He.
    destruct (LokiLayer.buffer e (shared w)) as [l es].
    pose proof (effect_quiet _ _ _ _ _ _ _ _ He) as Hes.
    pose proof (accounted_layer config w q l _ es [e] [] (mk l (calls w) (Resending rest) (backoff w) (ledger w ++ es))
      Ha He eq_refl eq_refl) as H. cbn [pc] in H. rewrite Hpc in H.
    destruct H as [Hh Hc Hn Hf Hd Hp Hab]; [done | done | |].
    { intros x. cbn. unfold in_calls. cbn. tally. lia. }
    exists (keep (q ++ [e])). split; cbn [move shared calls pc backoff ledger in_hand unsent] in *; try done.
    + intros x. specialize (Hn x). unfold in_channel, in_calls in *. unfold move.
      cbn [shared calls] in *. revert Hn. rewrite app_assoc. tally. intros Hn. lia.
    + revert Hf. rewrite app_assoc. by project.
    + revert Hd. rewrite app_assoc. by project.
    + revert Hp. rewrite app_assoc. by project.
    + intros Hr. exfalso. destruct (inv_abandoned _ _ _ Ha) as [_ Hf']; [| by rewrite Hpc in Hf'].
      revert Hr. project. by intros [? _]%app_eq_nil.
  - exists q. destruct Ha as [Hh Hc Hn Hf Hd Hp Hab]. rewrite Hpc in *. by split.
Qed.

Lemma init_accounted config w : init = Some w -> accounted config w [].
Proof.
  intros H. unfold init in H. destruct (BoundedRingLogBuffer.new LOKI_BACKLOG_CAPACITY) as [b |] eqn:Hb; [| discriminate H].
  injection H as <-. apply BoundedRingLogBuffer.holds_new in Hb as [Hh Hc].
  by split.
Qed.

Lemma run_keeps_account config warn_enabled render evs w q : accounted config w q ->
  exists q', accounted config (run config warn_enabled render evs w) q'.
Proof.
  revert w q. induction evs as [| ev evs IH]; intros w q Ha; [by exists q |].
  assert (exists q1, accounted config (step config warn_enabled render w ev) q1) as [q1 H1]; [| by apply (IH _ q1)].
  destruct (is_ship ev) eqn:He.
  - destruct ev as [| | ok]; try discriminate He. by apply (ship_accounted _ _ _ ok w q).
  - destruct (background_step config warn_enabled render w ev q Ha He) as (_ & _ & _ & es & _ & _ & _ & _ & _ & _ & H).
    by eexists.
Qed.

(** *** Pauses and the flag *)

(** The pause before the retry that follows [k] failures in a row, and the pauses that follow the answers
    to the lines from the channel. *)
Definition pause (k : nat) : Z := Z.min (INITIAL_BACKOFF_MS * 2 ^ Z.of_nat k) MAX_BACKOFF_MS.
Fixpoint schedule (k : nat) (answers : list bool) : list Z :=
  match answers with
  | [] => []
  | true :: answers => schedule 0 answers
  | false :: answers => pause k :: schedule (S k) answers
  end.
Definition streak (k : nat) (answers : list bool) : nat := 
  fold_left (fun (k : nat) (ok : bool) => if ok then 0%nat else S k) answers k.

Lemma pause_next k : Z.min (pause k * 2) MAX_BACKOFF_MS = pause (S k).
Proof.
  unfold pause, INITIAL_BACKOFF_MS, MAX_BACKOFF_MS. rewrite Nat2Z.inj_succ, Z.pow_succ_r by lia.
  pose proof (Z.pow_pos_nonneg 2 (Z.of_nat k)). lia.
Qed.

Lemma schedule_app k a b : schedule k (a ++ b) = schedule k a ++ schedule (streak k a) b.
Proof. revert k. induction a as [| [|] a IH]; intros k; [done | apply IH |]. cbn. f_equal. apply IH. Qed.
Lemma streak_app k a b : streak k (a ++ b) = streak (streak k a) b.
Proof. apply fold_left_app. Qed.

(** The collector's answers, and the last one. *)
Definition answers : list entry -> list bool := 
  omap (fun x : entry => match x with Pushed _ ok _ => Some ok | _ => None end).
Definition last_answer (es : list entry) : bool := default true (last (answers es)).

(** The pause the shipper owes a refused push. *)
Definition owed (w : world) : list Z :=
  match pc w with Refused _ | Warning _ _ | Sleeping _ => [backoff w] | _ => [] end.

Record paced (w : world) : Prop := {
  paced_pauses : pauses (ledger w) ++ owed w = schedule 0 (attempts (ledger w));
  paced_backoff : match pc w with
    | Receiving | Pushing _ => backoff w = pause (streak 0 (attempts (ledger w)))
    | Refused _ | Warning _ _ | Sleeping _ =>
      exists k, streak 0 (attempts (ledger w)) = S k /\ backoff w = pause k
    | _ => streak 0 (attempts (ledger w)) = 0%nat
    end;
  paced_flag : match pc w with
    | Accepted | Clearing => last_answer (ledger w) = true
    | Refused _ | RefusedAgain _ _ => last_answer (ledger w) = false
    | Draining | Resending _ => unavailable w = false /\ last_answer (ledger w) = true
    | _ => unavailable w = negb (last_answer (ledger w))
    end;
}.

(** Entries that are no pushes and no pauses. *)
Definition silent (es : list entry) : Prop :=
  pauses es = [] /\ attempts es = [] /\ answers es = [].

Lemma silent_ledger es l : silent es ->
  pauses (l ++ es) = pauses l /\ attempts (l ++ es) = attempts l /\ last_answer (l ++ es) = last_answer l.
Proof.
  intros (H1 & H2 & H3). unfold pauses, attempts, last_answer, answers in *.
  by rewrite !omap_app, H1, H2, H3, !app_nil_r.
Qed.

Lemma buffer_silent env l : silent (LokiLayer.buffer env l).2 /\ LokiLayer.unavailable (LokiLayer.buffer env l).1 = LokiLayer.unavailable l.
Proof. unfold LokiLayer.buffer. destruct (BoundedRingLogBuffer.push env (LokiLayer.backlog l)) as [[old |] b]; done. Qed.
Lemma call_step_silent config c l :
  let '(_, l', es) := LokiLayer.call_step config c l in silent es /\ LokiLayer.unavailable l' = LokiLayer.unavailable l.
Proof.
  destruct c as [env | env | env]; cbn [LokiLayer.call_step].
  - destruct l as [u ch b]. cbn. by destruct u, (le_severity env), (drop_low_severity_on_unavailable config).
  - destruct (LokiLayer.channel l) as [[ch room] |]; [| done]. by destruct (length ch <? room)%nat.
  - pose proof (buffer_silent env l) as H. by destruct (LokiLayer.buffer env l).
Qed.

Lemma pushed_ledger again ok e l :
  pauses (l ++ [Pushed again ok e]) = pauses l
  /\ attempts (l ++ [Pushed again ok e]) = attempts l ++ (if again then [] else [ok])
  /\ last_answer (l ++ [Pushed again ok e]) = ok.
Proof.
  unfold pauses, attempts, last_answer, answers. rewrite !omap_app. cbn. rewrite app_nil_r, last_snoc.
  by destruct again.
Qed.

Lemma silent_nil : silent [].
Proof. done. Qed.
Lemma silent_app es es' : silent es -> silent es' -> silent (es ++ es').
Proof.
  intros (H1 & H2 & H3) (H4 & H5 & H6). unfold silent, pauses, attempts, answers in *. rewrite !omap_app.
  by rewrite H1, H2, H3, H4, H5, H6.
Qed.
Lemma silent_drained lines : silent (Drained <$> lines).
Proof. unfold silent, answers. by project. Qed.
Lemma silent_abandoned lines : silent (Abandoned <$> lines).
Proof. unfold silent, answers. by project. Qed.

(** A step whose entries are silent, from a point to another that owes as much. *)
Lemma paced_move w p l es : paced w -> silent es ->
  match pc w, p with
  | Receiving, Pushing _ | Draining, Resending _ | Resending _, Resetting =>
      LokiLayer.unavailable l = unavailable w
  | Refused _, Warning _ _ => LokiLayer.unavailable l = true
  | Warning _ _, (Warning _ _ | Sleeping _) => LokiLayer.unavailable l = unavailable w
  | Accepted, Clearing => True
  | Accepted, Resetting | Clearing, Draining => LokiLayer.unavailable l = false
  | RefusedAgain _ _, Rebuffering _ _ => LokiLayer.unavailable l = true
  | Rebuffering _ _, Resetting => LokiLayer.unavailable l = unavailable w
  | _, _ => False
  end -> paced (move p l es w).
Proof.
  intros [Hp Hb Hf] Hs Hm. destruct (silent_ledger es (ledger w) Hs) as (E1 & E2 & E3).
  unfold move. split; unfold owed, unavailable in *; cbn [pc ledger backoff shared]; rewrite ?E1, ?E2, ?E3;
    destruct (pc w), p; try done;
    try (lazymatch type of Hf with _ /\ _ => destruct Hf as [Hf ->] end); by rewrite ?Hm, ?Hf.
Qed.

Lemma ship_paced config warn_enabled render ok w : paced w -> paced (ship config warn_enabled render ok w).
Proof.
  intros Hw. pose proof Hw as [Hp Hb Hf]. unfold ship.
  destruct (pc w) as [| e | e | e [c |] | e | | | | [| e rest] | e rest | e rest |] eqn:Hpc.
  - destruct (LokiLayer.channel (shared w)) as [[[| e ch] room] |]; try done.
    apply paced_move; [done.. | by rewrite Hpc].
  - destruct (pushed_ledger false ok e (ledger w)) as (E1 & E2 & E3). unfold owed in Hp. rewrite Hpc in Hp.
    split; unfold owed, unavailable; cbn [move pc ledger backoff shared]; rewrite ?E1, ?E2, ?E3, ?schedule_app, ?streak_app.
    + rewrite <- Hp, app_nil_r, Hb. by destruct ok.
    + destruct ok; [done |]. cbn. by eexists.
    + by destruct ok.
  - destruct warn_enabled; (apply paced_move; [done.. | by rewrite Hpc]).
  - pose proof (call_step_silent config c (shared w)) as H.
    destruct (LokiLayer.call_step config c (shared w)) as [[c' l] es]. destruct H as [Hs Hu].
    apply paced_move; [done.. | by rewrite Hpc].
  - apply paced_move; [done.. | by rewrite Hpc].
  - destruct Hb as (k & Hk & Hb). unfold owed in Hp. rewrite Hpc in Hp.
    split; unfold owed, unavailable in *; cbn [pc ledger backoff shared];
      unfold pauses, attempts, last_answer, answers in *; rewrite !omap_app, ?app_nil_r; [done | | done].
    by rewrite Hk, Hb, pause_next.
  - destruct (LokiLayer.unavailable (shared w)) eqn:Hu; (apply paced_move; [done.. | by rewrite Hpc]).
  - apply paced_move; [done.. | by rewrite Hpc].
  - destruct (BoundedRingLogBuffer.drain (LokiLayer.backlog (shared w))) as [lines b].
    apply paced_move; [done | apply silent_drained | by rewrite Hpc].
  - apply paced_move; [done.. | by rewrite Hpc].
  - destruct (pushed_ledger true ok e (ledger w)) as (E1 & E2 & E3). unfold owed in Hp. rewrite Hpc in Hp.
    split; unfold owed, unavailable; cbn [move pc ledger backoff shared]; rewrite ?E1, ?E2, ?E3, ?app_nil_r in *.
    + destruct ok; by rewrite ?app_nil_r.
    + by destruct ok.
    + by destruct ok, Hf.
  - apply paced_move; [done.. | by rewrite Hpc].
  - pose proof (buffer_silent e (shared w)) as [Hs Hu]. destruct (LokiLayer.buffer e (shared w)) as [l es].
    apply paced_move; [done | by apply silent_app, silent_abandoned | by rewrite Hpc].
  - unfold owed in Hp. rewrite Hpc in Hp. split; unfold owed, unavailable; cbn [pc ledger backoff shared]; [done | by rewrite Hb | done].
Qed.

Lemma run_paced config warn_enabled render evs w : paced w -> paced (run config warn_enabled render evs w).
Proof.
  revert w. induction evs as [| ev evs IH]; intros w Hw; [done |]. apply IH. clear IH.
  destruct ev as [env | i | ok]; cbn [step]; [| | by apply ship_paced].
  - destruct Hw as [Hp Hb Hf]. destruct (silent_ledger [Logged env] (ledger w)) as (E1 & E2 & E3); [done |].
    split; unfold owed, unavailable in *; cbn [pc backoff ledger shared]; by rewrite ?E1, ?E2, ?E3.
  - destruct (calls w !! i) as [c |]; [| done]. destruct Hw as [Hp Hb Hf].
    pose proof (call_step_silent config c (shared w)) as H.
    destruct (LokiLayer.call_step config c (shared w)) as [[c' l] es]. destruct H as [Hs Hu].
    destruct (silent_ledger es (ledger w) Hs) as (E1 & E2 & E3).
    split; unfold owed, unavailable in *; cbn [pc backoff ledger shared]; by rewrite ?E1, ?E2, ?E3, ?Hu.
Qed.

Lemma init_paced w : init = Some w -> paced w.
Proof.
  intros H. unfold init in H. destruct (BoundedRingLogBuffer.new LOKI_BACKLOG_CAPACITY) as [b |]; [| discriminate H].
  by injection H as <-.
Qed.

(** *** The end of an outage *)

(** Between two worlds, [sent] was accepted and [more] was buffered; nothing was refused again or
    abandoned, and the shipper did not pause. *)
Record progress (w w' : world) (sent more : list LogEnvelope) : Prop := {
  progress_accepted : accepted (ledger w') = accepted (ledger w) ++ sent;
  progress_buffered : buffered (ledger w') = buffered (ledger w) ++ more;
  progress_refused : refused_again (ledger w') = refused_again (ledger w);
  progress_abandoned : abandoned (ledger w') = abandoned (ledger w);
  progress_pauses : pauses (ledger w') = pauses (ledger w);
}.

Lemma progress_trans w1 w2 w3 s1 m1 s2 m2 :
  progress w1 w2 s1 m1 -> progress w2 w3 s2 m2 -> progress w1 w3 (s1 ++ s2) (m1 ++ m2).
Proof. intros [] []. split; try congruence; rewrite app_assoc; congruence. Qed.

Lemma progress_ledger w w' es : ledger w' = ledger w ++ es ->
  refused_again es = [] -> abandoned es = [] -> pauses es = [] -> progress w w' (accepted es) (buffered es).
Proof.
  intros El H1 H2 H3. unfold refused_again, abandoned, pauses in *.
  split; unfold accepted, buffered, refused_again, abandoned, pauses; by rewrite El, omap_app, ?H1, ?H2, ?H3, ?app_nil_r.
Qed.

Section recovery.
Context (config : LokiLayerConfig) (warn_enabled : bool) (render : list entry -> Z -> Z * string).
Local Abbreviation run := (run config warn_enabled render).
Local Abbreviation ship := (ship config warn_enabled render).
Local Abbreviation accounted := (accounted config).

(** What is behind a world: the backlog it has determines the queue. *)
Lemma accounted_queue w w' q q' : accounted w q -> accounted w' q' -> backlog w' = backlog w -> q' = q.
Proof.
  intros [[H _] _ _ _ _ _ _] [[H' _] _ _ _ _ _ _] Hb. unfold backlog in Hb. rewrite Hb in H'.
  apply BoundedRingLogBuffer.holds_contents in H, H'. congruence.
Qed.
Lemma ship_accounted_same ok w q : accounted w q -> backlog (ship ok w) = backlog w -> accounted (ship ok w) q.
Proof.
  intros Ha Hb. destruct (ship_accounted config warn_enabled render ok w q Ha) as [q' H].
  by rewrite <- (accounted_queue _ _ _ _ Ha H Hb).
Qed.

(** The events up to the next step of the shipper. *)
Lemma advance evs w q : accounted w q -> Forall up evs -> (0 < ships evs)%nat ->
  exists evs1 evs2 w1 more, evs = evs1 ++ evs2 /\ ships evs = S (ships evs2) /\ Forall up evs2
    /\ run evs1 w = ship true w1 /\ pc w1 = pc w /\ backoff w1 = backoff w /\ unavailable w1 = unavailable w
    /\ progress w w1 [] more /\ accounted w1 (keep (q ++ more)).
Proof.
  revert w q. induction evs as [| ev evs IH]; intros w q Ha Hup Hn; [cbn in Hn; lia |].
  apply Forall_cons in Hup as [Hev Hup]. destruct (is_ship ev) eqn:Hs.
  - destruct ev as [| | ok]; try discriminate Hs. cbn in Hev. subst ok.
    exists [Ship true], evs, w, []. split_and!; try done.
    + by split; rewrite ?app_nil_r.
    + by rewrite app_nil_r, (has_keep _ _ (inv_has _ _ _ Ha)).
  - destruct (background_step config warn_enabled render w ev q Ha Hs)
      as (Ep & Eb & Eu & es & El & _ & Eac & Er & Eab & Epa & Ha').
    assert (ships (ev :: evs) = ships evs) as Hships by (unfold ships; cbn; by rewrite Hs).
    destruct (IH _ _ Ha' Hup) as (evs1 & evs2 & w1 & more & -> & Hn2 & Hup2 & Hrun & H1 & H2 & H3 & Hpr & Hacc);
      [by rewrite <- Hships |].
    exists (ev :: evs1), evs2, w1, (buffered es ++ more). rewrite Hships. split_and!; try congruence; try done.
    + pose proof (progress_ledger _ _ _ El Er Eab Epa) as Hpe. rewrite Eac in Hpe. by apply (progress_trans _ _ _ _ _ [] _ Hpe).
    + by rewrite app_assoc, <- keep_keep.
Qed.

(** The same with the step of the shipper: [next] is what that step does at this point of the program. *)
Lemma stage evs w q sent (next : world -> list LogEnvelope -> Prop) : accounted w q -> Forall up evs -> (0 < ships evs)%nat ->
  (forall w1 q1, pc w1 = pc w -> unavailable w1 = unavailable w -> accounted w1 q1 ->
     progress w1 (ship true w1) sent [] /\ next (ship true w1) q1) ->
  exists evs1 evs2 w2 more, evs = evs1 ++ evs2 /\ ships evs = S (ships evs2) /\ Forall up evs2 /\ run evs1 w = w2
    /\ progress w w2 sent more /\ next w2 (keep (q ++ more)).
Proof.
  intros Ha Hup Hn Hnext.
  destruct (advance evs w q Ha Hup Hn) as (evs1 & evs2 & w1 & more & E & Hs & Hup2 & Hrun & Hp & _ & Hu & Hpr & Ha1).
  destruct (Hnext w1 _ Hp Hu Ha1) as [Hpr2 Hnx]. exists evs1, evs2, (ship true w1), more. split_and!; try done.
  rewrite <- (app_nil_r more). exact (progress_trans _ _ _ _ _ _ _ Hpr Hpr2).
Qed.

(** A step that adds one entry, or none. *)
Lemma progress_move p l w : progress w (move p l [] w) [] [].
Proof. by apply (progress_ledger w _ []). Qed.

(** The flag is up and the line is accepted: four steps later the backlog has been drained. *)
Lemma until_drained evs w q e : accounted w q -> pc w = Pushing e -> unavailable w = true ->
  Forall up evs -> (4 <= ships evs)%nat ->
  exists evs1 evs2 w' more, evs = evs1 ++ evs2 /\ ships evs = (4 + ships evs2)%nat /\ Forall up evs2
    /\ run evs1 w = w' /\ progress w w' [e] more
    /\ pc w' = Resending (keep (q ++ more)) /\ unavailable w' = false /\ accounted w' [].
Proof.
  intros Ha Hp Hu Hup Hn.
  destruct (stage evs w q [e] (fun w2 q2 => pc w2 = Accepted /\ unavailable w2 = true /\ accounted w2 q2) Ha Hup)
    as (evs1 & evs2 & w2 & m1 & -> & Hn1 & Hup2 & Hr1 & P1 & Hp2 & Hu2 & Ha2); [lia | |].
  { intros w1 q1 E1 E2 Ha1. pose proof (ship_accounted_same true w1 q1 Ha1) as Hs.
    unfold LokiShipper.ship in *. rewrite Hp in E1. rewrite E1 in *. split; [by apply (progress_ledger w1 _ [Pushed false true e]) |].
    split_and!; [done | by rewrite <- Hu | by apply Hs]. }
  destruct (stage evs2 w2 _ [] (fun w3 q3 => pc w3 = Clearing /\ accounted w3 q3) Ha2 Hup2)
    as (evs3 & evs4 & w3 & m2 & -> & Hn3 & Hup4 & Hr2 & P2 & Hp3 & Ha3); [lia | |].
  { intros w1 q1 E1 E2 Ha1. pose proof (ship_accounted_same true w1 q1 Ha1) as Hs.
    unfold LokiShipper.ship in *. rewrite Hp2 in E1. rewrite E1 in *. unfold unavailable in E2, Hu2. rewrite E2, Hu2 in *.
    split; [apply progress_move |]. split; [done | by apply Hs]. }
  destruct (stage evs4 w3 _ [] (fun w4 q4 => pc w4 = Draining /\ unavailable w4 = false /\ accounted w4 q4) Ha3 Hup4)
    as (evs5 & evs6 & w4 & m3 & -> & Hn5 & Hup6 & Hr3 & P3 & Hp4 & Hu4 & Ha4); [lia | |].
  { intros w1 q1 E1 E2 Ha1. pose proof (ship_accounted_same true w1 q1 Ha1) as Hs.
    unfold LokiShipper.ship in *. rewrite Hp3 in E1. rewrite E1 in *.
    split; [apply progress_move |]. split_and!; [done | done | by apply Hs]. }
  destruct (stage evs6 w4 _ [] (fun w5 q5 => pc w5 = Resending q5 /\ unavailable w5 = false /\ accounted w5 []) Ha4 Hup6)
    as (evs7 & evs8 & w5 & m4 & -> & Hn7 & Hup8 & Hr4 & P4 & Hp5 & Hu5 & Ha5); [lia | |].
  { intros w1 q1 E1 E2 Ha1. pose proof (ship_accounted config warn_enabled render true w1 q1 Ha1) as [q' Hs].
    unfold LokiShipper.ship in *. rewrite Hp4 in E1. rewrite E1 in *.
    destruct (inv_has _ _ _ Ha1) as [Hh _]. pose proof (BoundedRingLogBuffer.drain_holds _ _ Hh) as Hd.
    destruct (BoundedRingLogBuffer.drain (LokiLayer.backlog (shared w1))) as [lines b]. destruct Hd as (-> & Hb & _).
    assert (q' = []) as -> by (apply BoundedRingLogBuffer.holds_contents in Hb; rewrite <- Hb;
      symmetry; apply BoundedRingLogBuffer.holds_contents; apply (inv_has _ _ _ Hs)).
    split; [| split_and!; [done | by rewrite <- Hu4 | done]].
    pose proof (progress_ledger w1 (move (Resending q1) (LokiLayer.set_backlog b (shared w1)) (Drained <$> q1) w1) (Drained <$> q1) eq_refl) as H.
    revert H. unfold accepted, buffered, refused_again, abandoned, pauses. project. intros H. by apply H. }
  exists (evs1 ++ evs3 ++ evs5 ++ evs7), evs8, w5, (m1 ++ m2 ++ m3 ++ m4).
  pose proof (progress_trans _ _ _ _ _ _ _ P1 (progress_trans _ _ _ _ _ _ _ P2 (progress_trans _ _ _ _ _ _ _ P3 P4))) as P.
  split_and!; [by rewrite <- !app_assoc | lia | done | | done | | done | done].
  - unfold LokiShipper.run in *. by rewrite !fold_left_app, Hr1, Hr2, Hr3, Hr4.
  - rewrite Hp5. f_equal. by repeat first [rewrite keep_keep | rewrite <- app_assoc].
Qed.

(** The drained lines, one by one, and the reset of the backoff. *)
Lemma until_resent lines : forall evs w q, accounted w q -> pc w = Resending lines -> unavailable w = false ->
  Forall up evs -> (length lines + 2 <= ships evs)%nat ->
  exists evs1 evs2 w' more, evs = evs1 ++ evs2 /\ ships evs = (length lines + 2 + ships evs2)%nat
    /\ run evs1 w = w' /\ progress w w' lines more
    /\ pc w' = Receiving /\ unavailable w' = false /\ backoff w' = INITIAL_BACKOFF_MS /\ accounted w' (keep (q ++ more)).
Proof.
  induction lines as [| line lines IH]; intros evs w q Ha Hp Hu Hup Hn; cbn [length] in Hn.
  - destruct (stage evs w q [] (fun w2 q2 => pc w2 = Resetting /\ unavailable w2 = false /\ accounted w2 q2) Ha Hup)
      as (evs1 & evs2 & w2 & m1 & -> & Hn1 & Hup2 & Hr1 & P1 & Hp2 & Hu2 & Ha2); [lia | |].
    { intros w1 q1 E1 E2 Ha1. pose proof (ship_accounted_same true w1 q1 Ha1) as Hs.
      unfold LokiShipper.ship in *. rewrite Hp in E1. rewrite E1 in *.
      split; [apply progress_move |]. split_and!; [done | by rewrite <- Hu | by apply Hs]. }
    destruct (stage evs2 w2 _ [] (fun w3 q3 => pc w3 = Receiving /\ unavailable w3 = false /\
        backoff w3 = INITIAL_BACKOFF_MS /\ accounted w3 q3) Ha2 Hup2)
      as (evs3 & evs4 & w3 & m2 & -> & Hn3 & Hup4 & Hr2 & P2 & Hp3 & Hu3 & Hb3 & Ha3); [lia | |].
    { intros w1 q1 E1 E2 Ha1. pose proof (ship_accounted_same true w1 q1 Ha1) as Hs.
      unfold LokiShipper.ship in *. rewrite Hp2 in E1. rewrite E1 in *.
      split; [by split; rewrite ?app_nil_r |]. split_and!; [done | by rewrite <- Hu2 | done | by apply Hs]. }
    exists (evs1 ++ evs3), evs4, w3, (m1 ++ m2).
    pose proof (progress_trans _ _ _ _ _ _ _ P1 P2) as P.
    split_and!; try done; [by rewrite <- app_assoc | cbn; lia | | by rewrite app_assoc, <- keep_keep].
    unfold LokiShipper.run in *. by rewrite fold_left_app, Hr1.
  - destruct (stage evs w q [line] (fun w2 q2 => pc w2 = Resending lines /\ unavailable w2 = false /\ accounted w2 q2) Ha Hup)
      as (evs1 & evs2 & w2 & m1 & -> & Hn1 & Hup2 & Hr1 & P1 & Hp2 & Hu2 & Ha2); [lia | |].
    { intros w1 q1 E1 E2 Ha1. pose proof (ship_accounted_same true w1 q1 Ha1) as Hs.
      unfold LokiShipper.ship in *. rewrite Hp in E1. rewrite E1 in *.
      split; [by apply (progress_ledger w1 _ [Pushed true true line]) |]. split_and!; [done | by rewrite <- Hu | by apply Hs]. }
    destruct (IH evs2 w2 _ Ha2 Hp2 Hu2 Hup2) as (evs3 & evs4 & w3 & m2 & -> & Hn3 & Hr2 & P2 & H1 & H2 & H3 & H4); [lia |].
    exists (evs1 ++ evs3), evs4, w3, (m1 ++ m2). pose proof (progress_trans _ _ _ _ _ _ _ P1 P2) as P.
    split_and!; try done; [by rewrite <- app_assoc | cbn [length]; lia | | by rewrite app_assoc, <- keep_keep].
    unfold LokiShipper.run in *. by rewrite fold_left_app, Hr1.
Qed.
End recovery.

Lemma keep_length q : (length (keep q) <= LOKI_BACKLOG_CAPACITY)%nat.
Proof. unfold keep. rewrite length_drop. lia. Qed.

Lemma ships_app a b : ships (a ++ b) = (ships a + ships b)%nat.
Proof. unfold ships. by rewrite List.filter_app, length_app. Qed.

(** The two together: the end of an outage. *)
Lemma outage_ends config warn_enabled render w q env evs : accounted config w q ->
  pc w = Pushing env -> unavailable w = true -> Forall up evs -> (LOKI_BACKLOG_CAPACITY + 6 <= ships evs)%nat ->
  exists evs1 evs2 early late, evs = evs1 ++ evs2 /\
    let lines := keep (q ++ early) in
    let w' := run config warn_enabled render evs1 w in
    ships evs1 = (length lines + 6)%nat
    /\ accepted (ledger w') = accepted (ledger w) ++ env :: lines
    /\ buffered (ledger w') = buffered (ledger w) ++ early ++ late
    /\ BoundedRingLogBuffer.contents (backlog w') = keep late
    /\ abandoned (ledger w') = abandoned (ledger w) /\ pauses (ledger w') = pauses (ledger w)
    /\ pc w' = Receiving /\ unavailable w' = false /\ backoff w' = INITIAL_BACKOFF_MS.
Proof.
  intros Ha Hp Hu Hup Hn.
  destruct (until_drained config warn_enabled render evs w q env Ha Hp Hu Hup)
    as (evs1 & evs2 & w1 & early & -> & Hn1 & Hup2 & Hr1 & P1 & Hp1 & Hu1 & Ha1); [lia |].
  pose proof (keep_length (q ++ early)) as Hlen.
  destruct (until_resent config warn_enabled render _ evs2 w1 [] Ha1 Hp1 Hu1 Hup2)
    as (evs3 & evs4 & w2 & late & -> & Hn2 & Hr2 & P2 & Hp2 & Hu2 & Hb2 & Ha2); [lia |].
  exists (evs1 ++ evs3), evs4, early, late. split; [by rewrite <- app_assoc |]. cbn zeta.
  assert (run config warn_enabled render (evs1 ++ evs3) w = w2) as ->
    by (unfold run in *; by rewrite fold_left_app, Hr1).
  destruct (progress_trans _ _ _ _ _ _ _ P1 P2) as [E1 E2 _ E3 E4].
  split_and!; try done.
  - rewrite !ships_app in *. lia.
  - by apply BoundedRingLogBuffer.holds_contents, (inv_has _ _ _ Ha2).
Qed.

(** *** What the backlog does not do *)

(** While the collector accepts and the flag is down, nothing is drained. *)
Lemma calm_step config warn_enabled render ev w q : accounted config w q -> up ev -> unavailable w = false ->
  match pc w with Receiving | Pushing _ | Accepted | Resetting => True | _ => False end ->
  let w' := step config warn_enabled render w ev in
  drained (ledger w') = drained (ledger w) /\ unavailable w' = false
  /\ match pc w' with Receiving | Pushing _ | Accepted | Resetting => True | _ => False end.
Proof.
  intros Ha Hup Hu Hpc w'. subst w'. destruct (is_ship ev) eqn:Hs.
  - destruct ev as [| | ok]; try discriminate Hs. cbn in Hup. subst ok. cbn [step]. unfold ship, unavailable in *.
    destruct (pc w) eqn:Hp; try done.
    + destruct (LokiLayer.channel (shared w)) as [[[| e ch] room] |]; cbn [move ledger shared pc]; rewrite ?Hp, ?app_nil_r; done.
    + cbn [move ledger shared pc]. split; [| done]. by project.
    + rewrite Hu. cbn [move ledger shared pc]. by rewrite app_nil_r.
  - destruct (background_step config warn_enabled render w ev q Ha Hs) as (-> & _ & -> & es & -> & Hd & _).
    split_and!; try done. unfold drained in *. by rewrite omap_app, Hd, app_nil_r.
Qed.

Lemma calm_run config warn_enabled render evs : forall w q, accounted config w q -> Forall up evs -> unavailable w = false ->
  match pc w with Receiving | Pushing _ | Accepted | Resetting => True | _ => False end ->
  drained (ledger (run config warn_enabled render evs w)) = drained (ledger w).
Proof.
  induction evs as [| ev evs IH]; intros w q Ha Hup Hu Hpc; [done |]. apply Forall_cons in Hup as [Hev Hup].
  destruct (calm_step config warn_enabled render ev w q Ha Hev Hu Hpc) as (E & Hu' & Hpc').
  destruct (run_keeps_account config warn_enabled render [ev] w q Ha) as [q' Ha'].
  change (run config warn_enabled render (ev :: evs) w) with (run config warn_enabled render evs (step config warn_enabled render w ev)).
  etrans; [exact (IH _ q' Ha' Hup Hu' Hpc') | exact E].
Qed.
End ShipperFacts.

(** ** The sampler of traces *)

Module DownsampledSampler.
Record t := mk { overload_keep_ratio : f64 }.

Definition new (ratio : f64) : t := mk (if f_is_nan ratio then f_zero else f_clamp f_zero f64_one ratio).
Definition keep_ratio (s : t) : f64 := overload_keep_ratio s.
Definition threshold (s : t) : Z := f_as_u64 (f64_mul (f64_of_Z u64_max) (overload_keep_ratio s)).
(** A trace identifier is 16 bytes; its last 8 decide. *)
Definition keep_decision (s : t) (trace_id : list Z) : bool := from_be (drop 8 trace_id) <? threshold s.

Inductive decision := RecordAndSample | Drop.
Definition should_sample (s : t) (jaeger_overloaded : bool) (trace_id : list Z) : decision :=
  if jaeger_overloaded then if keep_decision s trace_id then RecordAndSample else Drop
  else RecordAndSample.
End DownsampledSampler.

(** An overloaded collector keeps a fixed share of the traces, the same for every span of a trace, more
    for a greater ratio. *)
Lemma sampling_is_monotone s1 s2 id : 
  DownsampledSampler.threshold s1 <= DownsampledSampler.threshold s2 ->
  DownsampledSampler.should_sample s1 true id = DownsampledSampler.RecordAndSample ->
  DownsampledSampler.should_sample s2 true id = DownsampledSampler.RecordAndSample.
Proof.
  intros Ht. cbn. unfold DownsampledSampler.keep_decision.
  destruct (Z.ltb_spec (from_be (drop 8 id)) (DownsampledSampler.threshold s1)); [| done].
  by destruct (Z.ltb_spec (from_be (drop 8 id)) (DownsampledSampler.threshold s2)); [| lia].
Qed.

(** The extreme ratios: 0 keeps nothing, and 1 everything but the largest identifier. *)
Lemma sampling_extremes id : bytes_ok id -> length id = 16%nat ->
  DownsampledSampler.should_sample (DownsampledSampler.new f_zero) true id = DownsampledSampler.Drop
  /\ (from_be (drop 8 id) < u64_max ->
      DownsampledSampler.should_sample (DownsampledSampler.new f64_one) true id = DownsampledSampler.RecordAndSample).
Proof.
  intros Hb Hlen. unfold DownsampledSampler.should_sample, DownsampledSampler.keep_decision.
  replace (DownsampledSampler.threshold (DownsampledSampler.new f_zero)) with 0 by (vm_compute; reflexivity).
  replace (DownsampledSampler.threshold (DownsampledSampler.new f64_one)) with u64_max by (vm_compute; reflexivity).
  pose proof (from_be_range (drop 8 id) (Forall_drop _ _ _ Hb)) as Hr. split.
  - by destruct (Z.ltb_spec (from_be (drop 8 id)) 0); [lia |].
  - intros Hlt. by destruct (Z.ltb_spec (from_be (drop 8 id)) u64_max); [| lia].
Qed.

(** C40: The log backlog follows the recovery of its collector, whatever the process logs meanwhile. The
    layer and the shipper share the backlog and the flag, every thread logs at any moment in steps that
    interleave with the shipper's, and each refusal makes the shipper log a warning into the same backlog.
    At every moment of every run: (1) each line logged is accepted, dropped by the policy (a low one, and
    only if the policy says so), displaced from the full backlog, abandoned, in the backlog, in the channel,
    or in the hands of a call or of the shipper; (2) the backlog gives its lines up in the order they were
    put in, and each drained line is sent once, in that order, or abandoned; a line is abandoned only after
    a drained line was refused; (3) the pauses double from 100 ms up to 30 s over refusals in a row, and
    start again after a line is accepted; (4) whenever the shipper waits for a line or is about to push one,
    the flag says whether the collector's last answer was a refusal. (5) From a push made with the flag up,
    once the collector accepts, the shipper needs six steps and one for each line it drains: the line is
    accepted, then the last 256 of the lines buffered before the drain, oldest first; the flag is down, the
    backoff is reset, and what was buffered after the drain stays in the backlog. *)
Theorem backlog_follows_the_recovery (config : LokiLayerConfig) (warn_enabled : bool)
  (render : list entry -> Z -> Z * string) (w0 : LokiShipper.world) (before : list LokiShipper.event) :
  LokiShipper.init = Some w0 ->
  let run := LokiShipper.run config warn_enabled render in
  let w := run before w0 in
  let es := LokiShipper.ledger w in
  let q := BoundedRingLogBuffer.contents (LokiShipper.backlog w) in
  (logged es ≡ₚ accepted es ++ dropped es ++ displaced es ++ abandoned es ++ q ++ ShipperFacts.in_channel w
     ++ ShipperFacts.in_calls w ++ ShipperFacts.in_hand (LokiShipper.pc w)
   /\ Forall (fun e => le_severity e = Severity.Low) (dropped es)
   /\ (drop_low_severity_on_unavailable config = false -> dropped es = []))
  /\ (buffered es = removed es ++ q
      /\ drained es = settled es ++ ShipperFacts.unsent (LokiShipper.pc w)
      /\ (refused_again es = [] -> abandoned es = []))
  /\ pauses es ++ ShipperFacts.owed w = ShipperFacts.schedule 0 (attempts es)
  /\ match LokiShipper.pc w with
     | LokiShipper.Receiving | LokiShipper.Pushing _ =>
       LokiShipper.unavailable w = negb (ShipperFacts.last_answer es)
     | _ => True
     end
  /\ forall env evs, LokiShipper.pc w = LokiShipper.Pushing env -> LokiShipper.unavailable w = true ->
     Forall LokiShipper.up evs -> (LOKI_BACKLOG_CAPACITY + 6 <= LokiShipper.ships evs)%nat ->
     exists evs1 evs2 early late, evs = evs1 ++ evs2 /\
       let lines := ShipperFacts.keep (q ++ early) in
       let w' := run evs1 w in
       LokiShipper.ships evs1 = (length lines + 6)%nat
       /\ accepted (LokiShipper.ledger w') = accepted es ++ env :: lines
       /\ buffered (LokiShipper.ledger w') = buffered es ++ early ++ late
       /\ BoundedRingLogBuffer.contents (LokiShipper.backlog w') = ShipperFacts.keep late
       /\ abandoned (LokiShipper.ledger w') = abandoned es
       /\ pauses (LokiShipper.ledger w') = pauses es
       /\ LokiShipper.pc w' = LokiShipper.Receiving
       /\ LokiShipper.unavailable w' = false /\ LokiShipper.backoff w' = LokiShipper.INITIAL_BACKOFF_MS.
Proof.
  intros Hi run w es q.
  destruct (ShipperFacts.run_keeps_account config warn_enabled render before w0 [] (ShipperFacts.init_accounted _ _ Hi))
    as [q' Ha]. fold run in Ha. fold w in Ha.
  assert (q = q') as E by (apply BoundedRingLogBuffer.holds_contents, (ShipperFacts.inv_has _ _ _ Ha)). rewrite <- E in Ha.
  pose proof (ShipperFacts.run_paced config warn_enabled render before w0 (ShipperFacts.init_paced _ Hi)) as [Hp _ Hf].
  destruct (ShipperFacts.inv_dropped _ _ _ Ha) as [Hd1 Hd2].
  split_and!; try done.
  - apply count_Permutation. intros x. pose proof (ShipperFacts.inv_count _ _ _ Ha x) as Hn. fold es in Hn.
    rewrite !count_app. lia.
  - exact (ShipperFacts.inv_fifo _ _ _ Ha).
  - exact (ShipperFacts.inv_drained _ _ _ Ha).
  - intros H. apply (ShipperFacts.inv_abandoned _ _ _ Ha H).
  - fold run in Hf. fold w in Hf. by destruct (LokiShipper.pc w).
  - intros env evs Hpc Hu Hup Hn. by apply ShipperFacts.outage_ends.
Qed.

(** What happens instead when the collector refuses one of the drained lines: that line alone goes back to
    the backlog, and those behind it, which the backlog has already given up, are lost. *)
Lemma interrupted_recovery_loses_lines config warn_enabled render w q line after :
  ShipperFacts.accounted config w q -> LokiShipper.pc w = LokiShipper.Resending (line :: after) ->
  let w' := LokiShipper.run config warn_enabled render [LokiShipper.Ship false; LokiShipper.Ship true; LokiShipper.Ship true] w in
  abandoned (LokiShipper.ledger w') = abandoned (LokiShipper.ledger w) ++ after
  /\ BoundedRingLogBuffer.contents (LokiShipper.backlog w') = ShipperFacts.keep (q ++ [line])
  /\ LokiShipper.unavailable w' = true /\ LokiShipper.pc w' = LokiShipper.Resetting.
Proof.
  intros Ha Hp. destruct w as [l cs p b es]. cbn in Hp. subst p. destruct (ShipperFacts.inv_has _ _ _ Ha) as [Hh Hc].
  assert (ShipperFacts.has (LokiLayer.set_unavailable true l) q) as H by by split.
  destruct (ShipperFacts.buffer_spec line _ q H) as (b' & lost & Hb & [Hh' _] & _).
  cbn. rewrite Hb. cbn [LokiShipper.move LokiShipper.ledger LokiShipper.pc].
  split_and!; try done; [by project |]. by apply BoundedRingLogBuffer.holds_contents.
Qed.

(** A line buffered because the channel was full is not sent while the collector keeps accepting: only the
    end of a later outage drains the backlog. *)
Lemma overflow_waits_for_an_outage config warn_enabled render w q evs :
  ShipperFacts.accounted config w q -> LokiShipper.unavailable w = false -> LokiShipper.pc w = LokiShipper.Receiving ->
  Forall LokiShipper.up evs ->
  let w' := LokiShipper.run config warn_enabled render evs w in
  drained (LokiShipper.ledger w') = drained (LokiShipper.ledger w)
  /\ exists late, BoundedRingLogBuffer.contents (LokiShipper.backlog w') = late
     /\ removed (LokiShipper.ledger w') ++ late = buffered (LokiShipper.ledger w').
Proof.
  intros Ha Hu Hp Hup w'. split; [apply (ShipperFacts.calm_run _ _ _ _ _ q); by rewrite ?Hp |].
  destruct (ShipperFacts.run_keeps_account config warn_enabled render evs w q Ha) as [q' Ha'].
  exists q'. split; [apply BoundedRingLogBuffer.holds_contents, (ShipperFacts.inv_has _ _ _ Ha') |].
  symmetry. apply (ShipperFacts.inv_fifo _ _ _ Ha').
Qed.
(** ** A short outage *)

Module ShipSample.
Definition line (n : Z) : LogEnvelope := mk_LogEnvelope n "ERROR" "hedge" "lost" Severity.High.
Definition config : LokiLayerConfig := {| drop_low_severity_on_unavailable := true |}.
Definition render (_ : list entry) (backoff : Z) : Z * string := (0, "loki push failed").
Definition run : list LokiShipper.event -> LokiShipper.world -> LokiShipper.world := LokiShipper.run config true render.

(** A thread logs the line [n] and is not interrupted. *)
Definition log (n : Z) : list LokiShipper.event :=
  [LokiShipper.Log (line n); LokiShipper.Resume 0; LokiShipper.Resume 0].
(** A push that is refused, up to the end of the pause. *)
Definition refusal : list LokiShipper.event := replicate 6 (LokiShipper.Ship false).
(** The line 1 is taken from the channel and refused twice; the line 2 is logged in between. *)
Definition outage : list LokiShipper.event := log 1 ++ [LokiShipper.Ship true] ++ refusal ++ log 2 ++ refusal.
Definition again : list LokiShipper.event := replicate 262 (LokiShipper.Ship true).
Definition warned : LogEnvelope :=
  mk_LogEnvelope 0 "WARN" "hedge_obs::loki_shipper" "loki push failed" Severity.High.
End ShipSample.

(** The outage as it runs: the shipper's warnings are buffered around the line 2, and follow it. *)
Lemma outage_sample : exists w0, LokiShipper.init = Some w0
  /\ let w := ShipSample.run ShipSample.outage w0 in
     let w' := ShipSample.run ShipSample.again w in
     pauses (LokiShipper.ledger w) = [100; 200]
     /\ BoundedRingLogBuffer.contents (LokiShipper.backlog w) = [ShipSample.warned; ShipSample.line 2; ShipSample.warned]
     /\ accepted (LokiShipper.ledger w')
        = [ShipSample.line 1; ShipSample.warned; ShipSample.line 2; ShipSample.warned]
     /\ BoundedRingLogBuffer.contents (LokiShipper.backlog w') = []
     /\ LokiShipper.unavailable w' = false.
Proof. eexists. split; [reflexivity |]. vm_compute. repeat split. Qed.

(** A long outage: the shipper's own warnings fill the backlog and displace the line it was to keep. *)
Lemma own_warnings_displace_lines : exists w0, LokiShipper.init = Some w0
  /\ let w := ShipSample.run (mjoin (replicate 255 ShipSample.refusal)) (ShipSample.run ShipSample.outage w0) in
     displaced (LokiShipper.ledger w) = [ShipSample.warned; ShipSample.line 2]
     /\ BoundedRingLogBuffer.contents (LokiShipper.backlog w) = replicate 256 ShipSample.warned.
Proof. eexists. split; [reflexivity |]. vm_compute. repeat split. Qed.

Lemma backlog_follows_the_recovery_witness : exists w0, LokiShipper.init = Some w0
  /\ let w := ShipSample.run ShipSample.outage w0 in
     logged (LokiShipper.ledger w) ≡ₚ [ShipSample.warned; ShipSample.line 2; ShipSample.warned; ShipSample.line 1]
     /\ exists evs1 evs2 early late, ShipSample.again = evs1 ++ evs2
        /\ accepted (LokiShipper.ledger (ShipSample.run evs1 w))
           = ShipSample.line 1 :: ShipperFacts.keep ([ShipSample.warned; ShipSample.line 2; ShipSample.warned] ++ early)
        /\ BoundedRingLogBuffer.contents (LokiShipper.backlog (ShipSample.run evs1 w)) = ShipperFacts.keep late
        /\ LokiShipper.unavailable (ShipSample.run evs1 w) = false.
Proof.
  eexists. split; [reflexivity |].
  destruct (backlog_follows_the_recovery ShipSample.config true ShipSample.render _ ShipSample.outage eq_refl)
    as ((H1 & _) & _ & _ & _ & H2).
  split; [exact H1 |].
  destruct (H2 (ShipSample.line 1) ShipSample.again) as (evs1 & evs2 & early & late & E & _ & Ha & _ & Hc & _ & _ & _ & Hu & _).
  - vm_compute. reflexivity.
  - vm_compute. reflexivity.
  - apply Forall_replicate. reflexivity.
  - vm_compute. lia.
  - exists evs1, evs2, early, late. split_and!; [exact E | exact Ha | exact Hc | exact Hu].
Defined.
