(* ===== verification/PositionService.v ===== *)
(** The position service around its engine (the binary of hedge-position): the handlers of fills and
    ticks and what they publish, and what becomes of the fills of the execution service there. *)

From S2P Require Import Prelude Ieee Bytes Core Schemas BrokerApi LiveRoute Wire Position.

Module PositionService.
Import Aggregate PositionEngine.

(** A document of [exec.fill.>]: the fields the handler reads, each of the type it asks for. *)
Record FillDoc := mk_FillDoc {
  fd_symbol : option string;
  fd_filled_qty : option Z;
  fd_avg_fill_paise : option Z;
  fd_side : option string;
}.

Definition base_capital (base_inr : Z) : Z := as_i64 (base_inr * 100).

Definition side_of (side : option string) : Side.t :=
  match side with
  | Some s => if bool_decide (s = "sell") || bool_decide (s = "Sell") then Side.Sell else Side.Buy
  | None => Side.Buy
  end.

(** What is published; an amount in rupees is the binary64 quotient. *)
Inductive Payload :=
| PosUpdate (symbol : string) (quantity avg_price_paise : Z) (realised_pnl_inr unrealised_pnl_inr : f64) (ts_ns : Z)
| RiskState (gross_exposure_inr portfolio_pnl_inr drawdown_inr : f64) (ts_ns : Z).

Definition to_inr (paise : Z) : f64 := f64_div (f64_of_Z paise) (f64_of_Z 100).
(** The total profit and loss, from the peak and the distance to it. *)
Definition portfolio_pnl_paise (base : Z) (rs : TraderRiskState) : Z :=
  as_i64 (as_i64 (peak_equity_paise rs - drawdown_paise rs) - base).

Definition publish_event (base : Z) (symbol_str : string) (now_ns : Z) (ev : PositionEvent) : string * Payload :=
  match ev with
  | PositionUpdate _ snapshot =>
      ("pos.update." +:+ symbol_str,
       PosUpdate symbol_str (ps_quantity snapshot) (Px.to_paise (ps_avg_entry_px snapshot))
         (to_inr (ps_realized_pnl_paise snapshot)) (to_inr (ps_unrealized_pnl_paise snapshot)) now_ns)
  | RiskStateEv rs =>
      ("pos.risk_state",
       RiskState (to_inr (aggregate_exposure_paise rs)) (to_inr (portfolio_pnl_paise base rs))
         (to_inr (drawdown_paise rs)) now_ns)
  end.
Definition publish_events (base : Z) (symbol_str : string) (now_ns : Z) (events : list PositionEvent)
  : list (string * Payload) := publish_event base symbol_str now_ns <$> events.

(** The readings of the wall clock in one handler: for the engine, and for the documents. *)
Record Readings := mk_Readings { rd_engine : Z; rd_publish : Z }.

(** [None] is a payload that is not JSON. *)
Definition handle_fill (base : Z) (rd : Readings) (doc : option FillDoc) (e : t)
  : list (string * Payload) * t :=
  match doc with
  | None => ([], e)
  | Some data =>
    let symbol_str := unwrap_or EmptyString (fd_symbol data) in
    let symbol_id := SymbolTable.symbol_id_for symbol_str in
    if symbol_id =? 0 then ([], e)
    else
      let qty := unwrap_or 0 (fd_filled_qty data) in
      if qty =? 0 then ([], e)
      else
        let fill_paise := unwrap_or 0 (fd_avg_fill_paise data) in
        let '(events, e) := on_fill e (SymbolId.new symbol_id) (side_of (fd_side data)) qty
                              (Px.from_paise fill_paise) (as_u64 (rd_engine rd)) in
        (publish_events base symbol_str (rd_publish rd) events, e)
  end.

Definition handle_tick (base : Z) (rd : Readings) (bytes : list Z) (e : t) : list (string * Payload) * t :=
  match TickWire.position_fields bytes with
  | None => ([], e)
  | Some (symbol_id, ltp_paise) =>
    let symbol_str := unwrap_or "UNKNOWN" (SymbolTable.symbol_for_id symbol_id) in
    let '(events, e) := on_tick e (SymbolId.new symbol_id) (Px.from_paise ltp_paise) (as_u64 (rd_engine rd)) in
    (publish_events base symbol_str (rd_publish rd) events, e)
  end.

(** The two subscriptions. *)
Inductive message := FillMsg (doc : option FillDoc) | TickMsg (bytes : list Z).

Definition handle (base : Z) (e : t) (m : message * Readings) : list (string * Payload) * t :=
  match m.1 with
  | FillMsg doc => handle_fill base m.2 doc e
  | TickMsg bytes => handle_tick base m.2 bytes e
  end.

(** Messages one after the other: what is published, and the engine they leave. *)
Fixpoint run (base : Z) (e : t) (ms : list (message * Readings)) : list (string * Payload) * t :=
  match ms with
  | [] => ([], e)
  | m :: ms =>
    let '(out, e) := handle base e m in
    let '(rest, e) := run base e ms in
    (out ++ rest, e)
  end.
Definition start (base_inr : Z) : t := new (base_capital base_inr).

(** A published fill of the execution service as the document it is: no side, and a null price. *)
Definition fill_doc (published : string * LiveRoute.Payload) : option FillDoc :=
  match published.2 with
  | LiveRoute.FillEvent _ _ symbol filled_qty _ _ => Some (mk_FillDoc (Some symbol) (Some filled_qty) None None)
  | _ => None
  end.

(** ** Lemmas *)

(** What a document says was filled of a symbol. *)
Definition filled_of (symbol : string) (doc : FillDoc) : Z :=
  if bool_decide (fd_symbol doc = Some symbol) then unwrap_or 0 (fd_filled_qty doc) else 0.
Definition docs_of (ms : list (message * Readings)) : list FillDoc :=
  omap (fun m => match m.1 with FillMsg doc => doc | TickMsg _ => None end) ms.

Lemma symbol_id_inj s1 s2 : SymbolTable.symbol_id_for s1 = SymbolTable.symbol_id_for s2 ->
  SymbolTable.symbol_id_for s1 <> 0 -> s1 = s2.
Proof. unfold SymbolTable.symbol_id_for. intros H H0. repeat case_decide; congruence. Qed.

Lemma on_fill_position e id side q px now :
  positions (on_fill e id side q px now).2
  = <[id := (Position.apply_fill (get_or_flat e id) side q px).2]> (positions e).
Proof. reflexivity. Qed.

Lemma handle_fill_engine base rd doc e :
  let id := SymbolTable.symbol_id_for (unwrap_or EmptyString (fd_symbol doc)) in
  let qty := unwrap_or 0 (fd_filled_qty doc) in
  (handle_fill base rd (Some doc) e).2 =
  if (id =? 0) || (qty =? 0) then e
  else (on_fill e id (side_of (fd_side doc)) qty (unwrap_or 0 (fd_avg_fill_paise doc)) (as_u64 (rd_engine rd))).2.
Proof.
  cbv zeta. unfold handle_fill. destruct (_ =? 0); [done |]. destruct (_ =? 0); [done |].
  cbn [orb]. unfold Px.from_paise, SymbolId.new. by destruct (on_fill _ _ _ _ _ _).
Qed.

Lemma handle_tick_engine base rd bytes e : (handle_tick base rd bytes e).2 =
  match TickWire.position_fields bytes with
  | Some (id, px) => (on_tick e id px (as_u64 (rd_engine rd))).2
  | None => e
  end.
Proof.
  unfold handle_tick. destruct (TickWire.position_fields bytes) as [[id px] |]; [| done].
  unfold Px.from_paise, SymbolId.new. by destruct (on_tick _ _ _ _).
Qed.

(** Fills that are all read as purchases, and what is said of a position of [Q] shares bought so. *)
Section purchases.
Context (plain : FillDoc -> Prop) (says : Z -> Position.t -> Prop)
  (plain_side : forall doc, plain doc -> side_of (fd_side doc) = Side.Buy)
  (plain_qty : forall doc, plain doc -> 0 <= unwrap_or 0 (fd_filled_qty doc))
  (says_fill : forall doc p Q, plain doc -> let q := unwrap_or 0 (fd_filled_qty doc) in
    0 < q -> 0 <= Q -> Q + q <= i64_max -> says Q p ->
    says (Q + q) (Position.apply_fill p Side.Buy q (unwrap_or 0 (fd_avg_fill_paise doc))).2)
  (says_mark : forall p p' Q, Position.quantity p' = Position.quantity p ->
    Position.avg_entry_px p' = Position.avg_entry_px p ->
    Position.realized_pnl_paise p' = Position.realized_pnl_paise p -> says Q p -> says Q p').

Definition holds (e : t) (id Q : Z) : Prop := says Q (get_or_flat e id).

Lemma on_fill_other e id id' side q px now Q : id <> id' -> holds e id' Q ->
  holds (on_fill e id side q px now).2 id' Q.
Proof. intros Hne H. unfold holds, get_or_flat. by rewrite on_fill_position, lookup_insert_ne. Qed.

Lemma on_tick_keeps e id id' px now Q : holds e id' Q -> holds (on_tick e id px now).2 id' Q.
Proof.
  intros H. unfold on_tick. destruct (positions e !! id) as [p |] eqn:Hp; [| done].
  assert (forall e' p', positions e' = <[id := p']> (positions e) -> Position.quantity p' = Position.quantity p ->
    Position.avg_entry_px p' = Position.avg_entry_px p -> Position.realized_pnl_paise p' = Position.realized_pnl_paise p ->
    holds e' id' Q) as Hkeep.
  { intros e' p' He Hq Ha Hr. unfold holds, get_or_flat in *. rewrite He.
    destruct (decide (id = id')) as [<- | Hne]; [| by rewrite lookup_insert_ne].
    rewrite lookup_insert_eq. rewrite Hp in H. by apply (says_mark p). }
  destruct (Position.quantity p =? 0); [by eapply Hkeep |]. cbn.
  destruct (_ >=? _); cbn; destruct (last_published_aggregate e) as [a |]; cbn; try by eapply Hkeep.
  all: destruct (bool_decide _); by eapply Hkeep.
Qed.

Lemma handle_books base e m symbol Q : SymbolTable.symbol_id_for symbol <> 0 -> 0 <= Q ->
  Forall plain (docs_of [m]) -> Q + list_sum (filled_of symbol <$> docs_of [m]) <= i64_max ->
  holds e (SymbolTable.symbol_id_for symbol) Q ->
  holds (handle base e m).2 (SymbolTable.symbol_id_for symbol) (Q + list_sum (filled_of symbol <$> docs_of [m])).
Proof.
  intros Hs HQ Hplain Hmax H. destruct m as [[[doc |] | bytes] rd]; unfold handle;
    cbn [docs_of omap list_omap fst snd fmap list_fmap list_sum foldr] in *; rewrite ?Z.add_0_r in *.
  - apply Forall_cons in Hplain as [Hdoc _]. rewrite handle_fill_engine, (plain_side _ Hdoc). unfold filled_of in *.
    pose proof (plain_qty _ Hdoc) as Hq. pose proof (says_fill doc) as Hfill. cbv zeta in Hfill.
    set (qty := unwrap_or 0 (fd_filled_qty doc)) in *.
    destruct (decide (fd_symbol doc = Some symbol)) as [Hd | Hd].
    + rewrite bool_decide_true in * by done. rewrite Hd. cbn [unwrap_or].
      rewrite (proj2 (Z.eqb_neq (SymbolTable.symbol_id_for symbol) 0)) by done. cbn [orb].
      destruct (Z.eqb_spec qty 0) as [-> |]; [by rewrite Z.add_0_r |].
      unfold holds, get_or_flat. rewrite on_fill_position, lookup_insert_eq. apply Hfill; [done | lia .. | done].
    + rewrite bool_decide_false, Z.add_0_r by done. destruct (_ || _) eqn:E; [done |].
      apply on_fill_other; [| done]. intros Hid. apply Hd. apply orb_false_iff in E as [E _].
      apply Z.eqb_neq in E. apply symbol_id_inj in Hid; [| done].
      destruct (fd_symbol doc) as [s |]; [by cbn in Hid; subst |]. exfalso. by apply E.
  - done.
  - rewrite handle_tick_engine. destruct (TickWire.position_fields bytes) as [[id px] |]; [| done].
    by apply on_tick_keeps.
Qed.

Lemma run_books base symbol ms : forall e Q, SymbolTable.symbol_id_for symbol <> 0 -> 0 <= Q ->
  Forall plain (docs_of ms) -> Q + list_sum (filled_of symbol <$> docs_of ms) <= i64_max ->
  holds e (SymbolTable.symbol_id_for symbol) Q ->
  holds (run base e ms).2 (SymbolTable.symbol_id_for symbol) (Q + list_sum (filled_of symbol <$> docs_of ms)).
Proof.
  induction ms as [| m ms IH]; intros e Q Hs HQ Hp Hmax H; [by cbn; rewrite Z.add_0_r |].
  change (docs_of (m :: ms)) with (docs_of ([m] ++ ms)) in *.
  assert (docs_of ([m] ++ ms) = docs_of [m] ++ docs_of ms) as Hd by apply omap_app.
  rewrite Hd, Forall_app in Hp. destruct Hp as [Hp1 Hp2].
  rewrite Hd, fmap_app, list_sum_app in Hmax |- *.
  assert (forall l, Forall plain l -> 0 <= list_sum (filled_of symbol <$> l)) as Hpos.
  { intros l Hl. apply list_sum_nonneg, Forall_fmap. eapply Forall_impl; [exact Hl |].
    intros doc Hdoc. apply plain_qty in Hdoc. change (0 <= filled_of symbol doc). unfold filled_of.
    destruct (bool_decide _); [exact Hdoc | lia]. }
  pose proof (Hpos _ Hp1) as H1. pose proof (Hpos _ Hp2) as H2.
  cbn [run]. pose proof (handle_books base e m symbol Q Hs HQ Hp1 ltac:(lia) H) as Hh.
  destruct (handle base e m) as [out e1]. cbn [snd] in Hh.
  assert (holds (run base e1 ms).2 (SymbolTable.symbol_id_for symbol)
    (Q + list_sum (filled_of symbol <$> docs_of [m]) + list_sum (filled_of symbol <$> docs_of ms))) as Hr.
  { apply IH; [done | lia | done | by rewrite <- Z.add_assoc | done]. }
  rewrite Z.add_assoc. by destruct (run base e1 ms) as [rest e2].
Qed.
End purchases.

(** A fill without a side. *)
Definition unsided (doc : FillDoc) : Prop := fd_side doc = None /\ 0 <= unwrap_or 0 (fd_filled_qty doc).
(** A fill as the execution service writes it. *)
Definition plain (doc : FillDoc) : Prop := unsided doc /\ fd_avg_fill_paise doc = None.

(** A purchase adds its quantity to a position that is not short. *)
Lemma buy_quantity p q px : 0 < q -> 0 <= Position.quantity p -> Position.quantity p + q <= i64_max ->
  Position.quantity (Position.apply_fill p Side.Buy q px).2 = Position.quantity p + q.
Proof.
  intros Hq HQ Hmax. unfold Position.apply_fill, Pnl.apply_fill_inner. cbn [Pnl.signed_fill Pnl.is_buy negb snd].
  rewrite (proj2 (Z.eqb_neq q 0)) by lia.
  destruct (Z.eqb_spec (Position.quantity p) 0) as [-> |]; cbn.
  - by rewrite as_i64_id by (unfold_ok; lia).
  - rewrite (proj2 (Z.gtb_lt (Position.quantity p) 0)) by lia. cbn. by rewrite !as_i64_id by (unfold_ok; lia).
Qed.

(** The position of a symbol after purchases at price zero. *)
Definition bought_for_nothing (Q : Z) (p : Position.t) : Prop :=
  Position.quantity p = Q /\ Position.avg_entry_px p = 0 /\ Position.realized_pnl_paise p = 0.

Lemma buy_for_nothing p q Q : 0 < q -> 0 <= Q -> Q + q <= i64_max -> bought_for_nothing Q p ->
  bought_for_nothing (Q + q) (Position.apply_fill p Side.Buy q 0).2.
Proof.
  intros Hq HQ Hmax (Hqty & Havg & Hreal).
  split; [rewrite <- Hqty; apply buy_quantity; lia |].
  unfold Position.apply_fill, Pnl.apply_fill_inner. cbn [Pnl.signed_fill Pnl.is_buy negb snd].
  rewrite Hqty, Havg, (proj2 (Z.eqb_neq q 0)) by lia.
  destruct (Z.eqb_spec Q 0) as [-> |]; cbn.
  - rewrite Hreal. by split_and!.
  - rewrite (proj2 (Z.gtb_lt Q 0)) by lia. cbn.
    rewrite !as_i64_id by (unfold_ok; rewrite ?Z.mul_0_r, ?Z.quot_0_l by lia; lia).
    rewrite Hreal, !Z.mul_0_r, Z.quot_0_l by lia. by split_and!.
Qed.

(** Executions of the execution service are purchases at price zero. *)
Lemma plain_books base symbol ms e : SymbolTable.symbol_id_for symbol <> 0 -> Forall plain (docs_of ms) ->
  list_sum (filled_of symbol <$> docs_of ms) <= i64_max ->
  bought_for_nothing 0 (get_or_flat e (SymbolTable.symbol_id_for symbol)) ->
  bought_for_nothing (list_sum (filled_of symbol <$> docs_of ms))
    (get_or_flat (run base e ms).2 (SymbolTable.symbol_id_for symbol)).
Proof.
  intros Hs Hp Hmax H. rewrite <- (Z.add_0_l (list_sum _)).
  apply (run_books plain bought_for_nothing); try done.
  - by intros doc [[-> _] _].
  - by intros doc [[_ ?] _].
  - intros doc p Q [_ ->]. apply buy_for_nothing.
  - intros p p' Q Hq Ha Hr (? & ? & ?). unfold bought_for_nothing. by rewrite Hq, Ha, Hr.
Qed.

(** Fills without a side are purchases. *)
Lemma unsided_books base symbol ms e : SymbolTable.symbol_id_for symbol <> 0 -> Forall unsided (docs_of ms) ->
  list_sum (filled_of symbol <$> docs_of ms) <= i64_max ->
  Position.quantity (get_or_flat e (SymbolTable.symbol_id_for symbol)) = 0 ->
  Position.quantity (get_or_flat (run base e ms).2 (SymbolTable.symbol_id_for symbol))
  = list_sum (filled_of symbol <$> docs_of ms).
Proof.
  intros Hs Hp Hmax H. rewrite <- (Z.add_0_l (list_sum _)).
  apply (run_books unsided (fun Q p => Position.quantity p = Q)); try done.
  - by intros doc [-> _].
  - by intros doc [_ ?].
  - intros doc p Q Hdoc q Hq HQ Hb <-. by apply buy_quantity.
  - intros p p' Q Hq _ _ <-. exact Hq.
Qed.
End PositionService.

(** The documents the execution service publishes carry neither a side nor a price. *)
Lemma published_fills_plain (out : list (string * LiveRoute.Payload)) :
  Forall (fun doc => 0 <= unwrap_or 0 (PositionService.fd_filled_qty doc)) (omap PositionService.fill_doc out) ->
  Forall PositionService.plain (omap PositionService.fill_doc out).
Proof.
  intros H. rewrite Forall_forall in H |- *. intros doc Hin. specialize (H doc Hin).
  apply list_elem_of_omap in Hin as ([subject p] & _ & Hd). unfold PositionService.fill_doc in Hd.
  destruct p; try discriminate. injection Hd as <-. by split_and!.
Qed.

(** C18: The position service books every execution as a purchase at price zero. Whatever approvals the
    execution service handles, sells included, on paper or live, when the position service reads the
    fills it publishes, in order and with any ticks in between, its position in every tradable symbol is
    the total number of shares filled, bought or sold, at an average price of zero and with no realized
    profit; so a sale increases the position, and the whole value of the shares is shown as profit. *)
Theorem executions_are_booked_as_free_purchases {W : Type} (now : nat -> Z) (brokers : LiveRoute.Brokers W)
  (cap : Z) (b : W) (approvals : list (LiveRoute.ApprovalEvent * bool)) (base_inr : Z)
  (ms : list (PositionService.message * PositionService.Readings)) (symbol : string) :
  let w := foldl (fun w a => LiveRoute.handle_approval now brokers a.1 a.2 cap w)
             (LiveRoute.mk_world b [] 0%nat) approvals in
  let fills := omap PositionService.fill_doc (LiveRoute.lw_published w) in
  let total := list_sum (PositionService.filled_of symbol <$> fills) in
  PositionService.docs_of ms = fills ->
  Forall (fun doc => 0 <= unwrap_or 0 (PositionService.fd_filled_qty doc)) fills -> total <= i64_max ->
  SymbolTable.symbol_id_for symbol <> 0 ->
  let e := (PositionService.run (PositionService.base_capital base_inr) (PositionService.start base_inr) ms).2 in
  let p := PositionEngine.get_or_flat e (SymbolTable.symbol_id_for symbol) in
  Position.quantity p = total /\ Position.avg_entry_px p = 0 /\ Position.realized_pnl_paise p = 0.
Proof.
  intros w fills total Hms Hpos Hmax Hsym. cbv zeta.
  pose proof (PositionService.plain_books (PositionService.base_capital base_inr) symbol ms
    (PositionService.start base_inr) Hsym) as H.
  rewrite Hms in H. apply H; [by apply published_fills_plain | done | by split_and!].
Qed.

(** The published account is the account. While the amounts fit in 62 bits, the profit and loss that the
    service publishes with the state of the account after a fill or a recomputing tick is the sum of
    the realized and unrealized profits of all positions, whatever the past peak, and the drawdown it
    publishes is the distance to the peak. *)
Theorem published_pnl_is_the_books (e : PositionEngine.t) (now_ns : Z) :
  let base := PositionEngine.base_capital_paise e in
  let ps := PositionEngine.position_list e in
  let '(rs, _) := PositionEngine.recompute_aggregate e in
  let pnl := list_sum (Position.realized_pnl_paise <$> ps) + list_sum (Position.unrealized_paise <$> ps) in
  let peak := peak_equity_paise (PositionEngine.aggregate e) in
  let exposure := list_sum (Position.exposure_paise <$> ps) in
  Z.abs base < 2 ^ 62 -> Z.abs pnl < 2 ^ 60 -> Z.abs (base + pnl) < 2 ^ 62 -> Z.abs peak < 2 ^ 62 ->
  Z.abs exposure < 2 ^ 62 ->
  PositionService.publish_event base EmptyString now_ns (PositionEngine.RiskStateEv rs)
  = ("pos.risk_state",
     PositionService.RiskState (PositionService.to_inr exposure) (PositionService.to_inr pnl)
       (PositionService.to_inr (Z.max (base + pnl) peak - (base + pnl))) now_ns).
Proof.
  intros base ps. unfold PositionEngine.recompute_aggregate. rewrite Aggregate.aggregate_spec.
  fold base ps. cbv zeta. unfold Aggregate.equity.
  set (pnl := _ + list_sum (Position.unrealized_paise <$> ps)).
  set (exposure := list_sum (Position.exposure_paise <$> ps)).
  set (peak := peak_equity_paise (PositionEngine.aggregate e)). intros Hb Hp He Hpk Hx.
  unfold PositionService.publish_event, PositionService.portfolio_pnl_paise.
  cbn [aggregate_exposure_paise drawdown_paise peak_equity_paise].
  rewrite !Aggregate.clamp_id by (unfold_ok; lia).
  replace (Z.max (base + pnl) peak - (Z.max (base + pnl) peak - (base + pnl))) with (base + pnl) by lia.
  rewrite (as_i64_id (base + pnl)) by (unfold_ok; lia).
  replace (base + pnl - base) with pnl by lia. by rewrite as_i64_id by (unfold_ok; lia).
Qed.

(** ** A sale on paper *)

Module PositionSample.
Definition sale : LiveRoute.ApprovalEvent :=
  LiveRoute.mk_ApprovalEvent (Some "c1") (Some 10) (Some "RELIANCE") None (Some "sell").
Definition published : list (string * LiveRoute.Payload) :=
  LiveRoute.lw_published (LiveRoute.handle_approval Z.of_nat LiveSample.brokers sale false 50000 LiveSample.start).
Definition messages : list (PositionService.message * PositionService.Readings) :=
  (fun doc => (PositionService.FillMsg (Some doc), PositionService.mk_Readings 1 2)) <$>
  omap PositionService.fill_doc published.
End PositionSample.

Lemma executions_are_booked_as_free_purchases_witness :
  Position.quantity (PositionEngine.get_or_flat
    (PositionService.run (PositionService.base_capital 20000) (PositionService.start 20000)
       PositionSample.messages).2 (SymbolTable.symbol_id_for "RELIANCE")) = 10.
Proof.
  refine (proj1 (executions_are_booked_as_free_purchases Z.of_nat LiveSample.brokers 50000 0
    [(PositionSample.sale, false)] 20000 PositionSample.messages "RELIANCE" _ _ _ _)).
  - reflexivity.
  - vm_compute. repeat constructor. discriminate.
  - vm_compute. discriminate.
  - discriminate.
Defined.

Lemma published_pnl_is_the_books_witness :
  PositionService.publish_event 2000000 EmptyString 5
    (PositionEngine.RiskStateEv (PositionEngine.recompute_aggregate (PositionEngine.new 2000000)).1)
  = ("pos.risk_state", PositionService.RiskState (PositionService.to_inr 0) (PositionService.to_inr 0)
       (PositionService.to_inr 0) 5).
Proof. refine (published_pnl_is_the_books (PositionEngine.new 2000000) 5 _ _ _ _ _); reflexivity. Defined.
