(* ===== verification/ConfigFile.v ===== *)
(** The whole configuration (hedge-config): its sections and defaults (models.rs, defaults.rs) beyond
    those of Config.v, the loader with its cross-field invariants (loader.rs), and the two holders of a
    loaded configuration (pinned.rs). *)

From S2P Require Import Prelude Ieee Core RiskTables Config Replay ReplaySegments ReplayPlayer Session.

(** ** Sections *)

Record UiConfig := mk_UiConfig { high_vol_threshold : f32 }.
Record GovernanceConfig := mk_GovernanceConfig { drift_warn : f32; drift_critical : f32 }.
Record RankingFactorsConfig := mk_RankingFactorsConfig {
  orderflow : f32; technical_strength : f32; news_sentiment : f32; market_regime : f32; trader_discipline : f32 }.
Record AiConfig := mk_AiConfig {
  shadow_components : list string;
  governance : GovernanceConfig;
  rank_p95_budget_ms : Z;
  ranking_factors : RankingFactorsConfig;
}.
Record PsychologyThresholds := mk_PsychologyThresholds {
  warning : f32; cooldown : f32; suppression : f32; critical : f32 }.
Record TraderPsychologyConfig := mk_TraderPsychologyConfig { thresholds : PsychologyThresholds }.

Inductive OllamaRole := RolePrimary | RoleFast | RoleDeep | RoleLightweight.
Record OllamaModelConfig := mk_OllamaModelConfig { om_name : string; om_role : OllamaRole; om_quant : string }.
Record OllamaConfig := mk_OllamaConfig { models : list OllamaModelConfig }.

Record RetentionConfig := mk_RetentionConfig { metrics_days : Z; logs_days : Z; traces_days : Z }.
Record DegradedModeConfig := mk_DegradedModeConfig {
  drop_low_severity_logs_at_loki_unavailable : bool;
  sample_traces_at_jaeger_overload : f32;
}.
Record ObservabilityConfig := mk_ObservabilityConfig {
  retention : RetentionConfig;
  degraded_mode : DegradedModeConfig;
}.
Record ReplayConfig := mk_ReplayConfig {
  segment_dir : string;
  max_segment_bytes : Z;
  default_speed : ReplaySpeed.t;
  rng_seed : Z;
}.

Record HedgeConfig := mk_HedgeConfig {
  capital : CapitalConfig;
  risk : RiskConfig;
  session : SessionConfig;
  war_mode : WarModeConfig;
  ui : UiConfig;
  ai : AiConfig;
  trader_psychology : TraderPsychologyConfig;
  brokers : BrokerConfig;
  ollama : OllamaConfig;
  observability : ObservabilityConfig;
  warm_cache : WarmCacheConfig;
  replay : ReplayConfig;
}.

(** ** Defaults *)

Module FileDefaults.
Definition ui : UiConfig := mk_UiConfig (f32_lit 5 100).
Definition ai : AiConfig :=
  {| shadow_components := [];
     governance := mk_GovernanceConfig (f32_lit 20 100) (f32_lit 35 100);
     rank_p95_budget_ms := 5;
     ranking_factors := mk_RankingFactorsConfig (f32_lit 30 100) (f32_lit 25 100) (f32_lit 20 100)
                          (f32_lit 15 100) (f32_lit 10 100) |}.
Definition trader_psychology : TraderPsychologyConfig :=
  mk_TraderPsychologyConfig (mk_PsychologyThresholds (f32_lit 6 10) (f32_lit 5 10) (f32_lit 4 10) (f32_lit 3 10)).
Definition ollama : OllamaConfig :=
  mk_OllamaConfig
    [mk_OllamaModelConfig "qwen2.5:14b" RolePrimary "q4_k_m";
     mk_OllamaModelConfig "mistral:7b" RoleFast "q4_k_m";
     mk_OllamaModelConfig "deepseek-r1" RoleDeep "q4_k_m";
     mk_OllamaModelConfig "phi" RoleLightweight "q4_k_m"].
Definition observability : ObservabilityConfig :=
  mk_ObservabilityConfig (mk_RetentionConfig 30 14 7) (mk_DegradedModeConfig true (f32_lit 1 10)).
Definition replay : ReplayConfig := mk_ReplayConfig "./replay" 1073741824 ReplaySpeed.X1 12648430.

Definition hedge_config : HedgeConfig :=
  mk_HedgeConfig Defaults.capital Defaults.risk Defaults.session default_war_mode ui ai trader_psychology
    Defaults.brokers ollama observability Defaults.warm_cache replay.
End FileDefaults.

(** ** Texts of the configuration file *)

(** [broker_id_serde]; [None] is the error of an unknown name. *)
Module BrokerIdSerde.
Definition serialize (b : BrokerId.t) : string :=
  match b with
  | BrokerId.Zerodha => "zerodha" | BrokerId.Dhan => "dhan" | BrokerId.Shoonya => "shoonya"
  | BrokerId.AngelOne => "angel_one" | BrokerId.Upstox => "upstox" | BrokerId.Simulated => "simulated"
  end.
Definition deserialize (raw : string) : option BrokerId.t :=
  if decide (raw = "zerodha") then Some BrokerId.Zerodha
  else if decide (raw = "dhan") then Some BrokerId.Dhan
  else if decide (raw = "shoonya") then Some BrokerId.Shoonya
  else if decide (raw = "angel_one") then Some BrokerId.AngelOne
  else if decide (raw = "upstox") then Some BrokerId.Upstox
  else if decide (raw = "simulated") then Some BrokerId.Simulated
  else None.

Lemma broker_id_round_trip b : deserialize (serialize b) = Some b.
Proof. by destruct b. Qed.
Lemma broker_id_exact raw b : deserialize raw = Some b -> raw = serialize b.
Proof. unfold deserialize. intros H. repeat case_decide; by simplify_eq. Qed.
End BrokerIdSerde.

(** ** Loading *)

(** The rules between fields; the message of an [InvariantViolation] is made from the rule and the
    values it compares. *)
Inductive Rule := TargetOrder | SessionOrder | WarModeOrder | DriftOrder | DistinctBrokers | ThresholdOrder.

Module ConfigError.
Inductive t :=
| Io (path source : string)
| Yaml (e : string)
| SchemaViolation (e : string)
| InvariantViolation (r : Rule)
| SchemaCompile (e : string)
| AlreadyInstalled.
End ConfigError.

Definition check_ordering (t : PsychologyThresholds) : result unit ConfigError.t :=
  if negb (f_lt (critical t) (suppression t) && f_lt (suppression t) (cooldown t) && f_lt (cooldown t) (warning t))
  then Err (ConfigError.InvariantViolation ThresholdOrder) else Ok tt.

Definition validated (warning cooldown suppression critical : f32) : result PsychologyThresholds ConfigError.t :=
  let raw := mk_PsychologyThresholds warning cooldown suppression critical in
  match check_ordering raw with Ok _ => Ok raw | Err e => Err e end.

Definition check_invariants (cfg : HedgeConfig) : result unit ConfigError.t :=
  if daily_profit_target_min_inr (capital cfg) >=? daily_profit_target_max_inr (capital cfg)
  then Err (ConfigError.InvariantViolation TargetOrder)
  else if start_ist (session cfg) >=? end_ist (session cfg)
  then Err (ConfigError.InvariantViolation SessionOrder)
  else if wm_start_ist (war_mode cfg) >=? wm_end_ist (war_mode cfg)
  then Err (ConfigError.InvariantViolation WarModeOrder)
  else if f_ge (drift_warn (governance (ai cfg))) (drift_critical (governance (ai cfg)))
  then Err (ConfigError.InvariantViolation DriftOrder)
  else if decide (primary (brokers cfg) = backup (brokers cfg))
  then Err (ConfigError.InvariantViolation DistinctBrokers)
  else check_ordering (thresholds (trader_psychology cfg)).

Section loading.
(** The YAML reader at its two types, the schema validator (which may fail to compile), and files. *)
Context {Value : Type} (yaml_value : string -> result Value string) (yaml_config : string -> result HedgeConfig string)
  (validator : result (Value -> list string) string) (join : list string -> string)
  (read_to_string : string -> result string string).

Definition validate_json (instance : Value) : result unit ConfigError.t :=
  match validator with
  | Err e => Err (ConfigError.SchemaCompile e)
  | Ok validate =>
    match validate instance with
    | [] => Ok tt
    | messages => Err (ConfigError.SchemaViolation (join messages))
    end
  end.

Definition load_from_str (raw : string) : result HedgeConfig ConfigError.t :=
  match yaml_value raw with
  | Err e => Err (ConfigError.Yaml e)
  | Ok json =>
    match validate_json json with
    | Err e => Err e
    | Ok _ =>
      match yaml_config raw with
      | Err e => Err (ConfigError.Yaml e)
      | Ok cfg => match check_invariants cfg with Ok _ => Ok cfg | Err e => Err e end
      end
    end
  end.

Definition load_from_path (path : string) : result HedgeConfig ConfigError.t :=
  match read_to_string path with
  | Err source => Err (ConfigError.Io path source)
  | Ok raw => load_from_str raw
  end.
Definition load_default : HedgeConfig := FileDefaults.hedge_config.
Definition load_or_default (path : option string) : result HedgeConfig ConfigError.t :=
  match path with Some p => load_from_path p | None => Ok load_default end.

(** What the loader promises of a configuration. *)
Record consistent (cfg : HedgeConfig) : Prop := {
  targets_ordered : daily_profit_target_min_inr (capital cfg) < daily_profit_target_max_inr (capital cfg);
  session_ordered : start_ist (session cfg) < end_ist (session cfg);
  war_mode_ordered : wm_start_ist (war_mode cfg) < wm_end_ist (war_mode cfg);
  drift_ordered : f_ge (drift_warn (governance (ai cfg))) (drift_critical (governance (ai cfg))) = false;
  brokers_distinct : primary (brokers cfg) <> backup (brokers cfg);
  thresholds_ordered : let t := thresholds (trader_psychology cfg) in
    f_lt (critical t) (suppression t) = true /\ f_lt (suppression t) (cooldown t) = true
    /\ f_lt (cooldown t) (warning t) = true;
}.

Lemma check_invariants_iff cfg : check_invariants cfg = Ok tt <-> consistent cfg.
Proof.
  unfold check_invariants, check_ordering. rewrite !Z.geb_leb. split.
  - intros H. destruct (Z.leb_spec (daily_profit_target_max_inr (capital cfg)) (daily_profit_target_min_inr (capital cfg)));
      [done |].
    destruct (Z.leb_spec (end_ist (session cfg)) (start_ist (session cfg))); [done |].
    destruct (Z.leb_spec (wm_end_ist (war_mode cfg)) (wm_start_ist (war_mode cfg))); [done |].
    destruct (f_ge _ _) eqn:Ef; [done |]. destruct (decide _) as [| Hne]; [done |].
    destruct (negb _) eqn:E; [done |]. bool_to_prop. by split.
  - intros [H1 H2 H3 H4 H5 (H6 & H7 & H8)].
    rewrite (proj2 (Z.leb_gt _ _) H1), (proj2 (Z.leb_gt _ _) H2), (proj2 (Z.leb_gt _ _) H3), H4, decide_False, H6, H7, H8
      by done. done.
Qed.
End loading.

(** ** Holders *)

(** [PinnedConfig]: a cell that is written once. *)
Module PinnedConfig.
Section pinned.
Context {A : Type}.
Definition t := option A.
Definition new : t := None.
Definition install (cfg : A) (p : t) : result A ConfigError.t * t :=
  match p with
  | None => (Ok cfg, Some cfg)
  | Some _ => (Err ConfigError.AlreadyInstalled, p)
  end.
Definition get (p : t) : option A := p.

Inductive op := Install (cfg : A) | Get.
Inductive answer := Installed (r : result A ConfigError.t) | Got (r : option A).
Definition step (p : t) (o : op) : answer * t :=
  match o with
  | Install cfg => let '(r, p) := install cfg p in (Installed r, p)
  | Get => (Got (get p), p)
  end.
Fixpoint run (p : t) (ops : list op) : list answer :=
  match ops with [] => [] | o :: ops => let '(a, p) := step p o in a :: run p ops end.

(** The first installed value among the operations. *)
Fixpoint first_install (ops : list op) : option A :=
  match ops with [] => None | Install cfg :: _ => Some cfg | Get :: ops => first_install ops end.

Lemma run_pinned cfg ops : run (Some cfg) ops =
  (fun o => match o with Install _ => Installed (Err ConfigError.AlreadyInstalled) | Get => Got (Some cfg) end) <$> ops.
Proof. induction ops as [| [c |] ops IH]; [done | |]; cbn; by rewrite IH. Qed.

Lemma run_new_pinned ops i : run new ops !! i =
  (fun o => match first_install (take i ops), o with
            | None, Install c => Installed (Ok c)
            | Some _, Install _ => Installed (Err ConfigError.AlreadyInstalled)
            | r, Get => Got r
            end) <$> (ops !! i).
Proof.
  revert i. induction ops as [| [c |] ops IH]; intros i; [done | |].
  - cbn. destruct i as [| i]; [done |]. change (run (Some c) ops !! i = (fun o => match o with Install _ => Installed (Err ConfigError.AlreadyInstalled)
                                                         | Get => Got (Some c) end) <$> (ops !! i)).
    by rewrite run_pinned, list_lookup_fmap.
  - cbn. destruct i as [| i]; [done |]. cbn. apply IH.
Qed.
End pinned.
End PinnedConfig.

(** [MutableConfig]: the current value, replaced as a whole. *)
Module MutableConfig.
Section mutable.
Context {A : Type}.
Definition current (m : A) : A := m.
Definition replace (new m : A) : A * A := (m, new).
End mutable.
End MutableConfig.

(** C25: Only a consistent configuration is loaded, and every consistent one is. A configuration that is read
    from a file or taken by default satisfies every rule between its fields: targets, the session and
    the war-mode window in order (so that, with times of a day, both controllers of the session service
    get a window of one day), drift limits, two different brokers and strictly falling psychology
    thresholds; and a text that the YAML reader and the schema accept is refused for no other reason
    than a broken rule. *)
Theorem loaded_configuration_is_consistent {Value : Type} (yaml_value : string -> result Value string)
  (yaml_config : string -> result HedgeConfig string) (validator : result (Value -> list string) string)
  (join : list string -> string) (read_to_string : string -> result string string)
  (path : option string) (cfg : HedgeConfig) :
  load_or_default yaml_value yaml_config validator join read_to_string path = Ok cfg <->
  consistent cfg /\
  match path with
  | None => cfg = FileDefaults.hedge_config
  | Some p => exists raw json validate, read_to_string p = Ok raw /\ yaml_value raw = Ok json
      /\ validator = Ok validate /\ validate json = [] /\ yaml_config raw = Ok cfg
  end.
Proof.
  assert (consistent FileDefaults.hedge_config) as Hdef by (by apply check_invariants_iff).
  unfold load_or_default. destruct path as [p |].
  - unfold load_from_path, load_from_str, validate_json. split.
    + intros H. destruct (read_to_string p) as [raw |] eqn:Er; [| done].
      destruct (yaml_value raw) as [json |] eqn:Ey; [| done].
      destruct validator as [validate |]; [| done]. destruct (validate json) eqn:Ev; [| done].
      destruct (yaml_config raw) as [c |] eqn:Ec; [| done].
      destruct (check_invariants c) as [[] |] eqn:Ei; [| done]. injection H as <-.
      split; [by apply check_invariants_iff |]. by exists raw, json, validate.
    + intros (Hc & raw & json & validate & -> & -> & -> & -> & ->).
      by rewrite (proj2 (check_invariants_iff cfg) Hc).
  - split; [intros [= <-]; done | by intros [_ ->]].
Qed.

(** A NaN is refused by the rule on thresholds and accepted by the one on drift limits. *)
Lemma nan_passes_the_drift_rule :
  let cfg := FileDefaults.hedge_config in
  let nan_drift := mk_HedgeConfig (capital cfg) (risk cfg) (session cfg) (war_mode cfg) (ui cfg)
    (mk_AiConfig [] (mk_GovernanceConfig S754_nan (f32_lit 35 100)) 5 (ranking_factors (ai cfg)))
    (trader_psychology cfg) (brokers cfg) (ollama cfg) (observability cfg) (warm_cache cfg) (replay cfg) in
  check_invariants nan_drift = Ok tt
  /\ is_ok (validated (f32_lit 6 10) (f32_lit 5 10) S754_nan (f32_lit 3 10)) = false.
Proof. split; vm_compute; reflexivity. Qed.

(** The configuration of the hot path never changes. Over any operations on the cell, an installation
    succeeds exactly when it is the first, a reading before it finds nothing, and every reading after it
    finds that first configuration. *)
Theorem pinned_configuration_never_changes {A : Type} (ops : list (PinnedConfig.op (A := A))) (i : nat)
  (o : PinnedConfig.op) :
  ops !! i = Some o ->
  PinnedConfig.run PinnedConfig.new ops !! i = Some
    (match o, PinnedConfig.first_install (take i ops) with
     | PinnedConfig.Install c, None => PinnedConfig.Installed (Ok c)
     | PinnedConfig.Install _, Some _ => PinnedConfig.Installed (Err ConfigError.AlreadyInstalled)
     | PinnedConfig.Get, first => PinnedConfig.Got first
     end).
Proof.
  intros Ho. rewrite PinnedConfig.run_new_pinned, Ho. cbn.
  by destruct o, (PinnedConfig.first_install (take i ops)).
Qed.

Lemma pinned_configuration_never_changes_witness :
  PinnedConfig.run (A := Z) PinnedConfig.new
    [PinnedConfig.Get; PinnedConfig.Install 1; PinnedConfig.Install 2; PinnedConfig.Get] !! 3%nat
  = Some (PinnedConfig.Got (Some 1)).
Proof.
  apply (pinned_configuration_never_changes
           [PinnedConfig.Get; PinnedConfig.Install 1; PinnedConfig.Install 2; PinnedConfig.Get] 3 PinnedConfig.Get).
  reflexivity.
Defined.
