(* ===== verification/Synth.v ===== *)
(** The demonstration synthesizer (hedge-demo-synth), its common part: the generator of pseudo-random
    numbers (rng.rs), the registry that yields to real publishers (suppression.rs), the board of last
    prices (ltp_board.rs), the basket (symbols.rs), the documents and derived quotes (derive.rs), the
    channel of signals (signal_bus.rs) and the subscriber of the coordinator (coordinator.rs). *)

From S2P Require Import Prelude Ieee Bytes Core LiveRoute UiJoin Vendors VendorFeed.

(** ** Pseudo-random numbers *)

Module Mulberry32.
Definition MASTER_SEED : Z := 0x5EEDED.
(** The state of a generator. *)
Definition t := Z.
Definition with_seed (seed : Z) : t := seed.
Definition for_stream (tag : Z) : t := Z.lxor MASTER_SEED tag.

Definition advance (state : t) : t := as_u32 (state + 0x6D2B79F5).
Definition scramble (z : Z) : Z :=
  let z := as_u32 (Z.lxor z (Z.shiftr z 15) * Z.lor z 1) in
  let z := Z.lxor z (as_u32 (z + as_u32 (Z.lxor z (Z.shiftr z 7) * Z.lor z 61))) in
  Z.lxor z (Z.shiftr z 14).
Definition next_u32 (s : t) : Z * t := let s := advance s in (scramble s, s).

Definition bits53 (hi lo : Z) : Z := Z.land (Z.lor (Prelude.as_u64 (Z.shiftl hi 21)) (Z.shiftr lo 11)) (2 ^ 53 - 1).
Definition next_f64 (s : t) : f64 * t :=
  let '(hi, s) := next_u32 s in
  let '(lo, s) := next_u32 s in
  (f64_div (f64_of_Z (bits53 hi lo)) (f64_of_Z (2 ^ 53)), s).
Definition range_i64 (lo hi : Z) (s : t) : Z * t :=
  if hi <=? lo then (lo, s)
  else
    let span := Prelude.as_u64 (hi - lo) in
    let '(x, s) := next_u32 s in
    (wrap_i64 (lo + x mod span), s).
Definition range_f64 (lo hi : f64) (s : t) : f64 * t :=
  let '(x, s) := next_f64 s in (f64_add lo (f64_mul (f64_sub hi lo) x), s).
End Mulberry32.

Module Stream.
Definition TICK : Z := 0x01.
Definition BOOK : Z := 0x02.
Definition OI : Z := 0x03.
Definition BREADTH : Z := 0x04.
Definition ORDERFLOW_EVENT : Z := 0x06.
Definition ORDERFLOW_HEATMAP : Z := 0x07.
Definition FEATURES : Z := 0x08.
Definition SIGNAL : Z := 0x09.
Definition RISK : Z := 0x0B.
Definition EXEC : Z := 0x0C.
Definition POSITION : Z := 0x0D.
Definition NEWS : Z := 0x0E.
Definition PSYCH : Z := 0x0F.
Definition LATENCY : Z := 0x10.
End Stream.

(** ** Yielding to real publishers *)

Module SuppressionRegistry.
Definition DEFAULT_SUPPRESSION_WINDOW : Z := 5 * 1000000000.
Record SubjectState := mk_SubjectState {
  last_real_seen_at : option Z;
  suppressed_until : option Z;
}.
Record t := mk { map : gmap string SubjectState; window : Z }.
Definition with_window (window : Z) : t := mk ∅ window.
Definition new : t := with_window DEFAULT_SUPPRESSION_WINDOW.

Section registry.
Context `{J : Json}.

(** [None] is a payload that is not JSON. *)
Definition is_synth_echo (payload : option Value) : bool :=
  match payload with
  | None => false
  | Some v => unwrap_or false (jget v "_synth" ≫= as_bool)
  end.
Definition record_message (now : Z) (subject : string) (payload : option Value) (r : t) : t :=
  if is_synth_echo payload then r
  else mk (<[subject := mk_SubjectState (Some now) (Some (now + window r))]> (map r)) (window r).
End registry.

Definition allow_publish (now : Z) (subject : string) (r : t) : bool :=
  match map r !! subject with
  | None => true
  | Some state => match suppressed_until state with None => true | Some deadline => deadline <=? now end
  end.
Definition suppressed_count (now : Z) (r : t) : nat :=
  length (filter (fun e => match suppressed_until e.2 with Some t => bool_decide (now < t) | None => false end = true)
            (map_to_list (map r))).
(** The deadline of a subject that is suppressed. *)
Definition deadline_of (now : Z) (subject : string) (r : t) : option Z :=
  s ← map r !! subject; t ← suppressed_until s; if now <? t then Some t else None.
End SuppressionRegistry.

(** ** Last prices *)

Module LtpBoard.
Record Quote := mk_Quote { ltp_paise : Z; bid_paise : Z; ask_paise : Z; ts_ns : Z }.
Definition t := gmap string Quote.
Definition new : t := ∅.
Definition set (symbol : string) (q : Quote) (b : t) : t := <[symbol := q]> b.
Definition get (symbol : string) (b : t) : option Quote := b !! symbol.
Definition snapshot (b : t) : list (string * Quote) := map_to_list b.
End LtpBoard.

(** ** The basket *)

Module Symbols.
Record DemoSymbol := mk_DemoSymbol {
  trading_symbol : string; instrument_key : string; anchor_paise : Z; sector : string }.
Definition DEMO_BASKET : list DemoSymbol :=
  [mk_DemoSymbol "RELIANCE" "NSE_EQ|INE002A01018" 135500 "Energy";
   mk_DemoSymbol "INFY" "NSE_EQ|INE009A01021" 116300 "IT";
   mk_DemoSymbol "SBIN" "NSE_EQ|INE062A01020" 96900 "Banks";
   mk_DemoSymbol "HDFCBANK" "NSE_EQ|INE040A01034" 76200 "Banks";
   mk_DemoSymbol "ICICIBANK" "NSE_EQ|INE090A01021" 128500 "Banks"].
Fixpoint dedup (l : list string) : list string :=
  match l with
  | x :: (y :: _) as rest => if decide (x = y) then dedup rest else x :: dedup rest
  | _ => l
  end.
Definition sectors : list string := dedup (merge_sort String.le (sector <$> DEMO_BASKET)).
End Symbols.

(** ** Documents *)

Record Strike := mk_Strike { strike_paise : Z; call_oi : Z; put_oi : Z; call_chg_oi : Z; put_chg_oi : Z }.
Record Cell := mk_Cell { price_paise : Z; buy_qty : Z; sell_qty : Z }.
Record Factors := mk_Factors {
  orderflow : f64; technical_strength : f64; news_sentiment : f64; market_regime : f64; trader_discipline : f64 }.

(** What the generators publish, with the fields that vary. *)
Inductive Payload :=
| Tick (symbol : string) (ltp_paise bid_paise ask_paise ts_recv_ns : Z)
| Book (symbol : string) (bid_paise bid_qty ask_paise ask_qty ts_ns : Z)
| OpenInterest (symbol expiry : string) (strikes : list Strike) (ts_ns : Z)
| SectorBreadth (sector : string) (advancers decliners ts_ns : Z)
| Volatility (volatility : f64) (ts_ns : Z)
| Connection (at_ : Z) (ts_ns : Z)
| FlowEvent (symbol event : string) (ts_ns : Z) (detail : string)
| Heatmap (symbol : string) (cells : list Cell) (ts_ns : Z)
| FeatureUpdate (symbol : string) (vwap_paise ema_fast_paise ema_slow_paise atr_paise : Z)
    (realized_vol momentum liquidity_imbalance : f64) (ts_ns : Z)
| Signal (correlation_id strategy symbol side : string) (base_probability confidence : f64) (ts_ns : Z)
| Rank (correlation_id strategy symbol side : string) (base_probability confidence trade_confidence_score : f64)
    (factors : Factors) (explanation : string) (ts_ns : Z)
| Decision (correlation_id : string) (approved : bool) (rationale_code : Z) (rationale : string)
    (sized_quantity ts_ns : Z)
| Cooldown (symbol : string) (until_ts_ns : Z)
| Order (correlation_id broker_order_id symbol state : string) (filled_qty ts_ns : Z)
| Fill (correlation_id broker_order_id symbol state : string) (filled_qty avg_fill_paise ts_ns : Z)
| TradeClosed (correlation_id symbol : string) (pnl_inr : f64) (ts_ns : Z)
| PosUpdate (symbol : string) (quantity avg_price_paise ts_ns : Z)
| KillSwitchActive (ts_ns : Z)
| TargetReached (ts_ns : Z) (pnl_inr : f64)
| RiskState (gross_exposure_inr portfolio_pnl_inr drawdown_inr : f64) (ts_ns : Z)
| News (correlation_id symbol headline_id headline : string) (sentiment impact_magnitude : f64)
    (fast_path slow_path_pending : bool) (ts_ns : Z)
| Stability (score discipline emotional_control risk_consistency patience : f64) (ts_ns : Z)
| Intervention (action : string) (trigger_score : f64) (ts_ns : Z)
| LatencyRecord (correlation_id stage : string) (nanos budget_nanos : Z) (breach : bool) (ts_ns : Z)
| LatencyAggregate (stage : string) (p50_nanos p95_nanos p99_nanos budget_nanos samples breach_count ts_ns : Z)
| BudgetBreach (stage : string) (nanos budget_nanos ts_ns : Z)
| ReplayStatus (sequence_no ts_ns : Z).

(** A document as the macro builds it, without the mark of the synthesizer. *)
Record Doc := mk_Doc { body : Payload; synth : bool }.
Definition json (p : Payload) : Doc := mk_Doc p false.
Definition synth_tag (d : Doc) : Doc := mk_Doc (body d) true.

(** ** Signals between the generators *)

Record SignalEvent := mk_SignalEvent {
  se_correlation_id : string;
  se_symbol : string;
  se_side : string;
  se_strategy : string;
  se_ltp_paise : Z;
  se_base_probability : f64;
  se_confidence : f64;
}.

Module SignalBus.
Record t := mk { capacity : nat; queue : list SignalEvent }.
Definition new (capacity : nat) : t := mk capacity [].
(** [None]: the sender waits for room, the receiver for an event. *)
Definition send (e : SignalEvent) (b : t) : option t :=
  if decide (length (queue b) < capacity b)%nat then Some (mk (capacity b) (queue b ++ [e])) else None.
Definition recv (b : t) : option (SignalEvent * t) :=
  match queue b with [] => None | e :: q => Some (e, mk (capacity b) q) end.
End SignalBus.

(** ** Generator tasks *)

(** What a task finds outside itself at its [k]-th look: the wall clock, the registry with the monotonic
    clock, the board, and whether the bus accepts a publication.  Between two looks the other tasks, the
    subscriber and real publishers do what they want. *)
Class Env := {
  wall : nat -> Z;
  registry : nat -> SuppressionRegistry.t;
  instant : nat -> Z;
  quotes : nat -> LtpBoard.t;
  accepted : nat -> bool;
}.

Inductive Effect :=
| Published (subject : string) (doc : Doc)
| Slept (ms : Z)
| BoardSet (symbol : string) (q : LtpBoard.Quote)
| Sent (e : SignalEvent).

Record Task := mk_Task { t_rng : Mulberry32.t; t_looks : nat; t_effects : list Effect }.
Definition task (tag : Z) : Task := mk_Task (Mulberry32.for_stream tag) 0 [].

Definition G (A : Type) : Type := Task -> A * Task.
#[global] Instance g_ret : MRet G := fun A a t => (a, t).
#[global] Instance g_bind : MBind G := fun A B k m t => let '(a, t) := m t in k a t.

Definition emit (e : Effect) : G unit := fun t => (tt, mk_Task (t_rng t) (t_looks t) (t_effects t ++ [e])).
Definition look {A} (f : nat -> A) : G A :=
  fun t => (f (t_looks t), mk_Task (t_rng t) (S (t_looks t)) (t_effects t)).
Definition draw {A} (f : Mulberry32.t -> A * Mulberry32.t) : G A :=
  fun t => let '(a, s) := f (t_rng t) in (a, mk_Task s (t_looks t) (t_effects t)).
Definition range_i64 (lo hi : Z) : G Z := draw (Mulberry32.range_i64 lo hi).
Definition range_f64 (lo hi : f64) : G f64 := draw (Mulberry32.range_f64 lo hi).
Definition next_f64 : G f64 := draw Mulberry32.next_f64.
Definition next_u32 : G Z := draw Mulberry32.next_u32.
Definition sleep (ms : Z) : G unit := emit (Slept ms).

(** Run for each element in turn. *)
Fixpoint each {A B} (f : A -> G B) (l : list A) : G (list B) :=
  match l with
  | [] => mret []
  | a :: l => b ← f a; bs ← each f l; mret (b :: bs)
  end.

Section derive.
Context `{E : Env}.

Definition now_ns : G Z := look wall.
Definition allow (subject : string) : G bool :=
  look (fun k => SuppressionRegistry.allow_publish (instant k) subject (registry k)).
Definition board_get (symbol : string) : G (option LtpBoard.Quote) := look (fun k => LtpBoard.get symbol (quotes k)).
Definition board_set (symbol : string) (q : LtpBoard.Quote) : G unit := emit (BoardSet symbol q).
(** Whether the bus took it; a failure is logged. *)
Definition publish (subject : string) (d : Doc) : G bool := _ ← emit (Published subject d); look accepted.
Definition publish_if_allowed (subject : string) (d : G Doc) : G unit :=
  ok ← allow subject;
  if (ok : bool) then d ← d; _ ← publish subject d; mret tt else mret tt.

Definition build_tick_envelope (symbol : string) (q : LtpBoard.Quote) : Doc :=
  synth_tag (json (Tick symbol (LtpBoard.ltp_paise q) (LtpBoard.bid_paise q) (LtpBoard.ask_paise q) (LtpBoard.ts_ns q))).
Definition build_book_envelope (symbol : string) (q : LtpBoard.Quote) (bid_qty ask_qty : Z) : Doc :=
  synth_tag (json (Book symbol (LtpBoard.bid_paise q) bid_qty (LtpBoard.ask_paise q) ask_qty (LtpBoard.ts_ns q))).

(** The price after [prev] with a step of [bps] hundredths of a percent. *)
Definition walk (anchor_paise prev : Z) (bps : f64) : Z :=
  let revert := f64_mul (f64_of_Z (wrap_i64 (anchor_paise - prev))) (f64_lit 5 10000) in
  let delta_paise := f64_add (f64_mul (f64_of_Z prev) (f64_div bps (f64_of_Z 10000))) revert in
  f_round_as_i64 (f64_add (f64_of_Z prev) delta_paise).
Definition quote_around (prev ltp ts_ns : Z) : LtpBoard.Quote :=
  let spread := Z.max (Z.quot prev 2000) 5 in
  LtpBoard.mk_Quote (Z.max ltp 1) (Z.max (wrap_i64 (ltp - Z.quot spread 2)) 1) (wrap_i64 (ltp + Z.quot spread 2)) ts_ns.
Definition step_quote (symbol : string) (anchor_paise : Z) : G LtpBoard.Quote :=
  q ← board_get symbol;
  let prev := unwrap_or anchor_paise (LtpBoard.ltp_paise <$> q) in
  bps ← range_f64 (f64_of_Z (-5)) (f64_of_Z 5);
  ts ← now_ns;
  let q := quote_around prev (walk anchor_paise prev bps) ts in
  _ ← board_set symbol q;
  mret q.
(** The last price of a symbol of the basket. *)
Definition last_price (sym : Symbols.DemoSymbol) : G Z :=
  q ← board_get (Symbols.trading_symbol sym);
  mret (unwrap_or (Symbols.anchor_paise sym) (LtpBoard.ltp_paise <$> q)).
End derive.

(** ** The subscriber of the coordinator *)

Module Coordinator.
Definition SUPPRESSION_PATTERNS : list string :=
  ["md.tick.>"; "md.book.>"; "md.oi.>"; "md.breadth.sector"; "md.breadth.volatility"; "md.connection.>";
   "of.event.>"; "of.heatmap.>"; "feat.update.>"; "sig.emitted"; "ai.rank.>"; "ai.news.impact.>";
   "ai.psych.stability"; "ai.psych.intervention"; "risk.decision.approved"; "risk.decision.rejected";
   "risk.killswitch.activated"; "risk.target.reached"; "risk.cooldown.>"; "pos.update.>"; "pos.risk_state";
   "exec.order.>"; "exec.fill.>"; "exec.broker.failover"; "exec.trade.closed"; "obs.latency.>";
   "obs.budget.breach.>"; "ops.action.replay"].

Section coordinator.
Context `{J : Json} `{R : !JsonRead}.

Definition parse_real_tick (now : Z) (payload : option Value) : option LtpBoard.Quote :=
  v ← payload;
  if unwrap_or false (jget v "_synth" ≫= as_bool) then None
  else
    data ← jget v "data";
    _ ← as_object data;
    ltp ← jget data "ltp_paise" ≫= as_i64;
    let bid := unwrap_or (wrap_i64 (ltp - 5)) (jget data "bid_paise" ≫= as_i64) in
    let ask := unwrap_or (wrap_i64 (ltp + 5)) (jget data "ask_paise" ≫= as_i64) in
    let ts_ns := unwrap_or now (jget data "ts_recv_ns" ≫= as_i64) in
    Some (LtpBoard.mk_Quote ltp bid ask ts_ns).

(** One message of a watched subject. *)
Definition on_message (instant now : Z) (subject : string) (payload : option Value)
  (s : SuppressionRegistry.t * LtpBoard.t) : SuppressionRegistry.t * LtpBoard.t :=
  let '(reg, board) := s in
  let reg := SuppressionRegistry.record_message instant subject payload reg in
  match Vendors.strip_prefix "md.tick." subject with
  | None => (reg, board)
  | Some sym =>
    match parse_real_tick now payload with
    | Some q => (reg, LtpBoard.set sym q board)
    | None => (reg, board)
    end
  end.
End coordinator.
End Coordinator.
