(* ===== verification/SynthGen.v ===== *)
(** The generators of the demonstration synthesizer (hedge-demo-synth/src/generators): one round of each
    loop, as an action on the task's random numbers and effects.  Draws happen in the order of the source,
    so that a round is a function of the seed and of what the task finds outside. *)

From S2P Require Import Prelude Ieee Bytes Core LiveRoute Synth.

Section generators.
Context `{E : Env}.

(** An element of a non-empty list; [x] is never used then. *)
Definition pick {A} (x : A) (l : list A) : G A :=
  i ← range_i64 0 (Z.of_nat (length l)); mret (nth (Z.to_nat i) l x).
Definition pick_symbol : G Symbols.DemoSymbol :=
  pick (Symbols.mk_DemoSymbol EmptyString EmptyString 0 EmptyString) Symbols.DEMO_BASKET.
(** The subject of a symbol, when it may be published on. *)
Definition for_symbol (prefix : string) (f : Symbols.DemoSymbol -> G Doc) (sym : Symbols.DemoSymbol) : G unit :=
  publish_if_allowed (prefix +:+ Symbols.trading_symbol sym) (f sym).

(** ** Market data *)

Definition tick_round : G unit :=
  _ ← each (for_symbol "md.tick." (fun sym =>
    q ← step_quote (Symbols.trading_symbol sym) (Symbols.anchor_paise sym);
    mret (build_tick_envelope (Symbols.trading_symbol sym) q))) Symbols.DEMO_BASKET;
  mret tt.

Definition book_round : G unit :=
  _ ← each (for_symbol "md.book." (fun sym =>
    q ← board_get (Symbols.trading_symbol sym);
    let anchor := Symbols.anchor_paise sym in
    q ← (match q with
         | Some q => mret q
         | None => ts ← now_ns; mret (LtpBoard.mk_Quote anchor (anchor - 5) (anchor + 5) ts)
         end);
    bid_qty ← range_i64 100 2500;
    ask_qty ← range_i64 100 2500;
    mret (build_book_envelope (Symbols.trading_symbol sym) q bid_qty ask_qty))) Symbols.DEMO_BASKET;
  mret tt.

Definition scale (offset : Z) : f64 :=
  if Z.abs offset =? 0 then f64_one else if Z.abs offset =? 1 then f64_lit 65 100 else f64_lit 35 100.
Definition build_strike_ladder (ltp_paise : Z) : G (list Strike) :=
  let step := Z.max (Z.quot ltp_paise 100) 50 in
  each (fun offset =>
    call ← range_f64 (f64_of_Z 40000) (f64_of_Z 90000);
    put ← range_f64 (f64_of_Z 40000) (f64_of_Z 90000);
    call_chg ← range_i64 (-3000) 3000;
    put_chg ← range_i64 (-3000) 3000;
    mret (mk_Strike (as_i64 (ltp_paise + offset * step)) (f_as_u64 (f64_mul call (scale offset)))
            (f_as_u64 (f64_mul put (scale offset))) call_chg put_chg)) [-2; -1; 0; 1; 2].

(** A date is its number of days since 1970-01-01; a weekday counts from Monday. *)
Definition weekday (date : Z) : Z := (date + 3) mod 7.
Definition days_to_thu (weekday : Z) : Z :=
  match weekday with 0 => 3 | 1 => 2 | 2 => 1 | 3 => 7 | 4 => 6 | 5 => 5 | _ => 4 end.
Definition next_thursday (today : Z) : Z := today + days_to_thu (weekday today).

(** [expiry] is the text of the expiry. *)
Definition oi_round (expiry : string) : G unit :=
  _ ← each (for_symbol "md.oi." (fun sym =>
    ltp ← last_price sym;
    strikes ← build_strike_ladder ltp;
    ts ← now_ns;
    mret (synth_tag (json (OpenInterest (Symbols.trading_symbol sym) expiry strikes ts))))) Symbols.DEMO_BASKET;
  mret tt.

Definition sector_doc (sec : string) : G Doc :=
  let total := Z.of_nat (length (filter (fun d => Symbols.sector d = sec) Symbols.DEMO_BASKET)) in
  bias ← range_f64 (f64_lit 3 10) (f64_lit 7 10);
  let adv := f_round_as_i64 (f64_mul (f64_of_Z total) bias) in
  let dec := as_i64 (total - adv) in
  ts ← now_ns;
  mret (synth_tag (json (SectorBreadth sec (Z.max adv 0) (Z.max dec 0) ts))).
Definition sector_round : G unit :=
  ok ← allow "md.breadth.sector";
  if (ok : bool) then
    _ ← each (fun sec => d ← sector_doc sec; publish "md.breadth.sector" d) Symbols.sectors;
    mret tt
  else mret tt.
Definition volatility_round : G unit :=
  publish_if_allowed "md.breadth.volatility" (
    v ← range_f64 (f64_lit 1 100) (f64_lit 8 100);
    ts ← now_ns;
    mret (synth_tag (json (Volatility v ts)))).

Definition connection_round : G unit :=
  publish_if_allowed "md.connection.synth" (
    at_ ← now_ns;
    ts ← now_ns;
    mret (synth_tag (json (Connection at_ ts)))).

(** ** Order flow and features *)

Definition EVENT_NAMES : list string := ["LiquidityGap"; "Absorption"; "HiddenLiquidity"; "Spoofing"].
Definition event_for (sym : Symbols.DemoSymbol) : G unit :=
  x ← next_f64;
  if f_gt x (f64_lit 3 10) then mret tt
  else for_symbol "of.event." (fun sym =>
    event_name ← pick EmptyString EVENT_NAMES;
    ts ← now_ns;
    mret (synth_tag (json (FlowEvent (Symbols.trading_symbol sym) event_name ts
      ("synthetic " +:+ event_name +:+ " on " +:+ Symbols.trading_symbol sym))))) sym.
Definition event_round : G unit := _ ← each event_for Symbols.DEMO_BASKET; mret tt.

Definition build_cells (ltp_paise : Z) : G (list Cell) :=
  let step := Z.max (Z.quot ltp_paise 10000) 5 in
  each (fun offset =>
    let price := as_i64 (ltp_paise + offset * step) in
    let buy_bias := if offset <=? 0 then f64_lit 15 10 else f64_lit 6 10 in
    let sell_bias := if offset >? 0 then f64_lit 15 10 else f64_lit 6 10 in
    buy ← range_f64 (f64_of_Z 20) (f64_of_Z 800);
    sell ← range_f64 (f64_of_Z 20) (f64_of_Z 800);
    mret (mk_Cell price (f_as_u64 (f64_mul buy buy_bias)) (f_as_u64 (f64_mul sell sell_bias))))
    [-5; -4; -3; -2; -1; 0; 1; 2; 3; 4; 5].
Definition heatmap_round : G unit :=
  _ ← each (for_symbol "of.heatmap." (fun sym =>
    ltp ← last_price sym;
    cells ← build_cells ltp;
    ts ← now_ns;
    mret (synth_tag (json (Heatmap (Symbols.trading_symbol sym) cells ts))))) Symbols.DEMO_BASKET;
  mret tt.

Definition features_round : G unit :=
  _ ← each (for_symbol "feat.update." (fun sym =>
    ltp ← last_price sym;
    vwap ← range_i64 (-50) 50;
    ema_fast ← range_i64 (-30) 30;
    ema_slow ← range_i64 (-100) 100;
    atr ← range_i64 50 250;
    realized_vol ← range_f64 (f64_lit 5 1000) (f64_lit 4 100);
    momentum ← range_f64 (f_opp (f64_lit 5 10)) (f64_lit 5 10);
    imbalance ← range_f64 (f_opp (f64_lit 4 10)) (f64_lit 4 10);
    ts ← now_ns;
    mret (synth_tag (json (FeatureUpdate (Symbols.trading_symbol sym) (as_i64 (ltp + vwap))
      (as_i64 (ltp + ema_fast)) (as_i64 (ltp + ema_slow)) atr realized_vol momentum imbalance ts)))))
    Symbols.DEMO_BASKET;
  mret tt.

(** ** Signals *)

Definition STRATEGIES : list string :=
  ["OpeningRangeBreakout"; "VwapPullback"; "MomentumBreakout"; "LiquiditySweepReversal";
   "OptionsOiExpansionBreakout"; "VolatilityCompressionBreakout"].
(** [{:016x}] of a 64-bit value. *)
Definition hex016 (z : Z) : string := Bytes.to_hex (Bytes.be_bytes 8 z).
Definition signal_event : G SignalEvent :=
  sym ← pick_symbol;
  strat ← pick EmptyString STRATEGIES;
  x ← next_f64;
  let side := if f_gt x (f64_lit 5 10) then "buy" else "sell" in
  n ← next_u32;
  now ← now_ns;
  let corr_id := "synth-" +:+ hex016 (as_u64 (n * 0x9E3779B9 + as_u64 now)) in
  base_p ← range_f64 (f64_lit 45 100) (f64_lit 7 10);
  conf ← range_f64 (f64_lit 55 100) (f64_lit 85 100);
  ltp ← last_price sym;
  mret (mk_SignalEvent corr_id (Symbols.trading_symbol sym) side strat ltp base_p conf).
Definition signal_doc (e : SignalEvent) (ts : Z) : Doc :=
  synth_tag (json (Signal (se_correlation_id e) (se_strategy e) (se_symbol e) (se_side e)
    (se_base_probability e) (se_confidence e) ts)).
Definition signal_round : G unit :=
  gap_ms ← range_i64 5000 30000;
  _ ← sleep gap_ms;
  ok ← allow "sig.emitted";
  if (ok : bool) then
    e ← signal_event;
    ts ← now_ns;
    sent ← publish "sig.emitted" (signal_doc e ts);
    if (sent : bool) then emit (Sent e) else mret tt
  else mret tt.

(** ** News, psychology, replay *)

Definition HEADLINES : list string :=
  ["Q3 earnings beat expectations on margin expansion"; "Regulator approves new pricing scheme";
   "Sector rotation hits IT exporters on rupee strength"; "Banking guidance signals near-term NIM compression";
   "Energy major announces new capex cycle"; "Mid-cap rally cools as FII flows reverse";
   "RBI commentary boosts financials sentiment"; "Auto sales numbers miss street estimates";
   "Index breaks above multi-month resistance"; "Volatility expands ahead of policy announcement"].
Definition news_round : G unit :=
  gap ← range_i64 30000 120000;
  _ ← sleep gap;
  sym ← pick_symbol;
  for_symbol "ai.news.impact." (fun sym =>
    headline ← pick EmptyString HEADLINES;
    corr ← next_u32;
    hdl ← next_u32;
    sentiment ← range_f64 (f_opp (f64_lit 8 10)) (f64_lit 8 10);
    impact ← range_f64 (f64_lit 1 10) (f64_lit 85 100);
    fast ← next_f64;
    slow ← next_f64;
    ts ← now_ns;
    mret (synth_tag (json (News ("synth-news-" +:+ LiveRoute.hex08 corr) (Symbols.trading_symbol sym)
      ("hdl-" +:+ LiveRoute.hex08 hdl) headline sentiment impact (f_lt fast (f64_lit 5 10))
      (f_lt slow (f64_lit 3 10)) ts)))) sym.

Definition jittered (score : f64) (width : f64) : G f64 :=
  x ← range_f64 (f_opp width) width; mret (f_clamp f_zero f64_one (f64_add score x)).
(** One round from a score to the next. *)
Definition stability_round (score : f64) : G f64 :=
  ok ← allow "ai.psych.stability";
  if (ok : bool) then
    step ← range_f64 (f_opp (f64_lit 3 100)) (f64_lit 3 100);
    let score := f_clamp (f64_lit 4 10) (f64_lit 9 10)
      (f64_add (f64_add score step) (f64_mul (f64_sub (f64_lit 7 10) score) (f64_lit 5 100))) in
    discipline ← jittered score (f64_lit 5 100);
    emotional ← jittered score (f64_lit 8 100);
    risk_cons ← jittered score (f64_lit 5 100);
    patience ← jittered score (f64_lit 6 100);
    ts ← now_ns;
    _ ← publish "ai.psych.stability"
          (synth_tag (json (Stability score discipline emotional risk_cons patience ts)));
    mret score
  else mret score.
Definition intervention_round : G unit :=
  gap ← range_i64 240000 600000;
  _ ← sleep gap;
  publish_if_allowed "ai.psych.intervention" (
    action ← pick EmptyString ["warning"; "cooldown"; "size_reduction"; "kill_switch"];
    trigger ← range_f64 (f64_lit 35 100) (f64_lit 55 100);
    ts ← now_ns;
    mret (synth_tag (json (Intervention action trigger ts)))).

(** The heartbeat, from a sequence number to the next. *)
Definition replay_round (sequence_no : Z) : G Z :=
  ok ← allow "ops.action.replay";
  if (ok : bool) then
    let sequence_no := as_u64 (sequence_no + 1) in
    ts ← now_ns;
    _ ← publish "ops.action.replay" (synth_tag (json (ReplayStatus sequence_no ts)));
    mret sequence_no
  else mret sequence_no.

(** ** Latency *)

Definition STAGES : list (string * Z) :=
  [("TickIngest", 2000000); ("FeatureExtraction", 3000000); ("AiScoringFetch", 50000000);
   ("RiskCheck", 5000000); ("ExecutionRouting", 10000000); ("BrokerSubmit", 250000000)].
Definition AGGREGATE_SAMPLES : nat := 200.
Definition of_budget (budget : Z) (factor : f64) : Z := f_as_u64 (f64_mul (f64_of_Z budget) factor).
Definition percentile (samples : list Z) (q : f64) : Z :=
  nth (Z.to_nat (f_round_as_i64 (f64_mul (f64_sub (f64_of_Z (Z.of_nat (length samples))) f64_one) q))) samples 0.
Definition aggregate_doc (stage : string) (budget breach_count : Z) : G Doc :=
  samples ← each (fun _ => x ← range_f64 (f64_lit 3 10) (f64_lit 95 100); mret (of_budget budget x))
              (replicate AGGREGATE_SAMPLES tt);
  let samples := sort_by Z.le samples in
  ts ← now_ns;
  mret (synth_tag (json (LatencyAggregate stage (percentile samples (f64_lit 50 100))
    (percentile samples (f64_lit 95 100)) (percentile samples (f64_lit 99 100)) budget
    (Z.of_nat (length samples)) breach_count ts))).
(** One stage, with its count of breaches. *)
Definition latency_stage (e : (string * Z) * Z) : G Z :=
  let '((stage, budget), breach_count) := e in
  ok ← allow ("obs.latency." +:+ stage);
  if (ok : bool) then
    x ← next_f64;
    let breach := f_lt x (f64_lit 1 100) in
    y ← (if breach then range_f64 (f64_lit 105 100) (f64_lit 15 10) else range_f64 (f64_lit 3 10) (f64_lit 8 10));
    let record_nanos := of_budget budget y in
    let breach_count := if breach then as_u64 (breach_count + 1) else breach_count in
    corr ← next_u32;
    ts ← now_ns;
    _ ← publish ("obs.latency." +:+ stage)
          (synth_tag (json (LatencyRecord ("synth-lat-" +:+ LiveRoute.hex08 corr) stage record_nanos budget breach ts)));
    d ← aggregate_doc stage budget breach_count;
    _ ← publish ("obs.latency." +:+ stage) d;
    _ ← (if breach then
           publish_if_allowed ("obs.budget.breach." +:+ stage) (
             ts ← now_ns;
             mret (synth_tag (json (BudgetBreach stage record_nanos budget ts))))
         else mret tt);
    mret breach_count
  else mret breach_count.
Definition latency_round (breach_counts : list Z) : G (list Z) := each latency_stage (zip STAGES breach_counts).
End generators.
