(* ===== verification/SynthChain.v ===== *)
(** The synthetic life of a trade (hedge-demo-synth/src/generators/trade_chain.rs): rank, risk decision,
    order, fills, position and closing of a signal of the synthesizer, and its two background loops. *)

From S2P Require Import Prelude Ieee Bytes Core LiveRoute Synth SynthGen.

Record OpenPosition := mk_OpenPosition { qty_signed : Z; avg_price_paise : Z }.
Abbreviation Positions := (gmap string OpenPosition).

Section chain.
(** [percent] renders a share of one as a whole percentage. *)
Context `{E : Env} (percent : f64 -> string).

Definition rank_doc (sig : SignalEvent) (confidence : f64) : G Doc :=
  f1 ← range_f64 (f64_lit 3 10) (f64_lit 95 100);
  f2 ← range_f64 (f64_lit 3 10) (f64_lit 95 100);
  f3 ← range_f64 (f64_lit 2 10) (f64_lit 9 10);
  f4 ← range_f64 (f64_lit 3 10) (f64_lit 85 100);
  f5 ← range_f64 (f64_lit 5 10) (f64_lit 95 100);
  ts ← now_ns;
  mret (synth_tag (json (Rank (se_correlation_id sig) (se_strategy sig) (se_symbol sig) (se_side sig)
    (se_base_probability sig) (se_confidence sig) confidence (mk_Factors f1 f2 f3 f4 f5)
    ("synthetic rank for " +:+ se_symbol sig +:+ "/" +:+ se_strategy sig +:+ " (" +:+ percent confidence
     +:+ " confidence)") ts))).
Definition rank_step (sig : SignalEvent) : G f64 :=
  ms ← range_i64 200 800;
  _ ← sleep ms;
  confidence ← range_f64 (f64_lit 45 100) (f64_lit 95 100);
  _ ← publish_if_allowed ("ai.rank." +:+ se_correlation_id sig) (rank_doc sig confidence);
  mret confidence.

(** Whether the trade is approved, and its size. *)
Definition verdict (confidence : f64) : G (bool * Z) :=
  approved ← (if f_gt confidence (f64_lit 55 100) then x ← next_f64; mret (f_lt x (f64_lit 7 10)) else mret false);
  qty ← (if (approved : bool) then range_i64 10 100 else mret 0);
  mret (approved, qty).
Definition risk_subject (approved : bool) : string :=
  if approved then "risk.decision.approved" else "risk.decision.rejected".
Definition decision_doc (sig : SignalEvent) (approved : bool) (qty : Z) : G Doc :=
  rationale ← (if approved then mret "approved"
               else pick EmptyString ["below_priority_floor"; "cooldown_active"; "size_zero"]);
  code ← (if approved then mret 0 else x ← range_i64 0 5; mret (1 + x));
  ts ← now_ns;
  mret (synth_tag (json (Decision (se_correlation_id sig) approved code rationale qty ts))).

Definition cooldown_step (sig : SignalEvent) : G unit :=
  x ← next_f64;
  if f_lt x (f64_lit 4 10) then
    publish_if_allowed ("risk.cooldown." +:+ se_symbol sig) (
      ts ← now_ns;
      mret (synth_tag (json (Cooldown (se_symbol sig) (as_i64 (ts + 30000000000))))))
  else mret tt.

Definition submit_step (sig : SignalEvent) : G string :=
  ms ← range_i64 200 500;
  _ ← sleep ms;
  n ← next_u32;
  let broker_id := "UPSTOX-" +:+ LiveRoute.hex08 n in
  _ ← publish_if_allowed "exec.order.submitted" (
        ts ← now_ns;
        mret (synth_tag (json (Order (se_correlation_id sig) broker_id (se_symbol sig) "Submitted" 0 ts))));
  mret broker_id.

Definition fill_doc (sig : SignalEvent) (broker_id : string) (qty filled weighted : Z) : G Doc :=
  ts ← now_ns;
  mret (synth_tag (json (Fill (se_correlation_id sig) broker_id (se_symbol sig)
    (if qty <=? filled then "Filled" else "PartiallyFilled") filled (Z.quot weighted (Z.max filled 1)) ts))).
(** The fills numbered [rest] of [n_fills], after [filled] shares at a total price of [weighted]. *)
Fixpoint fills_loop (sig : SignalEvent) (broker_id : string) (qty n_fills : Z) (rest : list Z)
  (filled weighted : Z) : G (Z * Z) :=
  match rest with
  | [] => mret (filled, weighted)
  | i :: rest =>
    ms ← range_i64 400 1500;
    _ ← sleep ms;
    let chunk := if i =? n_fills - 1 then as_i64 (qty - filled) else Z.max (Z.quot qty n_fills) 1 in
    if chunk <=? 0 then mret (filled, weighted)
    else
      x ← range_i64 (-15) 15;
      let fill_price := as_i64 (se_ltp_paise sig + x) in
      let weighted := as_i64 (weighted + as_i64 (fill_price * chunk)) in
      let filled := as_i64 (filled + chunk) in
      _ ← publish_if_allowed ("exec.fill." +:+ se_symbol sig) (fill_doc sig broker_id qty filled weighted);
      fills_loop sig broker_id qty n_fills rest filled weighted
  end.
Definition fills_step (sig : SignalEvent) (broker_id : string) (qty : Z) : G (Z * Z) :=
  n_fills ← range_i64 1 4;
  fills_loop sig broker_id qty n_fills (seqZ 0 n_fills) 0 0.

(** Added to a position in its direction. *)
Definition averaged (pos : OpenPosition) (signed_qty new_qty avg_fill : Z) : Z :=
  let prev_notional := as_i64 (as_i64 (Z.abs (qty_signed pos)) * avg_price_paise pos) in
  let added_notional := as_i64 (as_i64 (Z.abs signed_qty) * avg_fill) in
  Z.quot (as_i64 (prev_notional + added_notional)) (as_i64 (Z.max (Z.abs new_qty) 1)).
Definition pnl_paise (pos : OpenPosition) (avg_fill : Z) : Z :=
  as_i64 (as_i64 (as_i64 (avg_fill - avg_price_paise pos) * Z.sgn (qty_signed pos)) * as_i64 (Z.abs (qty_signed pos))).
(** The new average price of a position, or [None] where a trade is closed. *)
Definition merged (pos : OpenPosition) (signed_qty new_qty avg_fill : Z) : option Z :=
  if negb (new_qty =? 0) && (Z.sgn (qty_signed pos) =? Z.sgn new_qty)
  then Some (averaged pos signed_qty new_qty avg_fill) else None.
Definition book_step (positions : Positions) (sig : SignalEvent) (filled weighted : Z) : G Positions :=
  let avg_fill := Z.quot weighted (Z.max filled 1) in
  let signed_qty := if bool_decide (se_side sig = "buy") then filled else as_i64 (- filled) in
  let pos := unwrap_or (mk_OpenPosition 0 avg_fill) (positions !! se_symbol sig) in
  let new_qty := as_i64 (qty_signed pos + signed_qty) in
  avg ← (match merged pos signed_qty new_qty avg_fill with
         | Some avg => mret avg
         | None =>
           _ ← publish_if_allowed "exec.trade.closed" (
                 ts ← now_ns;
                 mret (synth_tag (json (TradeClosed (se_correlation_id sig) (se_symbol sig)
                   (f64_div (f64_of_Z (pnl_paise pos avg_fill)) (f64_of_Z 100)) ts))));
           mret avg_fill
         end);
  _ ← publish_if_allowed ("pos.update." +:+ se_symbol sig) (
        ts ← now_ns;
        mret (synth_tag (json (PosUpdate (se_symbol sig) new_qty avg ts))));
  mret (<[se_symbol sig := mk_OpenPosition new_qty avg]> positions).

Definition process_signal (positions : Positions) (sig : SignalEvent) : G Positions :=
  confidence ← rank_step sig;
  v ← verdict confidence;
  let '(approved, qty) := v in
  _ ← publish_if_allowed (risk_subject approved) (decision_doc sig approved qty);
  _ ← cooldown_step sig;
  if (approved : bool) then
    broker_id ← submit_step sig;
    f ← fills_step sig broker_id qty;
    let '(filled, weighted) := f in
    book_step positions sig filled weighted
  else mret positions.
(** The signals received, one after the other. *)
Fixpoint run_chain (positions : Positions) (sigs : list SignalEvent) : G Positions :=
  match sigs with
  | [] => mret positions
  | sig :: sigs => positions ← process_signal positions sig; run_chain positions sigs
  end.

(** ** Background loops *)

Definition kill_and_target_round : G unit :=
  gap ← range_i64 300000 900000;
  _ ← sleep gap;
  x ← next_f64;
  if f_lt x (f64_lit 5 10) then
    publish_if_allowed "risk.killswitch.activated" (
      ts ← now_ns; mret (synth_tag (json (KillSwitchActive ts))))
  else
    publish_if_allowed "risk.target.reached" (
      ts ← now_ns;
      pnl ← range_f64 (f64_of_Z 2000) (f64_of_Z 10000);
      mret (synth_tag (json (TargetReached ts pnl)))).

(** One round from a drift of the profit to the next. *)
Definition portfolio_round (pnl_drift : f64) : G f64 :=
  ok ← allow "pos.risk_state";
  if (ok : bool) then
    x ← range_f64 (f64_of_Z (-50)) (f64_of_Z 50);
    let pnl_drift := f64_add pnl_drift x in
    gross ← range_f64 (f64_of_Z 50000) (f64_of_Z 200000);
    ts ← now_ns;
    _ ← publish "pos.risk_state"
          (synth_tag (json (RiskState gross pnl_drift (f_abs (f_min pnl_drift f_zero)) ts)));
    mret pnl_drift
  else mret pnl_drift.
End chain.

(** ** What other services read of its documents *)

(** The fields the position service reads of a fill (handle_fill of hedge-position). *)
Definition fill_fields (d : Doc) : option (string * Z * Z) :=
  match body d with Fill _ _ symbol _ filled_qty avg _ => Some (symbol, filled_qty, avg) | _ => None end.
(** The fields the execution service reads of an approval (handle_approval of hedge-exec). *)
Definition approval_fields (e : Effect) : option LiveRoute.ApprovalEvent :=
  match e with
  | Published subject (mk_Doc (Decision correlation_id _ _ _ sized_quantity _) _) =>
      if decide (subject = "risk.decision.approved")
      then Some (LiveRoute.mk_ApprovalEvent (Some correlation_id) (Some sized_quantity) None None None)
      else None
  | _ => None
  end.
