(* ===== verification/SynthFacts.v ===== *)
(** What the demonstration synthesizer guarantees: it yields to real publishers, everything it publishes
    is marked and watched, the fills of a synthetic trade, and what the execution and position services
    make of them. *)

From Stdlib Require Import Ascii.
From S2P Require Import Prelude Ieee Bytes Core Schemas BrokerApi LiveRoute Position PositionService UiJoin UiGateway UiFacts Vendors VendorFeed.
From S2P Require Import VendorFeedFacts Synth SynthGen SynthChain.

(** ** Actions and their effects *)

(** The action adds effects that satisfy [P], and returns a value that satisfies [Q]. *)
Definition leaves (P : Effect -> Prop) {A} (Q : A -> Prop) (m : G A) : Prop :=
  forall t, exists l, t_effects (m t).2 = t_effects t ++ l /\ Forall P l /\ Q (m t).1.

Section leaves.
Context (P : Effect -> Prop).

Lemma leaves_ret {A} (Q : A -> Prop) a : Q a -> leaves P Q (mret a).
Proof. intros Ha t. exists []. by rewrite app_nil_r. Qed.
Lemma leaves_bind {A B} (Q : A -> Prop) (R : B -> Prop) (m : G A) (k : A -> G B) :
  leaves P Q m -> (forall a, Q a -> leaves P R (k a)) -> leaves P R (m ≫= k).
Proof.
  intros Hm Hk t. destruct (Hm t) as (l1 & H1 & Hl1 & Ha).
  change ((m ≫= k) t) with (let '(a, t) := m t in k a t).
  destruct (m t) as [a t1]. cbn [fst snd] in *. destruct (Hk a Ha t1) as (l2 & H2 & Hl2 & Hb).
  exists (l1 ++ l2). rewrite H2, H1, app_assoc. split_and!; [done | by apply Forall_app | done].
Qed.
Lemma leaves_weaken {A} (Q Q' : A -> Prop) (m : G A) : leaves P Q m -> (forall a, Q a -> Q' a) -> leaves P Q' m.
Proof. intros H HQ t. destruct (H t) as (l & ? & ? & ?). exists l. auto. Qed.
Lemma leaves_look {A} (f : nat -> A) : leaves P (fun _ => True) (look f).
Proof. intros t. exists []. cbn. by rewrite app_nil_r. Qed.
Lemma leaves_draw {A} (Q : A -> Prop) (f : Mulberry32.t -> A * Mulberry32.t) :
  (forall s, Q (f s).1) -> leaves P Q (draw f).
Proof. intros H t. exists []. unfold draw. specialize (H (t_rng t)). destruct (f (t_rng t)). cbn in *. by rewrite app_nil_r. Qed.
Lemma leaves_emit e : P e -> leaves P (fun _ => True) (emit e).
Proof. intros H t. exists [e]. cbn. split_and!; [done | by constructor | done]. Qed.
Lemma leaves_each {A B} (Q : A -> Prop) (R : B -> Prop) (f : A -> G B) (l : list A) :
  Forall Q l -> (forall a, Q a -> leaves P R (f a)) -> leaves P (Forall R) (each f l).
Proof.
  intros Hl Hf. induction Hl as [| a l Ha Hl IH]; [by apply leaves_ret |].
  cbn [each]. eapply leaves_bind; [by apply Hf |]. intros b Hb.
  eapply leaves_bind; [exact IH |]. intros bs Hbs. apply leaves_ret. by constructor.
Qed.
End leaves.

Create HintDb synth.

(** Membership of a given text in the list of patterns. *)
Ltac in_patterns := apply (bool_decide_unpack _); vm_compute; exact I.

Section atoms.
Context (P : Effect -> Prop) `{E : Env}.

Lemma leaves_seq {A B} (R : B -> Prop) (m : G A) (k : A -> G B) :
  leaves P (fun _ => True) m -> (forall a, leaves P R (k a)) -> leaves P R (m ≫= k).
Proof. intros Hm Hk. eapply leaves_bind; [exact Hm | auto]. Qed.
Lemma leaves_any {A} (f : Mulberry32.t -> A * Mulberry32.t) : leaves P (fun _ => True) (draw f).
Proof. by apply leaves_draw. Qed.
Lemma leaves_range_any lo hi : leaves P (fun _ => True) (range_i64 lo hi).
Proof. apply leaves_any. Qed.
Lemma leaves_range_f64 lo hi : leaves P (fun _ => True) (range_f64 lo hi).
Proof. apply leaves_any. Qed.
Lemma leaves_next_f64 : leaves P (fun _ => True) next_f64.
Proof. apply leaves_any. Qed.
Lemma leaves_next_u32 : leaves P (fun _ => True) next_u32.
Proof. apply leaves_any. Qed.
Lemma leaves_now : leaves P (fun _ => True) now_ns.
Proof. apply leaves_look. Qed.
Lemma leaves_allow s : leaves P (fun _ => True) (allow s).
Proof. apply leaves_look. Qed.
Lemma leaves_board_get s : leaves P (fun _ => True) (board_get s).
Proof. apply leaves_look. Qed.
Lemma leaves_publish s d : P (Published s d) -> leaves P (fun _ => True) (publish s d).
Proof. intros H. apply leaves_seq; [by apply leaves_emit | intros _; apply leaves_look]. Qed.
(** A document that satisfies [D] is published when it is allowed. *)
Lemma leaves_publish_if_allowed (D : Doc -> Prop) s d : leaves P D d -> (forall d, D d -> P (Published s d)) ->
  leaves P (fun _ => True) (publish_if_allowed s d).
Proof.
  intros Hd HP. apply leaves_seq; [apply leaves_allow |]. intros []; [| by apply leaves_ret].
  eapply leaves_bind; [exact Hd |]. intros x Hx. apply leaves_seq; [by apply leaves_publish, HP |].
  intros _. by apply leaves_ret.
Qed.
End atoms.
#[export] Hint Resolve leaves_any leaves_range_any leaves_range_f64 leaves_next_f64 leaves_next_u32 leaves_now
  leaves_allow leaves_board_get : synth.

(** Walks through an action: sequences, branches and the atoms. *)
Ltac walk_action :=
  repeat lazymatch goal with
  | |- forall _, _ => intros ?; cbv beta zeta
  | |- leaves _ _ (mret _) => apply leaves_ret; done
  | |- leaves _ _ (_ ≫= _) => apply leaves_seq
  | |- leaves _ _ (if ?b then _ else _) => destruct b
  | |- leaves _ _ (match ?x with _ => _ end) => destruct x
  | |- leaves _ _ _ => solve [auto with synth]
  end.

(** ** Draws *)

Lemma range_i64_bounds lo hi s : i64_ok lo -> i64_ok hi -> lo < hi -> lo <= (Mulberry32.range_i64 lo hi s).1 < hi.
Proof.
  intros Hlo Hhi Hlt. unfold Mulberry32.range_i64. rewrite (proj2 (Z.leb_gt hi lo)) by lia.
  rewrite as_u64_id by (unfold_ok; lia). destruct (Mulberry32.next_u32 s) as [x s']. cbn [fst].
  pose proof (Z.mod_pos_bound x (hi - lo) ltac:(lia)). rewrite as_i64_id by (unfold_ok; lia). lia.
Qed.

Lemma leaves_range P lo hi : i64_ok lo -> i64_ok hi -> lo < hi ->
  leaves P (fun x => lo <= x < hi) (range_i64 lo hi).
Proof. intros. apply leaves_draw. intros s. by apply range_i64_bounds. Qed.

Lemma leaves_pick P {A} (d : A) (l : list A) : l <> [] -> Z.of_nat (length l) <= i64_max ->
  leaves P (fun x => x ∈ l) (pick d l).
Proof.
  intros Hl Hlen. unfold pick. eapply leaves_bind.
  - apply (leaves_range P 0); [by unfold_ok | unfold_ok; lia | destruct l; [done | cbn; lia]].
  - intros i Hi. cbv beta in Hi. apply leaves_ret, list_elem_of_In, nth_In. lia.
Qed.

(** ** Yielding to real publishers *)

Section yielding.
Context `{J : Json}.

(** A message the subscriber sees: when, on what subject, and its document, if it is one. *)
Abbreviation seen := (Z * string * option Value)%type.
Definition record_all (window : Z) (history : list seen) : SuppressionRegistry.t :=
  foldl (fun r m => SuppressionRegistry.record_message m.1.1 m.1.2 m.2 r)
    (SuppressionRegistry.with_window window) history.
(** The instants of the messages of real publishers on a subject. *)
Definition real_at (subject : string) (m : seen) : option Z :=
  if decide (m.1.2 = subject) then if SuppressionRegistry.is_synth_echo m.2 then None else Some m.1.1 else None.

Lemma record_all_snoc window history m :
  record_all window (history ++ [m]) = SuppressionRegistry.record_message m.1.1 m.1.2 m.2 (record_all window history).
Proof. unfold record_all. by rewrite foldl_app. Qed.

Lemma record_all_window window history : SuppressionRegistry.window (record_all window history) = window.
Proof.
  induction history as [| m history IH] using rev_ind; [done |].
  rewrite record_all_snoc. unfold SuppressionRegistry.record_message. by destruct (SuppressionRegistry.is_synth_echo _).
Qed.

(** The registry knows the last message of a real publisher. *)
Lemma record_all_state window history subject :
  SuppressionRegistry.map (record_all window history) !! subject =
  (fun s => SuppressionRegistry.mk_SubjectState (Some s) (Some (s + window))) <$> last (omap (real_at subject) history).
Proof.
  induction history as [| m history IH] using rev_ind; [done |].
  rewrite record_all_snoc, omap_app. cbn [omap list_omap]. unfold SuppressionRegistry.record_message, real_at at 2.
  destruct (SuppressionRegistry.is_synth_echo m.2).
  - destruct (decide _); by rewrite app_nil_r.
  - cbn [SuppressionRegistry.map]. rewrite record_all_window. destruct (decide _) as [-> | Hne].
    + by rewrite lookup_insert_eq, last_snoc.
    + by rewrite lookup_insert_ne, app_nil_r.
Qed.
End yielding.

Lemma Sorted_omap_last {A} (f : A -> option Z) (g : A -> Z) (l : list A) :
  StronglySorted (by_key g) l -> (forall a z, f a = Some z -> z = g a) ->
  match last (omap f l) with None => omap f l = [] | Some z => Forall (fun x => x <= z) (omap f l) /\ z ∈ omap f l end.
Proof.
  intros Hs Hf. induction l as [| a l IH] using rev_ind; [done |].
  apply StronglySorted_app in Hs as (Hcross & Hl & _). specialize (IH Hl). rewrite omap_app. cbn [omap list_omap].
  destruct (f a) as [z |] eqn:E; [| by rewrite app_nil_r].
  rewrite last_snoc. split; [| apply elem_of_app; right; by constructor].
  apply Forall_app. split; [| by repeat constructor]. apply Forall_forall. intros x Hx.
  apply list_elem_of_omap in Hx as (b & Hb & Hx). rewrite (Hf _ _ Hx), (Hf _ _ E).
  by apply (Hcross b a Hb), list_elem_of_singleton.
Qed.

(** C37: The synthesizer yields exactly while a real publisher is alive. After any messages on the watched
    subjects, at instants of a monotonic clock, the synthesizer may publish on a subject exactly when
    every message of a real publisher on that subject, that is every message that is not a document
    marked by the synthesizer, binary or malformed ones included, is at least a window old. *)
Theorem synthesizer_yields_to_real_publishers `{J : Json} (window now : Z) (subject : string)
  (history : list (Z * string * option Value)) :
  StronglySorted (by_key (fun m => m.1.1)) history ->
  SuppressionRegistry.allow_publish now subject (record_all window history) = true <->
  Forall (fun at_ => at_ + window <= now) (omap (real_at subject) history).
Proof.
  intros Hs. unfold SuppressionRegistry.allow_publish. rewrite record_all_state.
  assert (forall m z, real_at subject m = Some z -> z = m.1.1) as Hreal.
  { intros m z. unfold real_at. repeat case_match; try discriminate. by intros [= <-]. }
  pose proof (Sorted_omap_last _ _ history Hs Hreal) as H.
  destruct (last _) as [z |]; cbn; [destruct H as [Hle Hin] | by rewrite H].
  rewrite Z.leb_le. rewrite !Forall_forall in *. split.
  - intros Hz x Hx. specialize (Hle x Hx). lia.
  - intros Hall. by apply (Hall z).
Qed.

(** ** Marked and watched *)

(** The loops of the synthesizer, each with what it carries from round to round. *)
Inductive generator :=
| GTick | GBook | GOi (expiry : string) | GSector | GVolatility | GConnection | GEvents | GHeatmap | GFeatures
| GSignal | GNews | GStability (score : f64) | GIntervention | GReplay (sequence_no : Z) | GLatency (breaches : list Z)
| GChain (positions : Positions) (sig : SignalEvent) | GKillAndTarget | GPortfolio (pnl_drift : f64).
Definition round `{E : Env} (percent : f64 -> string) (g : generator) : G unit :=
  match g with
  | GTick => tick_round | GBook => book_round | GOi expiry => oi_round expiry | GSector => sector_round
  | GVolatility => volatility_round | GConnection => connection_round | GEvents => event_round
  | GHeatmap => heatmap_round | GFeatures => features_round | GSignal => signal_round | GNews => news_round
  | GStability score => _ ← stability_round score; mret tt
  | GIntervention => intervention_round
  | GReplay n => _ ← replay_round n; mret tt
  | GLatency breaches => _ ← latency_round breaches; mret tt
  | GChain positions sig => _ ← process_signal percent positions sig; mret tt
  | GKillAndTarget => kill_and_target_round
  | GPortfolio drift => _ ← portfolio_round drift; mret tt
  end.
(** A signal of the chain has an identifier and a symbol. *)
Definition proper (g : generator) : Prop :=
  match g with GChain _ sig => se_correlation_id sig <> EmptyString /\ se_symbol sig <> EmptyString | _ => True end.

Section watched.
(** Subject patterns as the bus matches them: a subject matches itself, and what follows a prefix is
    matched by a final [>]. *)
Context (matches : string -> string -> bool)
  (matches_self : forall s, matches s s = true)
  (matches_tail : forall prefix rest, rest <> EmptyString -> matches (prefix +:+ ">") (prefix +:+ rest) = true).

Definition watched (subject : string) : Prop :=
  exists p, p ∈ Coordinator.SUPPRESSION_PATTERNS /\ matches p subject = true.
Definition marked (e : Effect) : Prop :=
  match e with Published subject d => synth d = true /\ watched subject | _ => True end.

Lemma watched_self s : s ∈ Coordinator.SUPPRESSION_PATTERNS -> watched s.
Proof. intros H. by exists s. Qed.
Lemma watched_tail prefix rest : (prefix +:+ ">") ∈ Coordinator.SUPPRESSION_PATTERNS -> rest <> EmptyString ->
  watched (prefix +:+ rest).
Proof. intros H Hr. exists (prefix +:+ ">"). auto. Qed.

Context `{E : Env} (percent : f64 -> string).
Abbreviation quiet := (leaves marked (fun _ => True)).
Abbreviation drafts := (leaves marked (fun d => synth d = true)).

Lemma quiet_sleep ms : quiet (sleep ms).
Proof. by apply leaves_emit. Qed.
Lemma quiet_board_set s q : quiet (board_set s q).
Proof. by apply leaves_emit. Qed.
Lemma quiet_sent e : quiet (emit (Sent e)).
Proof. by apply leaves_emit. Qed.
Hint Resolve quiet_sleep quiet_board_set quiet_sent : synth.

Lemma quiet_publish s d : watched s -> synth d = true -> quiet (publish s d).
Proof. intros. by apply leaves_publish. Qed.
Lemma quiet_if_allowed s (d : G Doc) : watched s -> drafts d -> quiet (publish_if_allowed s d).
Proof. intros Hs Hd. eapply leaves_publish_if_allowed; [exact Hd | done]. Qed.

Lemma quiet_each {A B} (f : A -> G B) l : (forall a, quiet (f a)) -> quiet (each f l).
Proof.
  intros Hf. eapply leaves_weaken; [| done]. apply (leaves_each _ (fun _ => True) (fun _ => True)); [| auto].
  by apply Forall_forall.
Qed.
Lemma basket_named sym : sym ∈ Symbols.DEMO_BASKET -> Symbols.trading_symbol sym <> EmptyString.
Proof. intros H. by repeat (apply elem_of_cons in H as [-> | H]; [done |]); apply elem_of_nil in H. Qed.
Lemma quiet_for_symbol prefix f sym : (prefix +:+ ">") ∈ Coordinator.SUPPRESSION_PATTERNS ->
  sym ∈ Symbols.DEMO_BASKET -> drafts (f sym) -> quiet (for_symbol prefix f sym).
Proof. intros. apply quiet_if_allowed; [| done]. apply watched_tail; [done | by apply basket_named]. Qed.
Lemma quiet_basket prefix f : (prefix +:+ ">") ∈ Coordinator.SUPPRESSION_PATTERNS ->
  (forall sym, drafts (f sym)) -> quiet (_ ← each (for_symbol prefix f) Symbols.DEMO_BASKET; mret tt).
Proof.
  intros Hp Hf. apply leaves_seq; [| by walk_action]. eapply leaves_weaken; [| done].
  apply (leaves_each _ (fun sym => sym ∈ Symbols.DEMO_BASKET) (fun _ => True)); [by apply Forall_forall |].
  intros sym Hsym. by apply quiet_for_symbol.
Qed.

Lemma quiet_market : quiet tick_round /\ quiet book_round /\ (forall expiry, quiet (oi_round expiry))
  /\ quiet heatmap_round /\ quiet features_round.
Proof.
  split_and!; intros; (apply quiet_basket; [in_patterns | intros sym]).
  - unfold step_quote. walk_action.
  - walk_action.
  - unfold last_price, build_strike_ladder. walk_action; apply quiet_each; walk_action.
  - unfold last_price, build_cells. walk_action; apply quiet_each; walk_action.
  - unfold last_price. walk_action.
Qed.
Lemma quiet_breadth : quiet sector_round /\ quiet volatility_round /\ quiet connection_round.
Proof.
  split_and!.
  - unfold sector_round. walk_action. apply quiet_each. intros sec.
    eapply leaves_bind with (Q := fun d => synth d = true); [unfold sector_doc; walk_action |].
    intros d Hd. apply quiet_publish; [apply watched_self; in_patterns | done].
  - apply quiet_if_allowed; [apply watched_self; in_patterns | walk_action].
  - apply quiet_if_allowed; [by apply (watched_tail "md.connection." "synth"); [in_patterns |] | walk_action].
Qed.

Lemma pick_named {R} (k : Symbols.DemoSymbol -> G R) :
  (forall sym, sym ∈ Symbols.DEMO_BASKET -> quiet (k sym)) -> quiet (pick_symbol ≫= k).
Proof. intros Hk. eapply leaves_bind; [apply leaves_pick; [done | by vm_compute] | exact Hk]. Qed.
Lemma quiet_pick {A} (d : A) l : quiet (pick d l).
Proof. unfold pick. walk_action. Qed.
Hint Resolve quiet_pick : synth.

Lemma quiet_flow : quiet event_round /\ quiet news_round.
Proof.
  split.
  - unfold event_round. apply leaves_seq; [| by walk_action]. eapply leaves_weaken; [| done].
    apply (leaves_each _ (fun sym => sym ∈ Symbols.DEMO_BASKET) (fun _ => True)); [by apply Forall_forall |].
    intros sym Hsym. unfold event_for. walk_action.
    apply quiet_for_symbol; [in_patterns | done | walk_action].
  - unfold news_round. do 2 (apply leaves_seq; [by walk_action | intros ?]). apply pick_named. intros sym Hsym.
    apply quiet_for_symbol; [in_patterns | done | walk_action].
Qed.

Lemma quiet_scores score n :
  quiet signal_round /\ quiet (stability_round score) /\ quiet intervention_round /\ quiet (replay_round n).
Proof.
  split_and!.
  - unfold signal_round, signal_event, pick_symbol, last_price. walk_action.
    all: apply quiet_publish; [apply watched_self; in_patterns | done].
  - unfold stability_round, jittered. walk_action.
    apply quiet_publish; [apply watched_self; in_patterns | done].
  - unfold intervention_round. walk_action. apply quiet_if_allowed; [apply watched_self; in_patterns | walk_action].
  - unfold replay_round. walk_action. apply quiet_publish; [apply watched_self; in_patterns | done].
Qed.

Lemma quiet_latency breaches : quiet (latency_round breaches).
Proof.
  eapply leaves_weaken; [| done].
  apply (leaves_each _ (fun e => e.1.1 <> EmptyString) (fun _ => True)).
  - apply Forall_forall. intros [[stage budget] n] He. apply elem_of_zip_l in He.
    assert (Forall (fun s => s.1 <> EmptyString) STAGES) as Hall by (by repeat constructor).
    by apply (proj1 (Forall_forall _ _) Hall _ He).
  - intros [[stage budget] n] Hs. unfold latency_stage.
    assert (watched ("obs.latency." +:+ stage)) as Hl by (apply watched_tail; [in_patterns | done]).
    apply leaves_seq; [by walk_action | intros []]; [| by walk_action].
    do 4 (apply leaves_seq; [by walk_action | intros ?]).
    apply leaves_seq; [by apply quiet_publish | intros _].
    eapply leaves_bind with (Q := fun d => synth d = true).
    { unfold aggregate_doc. walk_action. apply quiet_each. walk_action. }
    intros d Hd. apply leaves_seq; [by apply quiet_publish | intros _]. walk_action.
    apply quiet_if_allowed; [apply watched_tail; [in_patterns | done] | walk_action].
Qed.

Lemma quiet_fills sig broker_id qty n rest : se_symbol sig <> EmptyString -> forall filled weighted,
  quiet (fills_loop sig broker_id qty n rest filled weighted).
Proof.
  intros Hs. induction rest as [| i rest IH]; intros filled weighted; cbn [fills_loop]; [by walk_action |].
  do 2 (apply leaves_seq; [by walk_action | intros ?]). cbv zeta.
  destruct (_ <=? _); [by walk_action |]. apply leaves_seq; [by walk_action | intros x].
  apply leaves_seq; [| intros _; apply IH].
  apply quiet_if_allowed; [apply watched_tail; [in_patterns | done] | unfold fill_doc; walk_action].
Qed.

Lemma quiet_chain positions sig : proper (GChain positions sig) -> quiet (process_signal percent positions sig).
Proof.
  intros [Hc Hs]. unfold process_signal.
  assert (forall s, s ∈ Coordinator.SUPPRESSION_PATTERNS -> watched s) as Hself by apply watched_self.
  assert (forall prefix, (prefix +:+ ">") ∈ Coordinator.SUPPRESSION_PATTERNS -> watched (prefix +:+ se_symbol sig))
    as Hsym by (intros; by apply watched_tail).
  apply leaves_seq; [| intros confidence].
  { unfold rank_step. walk_action.
    apply quiet_if_allowed; [apply watched_tail; [in_patterns | done] | unfold rank_doc; walk_action]. }
  apply leaves_seq; [unfold verdict; by walk_action | intros [approved qty]].
  apply leaves_seq.
  { apply quiet_if_allowed; [apply Hself; destruct approved; in_patterns |].
    unfold decision_doc. walk_action. }
  intros _. apply leaves_seq.
  { unfold cooldown_step. walk_action. apply quiet_if_allowed; [apply Hsym; in_patterns | walk_action]. }
  intros _. destruct approved; [| by walk_action].
  apply leaves_seq; [| intros broker_id].
  { unfold submit_step. walk_action.
    apply quiet_if_allowed; [by apply (watched_tail "exec.order." "submitted"); [in_patterns |] | walk_action]. }
  apply leaves_seq; [unfold fills_step; apply leaves_seq; [by walk_action | intros n; by apply quiet_fills] |].
  intros [filled weighted]. unfold book_step. apply leaves_seq; [| intros avg].
  { walk_action. apply quiet_if_allowed; [apply Hself; in_patterns | walk_action]. }
  apply leaves_seq; [| by walk_action].
  apply quiet_if_allowed; [apply Hsym; in_patterns | walk_action].
Qed.

Lemma quiet_background drift : quiet kill_and_target_round /\ quiet (portfolio_round drift).
Proof.
  split.
  - unfold kill_and_target_round. walk_action.
    all: apply quiet_if_allowed; [apply watched_self; in_patterns | walk_action].
  - unfold portfolio_round. walk_action. apply quiet_publish; [apply watched_self; in_patterns | done].
Qed.

Lemma round_quiet g : proper g -> quiet (round percent g).
Proof.
  pose proof quiet_market as (?&?&?&?&?). pose proof quiet_breadth as (?&?&?). pose proof quiet_flow as [??].
  intros Hg. destruct g as [| | expiry | | | | | | | | | score | | n | breaches | positions sig | | drift];
    cbn [round]; try done; try (by apply (quiet_scores f_zero 0)).
  all: try (apply leaves_seq; [| by walk_action]).
  - apply (quiet_scores score 0).
  - apply (quiet_scores f_zero n).
  - apply quiet_latency.
  - by apply quiet_chain.
  - apply (quiet_background f_zero).
  - apply (quiet_background drift).
Qed.
End watched.

(** Everything the synthesizer publishes is marked and watched. Whatever the registry, the board, the
    clocks and the bus answer in between, a round of any of its loops publishes only documents that carry
    its mark, so that the subscriber never takes them for a real publisher's, and only on subjects that
    one of the watched patterns matches, so that a real publisher on them is noticed. *)
Theorem synthesizer_is_marked_and_watched `{E : Env} (percent : f64 -> string) (matches : string -> string -> bool)
  (matches_self : forall s, matches s s = true)
  (matches_tail : forall prefix rest, rest <> EmptyString -> matches (prefix +:+ ">") (prefix +:+ rest) = true)
  (g : generator) (t : Task) (subject : string) (d : Doc) :
  proper g -> t_effects t = [] -> Published subject d ∈ t_effects (round percent g t).2 ->
  synth d = true /\ exists p, p ∈ Coordinator.SUPPRESSION_PATTERNS /\ matches p subject = true.
Proof.
  intros Hg Ht Hin. destruct (round_quiet matches matches_self matches_tail percent g Hg t) as (l & Hl & HP & _).
  rewrite Hl, Ht in Hin. by apply (proj1 (Forall_forall _ _) HP _ Hin).
Qed.

(** ** The fills of a synthetic trade *)

(** The fills among effects: symbol, cumulative quantity, average price. *)
Definition fills_of (l : list Effect) : list (string * Z * Z) :=
  omap (fun e => match e with Published _ d => fill_fields d | _ => None end) l.
(** Fills of a symbol that report progress from [filled] to at most [qty], near [price]. *)
Definition reports (symbol : string) (price filled qty : Z) (fills : list (string * Z * Z)) : Prop :=
  StronglySorted Z.lt (filled :: ((fun f => f.1.2) <$> fills))
  /\ Forall (fun f => f.1.1 = symbol /\ f.1.2 <= qty /\ Z.abs (f.2 - price) <= 15) fills.

Lemma reports_nil symbol price filled qty : reports symbol price filled qty [].
Proof. split; repeat constructor. Qed.
Lemma reports_skip symbol price filled filled' qty fills : filled <= filled' ->
  reports symbol price filled' qty fills -> reports symbol price filled qty fills.
Proof.
  intros Hle [Hs Hf]. split; [| done]. apply StronglySorted_cons in Hs as [Hs Hl].
  apply StronglySorted_cons. split; [| done]. eapply Forall_impl; [exact Hs |]. intros x Hx. cbn in Hx. lia.
Qed.
Lemma reports_cons symbol price filled filled' qty avg fills : filled < filled' -> filled' <= qty ->
  Z.abs (avg - price) <= 15 -> reports symbol price filled' qty fills ->
  reports symbol price filled qty ((symbol, filled', avg) :: fills).
Proof.
  intros Hlt Hq Ha [Hs Hf]. split; [| by constructor].
  apply StronglySorted_cons. split; [| done]. cbn. constructor; [done |].
  apply StronglySorted_cons in Hs as [Hs _]. eapply Forall_impl; [exact Hs |]. intros x Hx. cbn in *. lia.
Qed.

Lemma avg_near w n p : 0 < n -> Z.abs (w - n * p) <= 15 * n -> Z.abs (Z.quot w n - p) <= 15.
Proof.
  intros Hn Hw. destruct (Z.le_gt_cases 0 w) as [H0 | H0].
  - rewrite Z.quot_div_nonneg by lia. pose proof (Z.div_mod w n ltac:(lia)). pose proof (Z.mod_pos_bound w n Hn). nia.
  - replace w with (- (- w)) by lia. rewrite Z.quot_opp_l, Z.quot_div_nonneg by lia.
    pose proof (Z.div_mod (- w) n ltac:(lia)). pose proof (Z.mod_pos_bound (- w) n Hn). nia.
Qed.

Lemma fill_bounds ltp x chunk weighted filled : Z.abs ltp <= 2 ^ 40 -> -15 <= x < 15 -> 0 < chunk <= 100 ->
  0 <= filled <= 100 -> Z.abs (weighted - filled * ltp) <= 15 * filled ->
  i64_ok (ltp + x) /\ i64_ok ((ltp + x) * chunk) /\ i64_ok (weighted + (ltp + x) * chunk)
  /\ Z.abs (weighted + (ltp + x) * chunk - (filled + chunk) * ltp) <= 15 * (filled + chunk).
Proof.
  intros Hl Hx Hc Hf Hw. assert (Z.abs (filled * ltp) <= 100 * 2 ^ 40) by nia.
  assert (Z.abs ((ltp + x) * chunk) <= (2 ^ 40 + 15) * 100) by nia.
  unfold_ok. split_and!; try lia. nia.
Qed.

Section fills.
Context `{E : Env} (sig : SignalEvent).
Context (price_ok : Z.abs (se_ltp_paise sig) <= 2 ^ 40).

(** A conditional publication adds nothing or one effect of the document. *)
Lemma publish_if_allowed_fill s id qty filled weighted t :
  exists l, t_effects (publish_if_allowed s (fill_doc sig id qty filled weighted) t).2 = t_effects t ++ l
    /\ (fills_of l = [] \/ fills_of l = [(se_symbol sig, filled, Z.quot weighted (Z.max filled 1))]).
Proof.
  unfold publish_if_allowed, allow, look, mbind, g_bind. cbn [t_looks].
  destruct (SuppressionRegistry.allow_publish (instant (t_looks t)) s (registry (t_looks t))); cbn.
  - eexists [_]. split; [done |]. by right.
  - exists []. rewrite app_nil_r. auto.
Qed.

Lemma fills_loop_cons id qty n i rest filled weighted t :
  fills_loop sig id qty n (i :: rest) filled weighted t =
  let '(ms, s1) := Mulberry32.range_i64 400 1500 (t_rng t) in
  let chunk := if i =? n - 1 then wrap_i64 (qty - filled) else Z.max (Z.quot qty n) 1 in
  let effects := t_effects t ++ [Slept ms] in
  if chunk <=? 0 then ((filled, weighted), mk_Task s1 (t_looks t) effects)
  else
    let '(x, s2) := Mulberry32.range_i64 (-15) 15 s1 in
    let weighted := wrap_i64 (weighted + wrap_i64 (wrap_i64 (se_ltp_paise sig + x) * chunk)) in
    let filled := wrap_i64 (filled + chunk) in
    fills_loop sig id qty n rest filled weighted
      (publish_if_allowed ("exec.fill." +:+ se_symbol sig) (fill_doc sig id qty filled weighted)
         (mk_Task s2 (t_looks t) effects)).2.
Proof.
  cbn [fills_loop]. cbv beta delta [mbind g_bind range_i64 sleep emit draw].
  destruct (Mulberry32.range_i64 400 1500 (t_rng t)) as [ms s1]. cbn beta iota zeta delta [t_rng t_looks t_effects].
  destruct (_ <=? 0); [done |]. cbn beta iota zeta delta [t_rng t_looks t_effects].
  destruct (Mulberry32.range_i64 (-15) 15 s1) as [x s2]. cbn beta iota zeta delta [t_rng t_looks t_effects].
  by destruct (publish_if_allowed _ _ _).
Qed.

(** The loop from its round [k] on. *)
Lemma fills_loop_spec id qty n : 1 <= n < 4 -> 10 <= qty < 100 -> forall rest k filled weighted t,
  0 <= k <= n -> rest = seqZ k (n - k) -> filled = (if k =? n then qty else k * Z.quot qty n) ->
  Z.abs (weighted - filled * se_ltp_paise sig) <= 15 * filled ->
  let r := fills_loop sig id qty n rest filled weighted t in
  exists l, t_effects r.2 = t_effects t ++ l /\ r.1.1 = qty
    /\ reports (se_symbol sig) (se_ltp_paise sig) filled qty (fills_of l).
Proof.
  intros Hn Hq rest. set (c := Z.quot qty n).
  assert (0 < c /\ n * c <= qty < n * c + n) as [Hc Hcq].
  { unfold c. rewrite Z.quot_div_nonneg by lia. pose proof (Z.div_mod qty n ltac:(lia)).
    pose proof (Z.mod_pos_bound qty n ltac:(lia)). nia. }
  induction rest as [| i rest IH]; intros k filled weighted t Hk Hrest Hf Hw.
  - assert (k = n) as ->.
    { destruct (decide (k = n)); [done |]. rewrite seqZ_cons in Hrest by lia. done. }
    rewrite Z.eqb_refl in Hf. exists []. cbn. rewrite app_nil_r. split_and!; [done | done | apply reports_nil].
  - destruct (decide (k = n)) as [-> | Hne]; [by rewrite Z.sub_diag in Hrest |].
    rewrite seqZ_cons in Hrest by lia. injection Hrest as -> Hrest.
    replace (Z.pred (n - k)) with (n - Z.succ k) in Hrest by lia.
    rewrite (proj2 (Z.eqb_neq k n) Hne) in Hf.
    set (chunk := if k =? n - 1 then wrap_i64 (qty - filled) else Z.max (Z.quot qty n) 1).
    assert (chunk = (if k =? n - 1 then qty - filled else c)) as Hchunk.
    { unfold chunk. destruct (k =? n - 1); [rewrite as_i64_id by (unfold_ok; nia); done | fold c; lia]. }
    assert (0 < chunk /\ filled + chunk = (if Z.succ k =? n then qty else Z.succ k * c)) as [Hpos Hnext].
    { rewrite Hchunk. destruct (Z.eqb_spec k (n - 1)) as [-> |].
      - replace (Z.succ (n - 1)) with n by lia. rewrite Z.eqb_refl. nia.
      - rewrite (proj2 (Z.eqb_neq (Z.succ k) n)) by lia. nia. }
    rewrite fills_loop_cons. destruct (Mulberry32.range_i64 400 1500 (t_rng t)) as [ms s1]. fold chunk.
    cbv zeta. rewrite (proj2 (Z.leb_gt chunk 0)) by lia.
    pose proof (range_i64_bounds (-15) 15 s1 ltac:(by unfold_ok) ltac:(by unfold_ok) ltac:(lia)) as Hx.
    destruct (Mulberry32.range_i64 (-15) 15 s1) as [x s2]. cbn [fst] in Hx.
    assert (0 <= filled + chunk <= qty) as Hle.
    { rewrite Hnext. destruct (Z.succ k =? n); nia. }
    assert (chunk <= 100 /\ 0 <= filled) as [Hc100 Hf0].
    { rewrite Hf, Hchunk. destruct (k =? n - 1); nia. }
    destruct (fill_bounds (se_ltp_paise sig) x chunk weighted filled) as (Hb1 & Hb2 & Hb3 & Hw'); try lia; try done.
    assert (i64_ok (filled + chunk)) as Hb0 by (unfold_ok; lia).
    rewrite (as_i64_id _ Hb0), (as_i64_id _ Hb1), (as_i64_id _ Hb2), (as_i64_id _ Hb3).
    set (t1 := mk_Task s2 (t_looks t) (t_effects t ++ [Slept ms])).
    set (filled' := filled + chunk) in *. set (weighted' := weighted + (se_ltp_paise sig + x) * chunk) in *.
    destruct (publish_if_allowed_fill ("exec.fill." +:+ se_symbol sig) id qty filled' weighted' t1)
      as (l1 & He1 & Hl1).
    set (t2 := (publish_if_allowed _ _ t1).2) in *.
    destruct (IH (Z.succ k) filled' weighted' t2 ltac:(lia) Hrest Hnext Hw') as (l2 & He2 & Hr2 & Hrep).
    exists (Slept ms :: l1 ++ l2). rewrite He2, He1. split_and!; [| done |].
    + unfold t1. cbn [t_effects]. by rewrite <- !app_assoc.
    + change (fills_of (Slept ms :: l1 ++ l2)) with (fills_of (l1 ++ l2)). unfold fills_of at 1.
      rewrite omap_app. fold (fills_of l1) (fills_of l2).
      destruct Hl1 as [-> | ->]; [by apply reports_skip with filled'; [unfold filled'; lia |] |].
      apply reports_cons; [unfold filled'; lia | lia | | done].
      replace (Z.max filled' 1) with filled' by (unfold filled'; lia). apply avg_near; [unfold filled'; lia | lia].
Qed.
End fills.

(** ** A synthetic trade *)

(** A document that is neither a fill nor a decision. *)
Definition dull (d : Doc) : Prop := match body d with Fill _ _ _ _ _ _ _ | Decision _ _ _ _ _ _ => False | _ => True end.
(** Every decision among effects is the given verdict, on its subject. *)
Definition verdict_is (corr : string) (approved : bool) (qty : Z) (e : Effect) : Prop :=
  match e with
  | Published s d =>
    match body d with
    | Decision c a _ _ q _ => s = risk_subject approved /\ c = corr /\ a = approved /\ q = qty
    | _ => True
    end
  | _ => True
  end.
Definition no_fill (e : Effect) : Prop := fills_of [e] = [].

Lemma fills_of_app l1 l2 : fills_of (l1 ++ l2) = fills_of l1 ++ fills_of l2.
Proof. apply omap_app. Qed.
Lemma no_fills l : Forall no_fill l -> fills_of l = [].
Proof. induction 1 as [| e l He _ IH]; [done |]. change (e :: l) with ([e] ++ l). by rewrite fills_of_app, He, IH. Qed.

Section trade.
Context `{E : Env} (percent : f64 -> string) (sig : SignalEvent).

(** The size of an approved trade. *)
Definition sized (v : bool * Z) : Prop := if v.1 then 10 <= v.2 < 100 else v.2 = 0.
Lemma verdict_sized (P : Effect -> Prop) confidence : leaves P sized (verdict confidence).
Proof.
  unfold verdict. apply leaves_seq; [by walk_action | intros []].
  - eapply leaves_bind; [by apply leaves_range; [unfold_ok .. | lia] |]. intros q Hq. by apply leaves_ret.
  - eapply leaves_bind; [by apply (leaves_ret _ (fun q => q = 0)) |]. intros q Hq. by apply leaves_ret.
Qed.

Section steps.
Context (approved : bool) (qty : Z).
Definition aside (e : Effect) : Prop := verdict_is (se_correlation_id sig) approved qty e /\ no_fill e.
Abbreviation calm := (leaves aside (fun _ => True)).

Lemma aside_dull s d : dull d -> aside (Published s d).
Proof. unfold dull, aside, verdict_is, no_fill, fills_of, fill_fields. cbn. by destruct (body d). Qed.
Lemma calm_sleep ms : calm (sleep ms).
Proof. by apply leaves_emit. Qed.
Lemma calm_if_allowed s d : leaves aside dull d -> calm (publish_if_allowed s d).
Proof. intros Hd. eapply leaves_publish_if_allowed; [exact Hd | by apply aside_dull]. Qed.
Hint Resolve calm_sleep : synth.

Lemma calm_rank : calm (rank_step percent sig).
Proof. unfold rank_step. walk_action. apply calm_if_allowed. unfold rank_doc. walk_action. Qed.
Lemma calm_cooldown : calm (cooldown_step sig).
Proof. unfold cooldown_step. walk_action. apply calm_if_allowed. walk_action. Qed.
Lemma calm_submit : calm (submit_step sig).
Proof. unfold submit_step. walk_action. apply calm_if_allowed. walk_action. Qed.
Lemma calm_decision : calm (publish_if_allowed (risk_subject approved) (decision_doc sig approved qty)).
Proof.
  apply (leaves_publish_if_allowed _ (fun d => exists code why ts,
    body d = Decision (se_correlation_id sig) approved code why qty ts)).
  - unfold decision_doc, pick. walk_action. all: apply leaves_ret; by do 3 eexists.
  - intros d (code & why & ts & Hd). unfold aside, verdict_is, no_fill, fills_of, fill_fields. cbn. by rewrite Hd.
Qed.

(** The position of a symbol after a trade, and the others. *)
Definition booked (positions : Positions) (filled : Z) (positions' : Positions) : Prop :=
  let old := unwrap_or 0 (qty_signed <$> positions !! se_symbol sig) in
  exists avg, positions' = <[se_symbol sig := mk_OpenPosition
    (wrap_i64 (old + (if bool_decide (se_side sig = "buy") then filled else wrap_i64 (- filled)))) avg]> positions.
Lemma calm_book positions filled weighted :
  leaves aside (booked positions filled) (book_step positions sig filled weighted).
Proof.
  unfold book_step. apply leaves_seq; [| intros avg].
  { walk_action. apply calm_if_allowed. walk_action. }
  apply leaves_seq; [apply calm_if_allowed; walk_action | intros _]. apply leaves_ret. exists avg.
  by destruct (positions !! se_symbol sig).
Qed.

Lemma verdicts_fills id n rest filled weighted :
  leaves (verdict_is (se_correlation_id sig) approved qty) (fun _ => True)
    (fills_loop sig id qty n rest filled weighted).
Proof.
  revert filled weighted. induction rest as [| i rest IH]; intros filled weighted; cbn [fills_loop]; [by walk_action |].
  apply leaves_seq; [apply leaves_range_any | intros ms]. apply leaves_seq; [by apply leaves_emit | intros _]. cbv zeta.
  destruct (_ <=? _); [by walk_action |]. apply leaves_seq; [by walk_action | intros x].
  apply leaves_seq; [| intros _; apply IH].
  eapply (leaves_publish_if_allowed _ (fun d => exists f ts s w, body d = Fill (se_correlation_id sig) id (se_symbol sig) s f w ts)).
  - unfold fill_doc. walk_action. apply leaves_ret. by do 4 eexists.
  - intros d (f & ts & s & w & Hd). cbn. by rewrite Hd.
Qed.
End steps.

(** The effects of a trade. *)
Record trade (positions : Positions) (approved : bool) (qty : Z) (l : list Effect) (positions' : Positions) : Prop := {
  trade_size : sized (approved, qty);
  trade_verdict : Forall (verdict_is (se_correlation_id sig) approved qty) l;
  trade_fills : if approved then reports (se_symbol sig) (se_ltp_paise sig) 0 qty (fills_of l) else fills_of l = [];
  trade_position : if approved then booked positions qty positions' else positions' = positions;
}.

Lemma aside_verdict approved qty l : Forall (aside approved qty) l ->
  Forall (verdict_is (se_correlation_id sig) approved qty) l /\ fills_of l = [].
Proof.
  intros H. split; [eapply Forall_impl; [exact H | by intros e []] |].
  apply no_fills. eapply Forall_impl; [exact H | by intros e []].
Qed.

Lemma fills_step_spec id qty t : Z.abs (se_ltp_paise sig) <= 2 ^ 40 -> 10 <= qty < 100 ->
  exists l, t_effects (fills_step sig id qty t).2 = t_effects t ++ l /\ (fills_step sig id qty t).1.1 = qty
    /\ reports (se_symbol sig) (se_ltp_paise sig) 0 qty (fills_of l)
    /\ Forall (verdict_is (se_correlation_id sig) true qty) l.
Proof.
  intros Hp Hq. unfold fills_step, range_i64, draw. cbv beta delta [mbind g_bind].
  pose proof (range_i64_bounds 1 4 (t_rng t) ltac:(by unfold_ok) ltac:(by unfold_ok) ltac:(lia)) as Hn.
  destruct (Mulberry32.range_i64 1 4 (t_rng t)) as [n s]. cbn [fst] in Hn.
  set (t1 := mk_Task s (t_looks t) (t_effects t)).
  destruct (fills_loop_spec sig Hp id qty n Hn Hq (seqZ 0 n) 0 0 0 t1) as (l & He & Hr & Hrep);
    [lia | by rewrite Z.sub_0_r | by destruct (Z.eqb_spec 0 n); [lia |] | lia |].
  destruct (verdicts_fills true qty id n (seqZ 0 n) 0 0 t1) as (l' & He' & Hl' & _).
  rewrite He in He'. apply app_inv_head in He' as <-. by exists l.
Qed.
End trade.

Lemma synthetic_trade_effects `{E : Env} (percent : f64 -> string) (positions : Positions) (sig : SignalEvent) (t : Task) :
  Z.abs (se_ltp_paise sig) <= 2 ^ 40 ->
  exists l approved qty, t_effects (process_signal percent positions sig t).2 = t_effects t ++ l
    /\ trade sig positions approved qty l (process_signal percent positions sig t).1.
Proof.
  intros Hp. unfold process_signal. cbv beta delta [mbind g_bind].
  pose proof (fun a q => calm_rank percent sig a q t) as H1.
  destruct (rank_step percent sig t) as [confidence t1].
  pose proof (verdict_sized (fun _ => False) confidence t1) as (l2 & E2 & Hl2 & Hsize).
  destruct (verdict confidence t1) as [[approved qty] t2]. cbn [fst snd] in *.
  destruct l2 as [| e l2]; [| by apply Forall_cons in Hl2 as [[] _]]. rewrite app_nil_r in E2.
  destruct (H1 approved qty) as (l1 & E1 & Hl1 & _).
  pose proof (calm_decision sig approved qty t2) as (l3 & E3 & Hl3 & _).
  destruct (publish_if_allowed _ _ t2) as [u t3]. cbn [fst snd] in *.
  pose proof (calm_cooldown sig approved qty t3) as (l4 & E4 & Hl4 & _).
  destruct (cooldown_step sig t3) as [v t4]. cbn [fst snd] in *.
  assert (t_effects t4 = t_effects t ++ (l1 ++ l3 ++ l4)) as Et by (by rewrite E4, E3, E2, E1, !app_assoc).
  assert (Forall (aside sig approved qty) (l1 ++ l3 ++ l4)) as Hl by (rewrite !Forall_app; done).
  set (l0 := l1 ++ l3 ++ l4) in *. destruct (aside_verdict _ _ _ _ Hl) as [Hv Hf].
  destruct approved.
  2: { exists l0, false, qty. split; [exact Et |]. by split. }
  pose proof (calm_submit sig true qty t4) as (l5 & E5 & Hl5 & _).
  destruct (submit_step sig t4) as [id t5]. cbn [fst snd] in *.
  pose proof (fills_step_spec sig id qty t5 Hp Hsize) as (l6 & E6 & Hq & Hrep & Hv6).
  destruct (fills_step sig id qty t5) as [[filled weighted] t6]. cbn [fst snd] in *. subst filled.
  pose proof (calm_book sig true qty positions qty weighted t6) as (l7 & E7 & Hl7 & Hb).
  destruct (book_step positions sig qty weighted t6) as [positions' t7]. cbn [fst snd] in *.
  destruct (aside_verdict _ _ _ _ Hl5) as [Hv5 Hf5]. destruct (aside_verdict _ _ _ _ Hl7) as [Hv7 Hf7].
  exists (l0 ++ l5 ++ l6 ++ l7), true, qty. split; [by rewrite E7, E6, E5, Et, !app_assoc |]. split; [done | | | done].
  - by rewrite !Forall_app.
  - by rewrite !fills_of_app, Hf, Hf5, Hf7, app_nil_r.
Qed.

(** ** Positions and quotes *)

(** The first trade in a symbol is announced as closed, with no profit. *)
Lemma opening_is_announced_as_closing avg_fill signed_qty : signed_qty <> 0 ->
  merged (mk_OpenPosition 0 avg_fill) signed_qty signed_qty avg_fill = None
  /\ pnl_paise (mk_OpenPosition 0 avg_fill) avg_fill = 0.
Proof.
  intros H. unfold merged, pnl_paise. cbn [qty_signed avg_price_paise]. rewrite Z.sub_diag. split; [| done].
  assert ((Z.sgn 0 =? Z.sgn signed_qty) = false) as ->; [| by rewrite andb_false_r].
  apply Z.eqb_neq. rewrite Z.sgn_0. pose proof (Z.sgn_null_iff signed_qty). lia.
Qed.
(** A position that is reduced is averaged as if it grew: 50 shares at 100 rupees, less 20 at the same price. *)
Lemma reduction_moves_the_average : merged (mk_OpenPosition 50 10000) (-20) 30 10000 = Some 23333.
Proof. reflexivity. Qed.

(** A quote of the random walk is in order as long as the walk stays positive. *)
Lemma quote_in_order prev ltp ts : 1 <= ltp <= 2 ^ 40 -> Z.abs prev <= 2 ^ 40 ->
  let q := quote_around prev ltp ts in
  1 <= LtpBoard.bid_paise q <= LtpBoard.ltp_paise q /\ LtpBoard.ltp_paise q < LtpBoard.ask_paise q.
Proof.
  intros Hl Hp q. unfold q, quote_around. cbn [LtpBoard.bid_paise LtpBoard.ltp_paise LtpBoard.ask_paise].
  assert (5 <= Z.max (Z.quot prev 2000) 5 <= 2 ^ 40) as Hs.
  { pose proof (Z.quot_le_mono prev (2 ^ 40) 2000 ltac:(lia) ltac:(lia)).
    assert (Z.quot (2 ^ 40) 2000 = 549755813) as E by reflexivity. lia. }
  generalize dependent (Z.max (Z.quot prev 2000) 5). intros spread Hs.
  assert (2 <= Z.quot spread 2 <= 2 ^ 40) as Hq.
  { rewrite Z.quot_div_nonneg by lia. split; [apply Z.div_le_lower_bound | apply Z.div_le_upper_bound]; lia. }
  rewrite !as_i64_id by (unfold_ok; lia). lia.
Qed.

(** The expiry is a Thursday of the coming week. *)
Lemma next_thursday_spec today : weekday (next_thursday today) = 3 /\ today < next_thursday today <= today + 7.
Proof.
  unfold next_thursday. set (w := weekday today).
  assert (0 <= w < 7) as Hw by (unfold w, weekday; by apply Z.mod_pos_bound).
  assert (weekday (today + days_to_thu w) = (w + days_to_thu w) mod 7) as ->.
  { unfold w, weekday. rewrite Zplus_mod_idemp_l. f_equal. lia. }
  assert (w = 0 \/ w = 1 \/ w = 2 \/ w = 3 \/ w = 4 \/ w = 5 \/ w = 6) as Hcase by lia.
  repeat destruct Hcase as [-> | Hcase]; [.. | rewrite Hcase]; split; cbn; lia || done.
Qed.

(** ** What the other services make of it *)

(** A fill as the position service reads it: its side is not among the fields. *)
Definition as_fill (e : Effect) : option PositionService.FillDoc :=
  match e with
  | Published _ d =>
    '(symbol, filled_qty, avg) ← fill_fields d;
    Some (PositionService.mk_FillDoc (Some symbol) (Some filled_qty) (Some avg) None)
  | _ => None
  end.
Definition of_triple (f : string * Z * Z) : PositionService.FillDoc :=
  PositionService.mk_FillDoc (Some f.1.1) (Some f.1.2) (Some f.2) None.

Lemma as_fills l : omap as_fill l = of_triple <$> fills_of l.
Proof.
  induction l as [| e l IH]; [done |]. change (e :: l) with ([e] ++ l).
  rewrite omap_app, fills_of_app, fmap_app, IH. f_equal.
  destruct e as [s d | | |]; try done. cbn. by destruct (fill_fields d) as [[[]] |].
Qed.

(** The sum of reported quantities: within the square of the order, and more than the order is filled
    as soon as there are two reports. *)
Lemma reports_total symbol price filled qty fills : 0 <= filled -> filled <= qty ->
  reports symbol price filled qty fills ->
  let total := list_sum ((fun f => f.1.2) <$> fills) in
  0 <= total <= (qty - filled) * qty
  /\ Forall (fun f => f.1.2 <= total) fills
  /\ ((2 <= length fills)%nat -> Forall (fun f => f.1.2 < total) fills).
Proof.
  cbv zeta. revert filled. induction fills as [| f fills IH]; intros filled Hf Hq [Hs Hall].
  { cbn. split_and!; [lia | nia | constructor | lia]. }
  apply StronglySorted_cons in Hs as [Hlt Hs]. apply Forall_cons in Hall as [(_ & Hle & _) Hall].
  cbn [fmap list_fmap] in Hlt. apply Forall_cons in Hlt as [Hlt _].
  destruct (IH f.1.2 ltac:(lia) Hle (conj Hs Hall)) as (Hsum & Heach & _).
  cbn [fmap list_fmap list_sum foldr length]. change (foldr Z.add 0 ((fun f => f.1.2) <$> fills))
    with (list_sum ((fun f => f.1.2) <$> fills)).
  generalize dependent (list_sum ((fun f => f.1.2) <$> fills)). intros rest _ Hsum Heach.
  split_and!; [lia | nia | |].
  - constructor; [lia |]. eapply Forall_impl; [exact Heach |]. intros g Hg. cbn in *. lia.
  - intros Hlen. destruct fills as [| g fills]; [cbn in Hlen; lia |].
    apply StronglySorted_cons in Hs as [Hfg _]. apply Forall_cons in Hfg as [Hfg _]. cbn in Hfg.
    pose proof Heach as Hg. apply Forall_cons in Hg as [Hg _].
    constructor; [lia |]. eapply Forall_impl; [exact Heach |]. intros h Hh. cbn in *. lia.
Qed.

(** A synthetic trade accounts for its order. Whatever the synthesizer finds outside, processing a signal
    reaches one verdict: every decision it publishes is that verdict on its subject, of ten to
    ninety-nine shares when approved. A refused signal has no fills and leaves the positions alone; an
    approved one publishes fills of strictly increasing cumulative quantity up to its size, each at an
    average within fifteen paise of the price of the signal, and moves the position of its symbol, and no
    other, by exactly its size in the direction of its side. *)
Theorem synthetic_trade_accounts_for_its_order `{E : Env} (percent : f64 -> string) (positions : Positions)
  (sig : SignalEvent) (t : Task) :
  Z.abs (se_ltp_paise sig) <= 2 ^ 40 ->
  exists l approved qty, t_effects (process_signal percent positions sig t).2 = t_effects t ++ l
    /\ trade sig positions approved qty l (process_signal percent positions sig t).1.
Proof. apply synthetic_trade_effects. Qed.

(** A synthetic trade is booked more than once. When the position service, started on any capital, reads
    the fills that a synthetic trade in a tradable symbol publishes, with any ticks in between, it holds
    the sum of their cumulative quantities, as a purchase whatever the side of the trade: with two fills
    or more, more than any of them reports as filled. *)
Theorem synthetic_fills_are_counted_again `{E : Env} (percent : f64 -> string) (positions : Positions)
  (sig : SignalEvent) (t : Task) (base_inr : Z)
  (ms : list (PositionService.message * PositionService.Readings)) :
  Z.abs (se_ltp_paise sig) <= 2 ^ 40 -> SymbolTable.symbol_id_for (se_symbol sig) <> 0 -> t_effects t = [] ->
  let fills := omap as_fill (t_effects (process_signal percent positions sig t).2) in
  PositionService.docs_of ms = fills ->
  let e := (PositionService.run (PositionService.base_capital base_inr) (PositionService.start base_inr) ms).2 in
  let held := Position.quantity (PositionEngine.get_or_flat e (SymbolTable.symbol_id_for (se_symbol sig))) in
  held = list_sum (PositionService.filled_of (se_symbol sig) <$> fills)
  /\ ((2 <= length fills)%nat -> Forall (fun doc => PositionService.filled_of (se_symbol sig) doc < held) fills).
Proof.
  intros Hp Hsym Ht fills Hms e held.
  destruct (synthetic_trade_effects percent positions sig t Hp) as (l & approved & qty & Hl & Htrade).
  rewrite Ht in Hl. cbn [app] in Hl.
  assert (reports (se_symbol sig) (se_ltp_paise sig) 0 qty (fills_of l) /\ 0 <= qty < 100) as [Hrep Hqty].
  { destruct Htrade as [Hsize _ Hf _]. destruct approved; cbn in Hsize.
    - split; [done | lia].
    - rewrite Hf, Hsize. split; [apply reports_nil | lia]. }
  destruct (reports_total _ _ 0 qty _ ltac:(lia) ltac:(lia) Hrep) as (Hsum & _ & Hmore).
  assert (fills = of_triple <$> fills_of l) as Hfills by (unfold fills; by rewrite Hl, as_fills).
  assert ((PositionService.filled_of (se_symbol sig) <$> fills) = ((fun f => f.1.2) <$> fills_of l)) as Hq.
  { rewrite Hfills, <- list_fmap_compose. apply list_fmap_ext. intros i f Hf. destruct Hrep as [_ Hall].
    pose proof (proj1 (Forall_lookup _ _) Hall i f Hf) as (Hs & _ & _). cbn.
    unfold PositionService.filled_of, of_triple. cbn. by rewrite Hs, bool_decide_true. }
  assert (held = list_sum (PositionService.filled_of (se_symbol sig) <$> fills)) as Hheld.
  { unfold held, e. rewrite <- Hms. apply PositionService.unsided_books; [done | | | done].
    - rewrite Hms, Hfills. apply Forall_fmap, Forall_forall. intros f Hf. split; [done |]. cbn.
      destruct Hrep as [Hs _]. apply StronglySorted_cons in Hs as [Hs _].
      pose proof (proj1 (Forall_forall _ _) Hs f.1.2 (list_elem_of_fmap_2 _ _ _ Hf)). cbn in *. lia.
    - rewrite Hms, Hq. unfold_ok. nia. }
  split; [done |]. intros Hlen. rewrite Hfills, length_fmap in Hlen. specialize (Hmore Hlen).
  assert (Forall (fun q => q < held) (PositionService.filled_of (se_symbol sig) <$> fills)) as H
    by (rewrite Hq, Hheld, Hq; apply Forall_fmap; exact Hmore).
  by apply Forall_fmap in H.
Qed.

(** Fills that the position service ignores. *)
Definition ignored (published : list (string * LiveRoute.Payload)) : Prop :=
  Forall (fun doc => forall base rd e, PositionService.handle_fill base rd (Some doc) e = ([], e))
    (omap PositionService.fill_doc published).

(** An approval without symbol and price: no broker is contacted, and what it fills is ignored. *)
Lemma unnamed_approval {W : Type} (now : nat -> Z) (brokers : LiveRoute.Brokers W) data live cap w :
  LiveRoute.ae_symbol data = None -> LiveRoute.ae_entry_price_paise data = None ->
  let w' := LiveRoute.handle_approval now brokers data live cap w in
  LiveRoute.lw_brokers w' = LiveRoute.lw_brokers w
  /\ (ignored (LiveRoute.lw_published w) -> ignored (LiveRoute.lw_published w')).
Proof.
  intros Hs Hp w'. unfold w', LiveRoute.handle_approval. rewrite Hs, Hp.
  destruct (decide _); [done |]. destruct (_ =? 0); [done |]. cbn [unwrap_or].
  set (cid := unwrap_or EmptyString (LiveRoute.ae_correlation_id data)).
  set (qty := unwrap_or 0 (LiveRoute.ae_sized_quantity data)). destruct live.
  - unfold LiveRoute.route_live. replace (LiveRoute.blocked_by_cap 0 qty cap) with false by done.
    replace (SymbolTable.symbol_id_for "UNKNOWN" =? 0) with true by done.
    unfold LiveRoute.rejected, LiveRoute.publish. cbn [LiveRoute.lw_brokers LiveRoute.lw_published]. split; [done |].
    intros Hi. unfold ignored. rewrite omap_app. apply Forall_app. split; [done | constructor].
  - unfold LiveRoute.route_paper, LiveRoute.publish. cbn [LiveRoute.lw_brokers LiveRoute.lw_published]. split; [done |].
    intros Hi. unfold ignored. rewrite !omap_app. apply Forall_app. split; [apply Forall_app; split; [done | constructor] |].
    constructor; [| constructor]. done.
Qed.

(** C21: No synthetic approval reaches a broker. Whatever a task of the synthesizer publishes, the approvals
    among it name no symbol, so that the execution service, in any sequence of live and paper modes,
    leaves the brokers as they are, and every fill it publishes for them is ignored by the position
    service. *)
Theorem synthetic_approvals_reach_no_broker {W : Type} (now : nat -> Z) (brokers : LiveRoute.Brokers W) (cap : Z)
  (b : W) (effects : list Effect) (approvals : list (LiveRoute.ApprovalEvent * bool)) :
  approvals.*1 = omap approval_fields effects ->
  let w := foldl (fun w a => LiveRoute.handle_approval now brokers a.1 a.2 cap w)
             (LiveRoute.mk_world b [] 0%nat) approvals in
  LiveRoute.lw_brokers w = b
  /\ Forall (fun doc => forall base rd e, PositionService.handle_fill base rd (Some doc) e = ([], e))
       (omap PositionService.fill_doc (LiveRoute.lw_published w)).
Proof.
  intros Happ.
  assert (Forall (fun a => LiveRoute.ae_symbol a.1 = None /\ LiveRoute.ae_entry_price_paise a.1 = None) approvals) as Hnone.
  { apply Forall_forall. intros a Ha. apply (list_elem_of_fmap_2 fst) in Ha. rewrite Happ in Ha.
    apply list_elem_of_omap in Ha as (e & _ & He). unfold approval_fields in He.
    repeat case_match; try discriminate. by injection He as <-. }
  clear Happ effects. cbv zeta. set (w0 := LiveRoute.mk_world b [] 0%nat).
  assert (LiveRoute.lw_brokers w0 = b) as Hb by done.
  assert (ignored (LiveRoute.lw_published w0)) as Hi by constructor. generalize dependent w0.
  induction Hnone as [| a approvals [Hs Hp] _ IH]; intros w Hb Hi; [done |]. cbn [foldl].
  destruct (unnamed_approval now brokers a.1 a.2 cap w Hs Hp) as [Hb' Hi'].
  apply IH; [by rewrite Hb' | by apply Hi'].
Qed.

(** ** Concrete runs *)

Module SynthSample.
(** Nothing else publishes; the board is empty. *)
#[global] Instance env : Env :=
  {| wall := Z.of_nat; registry := fun _ => SuppressionRegistry.new; instant := Z.of_nat;
     quotes := fun _ => LtpBoard.new; accepted := fun _ => true |}.
Definition percent (_ : f64) : string := "60%".
Definition sig : SignalEvent :=
  mk_SignalEvent "synth-1" "RELIANCE" "sell" "VwapPullback" 135500 (f64_lit 6 10) (f64_lit 7 10).
Definition effects (seed : Z) : list Effect := t_effects (process_signal percent ∅ sig (mk_Task seed 0 [])).2.
(** A real approval, then one of the synthesizer. *)
Definition history : list (Z * string * option (@Value UiSample.json)) :=
  [(1, "risk.decision.approved", Some (UiSample.JObj [("kind", UiSample.JStr "decision")]));
   (2, "risk.decision.approved", Some (UiSample.JObj [("_synth", UiSample.JBool true)]))].
(** Patterns as the bus documents them: a final [>] matches what is left. *)
Fixpoint nats_match (pattern subject : string) : bool :=
  match pattern, subject with
  | EmptyString, EmptyString => true
  | String a p, String b s =>
    (bool_decide (a = ">"%char) && bool_decide (p = EmptyString)) || (bool_decide (a = b) && nats_match p s)
  | _, _ => false
  end.
Lemma nats_match_self s : nats_match s s = true.
Proof. induction s as [| a s IH]; [done |]. cbn. rewrite IH, (bool_decide_true (a = a)) by done. apply orb_true_r. Qed.
Lemma nats_match_tail prefix rest : rest <> EmptyString -> nats_match (prefix +:+ ">") (prefix +:+ rest) = true.
Proof.
  intros Hr. induction prefix as [| a prefix IH]; [by destruct rest |].
  change (nats_match (String a (prefix +:+ ">")) (String a (prefix +:+ rest)) = true). cbn [nats_match].
  rewrite IH, (bool_decide_true (a = a)) by done. apply orb_true_r.
Qed.
Definition messages : list (PositionService.message * PositionService.Readings) :=
  (fun doc => (PositionService.FillMsg (Some doc), PositionService.mk_Readings 1 2)) <$> omap as_fill (effects 10).
Definition approvals : list (LiveRoute.ApprovalEvent * bool) := (., true) <$> omap approval_fields (effects 10).
End SynthSample.

Lemma synthesizer_yields_to_real_publishers_witness :
  SuppressionRegistry.allow_publish 6 "risk.decision.approved" (record_all (J := UiSample.json) 5 SynthSample.history)
  = true.
Proof.
  apply (synthesizer_yields_to_real_publishers (J := UiSample.json)).
  - repeat constructor; discriminate.
  - repeat constructor. discriminate.
Defined.

Lemma synthesizer_is_marked_and_watched_witness :
  exists p, p ∈ Coordinator.SUPPRESSION_PATTERNS /\ SynthSample.nats_match p "md.connection.synth" = true.
Proof.
  refine (proj2 (synthesizer_is_marked_and_watched SynthSample.percent SynthSample.nats_match
    SynthSample.nats_match_self SynthSample.nats_match_tail GConnection (task 0) "md.connection.synth"
    (synth_tag (json (Connection 1 2))) _ _ _)).
  - exact I.
  - reflexivity.
  - vm_compute. constructor.
Defined.

Lemma synthetic_trade_accounts_for_its_order_witness :
  exists l approved qty, SynthSample.effects 10 = l
    /\ trade SynthSample.sig ∅ approved qty l (process_signal SynthSample.percent ∅ SynthSample.sig (mk_Task 10 0 [])).1.
Proof. apply (synthetic_trade_accounts_for_its_order SynthSample.percent ∅ SynthSample.sig (mk_Task 10 0 [])). discriminate. Defined.

(** A sale of 89 shares in three fills becomes a purchase of 176. *)
Lemma synthetic_fills_are_counted_again_witness :
  Position.quantity (PositionEngine.get_or_flat
    (PositionService.run (PositionService.base_capital 20000) (PositionService.start 20000) SynthSample.messages).2
    (SymbolTable.symbol_id_for "RELIANCE")) = 176.
Proof.
  refine (eq_trans (proj1 (synthetic_fills_are_counted_again SynthSample.percent ∅ SynthSample.sig (mk_Task 10 0 [])
    20000 SynthSample.messages _ _ _ _)) _).
  - discriminate.
  - discriminate.
  - reflexivity.
  - vm_compute. reflexivity.
  - vm_compute. reflexivity.
Defined.

Lemma synthetic_approvals_reach_no_broker_witness :
  length SynthSample.approvals = 1%nat
  /\ LiveRoute.lw_brokers (foldl (fun w a => LiveRoute.handle_approval Z.of_nat LiveSample.brokers a.1 a.2 50000 w)
       LiveSample.start SynthSample.approvals) = 0.
Proof.
  split; [vm_compute; reflexivity |].
  refine (proj1 (synthetic_approvals_reach_no_broker Z.of_nat LiveSample.brokers 50000 0 (SynthSample.effects 10)
    SynthSample.approvals _)).
  vm_compute. reflexivity.
Defined.
