(* ===== verification/ReplayCli.v ===== *)
(** The command line of the replay service (main.rs of hedge-replay): its arguments, the inspection
    commands, and the playback of a recorded session onto the bus.

    The disk is a file system per directory; the rkyv codec and the serialisation of JSON are parameters.
    A playback is given the instants at which its stream is polled.  The lines [play] prints are left
    out. *)

From S2P Require Import Prelude Ieee Bytes Core Schemas BrokerApi Approval LiveRoute Wire Replay ReplaySegments ReplayPlayer.
From S2P Require Import Decision RiskService Pipeline Bus Position PositionService ConfigFile.
From Stdlib Require Import Ascii.

Module ReplayCli.

(** ** Arguments *)

Inductive Args :=
| List (dir : string)
| Info (dir : string) (session_id : Z)
| Dump (dir : string) (session_id : Z)
| Play (dir : string) (session_id : Z) (speed : ReplaySpeed.t)
| Help.

(** [str::parse::<u64>] with the text of its error. *)
Fixpoint digits_error (acc : Z) (s : string) : string :=
  match s with
  | EmptyString => EmptyString
  | String c rest =>
    match digit_of 10 c with
    | None => "invalid digit found in string"
    | Some d => if u64_max <? acc * 10 + d then "number too large to fit in target type"
                else digits_error (acc * 10 + d) rest
    end
  end.
Definition parse_error (s : string) : string :=
  match s with
  | EmptyString => "cannot parse integer from empty string"
  | String c rest =>
    if Ascii.eqb c plus_sign then
      match rest with EmptyString => "invalid digit found in string" | _ => digits_error 0 rest end
    else digits_error 0 s
  end.
Definition parse_u64 (s : string) : result Z string :=
  match from_str_radix 10 u64_max s with Some n => Ok n | None => Err (parse_error s) end.

(** The loop over the arguments: [Ok None] is a request for help. *)
Fixpoint scan (args : list string) (dir : option string) (positional : list string)
  : result (option (option string * list string)) string :=
  match args with
  | [] => Ok (Some (dir, positional))
  | a :: args =>
    if decide (a = "--dir") then
      match args with
      | [] => Err "--dir requires a value"
      | v :: args => scan args (Some v) positional
      end
    else if decide (a = "-h") then Ok None
    else if decide (a = "--help") then Ok None
    else scan args dir (positional ++ [a])
  end.

Definition session_argument (cmd : string) (rest : list string) : result (Z * list string) string :=
  match rest with
  | [] => Err (cmd +:+ " requires <session_id>")
  | s :: rest =>
    match parse_u64 s with
    | Ok n => Ok (n, rest)
    | Err e => Err ("invalid session_id: " +:+ e)
    end
  end.

Definition speed_of (word : option string) : ReplaySpeed.t :=
  match word with
  | Some w => if decide (w = "x10") then ReplaySpeed.X10
              else if decide (w = "max") then ReplaySpeed.Max else ReplaySpeed.X1
  | None => ReplaySpeed.X1
  end.

Definition command (dir : string) (cmd : string) (rest : list string) : result Args string :=
  if decide (cmd = "list") then Ok (List dir)
  else if decide (cmd = "info") then
    match session_argument cmd rest with Ok (n, _) => Ok (Info dir n) | Err e => Err e end
  else if decide (cmd = "dump") then
    match session_argument cmd rest with Ok (n, _) => Ok (Dump dir n) | Err e => Err e end
  else if decide (cmd = "play") then
    match session_argument cmd rest with
    | Ok (n, rest) => Ok (Play dir n (speed_of (head rest)))
    | Err e => Err e
    end
  else Err ("unknown command: " +:+ cmd).

(** [argv] is without the name of the program. *)
Definition parse_args (argv : list string) : result Args string :=
  match scan argv None [] with
  | Err e => Err e
  | Ok None => Ok Help
  | Ok (Some (dir, positional)) =>
    let dir := unwrap_or (ConfigFile.segment_dir (ConfigFile.replay ConfigFile.load_default)) dir in
    match positional with
    | [] => Err "missing command (try `hedge-replay --help`)"
    | cmd :: rest => command dir cmd rest
    end
  end.

(** ** Inspection *)

Definition fmt_kind (r : ReplayRecord) : string :=
  match kind r with
  | RecordKind.Tick => "Tick"
  | RecordKind.OrderBook => "OrderBook"
  | RecordKind.OpenInterest => "OpenInterest"
  | RecordKind.NewsEvent => "NewsEvent"
  | RecordKind.SignalEmitted => "SignalEmitted"
  | RecordKind.RiskDecision => "RiskDecision"
  | RecordKind.OrderSubmitted => "OrderSubmitted"
  | RecordKind.OrderModified => "OrderModified"
  | RecordKind.OrderCancelled => "OrderCancelled"
  | RecordKind.Fill => "Fill"
  | RecordKind.TraderAction => "TraderAction"
  | RecordKind.AIDecision _ => "AIDecision"
  | RecordKind.MarketConditionSnapshot => "MarketConditionSnapshot"
  end.

(** [{:>n}]. *)
Fixpoint spaces (n : nat) : string :=
  match n with O => EmptyString | S n => String " "%char (spaces n) end.
Definition pad_left (n : nat) (s : string) : string := spaces (n - String.length s) +:+ s.

Definition dump_line (r : ReplayRecord) : string :=
  pad_left 8 (pretty (sequence_no r)) +:+ " " +:+ pad_left 20 (pretty (monotonic_ns r)) +:+ " "
  +:+ fmt_kind r +:+ " (payload: " +:+ pretty (length (payload r)) +:+ " bytes)".

Definition info_lines (session_id : Z) (segments : nat) (all : list ReplayRecord) : list string :=
  ["session_id    : " +:+ pretty session_id;
   "segments      : " +:+ pretty segments;
   "records       : " +:+ pretty (length all)]
  ++ match head all with
     | Some first => ["first_seq     : " +:+ pretty (sequence_no first);
                      "first_mono_ns : " +:+ pretty (monotonic_ns first)]
     | None => []
     end
  ++ match last all with
     | Some last => ["last_seq      : " +:+ pretty (sequence_no last);
                     "last_mono_ns  : " +:+ pretty (monotonic_ns last)]
     | None => []
     end.

Definition list_lines (dir : string) (sessions : list Z) : list string :=
  match sessions with
  | [] => ["(no sessions recorded under " +:+ dir +:+ ")"]
  | _ => pretty <$> sessions
  end.

(** ** Playback *)

(** The document of a tick; the two marks are the ones inside and beside its data. *)
Record TickDoc := mk_TickDoc {
  td_symbol : string;
  td_ltp_paise : Z;
  td_bid_paise : Z;
  td_ask_paise : Z;
  td_ts_recv_ns : Z;
  td_data_synth : bool;
  td_synth : bool;
}.

(** What is handed to the client: subject and bytes. *)
Definition Publication : Type := string * list Z.

Section cli.
Context (decode_record : list Z -> option ReplayRecord) (short : string -> nat -> nat).
Context (disk : string -> file_system) (to_vec : TickDoc -> list Z).
(** The texts of the errors. *)
Context (io_text : io_error -> string) (replay_text : ReplayError.t -> string).

Definition tick_publications (payload : list Z) : list Publication :=
  match TickWire.replay_fields payload with
  | Some (symbol_id, ltp_paise, bid_paise, ask_paise, ts_ns) =>
    let symbol_str := unwrap_or "UNKNOWN" (SymbolTable.symbol_for_id symbol_id) in
    [("md.tick.bin." +:+ symbol_str, payload);
     ("md.tick." +:+ symbol_str,
      to_vec (mk_TickDoc symbol_str ltp_paise bid_paise ask_paise ts_ns true true))]
  | None => [(Subjects.md_tick (SymbolId.new 1), payload)]
  end.

(** The subject of a record that is not a tick. *)
Definition subject (k : RecordKind.t) : option string :=
  match k with
  | RecordKind.Tick => None
  | RecordKind.OrderBook => Some (Subjects.md_book (SymbolId.new 1))
  | RecordKind.OpenInterest => Some (Subjects.md_oi (SymbolId.new 1))
  | RecordKind.SignalEmitted => Some Subjects.SIG_EMITTED
  | RecordKind.RiskDecision => Some Subjects.RISK_DECISION_APPROVED
  | RecordKind.OrderSubmitted => Some (Subjects.exec_order "submitted")
  | RecordKind.OrderModified => Some (Subjects.exec_order "modified")
  | RecordKind.OrderCancelled => Some (Subjects.exec_order "cancelled")
  | RecordKind.Fill => Some (Subjects.exec_fill (SymbolId.new 0))
  | RecordKind.AIDecision _ => Some "ai.replay"
  | RecordKind.TraderAction => Some "trader.replay"
  | RecordKind.MarketConditionSnapshot => Some "md.replay"
  | RecordKind.NewsEvent => Some "news.replay"
  end.

(** One turn of the loop; a publication that fails is reported and passed over. *)
Definition publications (r : ReplayRecord) : list Publication :=
  match subject (kind r) with
  | None => tick_publications (payload r)
  | Some subject => [(subject, payload r)]
  end.
Definition published (l : list ReplayRecord) : list Publication := concat (publications <$> l).

(** [while let Some(r) = stream.next().await], polled at the given instants: the number of records
    played and what was published, or [None] when the stream has not ended at the last of them. *)
Fixpoint play_loop (stream : PacedReplay.t) (polls : list Z) (played : nat) (out : list Publication)
  : option (nat * list Publication) :=
  match polls with
  | [] => None
  | now :: polls =>
    match PacedReplay.poll_next stream now with
    | (PacedReplay.Ready (Some r), stream) => play_loop stream polls (S played) (out ++ publications r)
    | (PacedReplay.Ready None, _) => Some (played, out)
    | (PacedReplay.Pending, stream) => play_loop stream polls played out
    end
  end.

Definition nats_url (env : option string) : string := unwrap_or "nats://127.0.0.1:4222" env.

Definition no_records (dir : string) (session_id : Z) : string :=
  let available :=
    match list_sessions (disk dir) with
    | [] => "(no sessions found)"
    | s => String.concat ", " (pretty <$> s)
    end in
  "Session " +:+ pretty session_id +:+ " has 0 records. Available sessions: " +:+ available.

(** [connected]: whether the bus server answers.  The outer [None] is fuel or instants exhausted. *)
Definition run_play (connected : bool) (env : option string) (dir : string) (session_id : Z)
  (speed : ReplaySpeed.t) (polls : list Z) : option (result nat string * list Publication) :=
  if negb connected then Some (Err ("connect to NATS at " +:+ nats_url env), [])
  else
    match Player.open decode_record short (disk dir) session_id speed with
    | None => None
    | Some (Err e) => Some (Err ("open player: " +:+ replay_text e), [])
    | Some (Ok player) =>
      if decide (Player.total_records player = 0%nat) then Some (Err (no_records dir session_id), [])
      else
        '(played, out) ← play_loop (PacedReplay.play player (Player.default_speed player)) polls 0 [];
        Some (Ok played, out)
    end.

(** What a command prints and returns, and what it publishes. *)
Definition outcome : Type := list string * result unit string * list Publication.

Definition read_session (dir : string) (session_id : Z)
  (print : nat -> list ReplayRecord -> list string) : option outcome :=
  let reader := SegmentReader.open_session (disk dir) session_id in
  match SegmentReader.read_all decode_record short (disk dir) reader with
  | None => None
  | Some (Err e) => Some ([], Err ("read records: " +:+ io_text e), [])
  | Some (Ok all) => Some (print (SegmentReader.segment_count reader) all, Ok tt, [])
  end.

Definition HELP : list string :=
  let tab := String (Ascii.ascii_of_N 9) EmptyString in
  ["hedge-replay — Replay_Engine inspection tool"; EmptyString; "USAGE:";
   tab +:+ "hedge-replay [--dir <path>] <command>"; EmptyString; "COMMANDS:";
   tab +:+ "list                List every recorded session.";
   tab +:+ "info <session_id>   Show segment count / record count.";
   tab +:+ "dump <session_id>   Print each record's sequence_no, monotonic_ns, and kind.";
   tab +:+ "play <session_id>   Play the recorded session to the NATS bus."; EmptyString].

Definition run (connected : bool) (env : option string) (polls : list Z) (args : Args) : option outcome :=
  match args with
  | Help => Some (HELP, Ok tt, [])
  | List dir => Some (list_lines dir (list_sessions (disk dir)), Ok tt, [])
  | Info dir session_id => read_session dir session_id (info_lines session_id)
  | Dump dir session_id => read_session dir session_id (fun _ all => dump_line <$> all)
  | Play dir session_id speed =>
    '(res, out) ← run_play connected env dir session_id speed polls;
    Some ([], match res with Ok _ => Ok tt | Err e => Err e end, out)
  end.

(** The exit code: 2 for a command line that is not understood, 1 for a command that fails. *)
Definition main (connected : bool) (env : option string) (polls : list Z) (argv : list string)
  : option (Z * list Publication) :=
  match parse_args argv with
  | Err _ => Some (2, [])
  | Ok args =>
    '(_, res, out) ← run connected env polls args;
    Some (if is_ok res then 0 else 1, out)
  end.

End cli.
End ReplayCli.

(** ** Facts *)

Module PlaybackFacts.
Import ReplayCli.

Lemma published_app to_vec l1 l2 : published to_vec (l1 ++ l2) = published to_vec l1 ++ published to_vec l2.
Proof. unfold published. by rewrite fmap_app, concat_app. Qed.

Section polls.
Context (to_vec : TickDoc -> list Z) (times : nat -> Z).
Context (Hmono : forall i j, (i <= j)%nat -> times i <= times j).
Context (Hunbounded : forall b, exists k, b <= times k).

Abbreviation polls k n := (times <$> seq k n).
Abbreviation loop := (play_loop to_vec).

(** Polls before the deadline change nothing; one of them comes at or after it. *)
Lemma polled_until_awake s k : exists j, (k <= j)%nat
  /\ (forall d, PacedReplay.sleep s = Some d -> d <= times j)
  /\ forall n played out, loop s (polls k (j - k + n)) played out = loop s (polls j n) played out.
Proof.
  destruct (PacedReplay.sleep s) as [d |] eqn:Hs;
    [| exists k; split_and!; [done | done | intros; by rewrite Nat.sub_diag]].
  destruct (Hunbounded d) as [b Hb]. remember (b - k)%nat as gap eqn:Hgap. revert k Hgap.
  induction gap as [| gap IH]; intros k Hgap.
  - exists k. split_and!; [done | | intros; by rewrite Nat.sub_diag].
    intros ? [= <-]. pose proof (Hmono b k ltac:(lia)). lia.
  - destruct (decide (d <= times k)) as [Hd | Hd].
    + exists k. split_and!; [done | by intros ? [= <-] | intros; by rewrite Nat.sub_diag].
    + destruct (IH (S k) ltac:(lia)) as (j & Hj & Hd' & Hloop). exists j. split_and!; [lia | done |].
      intros n played out. replace (j - k + n)%nat with (S (j - S k + n)) by lia. cbn [seq fmap list_fmap play_loop].
      destruct (PacedFacts.poll_cases s (times k)) as [(d' & _ & _ & ->) | [Hlate _]]; [apply Hloop |].
      exfalso. apply Hd, Hlate, Hs.
Qed.

Lemma loop_plays_the_rest l : forall s k played out, PacedFacts.remaining (PacedReplay.player s) = l ->
  exists n, forall m, (n <= m)%nat ->
    loop s (polls k m) played out = Some ((length l + played)%nat, out ++ published to_vec l).
Proof.
  induction l as [| r l IH]; intros s k played out Hl;
    destruct (polled_until_awake s k) as (j & Hj & Hawake & Hloop).
  - exists (j - k + 1)%nat. intros m Hm. replace m with (j - k + S (m - (j - k + 1)))%nat by lia.
    rewrite Hloop. cbn [seq fmap list_fmap play_loop].
    destruct (PacedFacts.poll_cases s (times j)) as [(d & Hd & Hlt & _) | [_ [[_ ->] | (r' & l' & Hr & _)]]].
    + specialize (Hawake d Hd). lia.
    + by rewrite app_nil_r.
    + congruence.
  - set (s' := (PacedReplay.poll_next s (times j)).2).
    assert (PacedReplay.poll_next s (times j) = (PacedReplay.Ready (Some r), s')
      /\ PacedFacts.remaining (PacedReplay.player s') = l) as [Hpoll Hrest].
    { unfold s'.
      destruct (PacedFacts.poll_cases s (times j)) as [(d & Hd & Hlt & _) | [_ [[Hr _] | (r' & l' & Hr & ->)]]].
      - specialize (Hawake d Hd). lia.
      - congruence.
      - rewrite Hl in Hr. injection Hr as <- <-. split; [done |]. by apply (PacedFacts.remaining_step _ r). }
    destruct (IH s' (S j) (S played) (out ++ publications to_vec r) Hrest) as [n Hn].
    exists (j - k + S n)%nat. intros m Hm. replace m with (j - k + S (m - (j - k + 1)))%nat by lia.
    rewrite Hloop. cbn [seq fmap list_fmap play_loop]. rewrite Hpoll, Hn by lia.
    f_equal. f_equal; [cbn; lia |]. unfold published. cbn. by rewrite <- (assoc_L (++)).
Qed.
End polls.

(** The directory may be given anywhere; a session and a speed are read back from their text. *)
Lemma play_command_line dir session speed : 0 <= session <= u64_max ->
  let words := ["play"; pretty session; ReplaySpeed.as_str speed] in
  parse_args (["--dir"; dir] ++ words) = Ok (Play dir session speed)
  /\ parse_args (words ++ ["--dir"; dir]) = Ok (Play dir session speed)
  /\ parse_args words = Ok (Play "./replay" session speed).
Proof.
  intros Hs words. pose proof (from_str_radix_pretty u64_max session Hs) as Hp.
  assert (forall w, from_str_radix 10 u64_max w = None -> pretty session <> w) as Hne by congruence.
  assert (pretty session <> "--dir" /\ pretty session <> "-h" /\ pretty session <> "--help") as (H1 & H2 & H3)
    by (split_and!; by apply Hne).
  assert (forall d, command d "play" [pretty session; ReplaySpeed.as_str speed] = Ok (Play d session speed)) as Hc.
  { intros d. unfold command, session_argument, parse_u64. rewrite Hp. by destruct speed. }
  unfold parse_args. subst words.
  split_and!; cbn [app scan]; repeat (first [rewrite (decide_False (P := pretty session = _)) by done
    | rewrite (decide_True (P := "--dir" = "--dir")) by done]; cbn [app scan]);
    destruct speed; cbn -[command]; apply Hc.
Qed.

(** Whatever the instants, what a finished playback published is the session. *)
Lemma loop_publishes to_vec polls : forall s played out n pubs,
  play_loop to_vec s polls played out = Some (n, pubs) ->
  pubs = out ++ published to_vec (PacedFacts.remaining (PacedReplay.player s))
  /\ n = (length (PacedFacts.remaining (PacedReplay.player s)) + played)%nat.
Proof.
  induction polls as [| now polls IH]; intros s played out n pubs H; [done |]. cbn [play_loop] in H.
  destruct (PacedFacts.poll_cases s now) as [(d & _ & _ & E) | [_ [[Hr E] | (r & l & Hr & E)]]]; rewrite E in H.
  - by apply IH.
  - rewrite Hr. injection H as <- <-. split; [by rewrite app_nil_r | done].
  - apply IH in H as [-> ->]. cbn [PacedReplay.player]. rewrite (PacedFacts.remaining_step _ r l Hr), Hr.
    split; [unfold published; cbn; by rewrite <- (assoc_L (++)) | cbn; lia].
Qed.

(** *** What the services hear *)

(** The execution service subscribes to the approvals, the position service to every fill; [decode] is
    their reading of JSON. *)
Definition exec_hears {A} (decode : list Z -> option A) (p : Publication) : option A :=
  if decide (p.1 = "risk.decision.approved") then decode p.2 else None.
Definition position_hears {A} (decode : list Z -> option A) (p : Publication) : option A :=
  if String.prefix "exec.fill." p.1 then decode p.2 else None.

Definition payloads_of (k : RecordKind.t) (l : list ReplayRecord) : list (list Z) :=
  payload <$> filter (fun r => kind r = k) l.

Lemma tick_heard {A} to_vec bytes (decode : list Z -> option A) :
  omap (exec_hears decode) (tick_publications to_vec bytes) = []
  /\ omap (position_hears decode) (tick_publications to_vec bytes) = [].
Proof.
  unfold tick_publications. destruct (TickWire.replay_fields bytes) as [[[[[id ltp] bid] ask] ts] |]; [| done].
  by generalize (unwrap_or "UNKNOWN" (SymbolTable.symbol_for_id id)).
Qed.

(** A recorded payload that is not a tick of 85 bytes goes out raw on the subject of the first symbol; the
    order-flow service, which listens there, takes one of 77 bytes for a trade. *)
Lemma raw_payload_is_a_trade to_vec r : kind r = RecordKind.Tick -> length (payload r) = 77%nat ->
  publications to_vec r = [("md.tick.1", payload r)]
  /\ exists tick, TickWire.orderflow_decode (payload r) = Some tick.
Proof.
  intros Hk Hl. unfold publications, tick_publications, TickWire.replay_fields, TickWire.orderflow_decode.
  rewrite Hk, Hl. cbn [subject]. by split; [| eexists].
Qed.

(** Every recorded decision is heard as an approval, and every recorded fill as a fill. *)
Lemma session_heard {A B} to_vec (decode : list Z -> option A) (decode_fill : list Z -> option B) l :
  omap (exec_hears decode) (published to_vec l) = omap decode (payloads_of RecordKind.RiskDecision l)
  /\ omap (position_hears decode_fill) (published to_vec l) = omap decode_fill (payloads_of RecordKind.Fill l).
Proof.
  induction l as [| r l [IH1 IH2]]; [done |].
  change (published to_vec (r :: l)) with (publications to_vec r ++ published to_vec l).
  rewrite !omap_app, IH1, IH2. unfold payloads_of. rewrite !filter_cons. unfold publications.
  destruct (kind r) eqn:Hk; cbn [subject]; repeat case_decide; try discriminate; try done.
  - destruct (tick_heard to_vec (payload r) decode) as [-> _].
    by destruct (tick_heard to_vec (payload r) decode_fill) as [_ ->].
  - split; [| done]. cbn [app fmap list_fmap omap list_omap]. unfold exec_hears at 1.
    rewrite decide_True by done. cbn [snd]. by destruct (decode (payload r)).
  - split; [done |]. cbn [app fmap list_fmap omap list_omap]. unfold position_hears at 1.
    change (String.prefix _ _) with true. cbn [snd]. by destruct (decode_fill (payload r)).
Qed.

Lemma opened_at_the_start decode_record short fs session speed player :
  Player.open decode_record short fs session speed = Some (Ok player) ->
  PacedFacts.remaining player = Player.pl_records player.
Proof.
  unfold Player.open, Player.from_records. intros H.
  destruct (SegmentReader.read_all _ _ _ _) as [[l | e] |]; [| done ..].
  destruct (Player.check_sequence _ _ l); [| done]. by injection H as <-.
Qed.

(** A recorded decision, delivered as an approval, does what it did when it was made. *)
Lemma redelivered {W} now (brokers : LiveRoute.Brokers W) cap live corr d signal t w :
  let p := RiskService.build_decision_payload corr d signal t in
  LiveRoute.handle_approval now brokers (Pipeline.approval_of p.2) live cap w
  = Pipeline.deliver now brokers cap live (Some p) w.
Proof.
  intros p. destruct d as [tok q r | reason r]; [done |]. transitivity w; [| done].
  unfold LiveRoute.handle_approval. cbn. by case_decide.
Qed.
End PlaybackFacts.

(** C34: A playback publishes every record of the session in its order and then ends, however its stream is
    paced and whenever it is polled, as long as it is polled again and again. *)
Theorem playback_publishes_the_session decode_record short disk to_vec replay_text env dir session speed player
  (times : nat -> Z) :
  Player.open decode_record short (disk dir) session speed = Some (Ok player) ->
  Player.pl_records player <> [] ->
  (forall i j, (i <= j)%nat -> times i <= times j) -> (forall b, exists k, b <= times k) ->
  exists n, forall m, (n <= m)%nat ->
    ReplayCli.run_play decode_record short disk to_vec replay_text true env dir session speed (times <$> seq 0 m)
    = Some (Ok (length (Player.pl_records player)), ReplayCli.published to_vec (Player.pl_records player)).
Proof.
  intros Hopen Hne Hmono Hunbounded. pose proof (PlaybackFacts.opened_at_the_start _ _ _ _ _ _ Hopen) as Hall.
  destruct (PlaybackFacts.loop_plays_the_rest to_vec times Hmono Hunbounded (Player.pl_records player)
    (PacedReplay.play player (Player.default_speed player)) 0%nat 0%nat [] Hall) as [n Hn].
  exists n. intros m Hm. unfold ReplayCli.run_play. cbn [negb]. rewrite Hopen.
  rewrite decide_False by (unfold Player.total_records; by destruct (Player.pl_records player)).
  rewrite Hn by done. cbn. by rewrite Nat.add_0_r.
Qed.

(** C19: A session played back on the bus of the running services trades again. When its recorded decisions
    are those the risk service published, approvals and rejections, the execution service goes through
    them as it did when they were made, mode and brokers permitting; and a position service that booked
    the recorded fills books them a second time. *)
Theorem replayed_session_trades_again {W : Type} (now : nat -> Z) (brokers : LiveRoute.Brokers W) (cap : Z)
  (live : bool) (w : LiveRoute.world W)
  (encode : RiskService.DecisionPayload -> list Z) (decode : list Z -> option LiveRoute.ApprovalEvent)
  (decode_fill : list Z -> option PositionService.FillDoc)
  decode_record short disk to_vec replay_text connected env dir session speed polls player n pubs
  (decisions : list (string * RiskService.DecisionPayload)) :
  Forall (fun d => decode (encode d.2) = Some (Pipeline.approval_of d.2)) decisions ->
  Player.open decode_record short (disk dir) session speed = Some (Ok player) ->
  ReplayCli.run_play decode_record short disk to_vec replay_text connected env dir session speed polls
    = Some (Ok n, pubs) ->
  Forall (fun d => exists corr dec signal t, d = RiskService.build_decision_payload corr dec signal t) decisions ->
  PlaybackFacts.payloads_of RecordKind.RiskDecision (Player.pl_records player) = encode <$> decisions.*2 ->
  foldl (fun w a => LiveRoute.handle_approval now brokers a live cap w) w
    (omap (PlaybackFacts.exec_hears decode) pubs)
  = foldl (fun w d => Pipeline.deliver now brokers cap live (Some d) w) w decisions
  /\ forall base_inr symbol ms,
     let fills := omap decode_fill (PlaybackFacts.payloads_of RecordKind.Fill (Player.pl_records player)) in
     let filled := list_sum (PositionService.filled_of symbol <$> fills) in
     SymbolTable.symbol_id_for symbol <> 0 -> Forall PositionService.unsided fills -> 2 * filled <= i64_max ->
     PositionService.docs_of ms = fills ++ omap (PlaybackFacts.position_hears decode_fill) pubs ->
     Position.quantity (PositionEngine.get_or_flat
       (PositionService.run (PositionService.base_capital base_inr) (PositionService.start base_inr) ms).2
       (SymbolTable.symbol_id_for symbol)) = 2 * filled.
Proof.
  intros Hcodec Hopen Hrun Hdec Hpay.
  assert (pubs = ReplayCli.published to_vec (Player.pl_records player)) as ->.
  { unfold ReplayCli.run_play in Hrun. destruct connected; [| done]. cbn [negb] in Hrun. rewrite Hopen in Hrun.
    case_decide; [done |]. destruct (ReplayCli.play_loop _ _ _ _ _) as [[k out] |] eqn:E; [| done].
    injection Hrun as <- <-. apply PlaybackFacts.loop_publishes in E as [-> _].
    cbn [app PacedReplay.play PacedReplay.player].
    by rewrite (PlaybackFacts.opened_at_the_start _ _ _ _ _ _ Hopen). }
  destruct (PlaybackFacts.session_heard to_vec decode decode_fill (Player.pl_records player)) as [-> ->]. split.
  - rewrite Hpay. clear Hpay. revert w.
    induction Hdec as [| d ds (corr & dec & signal & t & ->) _ IH]; intros w; [done |].
    apply Forall_cons in Hcodec as [Hd Hcodec]. cbn [fmap list_fmap omap list_omap]. rewrite Hd. cbn [foldl].
    rewrite PlaybackFacts.redelivered. by apply IH.
  - intros base_inr symbol ms fills filled Hsym Hplain Hmax Hms.
    rewrite (PositionService.unsided_books _ symbol ms); try done; rewrite Hms; fold fills.
    + rewrite fmap_app, list_sum_app. fold filled. lia.
    + by apply Forall_app.
    + rewrite fmap_app, list_sum_app. fold filled. lia.
Qed.

(** A session of an unreadable tick, an approval, a rejection and a fill, in one segment. *)
Module PlaybackSample.
Definition signal : Signal := mk_Signal [] 2 1 0 f_zero f_zero (mk_RiskProfile 100 200 10 60) 0.
Definition decisions : list (string * RiskService.DecisionPayload) :=
  [RiskService.build_decision_payload "c1" (Approved (Approval.mk_token []) 5 Rationale.default) signal 1;
   RiskService.build_decision_payload "c2" (Rejected RejectionReason.KillSwitchEngaged Rationale.default) signal 2].
(** Toy codecs. *)
Definition encode (p : RiskService.DecisionPayload) : list Z := [RiskService.dp_sized_quantity p].
Definition decode (l : list Z) : option LiveRoute.ApprovalEvent :=
  d ← list_find (fun d => encode d.2 = l) decisions; Some (Pipeline.approval_of d.2.2).
Definition decode_fill (l : list Z) : option PositionService.FillDoc :=
  match l with [q] => Some (PositionService.mk_FillDoc (Some "RELIANCE") (Some q) None None) | _ => None end.
Definition records : list ReplayRecord :=
  [mk_ReplayRecord 7 0 10 0 RecordKind.Tick [1; 2];
   mk_ReplayRecord 7 1 20 0 RecordKind.RiskDecision [5];
   mk_ReplayRecord 7 2 30 0 RecordKind.RiskDecision [0];
   mk_ReplayRecord 7 3 40 0 RecordKind.Fill [5]].
Definition decode_record (l : list Z) : option ReplayRecord :=
  match l with [k] => records !! Z.to_nat k | _ => None end.
Definition disk (dir : string) : file_system :=
  {["7" := {["seg-0001.rkyv" := concat ((fun k => Framed.write_framed [k]) <$> [0; 1; 2; 3])]}]}.
Definition short (_ : string) (_ : nat) : nat := 3.
Definition to_vec (d : ReplayCli.TickDoc) : list Z := [ReplayCli.td_ltp_paise d].
Definition player (speed : ReplaySpeed.t) : Player.t := Player.mk 7 records 0 speed.
Definition play (speed : ReplaySpeed.t) (polls : list Z) :=
  ReplayCli.run_play decode_record short disk to_vec (fun _ => EmptyString) true None "/replay" 7 speed polls.
Definition pubs : list ReplayCli.Publication :=
  [("md.tick.1", [1; 2]); ("risk.decision.approved", [5]); ("risk.decision.approved", [0]); ("exec.fill.0", [5])].
End PlaybackSample.

Lemma playback_publishes_the_session_witness :
  exists n, forall m, (n <= m)%nat ->
    PlaybackSample.play ReplaySpeed.X10 (Z.of_nat <$> seq 0 m) = Some (Ok 4%nat, PlaybackSample.pubs).
Proof.
  apply (playback_publishes_the_session PlaybackSample.decode_record PlaybackSample.short PlaybackSample.disk
    PlaybackSample.to_vec (fun _ => EmptyString) None "/replay" 7 ReplaySpeed.X10
    (PlaybackSample.player ReplaySpeed.X10) Z.of_nat).
  - vm_compute. reflexivity.
  - discriminate.
  - intros i j H. by apply inj_le.
  - intros b. exists (Z.to_nat b). lia.
Defined.

(** The one share order of the session is submitted again, and its fill booked again. *)
Lemma replayed_session_trades_again_witness :
  LiveRoute.lw_brokers (foldl (fun w a => LiveRoute.handle_approval Z.of_nat LiveSample.brokers a true 50000 w)
    LiveSample.start (omap (PlaybackFacts.exec_hears PlaybackSample.decode) PlaybackSample.pubs)) = 1
  /\ forall ms, PositionService.docs_of ms
      = [PositionService.mk_FillDoc (Some "RELIANCE") (Some 5) None None;
         PositionService.mk_FillDoc (Some "RELIANCE") (Some 5) None None] ->
     Position.quantity (PositionEngine.get_or_flat
       (PositionService.run (PositionService.base_capital 20000) (PositionService.start 20000) ms).2 1) = 10.
Proof.
  destruct (replayed_session_trades_again Z.of_nat LiveSample.brokers 50000 true LiveSample.start
    PlaybackSample.encode PlaybackSample.decode PlaybackSample.decode_fill
    PlaybackSample.decode_record PlaybackSample.short PlaybackSample.disk PlaybackSample.to_vec
    (fun _ => EmptyString) true None "/replay" 7 ReplaySpeed.Max (seqZ 0 5) (PlaybackSample.player ReplaySpeed.Max)
    4 PlaybackSample.pubs PlaybackSample.decisions) as [H1 H2].
  - repeat constructor.
  - vm_compute. reflexivity.
  - vm_compute. reflexivity.
  - repeat constructor; by eexists _, _, _, _.
  - reflexivity.
  - split; [rewrite H1; vm_compute; reflexivity |].
    intros ms Hms. apply (H2 20000 "RELIANCE" ms); [discriminate | | vm_compute; discriminate | exact Hms].
    repeat constructor. vm_compute. discriminate.
Defined.
