(* ===== verification/ReplayTools.v ===== *)
(** The tools around a recorded session: the generator of the canonical session (gen_canonical.rs of
    hedge-replay), the regression harness that plays it twice and compares (regression.rs), and the two
    inspections count_kinds.rs and check_timing.rs.

    The rkyv codec and the random generator of a player are parameters; a generator is the sequence of
    its outputs.  Two small parts of hedge-replay are here as well: its codec for the bus (codec.rs) and
    the mode flag (mode.rs). *)

From S2P Require Import Prelude Bytes Bus Replay ReplaySegments ReplayPlayer ReplayCli.

(** ** The codec of the bus and the mode flag *)

Definition ReplayRecordCodec {E} (encode_record : ReplayRecord -> list Z)
  (decode_record : list Z -> option ReplayRecord) : Codec E ReplayRecord :=
  {| encode value := Ok (encode_record value);
     decode bytes := ok_or (Decode "rkyv check_archived_root failed") (decode_record bytes) |}.

Lemma replay_codec_lawful {E} encode_record decode_record :
  (forall r, decode_record (encode_record r) = Some r) ->
  LawfulCodec (ReplayRecordCodec (E := E) encode_record decode_record).
Proof. intros H v bytes [= <-]. cbn. by rewrite H. Qed.

Module ReplayMode.
Inductive t := Off | On.
Definition default : t := Off.
Definition is_replay (m : t) : bool := match m with On => true | Off => false end.
Definition as_str (m : t) : string := match m with Off => "off" | On => "on" end.
End ReplayMode.

(** ** The canonical session *)

Module CanonicalSession.

Definition DEFAULT_OUT_DIR : string := "tests/fixtures/replay/canonical".
Definition DEFAULT_SESSION_ID : Z := 20251130.
Definition DEFAULT_RECORD_COUNT : Z := 64.
Definition ANCHOR_MONOTONIC_NS : Z := 5000000.
Definition ANCHOR_WALLCLOCK_NS : Z := 1764493200000000000.
Definition TICK_GAP_NS : Z := 1000000.

Record Args := mk_Args { out : string; args_session : Z; args_records : Z }.

(** A flag with a number. *)
Definition flag_u64 (flag v : string) : result Z string :=
  match ReplayCli.parse_u64 v with
  | Ok n => Ok n
  | Err e => Err ("invalid " +:+ flag +:+ ": " +:+ e)
  end.

(** The loop over the arguments; [Ok None] is a request for help, which ends the process. *)
Fixpoint scan (argv : list string) (dir : option string) (session_id records : option Z)
  : result (option Args) string :=
  match argv with
  | [] => Ok (Some (mk_Args (unwrap_or DEFAULT_OUT_DIR dir) (unwrap_or DEFAULT_SESSION_ID session_id)
                            (unwrap_or DEFAULT_RECORD_COUNT records)))
  | a :: argv =>
    if decide (a = "--out") then
      match argv with
      | [] => Err "--out requires a value"
      | v :: argv => scan argv (Some v) session_id records
      end
    else if decide (a = "--session-id") then
      match argv with
      | [] => Err "--session-id requires a value"
      | v :: argv =>
        match flag_u64 "--session-id" v with
        | Ok n => scan argv dir (Some n) records
        | Err e => Err e
        end
      end
    else if decide (a = "--records") then
      match argv with
      | [] => Err "--records requires a value"
      | v :: argv =>
        match flag_u64 "--records" v with
        | Ok n => scan argv dir session_id (Some n)
        | Err e => Err e
        end
      end
    else if decide (a = "-h") then Ok None
    else if decide (a = "--help") then Ok None
    else Err ("unknown argument: " +:+ a)
  end.
Definition parse_args (argv : list string) : result (option Args) string := scan argv None None None.

Definition kind_for_index (i : Z) : RecordKind.t :=
  match i mod 10 with
  | 0 | 1 => RecordKind.Tick
  | 2 => RecordKind.SignalEmitted
  | 3 => RecordKind.RiskDecision
  | 4 => RecordKind.OrderSubmitted
  | 5 => RecordKind.OrderModified
  | 6 => RecordKind.Fill
  | 7 => RecordKind.OrderCancelled
  | 8 => RecordKind.AIDecision AISource.Ranking
  | _ => RecordKind.MarketConditionSnapshot
  end.

Definition payload_for (seq kind : Z) : list Z :=
  let x := Z.lxor (as_u64 (seq * 0x9E3779B97F4A7C15)) kind in
  let x := Z.lxor x (Z.shiftr x 27) in
  let x := as_u64 (x * 0x94D049BB133111EB) in
  be_bytes 8 seq ++ replicate 4 kind ++ be_bytes 4 (as_u32 x).

Definition kind_discriminant (kind : RecordKind.t) : Z :=
  match kind with
  | RecordKind.Tick => 0
  | RecordKind.OrderBook => 1
  | RecordKind.OpenInterest => 2
  | RecordKind.NewsEvent => 3
  | RecordKind.SignalEmitted => 4
  | RecordKind.RiskDecision => 5
  | RecordKind.OrderSubmitted => 6
  | RecordKind.OrderModified => 7
  | RecordKind.OrderCancelled => 8
  | RecordKind.Fill => 9
  | RecordKind.TraderAction => 10
  | RecordKind.AIDecision _ => 11
  | RecordKind.MarketConditionSnapshot => 12
  end.

(** The record of one turn, its sums wrapped. *)
Definition record_at (session i : Z) : ReplayRecord :=
  let kind := kind_for_index i in
  mk_ReplayRecord session i
    (as_u64 (ANCHOR_MONOTONIC_NS + as_u64 (i * TICK_GAP_NS)))
    (as_i64 (ANCHOR_WALLCLOCK_NS + as_i64 (as_i64 i * TICK_GAP_NS)))
    kind (payload_for i (kind_discriminant kind)).

Definition records (session : Z) (n : nat) : list ReplayRecord :=
  record_at session <$> seqZ 0 (Z.of_nat n).

Section run.
Context (encode_record : ReplayRecord -> list Z) (text : ReplayError.t -> string).

Definition prefixed {A} (prefix : string) (m : Recorder.io A) : SE (Recorder.t * file_system) string A :=
  fun x => let '(res, x) := m x in (map_err (fun e => prefix +:+ text e) res, x).

(** The turns from [i] on, [n] of them left. *)
Fixpoint record_loop (session : Z) (n : nat) (i : Z) : SE (Recorder.t * file_system) string unit :=
  match n with
  | O => se_ret tt
  | S n =>
    (prefixed ("record_raw seq " +:+ pretty i +:+ ": ")
       (Recorder.record_raw encode_record (record_at session i) None) ;?
     record_loop session n (i + 1))%se
  end.

(** [run], in the output directory: the session is removed first; the recorder, dropped at the end,
    closes its file. *)
Definition run (session : Z) (n : nat) (fs : file_system) : result unit string * file_system :=
  let fs := delete (session_dir session) fs in
  let '(res, (r, fs)) :=
    (record_loop session n 0 ;? prefixed "flush recorder: " Recorder.flush)%se
      (Recorder.new session DEFAULT_MAX_SEGMENT_BYTES, fs) in
  (res, (SegmentWriter.close_active (Recorder.segment_writer r, fs)).2.2).

(** The exit code, and what becomes of the output directory that was named. *)
Definition main (argv : list string) (disk : string -> file_system) : Z * option (string * file_system) :=
  match parse_args argv with
  | Err _ => (2, None)
  | Ok None => (0, None)
  | Ok (Some args) =>
    let '(res, fs) := run (args_session args) (Z.to_nat (args_records args)) (disk (out args)) in
    (if is_ok res then 0 else 1, Some (out args, fs))
  end.
End run.
End CanonicalSession.

(** ** The regression harness *)

Module Regression.

Definition DEFAULT_DIR : string := "tests/fixtures/replay/canonical".
Definition DEFAULT_SESSION_ID : Z := 20251130.
Definition DEFAULT_SEED : Z := 0xDEADBEEFCAFEBABE.
Definition RNG_COMPARE_SAMPLES : nat := 1024.

Record Args := mk_Args { args_dir : string; args_session : Z; args_seed : Z }.

Fixpoint scan (argv : list string) (dir : option string) (session_id seed : option Z)
  : result (option Args) string :=
  match argv with
  | [] => Ok (Some (mk_Args (unwrap_or DEFAULT_DIR dir) (unwrap_or DEFAULT_SESSION_ID session_id)
                            (unwrap_or DEFAULT_SEED seed)))
  | a :: argv =>
    if decide (a = "--dir") then
      match argv with
      | [] => Err "--dir requires a value"
      | v :: argv => scan argv (Some v) session_id seed
      end
    else if decide (a = "--session-id") then
      match argv with
      | [] => Err "--session-id requires a value"
      | v :: argv =>
        match CanonicalSession.flag_u64 "--session-id" v with
        | Ok n => scan argv dir (Some n) seed
        | Err e => Err e
        end
      end
    else if decide (a = "--seed") then
      match argv with
      | [] => Err "--seed requires a value"
      | v :: argv =>
        match CanonicalSession.flag_u64 "--seed" v with
        | Ok n => scan argv dir session_id (Some n)
        | Err e => Err e
        end
      end
    else if decide (a = "-h") then Ok None
    else if decide (a = "--help") then Ok None
    else Err ("unknown argument: " +:+ a)
  end.
Definition parse_args (argv : list string) : result (option Args) string := scan argv None None None.

Definition kind_label (kind : RecordKind.t) : string :=
  match kind with
  | RecordKind.Tick => "Tick"
  | RecordKind.OrderBook => "OrderBook"
  | RecordKind.OpenInterest => "OpenInterest"
  | RecordKind.NewsEvent => "NewsEvent"
  | RecordKind.SignalEmitted => "SignalEmitted"
  | RecordKind.RiskDecision => "RiskDecision"
  | RecordKind.OrderSubmitted => "OrderSubmitted"
  | RecordKind.OrderModified => "OrderModified"
  | RecordKind.OrderCancelled => "OrderCancelled"
  | RecordKind.Fill => "Fill"
  | RecordKind.TraderAction => "TraderAction"
  | RecordKind.AIDecision AISource.Ranking => "AIDecision/Ranking"
  | RecordKind.AIDecision AISource.Regime => "AIDecision/Regime"
  | RecordKind.AIDecision AISource.News => "AIDecision/News"
  | RecordKind.AIDecision AISource.Psychology => "AIDecision/Psychology"
  | RecordKind.AIDecision AISource.Priority => "AIDecision/Priority"
  | RecordKind.AIDecision AISource.Journal => "AIDecision/Journal"
  | RecordKind.AIDecision AISource.Governance => "AIDecision/Governance"
  | RecordKind.AIDecision AISource.Other => "AIDecision/Other"
  | RecordKind.MarketConditionSnapshot => "MarketConditionSnapshot"
  end.

Record PlayResult := mk_PlayResult {
  pr_records : list ReplayRecord;
  histogram : gmap string Z;
  rng_samples : list Z;
}.

(** The failures, without their texts. *)
Inductive Failure :=
| OpenFailed (e : ReplayError.t)
| Shortfall (advertised yielded : nat)
| CountDivergence (run1 run2 : nat)
| HistogramDivergence
| RngDivergence (sample : option nat)
| RecordDivergence (i : nat)
| BytesDivergence (i : nat)
| MissingSession.

Definition count (label : string) (h : gmap string Z) : gmap string Z :=
  <[label := unwrap_or 0 (h !! label) + 1]> h.

(** [while let Some(rec) = player.step()]: what it collects; [fuel] exceeds the records left. *)
Fixpoint step_loop (fuel : nat) (p : Player.t) (records : list ReplayRecord) (h : gmap string Z)
  : option (list ReplayRecord * gmap string Z) :=
  match fuel with
  | O => None
  | S fuel =>
    match Player.step p with
    | (Some r, p) => step_loop fuel p (records ++ [r]) (count (kind_label (kind r)) h)
    | (None, _) => Some (records, h)
    end
  end.

#[global] Instance record_eq_dec : EqDecision ReplayRecord.
Proof. solve_decision. Defined.

Section harness.
Context (encode_record : ReplayRecord -> list Z) (decode_record : list Z -> option ReplayRecord).
Context (rng : Z -> nat -> Z).

(** [short] cuts the reads of this run; the outer [None] is fuel. *)
Definition play_once (short : string -> nat -> nat) (fs : file_system) (session seed : Z)
  : option (result PlayResult Failure) :=
  match Player.open decode_record short fs session ReplaySpeed.Max with
  | None => None
  | Some (Err e) => Some (Err (OpenFailed e))
  | Some (Ok player) =>
    let total := Player.total_records player in
    '(records, h) ← step_loop (S total) player [] ∅;
    if decide (length records = total)
    then Some (Ok (mk_PlayResult records h (rng seed <$> seq 0 RNG_COMPARE_SAMPLES)))
    else Some (Err (Shortfall total (length records)))
  end.

(** [zip(..).position(|(x, y)| x != y)]. *)
Definition first_difference {A} `{EqDecision A} (a b : list A) : option nat :=
  fst <$> list_find (fun p => p.1 <> p.2) (zip a b).

Fixpoint diff_records (i : nat) (l : list (ReplayRecord * ReplayRecord)) : result unit Failure :=
  match l with
  | [] => Ok tt
  | (r1, r2) :: l =>
    if decide (r1 <> r2) then Err (RecordDivergence i)
    else if decide (encode_record r1 <> encode_record r2) then Err (BytesDivergence i)
    else diff_records (S i) l
  end.

Definition diff_streams (a b : PlayResult) : result nat Failure :=
  if decide (length (pr_records a) <> length (pr_records b)) then
    Err (CountDivergence (length (pr_records a)) (length (pr_records b)))
  else if decide (histogram a <> histogram b) then Err HistogramDivergence
  else if decide (rng_samples a <> rng_samples b) then
    Err (RngDivergence (first_difference (rng_samples a) (rng_samples b)))
  else match diff_records 0 (zip (pr_records a) (pr_records b)) with
       | Ok _ => Ok (length (pr_records a))
       | Err e => Err e
       end.

(** [run]; the directory of the session must exist. *)
Definition run (short1 short2 : string -> nat -> nat) (fs : file_system) (session seed : Z)
  : option (result nat Failure) :=
  match fs !! session_dir session with
  | None => Some (Err MissingSession)
  | Some _ =>
    match play_once short1 fs session seed with
    | None => None
    | Some (Err e) => Some (Err e)
    | Some (Ok run1) =>
      match play_once short2 fs session seed with
      | None => None
      | Some (Err e) => Some (Err e)
      | Some (Ok run2) => Some (diff_streams run1 run2)
      end
    end
  end.

(** The exit code. *)
Definition main (short1 short2 : string -> nat -> nat) (argv : list string) (disk : string -> file_system)
  : option Z :=
  match parse_args argv with
  | Err _ => Some 2
  | Ok None => Some 0
  | Ok (Some args) =>
    res ← run short1 short2 (disk (args_dir args)) (args_session args) (args_seed args);
    Some (if is_ok res then 0 else 1)
  end.
End harness.
End Regression.

(** ** Inspections *)

Module Inspect.
(** [debug]: the derived text of a kind.  The counts of count_kinds.rs, printed in the order in which
    the map is iterated. *)
Fixpoint count_kinds (debug : RecordKind.t -> string) (l : list ReplayRecord) (counts : gmap string Z)
  : gmap string Z :=
  match l with
  | [] => counts
  | r :: l => count_kinds debug l (Regression.count (debug (kind r)) counts)
  end.

(** The loop of check_timing.rs: the lines of at most [n] more records. *)
Fixpoint timing_lines (n : nat) (i : Z) (prev : option Z) (l : list ReplayRecord) : list string :=
  match n with
  | O => []
  | S n =>
    match l with
    | [] => ["No more records."]
    | r :: l =>
      ("Record " +:+ pretty i +:+ ": sequence_no=" +:+ pretty (sequence_no r)
       +:+ ", monotonic_ns=" +:+ pretty (monotonic_ns r))
      :: match prev with
         | Some p => ["  Delta: " +:+ pretty (as_u64 (monotonic_ns r - p))]
         | None => []
         end
      ++ timing_lines n (i + 1) (Some (monotonic_ns r)) l
    end
  end.
Definition check_timing (p : Player.t) : list string :=
  ("Total records: " +:+ pretty (Player.total_records p)) :: timing_lines 10 0 None (Player.pl_records p).
End Inspect.

(** ** Facts *)

Module ToolFacts.
Import CanonicalSession Regression.

(** *** The generator *)

Lemma records_S session i n :
  record_at session <$> seqZ i (Z.of_nat (S n))
  = record_at session i :: (record_at session <$> seqZ (i + 1) (Z.of_nat n)).
Proof. rewrite seqZ_cons by lia. cbn [fmap list_fmap]. by replace (Z.pred (Z.of_nat (S n))) with (Z.of_nat n) by lia. Qed.

Definition appends (session i : Z) (n : nat) : list Ledger.op :=
  Ledger.Append <$> (record_at session <$> seqZ i (Z.of_nat n)).

Lemma appended_canonical session i n ops :
  Ledger.appended (appends session i n ++ ops) = (record_at session <$> seqZ i (Z.of_nat n)) ++ Ledger.appended ops.
Proof.
  unfold appends, Ledger.appended. rewrite omap_app. f_equal.
  generalize (record_at session <$> seqZ i (Z.of_nat n)). intros l. induction l as [| r l IH]; [done |].
  csimpl. by rewrite IH.
Qed.

(** The generator performs its appends and the flush on the ledger. *)
Lemma loop_performs encode_record text session n : forall i r fs w' fs',
  0 <= i -> i + Z.of_nat n <= u64_max ->
  Recorder.rec_session r = session -> Recorder.next_seq r = i -> Recorder.has_redis_sink r = false ->
  Ledger.performs encode_record (appends session i n ++ [Ledger.Flush]) (Recorder.segment_writer r, fs)
    = (Ok tt, (w', fs')) ->
  exists r', (record_loop encode_record text session n i ;? prefixed text "flush recorder: " Recorder.flush)%se (r, fs)
    = (Ok tt, (r', fs')) /\ Recorder.segment_writer r' = w'.
Proof.
  induction n as [| n IH]; intros i r fs w' fs' Hi Hn Hs Hq Hr E.
  - change (Ledger.performs encode_record (appends session i 0 ++ [Ledger.Flush]))
      with (Ledger.perform encode_record Ledger.Flush ;? se_ret tt)%se in E.
    unfold se_bind, Ledger.perform in E. cbn [record_loop]. unfold se_bind, se_ret, prefixed, Recorder.flush, Recorder.on_writer.
    destruct (SegmentWriter.flush (Recorder.segment_writer r, fs)) as [[[] | e] [w1 fs1]]; [| done].
    injection E as <- <-. by eexists.
  - unfold appends in E. rewrite records_S in E. csimpl in E. unfold se_bind at 1 in E.
    cbn [Ledger.perform] in E. unfold se_bind at 1 in E.
    destruct (SegmentWriter.append _ _ _) as [[p | e] [w1 fs1]] eqn:Ea; [| done].
    set (c := Recorder.mk_call (kind (record_at session i)) (payload (record_at session i))
      (monotonic_ns (record_at session i)) (wallclock_utc (record_at session i)) None).
    assert (record_at session i = Recorder.call_record (Recorder.rec_session r) (Recorder.next_seq r) c) as Hc
      by (by rewrite Hs, Hq).
    rewrite Hc in Ea.
    destruct (RecorderFacts.record_step encode_record r fs c p w1 fs1 ltac:(lia) Ea)
      as (r1 & Er & Hw & Hs1 & Hr1 & Hq1).
    rewrite Hr in Er, Hq1. unfold Recorder.committed in Er, Hq1. cbn [negb andb] in Er, Hq1.
    destruct (IH (i + 1) r1 fs1 w' fs') as (r' & E' & Hw'); try congruence; try lia.
    { rewrite Hw. exact E. }
    exists r'. split; [| done]. rewrite <- E'. cbn [record_loop]. unfold se_bind, prefixed at 1.
    change (Recorder.record encode_record c (r, fs)) with
      (Recorder.record_raw encode_record (Recorder.call_record (Recorder.rec_session r) (Recorder.next_seq r) c) None (r, fs)) in Er.
    rewrite <- Hc in Er. by rewrite Er.
Qed.

Lemma canonical_numbered session n : forall i,
  Player.check_sequence session i (record_at session <$> seqZ i (Z.of_nat n)) = Ok tt.
Proof.
  induction n as [| n IH]; intros i; [done |]. rewrite records_S. cbn [Player.check_sequence].
  change (sequence_no (record_at session i)) with i. rewrite Z.eqb_refl. apply IH.
Qed.

(** A generator and a harness that name the same directory and session work on the same records. *)
Lemma command_lines_meet dir session n seed :
  0 <= session <= u64_max -> 0 <= n <= u64_max -> 0 <= seed <= u64_max ->
  CanonicalSession.parse_args ["--out"; dir; "--session-id"; pretty session; "--records"; pretty n]
    = Ok (Some (CanonicalSession.mk_Args dir session n))
  /\ Regression.parse_args ["--seed"; pretty seed; "--session-id"; pretty session; "--dir"; dir]
    = Ok (Some (Regression.mk_Args dir session seed))
  /\ CanonicalSession.parse_args [] = Ok (Some (CanonicalSession.mk_Args CanonicalSession.DEFAULT_OUT_DIR
       CanonicalSession.DEFAULT_SESSION_ID CanonicalSession.DEFAULT_RECORD_COUNT))
  /\ Regression.parse_args [] = Ok (Some (Regression.mk_Args CanonicalSession.DEFAULT_OUT_DIR
       CanonicalSession.DEFAULT_SESSION_ID Regression.DEFAULT_SEED)).
Proof.
  intros H1 H2 H3. split_and!; try done.
  - unfold CanonicalSession.parse_args. cbn -[flag_u64]. unfold flag_u64, ReplayCli.parse_u64.
    by rewrite !from_str_radix_pretty.
  - unfold Regression.parse_args. cbn -[flag_u64]. unfold flag_u64, ReplayCli.parse_u64.
    by rewrite !from_str_radix_pretty.
Qed.

(** *** The harness *)

Definition histogram_of (l : list ReplayRecord) (h : gmap string Z) : gmap string Z :=
  foldl (fun h r => count (kind_label (kind r)) h) h l.

Lemma step_loop_spec fuel : forall p acc h, (length (PacedFacts.remaining p) < fuel)%nat ->
  step_loop fuel p acc h = Some (acc ++ PacedFacts.remaining p, histogram_of (PacedFacts.remaining p) h).
Proof.
  induction fuel as [| fuel IH]; intros p acc h Hf; [lia |]. cbn [step_loop]. rewrite PacedFacts.step_spec.
  destruct (PacedFacts.remaining p) as [| r l] eqn:Hr; [by rewrite app_nil_r |].
  rewrite IH; rewrite (PacedFacts.remaining_step _ _ _ Hr); [| cbn in Hf; lia].
  by rewrite <- (assoc_L (++)).
Qed.

(** A run collects the session, however its reads are cut. *)
Lemma play_once_spec decode_record rng short fs session seed records :
  Player.open decode_record short fs session ReplaySpeed.Max
    = Some (Ok (Player.mk session records 0 ReplaySpeed.Max)) ->
  play_once decode_record rng short fs session seed
  = Some (Ok (mk_PlayResult records (histogram_of records ∅) (rng seed <$> seq 0 RNG_COMPARE_SAMPLES))).
Proof.
  intros H. unfold play_once. rewrite H. set (p := Player.mk _ _ _ _).
  assert (PacedFacts.remaining p = records) as Hr by apply drop_0.
  rewrite step_loop_spec; rewrite Hr; [| unfold Player.total_records; cbn; lia].
  cbn -[RNG_COMPARE_SAMPLES seq]. by rewrite decide_True.
Qed.

Lemma diff_records_spec encode_record a b : forall i, length a = length b ->
  diff_records encode_record i (zip a b) = Ok tt <-> a = b.
Proof.
  revert b. induction a as [| x a IH]; intros [| y b] i Hl; try done. cbn [zip zip_with diff_records].
  case_decide as Hd; [split; congruence |]. subst y.
  rewrite decide_False by (by intros []). rewrite IH by (cbn in Hl; lia). split; congruence.
Qed.

(** The comparison accepts two runs exactly when they agree on everything it looks at. *)
Lemma diff_streams_spec encode_record a b n : diff_streams encode_record a b = Ok n <->
  pr_records a = pr_records b /\ histogram a = histogram b /\ rng_samples a = rng_samples b
  /\ n = length (pr_records a).
Proof.
  unfold diff_streams. repeat case_decide; try (split; [done |]; intros (? & ? & ? & ?); congruence).
  pose proof (diff_records_spec encode_record _ _ 0%nat H) as Hs.
  destruct (diff_records _ _ _) as [[] | e].
  - split; [intros [= <-]; split_and!; try done; by apply Hs | by intros (_ & _ & _ & ->)].
  - split; [done |]. intros (Hr & _). by apply Hs in Hr.
Qed.
End ToolFacts.

(** The canonical session replays. The generator, on any disk, removes what the session held, writes its
    records and leaves the other sessions; writing it again gives the same disk; the player opens it with
    exactly these records, and the regression harness finds its two runs equal, however the reads of
    each are cut. *)
Theorem canonical_session_replays (encode_record : ReplayRecord -> list Z)
  (decode_record : list Z -> option ReplayRecord) (text : ReplayError.t -> string) (rng : Z -> nat -> Z)
  (short1 short2 : string -> nat -> nat) (fs : file_system) (session seed : Z) (n : nat) :
  let records := CanonicalSession.records session n in
  Forall (ReadBack.good encode_record decode_record) records -> 0 < Z.of_nat n <= u64_max ->
  Z.of_nat (length (Ledger.all (Ledger.segment encode_record DEFAULT_MAX_SEGMENT_BYTES
    ((Ledger.Append <$> records) ++ [Ledger.Flush])))) < 10000 ->
  exists fs', CanonicalSession.run encode_record text session n fs = (Ok tt, fs')
    /\ CanonicalSession.run encode_record text session n fs' = (Ok tt, fs')
    /\ (forall other, other <> session_dir session -> fs' !! other = fs !! other)
    /\ (forall speed, Player.open decode_record short1 fs' session speed = Some (Ok (Player.mk session records 0 speed)))
    /\ Regression.run encode_record decode_record rng short1 short2 fs' session seed = Some (Ok n).
Proof.
  intros records Hg Hn Hseg. set (fs0 := delete (session_dir session) fs).
  assert (fs0 !! session_dir session = None) as H0 by apply lookup_delete_eq.
  set (ops := ToolFacts.appends session 0 n ++ [Ledger.Flush]).
  assert (Ledger.appended ops = records) as Hops
    by (unfold ops; rewrite ToolFacts.appended_canonical; apply app_nil_r).
  assert (Forall (fun r => session_id r = session) (Ledger.appended ops)) as Hs
    by (rewrite Hops; apply Forall_fmap, Forall_true; done).
  rewrite <- Hops in Hg.
  assert (forall short, exists w1 fs1 w2 fs2,
    Ledger.performs encode_record ops (SegmentWriter.new DEFAULT_MAX_SEGMENT_BYTES, fs0) = (Ok tt, (w1, fs1))
    /\ SegmentWriter.close_active (w1, fs1) = (Ok tt, (w2, fs2))
    /\ SegmentReader.read_all decode_record short fs2 (SegmentReader.open_session fs2 session) = Some (Ok records)
    /\ (forall other, other <> session_dir session -> fs2 !! other = fs0 !! other)) as Hw.
  { intros short. destruct (session_written encode_record decode_record short DEFAULT_MAX_SEGMENT_BYTES session
      fs0 ops Hg H0 Hs Hseg) as (w1 & fs1 & w2 & fs2 & E1 & E2 & E3 & _ & E4).
    rewrite Hops in E3. by exists w1, fs1, w2, fs2. }
  destruct (Hw short1) as (w1 & fs1 & w2 & fs' & E & Ec & Hread1 & Ho).
  destruct (Hw short2) as (w1' & fs1' & w2' & fs'' & E' & Ec' & Hread2 & _).
  rewrite E in E'. injection E' as <- <-. rewrite Ec in Ec'. injection Ec' as <- <-.
  assert (forall fsx, delete (session_dir session) fsx = fs0 ->
    CanonicalSession.run encode_record text session n fsx = (Ok tt, fs')) as Hrun.
  { intros fsx Hx. unfold CanonicalSession.run. rewrite Hx.
    destruct (ToolFacts.loop_performs encode_record text session n 0
      (Recorder.new session DEFAULT_MAX_SEGMENT_BYTES) fs0 w1 fs1) as (r' & -> & Hw'); try done; [lia |].
    by rewrite Hw', Ec. }
  assert (forall short, SegmentReader.read_all decode_record short fs' (SegmentReader.open_session fs' session)
    = Some (Ok records) -> forall speed,
    Player.open decode_record short fs' session speed = Some (Ok (Player.mk session records 0 speed))) as Hopen.
  { intros short Hr speed. unfold Player.open, Player.from_records. rewrite Hr. unfold records.
    unfold CanonicalSession.records at 1. by rewrite ToolFacts.canonical_numbered. }
  exists fs'. split_and!.
  - by apply Hrun.
  - apply Hrun. apply map_eq. intros k. destruct (decide (k = session_dir session)) as [-> | Hk].
    + by rewrite lookup_delete_eq, H0.
    + rewrite lookup_delete_ne by done. by apply Ho.
  - intros other Hne. rewrite Ho by done. by apply lookup_delete_ne.
  - by apply Hopen.
  - unfold Regression.run. destruct (fs' !! session_dir session) eqn:Ef.
    + rewrite (ToolFacts.play_once_spec _ _ short1 _ _ _ records) by (by apply Hopen).
      rewrite (ToolFacts.play_once_spec _ _ short2 _ _ _ records) by (by apply Hopen).
      f_equal. apply ToolFacts.diff_streams_spec. split_and!; try done. cbn.
      unfold records, CanonicalSession.records. rewrite length_fmap, length_seqZ. lia.
    + exfalso. unfold SegmentReader.open_session in Hread1. rewrite Ef in Hread1.
      change (SegmentReader.read_all decode_record short1 fs' (SegmentReader.mk [] None 0)) with
        (Some (@Ok (list ReplayRecord) io_error [])) in Hread1. injection Hread1 as Hr.
      apply (f_equal length) in Hr. unfold records, CanonicalSession.records in Hr.
      rewrite length_fmap, length_seqZ in Hr. cbn in Hr. lia.
Qed.

(** A toy codec, five records, and reads that come whole in one run and byte by byte in the other. *)
Module ToolSample.
Definition encode (r : ReplayRecord) : list Z := [session_id r; sequence_no r].
Definition decode (l : list Z) : option ReplayRecord :=
  match l with [session; i] => Some (CanonicalSession.record_at session i) | _ => None end.
Definition fs : file_system := {["20251130" := {["seg-0001.rkyv" := [1; 2; 3]]}; "7" := ∅]}.
End ToolSample.

Lemma canonical_session_replays_witness :
  exists fs', CanonicalSession.run ToolSample.encode (fun _ => EmptyString) CanonicalSession.DEFAULT_SESSION_ID 5
      ToolSample.fs = (Ok tt, fs')
  /\ Regression.run ToolSample.encode ToolSample.decode (fun seed k => seed * Z.of_nat k) (fun _ _ => 3%nat)
      (fun _ _ => 0%nat) fs' CanonicalSession.DEFAULT_SESSION_ID 42 = Some (Ok 5%nat).
Proof.
  destruct (canonical_session_replays ToolSample.encode ToolSample.decode (fun _ => EmptyString)
    (fun seed k => seed * Z.of_nat k) (fun _ _ => 3%nat) (fun _ _ => 0%nat) ToolSample.fs
    CanonicalSession.DEFAULT_SESSION_ID 42 5) as (fs' & H1 & _ & _ & _ & H2).
  - repeat constructor; vm_compute; discriminate.
  - vm_compute. split; [reflexivity | discriminate].
  - vm_compute. reflexivity.
  - exists fs'. split; [exact H1 | exact H2].
Defined.
