(* ===== verification/UpstoxImport.v ===== *)
(** Historical candles as a recorded session (upstox-import.rs of hedge-demo-synth) and a recorded session
    as a table (export_csv.rs of hedge-signals).

    The calendar, the HTTP client and the JSON documents are parameters; [respond] is the reply to the
    [k]-th request. *)

From S2P Require Import UiJoin UiGateway UiFacts Prelude Ieee IeeeValue Bytes Core Schemas LiveRoute Wire Replay ReplaySegments ReplayPlayer.
From S2P Require Import ReplayCli.
From Stdlib Require Import Ascii.

(** ** Import *)

Module UpstoxImport.
Section import.
Context `{J : Json}.

Record UpstoxHistoricalResponse := mk_Response {
  status : string;
  candles : option (list (list Value));
}.
Definition no_data : UpstoxHistoricalResponse := mk_Response "error" None.

(** What becomes of a request: [Success None] is a body that is not the expected JSON. *)
Inductive Reply :=
| SendError
| HttpError (code : Z)
| Success (body : option UpstoxHistoricalResponse).

Context (respond : nat -> Reply).
(** [parse_from_rfc3339], then [timestamp_nanos_opt]. *)
Context (rfc3339 : string -> option (option Z)).
(** [format("%Y-%m-%d")] of a day. *)
Context (date_text : Z -> string).
Context (encode_record : ReplayRecord -> list Z).

Definition instrument_key (symbol : string) : string :=
  if existsb (Ascii.eqb "|"%char) (String.list_ascii_of_string symbol) then symbol
  else if decide (symbol = "RELIANCE") then "NSE_EQ|INE002A01018"
  else if decide (symbol = "HDFCBANK") then "NSE_EQ|INE040A01034"
  else if decide (symbol = "ICICIBANK") then "NSE_EQ|INE090A01021"
  else if decide (symbol = "SBIN") then "NSE_EQ|INE062A01020"
  else if decide (symbol = "TCS") then "NSE_EQ|INE467B01029"
  else "NSE_EQ|" +:+ symbol.

Definition url (symbol date_str : string) : string :=
  "https://api.upstox.com/v2/historical-candle/" +:+ instrument_key symbol +:+ "/1minute/"
  +:+ date_str +:+ "/" +:+ date_str.

(** The retry loop from the [k]-th request on: the body, and the number of requests made.  A server
    that limits the rate is asked again without end, hence the fuel. *)
Fixpoint fetch (fuel : nat) (k : nat) (retry_count : Z) : option (UpstoxHistoricalResponse * nat) :=
  match fuel with
  | O => None
  | S fuel =>
    match respond k with
    | SendError => if retry_count <? 3 then fetch fuel (S k) (retry_count + 1) else Some (no_data, S k)
    | HttpError code => if code =? 429 then fetch fuel (S k) retry_count else Some (no_data, S k)
    | Success (Some body) => Some (body, S k)
    | Success None => Some (no_data, S k)
    end
  end.

(** The candles of a body that has some, oldest first: the order of the text of their times. *)
Definition time_text (candle : list Value) : string := unwrap_or EmptyString (head candle ≫= as_str).
Definition earlier (a b : list Value) : Prop := String.le (time_text a) (time_text b).
#[global] Instance earlier_dec a b : Decision (earlier a b).
Proof. unfold earlier. apply _. Defined.
Definition usable (body : UpstoxHistoricalResponse) : option (list (list Value)) :=
  if decide (status body = "success")
  then sort_by earlier <$> candles body
  else None.

Definition price (candle : list Value) (k : nat) : f64 := unwrap_or f_zero (candle !! k ≫= as_f64).
Definition to_paise (x : f64) : Z := f_round_as_i64 (f64_mul x (f64_of_Z 100)).

(** The four prices of a candle, with its time. *)
Definition points (candle : list Value) : option (Z * list Z) :=
  if decide (length candle < 5)%nat then None
  else
    match rfc3339 (time_text candle) with
    | None => None
    | Some ns =>
      let open_paise := to_paise (price candle 1) in
      let high_paise := to_paise (price candle 2) in
      let low_paise := to_paise (price candle 3) in
      let close_paise := to_paise (price candle 4) in
      let '(mid1, mid2) := if close_paise >? open_paise then (low_paise, high_paise)
                           else (high_paise, low_paise) in
      Some (unwrap_or 0 ns, [open_paise; mid1; mid2; close_paise])
    end.

(** The same function as the one of the live feed. *)
Definition encode_tick_v1 : string -> Z -> Z -> Z -> Z -> option (list Z) := TickWire.encode_tick_v1.

(** The payload of the [i]-th point, and its time. *)
Definition tick (symbol : string) (ts_ns i p : Z) : option (list Z * Z) :=
  let tick_ts_ns := as_i64 (ts_ns + i * 15000000000) in
  let spread := Z.max (Z.quot p 2000) 5 in
  let bid := as_i64 (p - Z.quot spread 2) in
  let ask := as_i64 (p + Z.quot spread 2) in
  payload ← encode_tick_v1 symbol p bid ask tick_ts_ns;
  Some (payload, tick_ts_ns).

Definition candle_ticks (symbol : string) (candle : list Value) : list (list Z * Z) :=
  match points candle with
  | None => []
  | Some (ts_ns, points) => omap (fun x => x) (imap (fun i p => tick symbol ts_ns (Z.of_nat i) p) points)
  end.

Definition record_of (session_id sequence_no : Z) (t : list Z * Z) : ReplayRecord :=
  mk_ReplayRecord session_id sequence_no (as_u64 t.2) t.2 RecordKind.Tick t.1.

(** The writer with its disk, and the number of the next record. *)
Definition io := SE (SegmentWriter.world * Z) io_error.

Definition append (session_id : Z) (t : list Z * Z) : io unit := fun '(x, sequence_no) =>
  match SegmentWriter.append encode_record (record_of session_id sequence_no t) x with
  | (Ok _, x) => (Ok tt, (x, sequence_no + 1))
  | (Err e, x) => (Err e, (x, sequence_no))
  end.
Fixpoint append_ticks (session_id : Z) (ts : list (list Z * Z)) : io unit :=
  match ts with
  | [] => se_ret tt
  | t :: ts => (append session_id t ;? append_ticks session_id ts)%se
  end.

(** One body of a symbol. *)
Definition body_ticks (symbol : string) (body : UpstoxHistoricalResponse) : list (list Z * Z) :=
  match usable body with
  | None => []
  | Some l => concat (candle_ticks symbol <$> l)
  end.

(** The loops over days and symbols, as the list of their turns: what is written, and the
    requests made, each with its address once. *)
Fixpoint import_turns (fuel : nat) (session_id : Z) (turns : list (Z * string)) (k : nat)
  (x : SegmentWriter.world * Z) : option (result unit io_error * (SegmentWriter.world * Z) * list string) :=
  match turns with
  | [] => Some (Ok tt, x, [])
  | (day, symbol) :: turns =>
    '(body, k) ← fetch fuel k 0;
    let address := url symbol (date_text day) in
    match append_ticks session_id (body_ticks symbol body) x with
    | (Err e, x) => Some (Err e, x, [address])
    | (Ok _, x) =>
      '(res, x, addresses) ← import_turns fuel session_id turns k x;
      Some (res, x, address :: addresses)
    end
  end.

Definition turns (start_date end_date : Z) (symbols : list string) : list (Z * string) :=
  day ← seqZ start_date (end_date - start_date + 1); symbol ← symbols; [(day, symbol)].

(** From the parsed dates on, in the directory [./replay]: midnight of the first day names the session.
    The writer is flushed unless an append failed, and closed in any case. *)
Definition session_of (start_date : Z) : Z := as_u64 (start_date * 86400).
Definition import (fuel : nat) (start_date end_date : Z) (symbols : list string) (fs : file_system)
  : option (result Z io_error * file_system * list string) :=
  '(res, (x, sequence_no), addresses) ←
    import_turns fuel (session_of start_date) (turns start_date end_date symbols) 0
      (SegmentWriter.new DEFAULT_MAX_SEGMENT_BYTES, fs, 0);
  Some (match res with Ok _ => Ok sequence_no | Err e => Err e end,
        (SegmentWriter.close_active x).2.2, addresses).

Inductive Exit := Usage | BadStart | BadEnd | Done (res : result Z io_error).

(** [main]; [argv] is without the name of the program. *)
Definition main (parse_date : string -> option Z) (fuel : nat) (argv : list string) (fs : file_system)
  : option (Exit * file_system) :=
  match argv with
  | start_date_str :: end_date_str :: symbols =>
    if decide (symbols = []) then Some (Usage, fs)
    else match parse_date start_date_str with
    | None => Some (BadStart, fs)
    | Some start_date =>
      match parse_date end_date_str with
      | None => Some (BadEnd, fs)
      | Some end_date =>
        '(res, fs, _) ← import fuel start_date end_date symbols fs; Some (Done res, fs)
      end
    end
  | _ => Some (Usage, fs)
  end.

End import.
Arguments UpstoxHistoricalResponse {J}.
Arguments Reply {J}.
End UpstoxImport.

(** ** Export *)

Module CsvExport.

Definition allowed_stocks : list string :=
  ["Nifty 50"; "Nifty Bank"; "Nifty Next 50"; "Nifty Fin Service"; "Nifty 100";
   "RELIANCE"; "HDFCBANK"; "ICICIBANK"; "INFY"; "TCS";
   "ITC"; "LT"; "SBIN"; "BHARTIARTL"; "KOTAKBANK"].
Definition contains (sym_name s : string) : bool := is_some (String.index 0 s sym_name).

(** A row, before its time in seconds and its price are formatted. *)
Record Row := mk_Row { row_secs : Z; row_symbol : string; row_price : f64; row_volume : Z }.

Definition row (r : ReplayRecord) : option Row :=
  match kind r with
  | RecordKind.Tick =>
    match TickWire.csv_fields (payload r) with
    | None => None
    | Some (symbol_id, ltp_paise, ltq, ts_exchange_ns) =>
      let sym_name := unwrap_or EmptyString (SymbolTable.symbol_for_id symbol_id) in
      if existsb (contains sym_name) allowed_stocks
      then Some (mk_Row (as_i64 (ts_exchange_ns / 1000000000)) sym_name
                   (f64_div (f64_of_Z ltp_paise) (f64_of_Z 100)) ltq)
      else None
    end
  | _ => None
  end.

Definition rows (l : list ReplayRecord) : list Row := omap row l.

(** The file: [time_text] is the local time of a second, [price_text] is [{:.2}]. *)
Definition csv (time_text : Z -> string) (price_text : f64 -> string) (l : list ReplayRecord) : list string :=
  "timestamp,symbol,price,volume" ::
  ((fun r => time_text (row_secs r) +:+ "," +:+ row_symbol r +:+ "," +:+ price_text (row_price r) +:+ ","
             +:+ pretty (row_volume r)) <$> rows l).
End CsvExport.

(** ** Facts *)

Module ImportFacts.
Import UpstoxImport.

(** What a candle says: its time and its prices in paise. *)
Record Candle := mk_Candle { c_text : string; c_ns : Z; c_open : Z; c_high : Z; c_low : Z; c_close : Z }.

(** From the first price to the last, the extremes in the order the import chooses. *)
Definition path (c : Candle) : list Z :=
  if c_close c >? c_open c then [c_open c; c_low c; c_high c; c_close c]
  else [c_open c; c_high c; c_low c; c_close c].

Definition half_spread (p : Z) : Z := Z.quot (Z.max (Z.quot p 2000) 5) 2.
Definition tick_at (id ns i p : Z) : Tick :=
  let ts := ns + i * 15000000000 in
  mk_Tick (replicate 16 0) id 0 p (p - half_spread p) (p + half_spread p) 0 0 0 ts ts.
Definition candle_path (id : Z) (c : Candle) : list Tick :=
  imap (fun i p => tick_at id (c_ns c) (Z.of_nat i) p) (path c).
(** The ticks of the candles of one symbol; none for a symbol outside the table. *)
Definition ticks_of (symbol : string) (cs : list Candle) : list Tick :=
  let id := SymbolTable.symbol_id_for symbol in
  if id =? 0 then [] else concat (candle_path id <$> cs).

Definition in_range (c : Candle) : Prop :=
  Forall (fun p => Z.abs p < 2 ^ 49) [c_open c; c_high c; c_low c; c_close c]
  /\ 0 <= c_ns c /\ c_ns c + 45000000000 <= i64_max.

Definition written (t : Tick) : list Z * Z := (TickWire.tick_to_raw_bytes t, ts_recv_ns t).

Fixpoint number (session seq : Z) (ts : list (list Z * Z)) : list ReplayRecord :=
  match ts with
  | [] => []
  | t :: ts => record_of session seq t :: number session (seq + 1) ts
  end.

Lemma number_session session ts : forall seq, Forall (fun r => session_id r = session) (number session seq ts).
Proof. induction ts; intros seq; constructor; [done | auto]. Qed.

Lemma number_app session a b : forall seq,
  number session seq (a ++ b) = number session seq a ++ number session (seq + Z.of_nat (length a)) b.
Proof.
  induction a as [| t a IH]; intros seq; cbn [app number length]; [by rewrite Z.add_0_r |].
  rewrite IH. cbn [app]. by replace (seq + 1 + Z.of_nat (length a)) with (seq + Z.of_nat (S (length a))) by lia.
Qed.

Lemma number_checks session ts : forall seq, Player.check_sequence session seq (number session seq ts) = Ok tt.
Proof.
  induction ts as [| t ts IH]; intros seq; [done |]. cbn [number Player.check_sequence record_of sequence_no].
  rewrite Z.eqb_refl. apply IH.
Qed.

Section facts.
Context `{J : Json} (respond : nat -> Reply) (rfc3339 : string -> option (option Z)).
Context (date_text : Z -> string) (encode_record : ReplayRecord -> list Z).

(** A candle of the vendor that says [c], prices being the nearest binary64 of hundredths. *)
Definition quoted (z : Z) : f64 := f64_div (f64_of_Z z) (f64_of_Z 100).
Definition quotes (candle : list Value) (c : Candle) : Prop :=
  (5 <= length candle)%nat /\ time_text candle = c_text c /\ rfc3339 (c_text c) = Some (Some (c_ns c))
  /\ price candle 1 = quoted (c_open c) /\ price candle 2 = quoted (c_high c)
  /\ price candle 3 = quoted (c_low c) /\ price candle 4 = quoted (c_close c).

Lemma points_spec candle c : quotes candle c -> in_range c -> points rfc3339 candle = Some (c_ns c, path c).
Proof.
  intros (Hl & Ht & Hn & H1 & H2 & H3 & H4) [Hp _].
  rewrite !Forall_cons in Hp. destruct Hp as (P1 & P2 & P3 & P4 & _).
  unfold points. rewrite decide_False by lia. rewrite Ht, Hn, H1, H2, H3, H4. unfold to_paise, quoted.
  rewrite !f64_hundredth_and_back by done. unfold path. by destruct (c_close c >? c_open c).
Qed.

Lemma half_spread_bounds p : Z.abs p < 2 ^ 49 -> 2 <= half_spread p < 2 ^ 49.
Proof.
  intros Hp. unfold half_spread. set (s := Z.max (Z.quot p 2000) 5).
  assert (5 <= s < 2 ^ 49) as Hs.
  { unfold s. pose proof (Z.quot_abs p 2000 ltac:(lia)) as Ha. rewrite Z.quot_div_nonneg in Ha by lia.
    pose proof (Z.div_le_upper_bound (Z.abs p) (Z.abs 2000) (2 ^ 49 - 1)). lia. }
  rewrite Z.quot_div_nonneg by lia. split; [apply Z.div_le_lower_bound; lia |].
  apply Z.div_lt_upper_bound; lia.
Qed.

Lemma path_range c : in_range c -> Forall (fun p => Z.abs p < 2 ^ 49) (path c).
Proof.
  intros [Hp _]. rewrite !Forall_cons in Hp. destruct Hp as (P1 & P2 & P3 & P4 & _).
  unfold path. destruct (_ >? _); by repeat constructor.
Qed.

Lemma symbol_id_range symbol : 0 <= SymbolTable.symbol_id_for symbol <= 10.
Proof. unfold SymbolTable.symbol_id_for. repeat case_decide; lia. Qed.

Lemma tick_at_ok symbol ns i p : Z.abs p < 2 ^ 49 -> 0 <= i <= 3 -> 0 <= ns -> ns + 45000000000 <= i64_max ->
  TickWire.tick_ok (tick_at (SymbolTable.symbol_id_for symbol) ns i p).
Proof.
  intros Hp Hi H0 Hn. pose proof (half_spread_bounds p Hp). pose proof (symbol_id_range symbol).
  unfold TickWire.tick_ok, tick_at. cbn. split_and!; try done; unfold_ok; lia.
Qed.

Lemma tick_spec symbol ns i p : Z.abs p < 2 ^ 49 -> 0 <= i <= 3 -> 0 <= ns -> ns + 45000000000 <= i64_max ->
  tick symbol ns i p = if SymbolTable.symbol_id_for symbol =? 0 then None
    else Some (written (tick_at (SymbolTable.symbol_id_for symbol) ns i p)).
Proof.
  intros Hp Hi H0 Hn. pose proof (half_spread_bounds p Hp). unfold tick, encode_tick_v1. fold (half_spread p).
  rewrite !as_i64_id by (unfold_ok; lia).
  destruct (Z.eqb_spec (SymbolTable.symbol_id_for symbol) 0) as [E | E].
  - unfold TickWire.encode_tick_v1. rewrite E. reflexivity.
  - rewrite encode_tick_v1_spec by done. rewrite as_u64_id by (unfold_ok; lia). reflexivity.
Qed.

Lemma candle_ticks_spec symbol candle c : quotes candle c -> in_range c ->
  candle_ticks rfc3339 symbol candle = written <$> ticks_of symbol [c].
Proof.
  intros Hq Hr. unfold candle_ticks. rewrite (points_spec _ _ Hq Hr). unfold ticks_of.
  cbn [fmap list_fmap concat]. rewrite app_nil_r. unfold candle_path.
  pose proof (path_range c Hr) as Hp. destruct Hr as (_ & H0 & Hn).
  assert (length (path c) = 4%nat) as Hl by (unfold path; by destruct (_ >? _)).
  destruct (path c) as [| p0 [| p1 [| p2 [| p3 [| ? ?]]]]]; try done.
  rewrite !Forall_cons in Hp. destruct Hp as (P0 & P1 & P2 & P3 & _).
  cbn [imap fmap list_fmap concat]. unfold compose. rewrite !tick_spec by (done || cbn; lia).
  by destruct (_ =? 0).
Qed.

Lemma ticks_of_cons symbol c cs : ticks_of symbol (c :: cs) = ticks_of symbol [c] ++ ticks_of symbol cs.
Proof. unfold ticks_of. destruct (_ =? 0); [done |]. cbn. by rewrite app_nil_r. Qed.

Lemma body_ticks_spec symbol l cs : Forall2 quotes l cs -> Forall in_range cs ->
  concat (candle_ticks rfc3339 symbol <$> l) = written <$> ticks_of symbol cs.
Proof.
  induction 1 as [| v c l cs Hq _ IH]; intros Hr.
  - unfold ticks_of. by destruct (_ =? 0).
  - apply Forall_cons in Hr as [Hr1 Hr2]. rewrite ticks_of_cons, fmap_app, <- IH by done.
    cbn [fmap list_fmap concat]. by rewrite (candle_ticks_spec symbol v c).
Qed.

Lemma ticks_of_ok symbol cs : Forall in_range cs -> Forall (fun t => TickWire.tick_ok t
  /\ tk_symbol t = SymbolTable.symbol_id_for symbol /\ SymbolTable.symbol_id_for symbol <> 0 /\ ltq t = 0)
  (ticks_of symbol cs).
Proof.
  intros Hr. unfold ticks_of. destruct (Z.eqb_spec (SymbolTable.symbol_id_for symbol) 0) as [| Hne]; [constructor |].
  apply Forall_concat, Forall_fmap. eapply Forall_impl; [exact Hr |]. intros c Hc.
  pose proof (path_range c Hc) as Hp. destruct Hc as (_ & H0 & Hn).
  assert (length (path c) = 4%nat) as Hl by (unfold path; by destruct (_ >? _)).
  cbn. unfold candle_path. apply Forall_lookup. intros i t Ht. rewrite list_lookup_imap in Ht.
  destruct (path c !! i) as [p |] eqn:Hi; [| done]. injection Ht as <-.
  pose proof (lookup_lt_Some _ _ _ Hi). pose proof (proj1 (Forall_lookup _ _) Hp i p Hi).
  split_and!; try done. apply tick_at_ok; lia || done.
Qed.

(** *** What is written *)

Lemma performs_app ops1 ops2 : forall x x', Ledger.performs encode_record (ops1 ++ ops2) x = (Ok tt, x') ->
  exists x1, Ledger.performs encode_record ops1 x = (Ok tt, x1)
    /\ Ledger.performs encode_record ops2 x1 = (Ok tt, x').
Proof.
  induction ops1 as [| o ops1 IH]; intros x x' H; [by exists x |].
  cbn [app Ledger.performs] in H. unfold se_bind in H. cbn [Ledger.performs]. unfold se_bind.
  destruct (Ledger.perform encode_record o x) as [[u | e] x1]; [| done].
  by apply IH.
Qed.

Lemma append_ticks_performs session ts : forall seq x x',
  Ledger.performs encode_record (Ledger.Append <$> number session seq ts) x = (Ok tt, x') ->
  append_ticks encode_record session ts (x, seq) = (Ok tt, (x', seq + Z.of_nat (length ts))).
Proof.
  induction ts as [| t ts IH]; intros seq x x' H.
  - injection H as <-. cbn. by rewrite Z.add_0_r.
  - cbn [number fmap list_fmap Ledger.performs Ledger.perform] in H. unfold se_bind, se_ret in H.
    cbn [append_ticks]. unfold se_bind, append.
    destruct (SegmentWriter.append encode_record _ x) as [[p | e] x1]; [| done].
    rewrite (IH _ _ _ H). cbn [length]. by replace (seq + 1 + Z.of_nat (length ts)) with (seq + Z.of_nat (S (length ts))) by lia.
Qed.

(** The bodies the turns receive. *)
Fixpoint fetched (fuel : nat) (turns : list (Z * string)) (k : nat)
  : option (list (string * UpstoxHistoricalResponse)) :=
  match turns with
  | [] => Some []
  | (_, symbol) :: turns =>
    '(body, k) ← fetch respond fuel k 0; bodies ← fetched fuel turns k; Some ((symbol, body) :: bodies)
  end.
Definition all_ticks (bodies : list (string * UpstoxHistoricalResponse)) : list (list Z * Z) :=
  concat ((fun b => body_ticks rfc3339 b.1 b.2) <$> bodies).

Lemma import_turns_writes fuel session ts : forall k bodies seq x x', fetched fuel ts k = Some bodies ->
  Ledger.performs encode_record (Ledger.Append <$> number session seq (all_ticks bodies)) x = (Ok tt, x') ->
  import_turns respond rfc3339 date_text encode_record fuel session ts k (x, seq)
  = Some (Ok tt, (x', seq + Z.of_nat (length (all_ticks bodies))),
          (fun t => url t.2 (date_text t.1)) <$> ts).
Proof.
  induction ts as [| [day symbol] ts IH]; intros k bodies seq x x' Hf Hp.
  - injection Hf as <-. injection Hp as <-. cbn. by rewrite Z.add_0_r.
  - cbn [fetched] in Hf. cbn [import_turns]. destruct (fetch respond fuel k 0) as [[body k'] |]; [| done].
    cbn [mbind option_bind] in Hf |- *. destruct (fetched fuel ts k') as [bodies' |] eqn:Hf'; [| done].
    cbn [mbind option_bind] in Hf. injection Hf as <-.
    change (all_ticks ((symbol, body) :: bodies')) with (body_ticks rfc3339 symbol body ++ all_ticks bodies') in Hp |- *.
    rewrite number_app, fmap_app in Hp. apply performs_app in Hp as (x1 & Hp1 & Hp2).
    rewrite (append_ticks_performs _ _ _ _ _ Hp1).
    rewrite (IH _ _ _ _ _ Hf' Hp2). cbn [mbind option_bind fmap list_fmap fst snd].
    rewrite length_app. do 4 f_equal. lia.
Qed.
End facts.

(** A name that can be a token of a subject: NATS subjects have no spaces. *)
Definition spaceless (s : string) : bool := negb (CsvExport.contains s " ").

(** What the feature engine decodes of the bus: the binary ticks. A subject with a space is none the bus
    carries, and counts as not heard. *)
Definition engine_hears (p : ReplayCli.Publication) : option Tick :=
  if spaceless p.1 && String.prefix "md.tick.bin." p.1 then TickWire.decode_tick p.2 else None.

Lemma known_symbol symbol : SymbolTable.symbol_id_for symbol <> 0 ->
  SymbolTable.symbol_for_id (SymbolTable.symbol_id_for symbol) = Some symbol
  /\ spaceless ("md.tick.bin." +:+ symbol) = spaceless symbol
  /\ String.prefix "md.tick.bin." ("md.tick." +:+ symbol) = false
  /\ existsb (CsvExport.contains symbol) CsvExport.allowed_stocks = true.
Proof. unfold SymbolTable.symbol_id_for. intros H. repeat case_decide; subst; by vm_compute. Qed.

(** A tick of a known symbol without spaces, and without a quantity, as the import writes them. *)
Definition importable (t : Tick) : Prop :=
  TickWire.tick_ok t /\ tk_symbol t <> 0 /\ ltq t = 0
  /\ exists symbol, tk_symbol t = SymbolTable.symbol_id_for symbol /\ spaceless symbol = true.

Lemma ticks_of_importable symbol cs : spaceless symbol = true -> Forall in_range cs ->
  Forall importable (ticks_of symbol cs).
Proof.
  intros Hsp Hr. eapply Forall_impl; [by apply ticks_of_ok |]. intros t (H1 & H2 & H3 & H4).
  split_and!; try done; [by rewrite H2 | by exists symbol].
Qed.

(** A record is heard as its tick, and exported as a row without volume. *)
Lemma record_heard to_vec session seq t : importable t ->
  omap engine_hears (ReplayCli.publications to_vec (record_of session seq (written t))) = [t]
  /\ CsvExport.row (record_of session seq (written t)) =
     (fun symbol => CsvExport.mk_Row (as_i64 (ts_exchange_ns t / 1000000000)) symbol
        (f64_div (f64_of_Z (ltp_paise t)) (f64_of_Z 100)) 0) <$> SymbolTable.symbol_for_id (tk_symbol t).
Proof.
  intros (Ht & H0 & Hq & symbol & Hs & Hsp). rewrite Hs in H0. destruct (known_symbol symbol H0) as (H1 & H1' & H2 & H3).
  unfold ReplayCli.publications, CsvExport.row, ReplayCli.tick_publications, written, record_of.
  cbn [kind payload ReplayCli.subject fst]. rewrite replay_reads, csv_reads by done. rewrite Hs, H1, Hq. cbn [unwrap_or].
  rewrite H3. split; [| done]. cbn [omap list_omap]. unfold engine_hears. cbn [fst snd].
  rewrite H2, andb_false_r, H1', Hsp. assert (String.prefix "md.tick.bin." ("md.tick.bin." +:+ symbol) = true) as -> by (by destruct symbol).
  by rewrite tick_decode.
Qed.

(** The same for a symbol with a space: no subject of the record is heard. *)
Lemma unheard to_vec session seq t symbol : TickWire.tick_ok t -> tk_symbol t = SymbolTable.symbol_id_for symbol ->
  SymbolTable.symbol_id_for symbol <> 0 -> spaceless symbol = false ->
  omap engine_hears (ReplayCli.publications to_vec (record_of session seq (written t))) = [].
Proof.
  intros Ht Hs H0 Hsp. destruct (known_symbol symbol H0) as (H1 & H1' & H2 & _).
  unfold ReplayCli.publications, ReplayCli.tick_publications, written, record_of.
  cbn [kind payload ReplayCli.subject fst]. rewrite replay_reads by done. rewrite Hs, H1. cbn [unwrap_or].
  cbn [omap list_omap]. unfold engine_hears. cbn [fst snd]. by rewrite H2, andb_false_r, H1', Hsp.
Qed.

Lemma session_heard_as_ticks to_vec session ts : forall seq, Forall importable ts ->
  omap engine_hears (ReplayCli.published to_vec (number session seq (written <$> ts))) = ts
  /\ length (CsvExport.rows (number session seq (written <$> ts))) = length ts
  /\ Forall (fun r => CsvExport.row_volume r = 0) (CsvExport.rows (number session seq (written <$> ts))).
Proof.
  induction ts as [| t ts IH]; intros seq Ht; [by repeat constructor |].
  apply Forall_cons in Ht as [Ht Hts]. destruct (IH (seq + 1) Hts) as (IH1 & IH2 & IH3).
  destruct (record_heard to_vec session seq t Ht) as [Hh Hrow].
  destruct Ht as (_ & H0 & _ & symbol & Hs & _). rewrite Hs in H0, Hrow.
  rewrite (proj1 (known_symbol symbol H0)) in Hrow. cbn [fmap option_fmap option_map] in Hrow.
  cbn [fmap list_fmap number].
  change (ReplayCli.published to_vec (?r :: ?l)) with (ReplayCli.publications to_vec r ++ ReplayCli.published to_vec l).
  split; [unfold ReplayCli.published in *; cbn [fmap list_fmap concat]; by rewrite omap_app, Hh, IH1 |].
  unfold CsvExport.rows in *. cbn [omap list_omap]. rewrite Hrow. cbn [length].
  split; [by rewrite IH2 | by constructor].
Qed.

(** The symbols of the turns are those asked for. *)
Lemma fetched_symbols `{J : Json} respond fuel P start_date end_date symbols k bodies : Forall P symbols ->
  fetched respond fuel (turns start_date end_date symbols) k = Some bodies -> Forall (fun b => P b.1) bodies.
Proof.
  intros Hp. assert (Forall (fun t => P t.2) (turns start_date end_date symbols)) as Ht.
  { unfold turns. apply Forall_bind, Forall_true. intros day. apply Forall_bind.
    eapply Forall_impl; [exact Hp |]. intros s Hs. by constructor. }
  revert Ht k bodies. generalize (turns start_date end_date symbols). intros ts.
  induction ts as [| [day s] ts IH]; intros Ht k bodies Hf; cbn [fetched] in Hf; [by injection Hf as <- |].
  apply Forall_cons in Ht as [Hs Ht]. apply bind_Some in Hf as ([body k'] & _ & Hf).
  apply bind_Some in Hf as (bodies' & Hf & [= <-]). constructor; [exact Hs | by apply (IH Ht k')].
Qed.
End ImportFacts.

(** C15: Candles become ticks of the recorded session. An import into a fresh session, whatever retries its
    requests took, writes for every candle the vendor quotes in whole paise the four ticks of its path,
    oldest candle first, a quarter of a minute apart, symbol by symbol and day by day; the player opens
    what was written, and played back to the bus it is heard by the feature engine as exactly these
    ticks. The exported table has a row for each of them, all without volume. The symbols imported are
    ones without a space in their names: a playback names its subjects after them, and a subject has no
    spaces (the table's indices have, see [index_ticks_go_unheard]). *)
Theorem imported_candles_reach_the_engines `{J : Json} (respond : nat -> UpstoxImport.Reply)
  (rfc3339 : string -> option (option Z)) (date_text : Z -> string)
  (encode_record : ReplayRecord -> list Z) (decode_record : list Z -> option ReplayRecord)
  (short : string -> nat -> nat) (to_vec : ReplayCli.TickDoc -> list Z)
  (fuel : nat) (start_date end_date : Z) (symbols : list string) (fs : file_system)
  (bodies : list (string * UpstoxImport.UpstoxHistoricalResponse)) (css : list (list ImportFacts.Candle)) :
  let session := UpstoxImport.session_of start_date in
  let ticks := concat (zip_with (fun b cs => ImportFacts.ticks_of b.1 cs) bodies css) in
  let records := ImportFacts.number session 0 (ImportFacts.written <$> ticks) in
  Forall (fun symbol => ImportFacts.spaceless symbol = true) symbols ->
  ImportFacts.fetched respond fuel (UpstoxImport.turns start_date end_date symbols) 0 = Some bodies ->
  Forall2 (fun b cs => Forall2 (ImportFacts.quotes rfc3339) (unwrap_or [] (UpstoxImport.usable b.2)) cs) bodies css ->
  Forall (Forall ImportFacts.in_range) css ->
  fs !! session_dir session = None -> Forall (ReadBack.good encode_record decode_record) records ->
  Z.of_nat (length (Ledger.all (Ledger.segment encode_record DEFAULT_MAX_SEGMENT_BYTES
    (Ledger.Append <$> records)))) < 10000 ->
  exists fs' player,
    UpstoxImport.import respond rfc3339 date_text encode_record fuel start_date end_date symbols fs
      = Some (Ok (Z.of_nat (length ticks)), fs',
          (fun t => UpstoxImport.url t.2 (date_text t.1)) <$> UpstoxImport.turns start_date end_date symbols)
    /\ Player.open decode_record short fs' session ReplaySpeed.X1 = Some (Ok player)
    /\ omap ImportFacts.engine_hears (ReplayCli.published to_vec (Player.pl_records player)) = ticks
    /\ length (CsvExport.rows (Player.pl_records player)) = length ticks
    /\ Forall (fun r => CsvExport.row_volume r = 0) (CsvExport.rows (Player.pl_records player)).
Proof.
  intros session ticks records Hsp Hf Hq Hr Hfresh Hgood Hseg.
  pose proof (ImportFacts.fetched_symbols _ _ _ _ _ _ _ _ Hsp Hf) as Hsb.
  assert (ImportFacts.all_ticks rfc3339 bodies = ImportFacts.written <$> ticks
    /\ Forall ImportFacts.importable ticks) as [Hall Himp].
  { unfold ticks, ImportFacts.all_ticks. clear - Hq Hr Hsb. induction Hq as [| [symbol body] cs bodies css Hb _ IH]; [by split |].
    apply Forall_cons in Hr as [Hr1 Hr2]. apply Forall_cons in Hsb as [Hsb1 Hsb2]. destruct (IH Hr2 Hsb2) as [IH1 IH2].
    cbn [zip_with concat fmap list_fmap fst snd]. rewrite fmap_app, <- IH1. split.
    - f_equal. unfold UpstoxImport.body_ticks. cbn [snd] in Hb.
      rewrite <- (ImportFacts.body_ticks_spec rfc3339 symbol _ cs Hb Hr1).
      by destruct (UpstoxImport.usable body).
    - apply Forall_app. split; [by apply ImportFacts.ticks_of_importable | done]. }
  assert (Ledger.appended (Ledger.Append <$> records) = records) as Happ.
  { unfold Ledger.appended. generalize records. intros l. induction l as [| r l IH]; [done |]. csimpl. by rewrite IH. }
  destruct (session_written encode_record decode_record short DEFAULT_MAX_SEGMENT_BYTES session fs
    (Ledger.Append <$> records)) as (w1 & fs1 & w2 & fs2 & E & Ec & Hread & _ & _);
    [by rewrite Happ | done | rewrite Happ; apply ImportFacts.number_session | done |].
  rewrite Happ in Hread. unfold records in E. rewrite <- Hall in E.
  pose proof (ImportFacts.import_turns_writes respond rfc3339 date_text encode_record fuel session _ 0 bodies 0 _ _ Hf E) as Hi.
  destruct (ImportFacts.session_heard_as_ticks to_vec session ticks 0 Himp) as (Hh & Hlen & Hvol).
  exists fs2, (Player.mk session records 0 ReplaySpeed.X1). split_and!.
  - refine (eq_trans (f_equal (mbind _) Hi) _). cbn [mbind option_bind].
    rewrite Ec, Hall, length_fmap. done.
  - unfold Player.open, Player.from_records. rewrite Hread. unfold records. by rewrite ImportFacts.number_checks.
  - exact Hh.
  - exact Hlen.
  - exact Hvol.
Qed.

(** One day of RELIANCE, its candles newest first and the third request the first to be answered, and of
    a symbol the vendor does not know. *)
Module ImportSample.
Import UiSample.
Definition candle (time : string) (o h l c : Z) : list (Value (Json := json)) :=
  [JStr time; JNum o; JNum h; JNum l; JNum c; JNum 12345].
Definition body : UpstoxImport.UpstoxHistoricalResponse :=
  UpstoxImport.mk_Response "success" (Some [candle "09:16" 1001 1003 999 1000; candle "09:15" 1000 1002 998 1001]).
Definition respond (k : nat) : UpstoxImport.Reply :=
  match k with
  | 0%nat => UpstoxImport.SendError
  | 1%nat => UpstoxImport.HttpError 429
  | 2%nat => UpstoxImport.Success (Some body)
  | _ => UpstoxImport.HttpError 404
  end.
Definition rfc3339 (s : string) : option (option Z) :=
  if decide (s = "09:15") then Some (Some 0) else if decide (s = "09:16") then Some (Some 60000000000) else None.
Definition candles : list ImportFacts.Candle :=
  [ImportFacts.mk_Candle "09:15" 0 100000 100200 99800 100100;
   ImportFacts.mk_Candle "09:16" 60000000000 100100 100300 99900 100000].
Definition ticks : list Tick := ImportFacts.ticks_of "RELIANCE" candles.
Definition encode (r : ReplayRecord) : list Z := [sequence_no r].
Definition decode (l : list Z) : option ReplayRecord :=
  match l with
  | [k] => ImportFacts.number 86400 0 (ImportFacts.written <$> ticks) !! Z.to_nat k
  | _ => None
  end.
Definition import := UpstoxImport.import respond rfc3339 pretty encode 5 1 1 ["RELIANCE"; "TCS"] ∅.
End ImportSample.

Lemma imported_candles_reach_the_engines_witness : exists fs' player,
  ImportSample.import = Some (Ok 8, fs',
    ["https://api.upstox.com/v2/historical-candle/NSE_EQ|INE002A01018/1minute/1/1";
     "https://api.upstox.com/v2/historical-candle/NSE_EQ|INE467B01029/1minute/1/1"])
  /\ Player.open ImportSample.decode (fun _ _ => 0%nat) fs' 86400 ReplaySpeed.X1 = Some (Ok player)
  /\ ltp_paise <$> omap ImportFacts.engine_hears
       (ReplayCli.published (fun d => [ReplayCli.td_ltp_paise d]) (Player.pl_records player))
     = [100000; 99800; 100200; 100100; 100100; 100300; 99900; 100000].
Proof.
  destruct (imported_candles_reach_the_engines (J := UiSample.json) ImportSample.respond ImportSample.rfc3339 pretty
    ImportSample.encode ImportSample.decode (fun _ _ => 0%nat) (fun d => [ReplayCli.td_ltp_paise d]) 5 1 1
    ["RELIANCE"; "TCS"] ∅ [("RELIANCE", ImportSample.body); ("TCS", UpstoxImport.no_data)]
    [ImportSample.candles; []]) as (fs' & player & H1 & H2 & H3 & _).
  - repeat constructor; vm_compute; reflexivity.
  - reflexivity.
  - repeat constructor; vm_compute; reflexivity || (repeat constructor).
  - repeat constructor; vm_compute; discriminate.
  - reflexivity.
  - vm_compute. repeat constructor; discriminate.
  - vm_compute. reflexivity.
  - exists fs', player. split_and!; [exact H1 | exact H2 |]. rewrite H3. vm_compute. reflexivity.
Defined.

(** The symbols 6 to 10 of the table are indices with a space in their names, and so have the subjects
    their imported ticks are played back on: none the bus carries. *)
Lemma index_ticks_go_unheard to_vec session seq cs : Forall ImportFacts.in_range cs ->
  Forall (fun id => exists symbol, SymbolTable.symbol_for_id id = Some symbol
    /\ SymbolTable.symbol_id_for symbol = id /\ ImportFacts.ticks_of symbol cs = concat (ImportFacts.candle_path id <$> cs)
    /\ Forall (fun t => omap ImportFacts.engine_hears
         (ReplayCli.publications to_vec (UpstoxImport.record_of session seq (ImportFacts.written t))) = [])
         (ImportFacts.ticks_of symbol cs)) [6; 7; 8; 9; 10].
Proof.
  intros Hr.
  assert (forall symbol, SymbolTable.symbol_id_for symbol <> 0 -> ImportFacts.spaceless symbol = false ->
    Forall (fun t => omap ImportFacts.engine_hears
      (ReplayCli.publications to_vec (UpstoxImport.record_of session seq (ImportFacts.written t))) = [])
      (ImportFacts.ticks_of symbol cs)) as H.
  { intros symbol H0 Hsp. eapply Forall_impl; [by apply ImportFacts.ticks_of_ok |].
    intros t (Ht & Hs & _ & Hq). by apply (ImportFacts.unheard _ _ _ _ symbol). }
  repeat (apply Forall_cons; split; [eexists; split; [reflexivity | split; [vm_compute; reflexivity | split; [reflexivity |]]];
    apply H; [vm_compute; discriminate | vm_compute; reflexivity] |]). by apply Forall_nil.
Qed.

(** A server that limits the rate is asked again for ever: no number of requests ends the import of a
    day it never answers. *)
Lemma rate_limit_is_retried_without_end `{J : Json} (respond : nat -> UpstoxImport.Reply) k n fuel :
  (forall i, (k <= i)%nat -> respond i = UpstoxImport.HttpError 429) ->
  UpstoxImport.fetch respond fuel k n = None.
Proof.
  revert k. induction fuel as [| fuel IH]; intros k H; [done |]. cbn. rewrite (H k) by lia. cbn.
  apply IH. intros i Hi. apply H. lia.
Qed.

(** The candles are put in the order of their times, whatever order the vendor lists them in. *)
Lemma usable_candles_sorted `{J : Json} (body : UpstoxImport.UpstoxHistoricalResponse) l :
  UpstoxImport.usable body = Some l ->
  StronglySorted UpstoxImport.earlier l /\ exists given, UpstoxImport.candles body = Some given /\ l ≡ₚ given.
Proof.
  unfold UpstoxImport.usable. intros H. case_decide; [| done].
  destruct (UpstoxImport.candles body) as [given |]; [| done]. injection H as <-.
  split; [| exists given; split; [done | apply sort_by_perm]].
  apply sort_by_sorted.
  - intros a b. unfold UpstoxImport.earlier. apply (total String.le).
  - intros a b c. unfold UpstoxImport.earlier. apply transitivity.
Qed.

(** A failed connection is tried four times. *)
Lemma send_errors_are_bounded `{J : Json} (respond : nat -> UpstoxImport.Reply) k :
  (forall i, (k <= i < k + 4)%nat -> respond i = UpstoxImport.SendError) ->
  forall fuel, UpstoxImport.fetch respond (4 + fuel) k 0 = Some (UpstoxImport.no_data, (k + 4)%nat).
Proof.
  intros H fuel. cbn [Nat.add UpstoxImport.fetch]. rewrite !H by lia. cbn. f_equal. f_equal. lia.
Qed.
