(* ===== verification/Services.v ===== *)
(** The services around the three analysis engines as they are deployed (bin/main.rs of hedge-features,
    hedge-signals and hedge-orderflow): the loops over their subscriptions, with what each message makes
    them publish. ServiceFacts.v puts them together over the bus.

    A subscription is the list of the messages it receives.  Connections and the environment are not
    modelled, nor are the traces of latency; parsing JSON is a parameter. *)

From S2P Require Import UiJoin Prelude Ieee Bytes Core Schemas Bus Features LiveRoute Wire Signals.
From S2P Require Import OrderFlow OrderFlowDetector OrderFlowEngine.

(** What is handed to the client: subject and bytes. *)
Abbreviation Publication := (string * list Z)%type.

(** ** The feature service *)

Module FeatureService.
Section service.
Context (ln : f64 -> f64).

(** [ingest_tick]; a failure to publish is only reported. *)
Definition ingest_tick (m : states) (t : Tick) : list Publication * states :=
  let '(snap, m) := process_tick ln m t in
  ([(Subjects.feat_update (fs_symbol snap), FeatureWire.encode snap)], m).

(** One message of [md.tick.bin.>]. *)
Definition on_message (m : states) (bytes : list Z) : list Publication * states :=
  match TickWire.decode_tick bytes with
  | Some t => ingest_tick m t
  | None => ([], m)
  end.

Fixpoint run (m : states) (inbox : list (list Z)) : list Publication * states :=
  match inbox with
  | [] => ([], m)
  | bytes :: inbox =>
    let '(out, m) := on_message m bytes in
    let '(outs, m) := run m inbox in (out ++ outs, m)
  end.
End service.
End FeatureService.

(** ** The signal service *)

Module SignalService.

(** The messages of the two tasks, in the order in which they reach the engine: [deliver] is what
    becomes of the signals published for a snapshot. *)
Inductive message :=
| Snapshot (bytes : list Z) (deliver : Signal -> SignalEngine.Delivery)
| WarModeStart (doc : list Z)
| WarModeEnd (doc : list Z).

(** [armed]: whether the task of the two war-mode subscriptions is running. *)
Record t := mk { engine : SignalEngine.t; armed : bool }.
Definition start : t := mk SignalEngine.new_default true.

Section service.
Context (from_slice : list Z -> option SignalEngine.WarModePayload).

(** The task ends at the first document it cannot decode. *)
Definition on_warmode (s : t) (doc : list Z)
  (apply : SignalEngine.t -> SignalEngine.WarModePayload -> SignalEngine.t) : t :=
  if armed s then
    match from_slice doc with
    | Some p => mk (apply (engine s) p) true
    | None => mk (engine s) false
    end
  else s.

Definition publication (sig : Signal) : Publication := (Subjects.SIG_EMITTED, SignalWire.encode_signal sig).

Definition step (s : t) (m : message) : list Publication * t :=
  match m with
  | Snapshot bytes deliver =>
    match FeatureWire.decode_feature_snapshot bytes with
    | Some snap => (publication <$> (SignalEngine.ingest_feature_snapshot deliver (engine s) snap).1, s)
    | None => ([], s)
    end
  | WarModeStart doc => ([], on_warmode s doc SignalEngine.on_warmode_start)
  | WarModeEnd doc => ([], on_warmode s doc SignalEngine.on_warmode_end)
  end.

Fixpoint run (s : t) (ms : list message) : list Publication * t :=
  match ms with
  | [] => ([], s)
  | m :: ms => let '(out, s) := step s m in let '(outs, s) := run s ms in (out ++ outs, s)
  end.
End service.
End SignalService.

(** ** The order-flow service *)

Module OrderflowService.
Section service.
Context `{J : Json} (as_u64 : Value -> option Z) (from_slice : list Z -> option Value).

(** A message of one of the two loops; [clock_ts] and [clock_now] are the readings of the clock for a
    book without a time, and for the engine. *)
Inductive message :=
| BookDoc (doc : list Z) (clock_ts clock_now : Z)
| TickBytes (bytes : list Z).

(** What is published, before it is serialised; failures to publish are ignored. *)
Inductive output :=
| Heatmap (subject : string) (h : HeatmapSnapshot.t)
| Event (subject : string) (e : OrderflowEvent.t).

Definition fields_of (envelope : Value) (clock_ts : Z) : option BookFields :=
  data ← jget envelope "data";
  symbol_str ← jget data "symbol" ≫= as_str;
  Some (mk_BookFields (SymbolTable.symbol_id_for symbol_str)
    (unwrap_or 0 (jget data "bid_paise" ≫= UiJoin.as_i64)) (unwrap_or 0 (jget data "bid_qty" ≫= as_u64))
    (unwrap_or 0 (jget data "ask_paise" ≫= UiJoin.as_i64)) (unwrap_or 0 (jget data "ask_qty" ≫= as_u64))
    (unwrap_or clock_ts (jget data "ts_ns" ≫= as_u64))).

(** The heatmap of the symbol, then the events. *)
Definition outputs (e : OrderflowEngine.t) (symbol : Z) (snap : OrderflowSnapshot) : list output :=
  match OrderflowEngine.current_heatmap e symbol with
  | Some h => [Heatmap (Subjects.of_heatmap symbol) h]
  | None => []
  end ++ (Event (Subjects.of_event symbol) <$> BoundedEvents.as_slice (events snap)).

(** [None] ends the loop, and with it the service: a book that is not JSON. *)
Definition step (e : OrderflowEngine.t) (m : message) : option (list output * OrderflowEngine.t) :=
  match m with
  | BookDoc doc clock_ts clock_now =>
    envelope ← from_slice doc;
    Some match fields_of envelope clock_ts with
         | None => ([], e)
         | Some f =>
           let '(snap, e) := handle_book_message e f clock_now in
           (match snap with Some snap => outputs e (f_symbol_id f) snap | None => [] end, e)
         end
  | TickBytes bytes =>
    Some match TickWire.orderflow_decode bytes with
         | None => ([], e)
         | Some tick =>
           let '(snap, e) := OrderflowEngine.ingest_tick e tick (ts_recv_ns tick) in
           (outputs e (tk_symbol tick) snap, e)
         end
  end.

(** What is published until the service ends or the messages do, and the engine if it has not ended. *)
Fixpoint run (e : OrderflowEngine.t) (ms : list message) : list output * option OrderflowEngine.t :=
  match ms with
  | [] => ([], Some e)
  | m :: ms =>
    match step e m with
    | None => ([], None)
    | Some (out, e) => let '(outs, e) := run e ms in (out ++ outs, e)
    end
  end.
End service.
End OrderflowService.
