(* ===== verification/ServiceFacts.v ===== *)
(** What the deployed analysis services can say, and to whom (Services.v put together over the bus): the
    feature service keeps one history per symbol; on the feeds' ticks, which carry no volume, only two
    strategies can signal; no signal of the signal service is one the risk service can read; and the
    order-flow service reports on books alone. *)

From S2P Require Import UiJoin UiGateway UiFacts Prelude Ieee IeeeRatio Bytes Core Schemas Bus Features FeatureFacts LiveRoute Wire Signals SignalFacts.
From S2P Require Import Services OrderFlow OrderFlowDetector OrderFlowEngine BrokerApi KillSwitch RiskTables Approval Config Decision RiskEngine RiskService Pipeline.

(** ** The feature service keeps one history per symbol *)

Module FeatureHistory.
Section history.
Context (ln : f64 -> f64).

Definition history (ts : list Tick) (symbol : Z) : list Tick := filter (fun t => tk_symbol t = symbol) ts.

(** The snapshot of a tick that comes after [past]: the one of its symbol's history. *)
Definition snapshot_of (past : list Tick) (t : Tick) : FeatureSnapshot :=
  feature_snapshot (Batch.run ln (history past (tk_symbol t) ++ [t])) t.
Fixpoint snapshots (past ts : list Tick) : list FeatureSnapshot :=
  match ts with
  | [] => []
  | t :: ts => snapshot_of past t :: snapshots (past ++ [t]) ts
  end.
Definition publication (s : FeatureSnapshot) : Publication :=
  (Subjects.feat_update (fs_symbol s), FeatureWire.encode s).

Definition tracks (m : states) (past : list Tick) : Prop :=
  forall symbol, state_of m symbol = Batch.run ln (history past symbol).

Lemma history_snoc past t symbol :
  history (past ++ [t]) symbol = history past symbol ++ (if decide (tk_symbol t = symbol) then [t] else []).
Proof. unfold history. rewrite filter_app, filter_cons. by case_decide. Qed.

Lemma run_snoc ts t : Batch.run ln (ts ++ [t]) = (process_tick_into_state ln (Batch.run ln ts) t).2.
Proof. unfold Batch.run. by rewrite foldl_app. Qed.

Lemma state_of_insert (m : states) k s k' :
  state_of (<[k := s]> m) k' = if decide (k = k') then s else state_of m k'.
Proof.
  unfold state_of, states in *. case_decide as Hk; [by rewrite Hk, lookup_insert_eq | by rewrite lookup_insert_ne].
Qed.

Lemma process_tick_tracks m past t : tracks m past ->
  (process_tick ln m t).1 = snapshot_of past t /\ tracks (process_tick ln m t).2 (past ++ [t]).
Proof.
  intros H. unfold process_tick, snapshot_of. rewrite run_snoc, <- H. unfold process_tick_into_state.
  cbn [fst snd]. split; [done |]. intros symbol. rewrite history_snoc, state_of_insert.
  case_decide as Hs; [by rewrite <- Hs, run_snoc, <- H | rewrite app_nil_r; apply H].
Qed.

Lemma run_publishes inbox : forall m past, tracks m past ->
  (FeatureService.run ln m inbox).1 = publication <$> snapshots past (omap TickWire.decode_tick inbox).
Proof.
  induction inbox as [| bytes inbox IH]; intros m past H; [done |].
  cbn [FeatureService.run omap list_omap]. unfold FeatureService.on_message.
  destruct (TickWire.decode_tick bytes) as [t |].
  - unfold FeatureService.ingest_tick. destruct (process_tick_tracks m past t H) as [Hs Hm].
    destruct (process_tick ln m t) as [snap m']. cbn [fst snd] in Hs, Hm. subst snap.
    specialize (IH m' (past ++ [t]) Hm). destruct (FeatureService.run ln m' inbox) as [outs m''].
    cbn [fst] in *. by rewrite IH.
  - specialize (IH m past H). by destruct (FeatureService.run ln m inbox).
Qed.

Lemma tracks_start : tracks ∅ [].
Proof. intros symbol. unfold state_of, states. by rewrite lookup_empty. Qed.

(** Each snapshot is the one of a history of one symbol that ends with its tick. *)
Lemma snapshots_elem snap ts : forall past, snap ∈ snapshots past ts ->
  exists t before, t ∈ ts /\ snap = feature_snapshot (Batch.run ln (before ++ [t])) t
    /\ Forall (fun u => u ∈ past ++ ts) before.
Proof.
  induction ts as [| t ts IH]; intros past H; [by apply elem_of_nil in H |].
  apply elem_of_cons in H as [-> | H].
  - exists t, (history past (tk_symbol t)). split_and!; [by left | done |].
    apply Forall_forall. intros u Hu. apply list_elem_of_filter in Hu as [_ Hu].
    apply elem_of_app. by left.
  - destruct (IH _ H) as (u & before & Hu & -> & Hb). exists u, before. split_and!; [by right | done |].
    by rewrite <- (assoc_L (++)) in Hb.
Qed.
End history.
End FeatureHistory.

(** ** What the feeds' ticks leave of a snapshot *)

Module QuietTicks.

(** A tick as the feeds write them: a price, and no quantity. *)
Definition quiet (t : Tick) : Prop :=
  TickWire.tick_ok t /\ 0 < ltp_paise t < 2 ^ 53 /\ ltq t = 0 /\ total_buy_qty t = 0 /\ total_sell_qty t = 0.

Lemma quiet_batch ts : Forall quiet ts -> Forall Batch.tick_ok ts.
Proof.
  intros H. eapply Forall_impl; [exact H |]. intros t (_ & Hp & Hq & _). split; [unfold_ok; lia |]. rewrite Hq. unfold_ok. lia.
Qed.

Section quiet.
Context (ln : f64 -> f64).

(** What holds of the state of a symbol that has seen quiet ticks only. *)
Record quiet_state (last : option Z) (s : FeatureState) : Prop := {
  q_range : match last with
            | Some p => last_ltp_paise (ident s) = p /\ session_low_paise (range_st s) <= p <= session_high_paise (range_st s)
            | None => True
            end;
  q_bounds : 0 <= session_low_paise (range_st s) < 2 ^ 53 /\ 0 <= session_high_paise (range_st s) < 2 ^ 53;
  q_book : liquidity_imbalance_cached (book_st s) = f_zero /\ orderflow_strength_cached (book_st s) = f_zero;
  q_sweep : f32_valid (sweep_signal (sweep_st s));
  q_rsi : f32_valid (rsi_value (rsi_st s));
  q_ema : i64_ok (Ema.compute_fast_paise s) /\ i64_ok (Ema.compute_slow_paise s) /\ i64_ok (Ema.compute_trend_paise s);
}.

Lemma sweep_valid s t : f32_valid (sweep_signal (sweep_st (Sweep.update s t))).
Proof. unfold Sweep.update. cbv zeta. by repeat case_match; simplify_eq. Qed.

Lemma rsi_valid s t : f32_valid (rsi_value (rsi_st (Rsi.update s t))).
Proof.
  unfold Rsi.update. cbv zeta. destruct (_ =? 0); [done |]. destruct (if f_gt _ _ then _ else _) as [g l].
  cbn [set_rsi rsi_st rsi_value]. destruct (f_eq _ _); [apply f32_of_Z_valid | apply f64_to_f32_valid].
Qed.

Lemma round_i64_ok x : i64_ok (f_round_as_i64 x).
Proof. destruct x as [| [] | |]; cbn; unfold_ok; try lia. sat_lia. Qed.

Lemma line_ok a l t : i64_ok (ltp_paise t) -> i64_ok (Ema.compute_line (Ema.advance a l t)).
Proof.
  intros Ht. unfold Ema.advance, Ema.compute_line. destruct (ema_seeded l); [apply round_i64_ok | done].
Qed.

(** The groups a tick's pointers do not touch. *)
Lemma advance_keeps u t : let s := advance_pointers u t in
  sweep_st s = sweep_st u /\ rsi_st s = rsi_st u /\ ema_st s = ema_st u.
Proof. done. Qed.

Lemma quiet_run ts : Forall quiet ts -> quiet_state (ltp_paise <$> last ts) (Batch.run ln ts).
Proof.
  induction ts as [| t ts IH] using rev_ind; intros Hts.
  { split; try done; unfold_ok; cbn; lia. }
  apply Forall_app in Hts as [Hts [Ht _]%Forall_cons]. specialize (IH Hts) as [_ IHb IHk _ _ _].
  rewrite FeatureHistory.run_snoc, last_snoc. cbn [fmap option_fmap option_map].
  destruct (Frames.process_after ln (Batch.run ln ts) t) as [Eident _ _ _ _ _ Erange Ebook _].
  destruct Ht as (Hok & Hp & Hq & Hb & Hs).
  destruct Hok as (_ & _ & _ & Hi & _).
  pose proof (advance_keeps (update_indicators ln (Batch.run ln ts) t) t) as Hkeep. cbv zeta in Hkeep.
  change (advance_pointers (update_indicators ln (Batch.run ln ts) t) t)
    with (process_tick_into_state ln (Batch.run ln ts) t).2 in Hkeep.
  split.
  - rewrite Eident, Erange. unfold Candle.update. cbn [set_range range_st session_low_paise session_high_paise last_ltp_paise].
    split; [done |]. destruct IHb as [Hl Hh]. split; split_ifs; lia.
  - rewrite Erange. unfold Candle.update. cbn [set_range range_st session_low_paise session_high_paise].
    destruct IHb as [Hl Hh]. split; split_ifs; lia.
  - rewrite Ebook. unfold Liquidity.update. cbn [set_book book_st liquidity_imbalance_cached orderflow_strength_cached].
    rewrite Hb, Hs. split; [by vm_compute | apply IHk].
  - rewrite (proj1 Hkeep). destruct (Frames.sweep_after ln (Batch.run ln ts) t) as [u ->]. apply sweep_valid.
  - rewrite (proj1 (proj2 Hkeep)). destruct (Frames.rsi_after ln (Batch.run ln ts) t) as [u ->]. apply rsi_valid.
  - unfold Ema.compute_fast_paise, Ema.compute_slow_paise, Ema.compute_trend_paise.
    rewrite (proj2 (proj2 Hkeep)).
    rewrite Frames.ema_after. split_and!; by apply line_ok.
Qed.

Section snapshot.
Context (ts : list Tick) (t : Tick) (Hts : Forall quiet (ts ++ [t])).

Abbreviation s := (Batch.run ln (ts ++ [t])).
Abbreviation snap := (feature_snapshot s t).

Lemma quiet_last : quiet t.
Proof. by apply Forall_app in Hts as [_ [? _]%Forall_cons]. Qed.

Lemma quiet_totals : Batch.notional (ts ++ [t]) = 0 /\ Batch.quantity (ts ++ [t]) = 0.
Proof.
  unfold Batch.notional, Batch.quantity. revert Hts. generalize (ts ++ [t]). intros l Hl.
  induction Hl as [| u us (_ & _ & Hq & _) _ IH]; [done |].
  cbn [fmap list_fmap]. rewrite !list_sum_cons. destruct (IH) as [-> ->]. rewrite Hq. lia.
Qed.

Lemma quiet_vwap : vwap snap = 0.
Proof.
  destruct quiet_totals as [Hn Hq]. cbn [feature_snapshot vwap].
  rewrite (Batch.compute_vwap (ts ++ [t])); [| by apply Batch.batch_inv_run, quiet_batch | by apply quiet_batch | ..];
    [| rewrite ?Hn, ?Hq; unfold_ok; lia ..].
  unfold Batch.vwap_of. by rewrite Hq.
Qed.

Lemma quiet_delta : rolling_delta snap = 0.
Proof.
  cbn [feature_snapshot rolling_delta]. unfold RollingDeltaFeature.compute_paise.
  rewrite (Batch.inv_delta (ts ++ [t])) by (by apply Batch.batch_inv_run, quiet_batch). rewrite last_snoc.
  unfold Batch.delta_of.
  match goal with |- foldl _ _ (signed_qty <$> filter _ ?l) = 0 => assert (Forall (fun x => signed_qty x = 0) l) as Hz end.
  { apply Forall_drop. revert Hts. generalize (ts ++ [t]). intros l Hl. generalize (@None Tick).
    induction Hl as [| u us (_ & _ & Hq & _) _ IH]; intros prev; cbn [Batch.pairwise]; constructor; [| apply IH].
    cbn [signed_qty]. unfold Batch.signed_volume. rewrite Hq. by repeat case_match. }
  revert Hz. match goal with |- Forall _ ?l -> _ => generalize l end. intros l Hz.
  induction Hz as [| x l Hx _ IH]; [done |]. rewrite filter_cons. case_decide; [| done].
  cbn [fmap list_fmap foldl]. by rewrite Hx.
Qed.

Lemma quiet_book : liquidity_imbalance snap = f_zero /\ orderflow_strength snap = f_zero.
Proof. apply (q_book _ _ (quiet_run _ Hts)). Qed.

(** Proximity to the extremes of the session is multiplied with the share of the delta. *)
Lemma quiet_pressure : exists b, breakout_pressure snap = S754_zero b.
Proof.
  pose proof (quiet_run _ Hts) as [Hr [Hl Hh] _ _ _ _]. rewrite last_snoc in Hr. cbn in Hr. destruct Hr as [Hlast Hr].
  destruct quiet_last as (_ & Hp & _).
  pose proof quiet_delta as Hd. cbn [feature_snapshot rolling_delta] in Hd. unfold RollingDeltaFeature.compute_paise in Hd.
  cbn [feature_snapshot breakout_pressure]. unfold Breakout.compute. rewrite Hd, Hlast.
  destruct (_ || _); [by exists false |]. cbv zeta.
  set (high := session_high_paise (range_st s)) in *. set (low := session_low_paise (range_st s)) in *.
  assert (forall a b, 0 <= a < 2 ^ 53 -> 0 <= b < 2 ^ 53 -> i64_sub a b = a - b) as Hsub.
  { intros a b Ha Hb. unfold i64_sub. apply as_i64_id. unfold_ok. lia. }
  rewrite !Hsub by lia.
  destruct (decide (high = low)) as [E | E]; [rewrite E, Z.sub_diag; by exists false |].
  destruct (f_le _ _); [by exists false |].
  destruct (f64_mul_zero (f64_sub (f64_div (f64_of_Z (ltp_paise t - low)) (f64_of_Z (high - low)))
    (f64_div (f64_of_Z (high - ltp_paise t)) (f64_of_Z (high - low))))) as [b Hb];
    [apply f64_shares_finite; lia |].
  exists b.
  match goal with |- context [f64_mul _ ?r] => change r with f_zero end. rewrite Hb. by destruct b.
Qed.

Lemma quiet_decodes : FeatureWire.snapshot_ok snap.
Proof.
  destruct quiet_last as ((Hc & Hs & _ & Hltp & _ & _ & _ & _ & _ & _ & Hrecv) & Hp & _).
  pose proof (quiet_run _ Hts) as [_ _ _ Hsw Hrsi (Hf & Hsl & Htr)].
  pose proof (quiet_batch _ Hts) as Hb. pose proof (Batch.batch_inv_run ln _ Hb) as Hinv.
  destruct quiet_book as [Hi Ho]. destruct quiet_pressure as [b Hbp].
  split_and!; try done.
  - assert (i64_ok (Atr.compute_paise s)) as Ha.
    { unfold Atr.compute_paise. destruct (RingWindow.is_empty _); [by unfold_ok | apply as_i64_range]. }
    destruct (Batch.compute_donchian ts s t Hinv Hb) as [[Hup _] [Hlo _]].
    assert (forall x, x ∈ RingWindow.last_n DONCHIAN_WINDOW (Batch.prices (ts ++ [t])) -> i64_ok x) as Hin.
    { intros x Hx. assert (Forall i64_ok (RingWindow.last_n DONCHIAN_WINDOW (Batch.prices (ts ++ [t])))) as Hall.
      { apply Forall_drop, Forall_fmap. eapply Forall_impl; [exact Hts |]. intros u (_ & Hu & _). unfold_ok. cbn. lia. }
      by apply (proj1 (Forall_forall _ _) Hall). }
    repeat apply Forall_cons_2; try apply Forall_nil_2; try done.
    + rewrite quiet_vwap. by unfold_ok.
    + by apply Hin.
    + by apply Hin.
    + rewrite quiet_delta. by unfold_ok.
  - rewrite Hi, Ho, Hbp.
    repeat apply Forall_cons_2; try apply Forall_nil_2; try done; cbn [feature_snapshot ema_slope realized_vol
      momentum rsi adx compression_zone].
    + unfold Ema.compute_slope. destruct (_ <? _)%nat; [done |]. destruct (list.head _); [apply f64_to_f32_valid | done].
    + unfold Volatility.compute. destruct (_ <? _)%nat; [done | apply f64_to_f32_valid].
    + unfold Momentum.compute. repeat case_match; try done. apply f64_to_f32_valid.
    + by rewrite adx_is_always_zero.
    + unfold Compression.compute. destruct (_ <? _)%nat; [done |]. cbv zeta. destruct (f_le _ _); [done | apply f64_to_f32_valid].
  - cbn [feature_snapshot candle_structure]. unfold u8_ok. by destruct (Candle.classify _); cbn.
Qed.
End snapshot.
End quiet.
End QuietTicks.

(** ** What the signal service publishes *)

Module EmittedSignals.

Lemma signal_of_names sid snap side bp conf rp sig : signal_of sid snap side bp conf rp = Some sig ->
  sig_strategy sig = StrategyId.as_u8 sid /\ sig_symbol sig = fs_symbol snap
  /\ sig_correlation_id sig = fs_correlation_id snap /\ sig_side sig = Side.as_u8 side.
Proof. by intros [= <-]. Qed.

(** A strategy signs with its own number. *)
Definition signs (s : Strategy) : Prop :=
  forall snap ctx sig, evaluate s snap ctx = Some sig -> sig_strategy sig = StrategyId.as_u8 (id s).

Lemma default_signs : Forall signs default_strategies.
Proof.
  repeat apply Forall_cons_2; try apply Forall_nil_2; intros snap ctx sig; cbn [evaluate id];
    [unfold OpeningRangeBreakout.evaluate | unfold VwapPullback.evaluate | unfold MomentumBreakout.evaluate
    | unfold LiquiditySweepReversal.evaluate | done | unfold VolatilityCompressionBreakout.evaluate
    | unfold CompositeAlphaBreakout.evaluate]; cbv zeta; walk; cbv zeta; walk;
    intros Hsig; by apply signal_of_names in Hsig as [? _].
Qed.

(** A signal that is published was evaluated, with the strategies of the engine. *)
Lemma publish_all_elem deliver sigs sig : sig ∈ (SignalEngine.publish_all deliver sigs).1 -> sig ∈ sigs.
Proof.
  induction sigs as [| s sigs IH]; [done |]. cbn [SignalEngine.publish_all]. destruct (deliver s).
  - destruct (SignalEngine.publish_all deliver sigs) as [out ok]. cbn [fst] in *.
    intros [-> | H]%elem_of_cons; [by left | right; by apply IH].
  - intros H. by apply elem_of_nil in H.
  - intros H. apply list_elem_of_singleton in H as ->. by left.
Qed.

Lemma ingested_elem deliver e snap sig : sig ∈ (SignalEngine.ingest_feature_snapshot deliver e snap).1 ->
  exists s, s ∈ SignalEngine.strategies e
    /\ evaluate s snap (context_of (SignalEngine.config e) (SignalEngine.previous_days e !! fs_symbol snap)) = Some sig.
Proof.
  unfold SignalEngine.ingest_feature_snapshot.
  pose proof (publish_all_elem deliver (SignalEngine.evaluate e snap) sig) as H.
  destruct (SignalEngine.publish_all _ _) as [out ok]. cbn [fst] in *. intros Hs. apply H in Hs.
  unfold SignalEngine.evaluate in Hs. rewrite evaluate_strategies_omap in Hs.
  apply list_elem_of_omap in Hs as (s & Hs & Hk). exists s. split; [done |]. revert Hk. unfold kept.
  destruct (is_allowed _); [| done]. destruct (evaluate s snap _) as [sig' |]; [| done]. cbn [mbind option_bind].
  by destruct (is_allowed _).
Qed.

(** What the snapshot messages carry, in order. *)
Fixpoint snapshot_bytes (ms : list SignalService.message) : list (list Z) :=
  match ms with
  | [] => []
  | SignalService.Snapshot bytes _ :: ms => bytes :: snapshot_bytes ms
  | _ :: ms => snapshot_bytes ms
  end.

Lemma warmode_keeps_strategies from_slice s doc apply :
  (forall e p, SignalEngine.strategies (apply e p) = SignalEngine.strategies e) ->
  SignalEngine.strategies (SignalService.engine (SignalService.on_warmode from_slice s doc apply))
  = SignalEngine.strategies (SignalService.engine s).
Proof.
  intros H. unfold SignalService.on_warmode. destruct (SignalService.armed s); [| done].
  destruct (from_slice doc); [apply H | done].
Qed.

(** Everything published is a signal of a default strategy on a snapshot that was received. *)
Lemma emitted from_slice ms : forall s p,
  SignalEngine.strategies (SignalService.engine s) = default_strategies ->
  p ∈ (SignalService.run from_slice s ms).1 ->
  exists bytes snap st ctx sig, bytes ∈ snapshot_bytes ms
    /\ FeatureWire.decode_feature_snapshot bytes = Some snap /\ st ∈ default_strategies
    /\ evaluate st snap ctx = Some sig /\ p = SignalService.publication sig.
Proof.
  induction ms as [| m ms IH]; intros s p Hs; [intros H; by apply elem_of_nil in H |].
  cbn [SignalService.run]. specialize (IH (SignalService.step from_slice s m).2 p).
  destruct (SignalService.step from_slice s m) as [out s'] eqn:E. cbn [snd] in IH.
  destruct (SignalService.run from_slice s' ms) as [outs s'']. cbn [fst] in *.
  assert (SignalEngine.strategies (SignalService.engine s') = default_strategies) as Hs'.
  { rewrite <- Hs. destruct m as [bytes deliver | doc | doc]; cbn [SignalService.step] in E.
    - destruct (FeatureWire.decode_feature_snapshot bytes); by injection E as <- <-.
    - injection E as <- <-. by apply warmode_keeps_strategies.
    - injection E as <- <-. by apply warmode_keeps_strategies. }
  intros [Hp | Hp]%elem_of_app.
  - destruct m as [bytes deliver | doc | doc]; cbn [SignalService.step] in E;
      [| injection E as <- <-; by apply elem_of_nil in Hp ..].
    destruct (FeatureWire.decode_feature_snapshot bytes) as [snap |] eqn:Hd; injection E as <- <-;
      [| by apply elem_of_nil in Hp].
    apply list_elem_of_fmap in Hp as (sig & -> & Hsig). apply ingested_elem in Hsig as (st & Hst & Hev).
    rewrite Hs in Hst. exists bytes, snap, st. eexists _, sig. split_and!; [by left | done | done | exact Hev | done].
  - destruct (IH Hs' Hp) as (bytes & snap & st & ctx & sig & Hb & H). exists bytes, snap, st, ctx, sig.
    split; [| done]. destruct m; cbn [snapshot_bytes]; [by right | done ..].
Qed.
End EmittedSignals.

(** ** The engines on the feeds' ticks *)

Module DeployedStrategies.
Import EmittedSignals.

(** Half of the average true range, as VwapPullback rounds it. *)
Definition band (snap : FeatureSnapshot) : Z :=
  f_as_i64 (f64_mul (f64_of_Z (atr snap)) VwapPullback.VWAP_PULLBACK_BAND_ATR_RATIO).

(** What a signal can be when no volume reaches the features. *)
Definition without_volume (snap : FeatureSnapshot) (sig : Signal) : Prop :=
  (sig_strategy sig = StrategyId.as_u8 StrategyId.CompositeAlphaBreakout /\ 6 <= fs_symbol snap <= 10)
  \/ (sig_strategy sig = StrategyId.as_u8 StrategyId.VwapPullback /\ i64_abs (ema_fast snap) <= band snap).

Lemma index_symbols id : contains "Nifty" (unwrap_or EmptyString (SymbolTable.symbol_for_id id)) = true -> 6 <= id <= 10.
Proof.
  destruct (decide (6 <= id <= 10)) as [| Hid]; [done |]. intros H. exfalso. revert H.
  unfold SymbolTable.symbol_for_id. destruct id as [| p | p]; try done.
  do 4 (destruct p as [p | p |]; try done; try lia).
Qed.

Lemma quiet_strategy st snap ctx sig b : st ∈ default_strategies -> evaluate st snap ctx = Some sig ->
  i64_ok (ema_fast snap) -> vwap snap = 0 -> breakout_pressure snap = S754_zero b ->
  orderflow_strength snap = f_zero -> without_volume snap sig.
Proof.
  intros Hst Hev He Hv Hb Ho. revert Hev. unfold default_strategies in Hst. rewrite !elem_of_cons in Hst.
  destruct Hst as [-> | [-> | [-> | [-> | [-> | [-> | [-> | Hst]]]]]]]; cbn [evaluate]; [.. | by apply elem_of_nil in Hst].
  - unfold OpeningRangeBreakout.evaluate. rewrite Hb. by destruct b.
  - unfold VwapPullback.evaluate. cbv zeta. rewrite Hv. fold (band snap).
    do 2 (destruct (_ <=? 0); [done |]).
    destruct (Z.ltb_spec (band snap) (i64_abs (i64_sub (ema_fast snap) 0))) as [| Hd]; [done |]. walk.
    intros Hsig. apply signal_of_names in Hsig as [Hs _]. right. split; [done |].
    unfold i64_sub in Hd. by rewrite Z.sub_0_r, as_i64_id in Hd.
  - unfold MomentumBreakout.evaluate. rewrite Hb. destruct (f_lt _ _); [done |]. by destruct b.
  - unfold LiquiditySweepReversal.evaluate. cbv zeta. rewrite Ho.
    destruct (f_lt _ _); [done |]. by destruct (against _ _).
  - done.
  - unfold VolatilityCompressionBreakout.evaluate. rewrite Hb. destruct (f_le _ _); [done |]. by destruct b.
  - unfold CompositeAlphaBreakout.evaluate. cbv zeta.
    destruct (contains _ _) eqn:Hn; [| done]. cbn [negb]. walk. intros Hsig. apply signal_of_names in Hsig as [Hs _].
    left. split; [done | by apply index_symbols].
Qed.
End DeployedStrategies.

(** C13: The feeds' ticks carry a price and no quantity. On such ticks, whatever else reaches the feature
    service, each of its snapshots is decoded by the signal service as it was computed, with no volume
    in it: the average price, the delta, the two book figures and the breakout pressure are zero. Of the
    seven strategies only two can then signal, whatever the war mode does: the composite one on an
    index, and the pullback one while the fast average is within half the average true range of zero. *)
Theorem feed_ticks_carry_no_volume (ln : f64 -> f64) (inbox : list (list Z))
  (from_slice : list Z -> option SignalEngine.WarModePayload) (ms : list SignalService.message) :
  Forall QuietTicks.quiet (omap TickWire.decode_tick inbox) ->
  EmittedSignals.snapshot_bytes ms = (FeatureService.run ln ∅ inbox).1.*2 ->
  let snaps := FeatureHistory.snapshots ln [] (omap TickWire.decode_tick inbox) in
  FeatureWire.decode_feature_snapshot <$> EmittedSignals.snapshot_bytes ms = Some <$> snaps
  /\ Forall (fun s => vwap s = 0 /\ rolling_delta s = 0 /\ liquidity_imbalance s = f_zero
       /\ orderflow_strength s = f_zero /\ exists b, breakout_pressure s = S754_zero b) snaps
  /\ Forall (fun p => exists snap sig, snap ∈ snaps /\ p = SignalService.publication sig
       /\ DeployedStrategies.without_volume snap sig) (SignalService.run from_slice SignalService.start ms).1.
Proof.
  intros Hq Hms snaps.
  rewrite (FeatureHistory.run_publishes ln inbox ∅ []) in Hms by apply FeatureHistory.tracks_start. fold snaps in Hms.
  assert (forall s, s ∈ snaps -> exists t before, Forall QuietTicks.quiet (before ++ [t])
    /\ s = feature_snapshot (Batch.run ln (before ++ [t])) t) as Hshape.
  { intros s Hs. apply FeatureHistory.snapshots_elem in Hs as (t & before & Ht & -> & Hb). exists t, before.
    split; [| done]. apply Forall_app. split; [| apply Forall_singleton; by apply (proj1 (Forall_forall _ _) Hq)].
    eapply Forall_impl; [exact Hb |]. intros u Hu. by apply (proj1 (Forall_forall _ _) Hq). }
  assert (forall s, s ∈ snaps -> FeatureWire.decode_feature_snapshot (FeatureWire.encode s) = Some s) as Hdec.
  { intros s Hs. destruct (Hshape s Hs) as (t & before & Hts & ->).
    by apply feature_decode, QuietTicks.quiet_decodes. }
  split_and!.
  - rewrite Hms, <- !list_fmap_compose. apply list_fmap_ext. intros i s Hs. cbn.
    by apply Hdec, (list_elem_of_lookup_2 _ i).
  - apply Forall_forall. intros s Hs. destruct (Hshape s Hs) as (t & before & Hts & ->).
    split_and!; [by apply QuietTicks.quiet_vwap | by apply QuietTicks.quiet_delta
      | by apply QuietTicks.quiet_book .. | by apply QuietTicks.quiet_pressure].
  - apply Forall_forall. intros p Hp. apply EmittedSignals.emitted in Hp; [| done].
    destruct Hp as (bytes & snap & st & ctx & sig & Hb & Hd & Hst & Hev & ->).
    rewrite Hms in Hb. apply list_elem_of_fmap in Hb as (q & -> & Hq2).
    apply list_elem_of_fmap in Hq2 as (s & -> & Hs). cbn [FeatureHistory.publication snd] in Hd.
    rewrite (Hdec s Hs) in Hd. injection Hd as <-. exists s, sig. split_and!; [done | done |].
    destruct (Hshape s Hs) as (t & before & Hts & ->).
    destruct (QuietTicks.quiet_pressure ln before t Hts) as [b Hbp].
    eapply (DeployedStrategies.quiet_strategy st _ ctx); [done | done | | by apply QuietTicks.quiet_vwap
      | exact Hbp | by apply QuietTicks.quiet_book].
    apply (QuietTicks.q_ema _ _ (QuietTicks.quiet_run ln _ Hts)).
Qed.

(** A tick of a quiet market, and a jump that the average true range follows faster than the average. *)
Module QuietSample.
Definition tick (symbol p ns : Z) : Tick := mk_Tick (replicate 16 0) symbol 0 p (p - 5) (p + 5) 0 0 0 ns ns.
Definition ticks : list Tick := [tick 1 100 1; tick 6 2500000 2; tick 1 100000 3].
Definition inbox : list (list Z) := [123; 125] :: (TickWire.tick_to_raw_bytes <$> ticks).
Definition ln (x : f64) : f64 := x.
Definition from_slice (doc : list Z) : option SignalEngine.WarModePayload :=
  match doc with [123; 125] => Some (SignalEngine.mk_WarModePayload "start" f_zero f_zero) | _ => None end.
Definition deliver (_ : Signal) : SignalEngine.Delivery := SignalEngine.Delivered.
Definition messages : list SignalService.message :=
  SignalService.WarModeStart [123; 125]
  :: ((fun p => SignalService.Snapshot p.2 deliver) <$> (FeatureService.run ln ∅ inbox).1).
End QuietSample.

(** The jump is bought by the pullback strategy; nothing else signals. *)
Lemma feed_ticks_carry_no_volume_witness :
  (fun p => p.1) <$> (SignalService.run QuietSample.from_slice SignalService.start QuietSample.messages).1 = ["sig.emitted"]
  /\ Forall (fun p => exists snap sig, p = SignalService.publication sig
       /\ DeployedStrategies.without_volume snap sig)
       (SignalService.run QuietSample.from_slice SignalService.start QuietSample.messages).1.
Proof.
  split; [vm_compute; reflexivity |].
  destruct (feed_ticks_carry_no_volume QuietSample.ln QuietSample.inbox QuietSample.from_slice QuietSample.messages)
    as (_ & _ & H).
  - assert (omap TickWire.decode_tick QuietSample.inbox = QuietSample.ticks) as -> by (vm_compute; reflexivity).
    repeat constructor; vm_compute; discriminate.
  - vm_compute. reflexivity.
  - eapply Forall_impl; [exact H |]. intros p (snap & sig & _ & Hp). by exists snap, sig.
Defined.

(** ** From the signal service to the risk service *)

(** The bytes that occur in a JSON text: no control character but the tabulator and the line ends. *)
Definition json_byte (b : Z) : Prop := 32 <= b \/ b = 9 \/ b = 10 \/ b = 13.

(** A published signal starts with its correlation identifier, and the number of its strategy is a
    control character. *)
Lemma signal_is_not_json sig st snap ctx : st ∈ default_strategies -> evaluate st snap ctx = Some sig ->
  ~ Forall json_byte (SignalWire.encode_signal sig).
Proof.
  intros Hst Hev H. pose proof (proj1 (Forall_forall _ _) EmittedSignals.default_signs st Hst snap ctx sig Hev) as Hs.
  unfold SignalWire.encode_signal in H. apply Forall_app in H as [_ H]. apply Forall_app in H as [H _].
  rewrite Hs in H. apply Forall_cons in H as [H _]. unfold json_byte in H. destruct (id st); cbn in H; lia.
Qed.

(** C9: The engines' signals never become orders. Whatever ticks, snapshots and war-mode documents arrive,
    and whatever the risk engine, the brokers and the trading mode: none of the binary signals that the
    signal service publishes is a JSON text, so the risk service drops each of them, publishes no
    decision, and the execution service contacts no broker. *)
Theorem engine_signals_never_become_orders (hmac : list Z -> list Z -> list Z) {V : Type} {view : WarmCacheView V}
  {W : Type} (now : nat -> Z) (brokers : LiveRoute.Brokers W) (max_notional_inr : Z)
  (from_slice : list Z -> option SignalEngine.WarModePayload)
  (parse : list Z -> option RiskService.SignalEvent)
  (ms : list SignalService.message) (e : RiskEngine.t (V := V)) (w : LiveRoute.world W) (rs : list Pipeline.message) :
  (forall bytes v, parse bytes = Some v -> Forall json_byte bytes) ->
  Forall2 (fun p r => Pipeline.m_event r = parse p.2)
    (SignalService.run from_slice SignalService.start ms).1 rs ->
  Pipeline.run hmac now brokers max_notional_inr e w rs = Some (e, w)
  /\ Forall (fun r => RiskService.handle_signal hmac e (Pipeline.m_event r) (Pipeline.m_clock r) (Pipeline.m_now_ns r)
       = Some (None, e)) rs.
Proof.
  intros Hjson Hrs.
  assert (Forall (fun r => Pipeline.m_event r = None) rs) as Hnone.
  { apply Forall_forall. intros r Hr. apply list_elem_of_lookup in Hr as [i Hr].
    destruct (Forall2_lookup_r _ _ _ _ _ Hrs Hr) as (p & Hp & ->). apply list_elem_of_lookup_2 in Hp.
    apply EmittedSignals.emitted in Hp; [| done]. destruct Hp as (bytes & snap & st & ctx & sig & _ & _ & Hst & Hev & ->).
    cbn [SignalService.publication snd]. destruct (parse _) as [v |] eqn:Hv; [| done]. exfalso.
    by eapply signal_is_not_json, Hjson. }
  split.
  - clear Hrs. induction Hnone as [| r rs Hr _ IH]; [done |]. cbn [Pipeline.run]. unfold Pipeline.step.
    rewrite Hr. cbn [RiskService.handle_signal mbind option_bind Pipeline.deliver]. exact IH.
  - eapply Forall_impl; [exact Hnone |]. intros r ->. done.
Qed.

(** The bought jump, and a service that would take any JSON text for a tradable signal. *)
Lemma engine_signals_never_become_orders_witness :
  let parse bytes := if decide (Forall json_byte bytes) then Some (Pipeline.Sample.signal "correlation-0001" None) else None in
  let published := (SignalService.run QuietSample.from_slice SignalService.start QuietSample.messages).1 in
  let rs := (fun p => Pipeline.mk_message (parse p.2) RiskEngine.Sample.clock 7 true) <$> published in
  length published = 1%nat /\ parse [123; 125] <> None
  /\ Pipeline.run RiskEngine.Sample.hmac Z.of_nat LiveSample.brokers 50000 RiskEngine.Sample.engine LiveSample.start rs
     = Some (RiskEngine.Sample.engine, LiveSample.start).
Proof.
  intros parse published rs. split_and!; [vm_compute; reflexivity | discriminate |].
  apply (engine_signals_never_become_orders RiskEngine.Sample.hmac Z.of_nat LiveSample.brokers 50000
    QuietSample.from_slice parse QuietSample.messages RiskEngine.Sample.engine LiveSample.start rs).
  - intros bytes v. unfold parse. by case_decide.
  - unfold rs. fold published. generalize published. intros l. induction l; constructor; [reflexivity | assumption].
Defined.

(** A war-mode document that cannot be decoded ends the subscription for good: the gate stays as it is
    whatever is announced later. *)
Lemma malformed_document_freezes_war_mode from_slice s doc start later :
  SignalService.armed s = true -> from_slice doc = None ->
  let m := (if start : bool then SignalService.WarModeStart doc else SignalService.WarModeEnd doc) in
  SignalService.engine (SignalService.run from_slice s (m :: later)).2 = SignalService.engine s.
Proof.
  intros Ha Hd m.
  assert (forall later s, SignalService.armed s = false -> (SignalService.run from_slice s later).2 = s) as Hoff.
  { clear. intros later. induction later as [| m later IH]; intros s Hs; [done |]. cbn [SignalService.run].
    assert ((SignalService.step from_slice s m).2 = s) as Hm.
    { destruct m; cbn [SignalService.step].
      - by destruct (FeatureWire.decode_feature_snapshot _).
      - unfold SignalService.on_warmode. by rewrite Hs.
      - unfold SignalService.on_warmode. by rewrite Hs. }
    destruct (SignalService.step from_slice s m) as [out s']. cbn [snd] in Hm. subst s'.
    specialize (IH s Hs). destruct (SignalService.run from_slice s later). exact IH. }
  assert ((SignalService.step from_slice s m).2 = SignalService.mk (SignalService.engine s) false) as Hm.
  { unfold m. destruct start; cbn [SignalService.step snd]; unfold SignalService.on_warmode; by rewrite Ha, Hd. }
  cbn [SignalService.run]. destruct (SignalService.step from_slice s m) as [out s'] eqn:E. cbn [snd] in Hm. subst s'.
  specialize (Hoff later (SignalService.mk (SignalService.engine s) false) eq_refl).
  destruct (SignalService.run from_slice _ later) as [outs s'']. cbn [snd] in *. by subst.
Qed.

(** ** What the order-flow service can report *)

Module BooksOnly.

(** Candidates that no trade was counted against. *)
Definition untraded (p : Detector.PendingOrder) : Prop :=
  Detector.filled_qty p = 0 /\ 0 < Detector.p_qty p < 2 ^ 64.
Definition shallow (levels : list BookLevel) : Prop :=
  (length levels <= 1)%nat /\ Forall (fun l => u64_ok (qty l)) levels.

Record books_only (s : OrderflowState.t) : Prop := {
  bo_bids : shallow (LiveBook.bid_levels (OrderflowState.book s));
  bo_asks : shallow (LiveBook.ask_levels (OrderflowState.book s));
  bo_pending : Forall untraded (Detector.pending (OrderflowState.detector s));
}.

(** A spoofing report with full evidence. *)
Definition certain_spoofing (e : OrderflowEvent.t) : Prop :=
  exists side level, e = OrderflowEvent.Spoofing side level f32_one.

Lemma no_gap side levels tick : shallow levels -> Detector.detect_liquidity_gap side levels tick = None.
Proof. intros [H _]. destruct levels as [| x [| y l]]; try done. cbn in H. lia. Qed.

Lemma full_evidence q : 0 < q < 2 ^ 64 -> Detector.evidence q 0 = f32_one.
Proof.
  intros Hq. unfold Detector.evidence.
  assert (u64_sat_sub q 0 = q) as -> by (unfold u64_sat_sub; sat_lia).
  replace (Z.max q 1) with q by lia. destruct (f32_of_Z_nonzero q Hq) as (s & m & e & ->).
  by rewrite f32_div_self.
Qed.

Lemma register_untraded d threshold side book now_ns : 0 <= threshold ->
  shallow (LiveBook.bid_levels book) -> shallow (LiveBook.ask_levels book) ->
  Forall untraded (Detector.pending d) ->
  Forall untraded (Detector.pending (Detector.register_if_large threshold side book now_ns d)).
Proof.
  intros Ht Hb Ha Hd. unfold Detector.register_if_large.
  destruct (Detector.top side book) as [l |] eqn:El; [| done]. destruct (Z.ltb_spec threshold (qty l)); [| done].
  assert (u64_ok (qty l)) as Hl.
  { destruct side; cbn in El; unfold LiveBook.top_bid, LiveBook.top_ask in El;
      destruct Hb as [_ Hb], Ha as [_ Ha]; [destruct (LiveBook.bid_levels book) | destruct (LiveBook.ask_levels book)];
      try done; injection El as ->; [by apply Forall_cons in Hb as [? _] | by apply Forall_cons in Ha as [? _]]. }
  assert (untraded (Detector.mk_PendingOrder side (price_paise l) (qty l) now_ns 0)) as Hu
    by (split; [done |]; unfold_ok; cbn; lia).
  unfold Detector.try_register_pending. destruct (existsb _ _); [done |].
  destruct (_ <? _)%nat; cbn [Detector.set_pending Detector.pending].
  - apply Forall_app. split; [done | by apply Forall_singleton].
  - by apply Forall_insert.
Qed.

Lemma observe_books_only d book now_ns :
  shallow (LiveBook.bid_levels book) -> shallow (LiveBook.ask_levels book) -> Forall untraded (Detector.pending d) ->
  let '(d', (out, _)) := Detector.observe_book d book now_ns (BoundedEvents.new EVENTS) in
  Forall untraded (Detector.pending d') /\ Forall certain_spoofing (BoundedEvents.as_slice out).
Proof.
  intros Hb Ha Hd. unfold Detector.observe_book. rewrite !no_gap by done. cbn [Detector.emit_option].
  unfold Detector.advance_spoofing. rewrite Compact.retain_pass.
  pose proof (fun e => SpoofFacts.advance_elem book now_ns e (Detector.pending d) (BoundedEvents.new EVENTS, 0%nat)) as He.
  assert (forall l s, Forall untraded l -> Forall untraded (Compact.pass (Detector.advance_body book now_ns) l s).1) as Hpass.
  { clear. intros l. induction l as [| p l IH]; intros s Hl; [done |]. cbn [Compact.pass].
    apply Forall_cons in Hl as [Hp Hl]. destruct (Detector.advance_body _ _ _ _) as [keep s1].
    specialize (IH s1 Hl). destruct (Compact.pass _ l s1) as [l' s2]. cbn [fst] in *. destruct keep; [by constructor | done]. }
  specialize (Hpass (Detector.pending d) (BoundedEvents.new EVENTS, 0%nat) Hd).
  destruct (Compact.pass _ _ _) as [ps [out n]]. cbn [fst snd] in He, Hpass. split.
  - cbn [Detector.pending]. unfold Detector.register_candidates.
    destruct (Z.ltb_spec 0 (Detector.rolling_median_qty (Detector.push_qty (Detector.set_pending d ps) book)));
      [| done]. assert (0 <= u64_sat_mul (Detector.rolling_median_qty (Detector.push_qty (Detector.set_pending d ps) book))
      Detector.SPOOF_QTY_MULTIPLIER) by (unfold u64_sat_mul; sat_lia).
    apply register_untraded; try done. by apply register_untraded.
  - apply Forall_forall. intros e Hin. destruct (He e Hin) as [H | (p & Hp & _ & ->)]; [by apply elem_of_nil in H |].
    destruct (proj1 (Forall_forall _ _) Hd p Hp) as [-> Hq]. rewrite full_evidence by done. by eexists _, _.
Qed.

Lemma fields_shallow f : u64_ok (f_bid_qty f) -> u64_ok (f_ask_qty f) ->
  shallow (ob_bid_levels (book_of_fields f)) /\ shallow (ob_ask_levels (book_of_fields f)).
Proof.
  intros Hb Ha. unfold book_of_fields. cbn [ob_bid_levels ob_ask_levels].
  split; destruct (0 <? _); split; cbn; try lia; try apply Forall_nil_2; by apply Forall_singleton.
Qed.

Lemma take_shallow levels : shallow levels -> shallow (LiveBook.fill levels).
Proof.
  intros [Hl Hq]. rewrite LiveBook.fill_take. split; [rewrite length_take; lia | by apply Forall_take].
Qed.

Lemma ingest_book_keeps s book now_ns : books_only s ->
  shallow (ob_bid_levels book) -> shallow (ob_ask_levels book) ->
  let '(r, s') := OrderflowState.ingest_book s book now_ns in
  books_only s' /\ forall snap, r = Some snap -> Forall certain_spoofing (BoundedEvents.as_slice (events snap)).
Proof.
  intros [Hb Ha Hp] Hnb Hna. unfold OrderflowState.ingest_book.
  assert (shallow (LiveBook.bid_levels (LiveBook.apply (OrderflowState.book s) book).2)
    /\ shallow (LiveBook.ask_levels (LiveBook.apply (OrderflowState.book s) book).2)) as [Hb' Ha'].
  { unfold LiveBook.apply. destruct (_ && _); [done |]. by split; apply take_shallow. }
  destruct (LiveBook.apply _ book) as [accepted b]. cbn [snd] in Hb', Ha'.
  destruct accepted; cbn [negb]; [| by split].
  pose proof (observe_books_only (OrderflowState.detector s) b now_ns Hb' Ha' Hp) as Hobs.
  destruct (Detector.observe_book _ _ _ _) as [det [out n]]. destruct Hobs as [Hdet Hout].
  split; [by split | by intros snap [= <-]].
Qed.

Definition all_books (e : OrderflowEngine.t) : Prop := forall symbol, books_only (OrderflowEngine.entry e symbol).

Lemma all_books_new : all_books OrderflowEngine.new.
Proof.
  intros symbol. unfold OrderflowEngine.entry, OrderflowEngine.new. cbn [OrderflowEngine.inner OrderflowEngine.with_window].
  rewrite lookup_empty. split; [by split; [cbn; lia |] .. | done].
Qed.

Section service.
Context `{J : Json} (as_u64 : Value -> option Z) (from_slice : list Z -> option Value).
Context (Hu64 : forall v z, as_u64 v = Some z -> u64_ok z).

Definition is_event_ok (o : OrderflowService.output) : Prop :=
  match o with OrderflowService.Event _ e => certain_spoofing e | OrderflowService.Heatmap _ _ => True end.

(** Messages of the tick loop that are not 77 bytes long. *)
Definition skipped (m : OrderflowService.message) : Prop :=
  match m with OrderflowService.TickBytes bytes => length bytes <> 77%nat | OrderflowService.BookDoc _ _ _ => True end.
(** What is published where the tick loop listens, [md.tick.*]: the binary ticks of the market-data engine
    (engine.rs:143), and the documents of the vendor's feed (upstox_feed.rs:811), of the synthesizer
    (derive.rs:41) and of a playback (hedge-replay/src/main.rs:276), which are objects with these members
    at least.  A playback also republishes raw what it does not read as a tick: that is left out here. *)
Definition tick_document (doc : Value) : Prop :=
  exists outer inner symbol ltp bid ask ts, doc = jobject outer
    /\ [("kind", jstring "tick"); ("data", jobject inner)] ⊆+ outer
    /\ [("symbol", jstring symbol); ("ltp_paise", jnumber ltp); ("bid_paise", jnumber bid);
        ("ask_paise", jnumber ask); ("ts_recv_ns", jnumber ts)] ⊆+ inner.
Definition published (to_vec : Value -> list Z) (m : OrderflowService.message) : Prop :=
  match m with
  | OrderflowService.TickBytes bytes =>
    (exists t, TickWire.tick_ok t /\ bytes = TickWire.tick_to_raw_bytes t)
    \/ (exists doc, tick_document doc /\ bytes = to_vec doc)
  | OrderflowService.BookDoc _ _ _ => True
  end.

(** The text of JSON: no value is empty, and an object holds each member's key in quotes, a colon and the
    text of the value. *)
Definition member_length (to_vec : Value -> list Z) (member : string * Value) : nat :=
  (String.length member.1 + 3 + length (to_vec member.2))%nat.
Definition json_text (to_vec : Value -> list Z) : Prop :=
  (forall v, (1 <= length (to_vec v))%nat)
  /\ (forall members, (sum_list (member_length to_vec <$> members) <= length (to_vec (jobject members)))%nat).

Lemma sum_submseteq (l k : list nat) : l ⊆+ k -> (sum_list l <= sum_list k)%nat.
Proof. induction 1; cbn; lia. Qed.

Lemma members_text to_vec members l : json_text to_vec -> l ⊆+ members ->
  (sum_list (member_length to_vec <$> l) <= length (to_vec (jobject members)))%nat.
Proof.
  intros [_ Ht] Hl. etrans; [| apply Ht]. apply sum_submseteq. by apply fmap_submseteq.
Qed.

(** Neither kind of message has 77 bytes: a tick has 85, a document 78 at least. *)
Lemma published_skipped to_vec m : json_text to_vec -> published to_vec m -> skipped m.
Proof.
  intros Ht Hm. destruct m as [| bytes]; [done |]. cbn in Hm |- *.
  destruct Hm as [(t & Hok & ->) | (doc & (outer & inner & symbol & ltp & bid & ask & ts & -> & Ho & Hi) & ->)].
  - rewrite tick_length by done. discriminate.
  - apply (members_text to_vec _ _ Ht) in Ho, Hi. unfold member_length in *. cbn in Ho, Hi.
    destruct Ht as [Ht _]. pose proof (Ht (jstring "tick")). pose proof (Ht (jstring symbol)).
    pose proof (Ht (jnumber ltp)). pose proof (Ht (jnumber bid)). pose proof (Ht (jnumber ask)).
    pose proof (Ht (jnumber ts)). lia.
Qed.

Definition is_book (m : OrderflowService.message) : Prop :=
  match m with OrderflowService.BookDoc _ _ _ => True | OrderflowService.TickBytes _ => False end.
#[global] Instance is_book_dec m : Decision (is_book m).
Proof. destruct m; apply _. Defined.

Lemma fields_u64 envelope clock_ts f : OrderflowService.fields_of as_u64 envelope clock_ts = Some f ->
  u64_ok (f_bid_qty f) /\ u64_ok (f_ask_qty f).
Proof.
  unfold OrderflowService.fields_of. destruct (jget envelope "data") as [data |]; [| done]. cbn [mbind option_bind].
  destruct (jget data "symbol" ≫= as_str); [| done]. cbn [mbind option_bind]. intros [= <-]. cbn [f_bid_qty f_ask_qty].
  assert (forall o : option Value, u64_ok (unwrap_or 0 (o ≫= as_u64))) as Hq.
  { intros [v |]; cbn; [destruct (as_u64 v) eqn:E; [by eapply Hu64 |] |]; by unfold_ok. }
  split; apply Hq.
Qed.

Lemma outputs_ok e symbol snap : Forall certain_spoofing (BoundedEvents.as_slice (events snap)) ->
  Forall is_event_ok (OrderflowService.outputs e symbol snap).
Proof.
  intros H. unfold OrderflowService.outputs. apply Forall_app. split.
  - destruct (OrderflowEngine.current_heatmap e symbol); by repeat constructor.
  - by apply Forall_fmap.
Qed.

Lemma step_keeps e m : all_books e -> skipped m ->
  match OrderflowService.step as_u64 from_slice e m with
  | Some (out, e') => all_books e' /\ Forall is_event_ok out
  | None => exists doc ts now, m = OrderflowService.BookDoc doc ts now /\ from_slice doc = None
  end.
Proof.
  intros He Hm. destruct m as [doc clock_ts clock_now | bytes]; cbn [OrderflowService.step].
  - destruct (from_slice doc) as [envelope |] eqn:Hd; cbn [mbind option_bind]; [| by eexists _, _, _].
    destruct (OrderflowService.fields_of as_u64 envelope clock_ts) as [f |] eqn:Hf; [| by split].
    apply fields_u64 in Hf as [Hb Ha]. destruct (fields_shallow f Hb Ha) as [Sb Sa].
    unfold handle_book_message. destruct (f_symbol_id f =? 0); [by split |]. unfold OrderflowEngine.ingest_book.
    pose proof (ingest_book_keeps _ (book_of_fields f) clock_now (He (ob_symbol (book_of_fields f))) Sb Sa) as Hk.
    destruct (OrderflowState.ingest_book _ _ _) as [r s']. destruct Hk as [Hs' Hr]. split.
    + intros symbol. rewrite OrderflowEngine.entry_put. by case_decide.
    + destruct r as [snap |]; [by apply outputs_ok, Hr | done].
  - unfold TickWire.orderflow_decode. rewrite decide_False by exact Hm. by split.
Qed.

Lemma run_keeps ms : forall e, all_books e -> Forall skipped ms ->
  Forall is_event_ok (OrderflowService.run as_u64 from_slice e ms).1
  /\ OrderflowService.run as_u64 from_slice e ms = OrderflowService.run as_u64 from_slice e (filter is_book ms)
  /\ ((OrderflowService.run as_u64 from_slice e ms).2 = None
      <-> exists doc ts now, OrderflowService.BookDoc doc ts now ∈ ms /\ from_slice doc = None).
Proof.
  induction ms as [| m ms IH]; intros e He Hms.
  { split_and!; [done | done |]. split; [done |]. intros (doc & ts & now & H & _). by apply elem_of_nil in H. }
  apply Forall_cons in Hms as [Hm Hms]. pose proof (step_keeps e m He Hm) as Hs.
  destruct m as [doc ts now | bytes].
  - rewrite filter_cons, decide_True by done. cbn [OrderflowService.run].
    destruct (OrderflowService.step as_u64 from_slice e _) as [[out e'] |] eqn:E.
    + destruct Hs as [He' Hout]. destruct (IH e' He' Hms) as (H1 & H2 & H3). rewrite <- H2.
      destruct (OrderflowService.run as_u64 from_slice e' ms) as [outs e'']. cbn [fst snd] in *.
      split_and!; [by apply Forall_app | done |]. rewrite H3. split; intros (doc' & ts' & now' & H & Hd).
      * exists doc', ts', now'. split; [by right | done].
      * apply elem_of_cons in H as [[= -> -> ->] | H]; [| by exists doc', ts', now'].
        cbn [OrderflowService.step] in E. by rewrite Hd in E.
    + cbn [fst snd]. split_and!; [done | done |]. split; [| done]. intros _.
      destruct Hs as (doc' & ts' & now' & [= -> -> ->] & Hd). exists doc', ts', now'. split; [by left | done].
  - rewrite filter_cons, decide_False by (by intros []). cbn [OrderflowService.run].
    assert (OrderflowService.step as_u64 from_slice e (OrderflowService.TickBytes bytes) = Some ([], e)) as E.
    { cbn [OrderflowService.step]. unfold TickWire.orderflow_decode. by rewrite decide_False by exact Hm. }
    rewrite E. destruct (IH e He Hms) as (H1 & H2 & H3). rewrite <- H2.
    destruct (OrderflowService.run as_u64 from_slice e ms) as [outs e'']. cbn [fst snd app] in *.
    split_and!; [done | done |]. rewrite H3. split; intros (doc' & ts' & now' & H & Hd); exists doc', ts', now'.
    + split; [by right | done].
    + apply elem_of_cons in H as [? | H]; [done | by split].
Qed.
End service.
End BooksOnly.

(** C17: Fed by the publishers of ticks, the order-flow service hears books only. The messages its tick loop
    receives from the market-data engine have 85 bytes, and the documents of the feed, the synthesizer and
    a playback have 78 at least; the loop takes 77, so they change nothing: the service behaves as if only
    the books arrived. Of the four reports it then makes one, spoofing, and always with full evidence,
    since no trade is counted against a candidate. It runs until the first book that is not JSON, and no
    other message ends it. This is said of these publishers only: a playback that republishes raw a
    recorded payload of 77 bytes is heard ([raw_payload_is_a_trade] of ReplayCli.v). *)
Theorem orderflow_service_hears_books_only `{J : Json} (as_u64 : Value -> option Z)
  (from_slice : list Z -> option Value) (to_vec : Value -> list Z) (ms : list OrderflowService.message) :
  (forall v z, as_u64 v = Some z -> u64_ok z) -> BooksOnly.json_text to_vec ->
  Forall (BooksOnly.published to_vec) ms ->
  let '(out, e) := OrderflowService.run as_u64 from_slice OrderflowEngine.new ms in
  OrderflowService.run as_u64 from_slice OrderflowEngine.new (filter BooksOnly.is_book ms) = (out, e)
  /\ (forall subject ev, OrderflowService.Event subject ev ∈ out ->
       exists side level, ev = OrderflowEvent.Spoofing side level f32_one)
  /\ (e = None <-> exists doc ts now, OrderflowService.BookDoc doc ts now ∈ ms /\ from_slice doc = None).
Proof.
  intros Hu Ht Hp.
  assert (Forall BooksOnly.skipped ms) as Hms
    by (eapply Forall_impl; [exact Hp |]; intros m Hm; by apply (BooksOnly.published_skipped to_vec)).
  destruct (BooksOnly.run_keeps as_u64 from_slice Hu ms OrderflowEngine.new BooksOnly.all_books_new Hms) as (H1 & H2 & H3).
  destruct (OrderflowService.run as_u64 from_slice OrderflowEngine.new ms) as [out e]. cbn [fst snd] in *.
  split_and!; [done | | done]. intros subject ev Hev. by apply (proj1 (Forall_forall _ _) H1) in Hev.
Qed.

(** A large bid that is gone at the next book, ticks in between, and a message that is not JSON. *)
Module BookSample.
Import UiSample.
Definition book (bid_qty ts_ns : Z) : Value (Json := json) :=
  JObj [("data", JObj [("symbol", JStr "RELIANCE"); ("bid_paise", JNum 100000); ("bid_qty", JNum bid_qty);
                       ("ask_paise", JNum 100010); ("ask_qty", JNum 10); ("ts_ns", JNum ts_ns)])].
Definition from_slice (doc : list Z) : option (Value (Json := json)) :=
  match doc with [bid_qty; ts_ns] => Some (book bid_qty ts_ns) | _ => None end.
Definition as_u64 (v : Value (Json := json)) : option Z :=
  match v with JNum z => if (0 <=? z) && (z <=? u64_max) then Some z else None | _ => None end.
(** A text of the length JSON has, at least. *)
Fixpoint size (v : jv) : nat :=
  match v with
  | JStr s => 2 + String.length s
  | JElem x rest => size x + 1 + size rest
  | JField k x rest => String.length k + 3 + size x + size rest
  | _ => 1
  end%nat.
Definition to_vec (v : Value (Json := json)) : list Z := replicate (size v) 32.
Definition document : Value (Json := json) :=
  JObj [("kind", JStr "tick");
        ("data", JObj [("symbol", JStr "RELIANCE"); ("ltp_paise", JNum 100000); ("bid_paise", JNum 100000);
                       ("ask_paise", JNum 100000); ("ts_recv_ns", JNum 7)])].
Definition messages : list OrderflowService.message :=
  [OrderflowService.BookDoc [10; 1] 0 1; OrderflowService.TickBytes (to_vec document); OrderflowService.BookDoc [12; 2] 0 2;
   OrderflowService.TickBytes (TickWire.tick_to_raw_bytes (QuietSample.tick 1 100000 3));
   OrderflowService.BookDoc [1000; 3] 0 3; OrderflowService.BookDoc [10; 4] 0 4;
   OrderflowService.BookDoc [0] 0 5; OrderflowService.BookDoc [10; 6] 0 6].
Definition ran := OrderflowService.run as_u64 from_slice OrderflowEngine.new messages.
Definition reports : list OrderflowEvent.t :=
  omap (fun o => match o with OrderflowService.Event _ e => Some e | OrderflowService.Heatmap _ _ => None end) ran.1.

Lemma to_vec_text : BooksOnly.json_text (J := json) to_vec.
Proof.
  assert (forall v, length (to_vec v) = size v) as Hl by (intros v; apply length_replicate).
  split; [intros v; rewrite Hl; destruct v; cbn; lia |]. intros l. rewrite Hl.
  induction l as [| [k x] l IH]; [cbn; lia |].
  change (String.length k + 3 + length (to_vec x) + sum_list (BooksOnly.member_length to_vec <$> l)
    <= String.length k + 3 + size x + size (JObj l))%nat. rewrite Hl. apply Nat.add_le_mono; [done | exact IH].
Qed.
End BookSample.

Lemma orderflow_service_hears_books_only_witness :
  BookSample.reports = [OrderflowEvent.Spoofing Side.Buy 100000 f32_one]
  /\ (forall subject ev, OrderflowService.Event subject ev ∈ BookSample.ran.1 ->
       exists side level, ev = OrderflowEvent.Spoofing side level f32_one)
  /\ BookSample.ran.2 = None.
Proof.
  pose proof (orderflow_service_hears_books_only (J := UiSample.json) BookSample.as_u64 BookSample.from_slice
    BookSample.to_vec BookSample.messages) as H. fold BookSample.ran in H.
  split; [vm_compute; reflexivity |]. destruct BookSample.ran as [out e]. destruct H as (_ & H2 & H3).
  - intros [| | n | | | |] z; try discriminate. unfold BookSample.as_u64.
    destruct (Z.leb_spec 0 n), (Z.leb_spec n u64_max); try discriminate. by intros [= <-].
  - apply BookSample.to_vec_text.
  - unfold BookSample.messages. repeat apply Forall_cons_2; try exact I; [| | by apply Forall_nil].
    + right. exists BookSample.document. split; [| reflexivity]. unfold BookSample.document.
      do 7 eexists. split_and!; reflexivity.
    + left. exists (QuietSample.tick 1 100000 3). split; [| reflexivity]. vm_compute. repeat split; discriminate.
  - split; [exact H2 |]. apply H3. exists [0], 0, 5. split; [| reflexivity].
    unfold BookSample.messages. rewrite !elem_of_cons. auto 10.
Defined.
