(* ===== verification/LiveService.v ===== *)
(** The execution binary as a service (crates/hedge-exec/src/main.rs): the two adapters it builds, its
    probe of both at boot, the task that switches between paper and live, and the consumer of the
    approvals.  The two tasks share one flag: [step] interleaves them, an approval being handled with
    the value the flag had when it was taken.  LiveRoute.v has the handling itself, which no message
    of the other task can change, and which is one step here.  The end of this file puts the service
    behind the user-interface gateway.

    The environment is an argument; the connection and the signal that ends the process are not
    modelled; parsing and printing JSON are parameters. *)

From S2P Require Import VendorFacts UiJoin Prelude Ieee Bytes Core Schemas BrokerApi LiveRoute VendorHttp Vendors UiGateway UiFacts.
From Stdlib Require Import Ascii.

(** ** The environment *)

Module ExecEnv.

(** [str::parse::<i64>]. *)
Definition minus_sign : ascii := ascii_of_N 45.
Definition parse_i64 (s : string) : option Z :=
  match s with
  | String c rest =>
    if Ascii.eqb c minus_sign then
      match rest with EmptyString => None | _ => Z.opp <$> parse_digits 10 (2 ^ 63) 0 rest end
    else from_str_radix 10 i64_max s
  | EmptyString => None
  end.

(** HEDGE_EXEC_MAX_NOTIONAL_INR. *)
Definition max_notional_inr (env : option string) : Z :=
  unwrap_or LiveRoute.DEFAULT_MAX_NOTIONAL_INR (env ≫= parse_i64).

Example notional_caps :
  max_notional_inr None = 50000 /\ max_notional_inr (Some "1000") = 1000
  /\ max_notional_inr (Some "-1") = -1 /\ max_notional_inr (Some "1e6") = 50000
  /\ max_notional_inr (Some EmptyString) = 50000.
Proof. vm_compute. split_and!; reflexivity. Qed.
End ExecEnv.

(** ** The adapters *)

Module LiveBrokers.
Section adapters.
Context {A B : Type}.

(** Each adapter has a state of its own. *)
Definition on_left {R} (f : A -> R * A) : A * B -> R * (A * B) :=
  fun w => let '(r, a) := f w.1 in (r, (a, w.2)).
Definition on_right {R} (f : B -> R * B) : A * B -> R * (A * B) :=
  fun w => let '(r, b) := f w.2 in (r, (w.1, b)).
Definition left_adapter (a : BrokerAdapter A) : BrokerAdapter (A * B) :=
  mk_BrokerAdapter (ba_broker_id a) (fun o => on_left (ba_submit a o)) (fun m => on_left (ba_modify a m))
    (fun id => on_left (ba_cancel a id)) (fun id => on_left (ba_status a id)) (on_left (ba_ready a)).
Definition right_adapter (b : BrokerAdapter B) : BrokerAdapter (A * B) :=
  mk_BrokerAdapter (ba_broker_id b) (fun o => on_right (ba_submit b o)) (fun m => on_right (ba_modify b m))
    (fun id => on_right (ba_cancel b id)) (fun id => on_right (ba_status b id)) (on_right (ba_ready b)).
End adapters.

(** The six variables of the environment; an absent one is empty. *)
Record Credentials := mk_Credentials {
  upstox_api_key : option string;
  upstox_api_secret : option string;
  upstox_access_token : option string;
  angelone_api_key : option string;
  angelone_jwt : option string;
  angelone_client_id : option string;
}.

Section build.
Context `{Transport} `{Upstox.Codec} `{AngelOne.Codec}.
Abbreviation var := (unwrap_or EmptyString) (only parsing).

Definition build_brokers (env : Credentials)
  : result (LiveRoute.Brokers (AdapterState * AdapterState) * (AdapterState * AdapterState)) BrokerError.t :=
  let upstox_creds :=
    Upstox.mk_UpstoxCredentials (var (upstox_api_key env)) (var (upstox_api_secret env))
      (var (upstox_access_token env)) in
  match Upstox.new upstox_creds with
  | Err e => Err e
  | Ok (upstox, u) =>
    let angel_creds :=
      AngelOne.new_credentials (var (angelone_api_key env)) (var (angelone_jwt env))
        (var (angelone_client_id env)) in
    match AngelOne.new angel_creds with
    | Err e => Err e
    | Ok (angel, a) =>
      Ok (LiveRoute.mk_Brokers (left_adapter (Upstox.adapter upstox)) (right_adapter (AngelOne.adapter angel)),
          (u, a))
    end
  end.
End build.
End LiveBrokers.

(** ** The service *)

Module ExecService.
Section service.
Context `{J : Json} (as_u64 : Value -> option Z) (jbool : bool -> Value).
Context (from_slice : list Z -> option Value) (to_vec : Value -> result (list Z) string).
Context {W : Type} (now : nat -> Z).

(** The probe of both adapters; what they answer is only logged. *)
Definition probe (brokers : LiveRoute.Brokers W) (b : W) : (ReadyState.t * ReadyState.t) * W :=
  let '(p_ready, b) := ba_ready (LiveRoute.primary brokers) b in
  let '(b_ready, b) := ba_ready (LiveRoute.backup brokers) b in
  ((p_ready, b_ready), b).

(** The fields [handle_approval] reads, from [data] or else the document itself. *)
Definition approval_of (v : Value) : LiveRoute.ApprovalEvent :=
  let data := unwrap_or v (jget v "data") in
  LiveRoute.mk_ApprovalEvent (jget data "correlation_id" ≫= as_str) (jget data "sized_quantity" ≫= as_u64)
    (jget data "symbol" ≫= as_str) (jget data "entry_price_paise" ≫= UiJoin.as_i64) (jget data "side" ≫= as_str).

(** One approval; bytes that are no document are only logged. *)
Definition on_approval (brokers : LiveRoute.Brokers W) (cap : Z) (bytes : list Z) (live : bool)
  (w : LiveRoute.world W) : LiveRoute.world W :=
  match from_slice bytes with
  | None => w
  | Some v => LiveRoute.handle_approval now brokers (approval_of v) live cap w
  end.

(** What a message of [trader.intent.trading_mode] asks for, and the echo of it. *)
Definition want_live (bytes : list Z) : bool :=
  unwrap_or false (v ← from_slice bytes; x ← jget v "live"; as_bool x).
Definition echo (want : bool) : list (string * list Z) :=
  match to_vec (jobject [("live", jbool want); ("source", jstring "hedge-exec")]) with
  | Ok bytes => [("exec.mode.confirmed", bytes)]
  | Err _ => []
  end.

(** The flag; the approval being handled, with the mode it was taken in; the brokers and what was
    published on the way of an order; what the mode task published. *)
Record state := mk_state {
  live_mode : bool;
  in_hand : option (list Z * bool);
  orders : LiveRoute.world W;
  echoed : list (string * list Z);
}.

Definition start (env_live : option string) (b : W) : state :=
  mk_state (LiveRoute.initial_live env_live) None (LiveRoute.mk_world b [] 0) [].

Inductive event :=
| ModeMessage (bytes : list Z)
| Taken (bytes : list Z)
| Handled.

Context (brokers : LiveRoute.Brokers W) (cap : Z).

Inductive step (s : state) : event -> state -> Prop :=
| step_mode bytes :
    step s (ModeMessage bytes)
      (mk_state (want_live bytes) (in_hand s) (orders s) (echoed s ++ echo (want_live bytes)))
| step_take bytes :
    in_hand s = None ->
    step s (Taken bytes) (mk_state (live_mode s) (Some (bytes, live_mode s)) (orders s) (echoed s))
| step_handle bytes live :
    in_hand s = Some (bytes, live) ->
    step s Handled (mk_state (live_mode s) None (on_approval brokers cap bytes live (orders s)) (echoed s)).

Inductive steps (s : state) : list event -> state -> Prop :=
| steps_none : steps s [] s
| steps_more trace e s1 s2 : steps s trace s1 -> step s1 e s2 -> steps s (trace ++ [e]) s2.
End service.
End ExecService.

(** ** Specification: who was asked, and when *)

Module SwitchSpec.
Import ExecService.
Section spec.
Context `{J : Json} (from_slice : list Z -> option Value).

(** The modes asked for, in order, and the one in force. *)
Definition asked (trace : list event) : list bool :=
  omap (fun e => match e with ModeMessage bytes => Some (want_live from_slice bytes) | _ => None end) trace.
Definition in_force (mode : bool) (trace : list event) : bool := unwrap_or mode (list.last (asked trace)).

(** The approvals taken, each with the mode in force at that moment. *)
Fixpoint taken (mode : bool) (trace : list event) : list (list Z * bool) :=
  match trace with
  | [] => []
  | ModeMessage bytes :: trace => taken (want_live from_slice bytes) trace
  | Taken bytes :: trace => (bytes, mode) :: taken mode trace
  | Handled :: trace => taken mode trace
  end.

Lemma in_force_snoc mode trace e :
  in_force mode (trace ++ [e])
  = match e with ModeMessage bytes => want_live from_slice bytes | _ => in_force mode trace end.
Proof.
  unfold in_force, asked. rewrite omap_app. destruct e as [bytes | bytes |]; cbn [omap list_omap].
  - by rewrite last_snoc.
  - by rewrite app_nil_r.
  - by rewrite app_nil_r.
Qed.

Lemma in_force_cons mode e trace :
  in_force mode (e :: trace)
  = in_force (match e with ModeMessage bytes => want_live from_slice bytes | _ => mode end) trace.
Proof.
  destruct e; try done. unfold in_force, asked. cbn [omap list_omap].
  rewrite last_cons. by destruct (list.last _).
Qed.

Lemma taken_app mode t1 t2 :
  taken mode (t1 ++ t2) = taken mode t1 ++ taken (in_force mode t1) t2.
Proof.
  revert mode. induction t1 as [| e t1 IH]; intros mode; [done |].
  rewrite in_force_cons. destruct e; cbn [app taken]; by rewrite IH.
Qed.

(** An approval taken live comes after a request for it, unless the service started live. *)
Lemma taken_live mode trace bytes :
  (bytes, true) ∈ taken mode trace -> mode = true \/ true ∈ asked trace.
Proof.
  revert mode. induction trace as [| e trace IH]; intros mode H; [by apply elem_of_nil in H |].
  destruct e as [b | b |]; cbn [taken] in H.
  - destruct (IH _ H) as [Hw | Hw]; right; apply elem_of_cons; [by left | by right].
  - apply elem_of_cons in H as [[= -> ->] | H]; [by left | by apply IH].
  - by apply IH.
Qed.
End spec.
End SwitchSpec.

(** ** An order depends on the brokers only *)

Module OrderFacts.
Import LiveRoute.
Section facts.
Context {W : Type} (now : nat -> Z).

(** Worlds with the brokers in the same state. *)
Definition agree (w w' : world W) : Prop := lw_brokers w = lw_brokers w'.
#[global] Instance agree_equivalence : Equivalence agree.
Proof. split; unfold agree; congruence. Qed.
#[global] Instance lw_brokers_agree : Proper (agree ==> eq) lw_brokers.
Proof. by intros w w' H. Qed.

Lemma publish_agree subject f w : agree (publish now subject f w) w.
Proof. done. Qed.

Lemma poll_agree n broker cid symbol id w w' :
  agree w w' -> agree (poll_loop now n broker cid symbol id w) (poll_loop now n broker cid symbol id w').
Proof.
  unfold agree. revert w w'. induction n as [| n IH]; intros w w' H; cbn [poll_loop]; [done |].
  rewrite H. destruct (ba_status broker id (lw_brokers w')) as [r b].
  destruct r as [st |]; [| by apply IH]. destruct (os_state st); try done; by apply IH.
Qed.

Lemma submitted_agree broker cid symbol ack w w' :
  agree w w' -> agree (submitted now broker cid symbol ack w) (submitted now broker cid symbol ack w').
Proof. intros H. apply poll_agree. exact H. Qed.

Lemma route_live_agree brokers cid symbol side qty price cap w w' :
  agree w w' ->
  agree (route_live now brokers cid symbol side qty price cap w)
    (route_live now brokers cid symbol side qty price cap w').
Proof.
  intros H. unfold route_live. destruct (blocked_by_cap _ _ _); [done |]. destruct (_ =? 0); [done |].
  rewrite H. destruct (ba_submit (primary brokers) _ (lw_brokers w')) as [r b].
  destruct r as [ack | e]; [by apply submitted_agree |]. destruct (fails_over e); [| done].
  cbn [publish lw_brokers]. destruct (ba_submit (backup brokers) _ b) as [[ack | e2] b2]; [| done].
  by apply submitted_agree.
Qed.

Lemma handle_agree brokers data live cap w w' :
  agree w w' ->
  agree (handle_approval now brokers data live cap w) (handle_approval now brokers data live cap w').
Proof.
  intros H. unfold handle_approval. destruct (decide _); [done |]. destruct (_ =? 0); [done |].
  destruct live; [by apply route_live_agree | done].
Qed.

Lemma paper_agree brokers data cap w : agree (handle_approval now brokers data false cap w) w.
Proof. unfold handle_approval. destruct (decide _); [done |]. by destruct (_ =? 0). Qed.
End facts.
End OrderFacts.

Module ExecFacts.
Import ExecService.
Section facts.
Context `{J : Json} (as_u64 : Value -> option Z) (jbool : bool -> Value).
Context (from_slice : list Z -> option Value) (to_vec : Value -> result (list Z) string).
Context {W : Type} (now : nat -> Z) (brokers : LiveRoute.Brokers W) (cap : Z).
Abbreviation on_approval := (on_approval as_u64 from_slice now brokers cap) (only parsing).
Abbreviation steps := (steps as_u64 jbool from_slice to_vec now brokers cap) (only parsing).

(** What an approval taken in live mode does to the brokers. *)
Definition order (bytes : list Z) (b : W) : W :=
  LiveRoute.lw_brokers (on_approval bytes true (LiveRoute.mk_world b [] 0)).

Definition handle_all (done : list (list Z * bool)) (w : LiveRoute.world W) : LiveRoute.world W :=
  foldl (fun w a => on_approval a.1 a.2 w) w done.

Lemma on_approval_brokers bytes live w :
  LiveRoute.lw_brokers (on_approval bytes live w)
  = if live then order bytes (LiveRoute.lw_brokers w) else LiveRoute.lw_brokers w.
Proof.
  unfold order, ExecService.on_approval. destruct (from_slice bytes) as [v |]; [| by destruct live].
  destruct live; [by apply OrderFacts.handle_agree | apply OrderFacts.paper_agree].
Qed.

(** Paper approvals can be left out. *)
Lemma handle_all_brokers done w :
  LiveRoute.lw_brokers (handle_all done w)
  = foldl (fun b a => order a.1 b) (LiveRoute.lw_brokers w) (List.filter snd done).
Proof.
  unfold handle_all. revert w. induction done as [| [bytes live] done IH]; intros w; [reflexivity |].
  cbn [foldl List.filter snd fst]. rewrite IH, on_approval_brokers. by destruct live.
Qed.

(** What a run has done, by its trace. *)
Record tracks (env_live : option string) (b : W) (trace : list event) (s : state) : Prop := {
  tr_mode : live_mode s = SwitchSpec.in_force from_slice (LiveRoute.initial_live env_live) trace;
  tr_echo : echoed s = concat (echo jbool to_vec <$> SwitchSpec.asked from_slice trace);
  tr_orders : exists done,
    SwitchSpec.taken from_slice (LiveRoute.initial_live env_live) trace = done ++ option_list (in_hand s)
    /\ orders s = handle_all done (LiveRoute.mk_world b [] 0);
}.

Lemma steps_track env_live b trace s : steps (start env_live b) trace s -> tracks env_live b trace s.
Proof.
  induction 1 as [| trace e s1 s2 _ IH Hstep].
  - split; [done | done |]. by exists [].
  - destruct IH as [Hm He (done & Ht & Ho)].
    destruct Hstep as [bytes | bytes Hh | bytes live Hh];
      (split; [by rewrite SwitchSpec.in_force_snoc | | rewrite SwitchSpec.taken_app, Ht]);
      unfold SwitchSpec.asked in *; cbn [echoed in_hand orders SwitchSpec.taken];
      try (rewrite omap_app, fmap_app, concat_app, <- He; cbn; by rewrite ?app_nil_r).
    + exists done. by rewrite app_nil_r.
    + exists done. rewrite Hh. cbn. by rewrite app_nil_r, <- Hm.
    + exists (done ++ [(bytes, live)]). rewrite Hh. cbn. rewrite !app_nil_r. split; [done |].
      unfold handle_all in *. by rewrite foldl_snoc, <- Ho.
Qed.

(** Brokers that changed: some message asked for live, unless the service started live. *)
Lemma changed_brokers env_live b trace s :
  steps (start env_live b) trace s -> LiveRoute.lw_brokers (orders s) <> b ->
  LiveRoute.initial_live env_live = true \/ true ∈ SwitchSpec.asked from_slice trace.
Proof.
  intros [_ _ (done & Ht & Ho)]%steps_track Hne. rewrite Ho, handle_all_brokers in Hne.
  destruct (List.filter snd done) as [| [bytes live] l] eqn:E; [done |].
  assert (In (bytes, live) (List.filter snd done)) as Hin by (rewrite E; by left).
  apply filter_In in Hin as [Hin Hl]. cbn in Hl. subst live.
  apply (SwitchSpec.taken_live from_slice _ trace bytes). rewrite Ht. apply elem_of_app. left.
  by apply list_elem_of_In.
Qed.
End facts.
End ExecFacts.

(** ** Theorems *)

(** C27: However mode messages and approvals interleave, the brokers are in the state that the
    approvals taken while live was in force, in that order and nothing else, put them in: every paper
    approval can be left out.  What is published is what handling each approval in the mode it was
    taken in publishes: a switch to paper does not reach the approval already in hand, and the flag
    is the last mode asked for, each echoed once. *)
Theorem orders_follow_the_mode_switch `{J : Json} as_u64 jbool from_slice to_vec {W : Type} (now : nat -> Z)
  (brokers : LiveRoute.Brokers W) (cap : Z) (env_live : option string) (b : W) trace s :
  ExecService.steps as_u64 jbool from_slice to_vec now brokers cap (ExecService.start env_live b) trace s ->
  exists done,
    SwitchSpec.taken from_slice (LiveRoute.initial_live env_live) trace
      = done ++ option_list (ExecService.in_hand s)
    /\ ExecService.orders s
       = foldl (fun w a => ExecService.on_approval as_u64 from_slice now brokers cap a.1 a.2 w)
           (LiveRoute.mk_world b [] 0) done
    /\ LiveRoute.lw_brokers (ExecService.orders s)
       = foldl (fun b a => LiveRoute.lw_brokers
                  (ExecService.on_approval as_u64 from_slice now brokers cap a.1 true (LiveRoute.mk_world b [] 0)))
           b (List.filter snd done)
    /\ ExecService.live_mode s = SwitchSpec.in_force from_slice (LiveRoute.initial_live env_live) trace
    /\ ExecService.echoed s = concat (ExecService.echo jbool to_vec <$> SwitchSpec.asked from_slice trace).
Proof.
  intros [Hm He (done & Ht & Ho)]%ExecFacts.steps_track. exists done. split_and!; try done.
  rewrite Ho. apply (ExecFacts.handle_all_brokers as_u64 from_slice now brokers cap).
Qed.

(** *** Behind the gateway *)

Module CockpitFacts.
Import Dispatcher.
Section facts.
Context `{J : Json} (to_vec : Value -> result (list Z) string).
Context (publish : string -> list Z -> result unit string) (to_value : list Alerts.UiAlert -> Value).
Context (iter : gmap string SignalsJoiner.PendingJoin -> list (string * SignalsJoiner.PendingJoin)).
Context (from_str : string -> result ClientMsg string).

Definition published_by (st : DispatcherState) (inputs : list Input) : list Output :=
  mjoin (run_session publish to_vec to_value iter from_str (new_session st) inputs).1.1.

(** The trader asked for live trading on an open control channel. *)
Definition asks_live (inputs : list Input) : Prop :=
  exists n text rid payload,
    inputs !! n = Some (Text text)
    /\ from_str text = Ok (Intent rid IntentKind.TradingMode payload)
    /\ SessionFacts.control_open from_str (take n inputs) = true
    /\ Intents.field_bool payload "live" = Some true.

Lemma subject_of_mode kind : IntentKind.nats_subject IntentKind.TradingMode = IntentKind.nats_subject kind ->
  kind = IntentKind.TradingMode.
Proof. by destruct kind. Qed.

Lemma lengths inputs : forall s,
  (length (run_session publish to_vec to_value iter from_str s inputs).1.1 <= length inputs)%nat.
Proof.
  induction inputs as [| i inputs IH]; intros s; cbn [run_session]; [done |].
  destruct (session_step _ _ _ _ _ s i) as [[out s1] flow]. specialize (IH s1).
  destruct flow; try (cbn; lia). destruct (run_session _ _ _ _ _ s1 inputs) as [[outs s2] fl]. cbn in *. lia.
Qed.

(** A published mode is the payload of an intent the session was authorised for. *)
Lemma published_mode st inputs bytes :
  Published (IntentKind.nats_subject IntentKind.TradingMode) bytes ∈ published_by st inputs ->
  exists n text rid payload,
    inputs !! n = Some (Text text)
    /\ from_str text = Ok (Intent rid IntentKind.TradingMode payload)
    /\ SessionFacts.control_open from_str (take n inputs) = true
    /\ is_some (Intents.field_bool payload "live") = true /\ to_vec payload = Ok bytes.
Proof.
  unfold published_by. intros (out & Hout & (n & Hn)%list_elem_of_lookup)%list_elem_of_join.
  pose proof (lookup_lt_Some _ _ _ Hn) as Hlt.
  pose proof (lengths inputs (new_session st)) as Hl.
  destruct (lookup_lt_is_Some_2 inputs n ltac:(lia)) as [i Hi].
  destruct (SessionFacts.run_authorised publish to_vec to_value iter from_str inputs (new_session st) false
    eq_refl n i out Hi Hn) as [Hauth _].
  rewrite Forall_forall in Hauth. destruct (Hauth _ Hout) as (text & rid & kind & payload & -> & Hf & Ho & Hv & Hs & Ht).
  apply subject_of_mode in Hs as ->. exists n, text, rid, payload. split_and!; try done.
  unfold Intents.validate_intent in Hv. by destruct (Intents.field_bool payload "live").
Qed.
End facts.
End CockpitFacts.

(** C10: When the messages of the trading mode are what sessions of the gateway published, and the
    service was not started live, a broker's state changes only after a client asked for live trading
    on a control channel it had opened. *)
Theorem real_orders_need_a_cockpit_switch `{J : Json} as_u64 jbool from_slice to_vec {W : Type} (now : nat -> Z)
  (brokers : LiveRoute.Brokers W) (cap : Z) (env_live : option string) (b : W) trace s
  publish to_value iter from_str (sessions : list (Dispatcher.DispatcherState * list Dispatcher.Input)) :
  (forall v bytes, to_vec v = Ok bytes ->
    exists v', from_slice bytes = Some v' /\ Intents.field_bool v' "live" = Intents.field_bool v "live") ->
  (forall bytes, ExecService.ModeMessage bytes ∈ trace -> exists st inputs, (st, inputs) ∈ sessions
     /\ Dispatcher.Published "trader.intent.trading_mode" bytes
        ∈ CockpitFacts.published_by to_vec publish to_value iter from_str st inputs) ->
  LiveRoute.initial_live env_live = false ->
  ExecService.steps as_u64 jbool from_slice to_vec now brokers cap (ExecService.start env_live b) trace s ->
  LiveRoute.lw_brokers (ExecService.orders s) <> b ->
  exists st inputs, (st, inputs) ∈ sessions /\ CockpitFacts.asks_live from_str inputs.
Proof.
  intros Hjson Hbus Henv Hsteps Hne.
  destruct (ExecFacts.changed_brokers _ _ _ _ _ _ _ _ _ _ _ Hsteps Hne) as [? | Hlive]; [congruence |].
  apply list_elem_of_omap in Hlive as (e & He & Hw). destruct e as [bytes | |]; try done.
  destruct (Hbus _ He) as (st & inputs & Hin & Hp). exists st, inputs. split; [done |].
  destruct (CockpitFacts.published_mode _ _ _ _ _ _ _ _ Hp) as (n & text & rid & payload & Hi & Hf & Ho & Hv & Ht).
  exists n, text, rid, payload. split_and!; try done.
  destruct (Hjson _ _ Ht) as (v & Hs & Hv'). rewrite <- Hv' in *. injection Hw as Hw.
  unfold ExecService.want_live in Hw. rewrite Hs in Hw. cbn in Hw. unfold Intents.field_bool in *.
  destruct (jget v "live") as [x |]; [| done]. cbn in Hw. by destruct (as_bool x) as [[] |].
Qed.

(** A switch asked for on an open control channel is published, and obeyed when it arrives. *)
Lemma switch_is_published_and_obeyed `{J : Json} as_u64 jbool from_slice to_vec {W : Type} (now : nat -> Z)
  (brokers : LiveRoute.Brokers W) cap publish to_value iter from_str text rid payload mode bytes
  (c : Dispatcher.Session) (s : ExecService.state) :
  from_str text = Ok (Intent rid IntentKind.TradingMode payload) ->
  Intents.field_bool payload "live" = Some mode ->
  Subscriptions.is_subscribed (Dispatcher.subs c) Channel.Control = true ->
  to_vec payload = Ok bytes -> from_slice bytes = Some payload ->
  Dispatcher.Published "trader.intent.trading_mode" bytes
    ∈ (Dispatcher.session_step publish to_vec to_value iter from_str c (Dispatcher.Text text)).1.1
  /\ exists s', ExecService.step as_u64 jbool from_slice to_vec now brokers cap s (ExecService.ModeMessage bytes) s'
       /\ ExecService.live_mode s' = mode.
Proof.
  intros Hf Hm Hc Ht Hs. split.
  - cbn [Dispatcher.session_step]. rewrite Hf. cbn [Dispatcher.handle_client].
    unfold Dispatcher.handle_intent. rewrite Hc. cbn [negb]. unfold Intents.publish_intent. cbn [Intents.validate_intent].
    rewrite Hm, Ht. cbn. apply elem_of_cons. by left.
  - eexists. split; [constructor |]. cbn. unfold ExecService.want_live. rewrite Hs. cbn.
    unfold Intents.field_bool in Hm. destruct (jget payload "live"); [cbn; by rewrite Hm | done].
Qed.

(** The screen never hears the confirmation: no pattern of the gateway matches its subject. *)
Lemma confirmed_mode_not_subscribed : subscribed_to "exec.mode.confirmed" = false.
Proof. vm_compute. reflexivity. Qed.

(** *** No order falls back to paper *)

Module NoFallback.
Import LiveRoute.

Definition is_paper (p : Payload) : bool :=
  match p with OrderEvent _ _ _ _ _ _ paper | FillEvent _ _ _ _ _ paper => paper | _ => false end.

Section facts.
Context {W : Type} (now : nat -> Z).

(** Nothing is taken back, and nothing added is marked as paper. *)
Definition adds_live (w w' : world W) : Prop :=
  exists l, lw_published w' = lw_published w ++ l /\ Forall (fun m => is_paper m.2 = false) l.
#[global] Instance adds_live_preorder : PreOrder adds_live.
Proof.
  split.
  - intros w. exists []. by rewrite app_nil_r.
  - intros w1 w2 w3 (l & Hl & Hf) (l' & Hl' & Hf'). exists (l ++ l'). rewrite Hl', Hl, app_assoc.
    split; [done | by apply Forall_app].
Qed.

Lemma publish_adds subject f w : (forall z, is_paper (f z) = false) -> adds_live w (publish now subject f w).
Proof. intros Hf. eexists. split; [reflexivity |]. constructor; [apply Hf | constructor]. Qed.

Lemma adds_after subject f w w' :
  adds_live (publish now subject f w) w' -> (forall z, is_paper (f z) = false) -> adds_live w w'.
Proof. intros Hw Hf. etransitivity; [by apply publish_adds | exact Hw]. Qed.

(** A call to a broker publishes nothing. *)
Lemma adds_called b w w' : adds_live (mk_world b (lw_published w) (lw_reads w)) w' -> adds_live w w'.
Proof. done. Qed.

Lemma poll_adds n broker cid symbol id w : adds_live w (poll_loop now n broker cid symbol id w).
Proof.
  revert w. induction n as [| n IH]; intros w; cbn [poll_loop]; [reflexivity |].
  destruct (ba_status broker id (lw_brokers w)) as [r b]. apply (adds_called b).
  destruct r as [st |]; [destruct (os_state st) |]; try apply IH; by apply publish_adds.
Qed.

Lemma submitted_adds broker cid symbol ack w : adds_live w (submitted now broker cid symbol ack w).
Proof. by eapply adds_after; [apply poll_adds |]. Qed.

Lemma rejected_adds cid symbol reason w : adds_live w (rejected now cid symbol reason w).
Proof. by apply publish_adds. Qed.

(** The documentation has an order whose adapter is not ready fall back to paper; it goes to the
    other broker or is rejected. *)
Lemma live_orders_never_fall_back brokers data cap w :
  adds_live w (handle_approval now brokers data true cap w).
Proof.
  unfold handle_approval. destruct (decide _); [reflexivity |]. destruct (_ =? 0); [reflexivity |].
  unfold route_live. destruct (blocked_by_cap _ _ _); [apply rejected_adds |].
  destruct (_ =? 0); [apply rejected_adds |].
  destruct (ba_submit (primary brokers) _ (lw_brokers w)) as [[ack | e] b]; apply (adds_called b).
  { apply submitted_adds. }
  destruct (fails_over e); [| apply rejected_adds].
  eapply adds_after.
  - destruct (ba_submit (backup brokers) _ _) as [[ack | e2] b2]; apply (adds_called b2);
      [apply submitted_adds | apply rejected_adds].
  - done.
Qed.
End facts.
End NoFallback.

(** *** A primary broker that is not ready *)

Module UnreadyPrimary.
Import LiveRoute.
Section facts.
Context `{T : Transport} `{CU : !Upstox.Codec} `{CA : !AngelOne.Codec}.

(** Refusing for good: this reason, these requests, and the other adapter as it was. *)
Definition refusing (reason : string) (sent : list Request) (other : AdapterState)
  (w : AdapterState * AdapterState) : Prop :=
  ready_state w.1 = ReadyState.ConfigError reason /\ requests w.1 = sent /\ w.2 = other.

Lemma refused_submit u o w reason sent other : refusing reason sent other w ->
  let '(r, w') := ba_submit (LiveBrokers.left_adapter (Upstox.adapter u)) o w in
  r = Err (BrokerError.NotReady reason) /\ refusing reason sent other w'.
Proof.
  intros (Hr & Hs & Ho). cbn. unfold LiveBrokers.on_left. cbn [ba_submit Upstox.adapter]. unfold Upstox.submit, guarded.
  cbn [read_clock fst snd]. unfold fail_closed_if_misconfigured. cbn [ready_state]. rewrite Hr.
  by split.
Qed.

Lemma refused_order upstox angel reason sent other data live cap (now : nat -> Z) w :
  refusing reason sent other (lw_brokers w) ->
  let brokers := mk_Brokers (LiveBrokers.left_adapter (Upstox.adapter upstox)) angel in
  refusing reason sent other (lw_brokers (handle_approval now brokers data live cap w)).
Proof.
  intros Hw brokers. unfold handle_approval. destruct (decide _); [done |]. destruct (_ =? 0); [done |].
  destruct live; [| done]. unfold route_live. destruct (blocked_by_cap _ _ _); [done |].
  destruct (_ =? 0); [done |]. set (intent := live_intent _ _ _ _).
  pose proof (refused_submit upstox intent (lw_brokers w) reason sent other Hw) as H.
  unfold brokers. cbn [primary]. destruct (ba_submit _ intent (lw_brokers w)) as [r b].
  destruct H as [-> Hb]. cbn [fails_over BrokerError.is_retryable orb]. exact Hb.
Qed.

Lemma refused_all `{J : Json} as_u64 from_slice now cap upstox angel reason sent other done w :
  refusing reason sent other (lw_brokers w) ->
  refusing reason sent other (lw_brokers (ExecFacts.handle_all as_u64 from_slice now
    (mk_Brokers (LiveBrokers.left_adapter (Upstox.adapter upstox)) angel) cap done w)).
Proof.
  unfold ExecFacts.handle_all. revert w. induction done as [| a done IH]; intros w Hw; [exact Hw |].
  cbn [foldl]. apply IH. unfold ExecService.on_approval. destruct (from_slice a.1); [| done].
  by apply refused_order.
Qed.

Lemma validate_no_token env :
  unwrap_or EmptyString (LiveBrokers.upstox_access_token env) = EmptyString ->
  exists reason, Upstox.validate (Upstox.mk_UpstoxCredentials
    (unwrap_or EmptyString (LiveBrokers.upstox_api_key env))
    (unwrap_or EmptyString (LiveBrokers.upstox_api_secret env))
    (unwrap_or EmptyString (LiveBrokers.upstox_access_token env))) = Err reason.
Proof. intros ->. unfold Upstox.validate. cbn. repeat (case_decide; [by eexists |]). done. Qed.

Lemma probe_refuses upstox angel reason a w p w' :
  Upstox.validate (Upstox.creds upstox) = Err reason -> w.2 = a -> requests w.1 = [] ->
  ExecService.probe (mk_Brokers (LiveBrokers.left_adapter (Upstox.adapter upstox))
    (LiveBrokers.right_adapter (AngelOne.adapter angel))) w = (p, w') ->
  refusing reason [] (AngelOne.ready angel a).2 w'.
Proof.
  intros Hv Ha Hs. unfold ExecService.probe, LiveBrokers.left_adapter, LiveBrokers.right_adapter,
    LiveBrokers.on_left, LiveBrokers.on_right.
  cbn [primary backup ba_ready Upstox.adapter AngelOne.adapter]. unfold Upstox.ready, VendorHttp.probe.
  rewrite Hv. cbn -[AngelOne.ready]. rewrite Ha.
  destruct (AngelOne.ready angel a) as [rb b]. cbn. by intros [= <- <-].
Qed.
End facts.
End UnreadyPrimary.

(** Without the daily token of the primary broker the service, in whatever mode, sends no order to
    anyone: the primary adapter refuses, and a refusal for readiness is not one that fails over, so
    that the backup is never asked after the probe at boot. *)
Theorem missing_token_stops_every_order `{J : Json} `{T : Transport} `{CU : !Upstox.Codec} `{CA : !AngelOne.Codec}
  as_u64 jbool from_slice to_vec (now : nat -> Z) cap env env_live brokers w0 ready w1 trace s :
  unwrap_or EmptyString (LiveBrokers.upstox_access_token env) = EmptyString ->
  LiveBrokers.build_brokers env = Ok (brokers, w0) ->
  ExecService.probe brokers w0 = (ready, w1) ->
  ExecService.steps as_u64 jbool from_slice to_vec now brokers cap (ExecService.start env_live w1) trace s ->
  requests (LiveRoute.lw_brokers (ExecService.orders s)).1 = []
  /\ (LiveRoute.lw_brokers (ExecService.orders s)).2 = w1.2.
Proof.
  intros Htok Hbuild Hprobe [_ _ (done & _ & Ho)]%ExecFacts.steps_track.
  destruct (UnreadyPrimary.validate_no_token env Htok) as [reason Hv].
  unfold LiveBrokers.build_brokers, Upstox.new, Upstox.with_base_url, AngelOne.new, AngelOne.with_base_url in Hbuild.
  unfold built in Hbuild. destruct build_client; [| done]. injection Hbuild as <- <-.
  eapply UnreadyPrimary.probe_refuses in Hprobe as Hr; [| exact Hv | reflexivity | reflexivity].
  assert (w1.2 = (AngelOne.ready _ _).2) as -> by apply Hr. rewrite Ho.
  eapply (UnreadyPrimary.refused_all as_u64 from_slice now cap _ _ _ _ _ done (LiveRoute.mk_world w1 [] 0))
    in Hr as (_ & Hs & Hb).
  split; [exact Hs | exact Hb].
Qed.

(** ** Concrete runs *)

Module ExecSample.
Import UiSample.

(** A mode is one byte, and two is an approval of ten shares. *)
Definition approval : jv :=
  JObj [("data", JObj [("correlation_id", JStr "c1"); ("sized_quantity", JNum 10); ("symbol", JStr "SBIN")])].
Definition from_slice (bytes : list Z) : option jv :=
  match bytes with
  | [0] => Some (JObj [("live", JBool false)])
  | [1] => Some (JObj [("live", JBool true)])
  | [2] => Some approval
  | _ => None
  end.
Definition to_vec (v : jv) : result (list Z) string :=
  match v with JField "live" (JBool b) _ => Ok [if b then 1 else 0] | _ => Err "unused" end.
Definition as_u64 (v : jv) : option Z := match v with JNum z => if 0 <=? z then Some z else None | _ => None end.

Lemma to_vec_read v bytes : to_vec v = Ok bytes ->
  exists v', from_slice bytes = Some v' /\ Intents.field_bool v' "live" = Intents.field_bool v "live".
Proof.
  unfold to_vec. intros H. repeat case_match; try done; injection H as <-; subst; eexists; by split.
Qed.

Definition step := ExecService.step as_u64 JBool from_slice to_vec Z.of_nat LiveSample.brokers 50000.
Definition steps := ExecService.steps as_u64 JBool from_slice to_vec Z.of_nat LiveSample.brokers 50000.
Definition start := ExecService.start (W := Z) None 0.

(** An approval in paper mode; one taken live and handled after the switch back. *)
Definition trace : list ExecService.event :=
  [ExecService.Taken [2]; ExecService.Handled; ExecService.ModeMessage [1]; ExecService.Taken [2];
   ExecService.ModeMessage [0]; ExecService.Handled].

Lemma run_mode s t s1 bytes : steps s t s1 ->
  steps s (t ++ [ExecService.ModeMessage bytes])
    (ExecService.mk_state (ExecService.want_live from_slice bytes) (ExecService.in_hand s1) (ExecService.orders s1)
       (ExecService.echoed s1 ++ ExecService.echo JBool to_vec (ExecService.want_live from_slice bytes))).
Proof. intros H. econstructor; [exact H | constructor]. Qed.
Lemma run_take s t s1 bytes : steps s t s1 -> ExecService.in_hand s1 = None ->
  steps s (t ++ [ExecService.Taken bytes])
    (ExecService.mk_state (ExecService.live_mode s1) (Some (bytes, ExecService.live_mode s1)) (ExecService.orders s1)
       (ExecService.echoed s1)).
Proof. intros H Hh. econstructor; [exact H | by constructor]. Qed.
Lemma run_handle s t s1 bytes live : steps s t s1 -> ExecService.in_hand s1 = Some (bytes, live) ->
  steps s (t ++ [ExecService.Handled])
    (ExecService.mk_state (ExecService.live_mode s1) None
       (ExecService.on_approval as_u64 from_slice Z.of_nat LiveSample.brokers 50000 bytes live (ExecService.orders s1))
       (ExecService.echoed s1)).
Proof. intros H Hh. econstructor; [exact H | by constructor]. Qed.

Lemma runs : exists s, steps start trace s /\ LiveRoute.lw_brokers (ExecService.orders s) = 1.
Proof.
  assert (steps start [] start) as H by constructor.
  apply run_take with (bytes := [2]) in H; [| reflexivity].
  eapply run_handle in H; [| reflexivity]. apply run_mode with (bytes := [1]) in H.
  apply run_take with (bytes := [2]) in H; [| reflexivity]. apply run_mode with (bytes := [0]) in H.
  eapply run_handle in H; [| reflexivity]. eexists. split; [exact H | vm_compute; reflexivity].
Qed.

(** A client opens the control channel and asks for live, then for paper. *)
Definition from_str (s : string) : result ClientMsg string :=
  if decide (s = "control") then Ok (Subscribe None Channel.Control [])
  else if decide (s = "live") then Ok (Intent None IntentKind.TradingMode (JObj [("live", JBool true)]))
  else if decide (s = "paper") then Ok (Intent None IntentKind.TradingMode (JObj [("live", JBool false)]))
  else Err "expected value".
Definition inputs : list Dispatcher.Input :=
  [Dispatcher.Text "control"; Dispatcher.Text "live"; Dispatcher.Text "paper"].

Lemma published :
  CockpitFacts.published_by to_vec UiSample.publish UiSample.to_value map_to_list from_str UiSample.state inputs
  = [Dispatcher.Sent (Ack None Channel.Control);
     Dispatcher.Published "trader.intent.trading_mode" [1]; Dispatcher.Sent (Ack None Channel.Control);
     Dispatcher.Published "trader.intent.trading_mode" [0]; Dispatcher.Sent (Ack None Channel.Control)].
Proof. reflexivity. Qed.

(** The environment without a token, and the service built from it. *)
Definition no_token : LiveBrokers.Credentials :=
  LiveBrokers.mk_Credentials (Some "key") (Some "secret") None (Some "key") (Some "jwt") (Some "client").
#[local] Instance transport : Transport := demo_transport 200.
#[local] Existing Instances demo_upstox demo_angel.
Definition upstox : Upstox.t :=
  Upstox.mk (Upstox.mk_UpstoxCredentials "key" "secret" EmptyString) Upstox.UPSTOX_API_BASE.
Definition angel : AngelOne.t :=
  AngelOne.mk (AngelOne.new_credentials "key" "jwt" "client") AngelOne.SMARTAPI_BASE.
Definition brokers :=
  LiveRoute.mk_Brokers (LiveBrokers.left_adapter (Upstox.adapter upstox))
    (LiveBrokers.right_adapter (AngelOne.adapter angel)).
Definition w0 : AdapterState * AdapterState :=
  (initial_state (Upstox.validate (Upstox.creds upstox)), initial_state (AngelOne.validate (AngelOne.creds angel))).
Definition w1 : AdapterState * AdapterState := (ExecService.probe brokers w0).2.
Definition runs_from :=
  ExecService.steps as_u64 JBool from_slice to_vec Z.of_nat brokers 50000 (ExecService.start (Some "on") w1).
Lemma refused_run : exists s, runs_from [ExecService.Taken [2]; ExecService.Handled] s.
Proof.
  eexists. eapply (ExecService.steps_more _ _ _ _ _ _ _ _ [_]).
  - eapply (ExecService.steps_more _ _ _ _ _ _ _ _ []); [constructor | by constructor].
  - by econstructor.
Qed.
End ExecSample.

Lemma orders_follow_the_mode_switch_witness :
  exists s done,
    SwitchSpec.taken (J := UiSample.json) ExecSample.from_slice false ExecSample.trace = done ++ option_list (ExecService.in_hand s)
    /\ LiveRoute.lw_brokers (ExecService.orders s) = 1.
Proof.
  destruct ExecSample.runs as (s & Hs & Hb). exists s.
  destruct (orders_follow_the_mode_switch (J := UiSample.json) ExecSample.as_u64 UiSample.JBool ExecSample.from_slice ExecSample.to_vec
    Z.of_nat LiveSample.brokers 50000 None 0 ExecSample.trace s Hs) as (done & Ht & _).
  exists done. split; [exact Ht | exact Hb].
Defined.

Lemma real_orders_need_a_cockpit_switch_witness :
  exists st inputs, (st, inputs) ∈ [(UiSample.state, ExecSample.inputs)]
    /\ CockpitFacts.asks_live ExecSample.from_str inputs.
Proof.
  destruct ExecSample.runs as (s & Hs & Hb).
  apply (real_orders_need_a_cockpit_switch (J := UiSample.json) ExecSample.as_u64 UiSample.JBool ExecSample.from_slice ExecSample.to_vec
    Z.of_nat LiveSample.brokers 50000 None 0 ExecSample.trace s UiSample.publish UiSample.to_value map_to_list
    ExecSample.from_str [(UiSample.state, ExecSample.inputs)]).
  - exact ExecSample.to_vec_read.
  - intros bytes H. exists UiSample.state, ExecSample.inputs. split; [by apply list_elem_of_singleton |].
    assert (bytes = [0] \/ bytes = [1]) as Hbytes.
    { unfold ExecSample.trace in H. repeat (apply elem_of_cons in H as [H | H]; [simplify_eq; auto |]).
      by apply elem_of_nil in H. }
    rewrite ExecSample.published. destruct Hbytes as [-> | ->].
    + do 3 right. left.
    + right. left.
  - reflexivity.
  - exact Hs.
  - rewrite Hb. discriminate.
Defined.

Lemma missing_token_stops_every_order_witness :
  exists s, ExecSample.runs_from [ExecService.Taken [2]; ExecService.Handled] s
    /\ requests (LiveRoute.lw_brokers (ExecService.orders s)).1 = []
    /\ (LiveRoute.lw_brokers (ExecService.orders s)).2 = ExecSample.w1.2.
Proof.
  destruct ExecSample.refused_run as [s Hs]. exists s. split; [exact Hs |].
  refine (missing_token_stops_every_order (J := UiSample.json) (T := ExecSample.transport) (CU := demo_upstox)
    (CA := demo_angel) ExecSample.as_u64 UiSample.JBool ExecSample.from_slice ExecSample.to_vec Z.of_nat 50000
    ExecSample.no_token (Some "on") ExecSample.brokers ExecSample.w0 (ExecService.probe ExecSample.brokers ExecSample.w0).1
    _ _ s _ _ _ Hs).
  - reflexivity.
  - reflexivity.
  - apply surjective_pairing.
Defined.
