(* ===== verification/GatewayMain.v ===== *)
(** The service of hedge-ui-gateway: the conversion of what the bus carries into documents
    (decoder_shim.rs), the subscriptions and the forwarding of their messages (main.rs), and the
    server whose connections share one state (gateway.rs).  The end of the file puts the signal
    service before it.

    The bus's matching of subjects, the JSON parser and the base64 encoding are parameters.  A
    connection is given its events as inputs: how the broadcast channel drops the oldest of them when
    it lags is its [Lagged] input. *)

From S2P Require Import UiJoin Prelude Ieee Bytes Core Schemas Signals Wire Vendors Decimal UiGateway UiFacts Services ServiceFacts.
From Stdlib Require Import Ascii.

(** ** The documents of the screen *)

Module DecoderShim.
Section shim.
Context `{J : Json} (as_u64 : Value -> option Z) (as_array : Value -> option (list Value)).
Context (jf32 : f32 -> Value) (from_slice : list Z -> option Value) (b64 : list Z -> string).

Definition field (row : Value) (name : string) (as_n : Value -> option Z) : Z :=
  unwrap_or 0 (jget row name ≫= as_n).

(** The cells of one row, with the price they are sorted by. *)
Definition row_cells (row : Value) : list (Z * Value) :=
  let bid_price := field row "bid_price_paise" UiJoin.as_i64 in
  let ask_price := field row "ask_price_paise" UiJoin.as_i64 in
  let bid_qty := field row "bid_qty" as_u64 in
  let ask_qty := field row "ask_qty" as_u64 in
  let cell price buy sell :=
    (price, jobject [("price_paise", jnumber price); ("buy_qty", jnumber buy); ("sell_qty", jnumber sell)]) in
  (if 0 <? bid_qty then [cell bid_price bid_qty 0] else [])
  ++ (if 0 <? ask_qty then [cell ask_price 0 ask_qty] else []).

Definition heatmap_cells (v : Value) : list Value :=
  match jget v "rows" ≫= as_array with
  | Some rows => snd <$> sort_by (by_key fst) (concat (row_cells <$> rows))
  | None => []
  end.

Definition heatmap_document (symbol : string) (v : Value) : Value :=
  jobject [("kind", jstring "heatmap");
           ("data", jobject [("symbol", jstring symbol); ("cells", jarray (heatmap_cells v));
                             ("ts_ns", unwrap_or (jnumber 0) (jget v "ts_ns"))])].

Definition decode_tick (symbol : string) (t : Z * Z * Z * Z) : Value :=
  let '(ltp, bid, ask, ts_recv_ns) := t in
  jobject [("kind", jstring "tick");
           ("data", jobject [("symbol", jstring symbol); ("ltp_paise", jnumber ltp); ("bid_paise", jnumber bid);
                             ("ask_paise", jnumber ask); ("ts_recv_ns", jnumber ts_recv_ns)])].

Definition decode_signal (s : Z * Z * Z * f32 * Z) : Value :=
  let '(strategy, symbol, side, conf, ts_ns) := s in
  jobject [("kind", jstring "signal");
           ("data", jobject [("strategy", jnumber strategy); ("symbol", jnumber symbol); ("side", jnumber side);
                             ("confidence", jf32 conf); ("ts_ns", jnumber ts_ns)])].

(** What follows the prefix of a subject. *)
Definition symbol_of (prefix subject : string) : string := unwrap_or "UNKNOWN" (strip_prefix prefix subject).

Definition decode_payload_shim (subject : string) (bytes : list Z) : Value :=
  match from_slice bytes with
  | Some v =>
    if String.prefix "of.heatmap." subject then heatmap_document (symbol_of "of.heatmap." subject) v
    else if String.prefix "of.event." subject then jobject [("kind", jstring "event"); ("data", v)]
    else v
  | None =>
    match TickWire.shim_tick subject bytes with
    | Some t => decode_tick (symbol_of "md.tick." subject) t
    | None =>
      match SignalWire.shim_signal subject bytes with
      | Some s => decode_signal s
      | None => jobject [("_raw_b64", jstring (b64 bytes))]
      end
    end
  end.
End shim.
End DecoderShim.

(** ** From the bus to the broadcast *)

Module FanOut.

(** A message of the bus, and the wall clock when its task forwards it ([None] outside the range
    of nanoseconds). *)
Record Message := mk_Message { m_subject : string; m_bytes : list Z; m_clock : option Z }.

(** [subject.rsplit('.').next()]. *)
Definition topic_suffix (subject : string) : string := unwrap_or EmptyString (list.last (Channels.segments subject)).

(** One subscription per pattern of every channel. *)
Definition subscriptions : list (Channel.t * string) :=
  concat ((fun ch => (fun p => (ch, p)) <$> Channels.nats_patterns ch) <$> Channel.ALL).

Section fan_out.
Context `{J : Json} (as_u64 : Value -> option Z) (as_array : Value -> option (list Value)).
Context (jf32 : f32 -> Value) (from_slice : list Z -> option Value) (b64 : list Z -> string).
(** Does a pattern match a subject? *)
Context (nats_match : string -> string -> bool).

Definition forward (m : Message) : Dispatcher.NatsEvent :=
  Dispatcher.mk_NatsEvent (m_subject m) (topic_suffix (m_subject m))
    (DecoderShim.decode_payload_shim as_u64 as_array jf32 from_slice b64 (m_subject m) (m_bytes m))
    (as_u128 (unwrap_or 0 (m_clock m))).

(** The task of a subscription: the messages it receives, forwarded in order.  A send without a
    receiver is not an error. *)
Definition task (pattern : string) (bus : list Message) : list Dispatcher.NatsEvent :=
  forward <$> List.filter (fun m => nats_match pattern (m_subject m)) bus.
End fan_out.

(** The tasks write to one channel: any merge of what they send. *)
Inductive merge {A} : list (list A) -> list A -> Prop :=
| merge_done ls : Forall (fun l => l = []) ls -> merge ls []
| merge_take before x l after out :
    merge (before ++ l :: after) out -> merge (before ++ (x :: l) :: after) (x :: out).
End FanOut.

(** ** The server *)

Module Server.
Import Dispatcher.

(** The period of the flush is in seconds. *)
Record GatewayConfig := mk_GatewayConfig { bind : string; broadcast_capacity : Z; signal_flush_interval : Z }.
Definition default : GatewayConfig := mk_GatewayConfig "127.0.0.1:8088" 4096 2.

(** What main.rs builds from the configuration and its environment. *)
Definition config (env_bind : option string) : GatewayConfig :=
  mk_GatewayConfig (unwrap_or "0.0.0.0:8088" env_bind) 8192 2.
Definition initial_state `{J : Json} (rank_p95_budget_ms : Z) (shadow_components : list string) (high_vol_threshold : f32)
  : DispatcherState :=
  mk_State
    (SignalsJoiner.new (Z.max (as_u64 (rank_p95_budget_ms * 4)) 2000) 4096 (AiShadowFilter.from_iter shadow_components))
    (Alerts.new 256) (Volatility.new high_vol_threshold).

Section server.
Context `{J : Json}.
Context (publish : string -> list Z -> result unit string) (to_vec : Value -> result (list Z) string).
Context (to_value : list Alerts.UiAlert -> Value).
Context (iter : gmap string SignalsJoiner.PendingJoin -> list (string * SignalsJoiner.PendingJoin)).
Context (from_str : string -> result ClientMsg string).

(** The subscriptions of the connections that are open, and what they share. *)
Record t := mk { connections : gmap nat Subscriptions.t; state : DispatcherState }.
Definition start (st : DispatcherState) : t := mk ∅ st.

(** A connection is accepted, with or without a handshake, or has a turn. *)
Inductive event :=
| AcceptFailed
| Accepted (id : nat) (handshake : bool)
| Turn (id : nat) (i : Input).

(** A session that ends closes its connection only. *)
Definition step (s : t) (e : event) : list Output * t :=
  match e with
  | AcceptFailed | Accepted _ false => ([], s)
  | Accepted id true => ([], mk (<[id := Subscriptions.new]> (connections s)) (state s))
  | Turn id i =>
    match connections s !! id with
    | None => ([], s)
    | Some sb =>
      let '(out, s', flow) := session_step publish to_vec to_value iter from_str (mk_Session sb (state s)) i in
      (out, mk (match flow with
                | Continue => <[id := subs s']> (connections s)
                | _ => delete id (connections s)
                end) (shared s'))
    end
  end.

Fixpoint run (s : t) (trace : list event) : list (list Output) * t :=
  match trace with
  | [] => ([], s)
  | e :: trace =>
    let '(out, s) := step s e in
    let '(outs, s) := run s trace in (out :: outs, s)
  end.
End server.
End Server.

(** ** Specification: patterns as lists of tokens *)

Module Patterns.

(** The fields a pattern fixes, and whether any tokens may follow. *)
Definition wildcard_free (p : string) : Prop := Forall (fun x => x <> ">" /\ x <> "*") (Channels.segments p).
#[global] Instance wildcard_free_dec p : Decision (wildcard_free p).
Proof. unfold wildcard_free. apply _. Defined.

(** The documented matching of subjects: a pattern without wildcards is matched by itself, one that
    ends in a tail wildcard by what continues the rest of it. *)
Class NatsMatching (nats_match : string -> string -> bool) : Prop := {
  match_literal p s : wildcard_free p -> nats_match p s = true -> s = p;
  match_self p : wildcard_free p -> nats_match p p = true;
  match_tail p s : wildcard_free p -> nats_match (p +:+ ".>") s = true ->
    exists t, t <> EmptyString /\ s = p +:+ "." +:+ t;
  match_continues p t : wildcard_free p -> t <> EmptyString -> nats_match (p +:+ ".>") (p +:+ "." +:+ t) = true;
}.

(** *** Segments *)

Lemma split_dots_app acc a t : Channels.split_dots acc (a +:+ String "."%char t)
  = Channels.split_dots acc a ++ Channels.segments t.
Proof.
  revert acc. induction a as [| c a IH]; intros acc; [done |].
  change (String c a +:+ String "."%char t) with (String c (a +:+ String "."%char t)).
  cbn [Channels.split_dots]. destruct (decide (c = "."%char)); [by rewrite IH | apply IH].
Qed.

Lemma segments_app a t : Channels.segments (a +:+ "." +:+ t) = Channels.segments a ++ Channels.segments t.
Proof. apply split_dots_app. Qed.

Lemma segments_not_nil s : Channels.segments s <> [].
Proof.
  unfold Channels.segments. generalize EmptyString. induction s as [| c s IH]; intros acc; [done |]. cbn.
  destruct (decide (c = "."%char)); [done | apply IH].
Qed.

(** *** Token-wise matching is implied, and patterns that differ exclude each other *)

Lemma matches_self p : matches p p = true.
Proof.
  induction p as [| x p IH]; [done |]. cbn. destruct p as [| y p].
  - case_decide; [done | by apply bool_decide_eq_true].
  - by rewrite bool_decide_eq_true_2, IH.
Qed.

Lemma matches_tail p t : t <> [] -> matches (p ++ [">"]) (p ++ t) = true.
Proof.
  intros Ht. induction p as [| x p IH]; [by destruct t |].
  cbn. destruct p as [| y p]; cbn in *; [| by rewrite bool_decide_eq_true_2, IH].
  destruct t; [done |]. by rewrite bool_decide_eq_true_2.
Qed.

(** No list of tokens matches both. *)
Fixpoint apart (p q : list string) : bool :=
  match p, q with
  | [], [] => false
  | [], _ :: _ | _ :: _, [] => true
  | x :: p, y :: q =>
    negb (bool_decide (x = ">")) && negb (bool_decide (y = ">"))
    && (negb (bool_decide (x = y)) || apart p q)
  end.

Lemma matches_cons x p s : x <> ">" ->
  matches (x :: p) s = true -> exists t, s = x :: t /\ matches p t = true.
Proof.
  intros Hx H. destruct s as [| y t]; [by destruct p |]. destruct p as [| z p].
  - cbn in H. rewrite decide_False in H by done. destruct t; [| done].
    apply bool_decide_eq_true in H as ->. by exists [].
  - cbn -[matches] in H. change (bool_decide (x = y) && matches (z :: p) t = true) in H.
    apply andb_true_iff in H as [->%bool_decide_eq_true H]. by exists t.
Qed.

Lemma apart_excludes p q s : apart p q = true -> matches p s = true -> matches q s = true -> False.
Proof.
  revert q s. induction p as [| x p IH]; intros [| y q] s Ha Hp Hq; [done | | |].
  - destruct s; [by destruct q | done].
  - destruct s; [by destruct p | done].
  - cbn in Ha. apply andb_true_iff in Ha as [[Hx%negb_true_iff Hy%negb_true_iff]%andb_true_iff Hd].
    apply bool_decide_eq_false in Hx, Hy.
    apply matches_cons in Hp as (t & -> & Hp); [| done].
    apply matches_cons in Hq as (t' & [= <- <-] & Hq); [| done].
    rewrite bool_decide_eq_true_2 in Hd by done. cbn in Hd. by eapply IH.
Qed.

Lemma tokens_match `{NatsMatching nats_match} p s : wildcard_free p ->
  (nats_match p s = true -> matches (Channels.segments p) (Channels.segments s) = true)
  /\ (nats_match (p +:+ ".>") s = true -> matches (Channels.segments p ++ [">"]) (Channels.segments s) = true).
Proof.
  intros Hp. split.
  - intros ->%match_literal; [apply matches_self | done].
  - intros (t & _ & ->)%match_tail; [| done]. rewrite segments_app. apply matches_tail, segments_not_nil.
Qed.

(** *** The patterns of the gateway *)

(** A pattern is a literal or a prefix with the tail wildcard. *)
Definition base (p : string) : string := String.substring 0 (String.length p - 2) p.
Definition shape (p : string) : Prop :=
  wildcard_free p
  \/ (p = base p +:+ ".>" /\ wildcard_free (base p)
      /\ Channels.segments p = Channels.segments (base p) ++ [">"]).
#[global] Instance shape_dec p : Decision (shape p).
Proof. unfold shape. apply _. Defined.

Lemma shapes : Forall (fun c => shape c.2) FanOut.subscriptions.
Proof. apply (bool_decide_unpack _). vm_compute. exact I. Qed.

Lemma shape_match `{NatsMatching nats_match} p s : shape p -> nats_match p s = true ->
  matches (Channels.segments p) (Channels.segments s) = true.
Proof.
  intros [Hp | (Hp & Hb & Hs)] H1; [by apply (tokens_match p s Hp) |].
  rewrite Hs. apply (tokens_match (base p) s Hb). by rewrite <- Hp.
Qed.

(** Different subscriptions are apart, so that no subject matches two. *)
Lemma subscriptions_apart c d : c ∈ FanOut.subscriptions -> d ∈ FanOut.subscriptions ->
  c = d \/ apart (Channels.segments c.2) (Channels.segments d.2) = true.
Proof.
  revert c d. assert (Forall (fun c => Forall (fun d => c = d
    \/ apart (Channels.segments c.2) (Channels.segments d.2) = true) FanOut.subscriptions) FanOut.subscriptions) as H.
  { apply (bool_decide_unpack _). vm_compute. exact I. }
  intros c d Hc Hd. rewrite Forall_forall in H. specialize (H c Hc). rewrite Forall_forall in H. by apply H.
Qed.

Lemma one_subscription `{NatsMatching nats_match} c d s :
  c ∈ FanOut.subscriptions -> d ∈ FanOut.subscriptions ->
  nats_match c.2 s = true -> nats_match d.2 s = true -> c = d.
Proof.
  intros Hc Hd H1 H2. destruct (subscriptions_apart c d Hc Hd) as [? | Ha]; [done |]. exfalso.
  pose proof (proj1 (Forall_forall _ _) shapes) as Hs.
  eapply apart_excludes; [exact Ha | |]; (apply shape_match; [by apply Hs | done]).
Qed.

Lemma subscriptions_distinct : NoDup FanOut.subscriptions.
Proof. apply (bool_decide_unpack _). vm_compute. exact I. Qed.

(** The class of a subject by its tokens. *)
Ltac take_token :=
  match goal with
  | H : matches (?x :: _) ?l = true |- _ =>
    apply matches_cons in H as (? & -> & H); [| discriminate]
  end.

Ltac evaluate_segments H :=
  match type of H with
  | matches (Channels.segments ?p) _ = _ =>
    let l := eval vm_compute in (Channels.segments p) in change (Channels.segments p) with l in H
  end.

Lemma matches_open s : matches [">"] s = true -> exists x t, s = x :: t.
Proof. destruct s as [| x t]; [done |]. by exists x, t. Qed.

Lemma classify_breadth c s : s = "md.breadth.sector" \/ s = "md.breadth.volatility" ->
  c ∈ FanOut.subscriptions -> matches (Channels.segments c.2) (Channels.segments s) = true -> c.1 = Channel.Market.
Proof.
  intros Hs Hc Hm. assert (Forall (fun c => matches (Channels.segments c.2) (Channels.segments s) = true ->
    c.1 = Channel.Market) FanOut.subscriptions) as Hall by (destruct Hs as [-> | ->]; repeat constructor; by intros ?).
  rewrite Forall_forall in Hall. by apply Hall.
Qed.

Lemma classify_by_tokens c s : c ∈ FanOut.subscriptions ->
  matches (Channels.segments c.2) (Channels.segments s) = true ->
  Channels.classify_subject s = Channels.one c.1.
Proof.
  intros Hc Hm. unfold Channels.classify_subject.
  destruct (decide (s = "md.breadth.sector" \/ s = "md.breadth.volatility")) as [Hs | _].
  { by rewrite (classify_breadth c s Hs Hc Hm). }
  revert Hm. generalize (Channels.segments s) as parts. clear s. intros parts Hm. cbv zeta.
  unfold FanOut.subscriptions in Hc. cbn in Hc.
  repeat (apply elem_of_cons in Hc as [-> | Hc];
    [cbn [fst snd] in *; evaluate_segments Hm; repeat take_token; try (apply matches_open in Hm as (? & ? & ->)); done |]).
  by apply elem_of_nil in Hc.
Qed.
End Patterns.

(** ** Merges *)

Module MergeFacts.
Section facts.
Context {A : Type}.

Lemma merge_perm (ls : list (list A)) out : FanOut.merge ls out -> out ≡ₚ concat ls.
Proof.
  induction 1 as [ls Hall | before x l after out _ IH].
  - induction Hall as [| l ls -> _ IH]; [done |]. exact IH.
  - rewrite IH, !concat_app. cbn. by rewrite Permutation_middle.
Qed.

(** What only one of the lists has comes out in its order. *)
Lemma merge_filter (P : A -> bool) ls out i l : FanOut.merge ls out -> ls !! i = Some l ->
  (forall j l', ls !! j = Some l' -> j <> i -> List.filter P l' = []) ->
  List.filter P out = List.filter P l.
Proof.
  intros Hm. revert l. induction Hm as [ls Hall | before x l0 after out _ IH]; intros l Hi Hother.
  - rewrite Forall_forall in Hall. by rewrite (Hall l (list_elem_of_lookup_2 _ _ _ Hi)).
  - assert (Hx : forall l', (before ++ l0 :: after) !! length before = Some l' -> l' = l0).
    { intros l' H. rewrite lookup_app_r, Nat.sub_diag in H by lia. by injection H. }
    assert (Hsame : forall j l', (before ++ l0 :: after) !! j = Some l' -> j <> length before ->
      (before ++ (x :: l0) :: after) !! j = Some l').
    { intros j l' H Hj. destruct (decide (j < length before)%nat).
      - rewrite lookup_app_l in * by lia. done.
      - rewrite lookup_app_r in * by lia. destruct (j - length before)%nat eqn:E; [lia | done]. }
    destruct (decide (i = length before)) as [-> | Hne].
    + rewrite lookup_app_r, Nat.sub_diag in Hi by lia. injection Hi as <-. cbn.
      rewrite (IH l0); [done | by rewrite lookup_app_r, Nat.sub_diag by lia |].
      intros j l' Hj Hn. apply (Hother j); [by apply Hsame | done].
    + assert (List.filter P (x :: l0) = []) as Hnone.
      { apply (Hother (length before)); [by rewrite lookup_app_r, Nat.sub_diag by lia | done]. }
      cbn in Hnone |- *. destruct (P x); [done |]. apply IH.
      * destruct (decide (i < length before)%nat).
        -- rewrite lookup_app_l in * by lia. done.
        -- rewrite lookup_app_r in * by lia. destruct (i - length before)%nat eqn:E; [lia | done].
      * intros j l' Hj Hn. destruct (decide (j = length before)) as [-> | Hj'].
        -- by apply Hx in Hj as ->.
        -- apply (Hother j); [by apply Hsame | done].
Qed.

Lemma filter_or (P Q : A -> bool) l : (forall x, P x = true -> Q x = true -> False) ->
  List.filter (fun x => P x || Q x) l ≡ₚ List.filter P l ++ List.filter Q l.
Proof.
  intros H. induction l as [| x l IH]; [done |]. cbn. specialize (H x).
  destruct (P x), (Q x); cbn; rewrite ?IH; try done; [by exfalso; apply H | by rewrite Permutation_middle].
Qed.
End facts.
End MergeFacts.

Module FanOutFacts.
Section facts.
Context `{J : Json} (as_u64 : Value -> option Z) (as_array : Value -> option (list Value)).
Context (jf32 : f32 -> Value) (from_slice : list Z -> option Value) (b64 : list Z -> string).
Context {nats_match : string -> string -> bool}.
Abbreviation task := (FanOut.task as_u64 as_array jf32 from_slice b64 nats_match) (only parsing).
Abbreviation forward := (FanOut.forward as_u64 as_array jf32 from_slice b64) (only parsing).

Lemma task_own p bus : List.filter (fun ev => nats_match p (Dispatcher.subject ev)) (task p bus) = task p bus.
Proof.
  unfold FanOut.task. induction bus as [| m bus IH]; [done |]. cbn.
  destruct (nats_match p (FanOut.m_subject m)) eqn:E; [| done]. cbn. by rewrite E, IH.
Qed.

Lemma task_other p q bus : (forall s, nats_match p s = true -> nats_match q s = true -> False) ->
  List.filter (fun ev => nats_match p (Dispatcher.subject ev)) (task q bus) = [].
Proof.
  intros H. unfold FanOut.task. induction bus as [| m bus IH]; [done |]. cbn.
  destruct (nats_match q (FanOut.m_subject m)) eqn:Eq; [| done]. cbn.
  destruct (nats_match p (FanOut.m_subject m)) eqn:Ep; [| done]. by destruct (H _ Ep Eq).
Qed.

(** Subscriptions no two of which share a subject. *)
Lemma tasks_forward bus (subs : list (Channel.t * string)) : NoDup subs ->
  (forall c d s, c ∈ subs -> d ∈ subs -> nats_match c.2 s = true -> nats_match d.2 s = true -> c = d) ->
  concat ((fun c => task c.2 bus) <$> subs)
  ≡ₚ forward <$> List.filter (fun m => existsb (fun c => nats_match c.2 (FanOut.m_subject m)) subs) bus.
Proof.
  induction 1 as [| c subs Hc _ IH]; intros Hone.
  - cbn. by induction bus.
  - cbn [fmap list_fmap concat existsb]. rewrite IH.
    2: { intros a d s Ha Hd. apply Hone; by apply elem_of_cons; right. }
    rewrite (MergeFacts.filter_or (fun m => nats_match c.2 (FanOut.m_subject m))).
    + by rewrite fmap_app.
    + intros m H1 (d & Hd & H2)%existsb_exists. apply list_elem_of_In in Hd. apply Hc.
      rewrite (Hone c d (FanOut.m_subject m)); [done | by left | by right | done | done].
Qed.
End facts.
End FanOutFacts.

(** C28: Every message of a curated subject is broadcast exactly once, whatever the tasks of the
    subscriptions do to each other: no two patterns match one subject, so the tasks together forward
    the messages some pattern matches, each pattern's messages in the order of the bus, and every
    event is of the one channel of the pattern that let it in. *)
Theorem fan_out_is_exact `{J : Json} as_u64 as_array jf32 from_slice b64 nats_match
  `{!Patterns.NatsMatching nats_match} (bus : list FanOut.Message) (out : list Dispatcher.NatsEvent) :
  let forward := FanOut.forward as_u64 as_array jf32 from_slice b64 in
  let task := FanOut.task as_u64 as_array jf32 from_slice b64 nats_match in
  let curated s := existsb (fun c => nats_match c.2 s) FanOut.subscriptions in
  FanOut.merge ((fun c => task c.2 bus) <$> FanOut.subscriptions) out ->
  out ≡ₚ forward <$> List.filter (fun m => curated (FanOut.m_subject m)) bus
  /\ Forall (fun c => List.filter (fun ev => nats_match c.2 (Dispatcher.subject ev)) out = task c.2 bus)
       FanOut.subscriptions
  /\ Forall (fun ev => exists c, c ∈ FanOut.subscriptions /\ nats_match c.2 (Dispatcher.subject ev) = true
       /\ Channels.classify_subject (Dispatcher.subject ev) = Channels.one c.1) out.
Proof.
  intros forward task curated Hm.
  assert (out ≡ₚ forward <$> List.filter (fun m => curated (FanOut.m_subject m)) bus) as Hp.
  { rewrite (MergeFacts.merge_perm _ _ Hm).
    exact (FanOutFacts.tasks_forward as_u64 as_array jf32 from_slice b64 bus _ Patterns.subscriptions_distinct
      Patterns.one_subscription). }
  split_and!; [exact Hp | |].
  - apply Forall_forall. intros c (i & Hi)%list_elem_of_lookup.
    rewrite (MergeFacts.merge_filter _ _ _ i (task c.2 bus) Hm).
    + apply FanOutFacts.task_own.
    + by rewrite list_lookup_fmap, Hi.
    + intros j l' Hj Hne. rewrite list_lookup_fmap in Hj.
      destruct (FanOut.subscriptions !! j) as [d |] eqn:Hd; [| done]. injection Hj as <-.
      apply FanOutFacts.task_other. intros s H1 H2. apply Hne.
      apply (NoDup_lookup _ _ _ _ Patterns.subscriptions_distinct Hd).
      by rewrite (Patterns.one_subscription d c s (list_elem_of_lookup_2 _ _ _ Hd) (list_elem_of_lookup_2 _ _ _ Hi) H2 H1).
  - apply Forall_forall. intros ev Hev. rewrite Hp in Hev.
    apply list_elem_of_fmap in Hev as (m & -> & Hin). apply list_elem_of_In, filter_In in Hin as [_ Hc].
    apply existsb_exists in Hc as (c & Hc & Hmatch). apply list_elem_of_In in Hc. exists c.
    split_and!; [done | done |]. apply Patterns.classify_by_tokens; [done |]. apply Patterns.shape_match; [| done].
    exact (proj1 (Forall_forall _ _) Patterns.shapes c Hc).
Qed.

(** ** The engines' signals on the screen *)

Module UnrankedSignals.
Import SignalsJoiner.

Section joiner.
Context `{J : Json}.
Context (iter : gmap string PendingJoin -> list (string * PendingJoin)).
(** The documents of the published signals. *)
Context (shown : Value -> Prop).

(** Signals wait under the empty identifier, without a rank; ranks under the others, without a
    signal. *)
Definition apart (k : string) (e : PendingJoin) : Prop :=
  if decide (k = EmptyString) then ranks e = [] /\ shadowed_sources e = [] /\ forall v, signal e = Some v -> shown v
  else signal e = None.
Definition unranked (i : JoinerInner) : Prop := map_Forall apart (map i).

Lemma unranked_subset i i' : map i' ⊆ map i -> unranked i -> unranked i'.
Proof. intros Hs H k e He. apply H. by eapply lookup_weaken. Qed.

Lemma remove_subset k i : map (remove k i) ⊆ map i.
Proof. apply delete_subseteq. Qed.

Lemma prune_subset ttl now i : map (prune_expired iter ttl now i) ⊆ map i.
Proof.
  unfold prune_expired. generalize ((List.filter (fun e => is_stale ttl now e.2) (iter (map i))).*1). intros ks.
  revert i. induction ks as [| k ks IH]; intros i; [done |]. cbn. etransitivity; [apply IH | apply remove_subset].
Qed.

Lemma evict_subset cap order : forall m, map (evict cap m order) ⊆ m.
Proof.
  induction order as [| k order IH]; intros m; cbn [evict]; destruct (_ <=? _)%nat; try done.
  etransitivity; [apply IH | apply delete_subseteq].
Qed.

Lemma ensure_unranked k now i : unranked i -> unranked (ensure k now i).
Proof.
  intros H. unfold ensure. destruct (map i !! k); [done |]. apply map_Forall_insert_2; [| done].
  unfold apart. by destruct (decide _).
Qed.

(** A feed that keeps entries apart joins nothing. *)
Lemma feed_unranked k f now_prune now_insert j :
  (forall e, apart k e -> apart k (f e)) -> unranked (inner j) ->
  let '(o, j') := feed iter k now_prune now_insert f j in
  (exists b, o = Pending b) /\ unranked (inner j').
Proof.
  intros Hf Hj. unfold feed. pose proof (ensure_unranked k now_insert _ (unranked_subset _ _ (prune_subset (ttl j) now_prune (inner j)) Hj)) as Hi.
  set (i := ensure k now_insert _) in *. destruct (map i !! k) as [e |] eqn:He; [| split; [by eexists | done]].
  specialize (Hf e (Hi k e He)).
  assert (decide_join (f e) = Pending (negb (bool_decide (shadowed_sources (f e) = [])) && match ranks (f e) with [] => true | _ => false end)) as ->.
  { unfold decide_join, apart in *. destruct (decide (k = EmptyString)).
    - destruct Hf as (-> & _). by destruct (signal (f e)).
    - by rewrite Hf. }
  cbn zeta iota. split; [by eexists |].
  eapply unranked_subset; [apply evict_subset |]. by apply map_Forall_insert_2.
Qed.

(** A flush shows at most one row: the last signal, with no rank. *)
Lemma flush_unranked now j : unranked (inner j) ->
  let '(out, j') := flush_expired iter now j in
  (length out <= 1)%nat /\ unranked (inner j')
  /\ Forall (fun row => exists v, shown v /\ row = jobject [("signal", v); ("ranks", jarray [])]) out.
Proof.
  intros Hj. unfold flush_expired. generalize ((List.filter (fun e => expired (ttl j) now (inserted_at e.2)) (iter (map (inner j)))).*1).
  intros ks. set (P := fun acc : list Value * JoinerInner =>
    unranked acc.2 /\ Forall (fun row => exists v, shown v /\ row = jobject [("signal", v); ("ranks", jarray [])]) acc.1
    /\ (length acc.1 <= 1)%nat /\ (acc.1 = [] \/ map acc.2 !! EmptyString = None)).
  assert (forall acc, P acc -> P (foldl flush_step acc ks)) as Hall.
  { induction ks as [| k ks IH]; intros [out i] HP; [done |]. cbn [foldl]. apply IH. destruct HP as (Hi & Hrows & Hlen & Hgone).
    cbn [fst snd] in *. unfold flush_step. destruct (map i !! k) as [e |] eqn:He; [| by split_and!].
    pose proof (Hi k e He) as Hk. pose proof (unranked_subset _ _ (remove_subset k i) Hi) as Hr.
    assert (map (remove k i) !! EmptyString = None \/ out = []) as Hg.
    { destruct Hgone as [-> | Hn]; [by right |]. left. cbn. by rewrite lookup_delete_None; right. }
    unfold apart in Hk. destruct (signal e) as [v |] eqn:Ev.
    2: { split_and!; try done. cbn. tauto. }
    destruct (decide (k = EmptyString)) as [-> | Hne]; [| done]. destruct Hk as (Hranks & Hsh & Hshown).
    assert (out = []) as ->. { destruct Hgone; [done |]. congruence. }
    split_and!; cbn; [done | | lia | right; by apply lookup_delete_eq].
    repeat constructor. exists v. split; [by apply Hshown |]. unfold merge_payload.
    by rewrite Hranks, Hsh, decide_True. }
  specialize (Hall ([], inner j) ltac:(split_and!; [done | constructor | cbn; lia | by left])).
  destruct (foldl flush_step ([], inner j) ks) as [out i]. destruct Hall as (H1 & H2 & H3 & _). by split_and!.
Qed.
End joiner.
End UnrankedSignals.

Module ShownSignals.
Import Dispatcher UnrankedSignals.
Section facts.
Context `{J : Json}.
Context (publish : string -> list Z -> result unit string) (to_vec : Value -> result (list Z) string).
Context (to_value : list Alerts.UiAlert -> Value).
Context (iter : gmap string SignalsJoiner.PendingJoin -> list (string * SignalsJoiner.PendingJoin)).
Context (from_str : string -> result ClientMsg string).
Context (shown : Value -> Prop).

(** The rows a client gets on the signals channel. *)
Definition row_of (m : ServerMsg) : option Value :=
  match m with Event Channel.Signals _ _ payload => Some payload | _ => None end.
Definition rows (out : list Output) : list Value :=
  omap (fun o => match o with Sent m => row_of m | _ => None end) out.

(** A signal without an identifier, or a rank with one. *)
Definition engine_event (ev : NatsEvent) : Prop :=
  (subject ev = "sig.emitted" -> shown (ev_payload ev) /\ jget (ev_payload ev) "correlation_id" = None)
  /\ (Alerts.starts_with "ai.rank." (subject ev) = true -> topic_suffix ev <> EmptyString).
Definition engine_input (i : Input) : Prop := match i with Bus ev _ => engine_event ev | _ => True end.

Definition well_joined (st : DispatcherState) : Prop := unranked shown (SignalsJoiner.inner (signals st)).

Lemma rows_sent ms : rows (Sent <$> ms) = omap row_of ms.
Proof. unfold rows. induction ms as [| m ms IH]; [done |]. cbn in *. rewrite IH. by destruct (row_of m). Qed.
Lemma rows_published (l : list (string * list Z)) : rows ((fun p => Published p.1 p.2) <$> l) = [].
Proof. by induction l. Qed.

Lemma join_feeds ev clk j : engine_event ev -> unranked shown (SignalsJoiner.inner j) ->
  let '(p, j') := feed_signals_join iter ev clk j in
  unwrap_or [] p = [] /\ unranked shown (SignalsJoiner.inner j').
Proof.
  intros [Hsig Hrank] Hj. unfold feed_signals_join. destruct (decide (subject ev = "sig.emitted")) as [Hs |].
  - destruct (Hsig Hs) as [Hshown Hno]. unfold Intents.field_str. rewrite Hno. cbn [unwrap_or].
    unfold SignalsJoiner.feed_signal.
    pose proof (feed_unranked iter shown EmptyString (fun e => SignalsJoiner.mk_PendingJoin (Some (ev_payload ev))
      (SignalsJoiner.ranks e) (SignalsJoiner.shadowed_sources e) (SignalsJoiner.inserted_at e)) clk.1 clk.2 j) as H.
    destruct (SignalsJoiner.feed iter EmptyString _ _ _ j) as [o j']. destruct H as [[b ->] Hu]; [| done | done].
    intros e (H1 & H2 & H3). unfold apart. cbn. split_and!; try done. by intros v [= <-].
  - destruct (Alerts.starts_with "ai.rank." (subject ev)) eqn:Es; [| done].
    unfold SignalsJoiner.feed_rank.
    match goal with |- context [SignalsJoiner.feed iter ?k ?a ?b ?f j] =>
      pose proof (feed_unranked iter shown k f a b j) as H; destruct (SignalsJoiner.feed iter k a b f j) as [o j'] end.
    destruct H as [[b ->] Hu]; [| done | done].
    intros e. unfold apart. rewrite !decide_False by (by apply Hrank).
    destruct (SignalsJoiner.drops_rank _ _); by intros.
Qed.

Lemma route_joined sb ev clk ch acc : engine_event ev ->
  omap row_of acc.1 = [] -> well_joined acc.2 ->
  omap row_of (route iter sb ev clk acc ch).1 = [] /\ well_joined (route iter sb ev clk acc ch).2.
Proof.
  destruct acc as [out st]. cbn [fst snd]. intros He Ho Hst. unfold route.
  destruct (negb _); [done |]. destruct (decide (ch = Channel.Signals)) as [-> | Hch].
  - pose proof (join_feeds ev clk (signals st) He Hst) as H.
    destruct (feed_signals_join iter ev clk (signals st)) as [p j']. destruct H as [-> Hj].
    cbn. by rewrite app_nil_r.
  - destruct (negb _); [done |]. cbn [fst snd]. rewrite omap_app, Ho. split; [| done]. by destruct ch.
Qed.

Lemma event_joined sb ev clk st : engine_event ev -> well_joined st ->
  let '(out, st') := handle_nats_event iter sb ev clk st in omap row_of out = [] /\ well_joined st'.
Proof.
  intros He Hst. unfold handle_nats_event.
  set (acc := if decide (subject ev = "md.breadth.volatility") then _ else _).
  assert (omap row_of acc.1 = [] /\ well_joined acc.2) as Hacc.
  { unfold acc. case_decide; [| done]. destruct (Volatility.observe _ _) as [[b |] v]; [| done].
    by destruct (Subscriptions.is_subscribed _ _). }
  destruct acc as [out1 st1]. cbn [fst snd] in Hacc. generalize (Channels.iter (Channels.classify_subject (subject ev))).
  intros chs. revert out1 st1 Hacc. induction chs as [| ch chs IH]; intros out1 st1 [Ho Hs]; [done |].
  cbn [foldl]. pose proof (route_joined sb ev clk ch (out1, st1) He Ho Hs) as H.
  destruct (route iter sb ev clk (out1, st1) ch) as [out2 st2]. by apply IH.
Qed.

Lemma client_rows sb msg :
  omap row_of (handle_client publish to_vec sb msg).1.1 = [].
Proof.
  destruct msg; try done. cbn. unfold handle_intent. destruct (negb _); [done |].
  destruct (Intents.publish_intent _ _ _ _) as [[[] | []] sent]; done.
Qed.

(** A turn of a connection: rows only on a flush, one at most, each the last signal alone. *)
Lemma turn_joined s i : engine_input i -> well_joined (shared s) ->
  let '(out, s', _) := session_step publish to_vec to_value iter from_str s i in
  well_joined (shared s')
  /\ (length (rows out) <= match i with FlushTick _ => 1 | _ => 0 end)%nat
  /\ Forall (fun row => exists v, shown v /\ row = jobject [("signal", v); ("ranks", jarray [])]) (rows out).
Proof.
  intros Hi Hs. destruct i as [text | | p | | | | | ev clk | n | | now]; cbn [session_step];
    try (split_and!; [done | cbn; lia | constructor]).
  - destruct (from_str text) as [msg | e]; [| split_and!; [done | cbn; lia | constructor]].
    pose proof (client_rows (subs s) msg) as Hr.
    destruct (handle_client _ _ _ _) as [[replies sb] sent]. cbn [fst] in Hr.
    assert (rows (((fun p => Published p.1 p.2) <$> sent) ++ (Sent <$> replies)) = []) as ->.
    { unfold rows. rewrite omap_app. fold (rows ((fun p => Published p.1 p.2) <$> sent)) (rows (Sent <$> replies)).
      by rewrite rows_published, rows_sent. }
    split_and!; [done | cbn; lia | constructor].
  - pose proof (event_joined (subs s) ev clk (shared s) Hi Hs) as H.
    destruct (handle_nats_event _ _ _ _ _) as [replies st1]. destruct H as [Hr H1].
    unfold ingest_for_alerts. destruct (Alerts.severity_for_subject _).
    + assert (rows (Sent <$> (replies ++ (if Subscriptions.is_subscribed (subs s) Channel.Alerts then
        [Event Channel.Alerts (Some "alerts") None (to_value (Alerts.ordered (Alerts.push (alerts st1)
          (Alerts.mk_UiAlert t (subject ev) (ev_ts_ns ev) (ev_payload ev)))))] else []))) = []) as Hn.
      { rewrite rows_sent, omap_app, Hr. by destruct (Subscriptions.is_subscribed _ _). }
      cbn [alerts] in *. rewrite Hn. split_and!; [exact H1 | cbn; lia | constructor].
    + rewrite app_nil_r, rows_sent, Hr. split_and!; [exact H1 | cbn; lia | constructor].
  - unfold drain_signal_flushes. destruct (negb _); [split_and!; [done | cbn; lia | constructor] |].
    pose proof (flush_unranked iter shown now (signals (shared s)) Hs) as H.
    destruct (SignalsJoiner.flush_expired iter now (signals (shared s))) as [flushed j]. destruct H as (Hl & Hj & Hf).
    rewrite rows_sent. replace (omap row_of _) with flushed; [by split_and! |].
    clear. induction flushed as [| v l IH]; [done |]. cbn. by rewrite <- IH.
Qed.

(** Any interleaving of any connections. *)
Lemma server_joined trace : forall s,
  well_joined (Server.state s) ->
  (forall id i, Server.Turn id i ∈ trace -> engine_input i) ->
  forall n e out, trace !! n = Some e ->
    (Server.run publish to_vec to_value iter from_str s trace).1 !! n = Some out ->
    (length (rows out) <= match e with Server.Turn _ (FlushTick _) => 1 | _ => 0 end)%nat
    /\ Forall (fun row => exists v, shown v /\ row = jobject [("signal", v); ("ranks", jarray [])]) (rows out).
Proof.
  induction trace as [| e0 trace IH]; intros s Hs Hin n e out He Hout; [done |]. cbn [Server.run] in Hout.
  assert (let '(out0, s1) := Server.step publish to_vec to_value iter from_str s e0 in
    well_joined (Server.state s1)
    /\ (length (rows out0) <= match e0 with Server.Turn _ (FlushTick _) => 1 | _ => 0 end)%nat
    /\ Forall (fun row => exists v, shown v /\ row = jobject [("signal", v); ("ranks", jarray [])]) (rows out0)) as Hstep.
  { destruct e0 as [| id [] | id i]; cbn [Server.step]; try (split_and!; [done | cbn; lia | constructor]).
    destruct (Server.connections s !! id) as [sb |]; [| split_and!; [done | cbn; lia | constructor]].
    pose proof (turn_joined (mk_Session sb (Server.state s)) i ltac:(apply (Hin id); by left) Hs) as H.
    destruct (session_step _ _ _ _ _ _ i) as [[out0 s1] flow]. destruct H as (H1 & H2 & H3).
    split_and!; [exact H1 | | exact H3]. by destruct i. }
  destruct (Server.step _ _ _ _ _ s e0) as [out0 s1]. destruct Hstep as (H1 & H2 & H3).
  specialize (IH s1 H1 ltac:(intros id i H; apply (Hin id); by right)).
  destruct (Server.run _ _ _ _ _ s1 trace) as [outs s2]. cbn [fst] in *.
  destruct n as [| n]; cbn in He, Hout; [by simplify_eq | by eapply IH].
Qed.

(** A published signal is not a document, and what stands for it has no identifier. *)
Lemma published_unreadable (from_slice : list Z -> option Value) from_doc ms bytes :
  (forall bytes v, from_slice bytes = Some v -> Forall json_byte bytes) ->
  ("sig.emitted", bytes) ∈ (SignalService.run from_doc SignalService.start ms).1 -> from_slice bytes = None.
Proof.
  intros Hjson Hp. apply EmittedSignals.emitted in Hp; [| done].
  destruct Hp as (b & snap & st & ctx & sig & _ & _ & Hst & Hev & [= ->]).
  destruct (from_slice _) as [v |] eqn:Hv; [| done]. exfalso. by eapply signal_is_not_json, Hjson.
Qed.

Lemma undecoded as_u64 as_array jf32 from_slice b64 bytes :
  (forall l k, k ∉ l.*1 -> jget (jobject l) k = None) -> from_slice bytes = None ->
  jget (DecoderShim.decode_payload_shim as_u64 as_array jf32 from_slice b64 "sig.emitted" bytes) "correlation_id" = None.
Proof.
  intros Hobject Hn. unfold DecoderShim.decode_payload_shim. rewrite Hn.
  replace (TickWire.shim_tick "sig.emitted" bytes) with (@None (Z * Z * Z * Z)) by done.
  destruct (SignalWire.shim_signal "sig.emitted" bytes) as [[[[[a b] c] d] e] |];
    apply Hobject; cbn;
    intros H; repeat (apply elem_of_cons in H as [H | H]; [discriminate |]); by apply elem_of_nil in H.
Qed.
End facts.
End ShownSignals.

(** C29: What the screen shows of the engines' signals. The signals of the signal service are published
    without a readable identifier, so the gateway joins none of them with a rank, however
    connections, clients, ranks and flushes interleave: a client gets a row on the signals channel only
    at a flush, at most one however many signals arrived since the last, and the row is one published
    signal with an empty list of ranks. *)
Theorem engine_signals_reach_the_screen_unranked `{J : Json} as_u64 as_array jf32 from_slice b64
  publish to_vec to_value iter from_str from_doc (ms : list SignalService.message)
  budget shadow threshold (trace : list Server.event) :
  let forward := FanOut.forward as_u64 as_array jf32 from_slice b64 in
  let document := DecoderShim.decode_payload_shim as_u64 as_array jf32 from_slice b64 in
  let published := (SignalService.run from_doc SignalService.start ms).1 in
  (forall bytes v, from_slice bytes = Some v -> Forall json_byte bytes) ->
  (forall l k, k ∉ l.*1 -> jget (jobject l) k = None) ->
  (forall id ev clk, Server.Turn id (Dispatcher.Bus ev clk) ∈ trace -> exists m, ev = forward m
     /\ (FanOut.m_subject m = "sig.emitted" -> ("sig.emitted", FanOut.m_bytes m) ∈ published)
     /\ (Alerts.starts_with "ai.rank." (FanOut.m_subject m) = true ->
         FanOut.topic_suffix (FanOut.m_subject m) <> EmptyString)) ->
  forall n e out, trace !! n = Some e ->
    (Server.run publish to_vec to_value iter from_str
       (Server.start (Server.initial_state budget shadow threshold)) trace).1 !! n = Some out ->
  (length (ShownSignals.rows out) <= match e with Server.Turn _ (Dispatcher.FlushTick _) => 1 | _ => 0 end)%nat
  /\ Forall (fun row => exists bytes, ("sig.emitted", bytes) ∈ published
       /\ row = jobject [("signal", document "sig.emitted" bytes); ("ranks", jarray [])]) (ShownSignals.rows out).
Proof.
  intros forward document published Hjson Hobject Hbus n e out He Hout.
  set (shown := fun v => exists bytes, ("sig.emitted", bytes) ∈ published /\ v = document "sig.emitted" bytes).
  destruct (ShownSignals.server_joined publish to_vec to_value iter from_str shown trace
    (Server.start (Server.initial_state budget shadow threshold))) with (n := n) (e := e) (out := out)
    as [Hl Hf]; [by apply map_Forall_empty | | exact He | exact Hout |].
  - intros id i Hi. destruct i as [| | | | | | | ev clk | | |]; try done.
    destruct (Hbus id ev clk Hi) as (m & -> & Hsig & Hrank). split; [| exact Hrank].
    cbn [Dispatcher.subject forward FanOut.forward]. intros Hs. specialize (Hsig Hs). cbn. rewrite Hs. split.
    + by exists (FanOut.m_bytes m).
    + apply ShownSignals.undecoded; [done |]. by apply (ShownSignals.published_unreadable from_slice from_doc ms).
  - split; [exact Hl |]. eapply Forall_impl; [exact Hf |]. intros row (v & (bytes & Hb & ->) & ->). by exists bytes.
Qed.

(** ** Concrete runs *)

(** The matching of subjects as a function. *)
Module PlainMatching.

(** A pattern without its tail wildcard. *)
Fixpoint drop_tail (p : string) : option string :=
  match p with
  | EmptyString => None
  | String a rest => if decide (p = ".>") then Some EmptyString else String a <$> drop_tail rest
  end.
Definition nats_match (p s : string) : bool :=
  match drop_tail p with
  | Some q =>
    match strip_prefix (q +:+ ".") s with
    | Some t => negb (bool_decide (t = EmptyString))
    | None => false
    end
  | None => bool_decide (p = s)
  end.

Lemma drop_tail_spec p q : drop_tail p = Some q -> p = q +:+ ".>".
Proof.
  revert q. induction p as [| a p IH]; intros q H; [done |]. cbn in H. case_decide as E.
  - injection H as <-. exact E.
  - destruct (drop_tail p) as [q' |]; [| done]. injection H as <-. by rewrite (IH q').
Qed.

Lemma drop_tail_app q : drop_tail (q +:+ ".>") = Some q.
Proof.
  induction q as [| a q IH]; [done |].
  change (String a q +:+ ".>") with (String a (q +:+ ".>")). cbn [drop_tail].
  rewrite decide_False; [by rewrite IH |]. destruct q as [| b [| c q]]; done.
Qed.

Lemma strip_prefix_spec q s t : strip_prefix q s = Some t <-> s = q +:+ t.
Proof.
  revert s. induction q as [| a q IH]; intros s; [split; [by intros [= ->] | by intros ->] |].
  destruct s as [| b s]; [done |]. change (String a q +:+ t) with (String a (q +:+ t)). cbn [strip_prefix].
  destruct (Ascii.eqb_spec a b) as [-> | Hne].
  - rewrite IH. split; [by intros -> | by intros [= ->]].
  - split; [done |]. by intros [= -> _].
Qed.

Lemma free_no_tail p : Patterns.wildcard_free p -> drop_tail p = None.
Proof.
  intros Hp. destruct (drop_tail p) as [q |] eqn:E; [| done]. apply drop_tail_spec in E as ->.
  unfold Patterns.wildcard_free in Hp. change (q +:+ ".>") with (q +:+ "." +:+ ">") in Hp.
  rewrite Patterns.segments_app in Hp. apply Forall_app in Hp as [_ Hp].
  apply Forall_cons in Hp as [[Hp _] _]. done.
Qed.

#[export] Instance plain_matching : Patterns.NatsMatching nats_match.
Proof.
  split; unfold nats_match.
  - intros p s Hp. rewrite free_no_tail by done. by intros ->%bool_decide_eq_true.
  - intros p Hp. rewrite free_no_tail by done. by apply bool_decide_eq_true.
  - intros p s _. rewrite drop_tail_app. destruct (strip_prefix _ s) as [t |] eqn:E; [| done].
    intros Ht%negb_true_iff%bool_decide_eq_false. exists t. split; [done |].
    apply strip_prefix_spec in E as ->. by rewrite str_app_assoc.
  - intros p t _ Ht. rewrite drop_tail_app. rewrite (proj2 (strip_prefix_spec (p +:+ ".") _ t)).
    + by rewrite bool_decide_eq_false_2.
    + by rewrite str_app_assoc.
Qed.
End PlainMatching.

Lemma merge_skip {A} (ls : list (list A)) out : FanOut.merge ls out -> FanOut.merge ([] :: ls) out.
Proof.
  induction 1 as [ls H | before x l after out _ IH]; [by repeat constructor |].
  exact (FanOut.merge_take ([] :: before) x l after out IH).
Qed.

(** The tasks may run one after the other. *)
Lemma merge_in_turn {A} (ls : list (list A)) : FanOut.merge ls (concat ls).
Proof.
  induction ls as [| l ls IH]; [by repeat constructor |]. cbn.
  induction l as [| x l IHl]; [by apply merge_skip |]. exact (FanOut.merge_take [] x l ls _ IHl).
Qed.

Module GatewaySample.
Import UiSample PlainMatching.

Definition as_u64 (v : jv) : option Z := match v with JNum z => if 0 <=? z then Some z else None | _ => None end.
Definition as_array (v : jv) : option (list jv) := None.
Definition jf32 (x : f32) : jv := JNum 0.
Definition from_slice (bytes : list Z) : option jv := if decide (bytes = [123; 125]) then Some (JObj []) else None.
Definition b64 (bytes : list Z) : string := "e30=".
Definition forward := FanOut.forward as_u64 as_array jf32 from_slice b64.

(** A tick, a confirmation nobody subscribed to, an approval and a score of breadth. *)
Definition bus : list FanOut.Message :=
  (fun s => FanOut.mk_Message s [123; 125] (Some 7))
    <$> ["md.tick.SBIN"; "exec.mode.confirmed"; "risk.decision.approved"; "md.breadth.volatility"].
Definition broadcast : list Dispatcher.NatsEvent :=
  concat ((fun c => FanOut.task as_u64 as_array jf32 from_slice b64 nats_match c.2 bus) <$> FanOut.subscriptions).

(** What the signal service published, and a client of the signals channel that hears a rank, twice
    the signal, and a flush after the time to live. *)
Abbreviation published :=
  ((SignalService.run QuietSample.from_slice SignalService.start QuietSample.messages).1) (only parsing).
Definition signal_bytes : list Z := (hd (EmptyString, []) published).2.
Definition signal : FanOut.Message := FanOut.mk_Message "sig.emitted" signal_bytes (Some 8).
Definition rank : FanOut.Message := FanOut.mk_Message "ai.rank.ab" [123; 125] (Some 6).
Definition heard_in_turn (r s : Dispatcher.NatsEvent) : list Server.event :=
  [Server.Accepted 1 true; Server.Turn 1 (Dispatcher.Text "signals"); Server.Turn 1 (Dispatcher.Bus r (0, 0));
   Server.Turn 1 (Dispatcher.Bus s (1, 1)); Server.Turn 1 (Dispatcher.Bus s (2, 2));
   Server.Turn 1 (Dispatcher.FlushTick 5000)].
Lemma events_heard r s id ev clk : Server.Turn id (Dispatcher.Bus ev clk) ∈ heard_in_turn r s -> ev = r \/ ev = s.
Proof.
  unfold heard_in_turn. intros H.
  repeat (apply elem_of_cons in H as [H | H]; [try discriminate H; injection H; auto |]). by apply elem_of_nil in H.
Qed.
Definition trace : list Server.event := heard_in_turn (forward rank) (forward signal).
Definition outs : list (list Dispatcher.Output) :=
  (Server.run publish to_vec to_value map_to_list from_str
     (Server.start (Server.initial_state 5 [] (f32_lit 5 100))) trace).1.

Lemma signal_published : ("sig.emitted", signal_bytes) ∈ published.
Proof.
  assert (published = [("sig.emitted", signal_bytes)]) as -> by (vm_compute; reflexivity).
  by apply list_elem_of_singleton.
Qed.

Lemma heard m : m = rank \/ m = signal ->
  (FanOut.m_subject m = "sig.emitted" -> ("sig.emitted", FanOut.m_bytes m) ∈ published)
  /\ (Alerts.starts_with "ai.rank." (FanOut.m_subject m) = true ->
      FanOut.topic_suffix (FanOut.m_subject m) <> EmptyString).
Proof.
  intros [-> | ->]; split; intros H.
  - discriminate H.
  - vm_compute. discriminate.
  - exact signal_published.
  - discriminate H.
Qed.

Lemma absent_field (l : list (string * jv)) k : k ∉ l.*1 -> field (JObj l) k = None.
Proof.
  induction l as [| [k' v] l IH]; intros H; [done |]. cbn in *. rewrite decide_False.
  - apply IH. intros Hk. apply H. by right.
  - intros ->. apply H. by left.
Qed.
End GatewaySample.

Lemma fan_out_is_exact_witness :
  length GatewaySample.broadcast = 3%nat
  /\ GatewaySample.broadcast
     ≡ₚ GatewaySample.forward <$> List.filter (fun m => existsb (fun c => PlainMatching.nats_match c.2 (FanOut.m_subject m))
          FanOut.subscriptions) GatewaySample.bus.
Proof.
  split; [vm_compute; reflexivity |].
  refine (proj1 (fan_out_is_exact (J := UiSample.json) GatewaySample.as_u64 GatewaySample.as_array GatewaySample.jf32
    GatewaySample.from_slice GatewaySample.b64 PlainMatching.nats_match GatewaySample.bus GatewaySample.broadcast _)).
  - exact PlainMatching.plain_matching.
  - apply merge_in_turn.
Defined.

(** Two signals, one row. *)
Lemma engine_signals_reach_the_screen_unranked_witness :
  length (concat (ShownSignals.rows <$> GatewaySample.outs)) = 1%nat
  /\ forall n e out, GatewaySample.trace !! n = Some e -> GatewaySample.outs !! n = Some out ->
     (length (ShownSignals.rows out) <= match e with Server.Turn _ (Dispatcher.FlushTick _) => 1 | _ => 0 end)%nat.
Proof.
  split; [vm_compute; reflexivity |]. intros n e out He Hout.
  refine (proj1 (engine_signals_reach_the_screen_unranked (J := UiSample.json) GatewaySample.as_u64
    GatewaySample.as_array GatewaySample.jf32 GatewaySample.from_slice GatewaySample.b64 UiSample.publish UiSample.to_vec
    UiSample.to_value map_to_list UiSample.from_str QuietSample.from_slice QuietSample.messages 5 [] (f32_lit 5 100)
    GatewaySample.trace _ _ _ n e out He Hout)).
  - intros bytes v. unfold GatewaySample.from_slice. case_decide as Hb; [| discriminate].
    intros _. rewrite Hb. repeat constructor; unfold json_byte; lia.
  - exact GatewaySample.absent_field.
  - intros id ev clk [-> | ->]%GatewaySample.events_heard.
    + exists GatewaySample.rank. split; [reflexivity | exact (GatewaySample.heard _ (or_introl eq_refl))].
    + exists GatewaySample.signal. split; [reflexivity | exact (GatewaySample.heard _ (or_intror eq_refl))].
Defined.
